(* ===== verification/_CoqProject ===== *)
-Q . S2P
Prelude.v
Buffer.v
Salsa20.v
Serial.v
Address.v
Poly1305.v
Packet.v
InetAddress.v
Dictionary.v
Hashtable.v
RingBuffer.v
SortedVector.v
Rule.v
Identity.v
Credential.v
Credentials.v
Capability.v
CredentialSet.v
Table.v
NetworkConfig.v
NetconfDict.v
Membership.v
MembershipSpec.v
Filter.v
Network.v
NetworkUpdate.v
ConfigDelivery.v
CredentialTransfer.v
NetworkGroups.v
Runtime.v
Multicaster.v
MulticastSpec.v
Waiting.v
Incoming.v
GroupsDelivery.v
Switch.v
SwitchInv.v
Reassembly.v
Sending.v
Relay.v
World.v
Path.v
Peer.v
Net.v
Topology.v
TopologyInv.v
PeerTable.v
SelfAwareness.v
PeersInv.v
