(* ===== verification/Prelude.v ===== *)
(** * The core of the ZeroTier node of the ESP32 port

    The program is a ZeroTier One node that runs in the firmware of an ESP32: a peer-to-peer virtual Ethernet switch. Its logic is in
    src/ZeroTierOne/node/ (C++), with the types of its C interface in src/ZeroTierOne/include/ZeroTierOne.h. This library models that
    logic from the byte buffers up to the networks a node has joined, one file per component; file names without a directory
    below are files of node/.

    ** How the parts fit together

    A packet from the wire is a [Buffer]; [Packet] authenticates it (Salsa20 and Poly1305), decrypts it and uncompresses it. The objects
    in it ([Identity], [InetAddress], the credentials, [Dictionary]) are deserialised from the buffer. The credentials of another member
    of a network are checked against the controller's signature and filed in its [Membership], a set of [Hashtable]s. A [Network] has a
    [NetworkConfig], the memberships and routes to hosts behind bridges; every Ethernet frame in either direction goes through the rule engine
    ([Filter]), which reads the rules, the tags and the ownership certificates. Between the sockets and these handlers stands the [Switch]: it puts the
    fragments of a packet together, relays packets for other nodes, and sends: it chooses paths, splits a packet to the MTU of each, and
    queues what waits for the identity of its recipient. [Topology] knows the other nodes: a [Peer] has a table of [Path]s on the physical network, and the
    [World]s - a planet and the moons that were joined - say which peers are the roots, upstream of this node. What peers report of this node's own
    address is [SelfAwareness].

    ** Files

    - Prelude (this file): integers of a machine width ([u8] to [u64], [s64]), byte strings, the types [outcome] and [result], copies from
      memory, automation.
    - Buffer (Buffer.hpp): the bounded byte buffer, every operation with its exception; [Serial]: the interface "has a wire form"
      that the types with serialize()/deserialize() are instances of.
    - Salsa20 (Salsa20.cpp) and Poly1305 (Poly1305.cpp): the portable branches, limb by limb.
    - Address (Address.hpp, MAC.hpp), InetAddress (InetAddress.hpp, InetAddress.cpp, MulticastGroup.hpp).
    - Packet (Packet.hpp, Packet.cpp): headers, fragments, armor/dearmor, compression.
    - Dictionary (Dictionary.hpp): the key=value text in which configurations travel.
    - Hashtable (Hashtable.hpp) with its iterator; Table: the interface its clients are written against, with the hash table and
      stdpp's [gmap] as instances. RingBuffer (RingBuffer.hpp).
    - Rule (ZeroTierOne.h, Capability.hpp): flow rules and their wire form. Filter (Network.cpp, _doZtFilter): their evaluation.
    - Identity (Identity.hpp, Identity.cpp): keys, proof of work, text and wire form.
    - Credential, Credentials (modules Tag, COO, Revocation, COM for Tag, CertificateOfOwnership, Revocation and CertificateOfMembership,
      .hpp and .cpp), Capability: what a controller signs; CredentialSet: statements about all of them.
    - NetworkConfig (NetworkConfig.hpp): the data of a configuration and its accessors. NetconfDict (NetworkConfig.cpp, DNS.hpp): its
      dictionary form, written and read back.
    - Membership (Membership.hpp, Membership.cpp), written once for all kinds of credential as the C++ template is. MembershipSpec: what it promises, as rules
      about who holds which credential and what is revoked, and that the operations follow them.
    - Network (Network.cpp, Network.hpp): both packet filters, the memberships, bridge routes and the status. NetworkUpdate (Network.cpp,
      Node.cpp): configurations sent in signed chunks, put together and adopted; ConfigDelivery: that they arrive. CredentialTransfer (Membership.cpp, Network.cpp, IncomingPacket.cpp): credentials
      pushed to another member, relayed revocations, the handler that files them, and that they arrive. NetworkGroups (Network.cpp): multicast
      groups and their announcement, the gate for members, clean. SortedVector: the algorithms of the C++ library on sorted vectors.
    - Runtime (Node.hpp): the state that handlers share, as a state monad whose exceptions keep the state; Multicaster (Multicaster.cpp,
      OutboundMulticast.cpp): members of groups, gathering and sending; Incoming (IncomingPacket.cpp): the handlers of the verbs about networks.
      MulticastSpec, Waiting and GroupsDelivery: what gathering returns, that multicasts which wait go out to a new member, and that announced groups arrive.
    - Switch (Switch.hpp, Switch.cpp): the receive and the transmit queue, reassembly, relaying and sending. SwitchInv: the invariant of the receive
      queue, which every operation keeps; Reassembly: that packets in fragments arrive; Sending: what is put on the wire; Relay: packets for others.
    - World (World.hpp), Path (Path.hpp), Peer (Peer.hpp, and the parts of Peer.cpp that only concern a peer's own data), Net (Peer.cpp, Path.cpp, Node.cpp: the state of a
      node among its peers, and what peers send), Topology (Topology.hpp, Topology.cpp), SelfAwareness (SelfAwareness.cpp). TopologyInv: which worlds are followed and who
      is upstream; PeerTable: the table of paths and the choice of the best; PeersInv: the invariant that all operations on peers keep.

    ** Conventions

    A C++ function is a Rocq function on the values it reads, which returns the values it changes. [outcome] has the three ways a call can
    end: [Ok] with a result, [Throw] with the exception, [Undef] for undefined behaviour of C++ (an access outside an array, a shift by the
    width, signed overflow) and for [abort()] where a file says so. Integers are in [Z] and wrapped where the C++ type wraps;
    [size_t] and [unsigned long] have 32 bits, the byte order is little endian, and the macros are the ones of the ESP32 build
    (ZT_NO_TYPE_PUNNING, no SSE). Memory that C++ leaves uninitialised, random numbers and the clock are arguments.

    Code outside node/ is a parameter: the elliptic curve and SHA-512 are the class [Crypto] of Identity, AES, the key agreement and LZ4
    the class [PacketCrypto] of Packet, the topology's identities the class [Env] of Credential, with the laws that are used as separate classes;
    each has a toy instance with which the witnesses evaluate. The classes [Surroundings] and [Decoder] of Switch are what the switch calls of
    peers, paths and the handlers; Net and Topology model peers and paths themselves, as steps ([net]) on a state that names peers by address and paths by index,
    over the classes [Setup] (what the node is configured with and what the host answers) and [Agreement] (the key agreed with a peer). The two are not composed:
    the law [Introductions] of SwitchInv, that only introducing a peer to itself blocks, is a statement about locks; that it does block in that case is [introduce_self] of PeersInv.
    A mutex that the thread already holds blocks it for ever; the model ends such a run as undefined.

    A definition can lose what was done before an exception only where its comment says so: [on_network], [filter_outgoing] and [filter_incoming].

    ** What the theorems show

    Round trips: what serialize(), toString() or armor() writes is read back by its inverse, for addresses, identities, rules, credentials,
    dictionaries, packets and whole configurations; what the wire does not carry (the value of a rule of a type without a case, the order of tags and capabilities in a
    configuration, single sign-on fields of another version) is named by the functions [wire] and [received]. Safety: parsing arbitrary bytes never leaves the buffer, the dictionary stays within its array, the rule engine never reads outside a frame (with one exception, which
    [tcp_flags_undef_iff] describes). Refinement: the dictionary is an association list, the hash table a finite map, the ring a queue,
    Salsa20 a stream cipher in counter mode, Poly1305 the polynomial of RFC 7539, a membership follows the rules of MembershipSpec. Security: what is signed determines the
    credential, a packet that is accepted carries the right tag, an old credential stays revoked, frames pass the filters only if
    the rules or a valid capability let them, a configuration is adopted only from the controller. Liveness: what a controller sends makes a member adopt
    its configuration, whatever the order of the chunks; the credentials a member pushes are held by the receiver afterwards;
    a member that announces its groups is in them, though multicasts wait for them; a packet whose fragments arrive, in whatever order, is decoded as it was sent. Sending: the datagrams of a
    packet are the packet, armored or marked for a trusted path, cut to the MTU of the path; relaying: at most one datagram leaves, the one received with a hop more. The receive
    queue keeps its form, and a datagram is handled to the end, except where introducing a node to itself blocks. Peers and worlds: the table of paths keeps its form and the best path is
    chosen; a world is only replaced by its successor, and the upstreams are the roots. Handlers: a frame reaches
    the host only through the gate, the filter and the checks for bridging ([Incoming.frames_accepted]).

    ** Fuel

    Loops over a list are structural. [Fixpoint]s with fuel are given a bound computed from the input (the length of the array, the
    number of bytes left, the number of buckets), and the theorems show that it is enough: none of them concludes only "if it returns".

    ** Not modelled

    - Pure input and output, and threads: service/, osdep/, one.cpp, src/main, the port layer of src/components (sockets, NVS storage, tasks).
    - Vendored and generated code (ext/), bindings (java/, rustybits/, windows/), controllers (nonfree/), attic/, build files.
    - ECC.cpp, SHA512.cpp, AES.cpp: parameters, see above. Trace, Bond and Metrics: diagnostics and link aggregation.
    - Of the modelled components: the floating point statistics of RingBuffer, the text form of IP addresses (snprintf, inet_pton), comparisons by memcmp of
      whole objects with their padding, log messages.
    - Of Switch: onLocalEthernet (frames of the host) and the queues for quality of service.
    - Of IncomingPacket: tryDecode, which calls the handlers, and the handlers of HELLO, WHOIS, RENDEZVOUS, ECHO and PUSH_DIRECT_PATHS and of the replies to HELLO and WHOIS;
      of Peer and Path: bonds. The background tasks of Node; Network::requestConfiguration. *)

From Stdlib Require Export ZArith Lia.
From stdpp Require Export base tactics list gmap numbers option.

#[global] Open Scope Z_scope.

(** ** Machine integers *)

(** [wrap w z] is [z] stored in a [w]-bit unsigned integer. *)
Definition wrap (w z : Z) : Z := z mod 2 ^ w.

(** The casts [(uint8_t)], [(uint16_t)], [(uint32_t)] and [(uint64_t)]. *)
Definition u8 (z : Z) : Z := wrap 8 z.
Definition u16 (z : Z) : Z := wrap 16 z.
Definition u32 (z : Z) : Z := wrap 32 z.
Definition u64 (z : Z) : Z := wrap 64 z.

(** The casts [(int32_t)] and [(int64_t)], two's complement. *)
Definition swrap (w z : Z) : Z := (z + 2 ^ (w - 1)) mod 2 ^ w - 2 ^ (w - 1).
Definition s32 (z : Z) : Z := swrap 32 z.
Definition s64 (z : Z) : Z := swrap 64 z.

Definition byte_ok (b : Z) : Prop := 0 <= b < 256.
Definition bytes_ok (bs : list Z) : Prop := Forall byte_ok bs.

(** Values of unsigned and signed [n]-bit fields. *)
Definition rng (n : Z) (x : Z) : Prop := 0 <= x < 2 ^ n.
Definition srng (n : Z) (x : Z) : Prop := - 2 ^ (n - 1) <= x < 2 ^ (n - 1).

#[export] Instance byte_ok_dec b : Decision (byte_ok b).
Proof. unfold byte_ok; apply _. Defined.
#[export] Instance rng_dec n x : Decision (rng n x).
Proof. unfold rng; apply _. Defined.
#[export] Instance srng_dec n x : Decision (srng n x).
Proof. unfold srng; apply _. Defined.
#[export] Instance bytes_ok_dec bs : Decision (bytes_ok bs).
Proof. unfold bytes_ok; apply _. Defined.

(** [by_compute]: close a decidable goal on concrete data by evaluation. *)
Ltac by_compute := apply (bool_decide_unpack _); vm_compute; exact I.

(** Length of a list as a C integer. *)
Definition zlen {A} (l : list A) : Z := Z.of_nat (length l).

Ltac unfold_words :=
  unfold u8, u16, u32, u64, s32, s64, swrap, wrap in *;
  change (2 ^ 8) with 256 in *;
  change (2 ^ 16) with 65536 in *;
  change (2 ^ 32) with 4294967296 in *;
  change (2 ^ (32 - 1)) with 2147483648 in *;
  change (2 ^ (64 - 1)) with 9223372036854775808 in *;
  change (2 ^ 64) with 18446744073709551616 in *.

(** [word]: linear arithmetic that also knows the casts, [byte_ok] and [zlen]. *)
Ltac word :=
  intros; unfold zlen, byte_ok in *; unfold_words;
  Z.div_mod_to_equations; lia.

Lemma wrap_small w z : 0 <= z < 2 ^ w -> wrap w z = z.
Proof. apply Z.mod_small. Qed.

Lemma wrap_range w z : 0 <= w -> 0 <= wrap w z < 2 ^ w.
Proof. intros; apply Z.mod_pos_bound; lia. Qed.

Lemma u8_small z : byte_ok z -> u8 z = z.
Proof. word. Qed.
Lemma u16_small z : 0 <= z < 65536 -> u16 z = z.
Proof. word. Qed.
Lemma u32_small z : 0 <= z < 4294967296 -> u32 z = z.
Proof. word. Qed.
Lemma u64_small z : 0 <= z < 18446744073709551616 -> u64 z = z.
Proof. word. Qed.
Lemma u8_ok z : byte_ok (u8 z).
Proof. word. Qed.
Create HintDb bytes discriminated.
#[export] Hint Resolve u8_ok : bytes.

Lemma zlen_nonneg {A} (l : list A) : 0 <= zlen l.
Proof. word. Qed.
Lemma zlen_app {A} (l k : list A) : zlen (l ++ k) = zlen l + zlen k.
Proof. unfold zlen; rewrite length_app; lia. Qed.
Lemma zlen_cons {A} (x : A) l : zlen (x :: l) = 1 + zlen l.
Proof. unfold zlen; simpl; lia. Qed.
Lemma zlen_nil {A} : zlen (@nil A) = 0.
Proof. reflexivity. Qed.
Create Rewrite HintDb zlen.
#[export] Hint Rewrite @zlen_app @zlen_cons @zlen_nil : zlen.

(** ** Bits *)

Lemma lor_add (a b : Z) k : 0 <= k -> 0 <= b < 2 ^ k -> Z.lor (Z.shiftl a k) b = a * 2 ^ k + b.
Proof.
  intros Hk Hb. rewrite Z.shiftl_mul_pow2 by lia.
  rewrite <- Z.add_lor_land, Z.lor_comm.
  assert (Z.land (a * 2 ^ k) b = 0) as ->; [|lia].
  apply Z.bits_inj'; intros i Hi. rewrite Z.land_spec, Z.bits_0.
  destruct (Z.ltb_spec i k).
  - rewrite Z.mul_pow2_bits_low by lia. done.
  - destruct (decide (b = 0)) as [->|]; [by rewrite Z.bits_0, andb_false_r|].
    rewrite (Z.bits_above_log2 b i), andb_false_r; [done|lia|].
    apply Z.lt_le_trans with k; [|lia]. apply Z.log2_lt_pow2; lia.
Qed.

Lemma shiftr_byte v k : 0 <= k -> u8 (Z.shiftr v k) = (v / 2 ^ k) mod 256.
Proof. intros; unfold u8, wrap; by rewrite Z.shiftr_div_pow2. Qed.

(** ** Big-endian integers

    [be_bytes n v]: the loop [*(p++) = (uint8_t)(v >> (8 * (sizeof(T) - x)))] for
    [x = 1 .. sizeof(T)]; [be_int bs]: the loop [v <<= 8; v |= *(p++)]. *)
Fixpoint be_bytes (n : nat) (v : Z) : list Z :=
  match n with
  | O => []
  | S m => u8 (Z.shiftr v (8 * Z.of_nat m)) :: be_bytes m v
  end.

Definition be_int (bs : list Z) : Z :=
  fold_left (fun v b => Z.lor (Z.shiftl v 8) b) bs 0.

Lemma length_be_bytes n v : length (be_bytes n v) = n.
Proof. induction n; simpl; auto. Qed.

Lemma zlen_be_bytes n v : zlen (be_bytes n v) = Z.of_nat n.
Proof. unfold zlen; by rewrite length_be_bytes. Qed.
#[export] Hint Rewrite zlen_be_bytes : zlen.
#[export] Hint Extern 2 (zlen _ < _) => autorewrite with zlen; lia : bytes.

Lemma bytes_ok_be_bytes n v : bytes_ok (be_bytes n v).
Proof. induction n; constructor; auto with bytes. Qed.
#[export] Hint Resolve bytes_ok_be_bytes : bytes.

Lemma bytes_ok_app l k : bytes_ok (l ++ k) <-> bytes_ok l /\ bytes_ok k.
Proof. apply Forall_app. Qed.

Lemma bytes_ok_lookup bs i b : bytes_ok bs -> bs !! i = Some b -> byte_ok b.
Proof. intros; by eapply Forall_lookup_1. Qed.

(** The accumulator form of [be_int], by which it is reasoned about. *)
Definition be_acc (acc : Z) (bs : list Z) : Z :=
  fold_left (fun v b => Z.lor (Z.shiftl v 8) b) bs acc.

Lemma be_acc_eq acc bs :
  bytes_ok bs -> be_acc acc bs = acc * 2 ^ (8 * zlen bs) + be_acc 0 bs.
Proof.
  revert acc; induction bs as [|b bs IH]; intros acc Hok.
  { change (be_acc acc []) with acc. change (be_acc 0 []) with 0.
    change (2 ^ (8 * zlen (@nil Z))) with 1. lia. }
  inversion Hok as [|?? Hb Hbs]; subst.
  change (be_acc acc (b :: bs)) with (be_acc (Z.lor (Z.shiftl acc 8) b) bs).
  change (be_acc 0 (b :: bs)) with (be_acc (Z.lor (Z.shiftl 0 8) b) bs).
  rewrite !lor_add by (unfold byte_ok in Hb; lia).
  rewrite IH, (IH (0 * 2 ^ 8 + b)) by done.
  rewrite zlen_cons, Z.mul_add_distr_l, Z.pow_add_r by (pose proof (zlen_nonneg bs); lia).
  change (2 ^ (8 * 1)) with 256. change (2 ^ 8) with 256. ring.
Qed.

Lemma be_int_cons b bs :
  byte_ok b -> bytes_ok bs -> be_int (b :: bs) = b * 2 ^ (8 * zlen bs) + be_int bs.
Proof.
  intros Hb Hbs. change (be_int (b :: bs)) with (be_acc b bs).
  rewrite be_acc_eq by done. reflexivity.
Qed.

Lemma be_int_range bs : bytes_ok bs -> 0 <= be_int bs < 2 ^ (8 * zlen bs).
Proof.
  induction bs as [|b bs IH]; intros Hok; [compute; intuition congruence|].
  inversion Hok as [|?? Hb Hbs]; subst. rewrite be_int_cons by done.
  specialize (IH Hbs). unfold byte_ok in Hb.
  rewrite zlen_cons, Z.mul_add_distr_l, Z.pow_add_r by (pose proof (zlen_nonneg bs); lia).
  change (2 ^ (8 * 1)) with 256. nia.
Qed.

Lemma be_int_be_bytes n v : be_int (be_bytes n v) = v mod 2 ^ (8 * Z.of_nat n).
Proof.
  induction n as [|n IH]; [by rewrite Z.mod_1_r|].
  cbn [be_bytes]. rewrite be_int_cons by auto with bytes.
  rewrite IH, zlen_be_bytes, shiftr_byte by lia.
  replace (8 * Z.of_nat (S n)) with (8 * Z.of_nat n + 8) by lia.
  rewrite Z.pow_add_r by lia. change (2 ^ 8) with 256.
  rewrite Z.rem_mul_r by lia. lia.
Qed.

Lemma be_bytes_mod n v k :
  8 * Z.of_nat n <= k -> be_bytes n (v mod 2 ^ k) = be_bytes n v.
Proof.
  intros Hk; induction n as [|n IH]; [done|]. cbn [be_bytes].
  rewrite IH by lia. f_equal. rewrite !shiftr_byte by lia.
  apply Z.bits_inj'; intros i Hi. destruct (Z.ltb_spec i 8).
  - change 256 with (2 ^ 8). rewrite !Z.mod_pow2_bits_low, !Z.div_pow2_bits by lia.
    by rewrite Z.mod_pow2_bits_low by lia.
  - change 256 with (2 ^ 8). by rewrite !Z.mod_pow2_bits_high by lia.
Qed.

Lemma be_bytes_be_int bs : bytes_ok bs -> be_bytes (length bs) (be_int bs) = bs.
Proof.
  induction bs as [|b bs IH]; intros Hok; [done|].
  inversion Hok as [|?? Hb Hbs]; subst. cbn [length be_bytes].
  rewrite be_int_cons by done. change (Z.of_nat (length bs)) with (zlen bs).
  pose proof (be_int_range bs Hbs) as Hr. pose proof (zlen_nonneg bs) as Hl.
  f_equal.
  - rewrite shiftr_byte, Z.div_add_l, (Z.div_small (be_int bs)) by lia.
    rewrite Z.add_0_r. by apply u8_small.
  - rewrite <- (be_bytes_mod _ _ (8 * zlen bs)) by (unfold zlen; lia).
    rewrite Z.add_comm, Z.mod_add, Z.mod_small by lia. by apply IH.
Qed.

(** ** Outcomes of C++ code

    [Throw] is a C++ exception ([throw ZT_EXCEPTION_...], Constants.hpp);
    [Undef] is the loss of the process: undefined behaviour, such as an access outside the object
    it is made on, or a call of [abort()]. *)
Inductive exn :=
  | OutOfBounds | OutOfMemory | PrivateKeyRequired | InvalidArgument | InvalidIdentity
  | InvalidType | Overflow | InvalidCryptographicToken | BadEncoding.

Inductive outcome (A : Type) : Type :=
  | Ok (a : A)
  | Throw (e : exn)
  | Undef.
Arguments Ok {A} _.
Arguments Throw {A} _.
Arguments Undef {A}.

#[export] Instance exn_eq_dec : EqDecision exn.
Proof. solve_decision. Defined.
#[export] Instance outcome_eq_dec {A} `{EqDecision A} : EqDecision (outcome A).
Proof. solve_decision. Defined.

#[export] Instance outcome_ret : MRet outcome := @Ok.
#[export] Instance outcome_bind : MBind outcome := fun A B f m =>
  match m with Ok a => f a | Throw e => Throw e | Undef => Undef end.
#[export] Instance outcome_fmap : FMap outcome := fun A B f m =>
  match m with Ok a => Ok (f a) | Throw e => Throw e | Undef => Undef end.

(** [if (c) throw e;] *)
Definition throw_if (c : bool) (e : exn) : outcome unit :=
  if c then Throw e else Ok tt.

(** The code returns or throws, it never runs into undefined behaviour. *)
Definition safe {A} (m : outcome A) : Prop := m <> Undef.

(** The code never runs into undefined behaviour, and what it returns satisfies [P]. *)
Definition returns {A} (P : A -> Prop) (m : outcome A) : Prop :=
  match m with Ok a => P a | Throw _ => True | Undef => False end.

Lemma returns_bind {A B} (P : A -> Prop) (Q : B -> Prop) (m : outcome A) f :
  returns P m -> (forall a, P a -> returns Q (f a)) -> returns Q (m ≫= f).
Proof. destruct m; simpl; auto. Qed.

Lemma returns_mono {A} (P Q : A -> Prop) (m : outcome A) :
  (forall a, P a -> Q a) -> returns P m -> returns Q m.
Proof. destruct m; simpl; auto. Qed.

Lemma returns_safe {A} (P : A -> Prop) (m : outcome A) : returns P m -> safe m.
Proof. destruct m; simpl; done. Qed.

Lemma returns_throw_if c e : returns (fun _ => c = false) (throw_if c e).
Proof. by destruct c. Qed.

(** Two computations run in step: both return, with related values, or both fail the same way. *)
Definition out_rel {A B} (R : A -> B -> Prop) (m : outcome A) (n : outcome B) : Prop :=
  match m, n with
  | Ok a, Ok b => R a b
  | Throw e, Throw e' => e = e'
  | Undef, Undef => True
  | _, _ => False
  end.

Lemma out_rel_bind {A B A' B'} (R : A -> B -> Prop) (S : A' -> B' -> Prop) m n f g :
  out_rel R m n -> (forall a b, R a b -> out_rel S (f a) (g b)) -> out_rel S (m ≫= f) (n ≫= g).
Proof. destruct m, n; simpl; naive_solver. Qed.

Lemma out_rel_eq {A B} (S : A -> B -> Prop) (X : Type) (m n : outcome X) f g :
  m = n -> (forall x, out_rel S (f x) (g x)) -> out_rel S (m ≫= f) (n ≫= g).
Proof. intros ->. destruct n; simpl; auto. Qed.

Lemma bind_Ok {A B} (m : outcome A) (f : A -> outcome B) b :
  m ≫= f = Ok b -> exists a, m = Ok a /\ f a = Ok b.
Proof. destruct m; simpl; try done. eauto. Qed.

(** [inv_ok H] splits [H : x ← m; k = Ok b] into its steps. *)
Ltac inv_ok H :=
  let a := fresh "v" in let H1 := fresh "H" in
  apply bind_Ok in H; destruct H as (a & H1 & H).

(** How a step of a handler ends: what it changed in the state [S] before an exception stays changed. *)
Inductive result (S A : Type) := Done (s : S) (a : A) | Threw (s : S) (e : exn) | Undefined.
Arguments Done {S A}.
Arguments Threw {S A}.
Arguments Undefined {S A}.

(** ** Memory: an array object is a list of bytes *)

Definition mem_read {A} (m : list A) (i n : Z) : outcome (list A) :=
  if (0 <=? i) && (0 <=? n) && (i + n <=? zlen m)
  then Ok (take (Z.to_nat n) (drop (Z.to_nat i) m)) else Undef.

Definition mem_write {A} (m : list A) (i : Z) (bs : list A) : outcome (list A) :=
  if (0 <=? i) && (i + zlen bs <=? zlen m)
  then Ok (take (Z.to_nat i) m ++ bs ++ drop (Z.to_nat (i + zlen bs)) m) else Undef.

Lemma mem_read_Ok {A} (m : list A) (i : Z) (n : Z) :
  0 <= i -> 0 <= n -> i + n <= zlen m ->
  mem_read m i n = Ok (take (Z.to_nat n) (drop (Z.to_nat i) m)).
Proof. intros; unfold mem_read. by rewrite !(proj2 (Z.leb_le _ _)) by lia. Qed.

Lemma mem_read_app {A} (pre : list A) (bs : list A) (post : list A) :
  mem_read (pre ++ bs ++ post) (zlen pre) (zlen bs) = Ok bs.
Proof.
  rewrite mem_read_Ok by (rewrite ?zlen_app; unfold zlen; lia).
  unfold zlen; rewrite !Nat2Z.id, drop_app_length, take_app_length. done.
Qed.

Lemma zlen_take {A} (l : list A) n : 0 <= n <= zlen l -> zlen (take (Z.to_nat n) l) = n.
Proof. unfold zlen; intros; rewrite length_take; lia. Qed.

Lemma zlen_drop {A} (l : list A) n : 0 <= n <= zlen l -> zlen (drop (Z.to_nat n) l) = zlen l - n.
Proof. unfold zlen; intros; rewrite length_drop; lia. Qed.

Lemma mem_read_spec m i n :
  bytes_ok m -> 0 <= i -> 0 <= n -> i + n <= zlen m ->
  exists bs, mem_read m i n = Ok bs /\ bytes_ok bs /\ zlen bs = n.
Proof.
  intros Hok ???. rewrite mem_read_Ok by done. eexists; split; [done|]. split.
  - by apply Forall_take, Forall_drop.
  - apply zlen_take. rewrite zlen_drop by lia. lia.
Qed.

Lemma mem_write_Ok {A} (m : list A) (i : Z) (bs : list A) :
  0 <= i -> i + zlen bs <= zlen m ->
  mem_write m i bs = Ok (take (Z.to_nat i) m ++ bs ++ drop (Z.to_nat (i + zlen bs)) m).
Proof. intros; unfold mem_write. by rewrite !(proj2 (Z.leb_le _ _)) by lia. Qed.

(** A write in range keeps the object's size and bytes, puts [bs] at [i] and keeps the
    prefix before [i]. *)
Lemma mem_write_spec m i bs :
  bytes_ok m -> bytes_ok bs -> 0 <= i -> i + zlen bs <= zlen m ->
  exists m', mem_write m i bs = Ok m' /\ bytes_ok m' /\ zlen m' = zlen m /\
    take (Z.to_nat (i + zlen bs)) m' = take (Z.to_nat i) m ++ bs.
Proof.
  intros Hm Hbs ??. pose proof (zlen_nonneg bs). rewrite mem_write_Ok by done.
  eexists; split; [done|]. repeat split.
  - rewrite !bytes_ok_app; repeat split; [by apply Forall_take|done|by apply Forall_drop].
  - rewrite !zlen_app, zlen_take, zlen_drop by lia. lia.
  - rewrite app_assoc. apply take_app_length'. rewrite length_app, length_take.
    unfold zlen in *; lia.
Qed.

(** ** Ranges of bitwise operations *)

Lemma testbit_above x n i : 0 <= x < 2 ^ n -> 0 <= n <= i -> Z.testbit x i = false.
Proof. intros Hx Hi. rewrite <- (Z.mod_small x (2 ^ n)) by done. apply Z.mod_pow2_bits_high; lia. Qed.

Lemma range_of_bits x n :
  0 <= n -> 0 <= x -> (forall i, n <= i -> Z.testbit x i = false) -> x < 2 ^ n.
Proof.
  intros Hn Hx Hb. destruct (Z.lt_ge_cases x (2 ^ n)) as [|Hge]; [done|]. exfalso.
  assert (0 < x) by (pose proof (Z.pow_pos_nonneg 2 n ltac:(lia) Hn); lia).
  assert (n <= Z.log2 x) as Hl by (apply Z.log2_le_pow2; lia).
  specialize (Hb _ Hl). by rewrite Z.bit_log2 in Hb by lia.
Qed.

Lemma lxor_range a b n : 0 <= n -> 0 <= a < 2 ^ n -> 0 <= b < 2 ^ n -> 0 <= Z.lxor a b < 2 ^ n.
Proof.
  intros Hn Ha Hb. assert (0 <= Z.lxor a b) by (apply Z.lxor_nonneg; lia). split; [done|].
  apply range_of_bits; [done..|]. intros i Hi. by rewrite Z.lxor_spec, !(testbit_above _ n) by lia.
Qed.

Lemma lor_range a b n : 0 <= n -> 0 <= a < 2 ^ n -> 0 <= b < 2 ^ n -> 0 <= Z.lor a b < 2 ^ n.
Proof.
  intros Hn Ha Hb. assert (0 <= Z.lor a b) by (apply Z.lor_nonneg; lia). split; [done|].
  apply range_of_bits; [done..|]. intros i Hi. by rewrite Z.lor_spec, !(testbit_above _ n) by lia.
Qed.

Lemma shiftl_range a k n : 0 <= k <= n -> 0 <= a < 2 ^ (n - k) -> 0 <= Z.shiftl a k < 2 ^ n.
Proof.
  intros Hk Ha. rewrite Z.shiftl_mul_pow2 by lia.
  replace (2 ^ n) with (2 ^ (n - k) * 2 ^ k); [nia|]. rewrite <- Z.pow_add_r by lia. f_equal; lia.
Qed.

Lemma land_ones_range a n : 0 <= n -> 0 <= Z.land a (Z.ones n) < 2 ^ n.
Proof. intros. rewrite Z.land_ones by lia. apply Z.mod_pos_bound; lia. Qed.

Lemma land_lxor_distr a b c : Z.land (Z.lxor a b) c = Z.lxor (Z.land a c) (Z.land b c).
Proof.
  apply Z.bits_inj'; intros i Hi. rewrite Z.land_spec, !Z.lxor_spec, !Z.land_spec.
  by destruct (Z.testbit a i), (Z.testbit b i), (Z.testbit c i).
Qed.

Lemma land_ones_id a n : 0 <= a < 2 ^ n -> 0 <= n -> Z.land a (Z.ones n) = a.
Proof. intros. rewrite Z.land_ones by lia. by apply Z.mod_small. Qed.

Lemma land_ones_shiftl a b n :
  0 <= n -> 0 <= b < 2 ^ n -> Z.land (Z.lor (Z.shiftl a n) b) (Z.ones n) = b.
Proof.
  intros. rewrite lor_add, Z.land_ones by lia.
  by rewrite Z.add_comm, Z.mod_add, Z.mod_small by lia.
Qed.

Lemma be_int_app x y : bytes_ok x -> bytes_ok y -> be_int (x ++ y) = be_int x * 2 ^ (8 * zlen y) + be_int y.
Proof.
  intros Hx Hy. change (be_int (x ++ y)) with (be_acc 0 (x ++ y)). unfold be_acc.
  rewrite fold_left_app. change (fold_left _ x 0) with (be_int x).
  change (be_acc (be_int x) y = be_int x * 2 ^ (8 * zlen y) + be_int y).
  by rewrite be_acc_eq.
Qed.

Lemma be_int_inj x y : bytes_ok x -> bytes_ok y -> length x = length y -> be_int x = be_int y -> x = y.
Proof.
  intros Hx Hy Hl He. rewrite <- (be_bytes_be_int x Hx), <- (be_bytes_be_int y Hy). by rewrite Hl, He.
Qed.

Lemma land_concat a b x y k :
  0 <= k -> 0 <= x < 2 ^ k -> 0 <= y < 2 ^ k ->
  Z.land (a * 2 ^ k + x) (b * 2 ^ k + y) = Z.land a b * 2 ^ k + Z.land x y.
Proof.
  intros Hk Hx Hy.
  assert (0 <= Z.land x y < 2 ^ k) as Hxy.
  { rewrite <- (land_ones_id x k) by lia. rewrite <- Z.land_assoc, (Z.land_comm _ y), Z.land_assoc.
    apply land_ones_range; lia. }
  rewrite <- !lor_add by done. apply Z.bits_inj'; intros i Hi.
  rewrite Z.land_spec, !Z.lor_spec, !Z.shiftl_spec, !Z.land_spec by done.
  destruct (Z.ltb_spec i k).
  - by rewrite !(Z.testbit_neg_r _ (i - k)) by lia.
  - rewrite !(testbit_above x k), !(testbit_above y k) by lia.
    by rewrite !orb_false_r.
Qed.

Lemma byte_ok_land x y : byte_ok x -> byte_ok y -> byte_ok (Z.land x y).
Proof.
  unfold byte_ok; intros Hx Hy. change 256 with (2 ^ 8) in *.
  rewrite <- (land_ones_id x 8) by lia. rewrite <- Z.land_assoc, (Z.land_comm _ y), Z.land_assoc.
  apply land_ones_range; lia.
Qed.

Lemma bytes_ok_zip_land x y : bytes_ok x -> bytes_ok y -> bytes_ok (zip_with Z.land x y).
Proof.
  intros Hx; revert y; induction Hx as [|a x Ha Hx IH]; intros y Hy; [constructor|].
  destruct Hy; constructor; [by apply byte_ok_land|by apply IH].
Qed.

Lemma be_int_zip_land x : forall y,
  bytes_ok x -> bytes_ok y -> length x = length y ->
  be_int (zip_with Z.land x y) = Z.land (be_int x) (be_int y).
Proof.
  induction x as [|a x IH]; intros [|b y] Hx Hy Hl; try done.
  inversion Hx; inversion Hy; subst. injection Hl as Hl. cbn [zip_with].
  rewrite !be_int_cons by auto using byte_ok_land, bytes_ok_zip_land.
  rewrite IH by done.
  assert (zlen (zip_with Z.land x y) = zlen x) as ->.
  { unfold zlen. rewrite length_zip_with. lia. }
  assert (zlen y = zlen x) as -> by (unfold zlen; by rewrite Hl).
  rewrite land_concat; [done|unfold zlen; lia|by apply be_int_range|].
  unfold zlen; rewrite Hl. by apply be_int_range.
Qed.

(** Masking with the top [n - k] of [n] bits rounds down to a multiple of [2 ^ k]. *)
Lemma land_prefix_mask a n k :
  0 <= k <= n -> 0 <= a < 2 ^ n -> Z.land a (2 ^ n - 2 ^ k) = a / 2 ^ k * 2 ^ k.
Proof.
  intros Hk Ha.
  assert (2 ^ n - 2 ^ k = Z.shiftl (Z.ones (n - k)) k) as ->.
  { rewrite Z.shiftl_mul_pow2, Z.ones_equiv by lia. unfold Z.pred.
    rewrite Z.mul_add_distr_r, <- Z.pow_add_r by lia. replace (n - k + k) with n by lia. lia. }
  rewrite <- Z.shiftl_mul_pow2, <- Z.shiftr_div_pow2 by lia.
  apply Z.bits_inj'; intros i Hi. rewrite Z.land_spec, !Z.shiftl_spec by done.
  destruct (Z.ltb_spec i k).
  - by rewrite !(Z.testbit_neg_r _ (i - k)), andb_false_r by lia.
  - rewrite Z.shiftr_spec by lia. replace (i - k + k) with i by lia.
    destruct (Z.ltb_spec (i - k) (n - k)).
    + by rewrite Z.ones_spec_low, andb_true_r by lia.
    + by rewrite (testbit_above a n) by lia.
Qed.

(** ** Writing one byte *)

Lemma mem_write1 {A} (m : list A) (i : Z) (c : A) :
  0 <= i < zlen m -> mem_write m i [c] = Ok (<[Z.to_nat i := c]> m).
Proof.
  unfold zlen; intros Hi. rewrite mem_write_Ok by (change (zlen [c]) with 1; unfold zlen; lia).
  rewrite insert_take_drop by lia. change (zlen [c]) with 1.
  by replace (Z.to_nat (i + 1)) with (S (Z.to_nat i)) by lia.
Qed.

Lemma zlen_insert {A} (l : list A) i x : zlen (<[i := x]> l) = zlen l.
Proof. unfold zlen; by rewrite length_insert. Qed.
#[export] Hint Rewrite @zlen_insert : zlen.

Lemma mem_write_split {A} (l : list A) (r : list A) (bs : list A) :
  (length bs <= length r)%nat -> mem_write (l ++ r) (zlen l) bs = Ok (l ++ bs ++ drop (length bs) r).
Proof.
  intros Hl. rewrite mem_write_Ok by (unfold zlen; rewrite ?length_app; lia). f_equal.
  unfold zlen. rewrite Nat2Z.id, take_app_length, Z2Nat.inj_add, !Nat2Z.id by lia.
  by rewrite drop_app_add.
Qed.

Lemma split_at {A} (m : list A) i :
  0 <= i < zlen m -> exists l x r, m = l ++ x :: r /\ i = zlen l.
Proof.
  unfold zlen; intros Hi. destruct (lookup_lt_is_Some_2 m (Z.to_nat i)) as [x Hx]; [lia|].
  exists (take (Z.to_nat i) m), x, (drop (S (Z.to_nat i)) m).
  rewrite take_drop_middle by done. split; [done|]. rewrite length_take; lia.
Qed.

(** A write is the sequence of the writes of its bytes. *)
Lemma mem_write_cons {A} (m : list A) (i : Z) (c : A) (bs : list A) :
  0 <= i -> i + zlen (c :: bs) <= zlen m ->
  mem_write m i (c :: bs) = mem_write (<[Z.to_nat i := c]> m) (i + 1) bs.
Proof.
  rewrite zlen_cons; intros Hi Hl. pose proof (zlen_nonneg bs).
  destruct (split_at m i) as (l & x & r & -> & ->); [lia|].
  autorewrite with zlen in Hl. rewrite mem_write_split by (simpl; unfold zlen in *; lia).
  replace (<[Z.to_nat (zlen l) := c]> (l ++ x :: r)) with ((l ++ [c]) ++ r).
  - replace (zlen l + 1) with (zlen (l ++ [c])) by (by autorewrite with zlen).
    rewrite mem_write_split by (unfold zlen in *; lia). simpl. by rewrite <- app_assoc.
  - unfold zlen. rewrite Nat2Z.id, insert_app_r_alt by lia. rewrite Nat.sub_diag. simpl. by rewrite <- app_assoc.
Qed.

Lemma mem_write_nil {A} (m : list A) (i : Z) : 0 <= i <= zlen m -> mem_write m i [] = Ok m.
Proof.
  intros. rewrite mem_write_Ok by (rewrite ?zlen_nil; lia). simpl. rewrite zlen_nil, Z.add_0_r.
  by rewrite take_drop.
Qed.

Lemma take_insert_le {A} (l : list A) (i j : nat) x : (i <= j)%nat -> take i (<[j := x]> l) = take i l.
Proof. intros. by apply take_insert_ge. Qed.
