(* ===== verification/Buffer.v ===== *)
(** * Bounds-checked byte buffers (node/Buffer.hpp)

    [Buffer<C>]: a C array [_b] of [C] bytes and the size [_l] of the data in it. The ESP32
    build defines ZT_NO_TYPE_PUNNING, so [setAt], [at] and [append] are the byte loops.
    [unsigned int] and [size_t] are both 32 bits wide there, so the sums in the bounds
    checks wrap at 2^32; they are modelled with [u32]. *)

From S2P Require Import Prelude.

Record Buffer := mkBuffer { _b : list Z; _l : Z }.

(** ** Operations *)

Definition capacity (b : Buffer) : Z := zlen (_b b).
Definition size (b : Buffer) : Z := _l b.

(** [Buffer(unsigned int l)] over the uninitialised array [mem]. *)
Definition Buffer_sized (mem : list Z) (l : Z) : outcome Buffer :=
  throw_if (zlen mem <? l) OutOfBounds ≫= fun _ => Ok (mkBuffer mem l).

(** [operator=]: [dst] is the target, whose capacity may differ. *)
Definition assign (dst b : Buffer) : outcome Buffer :=
  _ ← throw_if (capacity dst <? _l b) OutOfBounds;
  if capacity b =? capacity dst then Ok b
  else bs ← mem_read (_b b) 0 (_l b);
       m ← mem_write (_b dst) 0 bs;
       Ok (mkBuffer m (_l b)).

Definition copyFrom (b : Buffer) (bs : list Z) : outcome Buffer :=
  _ ← throw_if (capacity b <? zlen bs) OutOfBounds;
  m ← mem_write (_b b) 0 bs;
  Ok (mkBuffer m (zlen bs)).

(** [b[i]] as an rvalue and as the target of an assignment. *)
Definition index (b : Buffer) (i : Z) : outcome Z :=
  _ ← throw_if (_l b <=? i) OutOfBounds;
  bs ← mem_read (_b b) i 1;
  Ok (be_int bs).

Definition setIndex (b : Buffer) (i v : Z) : outcome Buffer :=
  _ ← throw_if (_l b <=? i) OutOfBounds;
  m ← mem_write (_b b) i [u8 v];
  Ok (mkBuffer m (_l b)).

(** [field(i, l)], read by its caller: the [l] bytes at [i]. *)
Definition field (b : Buffer) (i l : Z) : outcome (list Z) :=
  _ ← throw_if (_l b <? u32 (i + l)) OutOfBounds;
  mem_read (_b b) i l.

(** [setAt<T>] and [at<T>] with [sizeof(T) = n]. *)
Definition setAt (n : nat) (b : Buffer) (i v : Z) : outcome Buffer :=
  _ ← throw_if (_l b <? u32 (i + Z.of_nat n)) OutOfBounds;
  m ← mem_write (_b b) i (be_bytes n v);
  Ok (mkBuffer m (_l b)).

Definition at_ (n : nat) (b : Buffer) (i : Z) : outcome Z :=
  _ ← throw_if (_l b <? u32 (i + Z.of_nat n)) OutOfBounds;
  bs ← mem_read (_b b) i (Z.of_nat n);
  Ok (be_int bs).

(** [append(const T v)] with [sizeof(T) = n]. *)
Definition append_int (n : nat) (b : Buffer) (v : Z) : outcome Buffer :=
  _ ← throw_if (capacity b <? u32 (_l b + Z.of_nat n)) OutOfBounds;
  m ← mem_write (_b b) (_l b) (be_bytes n v);
  Ok (mkBuffer m (u32 (_l b + Z.of_nat n))).

(** [append(unsigned char c, unsigned int n)] *)
Definition append_run (b : Buffer) (c n : Z) : outcome Buffer :=
  _ ← throw_if (capacity b <? u32 (_l b + n)) OutOfBounds;
  m ← mem_write (_b b) (_l b) (replicate (Z.to_nat n) (u8 c));
  Ok (mkBuffer m (u32 (_l b + n))).

(** [append(const void *b, unsigned int l)], where [l] is the length of [bs]. *)
Definition append (b : Buffer) (bs : list Z) : outcome Buffer :=
  _ ← throw_if (capacity b <? u32 (_l b + zlen bs)) OutOfBounds;
  m ← mem_write (_b b) (_l b) bs;
  Ok (mkBuffer m (u32 (_l b + zlen bs))).

(** [appendRandom(n)]: [random] is what [Utils::getSecureRandom] delivers. *)
Definition appendRandom (b : Buffer) (random : list Z) : outcome Buffer :=
  append b random.

(** [appendCString(s)]: [s] is the memory from the string's first character on. *)
Fixpoint appendCString (b : Buffer) (s : list Z) : outcome Buffer :=
  if capacity b <=? _l b then Throw OutOfBounds
  else match s with
       | [] => Undef
       | c :: s' =>
           m ← mem_write (_b b) (_l b) [c];
           let b' := mkBuffer m (u32 (_l b + 1)) in
           if c =? 0 then Ok b' else appendCString b' s'
       end.

(** [append(const Buffer<C2> &b)] *)
Definition append_buffer (b src : Buffer) : outcome Buffer :=
  bs ← mem_read (_b src) 0 (_l src); append b bs.

(** [appendField(l)] followed by the caller filling the field with [bs]. *)
Definition appendField (b : Buffer) (bs : list Z) : outcome Buffer :=
  append b bs.

Definition addSize (b : Buffer) (i : Z) : outcome Buffer :=
  _ ← throw_if (capacity b <? u32 (i + _l b)) OutOfBounds;
  Ok (mkBuffer (_b b) (u32 (_l b + i))).

Definition setSize (b : Buffer) (i : Z) : outcome Buffer :=
  _ ← throw_if (capacity b <? i) OutOfBounds;
  Ok (mkBuffer (_b b) i).

Definition behead (b : Buffer) (at' : Z) : outcome Buffer :=
  if at' =? 0 then Ok b
  else
    _ ← throw_if (_l b <? at') OutOfBounds;
    bs ← mem_read (_b b) at' (_l b - at');
    m ← mem_write (_b b) 0 bs;
    Ok (mkBuffer m (_l b - at')).

Definition erase (b : Buffer) (at' length : Z) : outcome Buffer :=
  let endr := u32 (at' + length) in
  _ ← throw_if (_l b <? endr) OutOfBounds;
  bs ← mem_read (_b b) endr (_l b - endr);
  m ← mem_write (_b b) at' bs;
  Ok (mkBuffer m (u32 (_l b - length))).

Definition clear (b : Buffer) : Buffer := mkBuffer (_b b) 0.

Definition zero (b : Buffer) : outcome Buffer :=
  m ← mem_write (_b b) 0 (replicate (Z.to_nat (_l b)) 0);
  Ok (mkBuffer m (_l b)).

Definition zeroUnused (b : Buffer) : outcome Buffer :=
  m ← mem_write (_b b) (_l b) (replicate (Z.to_nat (capacity b - _l b)) 0);
  Ok (mkBuffer m (_l b)).

Definition burn (b : Buffer) : Buffer :=
  mkBuffer (replicate (length (_b b)) 0) (_l b).

(** [memcmp] over two arrays of the same length: the sign of the first difference. *)
Fixpoint memcmp (xs ys : list Z) : Z :=
  match xs, ys with
  | x :: xs', y :: ys' => if x =? y then memcmp xs' ys' else x - y
  | _, _ => 0
  end.

Definition data (b : Buffer) : list Z := take (Z.to_nat (_l b)) (_b b).

Definition eqb (a b : Buffer) : bool := (_l a =? _l b) && (memcmp (data a) (data b) =? 0).
Definition neqb (a b : Buffer) : bool := negb (_l a =? _l b) || negb (memcmp (data a) (data b) =? 0).

Definition ltb (a b : Buffer) : bool :=
  let n := Z.to_nat (Z.min (_l a) (_l b)) in memcmp (take n (_b a)) (take n (_b b)) <? 0.
Definition gtb (a b : Buffer) : bool := ltb b a.
Definition leb (a b : Buffer) : bool := negb (ltb b a).
Definition geb (a b : Buffer) : bool := negb (ltb a b).

(** ** Invariant *)

Record buf_ok (b : Buffer) : Prop := {
  bo_size : 0 <= _l b <= capacity b;
  bo_cap : capacity b < 2 ^ 31;
  bo_bytes : bytes_ok (_b b);
}.

Lemma buf_l b : buf_ok b -> 0 <= _l b < 2 ^ 31.
Proof. intros [? ? _]. lia. Qed.

(** ** Appending

    [writes b bs r]: [r] is what appending [bs] to [b] has to give: the buffer with [bs] after
    its data when they fit, the exception when they do not. *)
Definition writes (b : Buffer) (bs : list Z) (r : outcome Buffer) : Prop :=
  if decide (_l b + zlen bs <= capacity b)
  then exists b', r = Ok b' /\ buf_ok b' /\ data b' = data b ++ bs /\ capacity b' = capacity b
  else r = Throw OutOfBounds.

Lemma zlen_data b : buf_ok b -> zlen (data b) = _l b.
Proof. intros [Hs _ _]; unfold data; apply zlen_take. exact Hs. Qed.

Lemma data_ok b : buf_ok b -> bytes_ok (data b).
Proof. intros [_ _ Hb]; by apply Forall_take. Qed.

Lemma bind_throw_if_false {A} c e (f : unit -> outcome A) :
  c = false -> (throw_if c e ≫= f) = f tt.
Proof. by intros ->. Qed.

Lemma bind_throw_if_true {A} c e (f : unit -> outcome A) :
  c = true -> (throw_if c e ≫= f) = Throw e.
Proof. by intros ->. Qed.

Lemma append_writes b bs :
  buf_ok b -> bytes_ok bs -> zlen bs < 2 ^ 31 -> writes b bs (append b bs).
Proof.
  intros Hb Hbs Hlen. destruct Hb as [Hs Hc Hm]. pose proof (zlen_nonneg bs).
  unfold writes, append. rewrite u32_small by lia. case_decide.
  - rewrite bind_throw_if_false by (apply Z.ltb_ge; lia).
    destruct (mem_write_spec (_b b) (_l b) bs) as (m & -> & Hok & Hlm & Htake);
      [done..|lia|unfold capacity in *; lia|].
    eexists; split; [reflexivity|]. unfold capacity in *.
    split; [constructor; simpl; unfold capacity; simpl; rewrite ?Hlm; auto; lia|].
    split; [exact Htake|exact Hlm].
  - by rewrite bind_throw_if_true by (apply Z.ltb_lt; lia).
Qed.

Lemma append_int_writes n b v :
  buf_ok b -> Z.of_nat n < 2 ^ 31 -> writes b (be_bytes n v) (append_int n b v).
Proof.
  intros. pose proof (append_writes b (be_bytes n v)) as H'.
  unfold append in H'. rewrite zlen_be_bytes in H'. apply H'; auto with bytes.
Qed.

Lemma append_run_writes b c n :
  buf_ok b -> 0 <= n < 2 ^ 31 -> writes b (replicate (Z.to_nat n) (u8 c)) (append_run b c n).
Proof.
  intros. pose proof (append_writes b (replicate (Z.to_nat n) (u8 c))) as H'.
  unfold append in H'. unfold zlen in H'. rewrite length_replicate, Z2Nat.id in H' by lia.
  apply H'; [done| |lia]. apply Forall_replicate; auto with bytes.
Qed.

(** Sequential composition of appends. *)
Lemma writes_bind b bs1 bs2 (m : outcome Buffer) f :
  buf_ok b -> writes b bs1 m ->
  (forall b1, buf_ok b1 -> capacity b1 = capacity b -> data b1 = data b ++ bs1 ->
     writes b1 bs2 (f b1)) ->
  writes b (bs1 ++ bs2) (m ≫= f).
Proof.
  intros Hb H1 H2. unfold writes in *. rewrite zlen_app. pose proof (zlen_nonneg bs2).
  destruct (decide (_l b + zlen bs1 <= capacity b)).
  - destruct H1 as (b1 & -> & Hb1 & Hd1 & Hc1). specialize (H2 b1 Hb1 Hc1 Hd1). simpl.
    assert (_l b1 = _l b + zlen bs1) as Hl.
    { by rewrite <- (zlen_data b1), Hd1, zlen_app, zlen_data. }
    rewrite Hl, Hc1 in H2. case_decide; case_decide; try lia; [|done].
    destruct H2 as (b2 & -> & ? & Hd2 & ?). eexists; split_and!; [done..| |congruence].
    by rewrite Hd2, Hd1, app_assoc.
  - rewrite H1. case_decide; [lia|done].
Qed.

Lemma writes_nil b : buf_ok b -> writes b [] (Ok b).
Proof.
  intros Hb. unfold writes. rewrite zlen_nil. case_decide.
  - eexists; split_and!; [done..| |done]. by rewrite app_nil_r.
  - destruct Hb; lia.
Qed.

Lemma writes_fits b bs r :
  writes b bs r -> _l b + zlen bs <= capacity b ->
  exists b', r = Ok b' /\ buf_ok b' /\ data b' = data b ++ bs /\ capacity b' = capacity b.
Proof. unfold writes; intros H ?. case_decide; [done|lia]. Qed.

(** A list of items, each appended by [f]. *)
Fixpoint append_all {A} (f : Buffer -> A -> outcome Buffer) (b : Buffer) (l : list A) : outcome Buffer :=
  match l with
  | [] => Ok b
  | x :: l' => b' ← f b x; append_all f b' l'
  end.

Lemma append_all_writes {A} (f : Buffer -> A -> outcome Buffer) (enc : A -> list Z) l :
  (forall x b, x ∈ l -> buf_ok b -> writes b (enc x) (f b x)) ->
  forall b, buf_ok b -> writes b (concat (enc <$> l)) (append_all f b l).
Proof.
  induction l as [|x l IH]; intros Hf b Hb; [by apply writes_nil|].
  cbn. apply writes_bind; [done|apply Hf; [left|done]|].
  intros b1 ???. apply IH; [|done]. intros y b2 ??. apply Hf; [by right|done].
Qed.

(** ** Reading *)

Section reading.
Context (b : Buffer) (Hb : buf_ok b).

Lemma data_prefix pre bs post :
  data b = pre ++ bs ++ post -> mem_read (_b b) (zlen pre) (zlen bs) = Ok bs.
Proof.
  intros Hd. rewrite <- (take_drop (Z.to_nat (_l b)) (_b b)).
  change (take _ _) with (data b). rewrite Hd, <- !app_assoc. apply mem_read_app.
Qed.

Lemma data_bound pre bs post :
  data b = pre ++ bs ++ post ->
  0 <= zlen pre /\ 0 <= zlen bs /\ zlen pre + zlen bs <= _l b /\ _l b < 2 ^ 31.
Proof.
  intros Hd. pose proof (zlen_data b Hb) as Hl. rewrite Hd, !zlen_app in Hl.
  pose proof (zlen_nonneg pre); pose proof (zlen_nonneg bs); pose proof (zlen_nonneg post).
  destruct Hb; lia.
Qed.

Lemma field_data pre bs post :
  data b = pre ++ bs ++ post -> field b (zlen pre) (zlen bs) = Ok bs.
Proof.
  intros Hd. pose proof (data_bound _ _ _ Hd) as (?&?&?&?). unfold field.
  rewrite u32_small, bind_throw_if_false by (try apply Z.ltb_ge; lia).
  by apply data_prefix with post.
Qed.

Lemma at_data pre bs post n :
  data b = pre ++ bs ++ post -> length bs = n -> at_ n b (zlen pre) = Ok (be_int bs).
Proof.
  intros Hd <-. pose proof (data_bound _ _ _ Hd) as (?&?&?&?). unfold at_.
  change (Z.of_nat (length bs)) with (zlen bs).
  rewrite u32_small, bind_throw_if_false by (try apply Z.ltb_ge; lia).
  by rewrite (data_prefix _ _ _ Hd).
Qed.

Lemma index_data pre x post :
  data b = pre ++ [x] ++ post -> index b (zlen pre) = Ok x.
Proof.
  intros Hd. pose proof (data_bound _ _ _ Hd) as (?&?&?&?). unfold index.
  change (zlen [x]) with 1 in *.
  rewrite bind_throw_if_false by (apply Z.leb_gt; lia).
  change 1 with (zlen [x]). by rewrite (data_prefix _ _ _ Hd).
Qed.

(** Reads at a position the caller did not check: in range or an exception. *)
Lemma field_returns i l :
  0 <= i -> 0 <= l -> i + l < 2 ^ 32 ->
  returns (fun bs => bytes_ok bs /\ zlen bs = l /\ i + l <= _l b) (field b i l).
Proof.
  intros. unfold field. rewrite u32_small by lia.
  eapply returns_bind; [apply returns_throw_if|]. intros _ Hc%Z.ltb_ge.
  destruct Hb as [? ? Hm]. unfold capacity in *.
  destruct (mem_read_spec (_b b) i l) as (bs & -> & ?); [done|lia..|]. simpl; intuition.
Qed.

Lemma at_returns n i :
  0 <= i -> i + Z.of_nat n < 2 ^ 32 ->
  returns (fun v => 0 <= v < 2 ^ (8 * Z.of_nat n) /\ i + Z.of_nat n <= _l b) (at_ n b i).
Proof.
  intros. unfold at_. rewrite u32_small by lia.
  eapply returns_bind; [apply returns_throw_if|]. intros _ Hc%Z.ltb_ge.
  destruct Hb as [? ? Hm]. unfold capacity in *.
  destruct (mem_read_spec (_b b) i (Z.of_nat n)) as (bs & -> & Hok & Hl); [done|lia..|].
  simpl. rewrite <- Hl. split; [by apply be_int_range|lia].
Qed.

Lemma index_returns i :
  0 <= i -> returns (fun v => byte_ok v /\ i < _l b) (index b i).
Proof.
  intros. unfold index.
  eapply returns_bind; [apply returns_throw_if|]. intros _ Hc%Z.leb_gt.
  destruct Hb as [? ? Hm]. unfold capacity in *.
  destruct (mem_read_spec (_b b) i 1) as (bs & -> & Hok & Hl); [done|lia..|].
  simpl. pose proof (be_int_range bs Hok) as Hr. rewrite Hl in Hr. split; [exact Hr|lia].
Qed.
End reading.

(** Reading back what was appended. *)
Lemma at_be_bytes b pre n v post :
  buf_ok b -> data b = pre ++ be_bytes n v ++ post ->
  at_ n b (zlen pre) = Ok (v mod 2 ^ (8 * Z.of_nat n)).
Proof.
  intros Hb Hd. rewrite (at_data b Hb pre (be_bytes n v) post) by (done || apply length_be_bytes).
  by rewrite be_int_be_bytes.
Qed.

(** ** Reserving room and filling it later *)

(** The array behind the data. *)
Lemma buffer_split b : buf_ok b -> exists tail, _b b = data b ++ tail /\ bytes_ok tail.
Proof.
  intros [_ _ Hb]. exists (drop (Z.to_nat (_l b)) (_b b)). split; [by unfold data; rewrite take_drop|by apply Forall_drop].
Qed.

Lemma setAt_data n b pre old post v : buf_ok b -> data b = pre ++ old ++ post -> length old = n ->
  exists b', setAt n b (zlen pre) v = Ok b' /\ buf_ok b' /\ capacity b' = capacity b /\ data b' = pre ++ be_bytes n v ++ post.
Proof.
  intros Hb Hd <-. destruct (data_bound b Hb _ _ _ Hd) as (? & ? & Hle & ?). destruct (buffer_split b Hb) as (tail & Em & Ht). pose proof (data_ok b Hb) as Hdo. pose proof (zlen_data b Hb) as Hz.
  rewrite Hd in Em, Hdo, Hz. rewrite !bytes_ok_app in Hdo. destruct Hdo as (Hp & Ho & Hq). destruct Hb as [Hs Hc _]. unfold setAt, capacity in *.
  change (Z.of_nat (length old)) with (zlen old). rewrite u32_small, bind_throw_if_false by (try apply Z.ltb_ge; lia). rewrite Em, <- !app_assoc in *.
  rewrite mem_write_split by (rewrite !length_app, length_be_bytes; lia). cbn [mbind outcome_bind]. rewrite length_be_bytes, drop_app_length.
  assert (zlen (pre ++ be_bytes (length old) v ++ post ++ tail) = zlen (pre ++ old ++ post ++ tail)) as Hl by (rewrite !zlen_app, zlen_be_bytes; unfold zlen; lia).
  eexists. split; [reflexivity|]. cbn [_b _l]. split_and!; [|exact Hl|].
  - split; unfold capacity; cbn [_b _l]; rewrite ?Hl; [done..|]. rewrite !bytes_ok_app. split_and!; try done. apply bytes_ok_be_bytes.
  - unfold data. cbn [_b _l]. rewrite (app_assoc (be_bytes _ _)), (app_assoc pre). apply take_app_length'. rewrite !length_app, length_be_bytes. unfold zlen in *. rewrite !length_app in Hz. lia.
Qed.

Lemma addSize_data b n : buf_ok b -> 0 <= n -> _l b + n <= capacity b ->
  exists b' old, addSize b n = Ok b' /\ buf_ok b' /\ capacity b' = capacity b /\ data b' = data b ++ old /\ zlen old = n.
Proof.
  intros Hb Hn Hle. destruct (buffer_split b Hb) as (tail & Em & Ht). pose proof (data_ok b Hb) as Hdo. pose proof (zlen_data b Hb) as Hz. pose proof Hb as [Hs Hc Hbs]. unfold addSize, capacity in *.
  rewrite (Z.add_comm n), u32_small, bind_throw_if_false by (try apply Z.ltb_ge; lia). rewrite Em, zlen_app, Hz in Hle.
  exists (mkBuffer (_b b) (_l b + n)), (take (Z.to_nat n) tail). split; [done|]. split; [split; unfold capacity; cbn [_b _l]; rewrite ?Em in *; rewrite ?zlen_app in *; (done || lia)|].
  split; [done|]. split; [|apply zlen_take; lia]. unfold data at 1. cbn [_b _l]. rewrite Em, take_app_ge by (unfold zlen in *; lia). do 2 f_equal. unfold zlen in *. lia.
Qed.

(** ** Every mutating operation as one step *)

Inductive op :=
  | OpAssign (src : Buffer) | OpCopyFrom (bs : list Z) | OpSetIndex (i v : Z)
  | OpSetAt (n : nat) (i v : Z) | OpAppendInt (n : nat) (v : Z) | OpAppendRun (c n : Z)
  | OpAppend (bs : list Z) | OpAppendCString (s : list Z) | OpAppendBuffer (src : Buffer)
  | OpAddSize (i : Z) | OpSetSize (i : Z) | OpBehead (i : Z) | OpErase (i l : Z)
  | OpClear | OpZero | OpZeroUnused | OpBurn.

Definition exec (b : Buffer) (o : op) : outcome Buffer :=
  match o with
  | OpAssign src => assign b src
  | OpCopyFrom bs => copyFrom b bs
  | OpSetIndex i v => setIndex b i v
  | OpSetAt n i v => setAt n b i v
  | OpAppendInt n v => append_int n b v
  | OpAppendRun c n => append_run b c n
  | OpAppend bs => append b bs
  | OpAppendCString s => appendCString b s
  | OpAppendBuffer src => append_buffer b src
  | OpAddSize i => addSize b i
  | OpSetSize i => setSize b i
  | OpBehead i => behead b i
  | OpErase i l => erase b i l
  | OpClear => Ok (clear b)
  | OpZero => zero b
  | OpZeroUnused => zeroUnused b
  | OpBurn => Ok (burn b)
  end.

(** What a caller owes: arguments are [unsigned int]s and bytes, the sums in the checks do
    not wrap, a C string is terminated. *)
Definition args_ok (o : op) : Prop :=
  match o with
  | OpAssign src => buf_ok src
  | OpAppendBuffer src => buf_ok src
  | OpCopyFrom bs | OpAppend bs => bytes_ok bs /\ zlen bs < 2 ^ 31
  | OpSetIndex i v => 0 <= i
  | OpSetAt n i v => 0 <= i /\ i + Z.of_nat n < 2 ^ 32
  | OpAppendInt n v => Z.of_nat n < 2 ^ 31
  | OpAppendRun c n => 0 <= n < 2 ^ 31
  | OpAppendCString s => bytes_ok s /\ 0 ∈ s
  | OpAddSize i => 0 <= i < 2 ^ 31
  | OpSetSize i | OpBehead i => 0 <= i
  | OpErase i l => 0 <= i /\ 0 <= l /\ i + l < 2 ^ 32
  | _ => True
  end.

Definition keeps (b : Buffer) : outcome Buffer -> Prop :=
  returns (fun b' => buf_ok b' /\ capacity b' = capacity b).

Lemma writes_keeps b bs r : writes b bs r -> keeps b r.
Proof.
  unfold writes, keeps. case_decide; [|by intros ->].
  intros (b' & -> & ? & ? & ?); simpl; auto.
Qed.

(** Overwriting [bs] at [i] inside the array. *)
Lemma write_keeps b i bs l :
  buf_ok b -> bytes_ok bs -> 0 <= i -> i + zlen bs <= capacity b -> 0 <= l <= capacity b ->
  keeps b (m ← mem_write (_b b) i bs; Ok (mkBuffer m l)).
Proof.
  intros [Hs Hc Hm] ?? Hi ?. unfold capacity in *.
  destruct (mem_write_spec (_b b) i bs) as (m & -> & Hok & Hlm & _); [done..|].
  unfold keeps; simpl. unfold capacity; simpl; rewrite Hlm. split; [|done].
  constructor; unfold capacity; simpl; rewrite ?Hlm; auto.
Qed.

Lemma keeps_throw_if b c e (f : unit -> outcome Buffer) :
  (c = false -> keeps b (f tt)) -> keeps b (throw_if c e ≫= f).
Proof. destruct c; simpl; [done|auto]. Qed.

Lemma keeps_read b (c : Buffer) i n (f : list Z -> outcome Buffer) :
  buf_ok c -> 0 <= i -> 0 <= n -> i + n <= capacity c ->
  (forall bs, bytes_ok bs -> zlen bs = n -> keeps b (f bs)) ->
  keeps b (mem_read (_b c) i n ≫= f).
Proof.
  intros [_ _ Hm] ??? Hf. destruct (mem_read_spec (_b c) i n) as (bs & -> & ? & ?);
    [done..|]. by apply Hf.
Qed.

Lemma setSize_keeps b l : buf_ok b -> 0 <= l <= capacity b -> keeps b (Ok (mkBuffer (_b b) l)).
Proof. intros [? ? ?] ?; unfold keeps; simpl. split; [constructor; auto|done]. Qed.

Lemma appendCString_keeps s : forall b,
  buf_ok b -> bytes_ok s -> 0 ∈ s -> keeps b (appendCString b s).
Proof.
  induction s as [|c s IH]; intros b Hb Hs H0; [by apply not_elem_of_nil in H0|].
  simpl. destruct (Z.leb_spec (capacity b) (_l b)); [done|].
  inversion Hs as [|?? Hc Hs']; subst.
  pose proof Hb as Hb'. destruct Hb as [Hs1 Hc1 Hm1].
  assert (u32 (_l b + 1) = _l b + 1) as Hu by (apply u32_small; lia). rewrite Hu.
  pose proof (write_keeps b (_l b) [c] (_l b + 1) Hb') as Hw.
  change (zlen [c]) with 1 in Hw.
  assert (keeps b (m ← mem_write (_b b) (_l b) [c]; Ok (mkBuffer m (_l b + 1)))) as Hk.
  { apply Hw; [by apply Forall_singleton|lia..]. }
  destruct (mem_write (_b b) (_l b) [c]) as [m|e|]; simpl in *; [|done..].
  destruct (Z.eqb_spec c 0); [done|]. destruct Hk as [Hk1 Hk2].
  eapply returns_mono; [|apply (IH _ Hk1 Hs')].
  - intros b' [? ->]; split; [done|exact Hk2].
  - apply elem_of_cons in H0 as [|]; [congruence|done].
Qed.

Lemma erase_keeps b i l :
  buf_ok b -> 0 <= i -> 0 <= l -> i + l < 2 ^ 32 -> keeps b (erase b i l).
Proof.
  intros Hb ???. pose proof Hb as [Hs Hc Hm]. unfold erase. rewrite (u32_small (i + l)) by lia.
  apply keeps_throw_if; intros Hlt%Z.ltb_ge.
  apply keeps_read; [done|lia..|]. intros bs ? Hl.
  rewrite u32_small by lia. apply write_keeps; [done|done|lia|rewrite Hl; lia|lia].
Qed.

Lemma append_buffer_keeps b src : buf_ok b -> buf_ok src -> keeps b (append_buffer b src).
Proof.
  intros Hb Hs. pose proof Hs as [Hs1 Hs2 Hs3]. unfold append_buffer.
  apply keeps_read; [done|lia..|]. intros bs ? ?.
  apply writes_keeps with bs, append_writes; auto. lia.
Qed.

Lemma assign_keeps b src : buf_ok b -> buf_ok src -> keeps b (assign b src).
Proof.
  intros Hb Hs. pose proof Hs as [Hs1 Hs2 Hs3]. unfold assign.
  apply keeps_throw_if; intros Hlt%Z.ltb_ge. destruct (Z.eqb_spec (capacity src) (capacity b)).
  - by split.
  - apply keeps_read; [done|lia..|]. intros bs ? ?. apply write_keeps; auto; lia.
Qed.

Lemma behead_keeps b i : buf_ok b -> 0 <= i -> keeps b (behead b i).
Proof.
  intros Hb ?. pose proof Hb as [Hs Hc Hm]. unfold behead. destruct (i =? 0); [by split|].
  apply keeps_throw_if; intros Hlt%Z.ltb_ge.
  apply keeps_read; [done|lia..|]. intros bs ? ?. apply write_keeps; auto; lia.
Qed.

Lemma set_keeps b i bs (k : Z) :
  buf_ok b -> bytes_ok bs -> 0 <= i -> i + zlen bs <= _l b ->
  keeps b (m ← mem_write (_b b) i bs; Ok (mkBuffer m (_l b))).
Proof. intros Hb ???. pose proof Hb as [? ? ?]. apply write_keeps; auto; lia. Qed.

Lemma zlen_replicate {A} (x : A) n : 0 <= n -> zlen (replicate (Z.to_nat n) x) = n.
Proof. intros; unfold zlen; rewrite length_replicate; lia. Qed.

Lemma bytes_ok_replicate c n : byte_ok c -> bytes_ok (replicate n c).
Proof. apply Forall_replicate. Qed.

Lemma exec_keeps b o : buf_ok b -> args_ok o -> keeps b (exec b o).
Proof.
  intros Hb Ha. pose proof Hb as [Hs Hc Hm]. destruct o; simpl in *.
  - by apply assign_keeps.
  - destruct Ha. unfold copyFrom. apply keeps_throw_if; intros Hlt%Z.ltb_ge.
    pose proof (zlen_nonneg bs). apply write_keeps; auto; lia.
  - unfold setIndex. apply keeps_throw_if; intros Hlt%Z.leb_gt.
    apply set_keeps; auto; [apply Forall_singleton, u8_ok|change (zlen [u8 v]) with 1; lia].
  - unfold setAt. rewrite u32_small by lia. apply keeps_throw_if; intros Hlt%Z.ltb_ge.
    apply set_keeps; auto with bytes; rewrite ?zlen_be_bytes; lia.
  - by eapply writes_keeps, append_int_writes.
  - by eapply writes_keeps, append_run_writes.
  - destruct Ha. by eapply writes_keeps, append_writes.
  - destruct Ha. by apply appendCString_keeps.
  - by apply append_buffer_keeps.
  - unfold addSize. rewrite !u32_small by lia. apply keeps_throw_if; intros Hlt%Z.ltb_ge.
    apply setSize_keeps; [done|lia].
  - unfold setSize. apply keeps_throw_if; intros Hlt%Z.ltb_ge. apply setSize_keeps; [done|lia].
  - by apply behead_keeps.
  - destruct Ha as (?&?&?). by apply erase_keeps.
  - apply setSize_keeps; [done|lia].
  - unfold zero. apply write_keeps; rewrite ?zlen_replicate; auto; try lia.
    by apply bytes_ok_replicate.
  - unfold zeroUnused. apply write_keeps; rewrite ?zlen_replicate; auto; try lia.
    by apply bytes_ok_replicate.
  - unfold keeps; simpl. unfold burn, capacity; simpl.
    assert (zlen (replicate (length (_b b)) 0) = capacity b) as Hr.
    { unfold zlen. by rewrite length_replicate. }
    split; [|exact Hr]. constructor; unfold capacity; simpl; rewrite ?Hr; auto.
    by apply bytes_ok_replicate.
Qed.

(** ** Properties *)

(** A sequence of operations, stopped by the first exception. *)
Fixpoint run (b : Buffer) (os : list op) : outcome Buffer :=
  match os with [] => Ok b | o :: os' => b' ← exec b o; run b' os' end.

(** C1. Any sequence of Buffer operations whose arguments do not wrap the 32-bit sums in the
    bounds checks stays inside the array [_b]: it returns a well-formed buffer of the same
    capacity or throws, and never runs into undefined behaviour. *)
Theorem run_safe b os :
  buf_ok b -> Forall args_ok os -> returns (fun b' => buf_ok b' /\ capacity b' = capacity b) (run b os).
Proof.
  revert b; induction os as [|o os IH]; intros b Hb Hos; [by split|].
  inversion Hos; subst. simpl. eapply returns_bind; [by apply exec_keeps|].
  intros b1 [Hb1 Hc1]. rewrite <- Hc1. by apply IH.
Qed.

Definition example_buffer : Buffer := mkBuffer [0xde; 0xad; 0xbe; 0xef; 0; 0; 0; 0] 4.

Lemma example_buffer_ok : buf_ok example_buffer.
Proof. constructor; by_compute. Defined.

Definition example_ops : list op :=
  [OpAppendInt 2 0x1234; OpBehead 1; OpErase 1 2; OpAppendCString [65; 0; 66]; OpZeroUnused].

Lemma run_safe_witness :
  run example_buffer example_ops = Ok (mkBuffer [0xad; 0x12; 0x34; 65; 0; 0; 0; 0] 5) /\
  returns (fun b' => buf_ok b' /\ capacity b' = capacity example_buffer) (run example_buffer example_ops).
Proof.
  split; [vm_compute; reflexivity|].
  apply (run_safe example_buffer example_ops example_buffer_ok).
  repeat apply Forall_cons_2; try apply Forall_nil_2; try exact I; split_and?; by_compute.
Defined.

(** The bounds check of [field] is the only thing between a caller and the array, and it is
    exact except for one case: with 32-bit arguments it runs into undefined behaviour if and
    only if [i + l] wraps to a value not above the size of the data. *)
Theorem field_undef_iff b i l :
  buf_ok b -> 0 <= i < 2 ^ 32 -> 0 <= l < 2 ^ 32 ->
  field b i l = Undef <-> 2 ^ 32 <= i + l /\ i + l - 2 ^ 32 <= _l b.
Proof.
  intros Hb Hi Hl. split.
  - intros Hu. destruct (Z.ltb_spec (i + l) (2 ^ 32)) as [Hlt|Hge].
    + pose proof (field_returns b Hb i l) as Hr. rewrite Hu in Hr. exfalso; apply Hr; lia.
    + split; [done|]. unfold field in Hu. replace (u32 (i + l)) with (i + l - 2 ^ 32) in Hu by word.
      destruct (Z.ltb_spec (_l b) (i + l - 2 ^ 32)); [done|lia].
  - intros [Hge Hle]. unfold field. replace (u32 (i + l)) with (i + l - 2 ^ 32) by word.
    rewrite bind_throw_if_false by (apply Z.ltb_ge; lia). unfold mem_read.
    destruct Hb as [? ? ?]. unfold capacity in *.
    by rewrite (proj2 (Z.leb_gt (i + l) _)), andb_false_r by lia.
Qed.

Lemma field_undef_iff_witness : field example_buffer 0xfffffffe 4 = Undef.
Proof. apply (field_undef_iff example_buffer 0xfffffffe 4 example_buffer_ok); split_and?; by_compute. Defined.

(** What [append<T>] writes, [at<T>] at the old size reads back, for every integer width;
    what was in the buffer is still there; and it throws exactly when the value does not fit. *)
Theorem append_at_roundtrip n b v :
  buf_ok b -> Z.of_nat n < 2 ^ 31 -> 0 <= v < 2 ^ (8 * Z.of_nat n) ->
  if decide (_l b + Z.of_nat n <= capacity b)
  then exists b', append_int n b v = Ok b' /\ buf_ok b' /\ at_ n b' (_l b) = Ok v /\
         data b' = data b ++ be_bytes n v /\
         (forall i l, 0 <= i -> 0 <= l -> i + l <= _l b -> field b' i l = field b i l)
  else append_int n b v = Throw OutOfBounds.
Proof.
  intros Hb Hn Hv. pose proof (append_int_writes n b v Hb Hn) as Hw.
  unfold writes in Hw. rewrite zlen_be_bytes in Hw. case_decide; [|done].
  destruct Hw as (b' & He & Hb' & Hd & Hc). exists b'. split_and!; [done..| |done|].
  - rewrite <- (zlen_data b Hb), (at_be_bytes b' _ n v []), Z.mod_small; auto.
    by rewrite app_nil_r.
  - intros i l ???. pose proof (zlen_data b Hb) as Hl.
    set (p := take (Z.to_nat i) (data b)). set (q := drop (Z.to_nat i) (data b)).
    set (x := take (Z.to_nat l) q). set (y := drop (Z.to_nat l) q).
    assert (data b = p ++ x ++ y) as Hdb by (unfold x, y, p, q; by rewrite !take_drop).
    assert (zlen p = i) as Hp by (apply zlen_take; lia).
    assert (zlen x = l) as Hx by (apply zlen_take; unfold q; rewrite zlen_drop; lia).
    rewrite <- Hp, <- Hx. rewrite (field_data b Hb p x y Hdb).
    apply (field_data b' Hb' p x (y ++ be_bytes n v)). by rewrite Hd, Hdb, <- !app_assoc.
Qed.

Lemma append_at_roundtrip_witness :
  exists b', append_int 4 example_buffer 0x01020304 = Ok b' /\ buf_ok b' /\
    at_ 4 b' 4 = Ok 0x01020304 /\ data b' = data example_buffer ++ [1; 2; 3; 4] /\
    (forall i l, 0 <= i -> 0 <= l -> i + l <= 4 -> field b' i l = field example_buffer i l).
Proof.
  assert (0x01020304 < 2 ^ (8 * Z.of_nat 4)) by by_compute.
  exact (append_at_roundtrip 4 example_buffer 0x01020304 example_buffer_ok
           ltac:(by_compute) ltac:(lia)).
Defined.
