(* ===== verification/Salsa20.v ===== *)
(** * Salsa20 (node/Salsa20.hpp, node/Salsa20.cpp)

    The portable branch of the file (no SSE on the ESP32): a state of sixteen 32-bit words, the
    rounds written out over sixteen registers, and [crypt12] and [crypt20], which add the key stream
    to a message of any length and leave the block counter behind the last block. *)

From S2P Require Import Prelude.

(** [_state.i], and the registers [x0] to [x15]. *)
Record Salsa20 := mkSalsa20 {
  i0 : Z; i1 : Z; i2 : Z; i3 : Z; i4 : Z; i5 : Z; i6 : Z; i7 : Z;
  i8 : Z; i9 : Z; i10 : Z; i11 : Z; i12 : Z; i13 : Z; i14 : Z; i15 : Z }.

Definition ROTATE (v c : Z) : Z := Z.lor (u32 (Z.shiftl v c)) (Z.shiftr v (32 - c)).
Definition XOR (v w : Z) : Z := Z.lxor v w.
Definition PLUS (v w : Z) : Z := u32 (v + w).

(** [U8TO32_LITTLE] and [U32TO8_LITTLE] without type punning. *)
Definition le_int (bs : list Z) : Z := be_int (rev bs).
Definition le_bytes (n : nat) (v : Z) : list Z := rev (be_bytes n v).
Definition U8TO32_LITTLE (p : list Z) : Z := le_int (take 4 p).
Definition U32TO8_LITTLE (v : Z) : list Z := le_bytes 4 v.

(** The four bytes at [k] of a key, an IV or the constant text. *)
Definition word (p : list Z) (k : nat) : Z := U8TO32_LITTLE (drop k p).

(** The text "expand 32-byte k". *)
Definition constants : list Z := [101; 120; 112; 97; 110; 100; 32; 51; 50; 45; 98; 121; 116; 101; 32; 107].

Definition init (k iv : list Z) : Salsa20 :=
  mkSalsa20 (word constants 0) (word k 0) (word k 4) (word k 8) (word k 12) (word constants 4) (word iv 0) (word iv 4)
    0 0 (word constants 8) (word k 16) (word k 20) (word k 24) (word k 28) (word constants 12).

(** [memxor] *)
Definition memxor (d s : list Z) : list Z := zip_with Z.lxor d s.

(** ** Rounds *)

(** "2X round": the columns, then the rows. *)
Definition round2 (s : Salsa20) : Salsa20 :=
  let '(mkSalsa20 x0 x1 x2 x3 x4 x5 x6 x7 x8 x9 x10 x11 x12 x13 x14 x15) := s in
  let x4 := XOR x4 (ROTATE (PLUS x0 x12) 7) in
  let x8 := XOR x8 (ROTATE (PLUS x4 x0) 9) in
  let x12 := XOR x12 (ROTATE (PLUS x8 x4) 13) in
  let x0 := XOR x0 (ROTATE (PLUS x12 x8) 18) in
  let x9 := XOR x9 (ROTATE (PLUS x5 x1) 7) in
  let x13 := XOR x13 (ROTATE (PLUS x9 x5) 9) in
  let x1 := XOR x1 (ROTATE (PLUS x13 x9) 13) in
  let x5 := XOR x5 (ROTATE (PLUS x1 x13) 18) in
  let x14 := XOR x14 (ROTATE (PLUS x10 x6) 7) in
  let x2 := XOR x2 (ROTATE (PLUS x14 x10) 9) in
  let x6 := XOR x6 (ROTATE (PLUS x2 x14) 13) in
  let x10 := XOR x10 (ROTATE (PLUS x6 x2) 18) in
  let x3 := XOR x3 (ROTATE (PLUS x15 x11) 7) in
  let x7 := XOR x7 (ROTATE (PLUS x3 x15) 9) in
  let x11 := XOR x11 (ROTATE (PLUS x7 x3) 13) in
  let x15 := XOR x15 (ROTATE (PLUS x11 x7) 18) in
  let x1 := XOR x1 (ROTATE (PLUS x0 x3) 7) in
  let x2 := XOR x2 (ROTATE (PLUS x1 x0) 9) in
  let x3 := XOR x3 (ROTATE (PLUS x2 x1) 13) in
  let x0 := XOR x0 (ROTATE (PLUS x3 x2) 18) in
  let x6 := XOR x6 (ROTATE (PLUS x5 x4) 7) in
  let x7 := XOR x7 (ROTATE (PLUS x6 x5) 9) in
  let x4 := XOR x4 (ROTATE (PLUS x7 x6) 13) in
  let x5 := XOR x5 (ROTATE (PLUS x4 x7) 18) in
  let x11 := XOR x11 (ROTATE (PLUS x10 x9) 7) in
  let x8 := XOR x8 (ROTATE (PLUS x11 x10) 9) in
  let x9 := XOR x9 (ROTATE (PLUS x8 x11) 13) in
  let x10 := XOR x10 (ROTATE (PLUS x9 x8) 18) in
  let x12 := XOR x12 (ROTATE (PLUS x15 x14) 7) in
  let x13 := XOR x13 (ROTATE (PLUS x12 x15) 9) in
  let x14 := XOR x14 (ROTATE (PLUS x13 x12) 13) in
  let x15 := XOR x15 (ROTATE (PLUS x14 x13) 18) in
  mkSalsa20 x0 x1 x2 x3 x4 x5 x6 x7 x8 x9 x10 x11 x12 x13 x14 x15.

(** The rounds of [crypt12] and of [crypt20] as the code repeats them, and the addition of the input. *)
Definition rounds12 (x : Salsa20) : Salsa20 := round2 (round2 (round2 (round2 (round2 (round2 x))))).
Definition rounds20 (x : Salsa20) : Salsa20 := round2 (round2 (round2 (round2 (rounds12 x)))).

Definition plus_words (x j : Salsa20) : list Z :=
  [PLUS (i0 x) (i0 j); PLUS (i1 x) (i1 j); PLUS (i2 x) (i2 j); PLUS (i3 x) (i3 j);
   PLUS (i4 x) (i4 j); PLUS (i5 x) (i5 j); PLUS (i6 x) (i6 j); PLUS (i7 x) (i7 j);
   PLUS (i8 x) (i8 j); PLUS (i9 x) (i9 j); PLUS (i10 x) (i10 j); PLUS (i11 x) (i11 j);
   PLUS (i12 x) (i12 j); PLUS (i13 x) (i13 j); PLUS (i14 x) (i14 j); PLUS (i15 x) (i15 j)].

(** The [U32TO8_LITTLE(c + 4 * k, XOR(xk, U8TO32_LITTLE(m + 4 * k)))]. *)
Fixpoint xor_words (xs m : list Z) : list Z :=
  match xs with
  | [] => []
  | x :: xs => U32TO8_LITTLE (XOR x (U8TO32_LITTLE m)) ++ xor_words xs (drop 4 m)
  end.

Definition set_counter (s : Salsa20) (j8 j9 : Z) : Salsa20 :=
  mkSalsa20 (i0 s) (i1 s) (i2 s) (i3 s) (i4 s) (i5 s) (i6 s) (i7 s) j8 j9 (i10 s) (i11 s) (i12 s) (i13 s) (i14 s) (i15 s).

(** [if (!(++j8)) ++j9;] *)
Definition next_block (s : Salsa20) : Salsa20 :=
  let j8 := u32 (i8 s + 1) in set_counter s j8 (if j8 =? 0 then u32 (i9 s + 1) else i9 s).

(** ** crypt12 and crypt20

    One pass of [for (;;)] takes a block of 64 bytes. A shorter rest is copied to [tmp], whose other
    bytes are whatever was there ([junk]), and as many bytes are copied back. *)
Section crypt.
Context (rounds : Salsa20 -> Salsa20) (junk : list Z).

Definition crypt_block (s : Salsa20) (m : list Z) : list Z := xor_words (plus_words (rounds s) s) m.

Fixpoint crypt_loop (fuel : nat) (s : Salsa20) (m : list Z) : outcome (Salsa20 * list Z) :=
  match fuel with
  | O => Undef
  | S fuel =>
      if zlen m <=? 64 then
        let c := if zlen m <? 64 then take (length m) (crypt_block s (m ++ drop (length m) junk)) else crypt_block s m in
        Ok (next_block s, c)
      else '(s', c) ← crypt_loop fuel (next_block s) (drop 64 m); Ok (s', crypt_block s (take 64 m) ++ c)
  end.

Definition crypt (s : Salsa20) (m : list Z) : outcome (Salsa20 * list Z) :=
  if zlen m =? 0 then Ok (s, []) else crypt_loop (S (length m / 64)) s m.
End crypt.

Definition crypt12 : list Z -> Salsa20 -> list Z -> outcome (Salsa20 * list Z) := crypt rounds12.
Definition crypt20 : list Z -> Salsa20 -> list Z -> outcome (Salsa20 * list Z) := crypt rounds20.

(** The case of exactly one block. *)
Definition crypt20_block (s : Salsa20) (m : list Z) : Salsa20 * list Z := (next_block s, crypt_block rounds20 s m).

(** The first vector of set 1 of the ECRYPT test vectors of Salsa20/20 with a key of 256 bits. *)
Example crypt20_vector :
  option_map snd (match crypt20 (replicate 64 0) (init (128 :: replicate 31 0) (replicate 8 0)) (replicate 16 0) with Ok r => Some r | _ => None end) =
  Some [0xE3; 0xBE; 0x8F; 0xDD; 0x8B; 0xEC; 0xA2; 0xE3; 0xEA; 0x8E; 0xF9; 0x47; 0x5B; 0x29; 0xA6; 0xE7].
Proof. vm_compute. reflexivity. Qed.

(** ** Bytes and words *)

Lemma u8_lxor a b : u8 (Z.lxor a b) = Z.lxor (u8 a) (u8 b).
Proof. unfold u8, wrap. rewrite <- !Z.land_ones by lia. apply land_lxor_distr. Qed.

Lemma be_bytes_lxor n a b : be_bytes n (Z.lxor a b) = zip_with Z.lxor (be_bytes n a) (be_bytes n b).
Proof. induction n as [|n IH]; [done|]. cbn [be_bytes zip_with]. by rewrite Z.shiftr_lxor, u8_lxor, IH. Qed.

Lemma zip_with_rev {A B C} (f : A -> B -> C) l : forall k,
  length l = length k -> rev (zip_with f l k) = zip_with f (rev l) (rev k).
Proof.
  induction l as [|x l IH]; intros [|y k] H; try done. cbn in *. rewrite IH by lia.
  by rewrite zip_with_app by (rewrite !length_rev; lia).
Qed.

Lemma bytes_ok_rev l : bytes_ok l -> bytes_ok (rev l).
Proof. apply Forall_rev. Qed.

Lemma length_le_bytes n v : length (le_bytes n v) = n.
Proof. unfold le_bytes. by rewrite length_rev, length_be_bytes. Qed.

Lemma le_bytes_le_int bs : bytes_ok bs -> le_bytes (length bs) (le_int bs) = bs.
Proof.
  intros H%bytes_ok_rev. unfold le_bytes, le_int. rewrite <- (length_rev bs), be_bytes_be_int by done. apply rev_involutive.
Qed.

Lemma xor_word x m : bytes_ok m -> length m = 4%nat ->
  U32TO8_LITTLE (XOR x (le_int m)) = zip_with Z.lxor m (U32TO8_LITTLE x).
Proof.
  intros Hm Hl. unfold U32TO8_LITTLE, XOR. rewrite Z.lxor_comm. unfold le_bytes. rewrite be_bytes_lxor, zip_with_rev by
    by rewrite !length_be_bytes.
  f_equal. change (le_bytes 4 (le_int m) = m). rewrite <- Hl. by apply le_bytes_le_int.
Qed.

Lemma xor_words_zip xs : forall m, bytes_ok m -> (length m = 4 * length xs)%nat ->
  xor_words xs m = zip_with Z.lxor m (concat (U32TO8_LITTLE <$> xs)).
Proof.
  induction xs as [|x xs IH]; intros m Hm Hl; [by destruct m|]. cbn [length] in Hl. cbn [xor_words fmap list_fmap concat].
  rewrite IH by first [by apply list.Forall_drop | rewrite length_drop; lia].
  unfold U8TO32_LITTLE. rewrite xor_word by first [by apply list.Forall_take | rewrite length_take; lia].
  rewrite <- (take_drop 4 m) at 3. rewrite zip_with_app; [done|].
  rewrite length_take. unfold U32TO8_LITTLE. rewrite length_le_bytes. lia.
Qed.

(** ** Counter mode *)

(** The 64-bit block counter, kept in words 8 and 9. *)
Definition counter (s : Salsa20) : Z := i8 s + i9 s * 2 ^ 32.
Definition at_counter (s : Salsa20) (n : Z) : Salsa20 := set_counter s (n mod 2 ^ 32) ((n / 2 ^ 32) mod 2 ^ 32).

Definition counter_ok (s : Salsa20) : Prop := rng 32 (i8 s) /\ rng 32 (i9 s).

Lemma at_counter_id s : counter_ok s -> at_counter s (counter s) = s.
Proof.
  intros [H8 H9]. destruct s. unfold at_counter, set_counter, counter, rng in *. cbn in *. f_equal.
  - rewrite Z.mod_add by lia. by apply Z.mod_small.
  - rewrite Z.div_add, Z.div_small, Z.add_0_l by lia. by apply Z.mod_small.
Qed.

Lemma next_block_at s n : next_block (at_counter s n) = at_counter s (n + 1).
Proof.
  unfold next_block, at_counter, set_counter. cbn. f_equal; [unfold u32, wrap; by rewrite Zplus_mod_idemp_l|].
  unfold u32, wrap. rewrite Zplus_mod_idemp_l. case_match eqn:E.
  - apply Z.eqb_eq in E. rewrite Zplus_mod_idemp_l. f_equal. Z.div_mod_to_equations; lia.
  - apply Z.eqb_neq in E. f_equal. Z.div_mod_to_equations; lia.
Qed.

Lemma at_counter_wrap s n : at_counter s (n mod 2 ^ 64) = at_counter s n.
Proof.
  unfold at_counter, set_counter. change (2 ^ 64) with (2 ^ 32 * 2 ^ 32). f_equal.
  - rewrite Z.rem_mul_r by lia. rewrite Z.mul_comm, Z.mod_add by lia. by rewrite Z.mod_mod by lia.
  - rewrite Z.rem_mul_r by lia. rewrite Z.mul_comm, Z.div_add by lia.
    rewrite (Z.div_small (n mod 2 ^ 32)), Z.add_0_l by (apply Z.mod_pos_bound; lia). by rewrite Z.mod_mod by lia.
Qed.

Section stream.
Context (rounds : Salsa20 -> Salsa20).

(** The 64 bytes of key stream of a block, and those of the [n] blocks from number [k] on. *)
Definition block (s : Salsa20) : list Z := concat (U32TO8_LITTLE <$> plus_words (rounds s) s).
Definition keystream (s : Salsa20) (k n : Z) : list Z := concat ((fun i => block (at_counter s i)) <$> seqZ k n).

Lemma length_block s : length (block s) = 64%nat.
Proof. reflexivity. Qed.

Lemma crypt_block_eq s m : bytes_ok m -> length m = 64%nat -> crypt_block rounds s m = memxor m (block s).
Proof. intros. by apply xor_words_zip. Qed.

Lemma take_zip_with {A B C} (f : A -> B -> C) n : forall l k, take n (zip_with f l k) = zip_with f (take n l) (take n k).
Proof. induction n as [|n IH]; intros [|x l] [|y k]; cbn; by rewrite ?IH. Qed.

(** Extra key stream is not used. *)
Lemma memxor_take m ks : memxor m (take (length m) ks) = memxor m ks.
Proof. revert ks; induction m as [|x m IH]; intros [|y ks]; cbn; [done..|]. f_equal. apply IH. Qed.

Lemma memxor_app m k1 k2 : (length k1 <= length m)%nat ->
  memxor m (k1 ++ k2) = memxor (take (length k1) m) k1 ++ memxor (drop (length k1) m) k2.
Proof.
  intros H. unfold memxor. rewrite <- zip_with_app by (rewrite length_take; lia). by rewrite take_drop.
Qed.

Lemma crypt_loop_eq junk s : bytes_ok junk -> length junk = 64%nat -> forall fuel k m,
  bytes_ok m -> 0 < zlen m -> (length m <= 64 * fuel)%nat ->
  crypt_loop rounds junk fuel (at_counter s k) m =
    Ok (at_counter s (k + (zlen m + 63) / 64), memxor m (keystream s k ((zlen m + 63) / 64))).
Proof.
  intros Hj Hlj. induction fuel as [|fuel IH]; intros k m Hm H0 Hf; [unfold zlen in *; lia|].
  cbn [crypt_loop]. rewrite next_block_at. case_match eqn:E64.
  - apply Z.leb_le in E64. assert ((zlen m + 63) / 64 = 1) as -> by (Z.div_mod_to_equations; lia).
    do 2 f_equal. unfold keystream. rewrite seqZ_cons, seqZ_nil by lia. cbn [fmap list_fmap concat]. rewrite app_nil_r.
    case_match eqn:E; [|apply crypt_block_eq; [done|unfold zlen in *; lia]]. rewrite crypt_block_eq.
    + unfold memxor. rewrite take_zip_with, take_app_length. apply memxor_take.
    + apply bytes_ok_app. split; [done|by apply list.Forall_drop].
    + rewrite length_app, length_drop. unfold zlen in *. lia.
  - apply Z.leb_gt in E64. assert (zlen (drop 64 m) = zlen m - 64) as Hd by (unfold zlen in *; rewrite length_drop; lia).
    rewrite IH; [|by apply list.Forall_drop|lia|rewrite length_drop; lia]. rewrite Hd. cbn [mbind outcome_bind].
    replace ((zlen m + 63) / 64) with (1 + (zlen m - 64 + 63) / 64) by (Z.div_mod_to_equations; lia).
    rewrite crypt_block_eq by first [by apply list.Forall_take | rewrite length_take; unfold zlen in *; lia].
    do 2 f_equal; [f_equal; lia|].
    unfold keystream at 2. rewrite seqZ_cons by (Z.div_mod_to_equations; lia). cbn [fmap list_fmap concat].
    rewrite memxor_app by (rewrite length_block; unfold zlen in *; lia). rewrite length_block.
    unfold keystream. do 5 f_equal; lia.
Qed.
End stream.

Lemma crypt20_block_eq junk s m : length m = 64%nat -> crypt20 junk s m = Ok (crypt20_block s m).
Proof. intros H. unfold crypt20, crypt, crypt_loop, zlen. by rewrite H. Qed.

Lemma length_xor_words xs : forall m, length (xor_words xs m) = (4 * length xs)%nat.
Proof.
  induction xs as [|x xs IH]; intros m; [done|]. cbn [xor_words length].
  rewrite length_app, IH. unfold U32TO8_LITTLE. rewrite length_le_bytes. lia.
Qed.

Lemma bytes_xor_words xs : forall m, bytes_ok (xor_words xs m).
Proof.
  induction xs as [|x xs IH]; intros m; [constructor|]. apply bytes_ok_app. split; [|apply IH].
  apply bytes_ok_rev. auto with bytes.
Qed.

Definition blocks (m : list Z) : Z := (zlen m + 63) / 64.
Definition tmp_ok (junk : list Z) : Prop := bytes_ok junk /\ length junk = 64%nat.

Lemma bytes_ok_memxor m : forall ks, bytes_ok m -> bytes_ok ks -> bytes_ok (memxor m ks).
Proof.
  induction m as [|x m IH]; intros [|y ks] Hm Hk; try constructor;
    apply list.Forall_cons in Hm as [Hx Hm], Hk as [Hy Hk].
  - apply (lxor_range x y 8); [lia|exact Hx|exact Hy].
  - by apply IH.
Qed.

Lemma memxor_invol m : forall ks, (length m <= length ks)%nat -> memxor (memxor m ks) ks = m.
Proof.
  induction m as [|x m IH]; intros [|y ks] H; cbn in *; try done; [lia|].
  rewrite Z.lxor_assoc, Z.lxor_nilpotent, Z.lxor_0_r. f_equal. apply IH. lia.
Qed.

Lemma length_memxor m ks : (length m <= length ks)%nat -> length (memxor m ks) = length m.
Proof. intros. unfold memxor. rewrite length_zip_with. lia. Qed.

Section laws.
Context (rounds : Salsa20 -> Salsa20).

Lemma length_keystream s k n : 0 <= n -> length (keystream rounds s k n) = Z.to_nat (64 * n).
Proof.
  intros Hn. unfold keystream. rewrite <- (Z2Nat.id n) by done. generalize (Z.to_nat n) as i. clear. intros i. revert k.
  induction i as [|i IH]; intros k; [done|]. rewrite seqZ_cons by lia. cbn [fmap list_fmap concat].
  rewrite length_app, length_block. replace (Z.pred (Z.of_nat (S i))) with (Z.of_nat i) by lia. unfold fmap in IH.
  rewrite IH. lia.
Qed.

Lemma bytes_keystream s k n : bytes_ok (keystream rounds s k n).
Proof.
  unfold keystream. apply List.Forall_concat, list.Forall_fmap, list.Forall_true. intros i. unfold block. cbn beta.
  apply List.Forall_concat, list.Forall_fmap, list.Forall_true. intros w. apply bytes_ok_rev. auto with bytes.
Qed.

Lemma crypt_eq junk s m : tmp_ok junk -> counter_ok s -> bytes_ok m ->
  crypt rounds junk s m = Ok (at_counter s (counter s + blocks m), memxor m (keystream rounds s (counter s) (blocks m))).
Proof.
  intros [Hj Hl] Hs Hm. unfold crypt, blocks. case_match eqn:E.
  - apply Z.eqb_eq in E. destruct m; [|rewrite zlen_cons in E; pose proof (zlen_nonneg m); lia]. change ((zlen (@nil Z) + 63) / 64) with 0.
    rewrite Z.add_0_r. by rewrite at_counter_id.
  - apply Z.eqb_neq in E. pose proof (zlen_nonneg m). rewrite <- (at_counter_id s Hs) at 1.
    apply crypt_loop_eq; [done..|lia|]. pose proof (Nat.div_mod_eq (length m) 64).
    pose proof (Nat.mod_upper_bound (length m) 64). lia.
Qed.

Lemma blocks_enough m : (length m <= Z.to_nat (64 * blocks m))%nat.
Proof. unfold blocks, zlen. Z.div_mod_to_equations; lia. Qed.

Lemma counter_at s n : counter (at_counter s n) = n mod 2 ^ 64.
Proof.
  unfold counter, at_counter. cbn [i8 i9 set_counter]. change (2 ^ 64) with (2 ^ 32 * 2 ^ 32).
  rewrite Z.rem_mul_r by lia. lia.
Qed.

Lemma counter_ok_at s n : counter_ok (at_counter s n).
Proof. split; apply Z.mod_pos_bound; lia. Qed.

Lemma at_counter_at s n k : at_counter (at_counter s n) k = at_counter s k.
Proof. done. Qed.

Lemma keystream_at s n k c : keystream rounds (at_counter s n) k c = keystream rounds s k c.
Proof. done. Qed.

Lemma keystream_add s k a b : 0 <= a -> 0 <= b ->
  keystream rounds s k (a + b) = keystream rounds s k a ++ keystream rounds s (k + a) b.
Proof. intros. unfold keystream. rewrite seqZ_app by done. by rewrite fmap_app, concat_app. Qed.

Lemma keystream_offset s k n : keystream rounds s k n = concat ((fun i => block rounds (at_counter s (k + i))) <$> seqZ 0 n).
Proof. unfold keystream. replace (seqZ k n) with (Z.add k <$> seqZ 0 n) by (rewrite fmap_add_seqZ; f_equal; lia). by rewrite <- list_fmap_compose. Qed.

Lemma keystream_wrap s k n : keystream rounds s (k mod 2 ^ 64) n = keystream rounds s k n.
Proof.
  rewrite !keystream_offset. f_equal. apply list_fmap_ext. intros _ i _. f_equal.
  rewrite <- at_counter_wrap, Zplus_mod_idemp_l. apply at_counter_wrap.
Qed.
End laws.

(** C15. [crypt12] and [crypt20] are counter mode: they return the message XORed with the key stream of
    the blocks from the state's 64-bit counter on, whatever the scratch array holds, and leave the counter
    behind the last block used, even a partial one. So the same call decrypts, and a message cut at a
    block boundary may be processed in two calls. *)
Theorem crypt_counter_mode rounds junk junk' s m m2 :
  tmp_ok junk -> tmp_ok junk' -> counter_ok s -> bytes_ok m -> bytes_ok m2 ->
  let s' := at_counter s (counter s + blocks m) in
  let c := memxor m (keystream rounds s (counter s) (blocks m)) in
  crypt rounds junk s m = Ok (s', c) /\
  crypt rounds junk' s c = Ok (s', m) /\
  (zlen m mod 64 = 0 -> crypt rounds junk s (m ++ m2) = ('(s2, c2) ← crypt rounds junk' s' m2; Ok (s2, c ++ c2))).
Proof.
  intros Hj Hj' Hs Hm Hm2 s' c. pose proof (zlen_nonneg m). pose proof (zlen_nonneg m2).
  assert (length m <= length (keystream rounds s (counter s) (blocks m)))%nat as Hl.
  { rewrite length_keystream by (unfold blocks; Z.div_mod_to_equations; lia). apply blocks_enough. }
  assert (blocks c = blocks m) as Hc by (unfold blocks, zlen, c; by rewrite length_memxor).
  split; [by apply crypt_eq|]. split.
  - rewrite crypt_eq, Hc; [|done|done|]; [unfold c, s'; by rewrite (memxor_invol m _ Hl)|].
    apply bytes_ok_memxor; [done|apply bytes_keystream].
  - intros H64. rewrite (crypt_eq _ junk) by (done || by apply bytes_ok_app).
    assert (blocks (m ++ m2) = blocks m + blocks m2) as Hb.
    { unfold blocks. rewrite zlen_app. Z.div_mod_to_equations; lia. }
    assert (length (keystream rounds s (counter s) (blocks m)) = length m) as Hlk.
    { rewrite length_keystream; unfold blocks, zlen in *; Z.div_mod_to_equations; lia. }
    unfold s'. rewrite (crypt_eq _ junk') by (done || apply counter_ok_at). cbn [mbind outcome_bind].
    rewrite keystream_at, counter_at, keystream_wrap, at_counter_at. rewrite Hb.
    rewrite keystream_add by (unfold blocks; Z.div_mod_to_equations; lia). do 2 f_equal.
    + rewrite <- (at_counter_wrap s (_ mod _ + _)), Zplus_mod_idemp_l, at_counter_wrap. f_equal. lia.
    + unfold memxor. by rewrite zip_with_app by done.
Qed.

Lemma crypt_counter_mode_witness :
  let s := init (128 :: replicate 31 0) (replicate 8 0) in
  exists s' c, crypt12 (replicate 64 0) s (replicate 80 5) = Ok (s', c) /\ crypt12 (replicate 64 9) s c = Ok (s', replicate 80 5) /\
    i8 s' = 2.
Proof.
  intros s. destruct (crypt_counter_mode rounds12 (replicate 64 0) (replicate 64 9) s (replicate 80 5) [])
    as (H1 & H2 & _); [split; by_compute|split; by_compute|split; by_compute|by_compute|by_compute|].
  eexists _, _. split; [exact H1|]. split; [exact H2|]. vm_compute. reflexivity.
Defined.
