(* ===== verification/Serial.v ===== *)
(** * The serialisation interface

    Every wire object of node/ has a pair of members
    [template<unsigned int C> void serialize(Buffer<C> &b) const] and
    [unsigned int deserialize(const Buffer<C> &b, unsigned int startAt)].
    [Serial] is what the containers of such objects (World, NetworkConfig, credentials inside
    packets) rely on: the implementations discharge its laws once, the clients' theorems are
    proved from the laws.

    Positions are integers without wrap-around; the laws bound them far below 2^32. *)

From S2P Require Import Prelude Buffer.

(** ** Reading from a position: [rest] is the data from position [p] on *)
Definition rest_at (b : Buffer) (p : Z) (rest : list Z) : Prop :=
  exists pre, data b = pre ++ rest /\ p = zlen pre.

Section rest_at.
Context (b : Buffer) (Hb : buf_ok b).

Lemma rest_at_next p bs rest : rest_at b p (bs ++ rest) -> rest_at b (p + zlen bs) rest.
Proof. intros (pre & Hd & ->). exists (pre ++ bs). by rewrite Hd, <- app_assoc, zlen_app. Qed.

Lemma rest_at_bound p rest : rest_at b p rest -> 0 <= p /\ p + zlen rest = _l b.
Proof.
  intros (pre & Hd & ->). rewrite <- (zlen_data b Hb), Hd, zlen_app.
  pose proof (zlen_nonneg pre); lia.
Qed.

Lemma index_rest p x rest :
  rest_at b p (x :: rest) -> index b p = Ok x /\ rest_at b (p + 1) rest.
Proof.
  intros Hr. split; [|by apply (rest_at_next p [x])].
  destruct Hr as (pre & Hd & ->). by apply index_data with (post := rest).
Qed.

Lemma index_rest_be p v rest :
  rest_at b p (be_bytes 1 v ++ rest) -> index b p = Ok (u8 v) /\ rest_at b (p + 1) rest.
Proof.
  intros Hr. change (be_bytes 1 v) with [u8 (Z.shiftr v 0)] in Hr. rewrite Z.shiftr_0_r in Hr.
  by apply index_rest.
Qed.

Lemma at_rest p n v rest :
  rest_at b p (be_bytes n v ++ rest) ->
  at_ n b p = Ok (v mod 2 ^ (8 * Z.of_nat n)) /\ rest_at b (p + Z.of_nat n) rest.
Proof.
  intros Hr. split.
  - destruct Hr as (pre & Hd & ->). by apply at_be_bytes with (post := rest).
  - rewrite <- (zlen_be_bytes n v). by apply rest_at_next.
Qed.

Lemma field_rest p l bs rest :
  rest_at b p (bs ++ rest) -> zlen bs = l -> field b p l = Ok bs /\ rest_at b (p + l) rest.
Proof.
  intros Hr <-. split; [|by apply rest_at_next].
  destruct Hr as (pre & Hd & ->). by apply field_data with (post := rest).
Qed.
End rest_at.

Lemma rest_at_end b bs b' : buf_ok b -> data b' = data b ++ bs -> rest_at b' (_l b) bs.
Proof. intros Hb Hd. exists (data b). by rewrite (zlen_data b Hb). Qed.

(** ** The interface *)

Class Serial (A : Type) := {
  (** values the type can hold in memory and that have a wire form *)
  ser_wf : A -> Prop;
  (** the wire form *)
  ser_enc : A -> list Z;
  serialize : Buffer -> A -> outcome Buffer;
  (** the object and the number of bytes consumed *)
  deserialize : Buffer -> Z -> outcome (A * Z);
}.

(** Positions a parser may be called at: far below the 32-bit wrap. *)
Definition pos_ok (p : Z) : Prop := 0 <= p < 2 ^ 31.

Class SerialLaws (A : Type) `{Serial A} := {
  ser_bytes a : ser_wf a -> bytes_ok (ser_enc a);
  ser_writes a b : ser_wf a -> buf_ok b -> writes b (ser_enc a) (serialize b a);
  ser_reads a b p rest : ser_wf a -> buf_ok b -> rest_at b p (ser_enc a ++ rest) ->
    deserialize b p = Ok (a, zlen (ser_enc a));
}.

(** On arbitrary input: no undefined behaviour and no [abort()], and progress of less than 256 KiB
    is made from a position inside the data. Not every wire object has this. *)
Class SerialSafe (A : Type) `{Serial A} :=
  ser_safe b p : buf_ok b -> pos_ok p ->
    returns (fun '(_, n) => p < _l b /\ 1 <= n < 2 ^ 18) (deserialize b p).

(** Reading an object and going on behind it. *)
Lemma ser_rest `{SerialLaws A} (a : A) b p rest :
  buf_ok b -> ser_wf a -> rest_at b p (ser_enc a ++ rest) ->
  deserialize b p = Ok (a, zlen (ser_enc a)) /\ rest_at b (p + zlen (ser_enc a)) rest.
Proof. intros Hb Ha Hr. split; [by apply ser_reads with rest|by apply rest_at_next]. Qed.

(** What is serialised into a buffer with room for it is read back from where it was put. *)
Lemma ser_roundtrip `{SerialLaws A} (a : A) b :
  ser_wf a -> buf_ok b -> _l b + zlen (ser_enc a) <= capacity b ->
  exists b', serialize b a = Ok b' /\ buf_ok b' /\ capacity b' = capacity b /\
    data b' = data b ++ ser_enc a /\ deserialize b' (_l b) = Ok (a, zlen (ser_enc a)).
Proof.
  intros Ha Hb Hfit. destruct (writes_fits b (ser_enc a) (serialize b a)) as (b' & He & Hb' & Hd & Hc);
    [by apply ser_writes|done|].
  exists b'. split_and!; [done..|]. apply ser_reads with (rest := []); [done..|].
  rewrite app_nil_r. by apply rest_at_end.
Qed.

(** A wire form that is always read back determines the object. *)
Lemma reads_injective {A} (ok : A -> Prop) (enc : A -> list Z) (deser : Buffer -> Z -> outcome (A * Z)) a1 a2 :
  (forall a b p rest, ok a -> buf_ok b -> rest_at b p (enc a ++ rest) -> deser b p = Ok (a, zlen (enc a))) ->
  ok a1 -> ok a2 -> bytes_ok (enc a1) -> zlen (enc a1) < 2 ^ 31 -> enc a1 = enc a2 -> a1 = a2.
Proof.
  intros Hreads H1 H2 Hb Hl He. set (b := mkBuffer (enc a1) (zlen (enc a1))). pose proof (zlen_nonneg (enc a1)).
  assert (buf_ok b) as Hbuf by (split; unfold b, capacity; simpl; done || lia).
  assert (rest_at b 0 (enc a1 ++ [])) as Hr.
  { exists []. split; [|done]. unfold b, data, zlen. simpl. by rewrite Nat2Z.id, firstn_all, app_nil_r. }
  pose proof (Hreads a1 b 0 [] H1 Hbuf Hr) as E1. rewrite He in Hr. rewrite (Hreads a2 b 0 [] H2 Hbuf Hr) in E1. congruence.
Qed.

(** [read_step Hb H]: one read of a deserialiser whose remaining input [H] describes. *)
Ltac read_with E H L := apply L in H as [E H]; rewrite E; clear E; cbn [mbind outcome_bind].
Ltac read_field E H L l :=
  apply (L _ l) in H as [E H]; [|by autorewrite with zlen]; rewrite E; clear E;
  cbn [mbind outcome_bind].

Ltac read_step Hb H :=
  let E := fresh "E" in
  match type of H with
  | rest_at ?b ?p (be_bytes _ _ ++ _) =>
      match goal with
      | |- context [index b p] => read_with E H (index_rest_be b Hb)
      | |- context [field b p ?l] => read_field E H (field_rest b Hb) l
      | |- _ => read_with E H (at_rest b Hb)
      end
  | rest_at ?b _ (_ :: _) => read_with E H (index_rest b Hb)
  | rest_at ?b _ (ser_enc _ ++ _) =>
      eapply ser_rest in H as [E H]; [|done|done]; rewrite E; clear E; cbn [mbind outcome_bind]
  | rest_at ?b ?p (_ ++ _) =>
      match goal with |- context [field b p ?l] => read_field E H (field_rest b Hb) l end
  end.

(** Goals [returns _ (deserialize b p)] on arbitrary input, one read at a time. *)
Ltac returns_step :=
  match goal with
  | |- returns _ (index _ _ ≫= _) => eapply returns_bind; [apply index_returns; [done|lia]|]; intros ? []
  | |- returns _ (at_ _ _ _ ≫= _) => eapply returns_bind; [apply at_returns; [done|lia|lia]|]; intros ? []
  | |- returns _ (field _ _ _ ≫= _) =>
      eapply returns_bind; [apply field_returns; [done|lia|lia|lia]|]; intros ? (? & ? & ?)
  | |- returns _ (throw_if _ _ ≫= _) => eapply returns_bind; [apply returns_throw_if|]; intros ? ?
  | |- returns _ (Throw _) => exact I
  | |- returns _ (if ?c then _ else _) => destruct c eqn:?
  end.

(** Goals [writes b (bs1 ++ ... ++ bsn) (append... ; ... ; append...)]: a serialiser that is a
    sequence of appends. *)
Create HintDb writes discriminated.
#[export] Hint Extern 1 (writes _ (be_bytes _ _) (append_int _ _ _)) =>
  apply append_int_writes; [done|lia] : writes.
#[export] Hint Extern 2 (writes _ _ (append _ _)) =>
  apply append_writes; [done|solve [auto with bytes]|unfold zlen in *; lia] : writes.
#[export] Hint Extern 1 (writes _ [] (Ok _)) => apply writes_nil; done : writes.
#[export] Hint Extern 1 (writes _ _ (serialize _ _)) => apply ser_writes; done : writes.

Ltac writes_norm := cbv match; cbn [mbind outcome_bind].
Ltac writes_all :=
  writes_norm;
  repeat (apply writes_bind; [done|solve [auto with writes]|intros ? ? _ _; writes_norm]);
  solve [auto with writes].

(** The same for a parser that addresses its fields relative to one position: the position of the
    next read is brought into the form [H] has. *)
Ltac norm_pos H :=
  lazymatch type of H with rest_at _ ?p _ =>
    lazymatch goal with
    | |- (at_ _ _ ?q ≫= _) = _ => replace q with p by lia
    | |- (index _ ?q ≫= _) = _ => replace q with p by lia
    | |- (field _ ?q _ ≫= _) = _ => replace q with p by lia
    end
  end.
Ltac read_pos Hb H := norm_pos H; read_step Hb H.

(** The two outcomes of a read at an arbitrary position. *)
Lemma field_cases b i l :
  buf_ok b -> 0 <= i -> 0 <= l -> i + l < 2 ^ 32 ->
  (i + l <= _l b /\ exists bs, field b i l = Ok bs /\ bytes_ok bs /\ zlen bs = l) \/
  (_l b < i + l /\ field b i l = Throw OutOfBounds).
Proof.
  intros Hb ? ? ?. destruct (Z.le_gt_cases (i + l) (_l b)) as [Hle|Hgt]; [left|right]; (split; [done|]).
  - destruct Hb as [? ? ?]. unfold field. rewrite u32_small, bind_throw_if_false by (try apply Z.ltb_ge; lia).
    apply mem_read_spec; [done|lia|lia|unfold capacity in *; lia].
  - unfold field. rewrite u32_small, bind_throw_if_true by (try apply Z.ltb_lt; lia). done.
Qed.

Lemma index_cases b i :
  buf_ok b -> 0 <= i ->
  (i < _l b /\ exists v, index b i = Ok v /\ byte_ok v) \/ (_l b <= i /\ index b i = Throw OutOfBounds).
Proof.
  intros Hb ?. destruct (Z.lt_ge_cases i (_l b)) as [Hlt|Hge]; [left|right]; (split; [done|]).
  - pose proof (index_returns b Hb i) as Hr. unfold index in *. rewrite bind_throw_if_false in * by (apply Z.leb_gt; lia).
    destruct (mem_read_spec (_b b) i 1) as (bs & E & _); try (destruct Hb; unfold capacity in *; done || lia).
    rewrite E in *. simpl in *. eexists; split; [done|]. by apply Hr.
  - unfold index. by rewrite bind_throw_if_true by (apply Z.leb_le; lia).
Qed.
