(* ===== verification/Address.v ===== *)
(** * ZeroTier addresses and Ethernet MACs (node/Address.hpp, node/MAC.hpp) *)

From S2P Require Import Prelude Buffer.

(** The 16 characters of [Utils::HEXCHARS]. *)
Definition HEXCHARS : list Z := [48; 49; 50; 51; 52; 53; 54; 55; 56; 57; 97; 98; 99; 100; 101; 102].
Definition hexchar (n : Z) : Z := default 0 (HEXCHARS !! Z.to_nat n).

(** [HEXCHARS[(i >> k) & 0xf]] *)
Definition hexdigit (i k : Z) : Z := hexchar (Z.land (Z.shiftr i k) 0xf).

(** ** Address: 40 bits in a [uint64_t] *)
Module Address.

Definition ZT_ADDRESS_LENGTH : Z := 5.
Definition ZT_ADDRESS_RESERVED_PREFIX : Z := 0xff.
Definition mask40 (a : Z) : Z := Z.land a 0xffffffffff.

(** [Address(uint64_t a)] and [operator=(uint64_t)]. *)
Definition of_int (a : Z) : Z := mask40 a.

(** [setTo(bits, len)]: the memory at [bits]; fewer than five bytes there are undefined. *)
Definition setTo (bits : list Z) (len : Z) : outcome Z :=
  if len <? ZT_ADDRESS_LENGTH then Ok 0
  else match bits with
       | b0 :: b1 :: b2 :: b3 :: b4 :: _ =>
           let a := Z.shiftl b0 32 in
           let a := Z.lor a (Z.shiftl b1 24) in
           let a := Z.lor a (Z.shiftl b2 16) in
           let a := Z.lor a (Z.shiftl b3 8) in
           Ok (Z.lor a b4)
       | _ => Undef
       end.

Definition to_bytes (a : Z) : list Z :=
  [u8 (Z.land (Z.shiftr a 32) 0xff); u8 (Z.land (Z.shiftr a 24) 0xff);
   u8 (Z.land (Z.shiftr a 16) 0xff); u8 (Z.land (Z.shiftr a 8) 0xff); u8 (Z.land a 0xff)].

(** [copyTo(bits, len)] into the object [mem]. *)
Definition copyTo (a : Z) (mem : list Z) (len : Z) : outcome (list Z) :=
  if len <? ZT_ADDRESS_LENGTH then Ok mem else mem_write mem 0 (to_bytes a).

Definition appendTo (b : Buffer) (a : Z) : outcome Buffer := appendField b (to_bytes a).

Definition toInt (a : Z) : Z := a.
(** [(unsigned long)_a], 32 bits on the ESP32. *)
Definition hashCode (a : Z) : Z := u32 a.
(** [Utils::hex10] *)
Definition toString (a : Z) : list Z :=
  [hexdigit a 36; hexdigit a 32; hexdigit a 28; hexdigit a 24; hexdigit a 20;
   hexdigit a 16; hexdigit a 12; hexdigit a 8; hexdigit a 4; hexdigit a 0; 0].
Definition nonzero (a : Z) : bool := negb (a =? 0).
Definition isReserved (a : Z) : bool := (a =? 0) || (Z.shiftr a 32 =? ZT_ADDRESS_RESERVED_PREFIX).
Definition index (a i : Z) : Z := u8 (Z.shiftr a (32 - i * 8)).

(** Comparison with a raw [uint64_t]. *)
Definition eqb_int (a n : Z) : bool := a =? mask40 n.
Definition ltb_int (a n : Z) : bool := a <? mask40 n.

Definition ok (a : Z) : Prop := 0 <= a < 2 ^ 40.
#[export] Instance ok_dec a : Decision (ok a).
Proof. unfold ok; apply _. Defined.

Lemma mask40_mod a : mask40 a = a mod 2 ^ 40.
Proof. unfold mask40. change 0xffffffffff with (Z.ones 40). by rewrite Z.land_ones. Qed.

Lemma of_int_ok a : ok (of_int a).
Proof. unfold of_int, ok; rewrite mask40_mod; apply Z.mod_pos_bound; lia. Qed.

Lemma of_int_id a : ok a -> of_int a = a.
Proof. unfold of_int, ok; rewrite mask40_mod; apply Z.mod_small. Qed.

Lemma land_ff z : u8 (Z.land z 0xff) = u8 z.
Proof.
  change 0xff with (Z.ones 8). rewrite Z.land_ones by lia. unfold u8, wrap.
  by rewrite Z.mod_mod.
Qed.

Lemma to_bytes_be a : to_bytes a = be_bytes 5 a.
Proof. unfold to_bytes; cbn [be_bytes]. rewrite !land_ff. reflexivity. Qed.

Lemma appendTo_writes b a : buf_ok b -> writes b (be_bytes 5 a) (appendTo b a).
Proof.
  intros Hb. unfold appendTo, appendField. rewrite to_bytes_be.
  apply append_writes; auto with bytes.
Qed.

(** [setTo] on at least five bytes is the big-endian reading of the first five. *)
Lemma setTo_be bits rest len :
  bytes_ok bits -> length bits = 5%nat -> 5 <= len -> setTo (bits ++ rest) len = Ok (be_int bits).
Proof.
  intros Hok Hlen Hl. destruct bits as [|b0 [|b1 [|b2 [|b3 [|b4 [|]]]]]]; try discriminate Hlen.
  unfold setTo, ZT_ADDRESS_LENGTH. rewrite (proj2 (Z.ltb_ge len 5)) by done. cbn [app]. f_equal.
  unfold be_int; cbn [fold_left]. rewrite !Z.shiftl_lor, !Z.shiftl_shiftl, Z.shiftl_0_l by lia.
  reflexivity.
Qed.

Lemma setTo_be_bytes a : ok a -> setTo (be_bytes 5 a) 5 = Ok a.
Proof.
  intros Ha. rewrite <- (app_nil_r (be_bytes 5 a)).
  rewrite setTo_be by (auto using length_be_bytes with bytes; lia).
  rewrite be_int_be_bytes, Z.mod_small by exact Ha. done.
Qed.

Lemma setTo_returns bits : bytes_ok bits -> zlen bits = 5 -> exists a, setTo bits 5 = Ok a /\ ok a /\ be_bytes 5 a = bits.
Proof.
  intros Hok Hl. assert (length bits = 5%nat) as Hl' by (unfold zlen in Hl; lia).
  pose proof (be_bytes_be_int bits Hok) as E. rewrite Hl' in E.
  pose proof (be_int_range bits Hok) as Hr. rewrite Hl in Hr.
  exists (be_int bits). split_and!; [|exact Hr|done]. rewrite <- E at 1. by apply setTo_be_bytes.
Qed.

Lemma setTo_ok bits len a : bytes_ok bits -> setTo bits len = Ok a -> ok a.
Proof.
  intros Hok. unfold setTo, ZT_ADDRESS_LENGTH. destruct (len <? 5) eqn:E; [intros [= <-]; unfold ok; lia|].
  destruct bits as [|b0 [|b1 [|b2 [|b3 [|b4 r]]]]]; try done. intros H.
  assert (bytes_ok [b0; b1; b2; b3; b4]) as Hok'.
  { change (b0 :: b1 :: b2 :: b3 :: b4 :: r) with ([b0; b1; b2; b3; b4] ++ r) in Hok.
    by apply bytes_ok_app in Hok as [? _]. }
  pose proof (setTo_be [b0; b1; b2; b3; b4] r len Hok' eq_refl) as Hs.
  unfold setTo, ZT_ADDRESS_LENGTH in Hs. rewrite E in Hs. cbn [app] in Hs. rewrite Hs in H by (apply Z.ltb_ge, E).
  injection H as <-. apply be_int_range in Hok'. exact Hok'.
Qed.
End Address.

(** ** MAC: 48 bits in a [uint64_t] *)
Module MAC.

Definition of_int (m : Z) : Z := Z.land m 0xffffffffffff.
Definition of_octets (a b c d e f : Z) : Z :=
  Z.lor (Z.lor (Z.lor (Z.lor (Z.lor (Z.shiftl (Z.land a 0xff) 40) (Z.shiftl (Z.land b 0xff) 32))
    (Z.shiftl (Z.land c 0xff) 24)) (Z.shiftl (Z.land d 0xff) 16)) (Z.shiftl (Z.land e 0xff) 8))
    (Z.land f 0xff).

Definition toInt (m : Z) : Z := m.
Definition nonzero (m : Z) : bool := negb (m =? 0).

Definition setTo (bits : list Z) (len : Z) : outcome Z :=
  if len <? 6 then Ok 0
  else match bits with
       | b0 :: b1 :: b2 :: b3 :: b4 :: b5 :: _ => Ok (of_octets b0 b1 b2 b3 b4 b5)
       | _ => Undef
       end.

Definition to_bytes (m : Z) : list Z :=
  [u8 (Z.land (Z.shiftr m 40) 0xff); u8 (Z.land (Z.shiftr m 32) 0xff);
   u8 (Z.land (Z.shiftr m 24) 0xff); u8 (Z.land (Z.shiftr m 16) 0xff);
   u8 (Z.land (Z.shiftr m 8) 0xff); u8 (Z.land m 0xff)].

Definition copyTo (m : Z) (mem : list Z) (len : Z) : outcome (list Z) :=
  if len <? 6 then Ok mem else mem_write mem 0 (to_bytes m).

Definition appendTo (b : Buffer) (m : Z) : outcome Buffer := appendField b (to_bytes m).

Definition isBroadcast (m : Z) : bool := m =? 0xffffffffffff.
Definition isMulticast (m : Z) : bool := negb (Z.land m 0x010000000000 =? 0).
Definition isLocallyAdministered (m : Z) : bool := negb (Z.land m 0x020000000000 =? 0).

Definition firstOctetForNetwork (nwid : Z) : Z :=
  let a := Z.lor (u8 (Z.land nwid 0xfe)) 0x02 in if a =? 0x52 then 0x32 else a.

Definition fromAddress (ztaddr nwid : Z) : Z :=
  let m := Z.shiftl (firstOctetForNetwork nwid) 40 in
  let m := Z.lor m (Address.toInt ztaddr) in
  let m := Z.lxor m (Z.shiftl (Z.land (Z.shiftr nwid 8) 0xff) 32) in
  let m := Z.lxor m (Z.shiftl (Z.land (Z.shiftr nwid 16) 0xff) 24) in
  let m := Z.lxor m (Z.shiftl (Z.land (Z.shiftr nwid 24) 0xff) 16) in
  let m := Z.lxor m (Z.shiftl (Z.land (Z.shiftr nwid 32) 0xff) 8) in
  Z.lxor m (Z.land (Z.shiftr nwid 40) 0xff).

Definition toAddress (m nwid : Z) : Z :=
  let a := Z.land m 0xffffffffff in
  let a := Z.lxor a (Z.shiftl (Z.land (Z.shiftr nwid 8) 0xff) 32) in
  let a := Z.lxor a (Z.shiftl (Z.land (Z.shiftr nwid 16) 0xff) 24) in
  let a := Z.lxor a (Z.shiftl (Z.land (Z.shiftr nwid 24) 0xff) 16) in
  let a := Z.lxor a (Z.shiftl (Z.land (Z.shiftr nwid 32) 0xff) 8) in
  let a := Z.lxor a (Z.land (Z.shiftr nwid 40) 0xff) in
  Address.of_int a.

Definition index (m i : Z) : Z := u8 (Z.land (Z.shiftr m (40 - i * 8)) 0xff).
Definition size (m : Z) : Z := 6.
Definition hashCode (m : Z) : Z := u32 m.

Definition toString (m : Z) : list Z :=
  [hexdigit m 44; hexdigit m 40; 58; hexdigit m 36; hexdigit m 32; 58;
   hexdigit m 28; hexdigit m 24; 58; hexdigit m 20; hexdigit m 16; 58;
   hexdigit m 12; hexdigit m 8; 58; hexdigit m 4; hexdigit m 0; 0].

(** [operator=(const uint64_t m)], which unlike the constructor does not mask. *)
Definition assign_int (m : Z) : Z := m.
Definition eqb (a b : Z) : bool := a =? b.
Definition ltb (a b : Z) : bool := a <? b.

Definition ok (m : Z) : Prop := 0 <= m < 2 ^ 48.
#[export] Instance ok_dec m : Decision (ok m).
Proof. unfold ok; apply _. Defined.

(** The 40-bit mask the network ID contributes. *)
Definition netbits (nwid : Z) : Z :=
  Z.lxor (Z.lxor (Z.lxor (Z.lxor (Z.shiftl (Z.land (Z.shiftr nwid 8) 0xff) 32)
    (Z.shiftl (Z.land (Z.shiftr nwid 16) 0xff) 24)) (Z.shiftl (Z.land (Z.shiftr nwid 24) 0xff) 16))
    (Z.shiftl (Z.land (Z.shiftr nwid 32) 0xff) 8)) (Z.land (Z.shiftr nwid 40) 0xff).

Lemma netbits_range nwid : 0 <= netbits nwid < 2 ^ 40.
Proof.
  unfold netbits. change 0xff with (Z.ones 8).
  repeat apply lxor_range; try lia.
  all: try (apply shiftl_range; [lia|]).
  all: match goal with |- context [Z.land ?a _] => pose proof (land_ones_range a 8) end; lia.
Qed.

Lemma fromAddress_eq a nwid :
  fromAddress a nwid = Z.lxor (Z.lor (Z.shiftl (firstOctetForNetwork nwid) 40) a) (netbits nwid).
Proof. unfold fromAddress, netbits, Address.toInt. by rewrite !Z.lxor_assoc. Qed.

Lemma toAddress_eq m nwid :
  toAddress m nwid = Address.of_int (Z.lxor (Z.land m (Z.ones 40)) (netbits nwid)).
Proof. unfold toAddress, netbits. by rewrite !Z.lxor_assoc. Qed.

Lemma firstOctet_cases nwid :
  firstOctetForNetwork nwid ∈ (fun n => let a := Z.lor (Z.land (Z.of_nat n) 0xfe) 2 in
                                 if a =? 0x52 then 0x32 else a) <$> seq 0 256.
Proof.
  unfold firstOctetForNetwork. apply list_elem_of_fmap. exists (Z.to_nat (u8 nwid)). split.
  - assert (u8 (Z.land nwid 0xfe) = Z.land (Z.of_nat (Z.to_nat (u8 nwid))) 0xfe) as ->; [|done].
    rewrite Z2Nat.id by word. unfold u8, wrap. rewrite <- !Z.land_ones by lia.
    rewrite <- !Z.land_assoc. f_equal.
  - apply elem_of_seq. word.
Qed.

Lemma firstOctet_spec nwid :
  let o := firstOctetForNetwork nwid in
  byte_ok o /\ Z.testbit o 0 = false /\ Z.testbit o 1 = true /\ o <> 0x52.
Proof.
  intros o. pose proof (firstOctet_cases nwid) as H. fold o in H.
  refine (proj1 (list.Forall_forall (fun o => byte_ok o /\ Z.testbit o 0 = false /\
    Z.testbit o 1 = true /\ o <> 0x52) _) _ o H). by_compute.
Qed.

Lemma fromAddress_ok a nwid : Address.ok a -> ok (fromAddress a nwid).
Proof.
  intros Ha. rewrite fromAddress_eq. apply lxor_range; [lia| |].
  - apply lor_range; [lia| |unfold Address.ok in Ha; lia].
    apply shiftl_range; [lia|]. apply (firstOctet_spec nwid).
  - pose proof (netbits_range nwid). lia.
Qed.

Lemma fromAddress_high a nwid :
  Address.ok a -> Z.shiftr (fromAddress a nwid) 40 = firstOctetForNetwork nwid.
Proof.
  intros Ha. rewrite fromAddress_eq, Z.shiftr_lxor, Z.shiftr_lor.
  rewrite Z.shiftr_shiftl_l by lia.
  assert (forall x, 0 <= x < 2 ^ 40 -> Z.shiftr x 40 = 0) as H0.
  { intros x Hx. rewrite Z.shiftr_div_pow2 by lia. by apply Z.div_small. }
  rewrite !H0, Z.lor_0_r, Z.lxor_0_r by (apply netbits_range || exact Ha). apply Z.shiftl_0_r.
Qed.

Lemma testbit_high a nwid i :
  Address.ok a -> 0 <= i -> Z.testbit (fromAddress a nwid) (i + 40) = Z.testbit (firstOctetForNetwork nwid) i.
Proof. intros. by rewrite <- Z.shiftr_spec, fromAddress_high by done. Qed.

Lemma land_pow2_testbit m k : 0 <= k -> (Z.land m (2 ^ k) =? 0) = negb (Z.testbit m k).
Proof.
  intros Hk. destruct (Z.testbit m k) eqn:E; simpl.
  - apply Z.eqb_neq. intros H0. apply (f_equal (fun z => Z.testbit z k)) in H0.
    by rewrite Z.land_spec, E, Z.pow2_bits_true, Z.bits_0 in H0.
  - apply Z.eqb_eq, Z.bits_inj'. intros i Hi. rewrite Z.land_spec, Z.bits_0, Z.pow2_bits_eqb by done.
    destruct (Z.eqb_spec k i) as [->|]; [by rewrite E|apply andb_false_r].
Qed.

(** The MAC a network gives an address leads back to the address ([toAddress] inverts
    [fromAddress]), fits in 48 bits, is unicast and locally administered, and never has the
    first octet 0x52 that virtualisation engines use. *)
Theorem fromAddress_roundtrip a nwid :
  Address.ok a ->
  toAddress (fromAddress a nwid) nwid = a /\ ok (fromAddress a nwid) /\
  isMulticast (fromAddress a nwid) = false /\ isLocallyAdministered (fromAddress a nwid) = true /\
  index (fromAddress a nwid) 0 <> 0x52.
Proof.
  intros Ha. pose proof (firstOctet_spec nwid) as (Hoct & Hb0 & Hb1 & H52). split_and!.
  - rewrite toAddress_eq, fromAddress_eq, land_lxor_distr, land_ones_shiftl by (exact Ha || lia).
    rewrite (land_ones_id (netbits nwid)) by (apply netbits_range || lia).
    rewrite Z.lxor_assoc, Z.lxor_nilpotent, Z.lxor_0_r. by apply Address.of_int_id.
  - by apply fromAddress_ok.
  - unfold isMulticast. change 0x010000000000 with (2 ^ 40).
    rewrite land_pow2_testbit by lia. change 40 with (0 + 40).
    by rewrite testbit_high, Hb0.
  - unfold isLocallyAdministered. change 0x020000000000 with (2 ^ 41).
    rewrite land_pow2_testbit by lia. change 41 with (1 + 40). by rewrite testbit_high, Hb1.
  - unfold index. rewrite Address.land_ff. change (40 - 0 * 8) with 40.
    rewrite fromAddress_high by done. by rewrite u8_small.
Qed.

Lemma fromAddress_roundtrip_witness :
  fromAddress 0xdf429581f6 0x8056c2e21c000001 = 0x02df42896334 /\
  toAddress (fromAddress 0xdf429581f6 0x8056c2e21c000001) 0x8056c2e21c000001 = 0xdf429581f6.
Proof.
  split; [vm_compute; reflexivity|].
  apply (fromAddress_roundtrip 0xdf429581f6 0x8056c2e21c000001). split; by_compute.
Defined.
End MAC.
