(* ===== verification/Poly1305.v ===== *)
(** * Poly1305 (node/Poly1305.hpp, node/Poly1305.cpp)

    The portable branch of the file, which the ESP32 compiles: the accumulator and the key in five limbs
    of 26 bits kept in [unsigned long]s of 32 bits, products in [unsigned long long]. Every sum and
    product is wrapped at its width; the theorem shows that none of them loses a bit. *)

From S2P Require Import Prelude Buffer Address Salsa20.

Record limbs := mkLimbs { l0 : Z; l1 : Z; l2 : Z; l3 : Z; l4 : Z }.

(** [poly1305_state_internal_t] *)
Record state := mkState {
  r : limbs; h : limbs; pad0 : Z; pad1 : Z; pad2 : Z; pad3 : Z; leftover : Z; buffer : list Z; final : bool }.

Definition poly1305_block_size : Z := 16.

Definition byte (p : list Z) (i : nat) : Z := Z.land (nth i p 0) 0xff.

(** [U8TO32(&p[k])] *)
Definition U8TO32 (p : list Z) (k : nat) : Z :=
  Z.lor (Z.lor (Z.lor (byte p k) (Z.shiftl (byte p (k + 1)) 8)) (Z.shiftl (byte p (k + 2)) 16)) (Z.shiftl (byte p (k + 3)) 24).

Definition U32TO8 (v : Z) : list Z :=
  [u8 (Z.land v 0xff); u8 (Z.land (Z.shiftr v 8) 0xff); u8 (Z.land (Z.shiftr v 16) 0xff); u8 (Z.land (Z.shiftr v 24) 0xff)].

(** [poly1305_init]; [buf] is what the uninitialised [buffer] holds. *)
Definition poly1305_init (buf key : list Z) : state :=
  mkState
    (mkLimbs (Z.land (U8TO32 key 0) 0x3ffffff) (Z.land (Z.shiftr (U8TO32 key 3) 2) 0x3ffff03)
       (Z.land (Z.shiftr (U8TO32 key 6) 4) 0x3ffc0ff) (Z.land (Z.shiftr (U8TO32 key 9) 6) 0x3f03fff)
       (Z.land (Z.shiftr (U8TO32 key 12) 8) 0x00fffff))
    (mkLimbs 0 0 0 0 0)
    (U8TO32 key 16) (U8TO32 key 20) (U8TO32 key 24) (U8TO32 key 28) 0 buf false.

(** ** poly1305_blocks *)

Definition mul64 (a b : Z) : Z := u64 (a * b).
Definition add64 (a b : Z) : Z := u64 (a + b).
Definition add32 (a b : Z) : Z := u32 (a + b).
Definition mul32 (a b : Z) : Z := u32 (a * b).
Definition sum5 (a b c d e : Z) : Z := add64 (add64 (add64 (add64 a b) c) d) e.

(** "h += m[i]" *)
Definition add_block (h : limbs) (m : list Z) (hibit : Z) : limbs :=
  mkLimbs (add32 (l0 h) (Z.land (U8TO32 m 0) 0x3ffffff))
    (add32 (l1 h) (Z.land (Z.shiftr (U8TO32 m 3) 2) 0x3ffffff))
    (add32 (l2 h) (Z.land (Z.shiftr (U8TO32 m 6) 4) 0x3ffffff))
    (add32 (l3 h) (Z.land (Z.shiftr (U8TO32 m 9) 6) 0x3ffffff))
    (add32 (l4 h) (Z.lor (Z.shiftr (U8TO32 m 12) 8) hibit)).

(** "h *= r": the five sums of products. *)
Definition multiply (h r : limbs) : limbs :=
  let '(mkLimbs h0 h1 h2 h3 h4) := h in
  let '(mkLimbs r0 r1 r2 r3 r4) := r in
  let s1 := mul32 r1 5 in
  let s2 := mul32 r2 5 in
  let s3 := mul32 r3 5 in
  let s4 := mul32 r4 5 in
  mkLimbs
    (sum5 (mul64 h0 r0) (mul64 h1 s4) (mul64 h2 s3) (mul64 h3 s2) (mul64 h4 s1))
    (sum5 (mul64 h0 r1) (mul64 h1 r0) (mul64 h2 s4) (mul64 h3 s3) (mul64 h4 s2))
    (sum5 (mul64 h0 r2) (mul64 h1 r1) (mul64 h2 r0) (mul64 h3 s4) (mul64 h4 s3))
    (sum5 (mul64 h0 r3) (mul64 h1 r2) (mul64 h2 r1) (mul64 h3 r0) (mul64 h4 s4))
    (sum5 (mul64 h0 r4) (mul64 h1 r3) (mul64 h2 r2) (mul64 h3 r1) (mul64 h4 r0)).

(** "(partial) h %= p" *)
Definition carry (d : limbs) : limbs :=
  let '(mkLimbs d0 d1 d2 d3 d4) := d in
  let c := u32 (Z.shiftr d0 26) in
  let h0 := Z.land (u32 d0) 0x3ffffff in
  let d1 := add64 d1 c in
  let c := u32 (Z.shiftr d1 26) in
  let h1 := Z.land (u32 d1) 0x3ffffff in
  let d2 := add64 d2 c in
  let c := u32 (Z.shiftr d2 26) in
  let h2 := Z.land (u32 d2) 0x3ffffff in
  let d3 := add64 d3 c in
  let c := u32 (Z.shiftr d3 26) in
  let h3 := Z.land (u32 d3) 0x3ffffff in
  let d4 := add64 d4 c in
  let c := u32 (Z.shiftr d4 26) in
  let h4 := Z.land (u32 d4) 0x3ffffff in
  let h0 := add32 h0 (mul32 c 5) in
  let c := Z.shiftr h0 26 in
  let h0 := Z.land h0 0x3ffffff in
  let h1 := add32 h1 c in
  mkLimbs h0 h1 h2 h3 h4.

Definition set_h (st : state) (h : limbs) : state :=
  mkState (r st) h (pad0 st) (pad1 st) (pad2 st) (pad3 st) (leftover st) (buffer st) (final st).
Definition set_buffer (st : state) (buf : list Z) (n : Z) : state :=
  mkState (r st) (h st) (pad0 st) (pad1 st) (pad2 st) (pad3 st) n buf (final st).
Definition set_final (st : state) : state :=
  mkState (r st) (h st) (pad0 st) (pad1 st) (pad2 st) (pad3 st) (leftover st) (buffer st) true.

(** [while (bytes >= poly1305_block_size)] over the message [m]; [fuel] is the number of blocks. *)
Fixpoint blocks_loop (fuel : nat) (h r : limbs) (hibit : Z) (m : list Z) : limbs :=
  match fuel with
  | O => h
  | S fuel =>
      if poly1305_block_size <=? zlen m
      then blocks_loop fuel (carry (multiply (add_block h m hibit) r)) r hibit (drop 16 m) else h
  end.

Definition poly1305_blocks (st : state) (m : list Z) : state :=
  let hibit := if final st then 0 else Z.shiftl 1 24 in set_h st (blocks_loop (length m / 16) (h st) (r st) hibit m).

(** ** poly1305_update *)

(** [st->buffer[leftover + i] = m[i]] for all of [m]. *)
Definition fill (st : state) (m : list Z) : outcome state :=
  buf ← mem_write (buffer st) (leftover st) m; Ok (set_buffer st buf (leftover st + zlen m)).

(** After the leftover has been handled: the full blocks, then the new leftover. *)
Definition update_rest (st : state) (m : list Z) : outcome state :=
  let want := Z.land (zlen m) (Z.lnot (poly1305_block_size - 1)) in
  let st := if poly1305_block_size <=? zlen m then poly1305_blocks st (take (Z.to_nat want) m) else st in
  let m := if poly1305_block_size <=? zlen m then drop (Z.to_nat want) m else m in
  if negb (zlen m =? 0) then fill st m else Ok st.

Definition poly1305_update (st : state) (m : list Z) : outcome state :=
  if negb (leftover st =? 0) then
    let want := Z.min (poly1305_block_size - leftover st) (zlen m) in
    st ← fill st (take (Z.to_nat want) m);
    let m := drop (Z.to_nat want) m in
    if leftover st <? poly1305_block_size then Ok st
    else let st := poly1305_blocks st (buffer st) in update_rest (set_buffer st (buffer st) 0) m
  else update_rest st m.

(** ** poly1305_finish *)

(** "process the remaining block" *)
Definition finish_block (st : state) : outcome state :=
  if negb (leftover st =? 0) then
    buf ← mem_write (buffer st) (leftover st) [1];
    buf ← mem_write buf (leftover st + 1) (replicate (Z.to_nat (poly1305_block_size - (leftover st + 1))) 0);
    let st := set_final (set_buffer st buf (leftover st)) in
    Ok (poly1305_blocks st (take 16 (buffer st)))
  else Ok st.

(** "fully carry h" *)
Definition full_carry (h : limbs) : limbs :=
  let '(mkLimbs h0 h1 h2 h3 h4) := h in
  let c := Z.shiftr h1 26 in
  let h1 := Z.land h1 0x3ffffff in
  let h2 := add32 h2 c in
  let c := Z.shiftr h2 26 in
  let h2 := Z.land h2 0x3ffffff in
  let h3 := add32 h3 c in
  let c := Z.shiftr h3 26 in
  let h3 := Z.land h3 0x3ffffff in
  let h4 := add32 h4 c in
  let c := Z.shiftr h4 26 in
  let h4 := Z.land h4 0x3ffffff in
  let h0 := add32 h0 (mul32 c 5) in
  let c := Z.shiftr h0 26 in
  let h0 := Z.land h0 0x3ffffff in
  let h1 := add32 h1 c in
  mkLimbs h0 h1 h2 h3 h4.

(** "compute h + -p" *)
Definition minus_p (h : limbs) : limbs :=
  let '(mkLimbs h0 h1 h2 h3 h4) := h in
  let g0 := add32 h0 5 in
  let c := Z.shiftr g0 26 in
  let g0 := Z.land g0 0x3ffffff in
  let g1 := add32 h1 c in
  let c := Z.shiftr g1 26 in
  let g1 := Z.land g1 0x3ffffff in
  let g2 := add32 h2 c in
  let c := Z.shiftr g2 26 in
  let g2 := Z.land g2 0x3ffffff in
  let g3 := add32 h3 c in
  let c := Z.shiftr g3 26 in
  let g3 := Z.land g3 0x3ffffff in
  let g4 := u32 (h4 + c - Z.shiftl 1 26) in
  mkLimbs g0 g1 g2 g3 g4.

(** "select h if h < p, or h + -p if h >= p" *)
Definition select (h g : limbs) : limbs :=
  let mask := u32 (Z.shiftr (l4 g) 31 - 1) in
  let pick h g := Z.lor (Z.land h (u32 (Z.lnot mask))) (Z.land g mask) in
  mkLimbs (pick (l0 h) (l0 g)) (pick (l1 h) (l1 g)) (pick (l2 h) (l2 g)) (pick (l3 h) (l3 g)) (pick (l4 h) (l4 g)).

Definition low32 (z : Z) : Z := Z.land z 0xffffffff.
Definition shl32 (z k : Z) : Z := u32 (Z.shiftl z k).

(** "h = h % (2^128)" and "mac = (h + pad) % (2^128)" *)
Definition emit (h : limbs) (p0 p1 p2 p3 : Z) : list Z :=
  let '(mkLimbs h0 h1 h2 h3 h4) := h in
  let w0 := low32 (Z.lor h0 (shl32 h1 26)) in
  let w1 := low32 (Z.lor (Z.shiftr h1 6) (shl32 h2 20)) in
  let w2 := low32 (Z.lor (Z.shiftr h2 12) (shl32 h3 14)) in
  let w3 := low32 (Z.lor (Z.shiftr h3 18) (shl32 h4 8)) in
  let f := add64 w0 p0 in
  let v0 := u32 f in
  let f := add64 (add64 w1 p1) (Z.shiftr f 32) in
  let v1 := u32 f in
  let f := add64 (add64 w2 p2) (Z.shiftr f 32) in
  let v2 := u32 f in
  let f := add64 (add64 w3 p3) (Z.shiftr f 32) in
  let v3 := u32 f in
  U32TO8 v0 ++ U32TO8 v1 ++ U32TO8 v2 ++ U32TO8 v3.

(** "zero out the state" *)
Definition zeroed (st : state) : state :=
  mkState (mkLimbs 0 0 0 0 0) (mkLimbs 0 0 0 0 0) 0 0 0 0 (leftover st) (buffer st) (final st).

Definition poly1305_finish (st : state) : outcome (list Z * state) :=
  st ← finish_block st;
  let h := full_carry (h st) in
  Ok (emit (select h (minus_p h)) (pad0 st) (pad1 st) (pad2 st) (pad3 st), zeroed st).

(** [Poly1305::compute]; [buf] as in [poly1305_init]. *)
Definition compute (buf data key : list Z) : outcome (list Z) :=
  st ← poly1305_update (poly1305_init buf key) data; '(mac, _) ← poly1305_finish st; Ok mac.

(** Several calls of [poly1305_update]. *)
Fixpoint updates (st : state) (ms : list (list Z)) : outcome state :=
  match ms with [] => Ok st | m :: ms => st ← poly1305_update st m; updates st ms end.

(** The example of section 2.5.2 of RFC 8439. *)
Definition rfc_key : list Z :=
  be_bytes 32 0x85d6be7857556d337f4452fe42d506a80103808afb0db2fd4abff6af4149f51b.
(** The text "Cryptographic Forum Research Group". *)
Definition rfc_message : list Z :=
  [67; 114; 121; 112; 116; 111; 103; 114; 97; 112; 104; 105; 99; 32; 70; 111; 114; 117; 109; 32;
   82; 101; 115; 101; 97; 114; 99; 104; 32; 71; 114; 111; 117; 112].

Example rfc_tag : compute (replicate 16 7) rfc_message rfc_key = Ok (be_bytes 16 0xa8061dc1305136c6c22b8baf0c0127a9).
Proof. vm_compute. reflexivity. Qed.

(** ** Little-endian values *)

Lemma le_int_app a b : bytes_ok a -> bytes_ok b -> le_int (a ++ b) = le_int a + 2 ^ (8 * zlen a) * le_int b.
Proof.
  intros Ha%bytes_ok_rev Hb%bytes_ok_rev. unfold le_int. rewrite rev_app_distr, be_int_app by done.
  replace (zlen (rev a)) with (zlen a) by (unfold zlen; by rewrite length_rev). lia.
Qed.

Lemma le_int_range a : bytes_ok a -> 0 <= le_int a < 2 ^ (8 * zlen a).
Proof.
  intros Ha%bytes_ok_rev. replace (zlen a) with (zlen (rev a)) by (unfold zlen; by rewrite length_rev). by apply be_int_range.
Qed.

Lemma le_int_cons x l : byte_ok x -> bytes_ok l -> le_int (x :: l) = x + 256 * le_int l.
Proof.
  intros Hx Hl. change (x :: l) with ([x] ++ l). rewrite le_int_app; [|by apply list.Forall_singleton|done].
  unfold le_int at 1. cbn [rev app]. rewrite be_int_cons by (done || apply list.Forall_nil_2). change (be_int []) with 0.
  change (zlen [x]) with 1. change (zlen (@nil Z)) with 0. lia.
Qed.

Lemma le_int_drop m k : bytes_ok m -> (k <= length m)%nat -> le_int (drop k m) = le_int m / 2 ^ (8 * Z.of_nat k).
Proof.
  intros Hm Hk. rewrite <- (take_drop k m) at 2.
  rewrite le_int_app by first [by apply list.Forall_take | by apply list.Forall_drop].
  pose proof (le_int_range (take k m)) as Hr. unfold zlen in *. rewrite length_take_le in * by done.
  rewrite Z.add_comm, Z.mul_comm, Z.div_add_l by lia. rewrite Z.div_small; [lia|]. apply Hr. by apply list.Forall_take.
Qed.

Lemma le_int_take m k : bytes_ok m -> (k <= length m)%nat -> le_int (take k m) = le_int m mod 2 ^ (8 * Z.of_nat k).
Proof.
  intros Hm Hk. rewrite <- (take_drop k m) at 2.
  rewrite le_int_app by first [by apply list.Forall_take | by apply list.Forall_drop].
  pose proof (le_int_range (take k m)) as Hr. unfold zlen in *. rewrite length_take_le in * by done.
  rewrite Z.mul_comm, Z.mod_add by lia. rewrite Z.mod_small; [done|]. apply Hr. by apply list.Forall_take.
Qed.

Lemma byte_id p i : bytes_ok p -> byte p i = nth i p 0.
Proof.
  intros H. unfold byte. change 0xff with (Z.ones 8). apply land_ones_id; [|lia].
  destruct (nth_in_or_default i p 0) as [Hin| ->]; [|lia].
  eapply list.Forall_forall in H; [exact H|by apply list_elem_of_In].
Qed.

Lemma lor_disjoint a b k : 0 <= k -> 0 <= a < 2 ^ k -> Z.lor a (Z.shiftl b k) = a + b * 2 ^ k.
Proof. intros. rewrite Z.lor_comm, lor_add by lia. lia. Qed.

Lemma U8TO32_window m k : bytes_ok m -> (k + 4 <= length m)%nat -> U8TO32 m k = (le_int m / 2 ^ (8 * Z.of_nat k)) mod 2 ^ 32.
Proof.
  intros Hm Hk. rewrite <- le_int_drop by (done || lia). change (2 ^ 32) with (2 ^ (8 * Z.of_nat 4)).
  rewrite <- le_int_take by first [by apply list.Forall_drop | rewrite length_drop; lia].
  unfold U8TO32. rewrite !byte_id by done. rewrite <- (take_drop k m) at 1 2 3 4.
  assert (length (take k m) = k) as Ht by (rewrite length_take; lia).
  rewrite !app_nth2 by lia. rewrite Ht.
  replace (k - k)%nat with 0%nat by lia. replace (k + 1 - k)%nat with 1%nat by lia.
  replace (k + 2 - k)%nat with 2%nat by lia. replace (k + 3 - k)%nat with 3%nat by lia.
  assert (bytes_ok (drop k m)) as Hd by (by apply list.Forall_drop).
  assert (4 <= length (drop k m))%nat as Hl by (rewrite length_drop; lia).
  destruct (drop k m) as [|a [|b [|c [|d q]]]]; cbn in Hl; try lia. cbn [nth take].
  repeat (apply list.Forall_cons in Hd as [? Hd]). unfold byte_ok in *.
  rewrite !le_int_cons by (unfold byte_ok; repeat constructor; unfold byte_ok; lia). change (le_int (take 0 q)) with 0.
  rewrite (lor_disjoint a b 8), (lor_disjoint _ c 16), (lor_disjoint _ d 24) by lia. lia.
Qed.

(** A window of a window. *)
Lemma mod_div_mod n a b c d : 0 <= a -> 0 <= c -> 0 <= d -> c + d <= b ->
  (((n / 2 ^ a) mod 2 ^ b) / 2 ^ c) mod 2 ^ d = (n / 2 ^ (a + c)) mod 2 ^ d.
Proof.
  intros. apply Z.bits_inj'. intros i Hi. destruct (Z.lt_ge_cases i d).
  - rewrite !Z.mod_pow2_bits_low, Z.div_pow2_bits, Z.mod_pow2_bits_low, !Z.div_pow2_bits by lia. f_equal. lia.
  - by rewrite !Z.mod_pow2_bits_high by lia.
Qed.

Lemma limb_window m k j : bytes_ok m -> (k + 4 <= length m)%nat -> 0 <= j <= 6 ->
  Z.land (Z.shiftr (U8TO32 m k) j) 0x3ffffff = (le_int m / 2 ^ (8 * Z.of_nat k + j)) mod 2 ^ 26.
Proof.
  intros Hm Hk Hj. rewrite U8TO32_window by done. rewrite Z.shiftr_div_pow2 by lia. change 0x3ffffff with (Z.ones 26).
  rewrite Z.land_ones by lia. apply mod_div_mod; lia.
Qed.

(** ** Limbs *)

Definition p1305 : Z := 2 ^ 130 - 5.
Definition value (l : limbs) : Z := l0 l + l1 l * 2 ^ 26 + l2 l * 2 ^ 52 + l3 l * 2 ^ 78 + l4 l * 2 ^ 104.

(** The accumulator between blocks, while a block is added, and the key. *)
Definition h_ok (h : limbs) : Prop :=
  0 <= l0 h < 2 ^ 26 /\ 0 <= l1 h < 2 ^ 26 + 64 /\ 0 <= l2 h < 2 ^ 26 /\ 0 <= l3 h < 2 ^ 26 /\ 0 <= l4 h < 2 ^ 26.
Definition sum_ok (h : limbs) : Prop :=
  0 <= l0 h < 2 ^ 27 + 64 /\ 0 <= l1 h < 2 ^ 27 + 64 /\ 0 <= l2 h < 2 ^ 27 + 64 /\ 0 <= l3 h < 2 ^ 27 + 64 /\ 0 <= l4 h < 2 ^ 27 + 64.
Definition r_ok (r : limbs) : Prop :=
  0 <= l0 r < 2 ^ 26 /\ 0 <= l1 r < 2 ^ 26 /\ 0 <= l2 r < 2 ^ 26 /\ 0 <= l3 r < 2 ^ 26 /\ 0 <= l4 r < 2 ^ 20.
Definition d_ok (d : limbs) : Prop :=
  0 <= l0 d < 17 * 2 ^ 53 /\ 0 <= l1 d < 17 * 2 ^ 53 /\ 0 <= l2 d < 17 * 2 ^ 53 /\ 0 <= l3 d < 17 * 2 ^ 53 /\ 0 <= l4 d < 5 * 2 ^ 53.

(** The five limbs of a number below [2 ^ 130]. *)
Lemma limbs_value n : 0 <= n ->
  n mod 2 ^ 26 + (n / 2 ^ 26) mod 2 ^ 26 * 2 ^ 26 + (n / 2 ^ 52) mod 2 ^ 26 * 2 ^ 52 + (n / 2 ^ 78) mod 2 ^ 26 * 2 ^ 78 +
    n / 2 ^ 104 * 2 ^ 104 = n.
Proof.
  intros Hn. assert (forall a, 0 <= a -> (n / 2 ^ a) mod 2 ^ 26 = n / 2 ^ a - 2 ^ 26 * (n / 2 ^ (a + 26))) as H.
  { intros a Ha. rewrite Z.mod_eq by lia. rewrite Z.div_div by lia. by rewrite <- Z.pow_add_r by lia. }
  rewrite (H 26), (H 52), (H 78), Z.mod_eq by lia. change (26 + 26) with 52. change (52 + 26) with 78. change (78 + 26) with 104. lia.
Qed.

Lemma add32_small a b : 0 <= a -> 0 <= b -> a + b < 2 ^ 32 -> add32 a b = a + b.
Proof. intros. apply u32_small. lia. Qed.
Lemma add64_small a b : 0 <= a -> 0 <= b -> a + b < 2 ^ 64 -> add64 a b = a + b.
Proof. intros. apply u64_small. lia. Qed.

Lemma add_block_spec h m hibit : h_ok h -> bytes_ok m -> length m = 16%nat -> hibit = 0 \/ hibit = 2 ^ 24 ->
  sum_ok (add_block h m hibit) /\ value (add_block h m hibit) = value h + le_int m + hibit * 2 ^ 104.
Proof.
  intros (H0 & H1 & H2 & H3 & H4) Hm Hl Hb. pose proof (le_int_range m Hm) as Hn. unfold zlen in Hn. rewrite Hl in Hn. change (8 * Z.of_nat 16) with 128 in Hn.
  pose proof (limbs_value (le_int m) ltac:(lia)) as Hv.
  assert (Z.land (U8TO32 m 0) 0x3ffffff = le_int m mod 2 ^ 26) as E0.
  { rewrite <- (Z.shiftr_0_r (U8TO32 m 0)), limb_window by (done || lia). change (8 * Z.of_nat 0 + 0) with 0.
    by rewrite Z.pow_0_r, Z.div_1_r. }
  assert (Z.lor (Z.shiftr (U8TO32 m 12) 8) hibit = le_int m / 2 ^ 104 + hibit) as E4.
  { rewrite U8TO32_window by (done || lia). change (8 * Z.of_nat 12) with 96.
    rewrite (Z.mod_small (le_int m / 2 ^ 96)) by (split; [apply Z.div_pos; lia|apply Z.div_lt_upper_bound; lia]).
    rewrite Z.shiftr_div_pow2, Z.div_div by lia. change (2 ^ 96 * 2 ^ 8) with (2 ^ 104).
    destruct Hb as [-> | ->]; [by rewrite Z.lor_0_r, Z.add_0_r|].
    pose proof (lor_disjoint (le_int m / 2 ^ 104) 1 24) as E. change (Z.shiftl 1 24) with (2 ^ 24) in E. rewrite E; [lia|lia|].
    split; [apply Z.div_pos; lia|apply Z.div_lt_upper_bound; lia]. }
  assert (0 <= le_int m / 2 ^ 104 < 2 ^ 24) by (split; [apply Z.div_pos; lia|apply Z.div_lt_upper_bound; lia]).
  unfold add_block. rewrite E0, E4, !limb_window by (done || lia).
  change (8 * Z.of_nat 3 + 2) with 26. change (8 * Z.of_nat 6 + 4) with 52. change (8 * Z.of_nat 9 + 6) with 78.
  pose proof (Z.mod_pos_bound (le_int m) (2 ^ 26)). pose proof (Z.mod_pos_bound (le_int m / 2 ^ 26) (2 ^ 26)).
  pose proof (Z.mod_pos_bound (le_int m / 2 ^ 52) (2 ^ 26)). pose proof (Z.mod_pos_bound (le_int m / 2 ^ 78) (2 ^ 26)).
  set (n := le_int m) in *. set (n0 := n mod 2 ^ 26) in *. set (n1 := (n / 2 ^ 26) mod 2 ^ 26) in *.
  set (n2 := (n / 2 ^ 52) mod 2 ^ 26) in *. set (n3 := (n / 2 ^ 78) mod 2 ^ 26) in *. set (n4 := n / 2 ^ 104) in *.
  rewrite !add32_small by lia. unfold sum_ok, value. cbn [l0 l1 l2 l3 l4]. split; [lia|]. rewrite <- Hv. ring.
Qed.

Lemma le_bound a b : 0 <= a < b -> 0 <= a <= b.
Proof. lia. Qed.

Lemma mul_bound a b A B : 0 <= a <= A -> 0 <= b <= B -> 0 <= a * b <= A * B.
Proof. nia. Qed.

Class SmallFactor (B : Z) := small_factor : B <= 5 * 2 ^ 26.
#[export] Instance small_5_26 : SmallFactor (5 * 2 ^ 26). Proof. done. Qed.
#[export] Instance small_5_20 : SmallFactor (5 * 2 ^ 20). Proof. done. Qed.
#[export] Instance small_26 : SmallFactor (2 ^ 26). Proof. done. Qed.
#[export] Instance small_20 : SmallFactor (2 ^ 20). Proof. done. Qed.

Lemma mul64_spec a b B `{SmallFactor B} : 0 <= a < 2 ^ 27 + 64 -> 0 <= b <= B ->
  mul64 a b = a * b /\ 0 <= a * b <= (2 ^ 27 + 63) * B.
Proof.
  intros Ha Hb. pose proof (mul_bound a b (2 ^ 27 + 63) B ltac:(lia) Hb). pose proof (small_factor (B := B)).
  unfold mul64. rewrite u64_small by lia. lia.
Qed.

Lemma sum5_small a b c d e : 0 <= a < 2 ^ 60 -> 0 <= b < 2 ^ 60 -> 0 <= c < 2 ^ 60 -> 0 <= d < 2 ^ 60 -> 0 <= e < 2 ^ 60 ->
  sum5 a b c d e = a + b + c + d + e.
Proof. intros. unfold sum5. rewrite (add64_small a b), (add64_small _ c), (add64_small _ d), (add64_small _ e) by lia. lia. Qed.

Lemma multiply_spec h r : sum_ok h -> r_ok r ->
  d_ok (multiply h r) /\ exists k, value (multiply h r) = value h * value r - k * p1305.
Proof.
  destruct h as [h0 h1 h2 h3 h4], r as [r0 r1 r2 r3 r4]. unfold sum_ok, r_ok, multiply. cbn [l0 l1 l2 l3 l4].
  intros (H0 & H1 & H2 & H3 & H4) (R0 & R1 & R2 & R3 & R4).
  unfold mul32. rewrite !u32_small by lia.
  assert (0 <= r1 * 5 <= 5 * 2 ^ 26 /\ 0 <= r2 * 5 <= 5 * 2 ^ 26 /\ 0 <= r3 * 5 <= 5 * 2 ^ 26 /\ 0 <= r4 * 5 <= 5 * 2 ^ 20)
    as (S1 & S2 & S3 & S4) by lia.
  apply le_bound in R0, R1, R2, R3, R4.
  destruct (mul64_spec h0 r0 _ H0 R0) as [-> ?], (mul64_spec h1 _ _ H1 S4) as [-> ?], (mul64_spec h2 _ _ H2 S3) as [-> ?],
    (mul64_spec h3 _ _ H3 S2) as [-> ?], (mul64_spec h4 _ _ H4 S1) as [-> ?].
  destruct (mul64_spec h0 r1 _ H0 R1) as [-> ?], (mul64_spec h1 r0 _ H1 R0) as [-> ?], (mul64_spec h2 _ _ H2 S4) as [-> ?],
    (mul64_spec h3 _ _ H3 S3) as [-> ?], (mul64_spec h4 _ _ H4 S2) as [-> ?].
  destruct (mul64_spec h0 r2 _ H0 R2) as [-> ?], (mul64_spec h1 r1 _ H1 R1) as [-> ?], (mul64_spec h2 r0 _ H2 R0) as [-> ?],
    (mul64_spec h3 _ _ H3 S4) as [-> ?], (mul64_spec h4 _ _ H4 S3) as [-> ?].
  destruct (mul64_spec h0 r3 _ H0 R3) as [-> ?], (mul64_spec h1 r2 _ H1 R2) as [-> ?], (mul64_spec h2 r1 _ H2 R1) as [-> ?],
    (mul64_spec h3 r0 _ H3 R0) as [-> ?], (mul64_spec h4 _ _ H4 S4) as [-> ?].
  destruct (mul64_spec h0 r4 _ H0 R4) as [-> ?], (mul64_spec h1 r3 _ H1 R3) as [-> ?], (mul64_spec h2 r2 _ H2 R2) as [-> ?],
    (mul64_spec h3 r1 _ H3 R1) as [-> ?], (mul64_spec h4 r0 _ H4 R0) as [-> ?].
  repeat match goal with H : 0 <= ?x * ?y <= _ |- _ =>
    let z := fresh "z" in let E := fresh "E" in remember (x * y) as z eqn:E in * end.
  rewrite !sum5_small by lia. unfold d_ok. cbn [l0 l1 l2 l3 l4]. split; [lia|]. subst.
  exists (h1 * r4 + h2 * r3 + h3 * r2 + h4 * r1 + (h2 * r4 + h3 * r3 + h4 * r2) * 2 ^ 26 + (h3 * r4 + h4 * r3) * 2 ^ 52 + h4 * r4 * 2 ^ 78).
  unfold value, p1305. cbn [l0 l1 l2 l3 l4]. ring.
Qed.

Lemma carry_spec d : d_ok d -> h_ok (carry d) /\ exists k, value (carry d) = value d - k * p1305.
Proof.
  destruct d as [d0 d1 d2 d3 d4]. unfold d_ok, carry. cbn [l0 l1 l2 l3 l4]. intros (D0 & D1 & D2 & D3 & D4).
  change 0x3ffffff with (Z.ones 26). rewrite !Z.land_ones, !Z.shiftr_div_pow2 by lia.
  assert (forall x, u32 x mod 2 ^ 26 = x mod 2 ^ 26) as Hlow by (intros x; unfold u32, wrap; Z.div_mod_to_equations; lia).
  rewrite !Hlow. 
  assert (forall x, 0 <= x < 2 ^ 58 -> u32 (x / 2 ^ 26) = x / 2 ^ 26 /\ 0 <= x / 2 ^ 26 < 2 ^ 32) as Hc.
  { intros x Hx. assert (0 <= x / 2 ^ 26 < 2 ^ 32) by (split; [apply Z.div_pos; lia|apply Z.div_lt_upper_bound; lia]).
    split; [apply u32_small|]; lia. }
  destruct (Hc d0 ltac:(lia)) as [-> ?]. rewrite (add64_small d1) by lia. set (e1 := d1 + _ / _).
  destruct (Hc e1 ltac:(lia)) as [-> ?]. rewrite (add64_small d2) by lia. set (e2 := d2 + _ / _).
  destruct (Hc e2 ltac:(lia)) as [-> ?]. rewrite (add64_small d3) by lia. set (e3 := d3 + _ / _).
  destruct (Hc e3 ltac:(lia)) as [-> ?]. rewrite (add64_small d4) by lia. set (e4 := d4 + _ / _).
  destruct (Hc e4 ltac:(lia)) as [-> ?].
  assert (e4 / 2 ^ 26 < 6 * 2 ^ 27) by (apply Z.div_lt_upper_bound; lia).
  pose proof (Z.mod_pos_bound d0 (2 ^ 26)). pose proof (Z.mod_pos_bound e1 (2 ^ 26)).
  pose proof (Z.mod_pos_bound e2 (2 ^ 26)). pose proof (Z.mod_pos_bound e3 (2 ^ 26)). pose proof (Z.mod_pos_bound e4 (2 ^ 26)).
  unfold mul32. rewrite (u32_small (_ * 5)) by lia. rewrite (add32_small (d0 mod _)) by lia. set (f := d0 mod _ + _ * 5).
  assert (0 <= f / 2 ^ 26 < 64) by (split; [apply Z.div_pos; lia|apply Z.div_lt_upper_bound; lia]).
  rewrite add32_small by lia. pose proof (Z.mod_pos_bound f (2 ^ 26)). unfold h_ok, value. cbn [l0 l1 l2 l3 l4]. split; [lia|].
  exists (e4 / 2 ^ 26). unfold p1305.
  pose proof (Z.div_mod d0 (2 ^ 26)). pose proof (Z.div_mod e1 (2 ^ 26)). pose proof (Z.div_mod e2 (2 ^ 26)).
  pose proof (Z.div_mod e3 (2 ^ 26)). pose proof (Z.div_mod e4 (2 ^ 26)). pose proof (Z.div_mod f (2 ^ 26)). lia.
Qed.

(** ** The specification: arithmetic modulo [2 ^ 130 - 5] on the 16-byte blocks of the message *)

Fixpoint chunks (fuel : nat) (m : list Z) : list (list Z) :=
  match fuel, m with
  | S fuel, _ :: _ => take 16 m :: chunks fuel (drop 16 m)
  | _, _ => []
  end.
Definition blocks16 (m : list Z) : list (list Z) := chunks (length m) m.

Definition clamp (key : list Z) : Z := Z.land (le_int (take 16 key)) 0x0ffffffc0ffffffc0ffffffc0fffffff.
Definition poly_step (rv acc : Z) (c : list Z) : Z := ((acc + le_int (c ++ [1])) * rv) mod p1305.
Definition poly (rv : Z) (m : list Z) : Z := fold_left (poly_step rv) (blocks16 m) 0.

(** The tag of a message under a key of 32 bytes. *)
Definition poly1305 (key m : list Z) : list Z := le_bytes 16 (poly (clamp key) m + le_int (drop 16 key)).

Lemma chunks_fuel f : forall m g, (length m <= f)%nat -> (length m <= g)%nat -> chunks f m = chunks g m.
Proof.
  induction f as [|f IH]; intros m g Hf Hg; [by destruct m; [destruct g|cbn in Hf; lia]|].
  destruct m as [|x m]; [by destruct g|]. destruct g as [|g]; [cbn in Hg; lia|]. cbn [chunks]. f_equal. apply IH.
  - rewrite length_drop. cbn in *. lia.
  - rewrite length_drop. cbn in *. lia.
Qed.

Lemma blocks16_cons a b : length a = 16%nat -> blocks16 (a ++ b) = a :: blocks16 b.
Proof.
  intros Ha. unfold blocks16. rewrite length_app, Ha. destruct a as [|x a]; [done|].
  change (16 + length b)%nat with (S (15 + length b)). cbn [app chunks]. change (x :: a ++ b) with ((x :: a) ++ b).
  rewrite take_app_length', drop_app_length' by done. f_equal. apply chunks_fuel; lia.
Qed.

Lemma blocks16_app n : forall a b, length a = (16 * n)%nat -> blocks16 (a ++ b) = blocks16 a ++ blocks16 b.
Proof.
  induction n as [|n IH]; intros a b Ha; [by destruct a|].
  rewrite <- (take_drop 16 a), <- app_assoc.
  rewrite (blocks16_cons _ (_ ++ b)), (blocks16_cons _ (drop 16 a)) by (rewrite length_take; lia).
  cbn [app]. f_equal. apply IH. rewrite length_drop. lia.
Qed.

Lemma blocks16_short a : a <> [] -> (length a < 16)%nat -> blocks16 a = [a].
Proof.
  intros Ha Hl. unfold blocks16. destruct a as [|x a]; [done|]. cbn [length chunks].
  rewrite take_ge, drop_ge by lia. by destruct (length a).
Qed.

Lemma le_int_one a : bytes_ok a -> le_int (a ++ [1]) = le_int a + 2 ^ (8 * zlen a).
Proof. intros. rewrite le_int_app by (done || by apply list.Forall_singleton). change (le_int [1]) with 1. lia. Qed.

(** ** Blocks *)

Lemma block_step_spec h r m hibit acc : h_ok h -> r_ok r -> bytes_ok m -> length m = 16%nat -> hibit = 0 \/ hibit = 2 ^ 24 ->
  value h mod p1305 = acc mod p1305 ->
  h_ok (carry (multiply (add_block h m hibit) r)) /\
  value (carry (multiply (add_block h m hibit) r)) mod p1305 = ((acc + (le_int m + hibit * 2 ^ 104)) * value r) mod p1305.
Proof.
  intros Hh Hr Hm Hl Hb Ha. destruct (add_block_spec h m hibit Hh Hm Hl Hb) as [Hs Es].
  destruct (multiply_spec _ r Hs Hr) as (Hd & k & Em). destruct (carry_spec _ Hd) as (Hc & k' & Ec). split; [done|].
  rewrite Ec, Em, Es. replace (_ - k * p1305 - k' * p1305) with ((value h + le_int m + hibit * 2 ^ 104) * value r + (- k - k') * p1305) by ring.
  rewrite Z.mod_add by done. rewrite <- Z.add_assoc. rewrite Z.mul_mod, Z.add_mod, Ha by done.
  by rewrite <- Z.add_mod, <- Z.mul_mod by done.
Qed.

Lemma blocks_loop_spec n : forall h r m acc, h_ok h -> r_ok r -> bytes_ok m -> length m = (16 * n)%nat ->
  value h mod p1305 = acc -> 
  h_ok (blocks_loop n h r (2 ^ 24) m) /\ value (blocks_loop n h r (2 ^ 24) m) mod p1305 = fold_left (poly_step (value r)) (blocks16 m) acc.
Proof.
  induction n as [|n IH]; intros h r m acc Hh Hr Hm Hl Ha; [by destruct m|]. cbn [blocks_loop].
  destruct (Z.leb_spec poly1305_block_size (zlen m)); [|unfold poly1305_block_size, zlen in *; lia].
  assert (length (take 16 m) = 16%nat) as Ht by (rewrite length_take; lia).
  assert (bytes_ok (take 16 m)) as Hbt by (by apply list.Forall_take).
  assert (add_block h m (2 ^ 24) = add_block h (take 16 m) (2 ^ 24)) as ->.
  { assert (forall i, (i < 16)%nat -> byte (take 16 m) i = byte m i) as E.
    { intros i Hi. unfold byte. rewrite <- (take_drop 16 m) at 2. by rewrite app_nth1 by lia. }
    unfold add_block, U8TO32. by rewrite !E by lia. }
  destruct (block_step_spec h r (take 16 m) (2 ^ 24) acc) as [Hh' Ha']; [done..|by right| |].
  { subst acc. by rewrite Z.mod_mod by done. }
  replace (blocks16 m) with (take 16 m :: blocks16 (drop 16 m)) by (by rewrite <- blocks16_cons, take_drop).
  cbn [fold_left]. apply IH; [done..|by apply list.Forall_drop|rewrite length_drop; lia|].
  rewrite Ha'. unfold poly_step. rewrite le_int_one by done. unfold zlen. rewrite Ht. done.
Qed.

(** ** The key *)

Lemma byte_take key i k : (i < k)%nat -> byte (take k key) i = byte key i.
Proof. intros H. unfold byte. f_equal. rewrite !nth_lookup. by rewrite lookup_take_lt. Qed.

Lemma byte_drop key i k : byte (drop k key) i = byte key (k + i).
Proof. unfold byte. f_equal. rewrite !nth_lookup. by rewrite lookup_drop. Qed.

Lemma U8TO32_take key k n : (k + 4 <= n)%nat -> U8TO32 (take n key) k = U8TO32 key k.
Proof. intros. unfold U8TO32. by rewrite !byte_take by lia. Qed.

Lemma U8TO32_drop key k n : U8TO32 (drop n key) k = U8TO32 key (n + k).
Proof. unfold U8TO32. by rewrite !byte_drop, !Nat.add_assoc. Qed.

Lemma land_limb n m a : 0 <= a ->
  (Z.land n m / 2 ^ a) mod 2 ^ 26 = Z.land ((n / 2 ^ a) mod 2 ^ 26) ((m / 2 ^ a) mod 2 ^ 26).
Proof.
  intros. apply Z.bits_inj'. intros i Hi. rewrite Z.land_spec. destruct (Z.lt_ge_cases i 26).
  - by rewrite !Z.mod_pow2_bits_low, !Z.div_pow2_bits, Z.land_spec by lia.
  - by rewrite !Z.mod_pow2_bits_high by lia.
Qed.

Lemma land_sub x k m : Z.land m (Z.ones k) = m -> Z.land x m = Z.land (Z.land x (Z.ones k)) m.
Proof. intros H. rewrite <- H at 1. by rewrite (Z.land_comm m), Z.land_assoc. Qed.

Definition pads_value (st : state) : Z := pad0 st + pad1 st * 2 ^ 32 + pad2 st * 2 ^ 64 + pad3 st * 2 ^ 96.

Definition key_rep (st : state) (key : list Z) : Prop :=
  r_ok (r st) /\ value (r st) = clamp key /\ rng 32 (pad0 st) /\ rng 32 (pad1 st) /\ rng 32 (pad2 st) /\ rng 32 (pad3 st) /\
  pads_value st = le_int (drop 16 key).

Lemma words_value n : 0 <= n < 2 ^ 128 ->
  (n / 2 ^ 0) mod 2 ^ 32 + (n / 2 ^ 32) mod 2 ^ 32 * 2 ^ 32 + (n / 2 ^ 64) mod 2 ^ 32 * 2 ^ 64 + (n / 2 ^ 96) mod 2 ^ 32 * 2 ^ 96 = n.
Proof.
  intros Hn. assert (forall a, 0 <= a -> (n / 2 ^ a) mod 2 ^ 32 = n / 2 ^ a - 2 ^ 32 * (n / 2 ^ (a + 32))) as H.
  { intros a Ha. rewrite Z.mod_eq by lia. rewrite Z.div_div by lia. by rewrite <- Z.pow_add_r by lia. }
  rewrite !H by lia. change (0 + 32) with 32. change (32 + 32) with 64. change (64 + 32) with 96. change (96 + 32) with 128.
  rewrite Z.pow_0_r, Z.div_1_r, (Z.div_small n (2 ^ 128)) by lia. lia.
Qed.

Lemma init_key buf key : bytes_ok key -> length key = 32%nat -> key_rep (poly1305_init buf key) key.
Proof.
  intros Hk Hl. unfold key_rep, poly1305_init, pads_value. cbn [r pad0 pad1 pad2 pad3].
  assert (bytes_ok (take 16 key) /\ bytes_ok (drop 16 key)) as [Ht Hd] by (split; [by apply list.Forall_take|by apply list.Forall_drop]).
  assert (length (take 16 key) = 16%nat /\ length (drop 16 key) = 16%nat) as [Hlt Hld] by (rewrite length_take, length_drop; lia).
  split; [|split].
  - unfold r_ok. cbn [l0 l1 l2 l3 l4].
    assert (forall x m n, 0 <= n -> Z.land m (Z.ones n) = m -> 0 <= Z.land x m < 2 ^ n) as L.
    { intros x m n Hn Hm. rewrite <- Hm, Z.land_assoc. by apply land_ones_range. }
    split_and!; try (apply (L _ _ 26); done); apply (L _ _ 20); done.
  - pose proof (le_int_range _ Ht) as Hn. unfold zlen in Hn. rewrite Hlt in Hn. change (8 * Z.of_nat 16) with 128 in Hn.
    rewrite <- !(U8TO32_take key _ 16) by lia. unfold clamp. set (n := le_int (take 16 key)) in *.
    rewrite (land_sub _ 26 0x3ffff03), (land_sub _ 26 0x3ffc0ff), (land_sub _ 26 0x3f03fff), (land_sub _ 26 0x00fffff) by done.
    change (Z.ones 26) with 0x3ffffff. rewrite <- (Z.shiftr_0_r (U8TO32 _ 0)), !limb_window by (done || lia).
    rewrite U8TO32_window, Z.shiftr_div_pow2 by (done || lia). change 0x3ffffff with (Z.ones 26). rewrite Z.land_ones by lia.
    fold n. change (8 * Z.of_nat 12) with 96.
    rewrite (Z.mod_small (n / 2 ^ 96) (2 ^ 32)) by (split; [apply Z.div_pos; lia|apply Z.div_lt_upper_bound; lia]).
    rewrite Z.div_div by lia. change (2 ^ 96 * 2 ^ 8) with (2 ^ 104). unfold value. cbn [l0 l1 l2 l3 l4]. set (M := 0x0ffffffc0ffffffc0ffffffc0fffffff).
    pose proof (limbs_value (Z.land n M) ltac:(apply Z.land_nonneg; lia)) as Hv.
    assert (0 <= Z.land n M < 2 ^ 128) as HM.
    { change M with (Z.land M (Z.ones 128)). rewrite Z.land_assoc. apply land_ones_range. lia. }
    rewrite <- (Z.mod_small (Z.land n M / 2 ^ 104) (2 ^ 26)) in Hv
      by (split; [apply Z.div_pos; lia|apply Z.div_lt_upper_bound; lia]).
    rewrite <- (Z.div_1_r (Z.land n M)) in Hv at 1. change 1 with (2 ^ 0) in Hv at 1. rewrite !land_limb in Hv by lia.
    change ((M / 2 ^ 0) mod 2 ^ 26) with (Z.ones 26) in Hv. rewrite (Z.land_ones _ 26), Z.mod_mod in Hv by lia. exact Hv.
  - pose proof (le_int_range _ Hd) as Hn. unfold zlen in Hn. rewrite Hld in Hn. change (8 * Z.of_nat 16) with 128 in Hn.
    change (U8TO32 key 16) with (U8TO32 key (16 + 0)). change (U8TO32 key 20) with (U8TO32 key (16 + 4)).
    change (U8TO32 key 24) with (U8TO32 key (16 + 8)). change (U8TO32 key 28) with (U8TO32 key (16 + 12)).
    rewrite <- !U8TO32_drop. rewrite !U8TO32_window by (done || lia). unfold rng. split_and!; try (apply Z.mod_pos_bound; lia).
    apply words_value. done.
Qed.

(** ** Streaming *)

(** [full]: the bytes that went through [poly1305_blocks]; [rest]: those in the buffer. *)
Record part (st : state) (key full rest : list Z) : Prop := mkPart {
  p_key : key_rep st key;
  p_final : final st = false;
  p_bytes : bytes_ok full /\ bytes_ok rest;
  p_full : exists n, length full = (16 * n)%nat;
  p_left : leftover st = zlen rest;
  p_buffer : exists tail, buffer st = rest ++ tail /\ length (rest ++ tail) = 16%nat;
  p_h : h_ok (h st);
  p_value : value (h st) mod p1305 = fold_left (poly_step (clamp key)) (blocks16 full) 0 }.

Definition rep (st : state) (key msg : list Z) : Prop :=
  exists full rest, msg = full ++ rest /\ (length rest < 16)%nat /\ part st key full rest.

Lemma init_rep buf key : bytes_ok key -> length key = 32%nat -> length buf = 16%nat -> part (poly1305_init buf key) key [] [].
Proof.
  intros. split; try done.
  - by apply init_key.
  - split; apply list.Forall_nil_2.
  - by exists 0%nat.
  - by exists buf.
Qed.

Lemma fill_spec st key full rest m : part st key full rest -> bytes_ok m -> (length rest + length m <= 16)%nat ->
  exists st', fill st m = Ok st' /\ part st' key full (rest ++ m).
Proof.
  intros [Hk Hf [Hb Hbr] Hn Hl (tail & Ht & Ht16) Hh Hv] Hm Hlen. rewrite length_app in Ht16.
  unfold fill. rewrite Ht, Hl, mem_write_split by lia. cbn. eexists. split; [done|]. split; try done.
  - split; [done|by apply bytes_ok_app].
  - cbn. by rewrite zlen_app.
  - exists (drop (length m) tail). cbn. rewrite <- app_assoc. split; [done|]. rewrite !length_app, length_drop. lia.
Qed.

Lemma blocks_spec st key full rest m k : part st key full rest -> bytes_ok m -> length m = (16 * k)%nat ->
  part (poly1305_blocks st m) key (full ++ m) rest.
Proof.
  intros [Hk Hf [Hb Hbr] [n Hn] Hl Ht Hh Hv] Hm Hlen. unfold poly1305_blocks. rewrite Hf. destruct Hk as (Hr & Hrv & Hp).
  destruct (blocks_loop_spec k (h st) (r st) m (value (h st) mod p1305)) as [Hh' Hv']; [done..|].
  replace (length m / 16)%nat with k by (rewrite Hlen, Nat.mul_comm, Nat.div_mul by lia; done).
  change (Z.shiftl 1 24) with (2 ^ 24). split; try done.
  - split; [by apply bytes_ok_app|done].
  - exists (n + k)%nat. rewrite length_app. lia.
  - cbn [h set_h]. rewrite Hv', Hv, Hrv. by rewrite (blocks16_app n), fold_left_app.
Qed.

Lemma emptied st key full rest : part st key full rest -> part (set_buffer st (buffer st) 0) key full [].
Proof.
  intros [Hk Hf [Hb Hbr] Hn Hl (tail & Ht & Ht16) Hh Hv]. split; try done.
  - split; [done|apply list.Forall_nil_2].
  - exists (buffer st). split; [done|]. cbn. by rewrite Ht.
Qed.

(** [bytes & ~(poly1305_block_size - 1)] *)
Lemma want_eq x : Z.land x (Z.lnot (poly1305_block_size - 1)) = 16 * (x / 16).
Proof.
  rewrite <- Z.ldiff_land. change (poly1305_block_size - 1) with (Z.ones 4). rewrite Z.ldiff_ones_r by lia.
  rewrite Z.shiftl_mul_pow2, Z.shiftr_div_pow2 by lia. change (2 ^ 4) with 16. lia.
Qed.

Lemma update_rest_spec st key full m : part st key full [] -> bytes_ok m ->
  exists st', update_rest st m = Ok st' /\ rep st' key (full ++ m).
Proof.
  intros Hp Hm. unfold update_rest. rewrite want_eq. set (w := Z.to_nat (16 * (zlen m / 16))).
  assert (w = (16 * (length m / 16))%nat) as Hw.
  { unfold w, zlen. change 16 with (Z.of_nat 16). rewrite <- Nat2Z.inj_div, <- Nat2Z.inj_mul. apply Nat2Z.id. }
  pose proof (Nat.div_mod_eq (length m) 16) as Hdm. pose proof (Nat.mod_upper_bound (length m) 16 ltac:(lia)) as Hub.
  assert (exists st1 m1 full1, (if poly1305_block_size <=? zlen m then poly1305_blocks st (take w m) else st) = st1 /\
    (if poly1305_block_size <=? zlen m then drop w m else m) = m1 /\ part st1 key full1 [] /\ full ++ m = full1 ++ m1 /\ (length m1 < 16)%nat /\ bytes_ok m1)
    as (st1 & m1 & full1 & -> & -> & Hp1 & He & Hl1 & Hm1).
  { destruct (Z.leb_spec poly1305_block_size (zlen m)) as [Hle|Hlt].
    - exists (poly1305_blocks st (take w m)), (drop w m), (full ++ take w m). split_and!; [done..| | | |].
      + apply (blocks_spec _ _ _ _ _ (length m / 16)); [done|by apply list.Forall_take|]. rewrite length_take, Hw. lia.
      + by rewrite <- app_assoc, take_drop.
      + rewrite length_drop. lia.
      + by apply list.Forall_drop.
    - exists st, m, full. split_and!; try done. unfold poly1305_block_size, zlen in Hlt. lia. }
  destruct (Z.eqb_spec (zlen m1) 0) as [E|E]; cbn [negb].
  - exists st1. split; [done|]. exists full1, []. destruct m1; [|rewrite zlen_cons in E; pose proof (zlen_nonneg m1); lia].
    split_and!; [done|cbn; lia|done].
  - destruct (fill_spec st1 key full1 [] m1 Hp1 Hm1) as (st' & Hf & Hp'); [cbn; lia|]. exists st'. split; [done|].
    by exists full1, m1.
Qed.

Lemma update_spec st key msg m : rep st key msg -> bytes_ok m -> exists st', poly1305_update st m = Ok st' /\ rep st' key (msg ++ m).
Proof.
  intros (full & rest & -> & Hr & Hp) Hm. unfold poly1305_update. rewrite (p_left _ _ _ _ Hp).
  destruct (Z.eqb_spec (zlen rest) 0) as [E|E]; cbn [negb].
  { destruct rest; [|rewrite zlen_cons in E; pose proof (zlen_nonneg rest); lia]. rewrite app_nil_r. by apply update_rest_spec. }
  set (w := Z.to_nat (Z.min (poly1305_block_size - zlen rest) (zlen m))).
  assert (w = Nat.min (16 - length rest) (length m)) as Hw by (unfold w, poly1305_block_size, zlen; lia).
  destruct (fill_spec st key full rest (take w m) Hp) as (st1 & -> & Hp1);
    [by apply list.Forall_take|rewrite length_take; lia|]. cbn [mbind outcome_bind].
  rewrite (p_left _ _ _ _ Hp1). destruct (Z.ltb_spec (zlen (rest ++ take w m)) poly1305_block_size) as [Hlt|Hge].
  - exists st1. split; [done|]. exists full, (rest ++ m). rewrite app_assoc. split; [done|].
    unfold zlen, poly1305_block_size in Hlt. rewrite length_app, length_take in Hlt. rewrite take_ge in Hp1 by lia.
    split; [rewrite length_app; lia|done].
  - unfold zlen, poly1305_block_size in Hge. rewrite length_app, length_take in Hge.
    destruct (p_buffer _ _ _ _ Hp1) as (tail & Hbuf & H16). assert (tail = []) as ->.
    { destruct tail; [done|]. rewrite !length_app, length_take in H16. cbn in H16. lia. }
    rewrite app_nil_r in Hbuf, H16. rewrite Hbuf.
    assert (part (poly1305_blocks st1 (rest ++ take w m)) key (full ++ rest ++ take w m) (rest ++ take w m)) as Hp2.
    { eapply (blocks_spec _ _ _ _ _ 1); [done|apply Hp1|lia]. }
    apply emptied in Hp2. 
    replace ((full ++ rest) ++ m) with ((full ++ rest ++ take w m) ++ drop w m) by (by rewrite <- !app_assoc, take_drop).
    apply update_rest_spec; [done|by apply list.Forall_drop].
Qed.

(** ** Finishing *)

(** The accumulator with all carries done. *)
Definition canonical (h : limbs) : Prop :=
  0 <= l0 h < 2 ^ 26 /\ 0 <= l1 h < 2 ^ 26 /\ 0 <= l2 h < 2 ^ 26 /\ 0 <= l3 h < 2 ^ 26 /\ 0 <= l4 h < 2 ^ 26.

Lemma le_int_zeros n a : bytes_ok a -> le_int (a ++ replicate n 0) = le_int a.
Proof.
  intros Ha. assert (bytes_ok (replicate n 0)) as Hz by (apply list.Forall_replicate; done).
  rewrite le_int_app by done. assert (le_int (replicate n 0) = 0) as ->; [|lia].
  induction n as [|n IH]; [done|]. cbn [replicate] in *. apply list.Forall_cons in Hz as [? Hz].
  rewrite le_int_cons, IH by done. lia.
Qed.

Lemma poly_range rv l : forall acc, 0 <= acc < p1305 -> 0 <= fold_left (poly_step rv) l acc < p1305.
Proof. induction l as [|c l IH]; intros acc H; [done|]. cbn. apply IH. by apply Z.mod_pos_bound. Qed.

Lemma finish_block_spec st key msg : rep st key msg ->
  exists st', finish_block st = Ok st' /\ key_rep st' key /\ h_ok (h st') /\ value (h st') mod p1305 = poly (clamp key) msg.
Proof.
  intros (full & rest & -> & Hr & [Hk Hf [Hb Hbr] [n Hn] Hl (tail & Ht & Ht16) Hh Hv]).
  unfold finish_block. rewrite Hl. unfold poly. rewrite (blocks16_app n), fold_left_app by done. rewrite <- Hv.
  destruct (Z.eqb_spec (zlen rest) 0) as [E|E]; cbn [negb].
  { exists st. destruct rest; [done|rewrite zlen_cons in E; pose proof (zlen_nonneg rest); lia]. }
  rewrite length_app in Ht16. rewrite blocks16_short by first [by intros -> | lia].
  rewrite Ht, mem_write_split by (cbn; lia). cbn [mbind outcome_bind length].
  set (zs := replicate (Z.to_nat (poly1305_block_size - (zlen rest + 1))) 0).
  assert (length zs = 15 - length rest)%nat as Hz by (unfold zs, poly1305_block_size, zlen; rewrite length_replicate; lia).
  rewrite (app_assoc rest). replace (zlen rest + 1) with (zlen (rest ++ [1])) by (by rewrite zlen_app).
  rewrite mem_write_split by (rewrite length_drop; lia). cbn [mbind outcome_bind]. rewrite drop_ge by (rewrite length_drop; lia).
  rewrite app_nil_r. eexists. split; [reflexivity|]. unfold poly1305_blocks, set_final, set_buffer. cbn [h r final buffer set_h].
  rewrite take_ge by (rewrite !length_app; cbn; lia).
  assert (bytes_ok (rest ++ [1])) as Hb1 by (apply bytes_ok_app; split; [done|by apply list.Forall_singleton]).
  assert (length ((rest ++ [1]) ++ zs) = 16%nat) as Hlen by (rewrite !length_app; cbn; lia).
  assert (bytes_ok ((rest ++ [1]) ++ zs)) as Hbz by (apply bytes_ok_app; split; [done|by apply list.Forall_replicate]).
  destruct Hk as (Hrk & Hrv & Hp). rewrite Hlen. change (16 / 16)%nat with 1%nat. cbn [blocks_loop].
  destruct (Z.leb_spec poly1305_block_size (zlen ((rest ++ [1]) ++ zs))) as [_|Hlt]; [|unfold zlen in Hlt; rewrite Hlen in Hlt; done].
  destruct (block_step_spec (h st) (r st) ((rest ++ [1]) ++ zs) 0 (value (h st) mod p1305)) as [Hh' Hv']; [done..|by left| |].
  { by rewrite Z.mod_mod. }
  split; [done|]. split; [done|]. rewrite Hv'. cbn [fold_left]. unfold poly_step. rewrite Hrv, (le_int_zeros (Z.to_nat (poly1305_block_size - (zlen rest + 1))) (rest ++ [1]) Hb1 : le_int ((rest ++ [1]) ++ zs) = _).
  do 2 f_equal. lia.
Qed.

Lemma full_carry_spec h : h_ok h -> canonical (full_carry h) /\ exists k, value (full_carry h) = value h - k * p1305.
Proof.
  destruct h as [h0 h1 h2 h3 h4]. unfold h_ok, canonical, full_carry, value. cbn [l0 l1 l2 l3 l4]. intros (H0 & H1 & H2 & H3 & H4).
  change 0x3ffffff with (Z.ones 26). rewrite !Z.land_ones, !Z.shiftr_div_pow2 by lia. unfold mul32, add32.
  assert (forall x, 0 <= x < 2 ^ 27 + 64 -> 0 <= x / 2 ^ 26 <= 2 /\ 0 <= x mod 2 ^ 26 < 2 ^ 26 /\ x = 2 ^ 26 * (x / 2 ^ 26) + x mod 2 ^ 26) as D.
  { intros x Hx. Z.div_mod_to_equations. lia. }
  destruct (D h1 ltac:(lia)) as (? & ? & ?). rewrite (u32_small (h2 + _)) by lia. set (e2 := h2 + _ / _) in *.
  destruct (D e2 ltac:(lia)) as (? & ? & ?). rewrite (u32_small (h3 + _)) by lia. set (e3 := h3 + _ / _) in *.
  destruct (D e3 ltac:(lia)) as (? & ? & ?). rewrite (u32_small (h4 + _)) by lia. set (e4 := h4 + _ / _) in *.
  destruct (D e4 ltac:(lia)) as (? & ? & ?). rewrite (u32_small (_ * 5)) by lia. rewrite (u32_small (h0 + _)) by lia. set (e0 := h0 + _ * 5) in *.
  destruct (D e0 ltac:(lia)) as (? & ? & ?). rewrite u32_small by lia.
  split; [lia|]. exists (e4 / 2 ^ 26). unfold p1305. lia.
Qed.

Lemma u32_neg1 : u32 (-1) = Z.ones 32.
Proof. reflexivity. Qed.

Lemma land32 x : 0 <= x < 2 ^ 32 -> Z.land x (Z.ones 32) = x.
Proof. intros. by apply land_ones_id. Qed.

Lemma select_spec h : canonical h -> canonical (select h (minus_p h)) /\ value (select h (minus_p h)) = value h mod p1305.
Proof.
  destruct h as [h0 h1 h2 h3 h4]. unfold canonical, value, minus_p, select. cbn [l0 l1 l2 l3 l4]. intros (H0 & H1 & H2 & H3 & H4).
  change 0x3ffffff with (Z.ones 26). rewrite !Z.land_ones, !Z.shiftr_div_pow2 by lia. unfold add32.
  assert (forall x, 0 <= x < 2 ^ 27 -> 0 <= x / 2 ^ 26 <= 1 /\ 0 <= x mod 2 ^ 26 < 2 ^ 26 /\ x = 2 ^ 26 * (x / 2 ^ 26) + x mod 2 ^ 26) as D.
  { intros x Hx. Z.div_mod_to_equations. lia. }
  rewrite (u32_small (h0 + 5)) by lia. set (e0 := h0 + 5) in *. destruct (D e0 ltac:(lia)) as (? & ? & ?).
  rewrite (u32_small (h1 + _)) by lia. set (e1 := h1 + _ / _) in *. destruct (D e1 ltac:(lia)) as (? & ? & ?).
  rewrite (u32_small (h2 + _)) by lia. set (e2 := h2 + _ / _) in *. destruct (D e2 ltac:(lia)) as (? & ? & ?).
  rewrite (u32_small (h3 + _)) by lia. set (e3 := h3 + _ / _) in *. destruct (D e3 ltac:(lia)) as (? & ? & ?).
  set (c := e3 / 2 ^ 26) in *. change (Z.shiftl 1 26) with (2 ^ 26).
  assert (h4 + c = 2 ^ 26 \/ h4 + c < 2 ^ 26) as [E|E] by lia.
  - replace (h4 + c - 2 ^ 26) with 0 by lia. change (u32 0) with 0. change (u32 (0 / 2 ^ 31 - 1)) with (Z.ones 32).
    change (u32 (Z.lnot (Z.ones 32))) with 0. rewrite !Z.land_0_r, !Z.lor_0_l, !land32 by lia. split; [lia|].
    apply Z.mod_unique with 1; unfold p1305 in *; lia.
  - assert (u32 (h4 + c - 2 ^ 26) / 2 ^ 31 = 1) as ->.
    { unfold u32, wrap. rewrite <- (Z.mod_add _ 1), Z.mod_small by lia. Z.div_mod_to_equations. lia. }
    change (u32 (1 - 1)) with 0. change (u32 (Z.lnot 0)) with (Z.ones 32). rewrite !Z.land_0_r, !Z.lor_0_r, !land32 by lia.
    split; [lia|]. symmetry. apply Z.mod_small. unfold p1305. lia.
Qed.

Lemma be_bytes_split n m v : be_bytes (n + m) v = be_bytes n (v / 2 ^ (8 * Z.of_nat m)) ++ be_bytes m v.
Proof.
  induction n as [|n IH]; [done|]. cbn [be_bytes Nat.add app]. rewrite IH. f_equal.
  rewrite !shiftr_byte by lia. f_equal. rewrite Z.div_div by lia. f_equal. rewrite <- Z.pow_add_r by lia. f_equal. lia.
Qed.

Lemma le_bytes_split n m v : le_bytes (m + n) v = le_bytes m v ++ le_bytes n (v / 2 ^ (8 * Z.of_nat m)).
Proof. unfold le_bytes. rewrite Nat.add_comm, be_bytes_split. apply rev_app_distr. Qed.

Lemma le_bytes_words v : le_bytes 16 v = le_bytes 4 v ++ le_bytes 4 (v / 2 ^ 32) ++ le_bytes 4 (v / 2 ^ 64) ++ le_bytes 4 (v / 2 ^ 96).
Proof.
  change 16%nat with (4 + (4 + (4 + 4)))%nat. rewrite !le_bytes_split, !Z.div_div by lia. rewrite <- !Z.pow_add_r by lia. reflexivity.
Qed.

Lemma le_bytes_mod n v k : 8 * Z.of_nat n <= k -> le_bytes n (v mod 2 ^ k) = le_bytes n v.
Proof. intros. unfold le_bytes. by rewrite be_bytes_mod. Qed.

Lemma U32TO8_le v : U32TO8 v = le_bytes 4 v.
Proof.
  unfold U32TO8, le_bytes. cbn [be_bytes rev app]. rewrite Z.shiftr_0_r.
  by rewrite !Address.land_ff.
Qed.

Lemma emit_spec h p0 p1 p2 p3 : canonical h -> rng 32 p0 -> rng 32 p1 -> rng 32 p2 -> rng 32 p3 ->
  emit h p0 p1 p2 p3 = le_bytes 16 (value h + (p0 + p1 * 2 ^ 32 + p2 * 2 ^ 64 + p3 * 2 ^ 96)).
Proof.
  destruct h as [h0 h1 h2 h3 h4]. unfold canonical, value, emit, rng, low32, shl32. cbn [l0 l1 l2 l3 l4].
  intros (H0 & H1 & H2 & H3 & H4) P0 P1 P2 P3. change 0xffffffff with (Z.ones 32).
  assert (forall x k, 0 <= k <= 32 -> u32 (Z.shiftl x k) = Z.shiftl (x mod 2 ^ (32 - k)) k) as S.
  { intros x k Hk. rewrite !Z.shiftl_mul_pow2 by lia. unfold u32, wrap. replace (2 ^ 32) with (2 ^ (32 - k) * 2 ^ k) by
      (rewrite <- Z.pow_add_r by lia; f_equal; lia). by rewrite Z.mul_mod_distr_r by lia. }
  rewrite !S by lia. clear S. rewrite !Z.shiftr_div_pow2 by lia.
  assert (forall x k, 0 <= k -> 0 <= x mod 2 ^ k < 2 ^ k) as M by (intros; apply Z.mod_pos_bound; lia).
  pose proof (M h1 6). pose proof (M h2 12). pose proof (M h3 18). pose proof (M h4 24). clear M.
  assert (forall x k, 0 <= x < 2 ^ 26 -> 0 <= k <= 26 -> 0 <= x / 2 ^ k < 2 ^ (26 - k)) as V.
  { intros x k Hx Hk. split; [apply Z.div_pos; lia|]. apply Z.div_lt_upper_bound; [lia|]. rewrite <- Z.pow_add_r by lia.
    replace (k + (26 - k)) with 26 by lia. lia. }
  pose proof (V h1 6 H1). pose proof (V h2 12 H2). pose proof (V h3 18 H3). clear V.
  change (32 - 26) with 6 in *. change (32 - 20) with 12 in *. change (32 - 14) with 18 in *. change (32 - 8) with 24 in *.
  rewrite (lor_disjoint h0 _ 26), (lor_disjoint (h1 / _) _ 20), (lor_disjoint (h2 / _) _ 14), (lor_disjoint (h3 / _) _ 8) by lia.
  rewrite !land32 by lia.
  set (w0 := h0 + _ * 2 ^ 26) in *. set (w1 := h1 / _ + _) in *. set (w2 := h2 / _ + _) in *. set (w3 := h3 / _ + _) in *.
  assert (0 <= w0 < 2 ^ 32 /\ 0 <= w1 < 2 ^ 32 /\ 0 <= w2 < 2 ^ 32 /\ 0 <= w3 < 2 ^ 32) as (W0 & W1 & W2 & W3) by lia.
  assert (w0 + w1 * 2 ^ 32 + w2 * 2 ^ 64 + w3 * 2 ^ 96 + 2 ^ 128 * (h4 / 2 ^ 24) = h0 + h1 * 2 ^ 26 + h2 * 2 ^ 52 + h3 * 2 ^ 78 + h4 * 2 ^ 104) as Hw.
  { unfold w0, w1, w2, w3. pose proof (Z.div_mod h1 (2 ^ 6)). pose proof (Z.div_mod h2 (2 ^ 12)). pose proof (Z.div_mod h3 (2 ^ 18)).
    pose proof (Z.div_mod h4 (2 ^ 24)). lia. }
  clearbody w0 w1 w2 w3. rewrite <- Hw. unfold add64.
  assert (forall x, 0 <= x < 2 ^ 34 -> 0 <= x / 2 ^ 32 <= 3) as D by (intros; Z.div_mod_to_equations; lia).
  rewrite (u64_small (w0 + p0)) by lia. set (f0 := w0 + p0). pose proof (D f0 ltac:(lia)).
  rewrite (u64_small (w1 + p1)), (u64_small (w1 + p1 + _)) by lia. set (f1 := w1 + p1 + _) in *. pose proof (D f1 ltac:(lia)).
  rewrite (u64_small (w2 + p2)), (u64_small (w2 + p2 + _)) by lia. set (f2 := w2 + p2 + _) in *. pose proof (D f2 ltac:(lia)).
  rewrite (u64_small (w3 + p3)), (u64_small (w3 + p3 + _)) by lia. set (f3 := w3 + p3 + _) in *. clear D.
  rewrite !U32TO8_le, le_bytes_words. set (X := _ + 2 ^ 128 * _ + _).
  assert (X = f0 mod 2 ^ 32 + 2 ^ 32 * (f1 mod 2 ^ 32) + 2 ^ 64 * (f2 mod 2 ^ 32) + 2 ^ 96 * (f3 + 2 ^ 32 * (h4 / 2 ^ 24))) as EX.
  { unfold X. pose proof (Z.div_mod f0 (2 ^ 32)). pose proof (Z.div_mod f1 (2 ^ 32)). pose proof (Z.div_mod f2 (2 ^ 32)). lia. }
  clearbody X. pose proof (Z.mod_pos_bound f0 (2 ^ 32)). pose proof (Z.mod_pos_bound f1 (2 ^ 32)). pose proof (Z.mod_pos_bound f2 (2 ^ 32)).
  assert (forall v w, v mod 2 ^ 32 = w mod 2 ^ 32 -> le_bytes 4 v = le_bytes 4 w) as L.
  { intros v w E. rewrite <- (le_bytes_mod 4 v 32), E by lia. by apply le_bytes_mod. }
  unfold u32, wrap. f_equal; [|f_equal; [|f_equal]]; apply L; rewrite Z.mod_mod by lia; subst X.
  - symmetry. rewrite <- (Z.mod_small (f0 mod 2 ^ 32) (2 ^ 32)) at 2 by lia. 
    rewrite <- (Z.mod_add (f0 mod 2 ^ 32) (f1 mod 2 ^ 32 + 2 ^ 32 * (f2 mod 2 ^ 32) + 2 ^ 64 * (f3 + 2 ^ 32 * (h4 / 2 ^ 24)))) by lia.
    f_equal. ring.
  - symmetry. transitivity ((f1 mod 2 ^ 32 + 2 ^ 32 * (f2 mod 2 ^ 32 + 2 ^ 32 * (f3 + 2 ^ 32 * (h4 / 2 ^ 24)))) mod 2 ^ 32).
    + f_equal. symmetry. apply Z.div_unique with (f0 mod 2 ^ 32); [lia|ring].
    + rewrite Z.mul_comm, Z.mod_add by lia. by rewrite Z.mod_mod.
  - symmetry. transitivity ((f2 mod 2 ^ 32 + 2 ^ 32 * (f3 + 2 ^ 32 * (h4 / 2 ^ 24))) mod 2 ^ 32).
    + f_equal. symmetry. apply Z.div_unique with (f0 mod 2 ^ 32 + 2 ^ 32 * (f1 mod 2 ^ 32)); [lia|ring].
    + rewrite Z.mul_comm, Z.mod_add by lia. by rewrite Z.mod_mod.
  - symmetry. transitivity ((f3 + 2 ^ 32 * (h4 / 2 ^ 24)) mod 2 ^ 32).
    + f_equal. symmetry. apply Z.div_unique with (f0 mod 2 ^ 32 + 2 ^ 32 * (f1 mod 2 ^ 32) + 2 ^ 64 * (f2 mod 2 ^ 32)); [lia|ring].
    + by rewrite Z.mul_comm, Z.mod_add by lia.
Qed.

Lemma finish_spec st key msg : rep st key msg -> exists st', poly1305_finish st = Ok (poly1305 key msg, st').
Proof.
  intros Hrep. destruct (finish_block_spec st key msg Hrep) as (st' & E & (Hr & Hv & P0 & P1 & P2 & P3 & Hp) & Hh & Ha).
  unfold poly1305_finish. rewrite E. cbn [mbind outcome_bind]. exists (zeroed st'). do 2 f_equal.
  destruct (full_carry_spec _ Hh) as (Hc & k & Ek). destruct (select_spec _ Hc) as [Hs Es].
  rewrite emit_spec by done. unfold poly1305. f_equal. fold (pads_value st'). rewrite Hp, Es, Ek. f_equal.
  replace (value (h st') - k * p1305) with (value (h st') + (- k) * p1305) by ring. by rewrite Z.mod_add by done.
Qed.

Lemma updates_spec key ms : forall st msg, rep st key msg -> Forall bytes_ok ms ->
  exists st', updates st ms = Ok st' /\ rep st' key (msg ++ concat ms).
Proof.
  induction ms as [|m ms IH]; intros st msg Hr Hms; [exists st; cbn; by rewrite app_nil_r|].
  apply list.Forall_cons in Hms as [Hm Hms]. cbn [updates concat]. destruct (update_spec st key msg m Hr Hm) as (st1 & -> & Hr1).
  cbn [mbind outcome_bind]. rewrite app_assoc. by apply IH.
Qed.

Lemma compute_spec buf key m :
  bytes_ok key -> length key = 32%nat -> length buf = 16%nat -> bytes_ok m -> compute buf m key = Ok (poly1305 key m).
Proof.
  intros Hk Hl Hb Hm. unfold compute. destruct (update_spec (poly1305_init buf key) key [] m) as (st & -> & Hr); [|done|].
  - exists [], []. split; [done|]. split; [cbn; lia|]. by apply init_rep.
  - cbn [mbind outcome_bind]. by destruct (finish_spec _ _ _ Hr) as [st' ->].
Qed.

(** C16. The limb arithmetic of the portable branch computes Poly1305: for any key of 32 bytes, however the message is
    cut into calls of [poly1305_update] and whatever the scratch buffer held, the tag is the evaluation of
    the message's 16-byte blocks at the clamped key modulo [2 ^ 130 - 5], plus the second half of the
    key, modulo [2 ^ 128]. No sum or product of 32 or 64 bits overflows on the way. *)
Theorem poly1305_correct buf key ms :
  bytes_ok key -> length key = 32%nat -> length buf = 16%nat -> Forall bytes_ok ms ->
  (st ← updates (poly1305_init buf key) ms; '(mac, _) ← poly1305_finish st; Ok mac) = Ok (poly1305 key (concat ms)) /\
  forall m, bytes_ok m -> compute buf m key = Ok (poly1305 key m).
Proof.
  intros Hk Hl Hb Hms. assert (rep (poly1305_init buf key) key []) as Hi.
  { exists [], []. split; [done|]. split; [cbn; lia|]. by apply init_rep. }
  split; [|intros; by apply compute_spec].
  destruct (updates_spec key ms _ [] Hi Hms) as (st & -> & Hr). cbn [mbind outcome_bind]. by destruct (finish_spec _ _ _ Hr) as [st' ->].
Qed.

Lemma poly1305_correct_witness :
  (st ← updates (poly1305_init (replicate 16 7) rfc_key) [take 3 rfc_message; drop 3 rfc_message]; '(mac, _) ← poly1305_finish st; Ok mac) =
    Ok (poly1305 rfc_key rfc_message) /\
  poly1305 rfc_key rfc_message = be_bytes 16 0xa8061dc1305136c6c22b8baf0c0127a9.
Proof.
  split; [|vm_compute; reflexivity].
  destruct (poly1305_correct (replicate 16 7) rfc_key [take 3 rfc_message; drop 3 rfc_message]) as [H _];
    [by_compute|reflexivity|reflexivity|by_compute|].
  exact H.
Defined.
