(* ===== verification/Packet.v ===== *)
(** * Packets (node/Packet.hpp, node/Packet.cpp)

    A packet is a [Buffer] of ZT_PROTO_MAX_PACKET_LENGTH bytes with a header: IV or packet ID (8 bytes), destination
    and source (5 each), flags, cipher suite and hops in one byte, MAC (8), verb (1). A fragment has the first 13
    bytes of its packet, an indicator, its number and the total, and hops.

    [armor] and [dearmor] are modelled down to Salsa20 and Poly1305, which are concrete; the AES modes, the key
    agreement and LZ4 are the class [PacketCrypto]. Accesses through [unsafeData()] are reads and writes of the
    array, without the check against the size. *)

From S2P Require Import Prelude Buffer Address Salsa20 Poly1305.

(** What the packet code uses of AES.hpp, ECC.hpp and the embedded LZ4. *)
Class PacketCrypto := {
  (** keys, IV (8 bytes), additional data, plain text; the 16-byte opaque tag and the cipher text *)
  gmac_siv_encrypt : list Z * list Z -> list Z -> list Z -> list Z -> list Z * list Z;
  (** keys, tag, additional data, cipher text; the verdict and the plain text, which is written in either case *)
  gmac_siv_decrypt : list Z * list Z -> list Z -> list Z -> list Z -> bool * list Z;
  (** key, IV (12 bytes), initial counter, data *)
  aes_ctr : list Z -> list Z -> Z -> list Z -> list Z;
  (** private key, public key; 32 bytes *)
  ecc_agree : list Z -> list Z -> list Z;
  (** source and the room at the destination; empty when nothing was produced *)
  lz4_compress : list Z -> Z -> list Z;
  lz4_decompress : list Z -> Z -> list Z;
}.

Definition ZT_PROTO_MAX_HOPS : Z := 7.
Definition ZT_PROTO_CIPHER_SUITE__C25519_POLY1305_NONE : Z := 0.
Definition ZT_PROTO_CIPHER_SUITE__C25519_POLY1305_SALSA2012 : Z := 1.
Definition ZT_PROTO_CIPHER_SUITE__NO_CRYPTO_TRUSTED_PATH : Z := 2.
Definition ZT_PROTO_CIPHER_SUITE__AES_GMAC_SIV : Z := 3.
Definition ZT_PROTO_FLAG_EXTENDED_ARMOR : Z := 0x80.
Definition ZT_PROTO_FLAG_FRAGMENTED : Z := 0x40.
Definition ZT_PROTO_VERB_FLAG_COMPRESSED : Z := 0x80.
Definition ZT_PACKET_IDX_IV : Z := 0.
Definition ZT_PACKET_IDX_DEST : Z := 8.
Definition ZT_PACKET_IDX_SOURCE : Z := 13.
Definition ZT_PACKET_IDX_FLAGS : Z := 18.
Definition ZT_PACKET_IDX_MAC : Z := 19.
Definition ZT_PACKET_IDX_VERB : Z := 27.
Definition ZT_PACKET_IDX_PAYLOAD : Z := 28.
Definition ZT_PACKET_IDX_EXTENDED_ARMOR_START : Z := ZT_PACKET_IDX_MAC.
(** ZT_MAX_PACKET_FRAGMENTS * ZT_DEFAULT_PHYSMTU *)
Definition ZT_PROTO_MAX_PACKET_LENGTH : Z := 7 * 1432.
Definition ZT_PROTO_MIN_PACKET_LENGTH : Z := ZT_PACKET_IDX_PAYLOAD.
Definition ZT_PACKET_FRAGMENT_IDX_PACKET_ID : Z := 0.
Definition ZT_PACKET_FRAGMENT_IDX_DEST : Z := 8.
Definition ZT_PACKET_FRAGMENT_IDX_FRAGMENT_INDICATOR : Z := 13.
Definition ZT_PACKET_FRAGMENT_IDX_FRAGMENT_NO : Z := 14.
Definition ZT_PACKET_FRAGMENT_IDX_HOPS : Z := 15.
Definition ZT_PACKET_FRAGMENT_IDX_PAYLOAD : Z := 16.
Definition ZT_PACKET_FRAGMENT_INDICATOR : Z := Address.ZT_ADDRESS_RESERVED_PREFIX.
Definition ZT_PROTO_MIN_FRAGMENT_LENGTH : Z := ZT_PACKET_FRAGMENT_IDX_PAYLOAD.
Definition ZT_ECC_EPHEMERAL_PUBLIC_KEY_LEN : Z := 32.

(** [field(i, l)], written by its caller. *)
Definition write_field (b : Buffer) (i : Z) (bs : list Z) : outcome Buffer :=
  _ ← throw_if (_l b <? u32 (i + zlen bs)) OutOfBounds;
  m ← mem_write (_b b) i bs;
  Ok (mkBuffer m (_l b)).

(** Through [data = unsafeData()]. *)
Definition raw_read (b : Buffer) (i n : Z) : outcome (list Z) := mem_read (_b b) i n.
Definition raw_write (b : Buffer) (i : Z) (bs : list Z) : outcome Buffer :=
  m ← mem_write (_b b) i bs; Ok (mkBuffer m (_l b)).

Definition address_at (b : Buffer) (i : Z) : outcome Z :=
  bs ← field b i Address.ZT_ADDRESS_LENGTH; Address.setTo bs Address.ZT_ADDRESS_LENGTH.

(** ** class Packet: the header *)
Module Packet.

Definition VERB_NOP : Z := 0x00.
Definition VERB_HELLO : Z := 0x01.
Definition VERB_ERROR : Z := 0x02.
Definition VERB_OK : Z := 0x03.
Definition VERB_WHOIS : Z := 0x04.
Definition VERB_RENDEZVOUS : Z := 0x05.
Definition VERB_FRAME : Z := 0x06.
Definition VERB_EXT_FRAME : Z := 0x07.
Definition VERB_ECHO : Z := 0x08.
Definition VERB_MULTICAST_LIKE : Z := 0x09.
Definition VERB_NETWORK_CREDENTIALS : Z := 0x0a.
Definition VERB_NETWORK_CONFIG_REQUEST : Z := 0x0b.
Definition VERB_NETWORK_CONFIG : Z := 0x0c.
Definition VERB_MULTICAST_GATHER : Z := 0x0d.
Definition VERB_MULTICAST_FRAME : Z := 0x0e.
Definition VERB_PUSH_DIRECT_PATHS : Z := 0x10.
Definition VERB_ACK : Z := 0x12.
Definition VERB_QOS_MEASUREMENT : Z := 0x13.
Definition VERB_USER_MESSAGE : Z := 0x14.
Definition VERB_REMOTE_TRACE : Z := 0x15.
Definition VERB_PATH_NEGOTIATION_REQUEST : Z := 0x16.

Definition setDestination (b : Buffer) (dest : Z) : outcome Buffer := write_field b ZT_PACKET_IDX_DEST (Address.to_bytes dest).
Definition setSource (b : Buffer) (source : Z) : outcome Buffer := write_field b ZT_PACKET_IDX_SOURCE (Address.to_bytes source).
Definition destination (b : Buffer) : outcome Z := address_at b ZT_PACKET_IDX_DEST.
Definition source (b : Buffer) : outcome Z := address_at b ZT_PACKET_IDX_SOURCE.

Definition lengthValid (b : Buffer) : bool := ZT_PROTO_MIN_PACKET_LENGTH <=? size b.

Definition flag (b : Buffer) (f : Z) : outcome bool := c ← index b ZT_PACKET_IDX_FLAGS; Ok (negb (Z.land c f =? 0)).
Definition setFlag (b : Buffer) (f : Z) (on : bool) : outcome Buffer :=
  c ← index b ZT_PACKET_IDX_FLAGS; setIndex b ZT_PACKET_IDX_FLAGS (if on then Z.lor c f else Z.land c (u8 (Z.lnot f))).

Definition fragmented (b : Buffer) : outcome bool := flag b ZT_PROTO_FLAG_FRAGMENTED.
Definition setFragmented (b : Buffer) (f : bool) : outcome Buffer := setFlag b ZT_PROTO_FLAG_FRAGMENTED f.
Definition extendedArmor (b : Buffer) : outcome bool := flag b ZT_PROTO_FLAG_EXTENDED_ARMOR.
Definition setExtendedArmor (b : Buffer) (f : bool) : outcome Buffer := setFlag b ZT_PROTO_FLAG_EXTENDED_ARMOR f.

Definition compressed (b : Buffer) : outcome bool :=
  v ← index b ZT_PACKET_IDX_VERB; Ok (negb (Z.land v ZT_PROTO_VERB_FLAG_COMPRESSED =? 0)).

Definition hops (b : Buffer) : outcome Z := c ← index b ZT_PACKET_IDX_FLAGS; Ok (Z.land c 0x07).
Definition incrementHops (b : Buffer) : outcome Buffer :=
  c ← index b ZT_PACKET_IDX_FLAGS; setIndex b ZT_PACKET_IDX_FLAGS (Z.lor (Z.land c 0xf8) (Z.land (c + 1) 0x07)).

Definition cipher (b : Buffer) : outcome Z := c ← index b ZT_PACKET_IDX_FLAGS; Ok (Z.shiftr (Z.land c 0x38) 3).
Definition isEncrypted (b : Buffer) : outcome bool :=
  c ← cipher b; Ok ((c =? ZT_PROTO_CIPHER_SUITE__C25519_POLY1305_SALSA2012) || (c =? ZT_PROTO_CIPHER_SUITE__AES_GMAC_SIV)).
Definition setCipher (b : Buffer) (c : Z) : outcome Buffer :=
  o ← index b ZT_PACKET_IDX_FLAGS; setIndex b ZT_PACKET_IDX_FLAGS (Z.lor (Z.land o 0xc7) (u8 (Z.land (Z.shiftl c 3) 0x38))).

Definition trustedPathId (b : Buffer) : outcome Z := at_ 8 b ZT_PACKET_IDX_MAC.
Definition setTrusted (b : Buffer) (tpid : Z) : outcome Buffer :=
  b ← setCipher b ZT_PROTO_CIPHER_SUITE__NO_CRYPTO_TRUSTED_PATH; setAt 8 b ZT_PACKET_IDX_MAC tpid.
Definition packetId (b : Buffer) : outcome Z := at_ 8 b ZT_PACKET_IDX_IV.
Definition setVerb (b : Buffer) (v : Z) : outcome Buffer := setIndex b ZT_PACKET_IDX_VERB v.
Definition verb (b : Buffer) : outcome Z := v ← index b ZT_PACKET_IDX_VERB; Ok (Z.land v 0x1f).
Definition payloadLength (b : Buffer) : Z := if size b <? ZT_PROTO_MIN_PACKET_LENGTH then 0 else size b - ZT_PROTO_MIN_PACKET_LENGTH.
Definition payload (b : Buffer) : outcome (list Z) := field b ZT_PACKET_IDX_PAYLOAD (u32 (size b - ZT_PACKET_IDX_PAYLOAD)).

(** The constructors and [reset]: [mem] is the uninitialised array, [iv] what [getSecureRandom] delivers. *)
Definition newInitializationVector (b : Buffer) (iv : list Z) : outcome Buffer := write_field b ZT_PACKET_IDX_IV iv.

Definition header (b : Buffer) (iv : list Z) (dest source v : Z) : outcome Buffer :=
  b ← write_field b ZT_PACKET_IDX_IV iv;
  b ← setDestination b dest;
  b ← setSource b source;
  b ← setIndex b ZT_PACKET_IDX_FLAGS 0;
  setVerb b v.

Definition Packet (mem iv : list Z) (dest source v : Z) : outcome Buffer :=
  b ← Buffer_sized mem ZT_PROTO_MIN_PACKET_LENGTH; header b iv dest source v.
Definition Packet_copy (dst prototype : Buffer) (iv : list Z) (dest : Z) : outcome Buffer :=
  b ← assign dst prototype; b ← write_field b ZT_PACKET_IDX_IV iv; setDestination b dest.
Definition Packet_default (mem iv : list Z) : outcome Buffer :=
  b ← Buffer_sized mem ZT_PROTO_MIN_PACKET_LENGTH; b ← write_field b ZT_PACKET_IDX_IV iv; setIndex b ZT_PACKET_IDX_FLAGS 0.
Definition reset (b : Buffer) (iv : list Z) (dest source v : Z) : outcome Buffer :=
  b ← setSize b ZT_PROTO_MIN_PACKET_LENGTH; header b iv dest source v.
End Packet.

(** ** class Packet::Fragment *)
Module Fragment.

Definition init (b p : Buffer) (fragStart fragLen fragNo fragTotal : Z) : outcome Buffer :=
  _ ← throw_if (size p <? u32 (fragStart + fragLen)) OutOfBounds;
  b ← setSize b (u32 (fragLen + ZT_PROTO_MIN_FRAGMENT_LENGTH));
  id ← field p ZT_PACKET_IDX_IV 13;
  b ← write_field b ZT_PACKET_FRAGMENT_IDX_PACKET_ID id;
  b ← setIndex b ZT_PACKET_FRAGMENT_IDX_FRAGMENT_INDICATOR ZT_PACKET_FRAGMENT_INDICATOR;
  b ← setIndex b ZT_PACKET_FRAGMENT_IDX_FRAGMENT_NO (Z.lor (Z.shiftl (Z.land fragTotal 0xf) 4) (Z.land fragNo 0xf));
  b ← setIndex b ZT_PACKET_FRAGMENT_IDX_HOPS 0;
  bs ← field p fragStart fragLen;
  write_field b ZT_PACKET_FRAGMENT_IDX_PAYLOAD bs.

Definition destination (b : Buffer) : outcome Z := address_at b ZT_PACKET_FRAGMENT_IDX_DEST.
Definition lengthValid (b : Buffer) : bool := ZT_PACKET_FRAGMENT_IDX_PAYLOAD <=? size b.
Definition packetId (b : Buffer) : outcome Z := at_ 8 b ZT_PACKET_FRAGMENT_IDX_PACKET_ID.
Definition totalFragments (b : Buffer) : outcome Z := c ← index b ZT_PACKET_FRAGMENT_IDX_FRAGMENT_NO; Ok (Z.land (Z.shiftr c 4) 0xf).
Definition fragmentNumber (b : Buffer) : outcome Z := c ← index b ZT_PACKET_FRAGMENT_IDX_FRAGMENT_NO; Ok (Z.land c 0xf).
Definition hops (b : Buffer) : outcome Z := index b ZT_PACKET_FRAGMENT_IDX_HOPS.
Definition incrementHops (b : Buffer) : outcome Buffer :=
  c ← index b ZT_PACKET_FRAGMENT_IDX_HOPS; setIndex b ZT_PACKET_FRAGMENT_IDX_HOPS (Z.land (c + 1) ZT_PROTO_MAX_HOPS).
Definition payloadLength (b : Buffer) : Z :=
  if ZT_PACKET_FRAGMENT_IDX_PAYLOAD <? size b then size b - ZT_PACKET_FRAGMENT_IDX_PAYLOAD else 0.
Definition payload (b : Buffer) : outcome (list Z) :=
  field b ZT_PACKET_FRAGMENT_IDX_PAYLOAD (u32 (size b - ZT_PACKET_FRAGMENT_IDX_PAYLOAD)).
End Fragment.

(** ** Armor and compression

    [tmp] and [pbuf] are scratch arrays of [crypt12] and [Poly1305::compute], uninitialised. The branch for
    ZT_HAS_FAST_CRYPTO is for x86-64. *)
Module Armor.
Import Packet.

Definition ZERO_KEY : list Z := replicate 32 0.

(** [_salsa20MangleKey] *)
Definition salsa20MangleKey (b : Buffer) (key : list Z) : outcome (list Z) :=
  d ← raw_read b 0 18;
  fl ← raw_read b ZT_PACKET_IDX_FLAGS 1;
  k ← mem_read key 0 32;
  Ok (zip_with Z.lxor (take 18 k) d ++
      [Z.lxor (nth 18 k 0) (Z.land (be_int fl) 0xf8); Z.lxor (nth 19 k 0) (u8 (Z.land (size b) 0xff));
       Z.lxor (nth 20 k 0) (u8 (Z.land (Z.shiftr (size b) 8) 0xff))] ++ drop 21 k).

(** [Utils::secureEq] *)
Definition secureEq (a b : list Z) : bool := fold_left Z.lor (zip_with Z.lxor a b) 0 =? 0.

Section Armor.
Context `{PacketCrypto} (tmp pbuf : list Z).

(** The Salsa20 state for a packet. *)
Definition packet_cipher (b : Buffer) (key : list Z) : outcome Salsa20 :=
  mangledKey ← salsa20MangleKey b key; iv ← raw_read b ZT_PACKET_IDX_IV 8; Ok (Salsa20.init mangledKey iv).

Definition armor_aes (b : Buffer) (aesKeys : list Z * list Z) : outcome Buffer :=
  b ← setCipher b ZT_PROTO_CIPHER_SUITE__AES_GMAC_SIV;
  iv ← raw_read b ZT_PACKET_IDX_IV 8;
  aad ← raw_read b ZT_PACKET_IDX_DEST 11;
  payload ← raw_read b ZT_PACKET_IDX_VERB (u32 (size b - ZT_PACKET_IDX_VERB));
  let '(tag, c) := gmac_siv_encrypt aesKeys iv aad payload in
  b ← raw_write b ZT_PACKET_IDX_VERB c;
  b ← raw_write b ZT_PACKET_IDX_IV (take 8 tag);
  raw_write b ZT_PACKET_IDX_MAC (drop 8 tag).

Definition armor_salsa (b : Buffer) (key : list Z) (encryptPayload : bool) : outcome Buffer :=
  b ← setCipher b (if encryptPayload then ZT_PROTO_CIPHER_SUITE__C25519_POLY1305_SALSA2012 else ZT_PROTO_CIPHER_SUITE__C25519_POLY1305_NONE);
  s20 ← packet_cipher b key;
  '(s20, macKey) ← crypt12 tmp s20 ZERO_KEY;
  payload ← raw_read b ZT_PACKET_IDX_VERB (u32 (size b - ZT_PACKET_IDX_VERB));
  payload ← (if encryptPayload then '(_, c) ← crypt12 tmp s20 payload; Ok c else Ok payload);
  b ← raw_write b ZT_PACKET_IDX_VERB payload;
  mac ← Poly1305.compute pbuf payload macKey;
  raw_write b ZT_PACKET_IDX_MAC (take 8 mac).

(** The second layer; [eph] is the key pair [ECC::generate] delivers: private, public. *)
Definition armor_extended (b : Buffer) (eph : list Z * list Z) (identity : list Z) : outcome Buffer :=
  iv ← raw_read b 0 12;
  d ← raw_read b ZT_PACKET_IDX_EXTENDED_ARMOR_START (u32 (size b - ZT_PACKET_IDX_EXTENDED_ARMOR_START));
  b ← raw_write b ZT_PACKET_IDX_EXTENDED_ARMOR_START (aes_ctr (ecc_agree eph.1 identity) iv 0 d);
  append b eph.2.

Definition armor_suite (b : Buffer) (key : list Z) (encryptPayload : bool) (aesKeys : option (list Z * list Z)) : outcome Buffer :=
  match aesKeys, encryptPayload with
  | Some k, true => armor_aes b k
  | _, _ => armor_salsa b key encryptPayload
  end.

(** [identity] is the public key of the recipient. *)
Definition armor (b : Buffer) (key : list Z) (encryptPayload ext : bool) (aesKeys : option (list Z * list Z)) (eph : list Z * list Z)
    (identity : list Z) : outcome Buffer :=
  b ← setExtendedArmor b ext;
  b ← armor_suite b key encryptPayload aesKeys;
  if ext then armor_extended b eph identity else Ok b.

Definition dearmor_extended (b : Buffer) (identity : list Z) : outcome (Buffer * bool) :=
  if size b <? ZT_PACKET_IDX_VERB + 1 + ZT_ECC_EPHEMERAL_PUBLIC_KEY_LEN then Ok (b, false)
  else
    ephemeralKey ← raw_read b (size b - ZT_ECC_EPHEMERAL_PUBLIC_KEY_LEN) ZT_ECC_EPHEMERAL_PUBLIC_KEY_LEN;
    iv ← raw_read b 0 12;
    d ← raw_read b ZT_PACKET_IDX_EXTENDED_ARMOR_START (size b - ZT_PACKET_IDX_EXTENDED_ARMOR_START - ZT_ECC_EPHEMERAL_PUBLIC_KEY_LEN);
    b ← raw_write b ZT_PACKET_IDX_EXTENDED_ARMOR_START (aes_ctr (ecc_agree identity ephemeralKey) iv 0 d);
    b ← setSize b (size b - ZT_ECC_EPHEMERAL_PUBLIC_KEY_LEN);
    Ok (b, true).

Definition dearmor_aes (b : Buffer) (aesKeys : list Z * list Z) : outcome (Buffer * bool) :=
  t0 ← raw_read b ZT_PACKET_IDX_IV 8;
  t1 ← raw_read b ZT_PACKET_IDX_MAC 8;
  addrs ← raw_read b ZT_PACKET_IDX_DEST 10;
  fl ← raw_read b ZT_PACKET_IDX_FLAGS 1;
  c ← raw_read b ZT_PACKET_IDX_VERB (u32 (size b - ZT_PACKET_IDX_VERB));
  let '(ok, p) := gmac_siv_decrypt aesKeys (t0 ++ t1) (addrs ++ [Z.land (be_int fl) 0xf8]) c in
  b ← raw_write b ZT_PACKET_IDX_VERB p;
  Ok (b, ok).

Definition dearmor_salsa (b : Buffer) (key : list Z) (encrypted : bool) : outcome (Buffer * bool) :=
  s20 ← packet_cipher b key;
  '(s20, macKey) ← crypt12 tmp s20 ZERO_KEY;
  payload ← raw_read b ZT_PACKET_IDX_VERB (u32 (size b - ZT_PACKET_IDX_VERB));
  mac ← Poly1305.compute pbuf payload macKey;
  m ← raw_read b ZT_PACKET_IDX_MAC 8;
  if negb (secureEq (take 8 mac) m) then Ok (b, false)
  else if encrypted then '(_, p) ← crypt12 tmp s20 payload; b ← raw_write b ZT_PACKET_IDX_VERB p; Ok (b, true)
  else Ok (b, true).

Definition dearmor_suite (b : Buffer) (key : list Z) (aesKeys : option (list Z * list Z)) (cs : Z) : outcome (Buffer * bool) :=
  if cs =? ZT_PROTO_CIPHER_SUITE__AES_GMAC_SIV then match aesKeys with Some k => dearmor_aes b k | None => Ok (b, false) end
  else if (cs =? ZT_PROTO_CIPHER_SUITE__C25519_POLY1305_NONE) || (cs =? ZT_PROTO_CIPHER_SUITE__C25519_POLY1305_SALSA2012) then
    dearmor_salsa b key (cs =? ZT_PROTO_CIPHER_SUITE__C25519_POLY1305_SALSA2012)
  else Ok (b, false).

(** [identity] is the recipient's private key. *)
Definition dearmor (b : Buffer) (key : list Z) (aesKeys : option (list Z * list Z)) (identity : list Z) : outcome (Buffer * bool) :=
  cs ← cipher b;
  ea ← extendedArmor b;
  '(b, go) ← (if ea && (cs =? ZT_PROTO_CIPHER_SUITE__C25519_POLY1305_NONE) then dearmor_extended b identity else Ok (b, true));
  if negb go then Ok (b, false) else dearmor_suite b key aesKeys cs.

Definition cryptField (b : Buffer) (key : list Z) (start len : Z) : outcome Buffer :=
  d ← raw_read b 0 8;
  let iv := take 7 d ++ [Z.land (nth 7 d 0) 0xf8] in
  m ← raw_read b start len;
  '(_, c) ← crypt12 tmp (Salsa20.init key iv) m;
  raw_write b start c.

(** [data[ZT_PACKET_IDX_VERB] |= f] and [&= ~f] *)
Definition raw_verb_flag (b : Buffer) (on : bool) : outcome Buffer :=
  v ← raw_read b ZT_PACKET_IDX_VERB 1;
  raw_write b ZT_PACKET_IDX_VERB
    [if on then Z.lor (be_int v) ZT_PROTO_VERB_FLAG_COMPRESSED else Z.land (be_int v) (u8 (Z.lnot ZT_PROTO_VERB_FLAG_COMPRESSED))].

Definition compress (b : Buffer) : outcome (Buffer * bool) :=
  c ← compressed b;
  if negb c && (ZT_PACKET_IDX_PAYLOAD + 64 <? size b) then
    src ← raw_read b ZT_PACKET_IDX_PAYLOAD (size b - ZT_PACKET_IDX_PAYLOAD);
    let buf := lz4_compress src (ZT_PROTO_MAX_PACKET_LENGTH * 2) in
    if (0 <? zlen buf) && (zlen buf <? size b - ZT_PACKET_IDX_PAYLOAD) then
      b ← raw_verb_flag b true;
      b ← setSize b (zlen buf + ZT_PACKET_IDX_PAYLOAD);
      b ← raw_write b ZT_PACKET_IDX_PAYLOAD buf;
      Ok (b, true)
    else b ← raw_verb_flag b false; Ok (b, false)
  else b ← raw_verb_flag b false; Ok (b, false).

Definition uncompress (b : Buffer) : outcome (Buffer * bool) :=
  c ← compressed b;
  if c && (ZT_PROTO_MIN_PACKET_LENGTH <=? size b) then
    if ZT_PACKET_IDX_PAYLOAD <? size b then
      src ← raw_read b ZT_PACKET_IDX_PAYLOAD (size b - ZT_PACKET_IDX_PAYLOAD);
      let buf := lz4_decompress src ZT_PROTO_MAX_PACKET_LENGTH in
      if (0 <? zlen buf) && (zlen buf <=? capacity b - ZT_PACKET_IDX_PAYLOAD) then
        b ← setSize b (zlen buf + ZT_PACKET_IDX_PAYLOAD);
        b ← raw_write b ZT_PACKET_IDX_PAYLOAD buf;
        b ← raw_verb_flag b false;
        Ok (b, true)
      else Ok (b, false)
    else b ← raw_verb_flag b false; Ok (b, true)
  else Ok (b, true).
End Armor.
End Armor.

(** ** The form of a packet *)

(** Header fields before the flags, flags, MAC, everything from the verb on, and the array behind the data. *)
Definition form (hdr : list Z) (fl : Z) (mac body tail : list Z) : Buffer :=
  mkBuffer (hdr ++ [fl] ++ mac ++ body ++ tail) (27 + zlen body).

Definition form_ok (hdr : list Z) (fl : Z) (mac body tail : list Z) : Prop :=
  bytes_ok hdr /\ length hdr = 18%nat /\ byte_ok fl /\ bytes_ok mac /\ length mac = 8%nat /\ bytes_ok body /\ bytes_ok tail /\
  27 + zlen body + zlen tail < 2 ^ 31.

Lemma packet_form b : buf_ok b -> 27 <= _l b ->
  exists hdr fl mac body tail, b = form hdr fl mac body tail /\ form_ok hdr fl mac body tail.
Proof.
  intros [Hs Hc Hb] Hl. destruct b as [m l]. unfold capacity in *. cbn in *.
  exists (take 18 m), (nth 18 m 0), (take 8 (drop 19 m)), (take (Z.to_nat (l - 27)) (drop 27 m)), (drop (Z.to_nat l) m).
  assert (27 <= length m)%nat as Hlm by (unfold zlen in *; lia).
  assert (zlen (take (Z.to_nat (l - 27)) (drop 27 m)) = l - 27) as Hbody.
  { apply zlen_take. unfold zlen in *. rewrite length_drop. lia. }
  split.
  - unfold form. rewrite Hbody. f_equal; [|lia].
    rewrite <- (take_drop 18 m) at 1. f_equal. rewrite <- (take_drop 1 (drop 18 m)). f_equal.
    { destruct (nth_lookup_or_length m 18 0) as [E|E]; [|lia]. rewrite (drop_S m (nth 18 m 0)) by done. done. }
    rewrite drop_drop. change (18 + 1)%nat with 19%nat. rewrite <- (take_drop 8 (drop 19 m)) at 1. f_equal.
    rewrite drop_drop. change (19 + 8)%nat with 27%nat. rewrite <- (take_drop (Z.to_nat (l - 27)) (drop 27 m)) at 1. f_equal.
    rewrite drop_drop. f_equal. lia.
  - split_and!; try (by apply list.Forall_take || by apply list.Forall_drop).
    + rewrite length_take. lia.
    + destruct (nth_lookup_or_length m 18 0) as [E|E]; [by eapply bytes_ok_lookup|lia].
    + by apply list.Forall_take, list.Forall_drop.
    + rewrite length_take, length_drop. lia.
    + by apply list.Forall_take, list.Forall_drop.
    + rewrite Hbody. unfold zlen in *. rewrite length_drop. lia.
Qed.

(** Arithmetic over the header's indices. *)
Ltac idx :=
  unfold ZT_PACKET_IDX_IV, ZT_PACKET_IDX_DEST, ZT_PACKET_IDX_FLAGS, ZT_PACKET_IDX_EXTENDED_ARMOR_START, ZT_PACKET_IDX_MAC, ZT_PACKET_IDX_VERB in *;
  autorewrite with zlen; lia.

Section form.
Context hdr fl mac body tail (Hok : form_ok hdr fl mac body tail).

Lemma form_zlens : zlen hdr = 18 /\ zlen mac = 8 /\ 0 <= zlen body /\ 0 <= zlen tail /\ 27 + zlen body + zlen tail < 2 ^ 31.
Proof. destruct Hok as (_ & H1 & _ & _ & H2 & _ & _ & H3). pose proof (zlen_nonneg body). pose proof (zlen_nonneg tail). unfold zlen in *. lia. Qed.

Lemma form_cap : capacity (form hdr fl mac body tail) = 27 + zlen body + zlen tail.
Proof. pose proof form_zlens. unfold capacity, form. cbn. autorewrite with zlen. lia. Qed.

Lemma form_buf_ok : buf_ok (form hdr fl mac body tail).
Proof.
  pose proof form_zlens. pose proof form_cap. destruct Hok as (Hh & _ & Hf & Hm & _ & Hb & Ht & _). split.
  - cbn [_l form]. lia.
  - lia.
  - cbn [_b form]. rewrite !bytes_ok_app. split_and!; try done. by apply list.Forall_singleton.
Qed.

Lemma form_read i n bs pre post : _b (form hdr fl mac body tail) = pre ++ bs ++ post -> zlen pre = i -> zlen bs = n ->
  raw_read (form hdr fl mac body tail) i n = Ok bs.
Proof. intros H <- <-. unfold raw_read. rewrite H. apply mem_read_app. Qed.

Lemma form_write i bs old pre post : _b (form hdr fl mac body tail) = pre ++ old ++ post -> zlen pre = i -> length bs = length old ->
  raw_write (form hdr fl mac body tail) i bs = Ok (mkBuffer (pre ++ bs ++ post) (27 + zlen body)).
Proof.
  intros H <- Hl. unfold raw_write. rewrite H, mem_write_split by (rewrite length_app; lia). cbn [mbind outcome_bind].
  by rewrite drop_app_length' by done.
Qed.

Lemma form_flags : index (form hdr fl mac body tail) ZT_PACKET_IDX_FLAGS = Ok fl.
Proof.
  pose proof form_zlens. unfold index. rewrite bind_throw_if_false by (apply Z.leb_gt; cbn [_l form]; unfold ZT_PACKET_IDX_FLAGS; lia).
  change (mem_read (_b (form hdr fl mac body tail)) ZT_PACKET_IDX_FLAGS 1) with (raw_read (form hdr fl mac body tail) ZT_PACKET_IDX_FLAGS 1).
  rewrite (form_read _ _ [fl] hdr (mac ++ body ++ tail)); [done|done|idx|done].
Qed.

Lemma form_set_flags v : setIndex (form hdr fl mac body tail) ZT_PACKET_IDX_FLAGS v = Ok (form hdr (u8 v) mac body tail).
Proof.
  pose proof form_zlens. unfold setIndex. rewrite bind_throw_if_false by (apply Z.leb_gt; cbn [_l form]; unfold ZT_PACKET_IDX_FLAGS; lia).
  pose proof (form_write 18 [u8 v] [fl] hdr (mac ++ body ++ tail) eq_refl ltac:(lia) eq_refl) as E. exact E.
Qed.

Lemma form_hdr i n : (i + n <= 18)%nat -> raw_read (form hdr fl mac body tail) (Z.of_nat i) (Z.of_nat n) = Ok (take n (drop i hdr)).
Proof.
  destruct Hok as (_ & Hl & _). intros. apply form_read with (pre := take i hdr) (post := drop n (drop i hdr) ++ [fl] ++ mac ++ body ++ tail).
  - cbn [_b form]. rewrite (app_assoc (take n (drop i hdr))), take_drop, (app_assoc (take i hdr)), take_drop. done.
  - unfold zlen. rewrite length_take. lia.
  - unfold zlen. rewrite length_take, length_drop. lia.
Qed.

Lemma form_fl : raw_read (form hdr fl mac body tail) ZT_PACKET_IDX_FLAGS 1 = Ok [fl].
Proof. pose proof form_zlens. apply form_read with (pre := hdr) (post := mac ++ body ++ tail); [done|idx|done]. Qed.

Lemma form_aad : raw_read (form hdr fl mac body tail) ZT_PACKET_IDX_DEST 11 = Ok (drop 8 hdr ++ [fl]).
Proof.
  destruct Hok as (_ & Hl & _). apply form_read with (pre := take 8 hdr) (post := mac ++ body ++ tail).
  - cbn [_b form]. rewrite <- app_assoc, (app_assoc (take 8 hdr)), take_drop. done.
  - unfold zlen. by rewrite length_take, Hl.
  - unfold zlen. by rewrite length_app, length_drop, Hl.
Qed.

Lemma form_mac : raw_read (form hdr fl mac body tail) ZT_PACKET_IDX_MAC 8 = Ok mac.
Proof.
  pose proof form_zlens. apply form_read with (pre := hdr ++ [fl]) (post := body ++ tail); [cbn; by rewrite <- app_assoc| |lia].
  rewrite zlen_app. change (zlen [fl]) with 1. unfold ZT_PACKET_IDX_MAC. lia.
Qed.

Lemma form_set_mac m : length m = 8%nat -> raw_write (form hdr fl mac body tail) ZT_PACKET_IDX_MAC m = Ok (form hdr fl m body tail).
Proof.
  intros Hm. destruct Hok as (_ & Hl & _ & _ & Hlm & _).
  rewrite (form_write _ m mac (hdr ++ [fl]) (body ++ tail)); [|cbn; by rewrite <- app_assoc| |lia].
  - unfold form. by rewrite <- app_assoc.
  - unfold zlen. rewrite length_app, Hl. done.
Qed.

Lemma form_size : u32 (size (form hdr fl mac body tail) - ZT_PACKET_IDX_VERB) = zlen body.
Proof. pose proof form_zlens. unfold size, ZT_PACKET_IDX_VERB. cbn [_l form]. rewrite u32_small; lia. Qed.

Lemma form_body : raw_read (form hdr fl mac body tail) ZT_PACKET_IDX_VERB (u32 (size (form hdr fl mac body tail) - ZT_PACKET_IDX_VERB)) = Ok body.
Proof.
  pose proof form_zlens. rewrite form_size. apply form_read with (pre := hdr ++ [fl] ++ mac) (post := tail); [|idx|done].
  cbn. by rewrite <- !app_assoc.
Qed.

Lemma form_set_body bs : length bs = length body -> raw_write (form hdr fl mac body tail) ZT_PACKET_IDX_VERB bs = Ok (form hdr fl mac bs tail).
Proof.
  intros Hl. pose proof form_zlens. rewrite (form_write _ bs body (hdr ++ [fl] ++ mac) tail).
  - unfold form, zlen. rewrite Hl. by rewrite <- !app_assoc.
  - cbn. by rewrite <- !app_assoc.
  - idx.
  - done.
Qed.

Lemma form_set_iv iv : length iv = 8%nat -> raw_write (form hdr fl mac body tail) ZT_PACKET_IDX_IV iv = Ok (form (iv ++ drop 8 hdr) fl mac body tail).
Proof.
  intros Hl. destruct Hok as (_ & Hh & _). rewrite (form_write _ iv (take 8 hdr) [] (drop 8 hdr ++ [fl] ++ mac ++ body ++ tail)).
  - unfold form. by rewrite <- app_assoc.
  - cbn [app _b form]. by rewrite (app_assoc (take 8 hdr)), take_drop.
  - done.
  - rewrite length_take. lia.
Qed.
End form.

(** ** The flags byte *)

Lemma byte_cases (P : Z -> bool) : forallb P (seqZ 0 256) = true -> forall x, byte_ok x -> P x = true.
Proof.
  intros H x Hx. rewrite forallb_forall in H. apply H, list_elem_of_In, elem_of_seqZ. unfold byte_ok in Hx. lia.
Qed.

(** [by_bytes H]: a boolean fact about a byte, by trying all of them. *)
Ltac by_bytes x P := apply (byte_cases (fun x => P)); [vm_compute; reflexivity|done].

Definition cipher_of (fl : Z) : Z := Z.shiftr (Z.land fl 0x38) 3.
Definition with_cipher (fl c : Z) : Z := u8 (Z.lor (Z.land fl 0xc7) (u8 (Z.land (Z.shiftl c 3) 0x38))).
Definition with_ext (fl : Z) (ext : bool) : Z := u8 (if ext then Z.lor fl 0x80 else Z.land fl (u8 (Z.lnot 0x80))).
Definition hop (fl : Z) : Z := u8 (Z.lor (Z.land fl 0xf8) (Z.land (fl + 1) 7)).
(** Everything but the hops. *)
Definition immutable (fl : Z) : Z := Z.land fl 0xf8.

Lemma hop_ok fl : byte_ok fl -> immutable (hop fl) = immutable fl.
Proof. intros H. apply Z.eqb_eq. revert fl H. apply (byte_cases (fun fl => immutable (hop fl) =? immutable fl)). vm_compute. reflexivity. Qed.

Lemma cipher_immutable fl fl' : immutable fl = immutable fl' -> cipher_of fl = cipher_of fl'.
Proof.
  unfold immutable, cipher_of. intros E. assert (forall x, Z.land x 0x38 = Z.land (Z.land x 0xf8) 0x38) as A by (intros; by rewrite <- Z.land_assoc).
  by rewrite (A fl), (A fl'), E.
Qed.

Lemma ext_immutable fl fl' : immutable fl = immutable fl' -> Z.land fl 0x80 = Z.land fl' 0x80.
Proof.
  unfold immutable. intros E. assert (forall x, Z.land x 0x80 = Z.land (Z.land x 0xf8) 0x80) as A by (intros; by rewrite <- Z.land_assoc).
  by rewrite (A fl), (A fl'), E.
Qed.

Lemma with_cipher_ok fl c : 0 <= c < 4 -> byte_ok fl ->
  cipher_of (with_cipher fl c) = c /\ Z.land (with_cipher fl c) 0x80 = Z.land fl 0x80 /\ Z.land (with_cipher fl c) 7 = Z.land fl 7.
Proof.
  intros Hc H. assert (c = 0 \/ c = 1 \/ c = 2 \/ c = 3) as D by lia.
  assert (forall c, forallb (fun fl => (cipher_of (with_cipher fl c) =? c) && (Z.land (with_cipher fl c) 0x80 =? Z.land fl 0x80) &&
    (Z.land (with_cipher fl c) 7 =? Z.land fl 7)) (seqZ 0 256) = true ->
    cipher_of (with_cipher fl c) = c /\ Z.land (with_cipher fl c) 0x80 = Z.land fl 0x80 /\ Z.land (with_cipher fl c) 7 = Z.land fl 7) as L.
  { intros d Hd. apply (byte_cases _ Hd) in H. rewrite !andb_true_iff, !Z.eqb_eq in H. tauto. }
  destruct D as [-> | [-> | [-> | ->]]]; apply L; vm_compute; reflexivity.
Qed.

Lemma with_ext_ok fl ext : byte_ok fl ->
  negb (Z.land (with_ext fl ext) 0x80 =? 0) = ext /\ Z.land (with_ext fl ext) 7 = Z.land fl 7.
Proof.
  intros H.
  assert (forallb (fun fl => Bool.eqb (negb (Z.land (with_ext fl ext) 0x80 =? 0)) ext && (Z.land (with_ext fl ext) 7 =? Z.land fl 7)) (seqZ 0 256) = true) as D
    by (destruct ext; vm_compute; reflexivity).
  apply (byte_cases _ D) in H. rewrite andb_true_iff, eqb_true_iff, Z.eqb_eq in H. exact H.
Qed.

(** ** One-time keys and streams *)

Definition mangled (key hdr : list Z) (fl size : Z) : list Z :=
  zip_with Z.lxor (take 18 key) hdr ++
  [Z.lxor (nth 18 key 0) (immutable fl); Z.lxor (nth 19 key 0) (u8 (Z.land size 0xff)); Z.lxor (nth 20 key 0) (u8 (Z.land (Z.shiftr size 8) 0xff))] ++
  drop 21 key.
Definition cipher_state (key hdr : list Z) (fl size : Z) : Salsa20 := Salsa20.init (mangled key hdr fl size) (take 8 hdr).
Definition one_time_key (s : Salsa20) : list Z := memxor Armor.ZERO_KEY (keystream rounds12 s 0 1).
Definition stream (s : Salsa20) (m : list Z) : list Z := memxor m (keystream rounds12 s 1 (blocks m)).
(** The 8 bytes of a packet's MAC field. *)
Definition mac_of (s : Salsa20) (body : list Z) : list Z := take 8 (poly1305 (one_time_key s) body).

Definition scratch_ok (tmp pbuf : list Z) : Prop := tmp_ok tmp /\ length pbuf = 16%nat.
Definition key_ok (key : list Z) : Prop := bytes_ok key /\ length key = 32%nat.

Lemma counter_init k iv : counter_ok (init k iv) /\ counter (init k iv) = 0.
Proof. split; [split; by_compute|done]. Qed.

Lemma length_stream s m : length (stream s m) = length m.
Proof.
  apply length_memxor. rewrite length_keystream by (unfold blocks, zlen; Z.div_mod_to_equations; lia). apply blocks_enough.
Qed.

Lemma bytes_stream s m : bytes_ok m -> bytes_ok (stream s m).
Proof. intros. apply bytes_ok_memxor; [done|apply bytes_keystream]. Qed.

Lemma stream_invol s m : stream s (stream s m) = m.
Proof.
  unfold stream at 1. unfold blocks, zlen. rewrite length_stream. apply memxor_invol.
  rewrite length_keystream by (Z.div_mod_to_equations; lia). apply blocks_enough.
Qed.

Lemma zero_key_bytes : bytes_ok Armor.ZERO_KEY.
Proof. by_compute. Qed.

Lemma one_time_key_ok s : key_ok (one_time_key s).
Proof.
  split; [apply bytes_ok_memxor; [apply zero_key_bytes|apply bytes_keystream]|].
  apply length_memxor. rewrite length_keystream by lia. change (length Armor.ZERO_KEY) with 32%nat. lia.
Qed.

Lemma crypt_first tmp k hdr fl n (s := cipher_state k hdr fl n) : tmp_ok tmp ->
  crypt12 tmp s Armor.ZERO_KEY = Ok (at_counter s 1, one_time_key s).
Proof.
  intros Ht. destruct (counter_init (mangled k hdr fl n) (take 8 hdr)) as [Hc H0]. fold (cipher_state k hdr fl n) in Hc, H0.
  fold s in Hc, H0. unfold crypt12. rewrite (crypt_eq rounds12 tmp s _ Ht Hc zero_key_bytes). by rewrite H0.
Qed.

Lemma crypt_rest tmp s m : tmp_ok tmp -> bytes_ok m -> exists s', crypt12 tmp (at_counter s 1) m = Ok (s', stream s m).
Proof.
  intros. unfold crypt12. rewrite crypt_eq; [|done|apply counter_ok_at|done]. rewrite counter_at, keystream_at. by eexists.
Qed.

Lemma length_mac s body : length (mac_of s body) = 8%nat.
Proof. unfold mac_of, poly1305. by rewrite length_take, length_le_bytes. Qed.

Lemma bytes_mac s body : bytes_ok (mac_of s body).
Proof. apply list.Forall_take, bytes_ok_rev. auto with bytes. Qed.

Lemma secureEq_spec a : forall b, length a = length b -> Armor.secureEq a b = bool_decide (a = b).
Proof.
  unfold Armor.secureEq. intros b Hl. apply Bool.eq_iff_eq_true. rewrite Z.eqb_eq, bool_decide_eq_true.
  assert (forall l acc, fold_left Z.lor l acc = 0 <-> acc = 0 /\ Forall (fun x => x = 0) l) as F.
  { induction l as [|x l IH]; intros acc; cbn; [rewrite list.Forall_nil; tauto|].
    rewrite IH, list.Forall_cons, Z.lor_eq_0_iff. tauto. }
  rewrite F. revert b Hl. induction a as [|x a IH]; intros [|y b] Hl; cbn in *; try done; try by split.
  rewrite list.Forall_cons, Z.lxor_eq_0_iff. specialize (IH b ltac:(lia)). split.
  - intros (_ & -> & H). f_equal. by apply IH.
  - intros [= -> ->]. split; [done|]. split; [done|]. by apply IH.
Qed.

(** ** Armor on the form *)

Section header.
Context hdr fl mac body tail (Hok : form_ok hdr fl mac body tail).
Let b := form hdr fl mac body tail.

Lemma setCipher_form c : Packet.setCipher b c = Ok (form hdr (with_cipher fl c) mac body tail).
Proof. unfold Packet.setCipher, b. rewrite form_flags by done. cbn [mbind outcome_bind]. by rewrite form_set_flags. Qed.

Lemma setExtendedArmor_form ext : Packet.setExtendedArmor b ext = Ok (form hdr (with_ext fl ext) mac body tail).
Proof.
  unfold Packet.setExtendedArmor, Packet.setFlag, b. rewrite form_flags by done. cbn [mbind outcome_bind]. by rewrite form_set_flags.
Qed.

Lemma incrementHops_form : Packet.incrementHops b = Ok (form hdr (hop fl) mac body tail).
Proof. unfold Packet.incrementHops, b. rewrite form_flags by done. cbn [mbind outcome_bind]. by rewrite form_set_flags. Qed.

Lemma cipher_form : Packet.cipher b = Ok (cipher_of fl).
Proof. unfold Packet.cipher, b. by rewrite form_flags. Qed.

Lemma extendedArmor_form : Packet.extendedArmor b = Ok (negb (Z.land fl 0x80 =? 0)).
Proof. unfold Packet.extendedArmor, Packet.flag, b. by rewrite form_flags. Qed.

Lemma mangle_form key : key_ok key -> Armor.salsa20MangleKey b key = Ok (mangled key hdr fl (27 + zlen body)).
Proof.
  intros [Hk Hl]. unfold Armor.salsa20MangleKey, b. destruct Hok as (_ & Hlh & _).
  rewrite (form_hdr _ _ _ _ _ Hok 0 18 ltac:(lia) : raw_read _ 0 18 = _). cbn [mbind outcome_bind].
  rewrite form_fl by done. cbn [mbind outcome_bind].
  rewrite mem_read_Ok by (unfold zlen; lia). cbn [mbind outcome_bind]. change (Z.to_nat 0) with 0%nat. change (Z.to_nat 32) with 32%nat.
  rewrite drop_0, (take_ge key) by lia. rewrite drop_0, (take_ge hdr) by lia.
  unfold mangled, immutable. change (be_int [fl]) with fl. done.
Qed.

Lemma packet_cipher_form key : key_ok key -> Armor.packet_cipher b key = Ok (cipher_state key hdr fl (27 + zlen body)).
Proof.
  intros Hk. unfold Armor.packet_cipher. rewrite mangle_form by done. cbn [mbind outcome_bind]. unfold b.
  rewrite (form_hdr _ _ _ _ _ Hok 0 8 ltac:(lia) : raw_read _ ZT_PACKET_IDX_IV 8 = _). cbn [mbind outcome_bind]. by rewrite drop_0.
Qed.

Lemma form_ok_change fl' mac' body' : byte_ok fl' -> bytes_ok mac' -> length mac' = 8%nat -> bytes_ok body' -> length body' = length body ->
  form_ok hdr fl' mac' body' tail.
Proof. destruct Hok as (? & ? & ? & ? & ? & ? & ? & ?). intros ? ? ? ? E. split_and!; try done. unfold zlen in *. by rewrite E. Qed.

Lemma with_cipher_byte c : byte_ok (with_cipher fl c).
Proof. apply u8_ok. Qed.

End header.

(** The body on the wire. *)
Definition wire_body (s : Salsa20) (encrypt : bool) (body : list Z) : list Z := if encrypt then stream s body else body.

Lemma length_wire_body s e m : length (wire_body s e m) = length m.
Proof. destruct e; [apply length_stream|done]. Qed.
Lemma bytes_wire_body s e m : bytes_ok m -> bytes_ok (wire_body s e m).
Proof. destruct e; [apply bytes_stream|done]. Qed.

Section salsa.
Context (tmp pbuf : list Z) (Hs : scratch_ok tmp pbuf).

Lemma armor_salsa_form hdr fl mac body tail key (encrypt : bool) : form_ok hdr fl mac body tail -> key_ok key ->
  let fl' := with_cipher fl (if encrypt then 1 else 0) in
  let s := cipher_state key hdr fl' (27 + zlen body) in
  Armor.armor_salsa tmp pbuf (form hdr fl mac body tail) key encrypt =
    Ok (form hdr fl' (mac_of s (wire_body s encrypt body)) (wire_body s encrypt body) tail).
Proof.
  intros Hok Hk fl' s. unfold Armor.armor_salsa. destruct Hs as [Ht Hp]. pose proof Hok as (_ & _ & _ & Hm & Hlm & Hb & _).
  replace (Packet.setCipher (form hdr fl mac body tail) _) with (Ok (form hdr fl' mac body tail))
    by (symmetry; rewrite setCipher_form by done; by destruct encrypt).
  assert (form_ok hdr fl' mac body tail) as Hok' by (eapply form_ok_change; [exact Hok|apply u8_ok|done..]).
  cbn [mbind outcome_bind]. rewrite packet_cipher_form by done. cbn [mbind outcome_bind].
  rewrite crypt_first by done. cbn [mbind outcome_bind]. fold s.
  rewrite form_body by done. cbn [mbind outcome_bind].
  replace (if encrypt then _ else Ok body) with (Ok (wire_body s encrypt body)).
  2:{ destruct encrypt; [|done]. by destruct (crypt_rest tmp s body Ht Hb) as [s' ->]. }
  cbn [mbind outcome_bind]. rewrite form_set_body by (done || apply length_wire_body). cbn [mbind outcome_bind].
  destruct (one_time_key_ok s). rewrite compute_spec by (done || by apply bytes_wire_body). cbn [mbind outcome_bind].
  rewrite form_set_mac; [done| |apply length_mac].
  eapply form_ok_change; [exact Hok'|apply u8_ok|done|done|by apply bytes_wire_body|apply length_wire_body].
Qed.

Lemma dearmor_salsa_form hdr fl mac body tail key (encrypted : bool) : form_ok hdr fl mac body tail -> key_ok key ->
  let s := cipher_state key hdr fl (27 + zlen body) in
  Armor.dearmor_salsa tmp pbuf (form hdr fl mac body tail) key encrypted =
    Ok (if bool_decide (mac_of s body = mac) then (form hdr fl mac (wire_body s encrypted body) tail, true)
        else (form hdr fl mac body tail, false)).
Proof.
  intros Hok Hk s. unfold Armor.dearmor_salsa. destruct Hs as [Ht Hp]. pose proof Hok as (_ & _ & _ & Hm & Hlm & Hb & _).
  rewrite packet_cipher_form by done. cbn [mbind outcome_bind].
  rewrite crypt_first by done. cbn [mbind outcome_bind]. fold s.
  rewrite form_body by done. cbn [mbind outcome_bind].
  destruct (one_time_key_ok s). rewrite compute_spec by done. cbn [mbind outcome_bind]. fold (mac_of s body).
  rewrite form_mac by done. cbn [mbind outcome_bind]. rewrite secureEq_spec by (rewrite length_mac; lia).
  case_bool_decide; [|done]. cbn [negb]. destruct encrypted; [|done].
  destruct (crypt_rest tmp s body Ht Hb) as [s' ->]. cbn [mbind outcome_bind].
  by rewrite form_set_body by (done || apply length_stream).
Qed.
End salsa.

(** ** The second layer, AES and the round trip *)

(** What is documented of the AES modes: GMAC-SIV decrypts and accepts what it encrypted, CTR is its own inverse. *)
Class PacketCryptoLaws `{PacketCrypto} := {
  siv_law ks iv aad p : length iv = 8%nat -> bytes_ok p ->
    let e := gmac_siv_encrypt ks iv aad p in
    bytes_ok e.1 /\ length e.1 = 16%nat /\ bytes_ok e.2 /\ length e.2 = length p /\ gmac_siv_decrypt ks e.1 aad e.2 = (true, p);
  ctr_law k iv ic d : bytes_ok d ->
    bytes_ok (aes_ctr k iv ic d) /\ length (aes_ctr k iv ic d) = length d /\ aes_ctr k iv ic (aes_ctr k iv ic d) = d;
}.

Section laws.
Context `{PacketCryptoLaws}.

Lemma form_armored hdr fl mac body tail : form_ok hdr fl mac body tail ->
  raw_read (form hdr fl mac body tail) ZT_PACKET_IDX_EXTENDED_ARMOR_START (8 + zlen body) = Ok (mac ++ body).
Proof.
  intros Hok. pose proof (form_zlens _ _ _ _ _ Hok). apply form_read with (pre := hdr ++ [fl]) (post := tail); [|idx|idx].
  cbn. by rewrite <- !app_assoc.
Qed.

Lemma form_set_armored hdr fl mac body tail x : form_ok hdr fl mac body tail -> length x = length (mac ++ body) ->
  raw_write (form hdr fl mac body tail) ZT_PACKET_IDX_EXTENDED_ARMOR_START x = Ok (form hdr fl (take 8 x) (drop 8 x) tail).
Proof.
  intros Hok Hl. pose proof (form_zlens _ _ _ _ _ Hok). pose proof Hok as (_ & _ & _ & _ & Hlm & _).
  rewrite (form_write _ _ _ _ _ _ x (mac ++ body) (hdr ++ [fl]) tail).
  - unfold form. rewrite length_app in Hl. do 2 f_equal.
    + rewrite <- !app_assoc, (app_assoc (take 8 x)), take_drop. done.
    + unfold zlen. rewrite length_drop. lia.
  - cbn. by rewrite <- !app_assoc.
  - idx.
  - done.
Qed.

Lemma armor_extended_form hdr fl mac body tail eph id : form_ok hdr fl mac body tail -> bytes_ok eph.2 -> length eph.2 = 32%nat ->
  (32 <= length tail)%nat ->
  let x := aes_ctr (ecc_agree eph.1 id) (take 12 hdr) 0 (mac ++ body) in
  Armor.armor_extended (form hdr fl mac body tail) eph id = Ok (form hdr fl (take 8 x) (drop 8 x ++ eph.2) (drop 32 tail)) /\
  form_ok hdr fl (take 8 x) (drop 8 x ++ eph.2) (drop 32 tail).
Proof.
  intros Hok He Hle Ht x. pose proof (form_zlens _ _ _ _ _ Hok). pose proof Hok as (Hh & Hlh & Hf & Hm & Hlm & Hb & Htb & _).
  destruct (ctr_law (ecc_agree eph.1 id) (take 12 hdr) 0 (mac ++ body)) as (Hx & Hlx & _); [by apply bytes_ok_app|].
  fold x in Hx, Hlx. rewrite length_app in Hlx.
  assert (form_ok hdr fl (take 8 x) (drop 8 x ++ eph.2) (drop 32 tail)) as Hok'.
  { split_and!; try done; try (by apply list.Forall_take || by apply list.Forall_drop).
    - rewrite length_take. lia.
    - apply bytes_ok_app. split; [by apply list.Forall_drop|done].
    - unfold zlen in *. rewrite length_app, !length_drop. lia. }
  split; [|done]. unfold Armor.armor_extended.
  rewrite (form_hdr _ _ _ _ _ Hok 0 12 ltac:(lia) : raw_read _ 0 12 = _). cbn [mbind outcome_bind]. rewrite drop_0.
  replace (u32 _) with (8 + zlen body) by (rewrite u32_small; unfold size; cbn [_l form]; idx).
  rewrite form_armored by done. cbn [mbind outcome_bind]. fold x.
  rewrite form_set_armored by (done || by rewrite length_app). cbn [mbind outcome_bind].
  unfold append. cbn [_l form].
  assert (form_ok hdr fl (take 8 x) (drop 8 x) tail) as Hok2.
  { split_and!; try done; try (by apply list.Forall_take || by apply list.Forall_drop).
    - rewrite length_take. lia.
    - unfold zlen in *. rewrite length_drop. lia. }
  rewrite form_cap by done. pose proof (form_zlens _ _ _ _ _ Hok2).
  rewrite u32_small by (unfold zlen in *; lia). rewrite bind_throw_if_false by (apply Z.ltb_ge; unfold zlen in *; lia).
  unfold form. cbn [_b].
  replace (hdr ++ [fl] ++ take 8 x ++ drop 8 x ++ tail) with ((hdr ++ [fl] ++ take 8 x ++ drop 8 x) ++ tail) by (by rewrite <- !app_assoc).
  replace (27 + zlen (drop 8 x)) with (zlen (hdr ++ [fl] ++ take 8 x ++ drop 8 x)) by idx.
  rewrite mem_write_split by lia. cbn [mbind outcome_bind]. rewrite Hle, <- !app_assoc. do 2 f_equal. idx.
Qed.

Lemma dearmor_extended_form hdr fl mac body pub tail id : form_ok hdr fl mac (body ++ pub) tail -> length pub = 32%nat -> body <> [] ->
  let x := aes_ctr (ecc_agree id pub) (take 12 hdr) 0 (mac ++ body) in
  Armor.dearmor_extended (form hdr fl mac (body ++ pub) tail) id = Ok (form hdr fl (take 8 x) (drop 8 x) (pub ++ tail), true) /\
  form_ok hdr fl (take 8 x) (drop 8 x) (pub ++ tail).
Proof.
  intros Hok Hlp Hne x. pose proof (form_zlens _ _ _ _ _ Hok) as Hz. pose proof Hok as (Hh & Hlh & Hf & Hm & Hlm & Hb & Htb & Hsz).
  apply bytes_ok_app in Hb as [Hb Hp]. assert (0 < zlen body) as Hnz by (destruct body; [done|rewrite zlen_cons; pose proof (zlen_nonneg body); lia]).
  destruct (ctr_law (ecc_agree id pub) (take 12 hdr) 0 (mac ++ body)) as (Hx & Hlx & _); [by apply bytes_ok_app|].
  fold x in Hx, Hlx. assert (zlen pub = 32) as Hzp by (unfold zlen; lia). rewrite zlen_app, Hzp in Hz, Hsz.
  assert (form hdr fl mac (body ++ pub) tail = mkBuffer (_b (form hdr fl mac body (pub ++ tail))) (27 + (zlen body + 32))) as Ef.
  { unfold form. cbn [_b]. rewrite zlen_app, Hzp, <- !app_assoc. done. }
  assert (form_ok hdr fl mac body (pub ++ tail)) as Hok1.
  { split_and!; try done; [by apply bytes_ok_app|rewrite zlen_app, Hzp; lia]. }
  assert (form_ok hdr fl (take 8 x) (drop 8 x) (pub ++ tail)) as Hok2.
  { rewrite length_app in Hlx. split_and!; try done; try (by apply list.Forall_take || by apply list.Forall_drop); [|by apply bytes_ok_app|].
    - rewrite length_take. lia.
    - rewrite zlen_app, Hzp. unfold zlen in *. rewrite length_drop. lia. }
  split; [|done]. unfold Armor.dearmor_extended. unfold size at 1. cbn [_l form]. rewrite zlen_app, Hzp.
  destruct (Z.ltb_spec (27 + (zlen body + 32)) (ZT_PACKET_IDX_VERB + 1 + ZT_ECC_EPHEMERAL_PUBLIC_KEY_LEN)) as [Hc|_];
    [unfold ZT_PACKET_IDX_VERB, ZT_ECC_EPHEMERAL_PUBLIC_KEY_LEN in Hc; lia|].
  assert (size (form hdr fl mac (body ++ pub) tail) = 27 + zlen body + 32) as Es by (unfold size; cbn [_l form]; rewrite zlen_app; lia).
  rewrite Es. unfold ZT_ECC_EPHEMERAL_PUBLIC_KEY_LEN.
  rewrite (form_read _ _ _ _ _ (27 + zlen body + 32 - 32) 32 pub (hdr ++ [fl] ++ mac ++ body) tail); [|cbn [_b form]; by rewrite <- !app_assoc|idx|done].
  cbn [mbind outcome_bind].
  rewrite (form_hdr _ _ _ _ _ Hok 0 12 ltac:(lia) : raw_read _ 0 12 = _). cbn [mbind outcome_bind]. rewrite drop_0.
  replace (27 + zlen body + 32 - ZT_PACKET_IDX_EXTENDED_ARMOR_START - 32) with (8 + zlen body) by idx.
  pose proof (form_armored _ _ _ _ _ Hok1) as Er. unfold raw_read in *. rewrite Ef. cbn [_b]. rewrite Er. cbn [mbind outcome_bind]. fold x.
  pose proof (form_set_armored _ _ _ _ _ x Hok1 Hlx) as Ew. unfold raw_write in *. cbn [_b form] in Ew |- *.
  destruct (mem_write _ _ x) as [m| |]; [|discriminate..]. cbn [mbind outcome_bind] in *. injection Ew as Em _.
  unfold setSize, capacity, size. cbn [_b _l]. rewrite Em. rewrite bind_throw_if_false.
  - cbn [mbind outcome_bind]. do 2 f_equal. unfold form. f_equal. rewrite length_app in Hlx. unfold zlen in *. rewrite length_drop. lia.
  - apply Z.ltb_ge. autorewrite with zlen. rewrite length_app in Hlx. unfold zlen in *. rewrite length_take, length_drop. lia.
Qed.
End laws.

(** A packet on its way: each relay increments the hops. *)
Fixpoint relay (n : nat) (b : Buffer) : outcome Buffer :=
  match n with O => Ok b | S n => b ← Packet.incrementHops b; relay n b end.

Lemma form_ok_flags hdr fl mac body tail fl' : form_ok hdr fl mac body tail -> byte_ok fl' -> form_ok hdr fl' mac body tail.
Proof. intros (? & ? & ? & ? & ? & ? & ? & ?) ?. by split_and!. Qed.

Lemma relay_form n hdr mac body tail : forall fl, form_ok hdr fl mac body tail ->
  exists fl', relay n (form hdr fl mac body tail) = Ok (form hdr fl' mac body tail) /\ form_ok hdr fl' mac body tail /\ immutable fl' = immutable fl.
Proof.
  induction n as [|n IH]; intros fl Hok; [by exists fl|]. cbn [relay]. rewrite incrementHops_form by done. cbn [mbind outcome_bind].
  pose proof Hok as (_ & _ & Hf & _).
  destruct (IH (hop fl)) as (fl' & E & Hok' & Hi); [eapply form_ok_flags; [done|apply u8_ok]|]. exists fl'. rewrite hop_ok in Hi by done. done.
Qed.

Lemma form_data hdr fl mac body tail : form_ok hdr fl mac body tail -> data (form hdr fl mac body tail) = hdr ++ [fl] ++ mac ++ body.
Proof.
  intros Hok. pose proof (form_zlens _ _ _ _ _ Hok). unfold data, form. cbn [_b _l].
  replace (hdr ++ [fl] ++ mac ++ body ++ tail) with ((hdr ++ [fl] ++ mac ++ body) ++ tail) by (by rewrite <- !app_assoc).
  apply take_app_length'. unfold zlen in *. rewrite !length_app. cbn. lia.
Qed.

(** [r] is [p] up to the flags, the MAC field and, after AES-GMAC-SIV, the packet ID. *)
Definition recovered (p r : Buffer) : Prop :=
  size r = size p /\ drop 27 (data r) = drop 27 (data p) /\ take 10 (drop 8 (data r)) = take 10 (drop 8 (data p)).

Lemma recovered_form hdr hdr' fl fl' mac mac' body tail tail' :
  form_ok hdr fl mac body tail -> form_ok hdr' fl' mac' body tail' -> drop 8 hdr = drop 8 hdr' ->
  recovered (form hdr fl mac body tail) (form hdr' fl' mac' body tail').
Proof.
  intros Hok Hok' Hh. unfold recovered. rewrite !form_data by done. split; [done|].
  destruct Hok as (_ & Hl & _ & _ & Hm & _), Hok' as (_ & Hl' & _ & _ & Hm' & _).
  assert (forall h f m, length h = 18%nat -> length m = 8%nat -> drop 27 (h ++ [f] ++ m ++ body) = body) as D.
  { intros h f m E1 E2. rewrite !app_assoc. apply drop_app_length'. rewrite !length_app. cbn. lia. }
  assert (forall h f m, length h = 18%nat -> take 10 (drop 8 (h ++ [f] ++ m ++ body)) = drop 8 h) as A.
  { intros h f m E1. rewrite drop_app_le by lia. apply take_app_length'. rewrite length_drop. lia. }
  rewrite !D, !A by done. done.
Qed.

Lemma cipher_state_immutable key hdr fl fl' n : immutable fl = immutable fl' -> cipher_state key hdr fl n = cipher_state key hdr fl' n.
Proof. intros E. unfold cipher_state, mangled. by rewrite E. Qed.

Lemma immutable_no_hops fl : byte_ok fl -> Z.land fl 7 = 0 -> immutable fl = fl.
Proof.
  intros H E. assert (forallb (fun fl => negb (Z.land fl 7 =? 0) || (immutable fl =? fl)) (seqZ 0 256) = true) as D by (vm_compute; reflexivity).
  apply (byte_cases _ D) in H. rewrite E in H. by apply Z.eqb_eq.
Qed.

Section roundtrip.
Context `{PacketCryptoLaws}.

Lemma armor_aes_form hdr fl mac body tail ks : form_ok hdr fl mac body tail ->
  let fl' := with_cipher fl 3 in
  let e := gmac_siv_encrypt ks (take 8 hdr) (drop 8 hdr ++ [fl']) body in
  Armor.armor_aes (form hdr fl mac body tail) ks = Ok (form (take 8 e.1 ++ drop 8 hdr) fl' (drop 8 e.1) e.2 tail) /\
  form_ok (take 8 e.1 ++ drop 8 hdr) fl' (drop 8 e.1) e.2 tail.
Proof.
  intros Hok fl' e. pose proof Hok as (Hh & Hlh & Hf & Hm & Hlm & Hb & Htb & Hsz).
  destruct (siv_law ks (take 8 hdr) (drop 8 hdr ++ [fl']) body) as (Ht & Hlt & Hc & Hlc & _); [rewrite length_take; lia|done|]. fold e in Ht, Hlt, Hc, Hlc.
  assert (form_ok hdr fl' mac body tail) as Hok1 by (eapply form_ok_flags; [done|apply u8_ok]).
  assert (form_ok hdr fl' mac e.2 tail) as Hok2 by (eapply form_ok_change; [done|apply u8_ok|done..]).
  assert (form_ok (take 8 e.1 ++ drop 8 hdr) fl' mac e.2 tail) as Hok3.
  { destruct Hok2 as (_ & _ & ? & ? & ? & ? & ? & ?). split_and!; try done.
    - apply bytes_ok_app. split; [by apply list.Forall_take|by apply list.Forall_drop].
    - rewrite length_app, length_take, length_drop. lia. }
  split; [|eapply form_ok_change; [done|apply u8_ok|by apply list.Forall_drop|rewrite length_drop; lia|done..]].
  unfold Armor.armor_aes. rewrite setCipher_form by done. cbn [mbind outcome_bind].
  change (with_cipher fl ZT_PROTO_CIPHER_SUITE__AES_GMAC_SIV) with fl'.
  rewrite (form_hdr _ _ _ _ _ Hok1 0 8 ltac:(lia) : raw_read _ ZT_PACKET_IDX_IV 8 = _). cbn [mbind outcome_bind].
  rewrite form_aad by done. cbn [mbind outcome_bind]. rewrite form_body by done. cbn [mbind outcome_bind].
  rewrite drop_0. fold e. destruct e as [tag c]. cbn [fst snd] in *.
  rewrite form_set_body by done. cbn [mbind outcome_bind]. rewrite form_set_iv by (done || rewrite length_take; lia). cbn [mbind outcome_bind].
  by rewrite form_set_mac by (done || rewrite length_drop; lia).
Qed.

Lemma dearmor_aes_form hdr fl mac body tail ks p : form_ok hdr fl mac body tail ->
  gmac_siv_decrypt ks (take 8 hdr ++ mac) (drop 8 hdr ++ [immutable fl]) body = (true, p) -> length p = length body ->
  Armor.dearmor_aes (form hdr fl mac body tail) ks = Ok (form hdr fl mac p tail, true).
Proof.
  intros Hok E Hl. pose proof Hok as (Hh & Hlh & _). unfold Armor.dearmor_aes.
  rewrite (form_hdr _ _ _ _ _ Hok 0 8 ltac:(lia) : raw_read _ ZT_PACKET_IDX_IV 8 = _). cbn [mbind outcome_bind].
  rewrite form_mac by done. cbn [mbind outcome_bind].
  rewrite (form_hdr _ _ _ _ _ Hok 8 10 ltac:(lia) : raw_read _ ZT_PACKET_IDX_DEST 10 = _). cbn [mbind outcome_bind].
  rewrite form_fl by done. cbn [mbind outcome_bind]. rewrite form_body by done. cbn [mbind outcome_bind].
  rewrite drop_0, (take_ge (drop 8 hdr)) by (rewrite length_drop; lia). change (be_int [fl]) with fl. unfold immutable in E. rewrite E.
  by rewrite form_set_body.
Qed.

(** The cipher suite [armor] chooses. *)
Definition suite (encrypt : bool) (ks : option (list Z * list Z)) : Z :=
  match ks, encrypt with Some _, true => 3 | _, true => 1 | _, false => 0 end.

Lemma suite_bound e ks : 0 <= suite e ks < 4.
Proof. destruct ks, e; cbn; lia. Qed.

(** A suite's armor, and what [dearmor] makes of it whatever the hops and the array behind the packet. *)
Lemma armor_suite_form tmp pbuf tmp' pbuf' hdr fl mac body tail key (encrypt : bool) ks :
  scratch_ok tmp pbuf -> scratch_ok tmp' pbuf' -> form_ok hdr fl mac body tail -> key_ok key ->
  (ks <> None -> encrypt = true -> Z.land fl 7 = 0) ->
  exists hdr' mac' body', let fl' := with_cipher fl (suite encrypt ks) in
    Armor.armor_suite tmp pbuf (form hdr fl mac body tail) key encrypt ks = Ok (form hdr' fl' mac' body' tail) /\
    form_ok hdr' fl' mac' body' tail /\ drop 8 hdr' = drop 8 hdr /\ length body' = length body /\
    forall fl2 tail2, form_ok hdr' fl2 mac' body' tail2 -> immutable fl2 = immutable fl' ->
      Armor.dearmor_suite tmp' pbuf' (form hdr' fl2 mac' body' tail2) key ks (suite encrypt ks) = Ok (form hdr' fl2 mac' body tail2, true).
Proof.
  intros Hs Hs' Hok Hk Hh. pose proof Hok as (_ & Hlh & Hf & _ & _ & Hb & _).
  destruct (match ks, encrypt with Some _, true => true | _, _ => false end) eqn:Ea.
  - destruct ks as [ks|]; [|done]. destruct encrypt; [|done]. destruct (armor_aes_form _ _ _ _ _ ks Hok) as [E Hok'].
    eexists _, _, _. split; [exact E|]. split; [exact Hok'|]. pose proof Hok' as (_ & Hlh' & _).
    destruct (siv_law ks (take 8 hdr) (drop 8 hdr ++ [with_cipher fl 3]) body) as (_ & Hlt & _ & Hlc & Hd); [rewrite length_take; lia|done|].
    set (e := gmac_siv_encrypt _ _ _ _) in *. split.
    { rewrite drop_app_le, drop_ge by (rewrite length_take; lia). done. }
    split; [done|]. intros fl2 tail2 Hok2 Hi. apply dearmor_aes_form; [done| |lia].
    rewrite drop_app_le, (drop_ge (take 8 e.1)), take_app_le, (take_ge (take 8 e.1)), take_drop by (rewrite length_take; lia).
    rewrite Hi, immutable_no_hops; [exact Hd|apply u8_ok|]. transitivity (Z.land fl 7); [apply with_cipher_ok; [apply suite_bound|done]|by apply Hh].
  - set (fl' := with_cipher fl (suite encrypt ks)). set (s := cipher_state key hdr fl' (27 + zlen body)).
    assert (suite encrypt ks = if encrypt then 1 else 0) as Es by (by destruct ks, encrypt).
    exists hdr, (mac_of s (wire_body s encrypt body)), (wire_body s encrypt body). split; [|split; [|split; [done|split; [apply length_wire_body|]]]].
    + unfold Armor.armor_suite. replace (match ks with Some _ => _ | None => _ end) with (Armor.armor_salsa tmp pbuf (form hdr fl mac body tail) key encrypt)
        by (by destruct ks, encrypt).
      unfold s, fl'. rewrite Es. by apply armor_salsa_form.
    + eapply form_ok_change; [exact Hok|apply u8_ok|apply bytes_mac|apply length_mac|by apply bytes_wire_body|apply length_wire_body].
    + intros fl2 tail2 Hok2 Hi. unfold Armor.dearmor_suite. rewrite Es.
      replace (if (if encrypt then 1 else 0) =? _ then _ else _) with
        (Armor.dearmor_salsa tmp' pbuf' (form hdr fl2 (mac_of s (wire_body s encrypt body)) (wire_body s encrypt body) tail2) key encrypt)
        by (by destruct encrypt).
      rewrite dearmor_salsa_form by done. unfold zlen. rewrite length_wire_body. fold (zlen body).
      rewrite (cipher_state_immutable _ _ fl2 fl') by done. fold s. rewrite bool_decide_eq_true_2 by done.
      destruct encrypt; cbn [wire_body]; [by rewrite stream_invol|done].
Qed.

Lemma form_ok_body hdr fl mac body body' tail : form_ok hdr fl mac body' tail -> length body' = length body -> bytes_ok body -> form_ok hdr fl mac body tail.
Proof. intros (? & ? & ? & ? & ? & ? & ? & ?) E ?. split_and!; try done. unfold zlen in *. by rewrite <- E. Qed.

Lemma relay_ok n hdr fl mac body tail : form_ok hdr fl mac body tail ->
  exists fl', relay n (form hdr fl mac body tail) = Ok (form hdr fl' mac body tail) /\ form_ok hdr fl' mac body tail /\
    immutable fl' = immutable fl /\ cipher_of fl' = cipher_of fl /\ Z.land fl' 0x80 = Z.land fl 0x80.
Proof.
  intros Hok. destruct (relay_form n hdr mac body tail fl Hok) as (fl' & E & Hok' & Hi). exists fl'.
  split_and!; try done; [by apply cipher_immutable|by apply ext_immutable].
Qed.

(** The second layer, and what [dearmor] makes of it whatever the hops. *)
Lemma extended_form hdr fl mac body tail eph idpub idpriv : form_ok hdr fl mac body tail -> 0 < zlen body ->
  key_ok eph.2 -> ecc_agree eph.1 idpub = ecc_agree idpriv eph.2 -> (32 <= length tail)%nat ->
  exists mac' body' tail', Armor.armor_extended (form hdr fl mac body tail) eph idpub = Ok (form hdr fl mac' body' tail') /\
    form_ok hdr fl mac' body' tail' /\
    forall fl2, form_ok hdr fl2 mac' body' tail' -> exists tail2,
      Armor.dearmor_extended (form hdr fl2 mac' body' tail') idpriv = Ok (form hdr fl2 mac body tail2, true) /\ form_ok hdr fl2 mac body tail2.
Proof.
  intros Hok Hpos [Heb Hel] Hagree Hcap. destruct (armor_extended_form _ _ _ _ _ eph idpub Hok Heb Hel) as [E2 Hok2]; [done|].
  pose proof Hok as (_ & _ & _ & Hm' & Hlm' & Hb' & _).
  destruct (ctr_law (ecc_agree eph.1 idpub) (take 12 hdr) 0 (mac ++ body)) as (_ & Hlx & Hinv); [by apply bytes_ok_app|].
  set (x := aes_ctr _ _ _ (mac ++ body)) in *. rewrite length_app in Hlx. eexists _, _, _. split; [exact E2|]. split; [exact Hok2|].
  intros fl2 Hok3. exists (eph.2 ++ drop 32 tail).
  destruct (dearmor_extended_form hdr fl2 (take 8 x) (drop 8 x) eph.2 (drop 32 tail) idpriv Hok3 Hel) as [E4 Hok4].
  { intros D. apply (f_equal length) in D. rewrite length_drop in D. cbn in D. unfold zlen in *. lia. }
  by rewrite take_drop, <- Hagree, Hinv, take_app_length', drop_app_length' in E4, Hok4 by done.
Qed.

(** [armor] and [dearmor] in terms of the suites. *)
Lemma armor_layers tmp pbuf hdr fl mac body tail key encrypt ext ks eph id : form_ok hdr fl mac body tail ->
  Armor.armor tmp pbuf (form hdr fl mac body tail) key encrypt ext ks eph id =
  b ← Armor.armor_suite tmp pbuf (form hdr (with_ext fl ext) mac body tail) key encrypt ks;
  if ext then Armor.armor_extended b eph id else Ok b.
Proof. intros Hok. unfold Armor.armor. by rewrite setExtendedArmor_form. Qed.

Lemma dearmor_layers tmp pbuf hdr fl mac body tail key ks id : form_ok hdr fl mac body tail ->
  Armor.dearmor tmp pbuf (form hdr fl mac body tail) key ks id =
  '(b, go) ← (if negb (Z.land fl 0x80 =? 0) && (cipher_of fl =? 0) then Armor.dearmor_extended (form hdr fl mac body tail) id
              else Ok (form hdr fl mac body tail, true));
  if negb go then Ok (b, false) else Armor.dearmor_suite tmp pbuf b key ks (cipher_of fl).
Proof.
  intros Hok. unfold Armor.dearmor. rewrite cipher_form by done. cbn [mbind outcome_bind]. by rewrite extendedArmor_form.
Qed.

(** C17. [dearmor] recovers what [armor] sent, however often the packet was relayed. [armor] is called with [ext] only
    without encryption, and a packet gets hops only after it was armored. *)
Theorem armor_dearmor tmp pbuf tmp' pbuf' p key (encrypt ext : bool) ks eph idpub idpriv n :
  scratch_ok tmp pbuf -> scratch_ok tmp' pbuf' -> buf_ok p -> ZT_PROTO_MIN_PACKET_LENGTH <= size p -> key_ok key ->
  (ks <> None -> encrypt = true -> Packet.hops p = Ok 0) ->
  (ext = true -> encrypt = false /\ key_ok eph.2 /\ ecc_agree eph.1 idpub = ecc_agree idpriv eph.2 /\ size p + 32 <= capacity p) ->
  exists q q' r, Armor.armor tmp pbuf p key encrypt ext ks eph idpub = Ok q /\ relay n q = Ok q' /\
    Armor.dearmor tmp' pbuf' q' key ks idpriv = Ok (r, true) /\ recovered p r.
Proof.
  intros Hs Hs' Hp Hsz Hk Hh Hx. unfold ZT_PROTO_MIN_PACKET_LENGTH, ZT_PACKET_IDX_PAYLOAD in Hsz.
  destruct (packet_form p Hp) as (hdr & fl & mac & body & tail & -> & Hok); [unfold size in Hsz; lia|].
  rewrite armor_layers by done. pose proof Hok as (_ & _ & Hf & _). destruct (with_ext_ok fl ext Hf) as [He Hh7].
  assert (form_ok hdr (with_ext fl ext) mac body tail) as Hok1 by (eapply form_ok_flags; [done|apply u8_ok]).
  pose proof Hok as (_ & _ & _ & _ & _ & Hbytes & _). assert (0 < zlen body) as Hbody by (unfold size in Hsz; cbn [_l form] in Hsz; lia).
  destruct (armor_suite_form tmp pbuf tmp' pbuf' hdr (with_ext fl ext) mac body tail key encrypt ks) as (hdr' & mac' & body' & E & Hok' & Hd & Hlb & Hde); try done.
  { intros A B. specialize (Hh A B). unfold Packet.hops in Hh. rewrite form_flags in Hh by done. cbn [mbind outcome_bind] in Hh. injection Hh. lia. }
  set (fl' := with_cipher (with_ext fl ext) (suite encrypt ks)) in *. rewrite E. cbn [mbind outcome_bind].
  destruct (with_cipher_ok (with_ext fl ext) (suite encrypt ks)) as (Hc & Hext & _); [apply suite_bound|apply u8_ok|]. fold fl' in Hc, Hext.
  destruct ext.
  - destruct (Hx eq_refl) as (-> & Heph & Hagree & Hcap). assert (suite false ks = 0) as Es by (by destruct ks). rewrite Es in *.
    rewrite form_cap in Hcap by done. unfold size in Hcap. cbn [_l form] in Hcap.
    destruct (extended_form hdr' fl' mac' body' tail eph idpub idpriv) as (mac2 & body2 & tail2 & E2 & Hok2 & Hdx); [done|unfold zlen in *; lia|done|done|unfold zlen in *; lia|].
    destruct (relay_ok n _ _ _ _ _ Hok2) as (fl2 & E3 & Hok3 & Hi & Hc2 & He2). destruct (Hdx fl2 Hok3) as (tail3 & E4 & Hok4).
    eexists _, _, _. split; [exact E2|]. split; [exact E3|]. split.
    + rewrite dearmor_layers by done. rewrite He2, Hext, He, Hc2, Hc. change (true && (0 =? 0)) with true. cbv iota.
      rewrite E4. cbn [mbind outcome_bind negb]. by apply Hde.
    + apply recovered_form; [done|by eapply form_ok_body|done].
  - destruct (relay_ok n _ _ _ _ _ Hok') as (fl2 & E3 & Hok3 & Hi & Hc2 & He2).
    eexists _, _, _. split; [reflexivity|]. split; [exact E3|]. split.
    + rewrite dearmor_layers by done. rewrite He2, Hext, He. cbn [andb mbind outcome_bind negb]. rewrite Hc2, Hc. by apply Hde.
    + apply recovered_form; [done|by eapply form_ok_body|done].
Qed.
End roundtrip.

Lemma form_data_parts hdr fl mac body tail (d := data (form hdr fl mac body tail)) : form_ok hdr fl mac body tail ->
  take 18 d = hdr /\ take 8 (drop 19 d) = mac /\ drop 27 d = body /\ take 27 d = hdr ++ [fl] ++ mac.
Proof.
  intros Hok. unfold d. rewrite form_data by done. destruct Hok as (_ & Hl & _ & _ & Hm & _). split_and!.
  - by apply take_app_length'.
  - rewrite app_assoc, drop_app_length' by (rewrite length_app; cbn; lia). by apply take_app_length'.
  - rewrite !app_assoc. apply drop_app_length'. rewrite !length_app. cbn. lia.
  - rewrite !app_assoc. apply take_app_length'. rewrite !length_app. cbn. lia.
Qed.

(** ** What [dearmor] accepts *)

(** The bytes of a packet once its second layer is gone: flagged packets of the suite NONE carry an ephemeral key behind an encrypted MAC field and body.
    [None]: there is no room for the key. *)
Definition inner `{PacketCrypto} (d : list Z) (fl : Z) (id : list Z) : option (list Z) :=
  if negb (Z.land fl 0x80 =? 0) && (cipher_of fl =? 0) then
    if zlen d <? 60 then None
    else let n := (length d - 32)%nat in Some (take 19 d ++ aes_ctr (ecc_agree id (drop n d)) (take 12 d) 0 (drop 19 (take n d)))
  else Some d.

Lemma dearmor_suite_authentic `{PacketCrypto} tmp pbuf hdr fl mac bd tail key ks (cs := cipher_of fl) (s := cipher_state key hdr fl (27 + zlen bd)) :
  scratch_ok tmp pbuf -> key_ok key -> form_ok hdr fl mac bd tail -> cs <> 3 \/ ks = None ->
  exists r, Armor.dearmor_suite tmp pbuf (form hdr fl mac bd tail) key ks cs = Ok (r, bool_decide ((cs = 0 \/ cs = 1) /\ mac = mac_of s bd)) /\
    data r = if bool_decide (cs = 1 /\ mac = mac_of s bd) then hdr ++ [fl] ++ mac ++ stream s bd else hdr ++ [fl] ++ mac ++ bd.
Proof.
  intros Hs Hk Hok Hcs. unfold Armor.dearmor_suite. destruct (decide (cs = 0 \/ cs = 1)) as [D|D].
  - replace (if cs =? _ then _ else _) with (Armor.dearmor_salsa tmp pbuf (form hdr fl mac bd tail) key (cs =? 1)) by (unfold cs in *; by destruct D as [-> | ->]).
    rewrite dearmor_salsa_form by done. fold s. destruct (decide (mac_of s bd = mac)) as [M|M].
    + rewrite (bool_decide_eq_true_2 (mac_of s bd = mac)) by done. eexists. rewrite bool_decide_eq_true_2 by done. split; [reflexivity|].
      assert (form_ok hdr fl mac (wire_body s (cs =? 1) bd) tail) as Hok2.
      { pose proof Hok as (? & ? & ? & ? & ? & ? & ? & ?). eapply form_ok_change; [exact Hok|done..| |apply length_wire_body]. by apply bytes_wire_body. }
      rewrite form_data by done. destruct D as [D|D]; rewrite D; [rewrite bool_decide_eq_false_2 by lia; done|by rewrite bool_decide_eq_true_2 by done].
    + rewrite (bool_decide_eq_false_2 (mac_of s bd = mac)) by done. eexists. rewrite !bool_decide_eq_false_2 by naive_solver. split; [done|]. by apply form_data.
  - exists (form hdr fl mac bd tail). rewrite !bool_decide_eq_false_2 by tauto. split; [|by apply form_data].
    destruct (Z.eqb_spec cs 3) as [C|C]; unfold cs in *.
    + rewrite C. destruct Hcs as [|Hks]; [done|by rewrite Hks].
    + replace (cipher_of fl =? ZT_PROTO_CIPHER_SUITE__AES_GMAC_SIV) with false by (symmetry; by apply Z.eqb_neq).
      replace (_ || _) with false; [done|]. symmetry. apply orb_false_iff. rewrite !Z.eqb_neq. tauto.
Qed.

(** C18. Without AES keys for a packet of the suite AES-GMAC-SIV, [dearmor] returns. Its second layer, if it has one, is decrypted in place first ([inner]); a packet too
    short for it is refused as it is. Then the packet is accepted if and only if it is of the suites NONE or SALSA2012 and its MAC field is the Poly1305 of the
    body under the one-time key of the packet; the body is decrypted if it is accepted and of the suite SALSA2012, and nothing else changes. *)
Theorem dearmor_authentic `{PacketCryptoLaws} tmp pbuf b key ks id fl :
  scratch_ok tmp pbuf -> buf_ok b -> 27 <= size b -> key_ok key -> index b ZT_PACKET_IDX_FLAGS = Ok fl -> cipher_of fl <> 3 \/ ks = None ->
  exists r ok, Armor.dearmor tmp pbuf b key ks id = Ok (r, ok) /\
    match inner (data b) fl id with
    | None => ok = false /\ data r = data b
    | Some d =>
        let body := drop 27 d in let cs := cipher_of fl in
        let s := cipher_state key (take 18 d) fl (zlen d) in
        (ok = true <-> (cs = 0 \/ cs = 1) /\ take 8 (drop 19 d) = mac_of s body) /\
        data r = if ok && (cs =? 1) then take 27 d ++ stream s body else d
    end.
Proof.
  intros Hs Hp Hsz Hk Hfl Hcs. destruct (packet_form b Hp) as (hdr & fl0 & mac & bd & tail & -> & Hok); [done|].
  rewrite form_flags in Hfl by done. injection Hfl as ->. rewrite dearmor_layers, form_data by done. pose proof Hok as (_ & Hlh & _ & _ & Hlm & _).
  assert (forall bd tail, form_ok hdr fl mac bd tail -> zlen (hdr ++ [fl] ++ mac ++ bd) = 27 + zlen bd) as Hlen by (intros; unfold zlen; rewrite !length_app, Hlh, Hlm; cbn; lia).
  assert (forall mac bd tail, form_ok hdr fl mac bd tail -> exists r ok, Armor.dearmor_suite tmp pbuf (form hdr fl mac bd tail) key ks (cipher_of fl) = Ok (r, ok) /\
    let d := hdr ++ [fl] ++ mac ++ bd in let body := drop 27 d in let cs := cipher_of fl in let s := cipher_state key (take 18 d) fl (zlen d) in
    (ok = true <-> (cs = 0 \/ cs = 1) /\ take 8 (drop 19 d) = mac_of s body) /\ data r = if ok && (cs =? 1) then take 27 d ++ stream s body else d) as Hsuite.
  { clear - Hs Hk Hcs. intros mac bd tail Hok. destruct (dearmor_suite_authentic tmp pbuf hdr fl mac bd tail key ks Hs Hk Hok Hcs) as (r & E & D). eexists r, _. split; [exact E|]. cbv zeta.
    destruct (form_data_parts _ _ _ _ _ Hok) as (E1 & E2 & E3 & E4). rewrite form_data in E1, E2, E3, E4 by done. rewrite E1, E2, E3, E4, D.
    replace (zlen (hdr ++ [fl] ++ mac ++ bd)) with (27 + zlen bd) by (destruct Hok as (_ & Hlh & _ & _ & Hlm & _); unfold zlen; rewrite !length_app, Hlh, Hlm; cbn; lia).
    set (s := cipher_state _ _ _ _). split; [apply bool_decide_eq_true|]. rewrite <- !app_assoc.
    destruct (Z.eqb_spec (cipher_of fl) 1) as [C|C]; [|rewrite andb_false_r; by rewrite bool_decide_eq_false_2 by tauto]. rewrite andb_true_r.
    destruct (decide (mac = mac_of s bd)) as [M|M]; [rewrite !bool_decide_eq_true_2 by tauto|rewrite !bool_decide_eq_false_2 by tauto]; done. }
  unfold inner. destruct (negb _ && _) eqn:Elayer; [|cbn [mbind outcome_bind negb]; by apply Hsuite].
  rewrite (Hlen bd tail Hok). destruct (Z.ltb_spec (27 + zlen bd) 60) as [Hshort|Hlong].
  - unfold Armor.dearmor_extended. unfold size. cbn [_l form]. rewrite (proj2 (Z.ltb_lt _ _)) by (unfold ZT_PACKET_IDX_VERB, ZT_ECC_EPHEMERAL_PUBLIC_KEY_LEN; lia).
    cbn [mbind outcome_bind negb]. eexists _, _. split; [reflexivity|]. split; [done|]. by rewrite form_data.
  - set (m := (length bd - 32)%nat). assert (length (drop m bd) = 32%nat) as Hpub by (rewrite length_drop; unfold zlen in Hlong; lia).
    assert (take m bd <> []) as Hne by (intros E0; apply (f_equal length) in E0; rewrite length_take in E0; cbn in E0; unfold zlen in Hlong; lia).
    assert (form_ok hdr fl mac (take m bd ++ drop m bd) tail) as Hok' by (by rewrite take_drop).
    replace (form hdr fl mac bd tail) with (form hdr fl mac (take m bd ++ drop m bd) tail) by (by rewrite take_drop). destruct (dearmor_extended_form hdr fl mac (take m bd) (drop m bd) tail id Hok' Hpub Hne) as [E Hok2].
    rewrite E. cbn [mbind outcome_bind negb]. destruct (Hsuite _ _ _ Hok2) as (r & ok & Er & Hr). exists r, ok. split; [exact Er|].
    set (x := aes_ctr _ _ _ _) in *.
    assert (length (hdr ++ [fl] ++ mac ++ bd) - 32 = 27 + m)%nat as En by (rewrite !length_app, Hlh, Hlm; cbn; unfold m, zlen in *; lia). rewrite En.
    replace (drop (27 + m) (hdr ++ [fl] ++ mac ++ bd)) with (drop m bd).
    2: { rewrite !app_assoc, drop_app, (drop_ge ((hdr ++ [fl]) ++ mac)) by (rewrite !length_app, Hlh, Hlm; cbn; lia). cbn [app]. f_equal. rewrite !length_app, Hlh, Hlm. cbn. lia. }
    replace (take 12 (hdr ++ [fl] ++ mac ++ bd)) with (take 12 hdr) by (by rewrite take_app_le by lia).
    replace (drop 19 (take (27 + m) (hdr ++ [fl] ++ mac ++ bd))) with (mac ++ take m bd).
    2: { rewrite !app_assoc, take_app. rewrite (take_ge ((hdr ++ [fl]) ++ mac)) by (rewrite !length_app, Hlh, Hlm; cbn; lia).
         rewrite <- !app_assoc, (app_assoc hdr), drop_app_length' by (rewrite length_app, Hlh; cbn; lia). do 2 f_equal. rewrite !length_app, Hlh, Hlm. cbn. lia. }
    fold x. replace (take 19 (hdr ++ [fl] ++ mac ++ bd)) with (hdr ++ [fl]) by (by rewrite app_assoc, take_app_length' by (rewrite length_app, Hlh; cbn; lia)).
    cbv zeta in Hr. rewrite (take_drop 8 x), app_assoc in Hr. exact Hr.
Qed.

(** ** Fragments *)

Lemma write_field_split m1 old m2 bs n : length old = length bs -> zlen m1 + zlen bs <= n < 2 ^ 31 ->
  write_field (mkBuffer (m1 ++ old ++ m2) n) (zlen m1) bs = Ok (mkBuffer (m1 ++ bs ++ m2) n).
Proof.
  intros Hl Hn. pose proof (zlen_nonneg m1). pose proof (zlen_nonneg bs). unfold write_field. cbn [_l _b].
  rewrite bind_throw_if_false by (apply Z.ltb_ge; rewrite u32_small; lia).
  rewrite mem_write_split by (rewrite length_app; lia). cbn [mbind outcome_bind]. by rewrite <- Hl, drop_app_length.
Qed.

Lemma setIndex_split m1 x m2 v n : byte_ok v -> zlen m1 < n ->
  setIndex (mkBuffer (m1 ++ [x] ++ m2) n) (zlen m1) v = Ok (mkBuffer (m1 ++ [v] ++ m2) n).
Proof.
  intros Hv Hn. unfold setIndex. cbn [_l _b]. rewrite bind_throw_if_false by (apply Z.leb_gt; lia).
  rewrite mem_write_split by (cbn; lia). cbn [mbind outcome_bind]. by rewrite u8_small.
Qed.

Lemma index_split m1 x m2 n : zlen m1 < n -> index (mkBuffer (m1 ++ [x] ++ m2) n) (zlen m1) = Ok x.
Proof.
  intros Hn. unfold index. cbn [_l _b]. rewrite bind_throw_if_false by (apply Z.leb_gt; lia).
  change 1 with (zlen [x]). by rewrite mem_read_app.
Qed.

Lemma field_slice b i n : buf_ok b -> 0 <= i -> 0 <= n -> i + n <= _l b ->
  field b i n = Ok (take (Z.to_nat n) (drop (Z.to_nat i) (data b))).
Proof.
  intros Hb Hi Hn Hle. pose proof (zlen_data b Hb) as Hl. unfold zlen in Hl.
  set (bs := take _ _). assert (zlen bs = n) as Hz by (unfold bs, zlen; rewrite length_take, length_drop; lia).
  replace i with (zlen (take (Z.to_nat i) (data b))) by (unfold zlen; rewrite length_take; lia). rewrite <- Hz.
  apply (field_data b Hb _ _ (drop (Z.to_nat n) (drop (Z.to_nat i) (data b)))). unfold bs. by rewrite !take_drop.
Qed.

Lemma fragment_layout (m : list Z) n : (16 + n <= length m)%nat ->
  exists a x y z pl rest, m = a ++ [x] ++ [y] ++ [z] ++ pl ++ rest /\ length a = 13%nat /\ length pl = n.
Proof.
  intros Hl. exists (take 13 m), (nth 13 m 0), (nth 14 m 0), (nth 15 m 0), (take n (drop 16 m)), (drop n (drop 16 m)).
  split_and!; [|rewrite length_take; lia|rewrite length_take, length_drop; lia].
  rewrite (take_drop n). assert (forall i, (i < length m)%nat -> drop i m = [nth i m 0] ++ drop (S i) m) as D.
  { intros i Hi. apply drop_S. destruct (nth_lookup_or_length m i 0); [done|lia]. }
  rewrite <- !D by lia. by rewrite take_drop.
Qed.

(** The bytes of a fragment. *)
Definition fragment_bytes (d : list Z) (start len no total : Z) : list Z :=
  take 13 d ++ [0xff] ++ [Z.lor (Z.shiftl (Z.land total 0xf) 4) (Z.land no 0xf)] ++ [0] ++
  take (Z.to_nat len) (drop (Z.to_nat start) d).

Lemma nibbles total no :
  let x := Z.lor (Z.shiftl (Z.land total 15) 4) (Z.land no 15) in Z.land (Z.shiftr x 4) 15 = total mod 16 /\ Z.land x 15 = no mod 16.
Proof.
  intros x. unfold x. change 15 with (Z.ones 4). rewrite !Z.land_ones by lia. change (2 ^ 4) with 16.
  pose proof (Z.mod_pos_bound total 16 ltac:(lia)). pose proof (Z.mod_pos_bound no 16 ltac:(lia)).
  rewrite lor_add, Z.shiftr_div_pow2 by (change (2 ^ 4) with 16; lia). change (2 ^ 4) with 16. split; Z.div_mod_to_equations; lia.
Qed.

Lemma nibbles_byte total no : byte_ok (Z.lor (Z.shiftl (Z.land total 15) 4) (Z.land no 15)).
Proof.
  change 15 with (Z.ones 4). rewrite !Z.land_ones by lia. change (2 ^ 4) with 16.
  pose proof (Z.mod_pos_bound total 16 ltac:(lia)). pose proof (Z.mod_pos_bound no 16 ltac:(lia)).
  rewrite lor_add by (change (2 ^ 4) with 16; lia). change (2 ^ 4) with 16. unfold byte_ok. lia.
Qed.

Lemma fragment_init_data b p start len no total :
  buf_ok b -> buf_ok p -> 13 <= size p -> 0 <= start < 2 ^ 30 -> 0 <= len < 2 ^ 30 -> len + 16 <= capacity b -> start + len <= size p ->
  exists f, Fragment.init b p start len no total = Ok f /\ buf_ok f /\ data f = fragment_bytes (data p) start len no total.
Proof.
  intros [Hl Hcap Hm] Hp Hsz Hs Hn Hc Hge. unfold Fragment.init, size in *. rewrite bind_throw_if_false by (apply Z.ltb_ge; rewrite u32_small; lia).
  replace (u32 (len + ZT_PROTO_MIN_FRAGMENT_LENGTH)) with (16 + len) by (change ZT_PROTO_MIN_FRAGMENT_LENGTH with 16; rewrite u32_small; lia).
  unfold setSize. rewrite bind_throw_if_false by (apply Z.ltb_ge; lia). cbn [mbind outcome_bind].
  rewrite (field_slice p ZT_PACKET_IDX_IV 13 Hp) by (unfold ZT_PACKET_IDX_IV; lia). cbn [mbind outcome_bind].
  rewrite (field_slice p start len Hp) by lia. change (Z.to_nat ZT_PACKET_IDX_IV) with 0%nat. rewrite drop_0. change (Z.to_nat 13) with 13%nat.
  destruct b as [m l]. unfold capacity in *. cbn [_b _l] in *.
  destruct (fragment_layout m (Z.to_nat len)) as (a & x & y & z & pl & rest & -> & Ha & Hpl); [unfold zlen in Hc; lia|].
  apply list.Forall_app in Hm as [Hma Hm]. apply list.Forall_app in Hm as [_ Hm]. apply list.Forall_app in Hm as [_ Hm].
  apply list.Forall_app in Hm as [_ Hm]. apply list.Forall_app in Hm as [_ Hrest].
  pose proof (zlen_data p Hp) as Hlp.
  set (h := take 13 (data p)). assert (length h = 13%nat) as Hh by (unfold h; rewrite length_take; unfold zlen in *; lia).
  set (bs := take _ (drop _ (data p))). assert (zlen bs = len) as Hbs by (unfold bs, zlen; rewrite length_take, length_drop; unfold zlen in *; lia).
  set (nos := Z.lor _ _). pose proof (nibbles_byte total no) as Hnos. fold nos in Hnos.
  assert (zlen h = 13) as Hz by (unfold zlen; lia).
  change ZT_PACKET_FRAGMENT_IDX_PACKET_ID with (zlen (@nil Z)). rewrite <- (app_nil_l (a ++ _)), (write_field_split [] a _ h) by (lia || (unfold zlen in *; cbn; lia)).
  cbn [mbind outcome_bind]. rewrite app_nil_l.
  replace ZT_PACKET_FRAGMENT_IDX_FRAGMENT_INDICATOR with (zlen h) by (unfold zlen; by rewrite Hh).
  rewrite setIndex_split by (by_compute || (unfold zlen; lia)). cbn [mbind outcome_bind].
  replace ZT_PACKET_FRAGMENT_IDX_FRAGMENT_NO with (zlen (h ++ [0xff])) by (rewrite zlen_app, Hz; done).
  rewrite (app_assoc h), setIndex_split by (done || autorewrite with zlen; lia). cbn [mbind outcome_bind].
  replace ZT_PACKET_FRAGMENT_IDX_HOPS with (zlen ((h ++ [0xff]) ++ [nos])) by (rewrite !zlen_app, Hz; done).
  rewrite (app_assoc (h ++ [_])), setIndex_split by (by_compute || autorewrite with zlen; lia). cbn [mbind outcome_bind].
  replace ZT_PACKET_FRAGMENT_IDX_PAYLOAD with (zlen (((h ++ [0xff]) ++ [nos]) ++ [0])) by (rewrite !zlen_app, Hz; done).
  rewrite (app_assoc ((h ++ [_]) ++ [_])), write_field_split by first [autorewrite with zlen; lia|unfold zlen in *; lia].
  eexists. split; [reflexivity|]. split.
  - split; unfold capacity; cbn [_b _l].
    + autorewrite with zlen. pose proof (zlen_nonneg rest). lia.
    + autorewrite with zlen in Hcap |- *. unfold zlen in *. lia.
    + rewrite !bytes_ok_app. split_and!; try by_compute; try done; [by apply list.Forall_take, data_ok|by apply list.Forall_singleton|].
      by apply list.Forall_take, list.Forall_drop, data_ok.
  - unfold data. cbn [_b _l]. rewrite !(app_assoc _ _ rest), take_app_length'; [by rewrite <- !app_assoc|].
    unfold zlen in *. rewrite !length_app. cbn. lia.
Qed.

(** The fields of a fragment. *)
Lemma fragment_fields f d start len no total : buf_ok f -> data f = fragment_bytes d start len no total ->
  (13 <= length d)%nat -> 0 <= start < 2 ^ 30 -> 0 <= len < 2 ^ 30 -> start + len <= zlen d ->
  Fragment.fragmentNumber f = Ok (no mod 16) /\ Fragment.totalFragments f = Ok (total mod 16) /\ Fragment.hops f = Ok 0 /\
  Fragment.packetId f = Ok (be_int (take 8 d)) /\ Fragment.destination f = Address.setTo (take 5 (drop 8 d)) Address.ZT_ADDRESS_LENGTH /\
  size f = 16 + len /\ Fragment.payload f = Ok (take (Z.to_nat len) (drop (Z.to_nat start) d)).
Proof.
  intros Hf Hd Hl Hs Hn Hge. unfold fragment_bytes in *.
  set (h := take 13 d) in *. assert (length h = 13%nat) as H13 by (unfold h; rewrite length_take; lia).
  set (nos := Z.lor _ _) in Hd. destruct (nibbles total no) as [Ht Hno]. fold nos in Ht, Hno. set (pl := take _ (drop (Z.to_nat start) _)) in *.
  assert (zlen pl = len) as Hpl by (unfold pl, zlen in *; rewrite length_take, length_drop; lia).
  assert (take 8 h = take 8 d /\ drop 8 h = take 5 (drop 8 d)) as [E8 E5] by (unfold h; by rewrite take_take, take_drop_commute).
  assert (data f = take 8 h ++ drop 8 h ++ ([0xff; nos; 0] ++ pl)) as Hdf by (rewrite Hd, (app_assoc (take 8 h)), take_drop; done).
  assert (length (take 8 h) = 8%nat /\ length (drop 8 h) = 5%nat) as [L8 L5] by (rewrite length_take, length_drop; lia).
  assert (zlen (take 8 h) = 8 /\ zlen (drop 8 h) = 5) as [Z8 Z5] by (unfold zlen; lia).
  assert (size f = 16 + len) as Es by (unfold size; rewrite <- (zlen_data f Hf), Hdf, !zlen_app, Z8, Z5, Hpl; change (zlen [255; nos; 0]) with 3; lia).
  split_and!; [..|exact Es|].
  - unfold Fragment.fragmentNumber. replace ZT_PACKET_FRAGMENT_IDX_FRAGMENT_NO with (zlen (h ++ [0xff])) by (unfold zlen; rewrite length_app, H13; done).
    rewrite (index_data f Hf (h ++ [0xff]) nos (0 :: pl)) by (rewrite Hd, <- app_assoc; done). cbn [mbind outcome_bind]. by rewrite Hno.
  - unfold Fragment.totalFragments. replace ZT_PACKET_FRAGMENT_IDX_FRAGMENT_NO with (zlen (h ++ [0xff])) by (unfold zlen; rewrite length_app, H13; done).
    rewrite (index_data f Hf (h ++ [0xff]) nos (0 :: pl)) by (rewrite Hd, <- app_assoc; done). cbn [mbind outcome_bind]. by rewrite Ht.
  - unfold Fragment.hops. replace ZT_PACKET_FRAGMENT_IDX_HOPS with (zlen (h ++ [0xff; nos])) by (unfold zlen; rewrite length_app, H13; done).
    rewrite (index_data f Hf (h ++ [0xff; nos]) 0 pl) by (rewrite Hd, <- app_assoc; done). done.
  - unfold Fragment.packetId. change ZT_PACKET_FRAGMENT_IDX_PACKET_ID with (zlen (@nil Z)). by rewrite (at_data f Hf [] _ _ 8 Hdf L8), E8.
  - unfold Fragment.destination, address_at. change ZT_PACKET_FRAGMENT_IDX_DEST with 8. change Address.ZT_ADDRESS_LENGTH with 5.
    replace (field f 8 5) with (field f (zlen (take 8 h)) (zlen (drop 8 h))) by (by rewrite Z8, Z5). by rewrite (field_data f Hf _ _ _ Hdf), E5.
  - unfold Fragment.payload. replace (size f - ZT_PACKET_FRAGMENT_IDX_PAYLOAD) with len by (rewrite Es; change ZT_PACKET_FRAGMENT_IDX_PAYLOAD with 16; lia).
    rewrite u32_small by lia. replace ZT_PACKET_FRAGMENT_IDX_PAYLOAD with (zlen (h ++ [0xff; nos; 0])) by (unfold zlen; rewrite length_app, H13; done).
    rewrite <- Hpl. apply (field_data f Hf _ _ []). rewrite Hd, app_nil_r, <- app_assoc. done.
Qed.

(** A fragment starts with the first 13 bytes of its packet, the ID and the destination; then come the indicator, the
    numbers modulo 16, no hops, and the piece of the packet it carries. A piece outside the packet throws. *)
Theorem fragment_init b p start len no total :
  buf_ok b -> buf_ok p -> 13 <= size p -> 0 <= start < 2 ^ 30 -> 0 <= len < 2 ^ 30 -> len + 16 <= capacity b ->
  if size p <? start + len then Fragment.init b p start len no total = Throw OutOfBounds
  else exists f, Fragment.init b p start len no total = Ok f /\ data f = fragment_bytes (data p) start len no total /\
    Fragment.fragmentNumber f = Ok (no mod 16) /\ Fragment.totalFragments f = Ok (total mod 16) /\ Fragment.hops f = Ok 0 /\
    Fragment.packetId f = Packet.packetId p /\ Fragment.destination f = Packet.destination p /\
    Fragment.payload f = Ok (take (Z.to_nat len) (drop (Z.to_nat start) (data p))).
Proof.
  intros Hb Hp Hsz Hs Hn Hc. destruct (Z.ltb_spec (size p) (start + len)) as [Hlt|Hge].
  { unfold Fragment.init. rewrite bind_throw_if_true; [done|]. apply Z.ltb_lt. rewrite u32_small; lia. }
  destruct (fragment_init_data b p start len no total) as (f & E & Hf & Hd); [done..|]. pose proof (zlen_data p Hp) as Hl. unfold size in *.
  destruct (fragment_fields f (data p) start len no total) as (E1 & E2 & E3 & E4 & E5 & _ & E7); [done|done|unfold zlen in *; lia|done|done|lia|].
  exists f. split_and!; try done.
  - unfold Packet.packetId. change ZT_PACKET_IDX_IV with (zlen (@nil Z)). rewrite (at_data p Hp [] (take 8 (data p)) (drop 8 (data p)) 8); [done|cbn; by rewrite take_drop|rewrite length_take; unfold zlen in *; lia].
  - unfold Packet.destination, address_at. rewrite E5, field_slice by (change ZT_PACKET_IDX_DEST with 8; change Address.ZT_ADDRESS_LENGTH with 5; done || lia). done.
Qed.

(** ** A new packet *)

Definition header_bytes (iv : list Z) (dest source : Z) (mac : list Z) (v : Z) : list Z :=
  iv ++ Address.to_bytes dest ++ Address.to_bytes source ++ [0] ++ mac ++ [v].

Lemma split3 (l : list Z) : length l = 18%nat -> exists a d s, l = a ++ d ++ s /\ length a = 8%nat /\ length d = 5%nat /\ length s = 5%nat.
Proof.
  intros Hl. exists (take 8 l), (take 5 (drop 8 l)), (drop 5 (drop 8 l)). rewrite !take_drop. split_and!; try done; rewrite ?length_take, ?length_drop; lia.
Qed.

(** A new packet is its header; the MAC field is what was in the array. *)
Lemma packet_new mem iv dest source v : bytes_ok mem -> zlen mem = ZT_PROTO_MAX_PACKET_LENGTH -> bytes_ok iv -> length iv = 8%nat -> byte_ok v ->
  exists b mac, Packet.Packet mem iv dest source v = Ok b /\ buf_ok b /\ capacity b = ZT_PROTO_MAX_PACKET_LENGTH /\
    data b = header_bytes iv dest source mac v /\ length mac = 8%nat.
Proof.
  intros Hm Hl Hiv Hliv Hv. unfold Packet.Packet, Packet.header, Buffer_sized. rewrite Hl. cbn [Z.ltb Z.compare].
  replace (_ <? _) with false by done. cbn [throw_if mbind outcome_bind].
  assert (buf_ok (mkBuffer mem ZT_PROTO_MIN_PACKET_LENGTH)) as Hb by (split; [|cbn|done]; unfold capacity; cbn [_b _l]; rewrite Hl; by_compute).
  destruct (packet_form _ Hb) as (hdr & fl & mac & body & tail & Ef & Hok); [by_compute|].
  injection Ef as Em Hlen. subst mem. unfold ZT_PROTO_MIN_PACKET_LENGTH, ZT_PACKET_IDX_PAYLOAD, zlen in Hlen.
  destruct body as [|x [|y body]]; cbn [length] in Hlen; [lia| |lia]. change (hdr ++ fl :: mac ++ [x] ++ tail) with (hdr ++ [fl] ++ mac ++ [x] ++ tail) in *.
  pose proof Hok as (_ & Hlh & _ & Hbm & Hlm & _). set (p := Address.to_bytes dest). set (q := Address.to_bytes source).
  assert (length p = 5%nat /\ length q = 5%nat) as [Hp Hq] by done.
  destruct (split3 hdr Hlh) as (a & d & s & -> & Ha & Hd & Hs). unfold ZT_PROTO_MIN_PACKET_LENGTH, ZT_PACKET_IDX_PAYLOAD.
  assert (zlen iv = 8 /\ zlen p = 5 /\ zlen q = 5 /\ zlen mac = 8) as (Z1 & Z2 & Z3 & Z4) by (unfold zlen; lia).
  change ZT_PACKET_IDX_IV with (zlen (@nil Z)). rewrite <- (app_assoc a), <- (app_nil_l (a ++ _)), (write_field_split [] a _ iv) by (lia || (unfold zlen; cbn; lia)).
  cbn [mbind outcome_bind]. rewrite app_nil_l. unfold Packet.setDestination. replace ZT_PACKET_IDX_DEST with (zlen iv) by done.
  fold p. rewrite <- (app_assoc d), write_field_split by lia. cbn [mbind outcome_bind]. unfold Packet.setSource. fold q.
  replace ZT_PACKET_IDX_SOURCE with (zlen (iv ++ p)) by (rewrite zlen_app, Z1, Z2; done).
  rewrite (app_assoc iv), write_field_split by (rewrite ?zlen_app; lia). cbn [mbind outcome_bind].
  replace ZT_PACKET_IDX_FLAGS with (zlen ((iv ++ p) ++ q)) by (rewrite !zlen_app, Z1, Z2, Z3; done).
  rewrite (app_assoc (iv ++ p)), setIndex_split by (by_compute || (rewrite !zlen_app, Z1, Z2, Z3; lia)). cbn [mbind outcome_bind]. unfold Packet.setVerb.
  replace ZT_PACKET_IDX_VERB with (zlen ((((iv ++ p) ++ q) ++ [0]) ++ mac)) by (rewrite !zlen_app, Z1, Z2, Z3, Z4; done).
  rewrite (app_assoc ((iv ++ p) ++ q)), (app_assoc (((iv ++ p) ++ q) ++ [0])), setIndex_split by (done || (rewrite !zlen_app, Z1, Z2, Z3, Z4; change (zlen [0]) with 1; lia)).
  eexists _, mac. split; [reflexivity|]. unfold capacity. cbn [_b _l]. split; [|split; [|split; [|done]]].
  - split; unfold capacity; cbn [_b _l].
    + rewrite !zlen_app, Z1, Z2, Z3, Z4. pose proof (zlen_nonneg tail). change (zlen [0]) with 1. change (zlen [v]) with 1. lia.
    + rewrite !zlen_app in Hl |- *. rewrite Z1, Z2, Z3, Z4. change (zlen [0]) with 1. change (zlen [v]) with 1. unfold ZT_PROTO_MAX_PACKET_LENGTH, zlen in *. cbn in Hl. lia.
    + rewrite !bytes_ok_app. destruct Hok as (_ & _ & _ & _ & _ & _ & Ht & _). assert (forall w, bytes_ok (Address.to_bytes w)) as Hw by (intros; unfold Address.to_bytes; repeat (apply list.Forall_cons_2; [apply u8_ok|]); by constructor).
      split_and!; try done; [apply Hw|apply Hw|by_compute|by apply list.Forall_singleton].
  - rewrite !zlen_app in Hl |- *. rewrite Z1, Z2, Z3, Z4. change (zlen [0]) with 1. change (zlen [v]) with 1. unfold zlen in *. cbn in Hl. lia.
  - unfold data. cbn [_b _l]. unfold header_bytes. rewrite (app_assoc _ [v]), take_app_length'; [by rewrite <- !app_assoc|].
    rewrite !length_app, Hliv, Hp, Hq, Hlm. done.
Qed.

(** ** Compression *)

(** LZ4 decompresses what it compressed, if there is room for it. *)
Class Lz4Laws `{PacketCrypto} :=
  lz4_law src room : bytes_ok src -> 0 <= room -> bytes_ok (lz4_compress src room) /\ zlen (lz4_compress src room) <= room /\
    (lz4_compress src room <> [] -> forall room', zlen src <= room' -> lz4_decompress (lz4_compress src room) room' = src).

Definition set_compressed (v : Z) (on : bool) : Z := if on then Z.lor v 0x80 else Z.land v 0x7f.

Lemma compressed_bits v : byte_ok v ->
  Z.land (set_compressed v true) 0x80 = 0x80 /\ Z.land (set_compressed v false) 0x80 = 0 /\
  set_compressed (set_compressed v true) false = set_compressed v false /\ byte_ok (set_compressed v true) /\ byte_ok (set_compressed v false) /\
  (Z.land v 0x80 = 0 -> set_compressed v false = v).
Proof.
  intros H. assert (forallb (fun v => (Z.land (set_compressed v true) 0x80 =? 0x80) && (Z.land (set_compressed v false) 0x80 =? 0) &&
    (set_compressed (set_compressed v true) false =? set_compressed v false) && (0 <=? set_compressed v true) && (set_compressed v true <? 256) &&
    (0 <=? set_compressed v false) && (set_compressed v false <? 256) && (negb (Z.land v 0x80 =? 0) || (set_compressed v false =? v)))
    (seqZ 0 256) = true) as D by (vm_compute; reflexivity).
  apply (byte_cases _ D) in H. unfold byte_ok.
  rewrite !andb_true_iff, orb_true_iff, negb_true_iff, !Z.eqb_eq, !Z.ltb_lt, !Z.leb_le, Z.eqb_neq in H. lia.
Qed.

Section compression.
Context `{PacketCrypto}.

Lemma compressed_form hdr fl mac v pay tail : form_ok hdr fl mac (v :: pay) tail ->
  Packet.compressed (form hdr fl mac (v :: pay) tail) = Ok (negb (Z.land v 0x80 =? 0)).
Proof.
  intros Hok. unfold Packet.compressed. pose proof (form_zlens _ _ _ _ _ Hok). pose proof (zlen_nonneg pay).
  unfold index. rewrite bind_throw_if_false by (apply Z.leb_gt; cbn [_l form]; rewrite zlen_cons in *; unfold ZT_PACKET_IDX_VERB; lia).
  change (mem_read (_b ?b) ?i ?n) with (raw_read b i n).
  rewrite (form_read _ _ _ _ _ ZT_PACKET_IDX_VERB 1 [v] (hdr ++ [fl] ++ mac) (pay ++ tail)); [done|cbn [_b form]; by rewrite <- !app_assoc|idx|done].
Qed.

Lemma raw_verb_flag_form hdr fl mac v pay tail on : form_ok hdr fl mac (v :: pay) tail ->
  Armor.raw_verb_flag (form hdr fl mac (v :: pay) tail) on = Ok (form hdr fl mac (set_compressed v on :: pay) tail).
Proof.
  intros Hok. unfold Armor.raw_verb_flag. pose proof (form_zlens _ _ _ _ _ Hok).
  rewrite (form_read _ _ _ _ _ ZT_PACKET_IDX_VERB 1 [v] (hdr ++ [fl] ++ mac) (pay ++ tail)); [|cbn [_b form]; by rewrite <- !app_assoc|idx|done].
  cbn [mbind outcome_bind]. change (be_int [v]) with v.
  rewrite (form_write _ _ _ _ _ ZT_PACKET_IDX_VERB _ [v] (hdr ++ [fl] ++ mac) (pay ++ tail)); [|cbn [_b form]; by rewrite <- !app_assoc|idx|done].
  unfold form. rewrite !zlen_cons, <- !app_assoc. by destruct on.
Qed.

(** A payload is replaced, after the size was set for it. *)
Lemma resize_form hdr fl mac v pay tail buf : form_ok hdr fl mac (v :: pay) tail -> zlen buf <= zlen pay + zlen tail -> bytes_ok buf ->
  exists tail', (b ← setSize (form hdr fl mac (v :: pay) tail) (zlen buf + ZT_PACKET_IDX_PAYLOAD); raw_write b ZT_PACKET_IDX_PAYLOAD buf) =
    Ok (form hdr fl mac (v :: buf) tail') /\ form_ok hdr fl mac (v :: buf) tail'  /\ zlen buf + zlen tail' = zlen pay + zlen tail.
Proof.
  intros Hok Hl Hb. pose proof (form_zlens _ _ _ _ _ Hok) as Hz. pose proof (form_cap _ _ _ _ _ Hok) as Hc. rewrite zlen_cons in Hz, Hc.
  exists (drop (length buf) (pay ++ tail)). pose proof Hok as (? & ? & ? & ? & ? & Hbv & ? & ?). apply list.Forall_cons in Hbv as [Hv Hp].
  assert (zlen buf + zlen (drop (length buf) (pay ++ tail)) = zlen pay + zlen tail) as Hd by (unfold zlen in *; rewrite length_drop, length_app; lia).
  unfold setSize, raw_write. rewrite bind_throw_if_false by (apply Z.ltb_ge; unfold ZT_PACKET_IDX_PAYLOAD; lia). cbn [mbind outcome_bind _b form].
  replace (hdr ++ [fl] ++ mac ++ (v :: pay) ++ tail) with ((hdr ++ [fl] ++ mac ++ [v]) ++ (pay ++ tail)) by (by rewrite <- !app_assoc).
  replace ZT_PACKET_IDX_PAYLOAD with (zlen (hdr ++ [fl] ++ mac ++ [v])) by (unfold ZT_PACKET_IDX_PAYLOAD; idx).
  rewrite mem_write_split by (unfold zlen in *; rewrite length_app; lia). cbn [mbind outcome_bind]. split; [|split; [|done]].
  - unfold form. rewrite <- !app_assoc, zlen_cons. cbn [_l]. do 2 f_equal. idx.
  - split_and!; try done; [by constructor|by apply list.Forall_drop, bytes_ok_app|]. rewrite zlen_cons. lia.
Qed.

Lemma read_payload hdr fl mac v pay tail : form_ok hdr fl mac (v :: pay) tail ->
  raw_read (form hdr fl mac (v :: pay) tail) ZT_PACKET_IDX_PAYLOAD (size (form hdr fl mac (v :: pay) tail) - ZT_PACKET_IDX_PAYLOAD) = Ok pay.
Proof.
  intros Hok. pose proof (form_zlens _ _ _ _ _ Hok).
  apply form_read with (pre := hdr ++ [fl] ++ mac ++ [v]) (post := tail); [cbn [_b form]; by rewrite <- !app_assoc| |];
    unfold size, ZT_PACKET_IDX_PAYLOAD; cbn [_l form]; rewrite ?zlen_cons; idx.
Qed.

Lemma uncompress_plain hdr fl mac v pay tail (b := form hdr fl mac (v :: pay) tail) : form_ok hdr fl mac (v :: pay) tail ->
  Z.land v 0x80 = 0 -> Armor.uncompress b = Ok (b, true).
Proof. intros Ht Hv. unfold Armor.uncompress, b. by rewrite compressed_form, Hv. Qed.

Lemma uncompress_form hdr fl mac v pay tail : form_ok hdr fl mac (v :: pay) tail -> Z.land v 0x80 <> 0 -> 0 < zlen pay ->
  let buf := lz4_decompress pay ZT_PROTO_MAX_PACKET_LENGTH in bytes_ok buf -> 0 < zlen buf <= zlen pay + zlen tail ->
  exists tail', Armor.uncompress (form hdr fl mac (v :: pay) tail) = Ok (form hdr fl mac (set_compressed v false :: buf) tail', true) /\
    form_ok hdr fl mac (set_compressed v false :: buf) tail'.
Proof.
  intros Hok Hv Hpos buf Hbuf Hlen. destruct (resize_form hdr fl mac v pay tail buf Hok) as (tail' & E & Hok' & _); [lia|done|].
  exists tail'. split.
  - unfold Armor.uncompress. rewrite compressed_form by done. apply Z.eqb_neq in Hv. rewrite Hv. cbn [mbind outcome_bind negb andb].
    rewrite read_payload by done. unfold capacity, size. change (zlen (_b ?b)) with (capacity b). rewrite form_cap by done. cbn [_l form]. rewrite zlen_cons.
    destruct (Z.leb_spec ZT_PROTO_MIN_PACKET_LENGTH (27 + (1 + zlen pay))) as [|C]; [|unfold ZT_PROTO_MIN_PACKET_LENGTH, ZT_PACKET_IDX_PAYLOAD in C; lia].
    destruct (Z.ltb_spec ZT_PACKET_IDX_PAYLOAD (27 + (1 + zlen pay))) as [|C]; [|unfold ZT_PACKET_IDX_PAYLOAD in C; lia].
    cbn [mbind outcome_bind]. fold buf. destruct (Z.ltb_spec 0 (zlen buf)) as [|]; [|lia].
    destruct (Z.leb_spec (zlen buf) (27 + (1 + zlen pay) + zlen tail - ZT_PACKET_IDX_PAYLOAD)) as [|C]; [|unfold ZT_PACKET_IDX_PAYLOAD in C; lia].
    cbn [andb]. destruct (setSize _ _) as [b1| |]; [|discriminate E..]. cbn [mbind outcome_bind] in *. rewrite E. cbn [mbind outcome_bind].
    by rewrite raw_verb_flag_form.
  - pose proof Hok' as (? & ? & ? & ? & ? & Hb & ? & ?). apply list.Forall_cons in Hb as [Hb ?]. destruct (compressed_bits v Hb) as (_ & _ & _ & _ & ? & _).
    split_and!; try done. by constructor.
Qed.

(** [compress] replaces the payload by a shorter one or changes nothing. *)
Lemma compress_form `{!Lz4Laws} hdr fl mac v pay tail (b := form hdr fl mac (v :: pay) tail) : form_ok hdr fl mac (v :: pay) tail ->
  Z.land v 0x80 = 0 ->
  let buf := lz4_compress pay (ZT_PROTO_MAX_PACKET_LENGTH * 2) in
  Armor.compress b = Ok (b, false) \/
  exists tail', Armor.compress b = Ok (form hdr fl mac (set_compressed v true :: buf) tail', true) /\
    form_ok hdr fl mac (set_compressed v true :: buf) tail' /\ 0 < zlen buf < zlen pay /\ zlen buf + zlen tail' = zlen pay + zlen tail.
Proof.
  intros Hok Hv buf. pose proof Hok as (? & ? & ? & ? & ? & Hbv & ? & ?). apply list.Forall_cons in Hbv as [Hvb Hp].
  destruct (compressed_bits v Hvb) as (_ & _ & _ & Hvon & _ & Hid). specialize (Hid Hv).
  assert ((x ← Armor.raw_verb_flag b false; Ok (x, false)) = Ok (b, false)) as Hno by (unfold b; by rewrite raw_verb_flag_form, Hid).
  pose proof (compressed_form _ _ _ _ _ _ Hok) as Ec. rewrite Hv in Ec. fold b in Ec. unfold Armor.compress. rewrite Ec. cbn [mbind outcome_bind Z.eqb negb andb].
  destruct (_ <? size b); [|by left]. pose proof (read_payload _ _ _ _ _ _ Hok) as Er. fold b in Er. rewrite Er. cbn [mbind outcome_bind]. fold buf.
  destruct (lz4_law pay (ZT_PROTO_MAX_PACKET_LENGTH * 2) Hp ltac:(done)) as (Hlb & _ & _). fold buf in Hlb.
  assert (size b - ZT_PACKET_IDX_PAYLOAD = zlen pay) as -> by (unfold b, size, ZT_PACKET_IDX_PAYLOAD; cbn [_l form]; rewrite zlen_cons; lia).
  destruct (Z.ltb_spec 0 (zlen buf)) as [Hpos|]; [|by left]. destruct (Z.ltb_spec (zlen buf) (zlen pay)) as [Hlt|]; [|by left]. right. cbn [andb].
  assert (form_ok hdr fl mac (set_compressed v true :: pay) tail) as Hok1 by (split_and!; try done; by constructor).
  destruct (resize_form hdr fl mac _ pay tail buf Hok1) as (tail' & E & Hok' & Ht); [pose proof (zlen_nonneg tail); lia|done|].
  exists tail'. split; [|done]. unfold b. rewrite raw_verb_flag_form by done. cbn [mbind outcome_bind].
  destruct (setSize _ _) as [b1| |]; [|discriminate E..]. cbn [mbind outcome_bind] in *. by rewrite E.
Qed.

Lemma compress_undone `{!Lz4Laws} b : buf_ok b -> capacity b = ZT_PROTO_MAX_PACKET_LENGTH -> ZT_PROTO_MIN_PACKET_LENGTH <= size b ->
  Packet.compressed b = Ok false ->
  exists c on r, Armor.compress b = Ok (c, on) /\ Armor.uncompress c = Ok (r, true) /\ data r = data b /\ buf_ok r /\
    Packet.compressed c = Ok on /\ (if on then size c < size b else c = b).
Proof.
  intros Hb Hcap Hsz Hv. unfold ZT_PROTO_MIN_PACKET_LENGTH, ZT_PACKET_IDX_PAYLOAD in Hsz.
  destruct (packet_form b Hb) as (hdr & fl & mac & body & tail & -> & Hok); [unfold size in Hsz; lia|].
  pose proof (form_zlens _ _ _ _ _ Hok) as Hz. rewrite form_cap in Hcap by done. unfold size in Hsz. cbn [_l form] in Hsz.
  destruct body as [|v pay]; [change (@zlen Z []) with 0 in Hsz; lia|]. rewrite zlen_cons in Hz, Hcap, Hsz.
  rewrite compressed_form in Hv by done. injection Hv as Hv%negb_false_iff%Z.eqb_eq.
  pose proof Hok as (_ & _ & _ & _ & _ & Hbv & _). apply list.Forall_cons in Hbv as [Hvb Hp].
  destruct (compress_form _ _ _ _ _ _ Hok Hv) as [E|(tail' & E & Hok' & Hlt & Hlen)]; rewrite E.
  { eexists _, _, _. split; [reflexivity|]. rewrite uncompress_plain by done. split; [reflexivity|]. split; [done|]. split; [by apply form_buf_ok|]. by rewrite compressed_form, Hv. }
  destruct (lz4_law pay (ZT_PROTO_MAX_PACKET_LENGTH * 2) Hp ltac:(done)) as (_ & _ & Hll). set (buf := lz4_compress _ _) in *.
  assert (lz4_decompress buf ZT_PROTO_MAX_PACKET_LENGTH = pay) as Hd.
  { apply Hll; [intros C; rewrite C in Hlt; change (@zlen Z []) with 0 in Hlt; lia|]. lia. }
  destruct (compressed_bits v Hvb) as (Hon & _ & Hofo & _ & _ & Hid).
  destruct (uncompress_form _ _ _ _ _ _ Hok') as (tail2 & E2 & Hok2); rewrite ?Hd; [rewrite Hon; done|lia|done|lia|].
  eexists _, _, _. split; [reflexivity|]. rewrite E2, Hd, Hofo, Hid by done. rewrite Hd, Hofo, Hid in Hok2 by done. split; [reflexivity|]. split; [by rewrite !form_data|]. split; [by apply form_buf_ok|].
  rewrite compressed_form, Hon by done. split; [done|]. unfold size. cbn [_l form]. rewrite !zlen_cons. lia.
Qed.

(** What is sent as a new packet with payload [bs], compressed or not, is the same packet again after decompression. *)
Lemma sent_packet `{!Lz4Laws} b iv dest source mac v bs : buf_ok b -> capacity b = ZT_PROTO_MAX_PACKET_LENGTH -> length iv = 8%nat -> length mac = 8%nat ->
  byte_ok v -> Z.land v 0x80 = 0 -> data b = header_bytes iv dest source mac v ++ bs ->
  exists c on r, Armor.compress b = Ok (c, on) /\ Armor.uncompress c = Ok (r, true) /\ buf_ok r /\ data r = header_bytes iv dest source mac v ++ bs.
Proof.
  intros Hb Hcap Hiv Hmac Hv Hv0 Hd. destruct (compress_undone b Hb Hcap) as (c & on & r & E1 & E2 & Hdr & Hr & _).
  - unfold size. rewrite <- zlen_data, Hd, zlen_app by done. pose proof (zlen_nonneg bs). assert (zlen (header_bytes iv dest source mac v) = 28) as ->; [|unfold ZT_PROTO_MIN_PACKET_LENGTH, ZT_PACKET_IDX_PAYLOAD; lia].
    unfold header_bytes, zlen. rewrite !length_app, Hiv, Hmac. done.
  - unfold Packet.compressed. assert (index b ZT_PACKET_IDX_VERB = Ok v) as ->; [|unfold mbind, outcome_bind, Packet.ZT_PROTO_VERB_FLAG_COMPRESSED; by rewrite Hv0].
    replace ZT_PACKET_IDX_VERB with (zlen (iv ++ Address.to_bytes dest ++ Address.to_bytes source ++ [0] ++ mac)) by (unfold zlen; rewrite !length_app, Hiv, Hmac; done).
    apply (index_data b Hb _ _ bs). rewrite Hd. unfold header_bytes. by rewrite <- !app_assoc.
  - exists c, on, r. by rewrite <- Hd.
Qed.

Lemma zlen_header_bytes iv dest source mac v : length iv = 8%nat -> length mac = 8%nat -> zlen (header_bytes iv dest source mac v) = 28.
Proof. intros Hiv Hmac. unfold header_bytes, zlen. rewrite !length_app, Hiv, Hmac. done. Qed.

(** What [compress] does to a packet that is not compressed, [uncompress] undoes; the packet only gets smaller. *)
Theorem compress_uncompress `{!Lz4Laws} b : buf_ok b -> capacity b = ZT_PROTO_MAX_PACKET_LENGTH -> ZT_PROTO_MIN_PACKET_LENGTH <= size b ->
  Packet.compressed b = Ok false ->
  exists c on r, Armor.compress b = Ok (c, on) /\ Armor.uncompress c = Ok (r, true) /\ data r = data b /\
    Packet.compressed c = Ok on /\ (if on then size c < size b else c = b).
Proof.
  intros Hb Hcap Hsz Hv. destruct (compress_undone b Hb Hcap Hsz Hv) as (c & on & r & Ec & Eu & Hd & _ & Hr). by exists c, on, r.
Qed.
End compression.

(** ** Witnesses *)

Definition checksum (l : list Z) : list Z := be_bytes 8 (foldr (fun x a => (a * 31 + x) mod 2 ^ 64) 7 l).

(** A cipher that adds a key byte, a checksum as its tag, key agreement in the integers modulo 256, and run lengths. *)
#[export] Instance toy_packet_crypto : PacketCrypto := {
  gmac_siv_encrypt ks iv aad p := ((u8 <$> iv) ++ checksum (ks.1 ++ (u8 <$> iv) ++ aad ++ p), Z.lxor (u8 (nth 0 ks.2 0)) <$> p);
  gmac_siv_decrypt ks tag aad c :=
    let p := Z.lxor (u8 (nth 0 ks.2 0)) <$> c in (bool_decide (drop 8 tag = checksum (ks.1 ++ take 8 tag ++ aad ++ p)), p);
  aes_ctr k iv ic d := Z.lxor (u8 (nth 0 k 0 + nth 0 iv 0 + ic)) <$> d;
  ecc_agree priv pub := zip_with (fun a b => u8 (a * b)) priv pub;
  lz4_compress src room :=
    match src with
    | x :: l => if forallb (Z.eqb x) l && (zlen src <? 2 ^ 16) && (3 <=? room) then x :: be_bytes 2 (zlen src) else []
    | [] => []
    end;
  lz4_decompress c room :=
    match c with
    | x :: n => if be_int n <=? room then replicate (Z.to_nat (be_int n)) x else []
    | [] => []
    end;
}.

Lemma lxor_u8_bytes k p : bytes_ok p -> bytes_ok (Z.lxor (u8 k) <$> p) /\ Z.lxor (u8 k) <$> (Z.lxor (u8 k) <$> p) = p.
Proof.
  intros Hp. split.
  - apply list.Forall_fmap. eapply list.Forall_impl; [exact Hp|]. intros x Hx. cbn. apply (lxor_range _ _ 8); [done|apply u8_ok|done].
  - rewrite <- list_fmap_compose. etransitivity; [|apply list_fmap_id]. apply list_fmap_ext. intros i x _. cbn.
    by rewrite <- Z.lxor_assoc, Z.lxor_nilpotent.
Qed.

#[export] Instance toy_packet_laws : PacketCryptoLaws.
Proof.
  split.
  - intros ks iv aad p Hl Hp. cbn [gmac_siv_encrypt gmac_siv_decrypt toy_packet_crypto fst snd].
    destruct (lxor_u8_bytes (nth 0 ks.2 0) p Hp) as [Hb Hi]. split_and!; try done.
    + apply bytes_ok_app. split; [|apply bytes_ok_be_bytes]. apply list.Forall_fmap, list.Forall_true. intros x. apply u8_ok.
    + rewrite length_app, length_fmap, Hl. done.
    + by rewrite length_fmap.
    + rewrite drop_app_length', take_app_length' by (by rewrite length_fmap). rewrite Hi. by rewrite bool_decide_eq_true_2.
  - intros k iv ic d Hd. cbn. destruct (lxor_u8_bytes (nth 0 k 0 + nth 0 iv 0 + ic) d Hd). split_and!; try done. by rewrite length_fmap.
Qed.

#[export] Instance toy_lz4_laws : Lz4Laws.
Proof.
  intros [|x l] room Hb Hr; cbn [lz4_compress toy_packet_crypto]; [split_and!; [by constructor|done|done]|].
  destruct (_ && _) eqn:E; [|split_and!; [by constructor|done|done]].
  rewrite !andb_true_iff, forallb_forall, Z.ltb_lt, Z.leb_le in E. destruct E as [[Heq Hlt] Hroom]. apply list.Forall_cons in Hb as [Hx _].
  split_and!.
  - constructor; [done|apply bytes_ok_be_bytes].
  - rewrite zlen_cons, zlen_be_bytes. lia.
  - intros _ room' Hle. cbn [lz4_decompress toy_packet_crypto]. rewrite be_int_be_bytes, Z.mod_small by (pose proof (zlen_nonneg (x :: l)); lia).
    rewrite (proj2 (Z.leb_le _ _)) by done. unfold zlen. rewrite Nat2Z.id. cbn [length replicate]. f_equal. apply replicate_as_elem_of.
    split; [done|]. intros y Hy. symmetry. apply Z.eqb_eq, Heq. by apply list_elem_of_In.
Qed.

Definition toy_packet : Buffer := mkBuffer (seqZ 0 18 ++ [0] ++ replicate 8 0 ++ [1] ++ replicate 72 5 ++ replicate (7 * 1432 - 100) 0) 100.
Definition toy_key : list Z := seqZ 1 32.
Definition toy_scratch : list Z := replicate 64 9.

Lemma toy_packet_ok : buf_ok toy_packet.
Proof. split; [split; by_compute|by_compute|by_compute]. Qed.
Lemma toy_key_ok : key_ok toy_key.
Proof. split; by_compute. Qed.
Lemma toy_scratch_ok : scratch_ok toy_scratch (replicate 16 3).
Proof. split; [split|]; by_compute. Qed.

(** A HELLO with the second layer, relayed three times, with the key pairs [(a, a)] of the toy agreement. *)
Lemma armor_dearmor_witness :
  exists q q' r, Armor.armor toy_scratch (replicate 16 3) toy_packet toy_key false true None (toy_key, toy_key) (replicate 32 3) = Ok q /\
    relay 3 q = Ok q' /\ Armor.dearmor toy_scratch (replicate 16 3) q' toy_key None (replicate 32 3) = Ok (r, true) /\ recovered toy_packet r.
Proof.
  apply (armor_dearmor (H := toy_packet_crypto) (H0 := toy_packet_laws)); [apply toy_scratch_ok|apply toy_scratch_ok|apply toy_packet_ok|by_compute|apply toy_key_ok|done|].
  intros _. split; [done|]. split; [apply toy_key_ok|]. split; [vm_compute; reflexivity|by_compute].
Defined.

(** A packet with the second layer and a forged MAC is refused, once the layer is decrypted. *)
Definition toy_layered : Buffer := mkBuffer (seqZ 0 18 ++ [0x80] ++ replicate 8 0 ++ [1] ++ replicate 72 5 ++ replicate (7 * 1432 - 100) 0) 100.
Lemma toy_layered_ok : buf_ok toy_layered.
Proof. split; [split; by_compute|by_compute|by_compute]. Qed.

Lemma dearmor_authentic_witness :
  exists r, Armor.dearmor toy_scratch (replicate 16 3) toy_layered toy_key None (replicate 32 3) = Ok (r, false) /\ inner (data toy_layered) 0x80 (replicate 32 3) = Some (data r).
Proof.
  destruct (dearmor_authentic (H := toy_packet_crypto) (H0 := toy_packet_laws) toy_scratch (replicate 16 3) toy_layered toy_key None (replicate 32 3) 0x80) as (r & ok & E & D);
    [apply toy_scratch_ok|apply toy_layered_ok|by_compute|apply toy_key_ok|vm_compute; reflexivity|by right|].
  destruct (inner (data toy_layered) 0x80 (replicate 32 3)) as [d|] eqn:Ei; [|vm_compute in Ei; discriminate Ei].
  destruct ok; [exfalso|exists r; split; [exact E|]; destruct D as [_ ->]; reflexivity].
  assert ((snd <$> match Armor.dearmor toy_scratch (replicate 16 3) toy_layered toy_key None (replicate 32 3) with Ok x => Some x | _ => None end) = Some false) as F by (vm_compute; reflexivity).
  rewrite E in F. discriminate F.
Defined.

Lemma fragment_init_witness :
  exists f, Fragment.init toy_packet toy_packet 60 30 2 3 = Ok f /\ Fragment.fragmentNumber f = Ok 2 /\ Fragment.totalFragments f = Ok 3 /\
    Fragment.payload f = Ok (replicate 30 5).
Proof.
  pose proof (fragment_init toy_packet toy_packet 60 30 2 3 toy_packet_ok toy_packet_ok) as H.
  destruct H as (f & E & _ & E1 & E2 & _ & _ & _ & E3); [by_compute|lia|lia|by_compute|]. exists f. by rewrite E, E1, E2, E3.
Defined.

Lemma compress_uncompress_witness :
  exists c r, Armor.compress toy_packet = Ok (c, true) /\ Armor.uncompress c = Ok (r, true) /\ data r = data toy_packet /\ size c = 31.
Proof.
  destruct (compress_uncompress (H := toy_packet_crypto) (H0 := toy_lz4_laws) toy_packet) as (c & on & r & E & E2 & E3 & _);
    [apply toy_packet_ok|by_compute|by_compute|vm_compute; reflexivity|].
  exists c, r. assert (on = true) as -> by (revert E; vm_compute; by intros [= _ <-]).
  split; [exact E|]. split; [exact E2|]. split; [exact E3|]. revert E. vm_compute. by intros [= <-].
Defined.
