(* ===== verification/InetAddress.v ===== *)
(** * IP addresses (node/InetAddress.hpp, node/InetAddress.cpp) and multicast groups
    (node/MulticastGroup.hpp)

    The C++ object is a [sockaddr_storage]. The core only stores the families 0 (null),
    AF_INET and AF_INET6 in it, one constructor each; the port field doubles as the number of
    netmask bits. An IPv4 address is its value in host order ([ntoh(s_addr)]), an IPv6 address
    its 16 bytes. A shift by the width of the type or more is undefined behaviour in C++ and
    [Undef] here. *)

From S2P Require Import Prelude Buffer Serial Address.

Inductive InetAddress :=
  | INil
  | IV4 (ip port : Z)
  | IV6 (ip : list Z) (port flowinfo scope : Z).

#[export] Instance InetAddress_eq_dec : EqDecision InetAddress.
Proof. solve_decision. Defined.

Definition ip_ok (a : InetAddress) : Prop :=
  match a with
  | INil => True
  | IV4 ip port => 0 <= ip < 2 ^ 32 /\ 0 <= port < 2 ^ 16
  | IV6 ip port flow scope => bytes_ok ip /\ length ip = 16%nat /\ 0 <= port < 2 ^ 16 /\
      0 <= flow < 2 ^ 32 /\ 0 <= scope < 2 ^ 32
  end.

(** [enum IpScope] *)
Inductive IpScope :=
  | IP_SCOPE_NONE | IP_SCOPE_MULTICAST | IP_SCOPE_LOOPBACK | IP_SCOPE_PSEUDOPRIVATE
  | IP_SCOPE_GLOBAL | IP_SCOPE_LINK_LOCAL | IP_SCOPE_SHARED | IP_SCOPE_PRIVATE.

#[export] Instance IpScope_eq_dec : EqDecision IpScope.
Proof. solve_decision. Defined.

Definition IpScope_int (s : IpScope) : Z :=
  match s with
  | IP_SCOPE_NONE => 0 | IP_SCOPE_MULTICAST => 1 | IP_SCOPE_LOOPBACK => 2
  | IP_SCOPE_PSEUDOPRIVATE => 3 | IP_SCOPE_GLOBAL => 4 | IP_SCOPE_LINK_LOCAL => 5
  | IP_SCOPE_SHARED => 6 | IP_SCOPE_PRIVATE => 7
  end.

(** [ip[i]] for an index the code keeps below the array's size. *)
Definition nth_byte (ip : list Z) (i : nat) : Z := nth i ip 0.

(** ** Scope *)

(** The second [switch], on the top four bits. *)
Definition ipScope_v4_class (ip : Z) : IpScope :=
  if Z.shiftr ip 28 =? 0xe then IP_SCOPE_MULTICAST
  else if Z.shiftr ip 28 =? 0xf then IP_SCOPE_PSEUDOPRIVATE
  else IP_SCOPE_GLOBAL.

Definition ipScope_v4 (ip : Z) : IpScope :=
  let top := Z.shiftr ip 24 in
  if top =? 0x00 then IP_SCOPE_NONE
  else if bool_decide (top ∈ [0x06; 0x0b; 0x15; 0x16; 0x19; 0x1a; 0x1c; 0x1d; 0x1e; 0x33; 0x37; 0x38])
  then IP_SCOPE_PSEUDOPRIVATE
  else if top =? 0x0a then IP_SCOPE_PRIVATE
  else if (top =? 0x64) && (Z.land ip 0xffc00000 =? 0x64400000) then IP_SCOPE_PRIVATE
  else if top =? 0x7f then IP_SCOPE_LOOPBACK
  else if (top =? 0xa9) && (Z.land ip 0xffff0000 =? 0xa9fe0000) then IP_SCOPE_LINK_LOCAL
  else if (top =? 0xac) && (Z.land ip 0xfff00000 =? 0xac100000) then IP_SCOPE_PRIVATE
  else if (top =? 0xc0) && (Z.land ip 0xffff0000 =? 0xc0a80000) then IP_SCOPE_PRIVATE
  else if (top =? 0xc0) && (Z.land ip 0xffffff00 =? 0xc0000200) then IP_SCOPE_PRIVATE
  else if (top =? 0xc6) && (Z.land ip 0xfffe0000 =? 0xc6120000) then IP_SCOPE_PRIVATE
  else if (top =? 0xc6) && (Z.land ip 0xffffff00 =? 0xc6336400) then IP_SCOPE_PRIVATE
  else if (top =? 0xcb) && (Z.land ip 0xffffff00 =? 0xcb007100) then IP_SCOPE_PRIVATE
  else if top =? 0xff then IP_SCOPE_NONE
  else ipScope_v4_class ip.

(** [while ((! ip[k]) && (k < lim)) ++k;] from [k]: at most [lim - k] steps. *)
Fixpoint skip_zeros (ip : list Z) (k lim : nat) (fuel : nat) : nat :=
  match fuel with
  | O => k
  | S f => if (nth_byte ip k =? 0) && (k <? lim)%nat then skip_zeros ip (S k) lim f else k
  end.

Definition ipScope_v6 (ip : list Z) : IpScope :=
  let b := nth_byte ip in
  let special :=
    if Z.land (b 0%nat) 0xf0 =? 0xf0 then
      if b 0%nat =? 0xff then Some IP_SCOPE_MULTICAST
      else if (b 0%nat =? 0xfe) && (Z.land (b 1%nat) 0xc0 =? 0x80) then
        if (skip_zeros ip 2 15 16 =? 15)%nat && (b 15%nat =? 1) then Some IP_SCOPE_LOOPBACK
        else Some IP_SCOPE_LINK_LOCAL
      else if Z.land (b 0%nat) 0xfe =? 0xfc then Some IP_SCOPE_PRIVATE
      else None
    else None in
  match special with
  | Some s => s
  | None =>
      if (skip_zeros ip 0 9 16 =? 9)%nat && ((b 10%nat =? 0xff) && (b 11%nat =? 0xff) && (b 12%nat =? 0x7f))
      then IP_SCOPE_LOOPBACK
      else if (skip_zeros ip 0 15 16 =? 15)%nat && (b 15%nat =? 1) then IP_SCOPE_LOOPBACK
      else if (skip_zeros ip 0 15 16 =? 15)%nat && (b 15%nat =? 0) then IP_SCOPE_NONE
      else IP_SCOPE_GLOBAL
  end.

Definition ipScope (a : InetAddress) : IpScope :=
  match a with
  | INil => IP_SCOPE_NONE
  | IV4 ip _ => ipScope_v4 ip
  | IV6 ip _ _ _ => ipScope_v6 ip
  end.

(** ** Fields *)

(** [set(ipBytes, ipLen, port)]; [ipLen] is the length of [ipBytes]. *)
Definition set (ipBytes : list Z) (port : Z) : InetAddress :=
  if zlen ipBytes =? 4 then IV4 (be_int ipBytes) (u16 port)
  else if zlen ipBytes =? 16 then IV6 ipBytes (u16 port) 0 0
  else INil.

Definition LO4 : InetAddress := set [0x7f; 0; 0; 1] 0.
Definition LO6 : InetAddress := set [0; 0; 0; 0; 0; 0; 0; 0; 0; 0; 0; 0; 0; 0; 0; 1] 0.

Definition setPort (a : InetAddress) (port : Z) : InetAddress :=
  match a with
  | INil => INil
  | IV4 ip _ => IV4 ip (u16 port)
  | IV6 ip _ f s => IV6 ip (u16 port) f s
  end.

Definition port (a : InetAddress) : Z :=
  match a with INil => 0 | IV4 _ p => p | IV6 _ p _ _ => p end.
Definition netmaskBits : InetAddress -> Z := port.
Definition metric : InetAddress -> Z := port.

Definition isZero (bs : list Z) : bool := forallb (fun b => b =? 0) bs.

Definition isDefaultRoute (a : InetAddress) : bool :=
  match a with
  | INil => false
  | IV4 ip p => (ip =? 0) && (p =? 0)
  | IV6 ip p _ _ => isZero ip && (p =? 0)
  end.

Definition netmaskBitsValid (a : InetAddress) : bool :=
  match a with
  | INil => false
  | IV4 _ n => n <=? 32
  | IV6 _ n _ _ => n <=? 128
  end.

Definition isV4 (a : InetAddress) : bool := match a with IV4 _ _ => true | _ => false end.
Definition isV6 (a : InetAddress) : bool := match a with IV6 _ _ _ _ => true | _ => false end.
Definition valid (a : InetAddress) : bool := match a with INil => false | _ => true end.

(** The bytes behind [rawIpData()]; a null pointer for a null address. *)
Definition rawIpData (a : InetAddress) : option (list Z) :=
  match a with
  | INil => None
  | IV4 ip _ => Some (be_bytes 4 ip)
  | IV6 ip _ _ _ => Some ip
  end.

Definition ipOnly (a : InetAddress) : InetAddress :=
  match a with
  | INil => INil
  | IV4 ip _ => IV4 ip 0
  | IV6 ip _ _ _ => IV6 ip 0 0 0
  end.

Definition ipsEqual (a b : InetAddress) : bool :=
  match a, b with
  | INil, INil => true
  | IV4 x _, IV4 y _ => x =? y
  | IV6 x _ _ _, IV6 y _ _ _ => memcmp x y =? 0
  | _, _ => false
  end.

Definition ipsEqual2 (a b : InetAddress) : bool :=
  match a, b with
  | INil, INil => true
  | IV4 x _, IV4 y _ => x =? y
  | IV6 x _ _ _, IV6 y _ _ _ => memcmp (take 8 x) (take 8 y) =? 0
  | _, _ => false
  end.

(** [operator==] and [operator<]; [s_addr] and [sin_port] are compared as they lie in memory,
    so on the little-endian ESP32 as byte-swapped integers. *)
Definition swapBytes (n : nat) (v : Z) : Z := be_int (rev (be_bytes n v)).

Definition eqb (a b : InetAddress) : bool :=
  match a, b with
  | INil, INil => true
  | IV4 x p, IV4 y q => (p =? q) && (x =? y)
  | IV6 x p f s, IV6 y q g t => (p =? q) && (f =? g) && (memcmp x y =? 0) && (s =? t)
  | _, _ => false
  end.

Definition AF (a : InetAddress) : Z := match a with INil => 0 | IV4 _ _ => 2 | IV6 _ _ _ _ => 10 end.

Definition ltb (a b : InetAddress) : bool :=
  if AF a <? AF b then true
  else match a, b with
       | IV4 x p, IV4 y q =>
           if swapBytes 2 p <? swapBytes 2 q then true
           else (p =? q) && (swapBytes 4 x <? swapBytes 4 y)
       | IV6 x p f s, IV6 y q g t =>
           if swapBytes 2 p <? swapBytes 2 q then true
           else if p =? q then
             if f <? g then true
             else if f =? g then
               if memcmp x y <? 0 then true
               else (memcmp x y =? 0) && (s <? t)
             else false
           else false
       | _, _ => false
       end.

(** ** Netmasks *)

(** [x << n] and [x >> n] on a [w]-bit unsigned type; [n] is an [unsigned int]. *)
Definition shl (w x n : Z) : outcome Z := if n <? w then Ok (wrap w (Z.shiftl x n)) else Undef.
Definition shr (w x n : Z) : outcome Z := if n <? w then Ok (Z.shiftr x n) else Undef.

Definition ones64 : Z := 0xffffffffffffffff.

(** The two mask words of a [bits]-bit IPv6 prefix: [(bits >= 64) ? ~0 : (~0 << (64 - bits))]
    and [(bits <= 64) ? 0 : (~0 << (128 - bits))], with the differences in [unsigned int]. *)
Definition mask_hi (bits : Z) : outcome Z := if 64 <=? bits then Ok ones64 else shl 64 ones64 (u32 (64 - bits)).
Definition mask_lo (bits : Z) : outcome Z := if bits <=? 64 then Ok 0 else shl 64 ones64 (u32 (128 - bits)).

Definition netmask (a : InetAddress) : outcome InetAddress :=
  match a with
  | INil => Ok INil
  | IV4 _ bits => m ← shl 32 0xffffffff (u32 (32 - bits)); Ok (IV4 m bits)
  | IV6 _ bits f s =>
      if bits =? 0 then Ok (IV6 (replicate 16 0) bits f s)
      else hi ← mask_hi bits; lo ← mask_lo bits;
           Ok (IV6 (be_bytes 8 hi ++ be_bytes 8 lo) bits f s)
  end.

Definition broadcast (a : InetAddress) : outcome InetAddress :=
  match a with
  | IV4 ip bits => m ← shr 32 0xffffffff bits; Ok (IV4 (Z.lor ip m) bits)
  | _ => Ok INil
  end.

Definition network (a : InetAddress) : outcome InetAddress :=
  match a with
  | INil => Ok INil
  | IV4 ip bits => m ← shl 32 0xffffffff (u32 (32 - bits)); Ok (IV4 (Z.land ip m) bits)
  | IV6 ip bits f s =>
      hi ← mask_hi bits; lo ← mask_lo bits;
      Ok (IV6 (zip_with Z.land ip (be_bytes 8 hi ++ be_bytes 8 lo)) bits f s)
  end.

(** The bytes of a netmask that was computed for an IPv6 address. *)
Definition mask_bytes (m : InetAddress) : list Z :=
  match m with IV6 ip _ _ _ => ip | _ => [] end.

Definition isEqualPrefix (this addr : InetAddress) : outcome bool :=
  match this, addr with
  | IV6 b _ _ _, IV6 a _ _ _ =>
      mask ← netmask this; addr_mask ← netmask addr;
      Ok (bool_decide (zip_with Z.land a (mask_bytes mask) = zip_with Z.land b (mask_bytes addr_mask)))
  | _, _ => Ok false
  end.

Definition containsAddress (this addr : InetAddress) : outcome bool :=
  match this, addr with
  | IV4 b bits, IV4 a _ =>
      if bits =? 0 then Ok true
      else x ← shr 32 a (u32 (32 - bits)); y ← shr 32 b (u32 (32 - bits)); Ok (x =? y)
  | IV6 b _ _ _, IV6 a _ _ _ =>
      mask ← netmask this;
      Ok (bool_decide (zip_with Z.land a (mask_bytes mask) = b))
  | _, _ => Ok false
  end.

Definition isNetwork (a : InetAddress) : bool :=
  match a with
  | INil => false
  | IV4 ip bits =>
      if bits <=? 0 then false else if 32 <=? bits then false
      else Z.land ip (Z.shiftr 0xffffffff bits) =? 0
  | IV6 ip bits _ _ =>
      if bits <=? 0 then false else if 128 <=? bits then false
      else let p := Z.to_nat (bits / 8) in
           if negb (Z.land (nth_byte ip p) (Z.shiftr 0xff (bits mod 8)) =? 0) then false
           else isZero (drop (S p) ip)
  end.

(** [while ((ip0 >> 31) == (ip1 >> 31)) { ip0 <<= 1; ip1 <<= 1; if (++c == 32) break; }] *)
Fixpoint matching_bits_v4 (fuel : nat) (ip0 ip1 c : Z) : Z :=
  match fuel with
  | O => c
  | S n =>
      if Z.shiftr ip0 31 =? Z.shiftr ip1 31 then
        if c + 1 =? 32 then c + 1
        else matching_bits_v4 n (u32 (Z.shiftl ip0 1)) (u32 (Z.shiftl ip1 1)) (c + 1)
      else c
  end.

(** [while (bit != 0) { if ((x & bit) != (y & bit)) break; ++c; bit >>= 1; }] *)
Fixpoint matching_bits_byte (fuel : nat) (x y bit c : Z) : Z :=
  match fuel with
  | O => c
  | S n =>
      if bit =? 0 then c
      else if Z.land x bit =? Z.land y bit then matching_bits_byte n x y (Z.shiftr bit 1) (c + 1)
      else c
  end.

Fixpoint matching_bits_v6 (ip0 ip1 : list Z) (c : Z) : Z :=
  match ip0, ip1 with
  | x :: ip0', y :: ip1' =>
      if x =? y then matching_bits_v6 ip0' ip1' (c + 8) else matching_bits_byte 9 x y 0x80 c
  | _, _ => c
  end.

Definition matchingPrefixBits (a b : InetAddress) : Z :=
  match a, b with
  | IV4 x _, IV4 y _ => matching_bits_v4 32 x y 0
  | IV6 x _ _ _, IV6 y _ _ _ => matching_bits_v6 x y 0
  | _, _ => 0
  end.

(** 32-bit [unsigned long]. *)
Definition rateGateHash (a : InetAddress) : Z :=
  let h :=
    match a with
    | INil => 0
    | IV4 ip _ => let h := Z.shiftr (Z.land ip 0xffffff00) 8 in Z.lxor h (Z.shiftr h 14)
    | IV6 ip _ _ _ =>
        fold_left (fun h i => u32 (u32 (Z.shiftl h 1) + nth_byte ip i)) [1; 2; 3; 4; 5]%nat (nth_byte ip 0)
    end in
  Z.land h 0x3fff.

(** ** Derived addresses *)

(** [makeIpv6LinkLocal]: [sin6] is a local variable that is never initialised; [flow] and
    [scope] are what [sin6_flowinfo] and [sin6_scope_id] happen to hold. *)
Definition makeIpv6LinkLocal (flow scope mac : Z) : InetAddress :=
  IV6 [0xfe; 0x80; 0; 0; 0; 0; 0; 0; Z.land (MAC.index mac 0) 0xfd; MAC.index mac 1; MAC.index mac 2;
       0xff; 0xfe; MAC.index mac 3; MAC.index mac 4; MAC.index mac 5] 64 flow scope.

Definition byte_at (x k : Z) : Z := u8 (Z.shiftr x k).

Definition makeIpv6rfc4193 (nwid zeroTierAddress : Z) : InetAddress :=
  IV6 [0xfd; byte_at nwid 56; byte_at nwid 48; byte_at nwid 40; byte_at nwid 32; byte_at nwid 24;
       byte_at nwid 16; byte_at nwid 8; u8 nwid; 0x99; 0x93; byte_at zeroTierAddress 32;
       byte_at zeroTierAddress 24; byte_at zeroTierAddress 16; byte_at zeroTierAddress 8;
       u8 zeroTierAddress] 88 0 0.

Definition makeIpv66plane (nwid zeroTierAddress : Z) : InetAddress :=
  let nwid := Z.lxor nwid (Z.shiftr nwid 32) in
  IV6 [0xfc; byte_at nwid 24; byte_at nwid 16; byte_at nwid 8; u8 nwid; byte_at zeroTierAddress 32;
       byte_at zeroTierAddress 24; byte_at zeroTierAddress 16; byte_at zeroTierAddress 8;
       u8 zeroTierAddress; 0; 0; 0; 0; 0; 0x01] 40 0 0.

(** ** Wire form *)

Definition inet_serialize (b : Buffer) (a : InetAddress) : outcome Buffer :=
  match a with
  | IV4 ip p =>
      b ← append_int 1 b 0x04; b ← append b (be_bytes 4 ip); append_int 2 b p
  | IV6 ip p _ _ =>
      b ← append_int 1 b 0x06; b ← append b ip; append_int 2 b p
  | INil => append_int 1 b 0
  end.

Definition inet_deserialize (b : Buffer) (startAt : Z) : outcome (InetAddress * Z) :=
  let p := startAt in
  t ← index b p; let p := p + 1 in
  if t =? 0 then Ok (INil, 1)
  else if (t =? 0x01) || (t =? 0x02) then Ok (INil, 7)
  else if t =? 0x03 then n ← at_ 2 b p; Ok (INil, n + 3)
  else if t =? 0x04 then
    ip ← field b p 4; let p := p + 4 in
    pt ← at_ 2 b p; let p := p + 2 in
    Ok (IV4 (be_int ip) pt, p - startAt)
  else if t =? 0x06 then
    ip ← field b p 16; let p := p + 16 in
    pt ← at_ 2 b p; let p := p + 2 in
    Ok (IV6 ip pt 0 0, p - startAt)
  else Throw BadEncoding.

(** ** Multicast groups *)

Record MulticastGroup := mkMulticastGroup { _mac : Z; _adi : Z }.

#[export] Instance MulticastGroup_eq_dec : EqDecision MulticastGroup.
Proof. solve_decision. Defined.

Module MG.
Definition default : MulticastGroup := mkMulticastGroup 0 0.

Definition deriveMulticastGroupForAddressResolution (ip : InetAddress) : MulticastGroup :=
  match ip with
  | IV4 a _ => mkMulticastGroup (MAC.of_int 0xffffffffffff) a
  | IV6 a _ _ _ =>
      mkMulticastGroup (MAC.of_octets 0x33 0x33 0xff (nth_byte a 13) (nth_byte a 14) (nth_byte a 15)) 0
  | INil => default
  end.

Definition hashCode (g : MulticastGroup) : Z := Z.lxor (MAC.hashCode (_mac g)) (_adi g).
Definition eqb (a b : MulticastGroup) : bool := (_mac a =? _mac b) && (_adi a =? _adi b).
Definition ltb (a b : MulticastGroup) : bool :=
  if _mac a <? _mac b then true
  else if _mac a =? _mac b then _adi a <? _adi b else false.
End MG.

(** ** Serialisation laws *)

Definition inet_enc (a : InetAddress) : list Z :=
  match a with
  | INil => be_bytes 1 0
  | IV4 ip p => be_bytes 1 4 ++ be_bytes 4 ip ++ be_bytes 2 p
  | IV6 ip p _ _ => be_bytes 1 6 ++ ip ++ be_bytes 2 p
  end.

(** Flow label and scope of an IPv6 address have no place on the wire. *)
Definition inet_wf (a : InetAddress) : Prop :=
  ip_ok a /\ match a with IV6 _ _ f s => f = 0 /\ s = 0 | _ => True end.

#[export] Instance inet_serial : Serial InetAddress := {
  ser_wf := inet_wf; ser_enc := inet_enc;
  serialize := inet_serialize; deserialize := inet_deserialize }.

Lemma inet_bytes a : inet_wf a -> bytes_ok (inet_enc a).
Proof.
  destruct a; intros [Hok _]; unfold inet_enc; rewrite ?bytes_ok_app; auto with bytes.
  destruct Hok as (? & _). auto with bytes.
Qed.

Lemma inet_writes a b : inet_wf a -> buf_ok b -> writes b (inet_enc a) (inet_serialize b a).
Proof.
  intros [Hok _] Hb. destruct a as [|ip p|ip p f s].
  - by apply append_int_writes.
  - unfold inet_enc, inet_serialize. apply writes_bind; [done|by apply append_int_writes|].
    intros b1 H1 _ _. apply writes_bind; [done|apply append_writes; auto with bytes|].
    intros b2 H2 _ _. by apply append_int_writes.
  - destruct Hok as (Hbytes & Hlen & _). assert (zlen ip = 16) by (unfold zlen; by rewrite Hlen).
    unfold inet_enc, inet_serialize. apply writes_bind; [done|by apply append_int_writes|].
    intros b1 H1 _ _. apply writes_bind; [done|apply append_writes; auto with bytes|].
    intros b2 H2 _ _. by apply append_int_writes.
Qed.

Lemma inet_reads a b p rest :
  inet_wf a -> buf_ok b -> rest_at b p (inet_enc a ++ rest) ->
  inet_deserialize b p = Ok (a, zlen (inet_enc a)).
Proof.
  intros [Hok Hwf] Hb Hr. unfold inet_deserialize. destruct a as [|ip pt|ip pt f s];
    unfold inet_enc in Hr; rewrite <- ?app_assoc in Hr; read_step Hb Hr.
  - reflexivity.
  - destruct Hok as [Hip Hpt]. change (u8 4) with 4. cbn [Z.eqb Pos.eqb orb].
    read_step Hb Hr. read_step Hb Hr. rewrite be_int_be_bytes.
    rewrite !Z.mod_small by lia. do 2 f_equal. unfold inet_enc. autorewrite with zlen. lia.
  - destruct Hok as (Hip & Hlen & Hpt & _). destruct Hwf as [-> ->].
    assert (zlen ip = 16) as Hz by (unfold zlen; by rewrite Hlen).
    change (u8 6) with 6. cbn [Z.eqb Pos.eqb orb]. read_step Hb Hr. read_step Hb Hr.
    rewrite !Z.mod_small by lia. do 2 f_equal. unfold inet_enc. autorewrite with zlen. lia.
Qed.

Lemma inet_safe b p :
  buf_ok b -> pos_ok p ->
  returns (fun '(_, n) => p < _l b /\ 1 <= n < 2 ^ 18) (inet_deserialize b p).
Proof.
  intros Hb [Hp1 Hp2]. unfold inet_deserialize.
  repeat returns_step; simpl; lia.
Qed.

#[export] Instance inet_laws : SerialLaws InetAddress := {
  ser_bytes := inet_bytes; ser_writes := inet_writes; ser_reads := inet_reads }.
#[export] Instance inet_serial_safe : SerialSafe InetAddress := inet_safe.

(** ** Prefixes *)

Lemma shl_ones w k : 0 <= w -> 0 <= k < w -> shl w (2 ^ w - 1) k = Ok (2 ^ w - 2 ^ k).
Proof.
  intros Hw Hk. unfold shl. rewrite (proj2 (Z.ltb_lt k w)) by lia. f_equal.
  unfold wrap. rewrite Z.shiftl_mul_pow2 by lia.
  assert (0 < 2 ^ k) by (apply Z.pow_pos_nonneg; lia).
  assert (2 ^ k <= 2 ^ w) by (apply Z.pow_le_mono_r; lia).
  replace ((2 ^ w - 1) * 2 ^ k) with (2 ^ w - 2 ^ k + (2 ^ k - 1) * 2 ^ w) by ring.
  rewrite Z.mod_add by lia. apply Z.mod_small. lia.
Qed.

(** The two mask words together are the 128-bit prefix mask. *)
Lemma mask_words bits :
  1 <= bits <= 128 ->
  exists hi lo, mask_hi bits = Ok hi /\ mask_lo bits = Ok lo /\ 0 <= hi < 2 ^ 64 /\ 0 <= lo < 2 ^ 64 /\
    hi * 2 ^ 64 + lo = 2 ^ 128 - 2 ^ (128 - bits).
Proof.
  intros Hb. unfold mask_hi, mask_lo. change ones64 with (2 ^ 64 - 1).
  destruct (Z.leb_spec 64 bits), (Z.leb_spec bits 64).
  - assert (bits = 64) as -> by lia. do 2 eexists; split_and!; try reflexivity; by_compute.
  - rewrite u32_small, shl_ones by lia.
    assert (0 < 2 ^ (128 - bits)) by (apply Z.pow_pos_nonneg; lia).
    assert (2 ^ (128 - bits) < 2 ^ 64) by (apply Z.pow_lt_mono_r; lia).
    do 2 eexists; split_and!; [done..|lia|lia|lia|lia|]. lia.
  - rewrite u32_small, shl_ones by lia.
    assert (0 < 2 ^ (64 - bits)) by (apply Z.pow_pos_nonneg; lia).
    assert (2 ^ (64 - bits) < 2 ^ 64) by (apply Z.pow_lt_mono_r; lia).
    do 2 eexists; split_and!; [done..|lia|lia|lia|lia|].
    replace (128 - bits) with (64 - bits + 64) by lia. rewrite Z.pow_add_r by lia. lia.
  - lia.
Qed.

Lemma netmask_v6 ip bits f s :
  0 <= bits <= 128 ->
  exists m, netmask (IV6 ip bits f s) = Ok (IV6 m bits f s) /\ bytes_ok m /\ length m = 16%nat /\
    be_int m = 2 ^ 128 - 2 ^ (128 - bits).
Proof.
  intros Hb. unfold netmask. destruct (Z.eqb_spec bits 0) as [->|].
  - eexists; split_and!; [done|apply bytes_ok_be_bytes || by_compute|done|by_compute].
  - destruct (mask_words bits) as (hi & lo & -> & -> & Hhi & Hlo & He); [lia|].
    eexists; split_and!; [done|apply bytes_ok_app; auto with bytes|by rewrite length_app, !length_be_bytes|].
    rewrite be_int_app, !be_int_be_bytes by auto with bytes. autorewrite with zlen.
    change (8 * Z.of_nat 8) with 64. by rewrite !Z.mod_small.
Qed.

Lemma shr_div w x n : 0 <= n < w -> shr w x n = Ok (x / 2 ^ n).
Proof. intros. unfold shr. rewrite (proj2 (Z.ltb_lt n w)) by lia. by rewrite Z.shiftr_div_pow2 by lia. Qed.

(** With a valid prefix length, [containsAddress] runs into no undefined shift and decides
    prefix matching: for IPv4 both sides are cut to the prefix; for IPv6 only the argument is,
    so an IPv6 network with host bits set contains nothing, not even its own address. *)
Theorem containsAddress_spec this addr :
  ip_ok this -> ip_ok addr -> netmaskBitsValid this = true ->
  exists r, containsAddress this addr = Ok r /\
    (r = true <->
     match this, addr with
     | IV4 b bits, IV4 a _ => a / 2 ^ (32 - bits) = b / 2 ^ (32 - bits)
     | IV6 b bits _ _, IV6 a _ _ _ =>
         be_int a / 2 ^ (128 - bits) * 2 ^ (128 - bits) = be_int b
     | _, _ => False
     end).
Proof.
  intros Ht Ha Hv. destruct this as [|b bits|b bits f s]; [done|..]; try (simpl in Hv; apply Z.leb_le in Hv).
  - destruct addr as [|a q|]; [by eexists; split; [|split]|..|by eexists; split; [|split]].
    destruct Ht as [Hb Hbits], Ha as [Ha _]. simpl. destruct (Z.eqb_spec bits 0) as [->|].
    + eexists; split; [done|]. change (2 ^ (32 - 0)) with (2 ^ 32). by rewrite !Z.div_small.
    + rewrite !u32_small, !shr_div by lia. eexists; split; [done|]. apply Z.eqb_eq.
  - destruct addr as [| |a q g t]; [by eexists; split; [|split]..|].
    destruct Ht as (Hb & Hlb & Hbits & _), Ha as (Ha & Hla & _). unfold containsAddress.
    destruct (netmask_v6 b bits f s) as (m & -> & Hm & Hlm & He); [lia|].
    cbn [mbind outcome_bind mask_bytes]. eexists; split; [done|]. rewrite bool_decide_eq_true.
    rewrite <- (land_prefix_mask (be_int a) 128 (128 - bits)) by
      (try lia; pose proof (be_int_range a Ha) as Hr; unfold zlen in Hr; by rewrite Hla in Hr).
    rewrite <- He, <- be_int_zip_land by congruence. split; [by intros ->|].
    apply be_int_inj; [by apply bytes_ok_zip_land|done|]. rewrite length_zip_with. lia.
Qed.

Lemma containsAddress_spec_witness :
  exists r, containsAddress (IV4 0x0a930000 16) (IV4 0x0a931234 0) = Ok r /\
    (r = true <-> 0x0a931234 / 2 ^ (32 - 16) = 0x0a930000 / 2 ^ (32 - 16)).
Proof.
  apply (containsAddress_spec (IV4 0x0a930000 16) (IV4 0x0a931234 0));
    [split; split; by_compute | split; split; by_compute | reflexivity].
Defined.

(** IPv4 prefixes match an address against both sides cut to the prefix, so every valid IPv4
    network contains its own address; an IPv6 one does so only when its host bits are zero. *)
Theorem containsAddress_self this :
  ip_ok this -> netmaskBitsValid this = true ->
  containsAddress this this =
    Ok match this with
       | IV6 b bits _ _ => be_int b mod 2 ^ (128 - bits) =? 0
       | _ => true
       end.
Proof.
  intros Ht Hv. destruct this as [|b bits|b bits f s]; [done|..]; try (simpl in Hv; apply Z.leb_le in Hv).
  - destruct Ht as [Hb Hbits]. simpl. destruct (Z.eqb_spec bits 0) as [->|]; [done|].
    rewrite !u32_small, !shr_div by lia. simpl. f_equal. apply Z.eqb_refl.
  - destruct Ht as (Hb & Hlb & Hbits & _). unfold containsAddress.
    destruct (netmask_v6 b bits f s) as (m & -> & Hm & Hlm & He); [lia|].
    cbn [mbind outcome_bind mask_bytes]. f_equal. apply eq_bool_prop_intro.
    rewrite bool_decide_spec, Is_true_true, Z.eqb_eq.
    assert (be_int (zip_with Z.land b m) = be_int b / 2 ^ (128 - bits) * 2 ^ (128 - bits)) as Hz.
    { rewrite be_int_zip_land, He by congruence. apply land_prefix_mask; [lia|].
      pose proof (be_int_range b Hb) as Hr. unfold zlen in Hr. by rewrite Hlb in Hr. }
    pose proof (Z.div_mod (be_int b) (2 ^ (128 - bits))) as Hdm.
    assert (0 < 2 ^ (128 - bits)) by (apply Z.pow_pos_nonneg; lia).
    split; intros H0.
    + rewrite H0 in Hz. lia.
    + apply be_int_inj; [by apply bytes_ok_zip_land|done|rewrite length_zip_with; lia|lia].
Qed.

Lemma containsAddress_self_witness :
  containsAddress (IV6 [0xfd; 0; 0; 0; 0; 0; 0; 0; 0; 0; 0; 0; 0; 0; 0; 5] 64 0 0)
                  (IV6 [0xfd; 0; 0; 0; 0; 0; 0; 0; 0; 0; 0; 0; 0; 0; 0; 5] 64 0 0) = Ok false.
Proof.
  rewrite (containsAddress_self (IV6 [0xfd; 0; 0; 0; 0; 0; 0; 0; 0; 0; 0; 0; 0; 0; 0; 5] 64 0 0));
    [vm_compute; reflexivity | repeat split; by_compute | reflexivity].
Defined.

(** ** Addresses derived from network and node IDs *)

Lemma be_bytes_inj n v w :
  0 <= v < 2 ^ (8 * Z.of_nat n) -> 0 <= w < 2 ^ (8 * Z.of_nat n) -> be_bytes n v = be_bytes n w -> v = w.
Proof.
  intros Hv Hw H. apply (f_equal be_int) in H. rewrite !be_int_be_bytes in H.
  by rewrite !Z.mod_small in H by done.
Qed.

Lemma rfc4193_bytes nwid a :
  makeIpv6rfc4193 nwid a = IV6 ([0xfd] ++ be_bytes 8 nwid ++ [0x99; 0x93] ++ be_bytes 5 a) 88 0 0.
Proof. unfold makeIpv6rfc4193, byte_at. cbn -[Z.shiftr u8]. by rewrite !Z.shiftr_0_r. Qed.

(** The RFC4193 address of a member determines network ID and node address ("all mappable
    back onto ZeroTier space"), is in the private scope, and round-trips through the wire. *)
Theorem rfc4193_injective nwid a nwid' a' :
  0 <= nwid < 2 ^ 64 -> 0 <= nwid' < 2 ^ 64 -> Address.ok a -> Address.ok a' ->
  makeIpv6rfc4193 nwid a = makeIpv6rfc4193 nwid' a' ->
  nwid = nwid' /\ a = a' /\ ipScope (makeIpv6rfc4193 nwid a) = IP_SCOPE_PRIVATE /\
  ser_wf (makeIpv6rfc4193 nwid a).
Proof.
  intros Hn Hn' Ha Ha' H. rewrite !rfc4193_bytes in H.
  apply (f_equal (fun x => drop 1 (default [] (rawIpData x)))) in H.
  apply (app_inj_1 (be_bytes 8 nwid) (be_bytes 8 nwid')) in H as [H1 H2]; [|done].
  apply (f_equal (drop 2)) in H2. split_and!.
  - by apply (be_bytes_inj 8).
  - by apply (be_bytes_inj 5).
  - reflexivity.
  - rewrite rfc4193_bytes. split; [|done]. split; [|repeat split; by_compute].
    rewrite !bytes_ok_app. split_and!; auto with bytes; by_compute.
Qed.

Lemma rfc4193_injective_witness :
  ipScope (makeIpv6rfc4193 0x8056c2e21c000001 0xdf429581f6) = IP_SCOPE_PRIVATE.
Proof.
  apply (rfc4193_injective 0x8056c2e21c000001 0xdf429581f6 0x8056c2e21c000001 0xdf429581f6);
    try reflexivity; split; by_compute.
Defined.

(** An address put on the wire is read back, with its exact length; and reading an address
    from arbitrary bytes, at any position, never leaves the buffer. *)
Theorem inet_wire b :
  buf_ok b ->
  (forall a, inet_wf a -> _l b + zlen (inet_enc a) <= capacity b ->
     exists b', inet_serialize b a = Ok b' /\ buf_ok b' /\ data b' = data b ++ inet_enc a /\
       inet_deserialize b' (_l b) = Ok (a, zlen (inet_enc a))) /\
  (forall p, pos_ok p -> safe (inet_deserialize b p)).
Proof.
  intros Hb. split.
  - intros a Ha Hfit. destruct (@ser_roundtrip _ inet_serial inet_laws a b Ha Hb Hfit) as (b' & ? & ? & ? & ? & ?). eauto 6.
  - intros p Hp. eapply returns_safe, inet_safe; done.
Qed.

Lemma inet_wire_witness :
  exists b', inet_serialize (mkBuffer (replicate 16 0xaa) 3) (IV4 0x0a000001 9993) = Ok b' /\ buf_ok b' /\
    data b' = [0xaa; 0xaa; 0xaa; 4; 10; 0; 0; 1; 0x27; 0x09] /\
    inet_deserialize b' 3 = Ok (IV4 0x0a000001 9993, 7).
Proof.
  apply (inet_wire (mkBuffer (replicate 16 0xaa) 3)).
  - constructor; by_compute.
  - repeat split; by_compute.
  - by_compute.
Defined.
