(* ===== verification/Dictionary.v ===== *)
(** * Dictionaries (node/Dictionary.hpp)

    [Dictionary<C>] is a C array [_d] of [C] bytes holding the C string
    [key=value LF key=value ...] with the value's NUL, CR, LF, '=' and backslash escaped.
    A pointer [p] into the array is the suffix of the array from [p] on; [++p == eof] is the
    suffix becoming empty; dereferencing [eof] is [Undef]. Keys are C strings: lists of bytes
    without the terminating NUL. *)

From S2P Require Import Prelude Buffer Address.

Abbreviation Dictionary := (list Z) (only parsing).

(** ** Constructors and contents *)

Definition Dictionary_new (C : nat) : Dictionary := replicate C 0.

(** The loop of [load(s)] and of [Dictionary(s, len)] over [i = 0 .. C-1]: the source pointer,
    [None] once it has been set to null; [lim] is how many source characters may be read
    ([None] for [load]). Reading beyond the source object is [Undef]. *)
Fixpoint load_loop (n : nat) (s : option (list Z)) (lim : option Z) (i : Z) :
    outcome (list Z * option (list Z)) :=
  match n with
  | O => Ok ([], s)
  | S m =>
      match s with
      | Some s' =>
          if match lim with Some len => i <? len | None => true end then
            match s' with
            | [] => Undef
            | c :: s'' =>
                '(r, e) ← load_loop m (if c =? 0 then None else Some s'') lim (i + 1);
                Ok (c :: r, e)
            end
          else '(r, e) ← load_loop m s lim (i + 1); Ok (0 :: r, e)
      | None => '(r, e) ← load_loop m None lim (i + 1); Ok (0 :: r, e)
      end
  end.

(** [_d[C - 1] = 0] *)
Definition set_last (d : list Z) : outcome (list Z) := mem_write d (zlen d - 1) [0].

Definition load (C : nat) (s : list Z) : outcome (Dictionary * bool) :=
  '(d, e) ← load_loop C (Some s) None 0;
  d ← set_last d;
  Ok (d, match e with None => true | Some _ => false end).

Definition Dictionary_of (C : nat) (s : option (list Z)) (len : Z) : outcome Dictionary :=
  '(d, _) ← load_loop C s (Some len) 0; set_last d.

Definition nonempty (d : Dictionary) : bool := negb (nth 0 d 0 =? 0).
Definition dict_clear (d : Dictionary) : Dictionary := replicate (length d) 0.

(** Index of the first NUL: the loop [for (i = 0; i < C; ++i) if (! _d[i])]. *)
Fixpoint find_nul (d : list Z) : option nat :=
  match d with
  | [] => None
  | c :: d' => if c =? 0 then Some O else S <$> find_nul d'
  end.

Definition sizeBytes (d : Dictionary) : Z :=
  match find_nul d with Some i => Z.of_nat i | None => zlen d - 1 end.

(** ** get *)

Definition unescape (c : Z) : Z :=
  if c =? 114 then 13          (* 'r' *)
  else if c =? 110 then 10     (* 'n' *)
  else if c =? 48 then 0       (* '0' *)
  else if c =? 101 then 61     (* 'e' *)
  else c.

Definition is_end (c : Z) : bool := (c =? 0) || (c =? 13) || (c =? 10).

Definition not_found (dest : list Z) : outcome (Z * list Z) :=
  d ← mem_write dest 0 [0]; Ok (-1, d).

(** The value loop: [p] after the '=', [j] bytes written to [dest], [esc] the escape flag. *)
Fixpoint get_value (p : list Z) (dest : list Z) (destlen j : Z) (esc : bool) : outcome (Z * list Z) :=
  match p with
  | [] => Undef
  | c :: p' =>
      let continue dest j esc :=
        match p' with
        | [] => not_found dest
        | _ => get_value p' dest destlen j esc
        end in
      let store ch :=
        dest ← mem_write dest j [ch];
        if j + 1 =? destlen then dest ← mem_write dest (j + 1 - 1) [0]; Ok (j + 1 - 1, dest)
        else continue dest (j + 1) false in
      if is_end c then dest ← mem_write dest j [0]; Ok (j, dest)
      else if esc then store (unescape c)
      else if c =? 92 then continue dest j true
      else store c
  end.

(** The key loop: while both pointers are at a character, break on a difference, otherwise
    advance both and return -1 if [++p == eof]:
    [None] for the return, otherwise [k] and [p] after the loop. *)
Fixpoint match_key (k p : list Z) : outcome (option (list Z * list Z)) :=
  match k with
  | [] => Ok (Some ([], p))
  | kc :: k' =>
      match p with
      | [] => Undef
      | c :: p' =>
          if c =? 0 then Ok (Some (k, p))
          else if negb (c =? kc) then Ok (Some (k, p))
          else match p' with
               | [] => Ok None
               | _ => match_key k' p'
               end
      end
  end.

(** Skip to the start of the next line; [None] when there is none. *)
Fixpoint next_line (p : list Z) : outcome (option (list Z)) :=
  match p with
  | [] => Undef
  | c :: p' =>
      if is_end c then
        if c =? 0 then Ok None
        else match p' with [] => Ok None | _ => Ok (Some p') end
      else match p' with [] => Ok None | _ => next_line p' end
  end.

(** The outer loop, while [p] is not at a NUL; every turn advances [p], so the length of the array is fuel
    enough (see [get_safe]). *)
Fixpoint get_loop (fuel : nat) (p key dest : list Z) (destlen : Z) : outcome (Z * list Z) :=
  match fuel with
  | O => Undef
  | S n =>
      match p with
      | [] => Undef
      | c :: _ =>
          if c =? 0 then not_found dest
          else
            mk ← match_key key p;
            match mk with
            | None => not_found dest
            | Some (k, q) =>
                match q with
                | [] => Undef
                | qc :: q' =>
                    if (match k with [] => true | _ => false end) && (qc =? 61)
                    then get_value q' dest destlen 0 false
                    else
                      nl ← next_line q;
                      match nl with
                      | None => not_found dest
                      | Some p' => get_loop n p' key dest destlen
                      end
                end
            end
      end
  end.

(** [get(key, dest, destlen)]: the returned length, -1 when not found, and [dest] after. *)
Definition get (d : Dictionary) (key dest : list Z) (destlen : Z) : outcome (Z * list Z) :=
  if destlen =? 0 then Ok (-1, dest) else get_loop (S (length d)) d key dest destlen.

(** [get(key, Buffer<BC> &dest)]: straight into the buffer's array. *)
Definition get_buffer (d : Dictionary) (key : list Z) (b : Buffer) : outcome (Buffer * bool) :=
  '(r, m) ← get d key (_b b) (capacity b);
  if 0 <=? r then b' ← setSize (mkBuffer m (_l b)) r; Ok (b', true)
  else Ok (clear (mkBuffer m (_l b)), false).

(** [getB(key, dfl)]; [tmp] is the uninitialised [char tmp[4]]. *)
Definition getB (tmp : list Z) (d : Dictionary) (key : list Z) (dfl : bool) : outcome bool :=
  '(r, t) ← get d key tmp 4;
  if 0 <=? r then
    let c := nth 0 t 0 in Ok ((c =? 49) || (c =? 116) || (c =? 84))
  else Ok dfl.

(** [strtoull(s, 0, 16)] and [strtoll(s, 0, 16)] of the C library. *)
Definition hex_value (c : Z) : option Z :=
  if (48 <=? c) && (c <=? 57) then Some (c - 48)
  else if (97 <=? c) && (c <=? 102) then Some (c - 87)
  else if (65 <=? c) && (c <=? 70) then Some (c - 55)
  else None.

Fixpoint hex_digits (s : list Z) (acc : Z) : Z :=
  match s with
  | [] => acc
  | c :: s' => match hex_value c with Some v => hex_digits s' (acc * 16 + v) | None => acc end
  end.

Definition is_space (c : Z) : bool := (c =? 32) || ((9 <=? c) && (c <=? 13)).

Fixpoint skip_space (s : list Z) : list Z :=
  match s with c :: s' => if is_space c then skip_space s' else s | [] => [] end.

Definition skip_0x (s : list Z) : list Z :=
  match s with
  | 48 :: x :: c :: s' =>
      if ((x =? 120) || (x =? 88)) && bool_decide (is_Some (hex_value c)) then c :: s' else s
  | _ => s
  end.

(** Sign and magnitude of the number at the start of [s]. *)
Definition strto_hex (s : list Z) : bool * Z :=
  match skip_space s with
  | 45 :: s' => (true, hex_digits (skip_0x s') 0)
  | 43 :: s' => (false, hex_digits (skip_0x s') 0)
  | s' => (false, hex_digits (skip_0x s') 0)
  end.

Definition hexStrToU64 (s : list Z) : Z :=
  let '(neg, n) := strto_hex s in
  if 2 ^ 64 <=? n then 2 ^ 64 - 1 else if neg then u64 (- n) else n.

Definition hexStrTo64 (s : list Z) : Z :=
  let '(neg, n) := strto_hex s in
  if neg then Z.max (- n) (- 2 ^ 63) else Z.min n (2 ^ 63 - 1).

(** The C string at the start of an array. *)
Fixpoint cstr (s : list Z) : list Z :=
  match s with c :: s' => if c =? 0 then [] else c :: cstr s' | [] => [] end.

(** [getUI] and [getI]; [tmp] is the uninitialised [char tmp[128]]. *)
Definition getUI (tmp : list Z) (d : Dictionary) (key : list Z) (dfl : Z) : outcome Z :=
  '(r, t) ← get d key tmp 128; Ok (if 1 <=? r then hexStrToU64 (cstr t) else dfl).
Definition getI (tmp : list Z) (d : Dictionary) (key : list Z) (dfl : Z) : outcome Z :=
  '(r, t) ← get d key tmp 128; Ok (if 1 <=? r then hexStrTo64 (cstr t) else dfl).

Definition contains (tmp : list Z) (d : Dictionary) (key : list Z) : outcome bool :=
  '(r, _) ← get d key tmp 2; Ok (0 <=? r).

(** ** add *)

(** The bytes the value loop emits for one character. *)
Definition escape1 (c : Z) : list Z :=
  if c =? 0 then [92; 48]
  else if c =? 13 then [92; 114]
  else if c =? 10 then [92; 110]
  else if c =? 92 then [92; 92]
  else if c =? 61 then [92; 101]
  else [c].

Definition escape (v : list Z) : list Z := concat (escape1 <$> v).

(** [_d[j++] = c; if (j == C) fail] for each of [bs]: the array, and whether all fitted. *)
Fixpoint put_all (d : Dictionary) (j : Z) (bs : list Z) : outcome (Dictionary * Z * bool) :=
  match bs with
  | [] => Ok (d, j, true)
  | c :: bs' =>
      d ← mem_write d j [c];
      if j + 1 =? zlen d then Ok (d, j + 1, false) else put_all d (j + 1) bs'
  end.

(** The characters [add(key, value, vlen)] takes from the object at [value]. *)
Fixpoint value_chars (n : nat) (value : list Z) : outcome (list Z) :=
  match n, value with
  | O, _ => Ok []
  | S m, c :: value' => r ← value_chars m value'; Ok (c :: r)
  | S _, [] => Undef
  end.

Fixpoint value_cstr (value : list Z) : outcome (list Z) :=
  match value with
  | [] => Undef
  | c :: value' => if c =? 0 then Ok [] else r ← value_cstr value'; Ok (c :: r)
  end.

Definition value_of (value : list Z) (vlen : Z) : outcome (list Z) :=
  if vlen <? 0 then value_cstr value else value_chars (Z.to_nat vlen) value.

(** The part of [add] after the value's characters are known; a failure puts the NUL back. *)
Definition add_chars (d : Dictionary) (key v : list Z) : outcome (Dictionary * bool) :=
  match find_nul d with
  | None => Ok (d, false)
  | Some i =>
      '(d1, j, ok) ← put_all d (Z.of_nat i) ((if (0 <? i)%nat then [10] else []) ++ key ++ [61] ++ escape v);
      if (ok : bool) then d2 ← mem_write d1 j [0]; Ok (d2, true)
      else d2 ← mem_write d1 (Z.of_nat i) [0]; Ok (d2, false)
  end.

Definition add (d : Dictionary) (key value : list Z) (vlen : Z) : outcome (Dictionary * bool) :=
  v ← value_of value vlen; add_chars d key v.

Definition addB (d : Dictionary) (key : list Z) (value : bool) : outcome (Dictionary * bool) :=
  add d key (if value then [49; 0] else [48; 0]) 1.

(** [Utils::hex(uint64_t)] with its NUL. *)
Definition hex64 (i : Z) : list Z :=
  [hexdigit i 60; hexdigit i 56; hexdigit i 52; hexdigit i 48; hexdigit i 44; hexdigit i 40;
   hexdigit i 36; hexdigit i 32; hexdigit i 28; hexdigit i 24; hexdigit i 20; hexdigit i 16;
   hexdigit i 12; hexdigit i 8; hexdigit i 4; hexdigit i 0; 0].

Definition addUI (d : Dictionary) (key : list Z) (value : Z) : outcome (Dictionary * bool) :=
  add d key (hex64 value) (-1).

(** [value * -1] overflows for the smallest [int64_t]. *)
Definition addI (d : Dictionary) (key : list Z) (value : Z) : outcome (Dictionary * bool) :=
  if 0 <=? value then add d key (hex64 (u64 value)) (-1)
  else if value =? - 2 ^ 63 then Undef
  else add d key (45 :: hex64 (u64 (value * -1))) (-1).

Definition addAddress (d : Dictionary) (key : list Z) (a : Z) : outcome (Dictionary * bool) :=
  add d key (hex64 (Address.toInt a)) (-1).

Definition addBuffer (d : Dictionary) (key : list Z) (value : Buffer) : outcome (Dictionary * bool) :=
  add d key (_b value) (size value).

(** ** Memory safety of [get] on arbitrary contents

    [ends d]: there is a NUL in the array, which is what the constructors, [load] and [add]
    guarantee and all that [get] relies on. *)
Definition ends (d : list Z) : Prop := 0 ∈ d.

(** What a call of [get] leaves: the length returned is below [destlen] and [dest] keeps its
    size and is NUL-terminated at that length. *)
Definition get_post (size destlen : Z) (res : Z * list Z) : Prop :=
  let '(r, dest) := res in
  zlen dest = size /\ -1 <= r < destlen /\ nth (Z.to_nat r) dest 1 = 0.

Lemma ends_tail c p : ends (c :: p) -> c <> 0 -> ends p /\ p <> [].
Proof.
  intros H Hc. apply elem_of_cons in H as [|H]; [congruence|]. split; [done|].
  intros ->. by apply not_elem_of_nil in H.
Qed.

Lemma nth_insert (l : list Z) i x d : (i < length l)%nat -> nth i (<[i := x]> l) d = x.
Proof. intros. apply nth_lookup_Some. by apply list_lookup_insert_eq. Qed.

Lemma not_found_post dest destlen :
  0 < destlen <= zlen dest -> returns (get_post (zlen dest) destlen) (not_found dest).
Proof.
  intros. unfold not_found. rewrite mem_write1 by lia. simpl. autorewrite with zlen.
  split_and!; [done|lia|lia|]. apply nth_insert. unfold zlen in *; lia.
Qed.

Lemma terminate_post dest size destlen j :
  zlen dest = size -> 0 <= j < destlen -> destlen <= size ->
  returns (get_post size destlen) (d ← mem_write dest j [0]; Ok (j, d)).
Proof.
  intros. rewrite mem_write1 by lia. simpl. autorewrite with zlen.
  split_and!; [done|lia|lia|]. apply nth_insert. unfold zlen in *; lia.
Qed.

Lemma get_value_safe p : forall dest size destlen j esc,
  ends p -> zlen dest = size -> 0 <= j < destlen -> destlen <= size ->
  returns (get_post size destlen) (get_value p dest destlen j esc).
Proof.
  induction p as [|c p IH]; intros dest size destlen j esc Hp Hs Hj Hd; [by apply not_elem_of_nil in Hp|].
  simpl. destruct (is_end c) eqn:Hend; [by apply terminate_post|].
  assert (c <> 0) as Hc by (intros ->; done).
  apply ends_tail in Hp as [Hp Hne]; [|done].
  assert (forall ch, returns (get_post size destlen)
    (dest0 ← mem_write dest j [ch];
     if j + 1 =? destlen then dest1 ← mem_write dest0 (j + 1 - 1) [0]; Ok (j + 1 - 1, dest1)
     else match p with [] => not_found dest0 | _ => get_value p dest0 destlen (j + 1) false end)) as Hstore.
  { intros ch. rewrite mem_write1 by lia. simpl. destruct (Z.eqb_spec (j + 1) destlen).
    - apply terminate_post; autorewrite with zlen; lia.
    - destruct p; [done|]. apply IH; autorewrite with zlen; try done; lia. }
  destruct esc; [apply Hstore|]. destruct (c =? 92); [|apply Hstore].
  destruct p; [done|]. by apply IH.
Qed.

Lemma match_key_safe k : forall p,
  ends p -> exists k' q, match_key k p = Ok (Some (k', q)) /\ ends q /\ (length q <= length p)%nat.
Proof.
  induction k as [|kc k IH]; intros p Hp; [do 2 eexists; split_and!; [done..|lia]|].
  destruct p as [|c p]; [by apply not_elem_of_nil in Hp|]. simpl.
  destruct (Z.eqb_spec c 0); [do 2 eexists; split_and!; [done..|simpl; lia]|].
  destruct (negb (c =? kc)); [do 2 eexists; split_and!; [done..|simpl; lia]|].
  apply ends_tail in Hp as [Hp Hne]; [|done]. destruct p as [|c' p]; [done|].
  destruct (IH _ Hp) as (k' & q & -> & ? & ?). do 2 eexists; split_and!; [done..|simpl in *; lia].
Qed.

Lemma next_line_safe p :
  ends p -> exists o, next_line p = Ok o /\
    match o with None => True | Some p' => ends p' /\ (length p' < length p)%nat end.
Proof.
  induction p as [|c p IH]; intros Hp; [by apply not_elem_of_nil in Hp|]. simpl.
  destruct (Z.eqb_spec c 0) as [->|Hc]; [by eexists|].
  apply ends_tail in Hp as [Hp Hne]; [|done]. destruct p as [|c' p]; [done|].
  destruct (is_end c).
  - eexists; split; [done|]. simpl; split; [done|lia].
  - destruct (IH Hp) as (o & -> & Ho). exists o; split; [done|]. destruct o; [|done].
    destruct Ho; split; [done|simpl in *; lia].
Qed.

Lemma get_loop_safe fuel : forall p key dest destlen,
  (length p < fuel)%nat -> ends p -> 0 < destlen <= zlen dest ->
  returns (get_post (zlen dest) destlen) (get_loop fuel p key dest destlen).
Proof.
  induction fuel as [|fuel IH]; intros p key dest destlen Hf Hp Hd; [lia|].
  destruct p as [|c p]; [by apply not_elem_of_nil in Hp|]. cbn [get_loop].
  destruct (c =? 0); [by apply not_found_post|].
  destruct (match_key_safe key (c :: p) Hp) as (k & q & -> & Hq & Hlq). cbn [mbind outcome_bind].
  destruct q as [|qc q]; [by apply not_elem_of_nil in Hq|].
  destruct (_ && (qc =? 61)) eqn:Heq.
  - apply andb_true_iff in Heq as [_ ->%Z.eqb_eq].
    apply get_value_safe; [by apply (ends_tail 61)|done|lia|lia].
  - destruct (next_line_safe _ Hq) as (o & -> & Ho). cbn [mbind outcome_bind].
    destruct o as [p'|]; [|by apply not_found_post]. destruct Ho. apply IH; [simpl in *; lia|done..].
Qed.

(** C2. Whatever bytes a dictionary array holds, as long as one of them is a NUL, [get] reads no
    byte outside it, terminates, writes only inside the [destlen] bytes it was given, and always
    leaves [dest] NUL-terminated at the length it returns (at 0 when it returns -1). *)
Theorem get_safe d key dest destlen :
  ends d -> 0 < destlen <= zlen dest ->
  returns (get_post (zlen dest) destlen) (get d key dest destlen).
Proof.
  intros Hd Hl. unfold get. destruct (Z.eqb_spec destlen 0); [lia|].
  apply get_loop_safe; [lia|done..].
Qed.

Lemma get_safe_witness :
  get [97; 61; 92; 110; 66; 13; 0; 255] [97] [7; 7; 7; 7] 4 = Ok (2, [10; 66; 0; 7]) /\
  returns (get_post 4 4) (get [97; 61; 92; 110; 66; 13; 0; 255] [97] [7; 7; 7; 7] 4).
Proof.
  split; [reflexivity|].
  apply (get_safe [97; 61; 92; 110; 66; 13; 0; 255] [97] [7; 7; 7; 7] 4).
  - unfold ends. by_compute.
  - split; by_compute.
Defined.

(** ** Abstract specification: a list of entries, the first of a key wins *)

Abbreviation entry := (list Z * list Z)%type (only parsing).

Definition legal_char (c : Z) : Prop := c <> 0 /\ c <> 13 /\ c <> 10 /\ c <> 61.
Definition legal_key (k : list Z) : Prop := Forall legal_char k.

#[export] Instance legal_key_dec k : Decision (legal_key k).
Proof. unfold legal_key, legal_char; apply _. Defined.

Definition entry_text (e : entry) : list Z := e.1 ++ 61 :: escape e.2.

(** The text of a list of entries. *)
Fixpoint dict_text (es : list entry) : list Z :=
  match es with
  | [] => []
  | [e] => entry_text e
  | e :: es' => entry_text e ++ 10 :: dict_text es'
  end.

(** The array [d] stands for the entries [es]. *)
Definition rep (d : Dictionary) (es : list entry) : Prop :=
  Forall (fun e => legal_key e.1) es /\ exists tl, d = dict_text es ++ 0 :: tl.

Fixpoint first_value (es : list entry) (key : list Z) : option (list Z) :=
  match es with
  | [] => None
  | (k, v) :: es' => if decide (key = k) then Some v else first_value es' key
  end.

(** *** Escaping *)

Lemma escape_cons c v : escape (c :: v) = escape1 c ++ escape v.
Proof. reflexivity. Qed.

(** The three ways a character is put: escaped with its letter, or as itself. *)
Lemma escape1_cases c :
  (exists e, escape1 c = [92; e] /\ unescape e = c /\ is_end e = false /\ e <> 0) \/
  (escape1 c = [c] /\ is_end c = false /\ (c =? 92) = false /\ c <> 61).
Proof.
  unfold escape1, is_end.
  destruct (Z.eqb_spec c 0) as [->|]; [left; by exists 48|].
  destruct (Z.eqb_spec c 13) as [->|]; [left; by exists 114|].
  destruct (Z.eqb_spec c 10) as [->|]; [left; by exists 110|].
  destruct (Z.eqb_spec c 92) as [->|]; [left; by exists 92|].
  destruct (Z.eqb_spec c 61) as [->|]; [left; by exists 101|]. by right.
Qed.

Definition no_end (s : list Z) : Prop := Forall (fun c => is_end c = false) s.

Lemma no_end_escape v : no_end (escape v).
Proof.
  induction v as [|c v IH]; [constructor|]. rewrite escape_cons. apply Forall_app; split; [|done].
  destruct (escape1_cases c) as [(e & -> & _ & He & _)|(-> & He & _)]; by repeat constructor.
Qed.

Lemma legal_no_end k : legal_key k -> no_end k.
Proof.
  apply Forall_impl. intros c (H0 & H13 & H10 & _). unfold is_end.
  by rewrite (proj2 (Z.eqb_neq _ _) H0), (proj2 (Z.eqb_neq _ _) H13), (proj2 (Z.eqb_neq _ _) H10).
Qed.

Lemma no_end_entry e : legal_key e.1 -> no_end (entry_text e).
Proof.
  intros Hk. unfold entry_text. apply Forall_app; split; [by apply legal_no_end|].
  constructor; [done|apply no_end_escape].
Qed.

(** *** The value loop decodes what [escape] encodes *)

(** The value that fits: the first [destlen - 1] bytes. *)
Definition fitting (destlen : Z) (v : list Z) : list Z := take (Z.to_nat (destlen - 1)) v.

Lemma mem_write_snoc0 dest j c :
  0 <= j < zlen dest -> mem_write dest j [c] ≫= (fun d => mem_write d j [0]) = mem_write dest j [0].
Proof.
  intros. rewrite !mem_write1 by lia. simpl. rewrite mem_write1 by (autorewrite with zlen; lia).
  by rewrite list_insert_insert_eq.
Qed.

Lemma get_value_spec v : forall dest destlen j e rest,
  is_end e = true -> 0 <= j < destlen -> destlen <= zlen dest ->
  get_value (escape v ++ e :: rest) dest destlen j false =
    (let w := fitting (destlen - j) v in
     d ← mem_write dest j (w ++ [0]); Ok (j + zlen w, d)).
Proof.
  induction v as [|c v IH]; intros dest destlen j e rest He Hj Hd.
  - unfold fitting. rewrite take_nil. cbn. rewrite He. rewrite Z.add_0_r. reflexivity.
  - assert (escape v ++ e :: rest <> []) as Hne by (by destruct (escape v)).
    set (tail := escape v ++ e :: rest) in *.
    assert (forall dd, (match tail with [] => not_found dd
              | _ => get_value tail dd destlen (j + 1) false end)
              = get_value tail dd destlen (j + 1) false) as Hm by (intros; by destruct tail).
    transitivity (dest0 ← mem_write dest j [c];
       if j + 1 =? destlen then dest1 ← mem_write dest0 (j + 1 - 1) [0]; Ok (j + 1 - 1, dest1)
       else get_value tail dest0 destlen (j + 1) false).
    { rewrite escape_cons, <- app_assoc. fold tail.
      destruct (escape1_cases c) as [(x & -> & Hu & Hx & _)|(-> & Hc & H92 & _)].
      - cbn [app get_value]. change (is_end 92) with false. cbn [Z.eqb Pos.eqb].
        rewrite Hx, Hu. rewrite mem_write1 by lia. cbn [mbind outcome_bind]. by rewrite Hm.
      - cbn [app get_value]. rewrite Hc, H92. rewrite mem_write1 by lia.
        cbn [mbind outcome_bind]. by rewrite Hm. }
    rewrite mem_write1 by lia. cbn [mbind outcome_bind].
    destruct (Z.eqb_spec (j + 1) destlen) as [Hjd|Hjd].
    + replace (j + 1 - 1) with j by lia. unfold fitting.
      replace (destlen - j - 1) with 0 by lia. change (take (Z.to_nat 0) (c :: v)) with (@nil Z).
      cbn zeta. change ([] ++ [0]) with [0]. change (zlen (@nil Z)) with 0. rewrite Z.add_0_r.
      rewrite (mem_write1 dest), mem_write1 by (rewrite ?zlen_insert; lia). cbn.
      by rewrite list_insert_insert_eq.
    + unfold tail. rewrite IH by (rewrite ?zlen_insert; done || lia). cbn zeta. unfold fitting.
      replace (Z.to_nat (destlen - j - 1)) with (S (Z.to_nat (destlen - (j + 1) - 1))) by lia.
      cbn [take app]. rewrite mem_write_cons.
      * destruct (mem_write _ (j + 1) _); [|done..]. cbn. do 2 f_equal. rewrite zlen_cons. lia.
      * lia.
      * autorewrite with zlen. change (zlen [0]) with 1. unfold zlen at 1.
        rewrite length_take. lia.
Qed.

(** *** Finding the line *)

Lemma match_key_same k r : legal_key k -> r <> [] -> match_key k (k ++ r) = Ok (Some ([], r)).
Proof.
  induction 1 as [|c k Hc Hk IH]; intros Hr; [by destruct r|]. simpl.
  rewrite (proj2 (Z.eqb_neq _ _) (proj1 Hc)), Z.eqb_refl. simpl.
  destruct (k ++ r) eqn:E; [|by apply IH]. by apply app_eq_nil in E as [_ ->].
Qed.

(** On a line of another key the loop stops inside [key=], and not at the end of the key wanted
    together with the '='. *)
Lemma match_key_other key : forall k r,
  legal_key key -> legal_key k -> key <> k -> r <> [] ->
  exists k' q s, match_key key (k ++ 61 :: r) = Ok (Some (k', q)) /\ k ++ [61] = s ++ take (length q - length r) q /\
    q = take (length q - length r) q ++ r /\ (0 < length q - length r)%nat /\
    ((match k' with [] => true | _ => false end) && (nth 0 q 0 =? 61)) = false.
Proof.
  induction key as [|kc key IH]; intros k r Hkey Hk Hne Hr.
  - destruct k as [|c k]; [done|]. inversion Hk as [|?? Hc _]; subst.
    exists [], ((c :: k) ++ 61 :: r), []. rewrite cons_middle, app_assoc.
    assert (length (((c :: k) ++ [61%Z]) ++ r) - length r = length ((c :: k) ++ [61%Z]))%nat as ->
      by (rewrite (length_app _ r); lia).
    rewrite take_app_length. split_and!; [done..|simpl; lia|]. simpl.
    apply Z.eqb_neq. apply Hc.
  - inversion Hkey as [|?? Hkc Hkey']; subst. destruct k as [|c k].
    + exists (kc :: key), (61 :: r), []. cbn [length match_key app].
      replace (S (length r) - length r)%nat with 1%nat by lia. change (61 =? 0) with false.
      destruct (Z.eqb_spec 61 kc) as [<-|]; [exfalso; by apply Hkc|].
      split_and!; [done..|lia|done].
    + inversion Hk as [|?? Hc Hk']; subst. simpl.
      rewrite (proj2 (Z.eqb_neq _ _) (proj1 Hc)). destruct (Z.eqb_spec c kc) as [->|Hd]; simpl.
      * destruct (IH k r) as (k' & q & s & He & Hs & Hq & Hl & Hn); [done|done|congruence|done|].
        exists k', q, (kc :: s). assert (k ++ 61 :: r <> []) by (by destruct k).
        destruct (k ++ 61 :: r) eqn:E; [done|]. rewrite He. split_and!; [done| |done..].
        simpl. by rewrite Hs.
      * exists (kc :: key), (c :: k ++ 61 :: r), [].
        rewrite cons_middle, app_assoc, app_comm_cons.
        assert (length ((c :: k ++ [61%Z]) ++ r) - length r = length (c :: k ++ [61%Z]))%nat as ->
          by (rewrite length_app; lia).
        rewrite take_app_length. split_and!; [done..|simpl; lia|done].
Qed.

Lemma next_line_end s e rest :
  no_end s -> is_end e = true -> (e = 0 \/ rest <> []) ->
  next_line (s ++ e :: rest) = Ok (if e =? 0 then None else Some rest).
Proof.
  intros Hs He Hr. induction Hs as [|c s Hc Hs IH]; simpl.
  - rewrite He. destruct (Z.eqb_spec e 0); [done|]. destruct Hr; [done|]. destruct rest; congruence.
  - rewrite Hc. destruct (s ++ e :: rest) eqn:E; [by destruct s|]. exact IH.
Qed.

(** What follows the first entry. *)
Definition after (es : list entry) (tl : list Z) : list Z :=
  match es with [] => 0 :: tl | _ => 10 :: dict_text es ++ 0 :: tl end.

Lemma dict_text_cons e es tl :
  dict_text (e :: es) ++ 0 :: tl = entry_text e ++ after es tl.
Proof. destruct es; [done|]. cbn [dict_text after]. by rewrite <- app_assoc. Qed.

Lemma after_end es tl :
  exists x rest, after es tl = x :: rest /\ is_end x = true /\ (x = 0 \/ rest <> []) /\
    (if x =? 0 then es = [] else rest = dict_text es ++ 0 :: tl /\ es <> []).
Proof.
  destruct es as [|e es].
  - exists 0, tl. split_and!; try done. by left.
  - exists 10, (dict_text (e :: es) ++ 0 :: tl). split_and!; try done. right. by destruct (dict_text _).
Qed.

Lemma head_entry e r : legal_key e.1 -> exists c t, entry_text e ++ r = c :: t /\ c <> 0.
Proof.
  intros Hk. unfold entry_text. destruct e.1 as [|c k]; simpl; [by do 2 eexists|].
  inversion Hk as [|?? Hc _]; subst. do 2 eexists; split; [done|apply Hc].
Qed.

(** What [get] stores for a value: its fitting part, NUL-terminated. *)
Definition stored (v : list Z) (dest : list Z) (destlen : Z) : outcome (Z * list Z) :=
  let w := fitting destlen v in d ← mem_write dest 0 (w ++ [0]); Ok (zlen w, d).

Lemma get_loop_spec es : forall fuel tl key dest destlen,
  (length es < fuel)%nat -> Forall (fun e => legal_key e.1) es -> legal_key key ->
  0 < destlen <= zlen dest ->
  get_loop fuel (dict_text es ++ 0 :: tl) key dest destlen =
    match first_value es key with
    | Some v => stored v dest destlen
    | None => not_found dest
    end.
Proof.
  induction es as [|[k v] es IH]; intros fuel tl key dest destlen Hf Hes Hkey Hd;
    (destruct fuel as [|fuel]; [lia|]); [done|].
  inversion Hes as [|?? Hk Hes']; subst. rewrite dict_text_cons.
  destruct (after_end es tl) as (x & rest & Hafter & Hx & Hrest & Hshape). rewrite Hafter.
  destruct (head_entry (k, v) (x :: rest) Hk) as (c & t & Ht & Hc). cbn [get_loop].
  rewrite Ht, (proj2 (Z.eqb_neq _ _) Hc), <- Ht. cbn [first_value].
  assert (entry_text (k, v) ++ x :: rest = k ++ 61 :: (escape v ++ x :: rest)) as Hsplit.
  { unfold entry_text. by rewrite <- app_assoc. }
  rewrite Hsplit. destruct (decide (key = k)) as [->|Hne].
  - rewrite match_key_same by done. cbn [mbind outcome_bind andb]. rewrite Z.eqb_refl.
    rewrite get_value_spec by (done || lia). rewrite Z.sub_0_r. done.
  - set (r := escape v ++ x :: rest). assert (r <> []) as Hr by (subst r; by destruct (escape v)).
    destruct (match_key_other key k r Hkey Hk Hne Hr) as (k' & q & s & -> & Hs & Hq & Hl & Hn).
    cbn [mbind outcome_bind]. destruct q as [|qc q]; [simpl in Hl; lia|]. simpl nth in Hn. rewrite Hn.
    rewrite Hq. subst r. rewrite app_assoc.
    rewrite next_line_end; [|  |done|done].
    + cbn [mbind outcome_bind]. destruct (Z.eqb_spec x 0); [by rewrite Hshape|].
      destruct Hshape as [-> Hes0]. apply IH; [simpl in Hf; lia|done..].
    + apply Forall_app; split; [|apply no_end_escape].
      assert (no_end (k ++ [61])) as Hke.
      { apply Forall_app; split; [by apply legal_no_end|by repeat constructor]. }
      rewrite Hs in Hke. by apply Forall_app in Hke as [_ Hke].
Qed.

Lemma length_dict_text es : (length es <= length (dict_text es) + 0)%nat.
Proof.
  rewrite Nat.add_0_r. induction es as [|e [|e' es] IH]; [done|..].
  - unfold dict_text, entry_text. rewrite length_app. simpl; lia.
  - change (dict_text (e :: e' :: es)) with (entry_text e ++ 10 :: dict_text (e' :: es)).
    rewrite length_app. simpl length in *. lia.
Qed.

Lemma get_rep d es key dest destlen :
  rep d es -> legal_key key -> 0 < destlen <= zlen dest ->
  get d key dest destlen =
    match first_value es key with Some v => stored v dest destlen | None => not_found dest end.
Proof.
  intros [Hes [tl ->]] Hk Hd. unfold get. destruct (Z.eqb_spec destlen 0); [lia|].
  apply get_loop_spec; try done. rewrite length_app. pose proof (length_dict_text es). simpl; lia.
Qed.

(** *** add *)

Lemma find_nul_app t tl : Forall (fun c => c <> 0) t -> find_nul (t ++ 0 :: tl) = Some (length t).
Proof.
  induction 1 as [|c t Hc Ht IH]; [done|]. simpl. by rewrite (proj2 (Z.eqb_neq _ _) Hc), IH.
Qed.

(** [put_all] succeeds exactly when a byte is left behind what it wrote; when it fails it has
    only changed bytes from [j] on. *)
Lemma put_all_spec bs : forall d j,
  0 <= j < zlen d ->
  if decide (j + zlen bs < zlen d)
  then exists d', mem_write d j bs = Ok d' /\ put_all d j bs = Ok (d', j + zlen bs, true) /\ zlen d' = zlen d
  else exists d' j', put_all d j bs = Ok (d', j', false) /\ zlen d' = zlen d /\
         take (Z.to_nat j) d' = take (Z.to_nat j) d.
Proof.
  induction bs as [|c bs IH]; intros d j Hj.
  - rewrite zlen_nil. case_decide; [|lia]. exists d. rewrite mem_write_nil by lia.
    by rewrite Z.add_0_r.
  - rewrite zlen_cons. cbn [put_all]. rewrite mem_write1 by lia. cbn [mbind outcome_bind].
    rewrite zlen_insert. pose proof (zlen_nonneg bs). destruct (Z.eqb_spec (j + 1) (zlen d)).
    + case_decide; [lia|]. do 2 eexists; split_and!; [done|by rewrite zlen_insert|].
      by apply take_insert_le.
    + specialize (IH (<[Z.to_nat j := c]> d) (j + 1)). rewrite zlen_insert in IH.
      specialize (IH ltac:(lia)). rewrite (Z.add_assoc j 1). case_decide.
      * destruct IH as (d' & Hw & -> & Hl). exists d'. split_and!; [|done..].
        rewrite mem_write_cons; [done|lia|rewrite zlen_cons; lia].
      * destruct IH as (d' & j' & -> & Hl & Ht). exists d', j'. split_and!; [done..|].
        apply (f_equal (take (Z.to_nat j))) in Ht. rewrite !take_take in Ht.
        rewrite Nat.min_l in Ht by lia. rewrite Ht. by apply take_insert_le.
Qed.

Lemma dict_text_snoc es e :
  dict_text (es ++ [e]) = match es with [] => [] | _ => dict_text es ++ [10] end ++ entry_text e.
Proof.
  induction es as [|x [|y es] IH]; [done|..].
  - simpl. by rewrite <- app_assoc.
  - change (dict_text ((x :: y :: es) ++ [e])) with (entry_text x ++ 10 :: dict_text ((y :: es) ++ [e])).
    rewrite IH. change (dict_text (x :: y :: es)) with (entry_text x ++ 10 :: dict_text (y :: es)).
    generalize (dict_text (y :: es)). intros t. by simplify_list_eq.
Qed.

Lemma dict_text_no_nul es : Forall (fun e => legal_key e.1) es -> Forall (fun c => c <> 0) (dict_text es).
Proof.
  assert (forall s, no_end s -> Forall (fun c => c <> 0) s) as Hn.
  { intros s. apply Forall_impl. by intros c Hc ->. }
  induction 1 as [|e es He Hes IH]; [constructor|].
  destruct es; [by apply Hn, no_end_entry|].
  change (Forall (fun c => c <> 0) (entry_text e ++ 10 :: dict_text (p :: es))).
  apply Forall_app; split; [by apply Hn, no_end_entry|]. by constructor.
Qed.

Lemma add_chars_rep d es k v :
  rep d es -> legal_key k ->
  exists d', zlen d' = zlen d /\
    if decide (zlen (dict_text (es ++ [(k, v)])) < zlen d)
    then add_chars d k v = Ok (d', true) /\ rep d' (es ++ [(k, v)])
    else add_chars d k v = Ok (d', false) /\ rep d' es.
Proof.
  intros [Hes [tl ->]] Hk. unfold add_chars.
  rewrite find_nul_app by (by apply dict_text_no_nul).
  set (t := dict_text es) in *.
  set (bs := (if (0 <? length t)%nat then [10] else []) ++ k ++ [61] ++ escape v).
  assert (dict_text (es ++ [(k, v)]) = t ++ bs) as Ht.
  { rewrite dict_text_snoc. subst bs t. destruct es as [|e es]; [done|].
    rewrite (proj2 (Nat.ltb_lt _ _)); [by rewrite <- app_assoc|].
    pose proof (length_dict_text (e :: es)) as Hl. simpl length in Hl at 1. lia. }
  change (Z.of_nat (length t)) with (zlen t).
  set (d := t ++ 0 :: tl). rewrite Ht, zlen_app.
  assert (0 <= zlen t < zlen d) as Hj by (subst d; autorewrite with zlen; unfold zlen; lia).
  pose proof (put_all_spec bs d (zlen t) Hj) as Hput. pose proof (zlen_nonneg bs). case_decide.
  - destruct Hput as (d' & Hw & -> & Hl). cbn [mbind outcome_bind].
    rewrite mem_write1 by lia. eexists; split; [by rewrite zlen_insert|].
    split; [done|]. split; [apply Forall_app; split; [done|by repeat constructor]|].
    assert (length bs < length (0%Z :: tl))%nat as Hlt.
    { subst d. unfold zlen in *. rewrite length_app in *. lia. }
    subst d. rewrite mem_write_split in Hw by lia. injection Hw as <-.
    destruct (drop (length bs) (0 :: tl)) as [|x r] eqn:E.
    { apply (f_equal length) in E. rewrite length_drop in E. simpl in *; lia. }
    exists r. rewrite Ht, app_assoc. rewrite <- zlen_app. unfold zlen. rewrite Nat2Z.id.
    rewrite insert_app_r_alt, Nat.sub_diag by lia. done.
  - destruct Hput as (d' & j' & -> & Hl & Htake). cbn [mbind outcome_bind].
    rewrite mem_write1 by lia. eexists; split; [by rewrite zlen_insert|]. split; [done|].
    split; [done|]. assert (take (Z.to_nat (zlen t)) d' = t) as Htk.
    { rewrite Htake. subst d. unfold zlen. by rewrite Nat2Z.id, take_app_length. }
    rewrite insert_take_drop by (unfold zlen in *; lia). rewrite Htk. by eexists.
Qed.

(** C3. [add] appends: on an array that stands for the entries [es] (the empty array stands for
    none) it either makes the array stand for [es] plus the new entry, which happens exactly when
    the text still leaves room for the NUL, or returns false and leaves the entries as they were. *)
Theorem add_refines d es key value vlen v :
  rep d es -> legal_key key -> value_of value vlen = Ok v ->
  exists d' ok, add d key value vlen = Ok (d', ok) /\ zlen d' = zlen d /\
    rep d' (if ok then es ++ [(key, v)] else es) /\
    (ok = true <-> zlen (dict_text (es ++ [(key, v)])) < zlen d).
Proof.
  intros Hd Hk Hv. unfold add. rewrite Hv. cbn [mbind outcome_bind].
  destruct (add_chars_rep d es key v Hd Hk) as (d' & Hl & H). case_decide; destruct H as [-> Hr].
  - exists d', true. done.
  - exists d', false. done.
Qed.

Lemma Dictionary_new_rep C : (0 < C)%nat -> rep (Dictionary_new C) [].
Proof. intros HC. destruct C; [lia|]. split; [constructor|]. by eexists. Qed.

Lemma add_refines_witness :
  exists d' ok, add (Dictionary_new 8) [110] [1; 0; 61; 9] 3 = Ok (d', ok) /\ zlen d' = 8 /\
    rep d' (if ok then [([110], [1; 0; 61])] else []) /\ (ok = true <-> 7 < 8).
Proof.
  exact (add_refines (Dictionary_new 8) [] [110] [1; 0; 61; 9] 3 [1; 0; 61]
           (Dictionary_new_rep 8 ltac:(lia)) ltac:(by_compute) eq_refl).
Defined.

(** [get] looks up: on an array that stands for [es] it returns the value of the first entry of
    the key, cut to the [destlen - 1] bytes that fit and NUL-terminated, or -1 with an empty
    [dest]. Escaping makes every byte string retrievable, whatever NULs, line ends, equal signs
    and backslashes it holds. *)
Theorem get_refines d es key dest destlen :
  rep d es -> legal_key key -> 0 < destlen <= zlen dest ->
  get d key dest destlen =
    match first_value es key with
    | Some v =>
        let w := take (Z.to_nat (destlen - 1)) v in
        Ok (zlen w, w ++ [0] ++ drop (length w + 1) dest)
    | None => Ok (-1, <[0%nat := 0]> dest)
    end.
Proof.
  intros Hd Hk Hl. rewrite (get_rep d es) by done. destruct (first_value es key) as [v|].
  - unfold stored, fitting. set (w := take _ v). cbn zeta.
    assert (length (w ++ [0%Z]) <= length dest)%nat.
    { rewrite length_app. subst w. rewrite length_take. simpl. unfold zlen in *. lia. }
    assert (mem_write dest 0 (w ++ [0]) = Ok ((w ++ [0]) ++ drop (length (w ++ [0%Z])) dest)) as ->
      by (by apply (mem_write_split [])).
    cbn [mbind outcome_bind].
    by rewrite <- app_assoc, length_app.
  - unfold not_found. by rewrite mem_write1 by lia.
Qed.

Lemma get_refines_witness :
  get [97; 61; 120; 10; 98; 61; 92; 101; 121; 0; 7] [98] [9; 9; 9; 9] 4 = Ok (2, [61; 121; 0; 9]).
Proof.
  rewrite (get_refines _ [([97], [120]); ([98], [61; 121])] [98] [9; 9; 9; 9] 4);
    [reflexivity | | by_compute | split; by_compute].
  split; [by_compute|]. by exists [7].
Defined.

(** *** Numbers *)

Fixpoint hexdigits (n : nat) (v : Z) : list Z :=
  match n with O => [] | S m => hexdigit v (4 * Z.of_nat m) :: hexdigits m v end.

Lemma hex64_eq v : hex64 v = hexdigits 16 v ++ [0].
Proof. reflexivity. Qed.

Lemma hexdigit_eq v k : 0 <= k -> exists n, 0 <= n < 16 /\ hexdigit v k = hexchar n /\ n = v / 2 ^ k mod 2 ^ 4.
Proof.
  intros. exists (v / 2 ^ k mod 2 ^ 4). split_and!; [apply Z.mod_pos_bound; lia..| |done].
  unfold hexdigit. change 0xf with (Z.ones 4). by rewrite Z.land_ones, Z.shiftr_div_pow2 by lia.
Qed.

Definition plain_hex (c : Z) : Prop := c <> 0 /\ c <> 45 /\ c <> 43 /\ c <> 120 /\ c <> 88 /\ is_space c = false.

Lemma hexchar_spec n : 0 <= n < 16 -> hex_value (hexchar n) = Some n /\ plain_hex (hexchar n).
Proof.
  intros Hn. rewrite <- (Z2Nat.id n) by lia. assert (Z.to_nat n < 16)%nat as H by lia. revert H.
  generalize (Z.to_nat n). intros m Hm.
  assert (m ∈ seq 0 16) as Hin by (apply elem_of_seq; lia). revert Hin.
  refine (proj1 (list.Forall_forall (fun m => hex_value (hexchar (Z.of_nat m)) = Some (Z.of_nat m) /\
    plain_hex (hexchar (Z.of_nat m))) (seq 0 16)) _ m).
  repeat (apply Forall_cons_2; [by_compute || (split; [reflexivity|unfold plain_hex; by_compute])|]).
  apply Forall_nil_2.
Qed.

Lemma zlen_hexdigits n v : zlen (hexdigits n v) = Z.of_nat n.
Proof. induction n; [done|]. cbn [hexdigits]. autorewrite with zlen. rewrite IHn. lia. Qed.

Lemma hexdigits_plain n v : Forall plain_hex (hexdigits n v).
Proof.
  induction n; constructor; [|done].
  destruct (hexdigit_eq v (4 * Z.of_nat n)) as (m & Hm & -> & _); [lia|]. by apply hexchar_spec.
Qed.

Lemma hex_digits_hexdigits n v : forall acc,
  hex_digits (hexdigits n v) acc = acc * 2 ^ (4 * Z.of_nat n) + v mod 2 ^ (4 * Z.of_nat n).
Proof.
  induction n as [|n IH]; intros acc; [simpl; rewrite Z.mod_1_r; lia|]. simpl hex_digits.
  destruct (hexdigit_eq v (4 * Z.of_nat n)) as (m & Hm & -> & Hmv); [lia|].
  destruct (hexchar_spec m Hm) as [-> _]. rewrite IH, Hmv.
  replace (4 * Z.of_nat (S n)) with (4 * Z.of_nat n + 4) by lia.
  rewrite Z.pow_add_r, Z.rem_mul_r by lia. change (2 ^ 4) with 16. ring.
Qed.

Lemma value_cstr_hex n v : value_cstr (hexdigits n v ++ [0]) = Ok (hexdigits n v).
Proof.
  pose proof (hexdigits_plain n v) as Hp. induction Hp as [|c s Hc Hs IH]; [done|].
  simpl. rewrite (proj2 (Z.eqb_neq _ _) (proj1 Hc)). by rewrite IH.
Qed.

Lemma value_of_minus n v : value_of (45 :: hexdigits n v ++ [0]) (-1) = Ok (45 :: hexdigits n v).
Proof. change ((r ← value_cstr (hexdigits n v ++ [0]); Ok (45 :: r)) = Ok (45 :: hexdigits n v)). by rewrite value_cstr_hex. Qed.

Lemma cstr_hex s r : Forall (fun c => c <> 0) s -> cstr (s ++ 0 :: r) = s.
Proof.
  induction 1 as [|c s Hc Hs IH]; [done|]. simpl. by rewrite (proj2 (Z.eqb_neq _ _) Hc), IH.
Qed.

Lemma skip_0x_plain s : Forall plain_hex s -> skip_0x s = s.
Proof.
  intros Hs. destruct s as [|a [|x [|c s]]]; try done.
  all: try (unfold skip_0x; by repeat case_match).
  apply list.Forall_cons in Hs as [_ Hs]. apply list.Forall_cons in Hs as [(_ & _ & _ & H120 & H88 & _) _].
  unfold skip_0x. rewrite (proj2 (Z.eqb_neq _ _) H120), (proj2 (Z.eqb_neq _ _) H88). simpl.
  by repeat case_match.
Qed.

Lemma skip_space_plain c s : is_space c = false -> skip_space (c :: s) = c :: s.
Proof. intros H. simpl. by rewrite H. Qed.

Lemma strto_hex_plain n v :
  strto_hex (hexdigits (S n) v) = (false, v mod 2 ^ (4 * Z.of_nat (S n))) /\
  strto_hex (45 :: hexdigits (S n) v) = (true, v mod 2 ^ (4 * Z.of_nat (S n))).
Proof.
  pose proof (hexdigits_plain (S n) v) as Hp. pose proof (skip_0x_plain _ Hp) as H0.
  pose proof (hex_digits_hexdigits (S n) v 0) as Hd. rewrite Z.mul_0_l, Z.add_0_l in Hd.
  split; unfold strto_hex.
  - simpl hexdigits in *. apply list.Forall_cons in Hp as [(_ & H45 & H43 & _ & _ & Hs) _].
    rewrite skip_space_plain by done.
    revert H0 Hd H45 H43. generalize (hexdigit v (4 * Z.of_nat n)). intros c H0 Hd H45 H43.
    assert (match c with 45 => True | 43 => True | _ => False end -> False) as Hc.
    { destruct (decide (c = 45)) as [->|]; [done|]. destruct (decide (c = 43)) as [->|]; [done|].
      by repeat case_match. }
    transitivity (false, hex_digits (skip_0x (c :: hexdigits n v)) 0).
    + revert Hc. by repeat case_match.
    + by rewrite H0, Hd.
  - rewrite skip_space_plain by done. by rewrite H0, Hd.
Qed.

Lemma get_stored d es key v tmp :
  rep d es -> legal_key key -> first_value es key = Some v -> zlen tmp = 128 ->
  Forall (fun c => c <> 0) v -> zlen v < 128 ->
  exists t, get d key tmp 128 = Ok (zlen v, t) /\ cstr t = v.
Proof.
  intros Hd Hk Hf Ht Hv Hl. rewrite (get_refines d es key tmp 128) by (done || lia). rewrite Hf.
  rewrite take_ge by (unfold zlen in *; lia). cbn zeta. eexists; split; [done|].
  by apply (cstr_hex v).
Qed.

(** Numbers survive a dictionary: what [add(key, uint64_t)] and [add(key, int64_t)] store under
    a fresh key, [getUI] and [getI] return; the one exception is INT64_MIN, whose negation
    overflows. *)
Theorem numbers_roundtrip d es key n tmp dfl :
  rep d es -> legal_key key -> first_value es key = None -> zlen tmp = 128 ->
  (0 <= n < 2 ^ 64 -> forall d', addUI d key n = Ok (d', true) -> getUI tmp d' key dfl = Ok n) /\
  (- 2 ^ 63 < n < 2 ^ 63 -> forall d', addI d key n = Ok (d', true) -> getI tmp d' key dfl = Ok n) /\
  addI d key (- 2 ^ 63) = Undef.
Proof.
  intros Hd Hk Hf Ht.
  assert (forall es v, first_value es key = None -> first_value (es ++ [(key, v)]) key = Some v) as Hsnoc.
  { clear. induction es as [|[k w] es IH]; intros v H; simpl in *; [by rewrite decide_True|].
    by case_decide; [|apply IH]. }
  assert (forall v value d', value_of value (-1) = Ok v -> add d key value (-1) = Ok (d', true) ->
    Forall (fun c => c <> 0) v -> zlen v < 128 ->
    exists t, get d' key tmp 128 = Ok (zlen v, t) /\ cstr t = v) as Hget.
  { intros v value d' Hv Ha Hnz Hl.
    destruct (add_refines d es key value (-1) v Hd Hk Hv) as (d2 & ok & Ha2 & _ & Hr & _).
    rewrite Ha in Ha2. injection Ha2 as <- <-. by apply (get_stored d' (es ++ [(key, v)])); auto. }
  assert (forall k v, Forall (fun c => c <> 0) (hexdigits k v)) as Hnz.
  { intros k v. eapply list.Forall_impl; [apply hexdigits_plain|]. by intros c [? _]. }
  split_and!.
  - intros Hn d' Ha. unfold addUI in Ha. rewrite hex64_eq in Ha.
    destruct (Hget (hexdigits 16 n) _ d' (value_cstr_hex 16 n) Ha (Hnz _ _)) as (t & Hg & Hc);
      [rewrite zlen_hexdigits; lia|].
    unfold getUI. rewrite Hg. cbn [mbind outcome_bind]. rewrite Hc. f_equal.
    change (1 <=? zlen (hexdigits 16 n)) with true. unfold hexStrToU64.
    rewrite (proj1 (strto_hex_plain 15 n)). change (4 * Z.of_nat 16) with 64.
    rewrite Z.mod_small by done. by rewrite (proj2 (Z.leb_gt _ _)) by lia.
  - intros Hn d' Ha. unfold addI in Ha. rewrite !hex64_eq in Ha. unfold getI.
    destruct (Z.leb_spec 0 n).
    + destruct (Hget _ _ d' (value_cstr_hex 16 (u64 n)) Ha (Hnz _ _)) as (t & Hg & Hc);
        [rewrite zlen_hexdigits; lia|]. rewrite Hg.
      cbn [mbind outcome_bind]. rewrite Hc. f_equal.
      change (1 <=? zlen _) with true. unfold hexStrTo64.
      rewrite (proj1 (strto_hex_plain 15 (u64 n))). change (4 * Z.of_nat 16) with 64.
      rewrite u64_small, Z.mod_small by lia. lia.
    + rewrite (proj2 (Z.eqb_neq _ _)) in Ha by lia.
      pose proof (value_of_minus 16 (u64 (n * -1))) as Hv.
      destruct (Hget _ _ d' Hv Ha) as (t & Hg & Hc);
        [apply Forall_cons_2; [lia|apply Hnz] | autorewrite with zlen; rewrite zlen_hexdigits; lia|].
      rewrite Hg.
      cbn [mbind outcome_bind]. rewrite Hc. f_equal.
      change (1 <=? zlen _) with true. unfold hexStrTo64.
      rewrite (proj2 (strto_hex_plain 15 (u64 (n * -1)))). change (4 * Z.of_nat 16) with 64.
      rewrite u64_small, Z.mod_small by lia. lia.
  - reflexivity.
Qed.

Lemma numbers_roundtrip_witness :
  getI (replicate 128 7) [110; 61; 45; 48; 48; 48; 48; 48; 48; 48; 48; 48; 48; 48; 48; 48; 48; 48; 53; 0] [110] 1
  = Ok (-5).
Proof.
  apply (numbers_roundtrip (Dictionary_new 20) [] [110] (-5) (replicate 128 7) 1);
    [apply Dictionary_new_rep; lia | by_compute | reflexivity | reflexivity | split; by_compute | reflexivity].
Defined.
