(* ===== verification/Hashtable.v ===== *)
(** * The separate-chaining hash table (node/Hashtable.hpp)

    A table is its array of bucket chains, the first node of a chain first, and the count [_s];
    the number of buckets [_bc] is the length of the array. The hash [_hc] is a parameter of the
    operations; the four overloads for integers are at the end. Each operation that allocates the
    bucket array takes a boolean: whether that [malloc] succeeds. The table refines a finite map. *)

From S2P Require Import Prelude.

Record Hashtable (K V : Type) := mkTable { _t : list (list (K * V)); _s : Z }.
Arguments mkTable {K V} _t _s.
Arguments _t {K V} h : rename.
Arguments _s {K V} h : rename.

(** A position of [Hashtable::Iterator]: the bucket and, for the pointer [_b], the key of the node
    it points to. *)
Record Iterator (K : Type) := mkIter { it_idx : nat; it_b : option K }.
Arguments mkIter {K} it_idx it_b.
Arguments it_idx {K} i : rename.
Arguments it_b {K} i : rename.

Section Table.
Context {K V : Type} `{Countable K} (_hc : K -> Z).
Implicit Types (h : Hashtable K V) (k : K) (v : V).

Definition _bc h : Z := zlen (_t h).

(** [_hc(k) % n], undefined for [n = 0]. *)
Definition bucket_of (n : Z) k : outcome nat := if n =? 0 then Undef else Ok (Z.to_nat (_hc k mod n)).

Definition chain (t : list (list (K * V))) (i : nat) : list (K * V) := default [] (t !! i).

Definition Hashtable_new (mem : bool) (bc : nat) : outcome (Hashtable K V) :=
  if mem then Ok (mkTable (replicate bc []) 0) else Throw OutOfMemory.

(** The copy constructor pushes each node of a chain in front: the copied chains are reversed. *)
Definition copy (mem : bool) h : outcome (Hashtable K V) :=
  if mem then Ok (mkTable ((fun c => rev c) <$> _t h) (_s h)) else Throw OutOfMemory.

Definition clear h : Hashtable K V :=
  if _s h =? 0 then h else mkTable (replicate (length (_t h)) []) 0.

Definition entries h : list (K * V) := if _s h =? 0 then [] else concat (_t h).
Definition keys h : list K := if _s h =? 0 then [] else fst <$> concat (_t h).
Definition appendKeys h (l : list K) : list K := if _s h =? 0 then l else l ++ (fst <$> concat (_t h)).

Fixpoint chain_get k (c : list (K * V)) : option V :=
  match c with
  | [] => None
  | (k', v) :: c' => if decide (k' = k) then Some v else chain_get k c'
  end.

Definition get h k : outcome (option V) :=
  i ← bucket_of (_bc h) k; Ok (chain_get k (chain (_t h) i)).

(** [get(k, v)] leaves [v] alone when the key is absent. *)
Definition get_into h k v : outcome (V * bool) :=
  r ← get h k; Ok (match r with Some w => (w, true) | None => (v, false) end).

Definition contains h k : outcome bool :=
  i ← bucket_of (_bc h) k; Ok (match chain_get k (chain (_t h) i) with Some _ => true | None => false end).

Fixpoint chain_erase k (c : list (K * V)) : option (list (K * V)) :=
  match c with
  | [] => None
  | (k', v) :: c' =>
      if decide (k' = k) then Some c'
      else match chain_erase k c' with Some r => Some ((k', v) :: r) | None => None end
  end.

Definition erase h k : outcome (Hashtable K V * bool) :=
  i ← bucket_of (_bc h) k;
  match chain_erase k (chain (_t h) i) with
  | Some c => Ok (mkTable (<[i := c]> (_t h)) (u32 (_s h - 1)), true)
  | None => Ok (h, false)
  end.

Fixpoint chain_set k v (c : list (K * V)) : option (list (K * V)) :=
  match c with
  | [] => None
  | (k', w) :: c' =>
      if decide (k' = k) then Some ((k', v) :: c')
      else match chain_set k v c' with Some r => Some ((k', w) :: r) | None => None end
  end.

(** One node moved to the new array. *)
Definition push (nt : list (list (K * V))) (e : K * V) : list (list (K * V)) :=
  let i := Z.to_nat (_hc e.1 mod zlen nt) in <[i := e :: chain nt i]> nt.

(** [_grow]: from [2^29] buckets on, the byte count of the new array does not fit [size_t]; when
    the allocation fails the table stays as it is. *)
Definition grow (mem : bool) h : outcome (Hashtable K V) :=
  if 2 ^ 32 <=? 4 * (_bc h * 2) then Undef
  else if mem then
    Ok (mkTable (fold_left push (concat (_t h)) (replicate (length (_t h) * 2) [])) (_s h))
  else Ok h.

(** The end of [set] and [operator[]]: grow at load factor 1, then push a node. *)
Definition add_node (mem : bool) h k v : outcome (Hashtable K V) :=
  h' ← (if _bc h <=? _s h then grow mem h else Ok h);
  i ← bucket_of (_bc h') k;
  Ok (mkTable (<[i := (k, v) :: chain (_t h') i]> (_t h')) (u32 (_s h' + 1))).

Definition set (mem : bool) h k v : outcome (Hashtable K V) :=
  i ← bucket_of (_bc h) k;
  match chain_set k v (chain (_t h) i) with
  | Some c => Ok (mkTable (<[i := c]> (_t h)) (_s h))
  | None => add_node mem h k v
  end.

(** [operator[]], with the value of [V()] as argument. *)
Definition index (mem : bool) (dflt : V) h k : outcome (Hashtable K V * V) :=
  i ← bucket_of (_bc h) k;
  match chain_get k (chain (_t h) i) with
  | Some v => Ok (h, v)
  | None => h' ← add_node mem h k dflt; Ok (h', dflt)
  end.

Fixpoint set_all (mem : bool) h (l : list (K * V)) : outcome (Hashtable K V) :=
  match l with [] => Ok h | (k, v) :: l' => h' ← set mem h k v; set_all mem h' l' end.

(** [operator=] of a table that is another object than [h]. *)
Definition assign (mem : bool) h (src : Hashtable K V) : outcome (Hashtable K V) :=
  if _s src =? 0 then Ok (clear h) else set_all mem (clear h) (concat (_t src)).

Definition size h : Z := _s h.
Definition empty h : bool := _s h =? 0.

Definition Iterator_new h : Iterator K := mkIter 0 (fst <$> head (chain (_t h) 0)).

(** The node with key [k] and the key of its successor. *)
Fixpoint node_at k (c : list (K * V)) : option (K * V * option K) :=
  match c with
  | [] => None
  | (k', v) :: c' => if decide (k' = k) then Some (k', v, fst <$> head c') else node_at k c'
  end.

(** [next]: a pointer whose node is gone is undefined. The loop passes each bucket at most once. *)
Fixpoint next_loop (fuel : nat) h (it : Iterator K) : outcome (option (K * V) * Iterator K) :=
  match it_b it with
  | Some k =>
      match node_at k (chain (_t h) (it_idx it)) with
      | Some (e, nb) => Ok (Some e, mkIter (it_idx it) nb)
      | None => Undef
      end
  | None =>
      let it' := mkIter (S (it_idx it)) None in
      if _bc h <=? Z.of_nat (it_idx it') then Ok (None, it')
      else match fuel with
           | O => Undef
           | S f => next_loop f h (mkIter (it_idx it') (fst <$> head (chain (_t h) (it_idx it'))))
           end
  end.
Definition next h it : outcome (option (K * V) * Iterator K) := next_loop (length (_t h)) h it.

(** The loop of the callers that clean a table ([Topology], [Multicaster], [Switch]): visit every
    entry and erase the ones that satisfy [p]. *)
Fixpoint visit (p : K -> V -> bool) (fuel : nat) h (it : Iterator K) :
  outcome (list (K * V) * Hashtable K V) :=
  match fuel with
  | O => Undef
  | S f =>
      '(e, it') ← next h it;
      match e with
      | None => Ok ([], h)
      | Some (k, v) =>
          h' ← (if p k v then fst <$> erase h k else Ok h);
          '(l, h'') ← visit p f h' it';
          Ok ((k, v) :: l, h'')
      end
  end.

(** ** The table as a finite map *)

(** Every node is in the chain its key hashes to. *)
Definition placed (t : list (list (K * V))) : Prop :=
  forall i c e, t !! i = Some c -> e ∈ c -> i = Z.to_nat (_hc e.1 mod zlen t).

Record rep h (m : gmap K V) : Prop := mkRep {
  rep_bc : 0 < _bc h;
  rep_placed : placed (_t h);
  rep_size : _s h = Z.of_nat (base.size m);
  rep_entries : concat (_t h) ≡ₚ map_to_list m }.

Lemma concat_split (t : list (list (K * V))) i :
  (i < length t)%nat ->
  exists r, concat t ≡ₚ chain t i ++ r /\ forall c, concat (<[i := c]> t) ≡ₚ c ++ r.
Proof.
  intros Hi. destruct (lookup_lt_is_Some_2 t i Hi) as [c Hc]. unfold chain. rewrite Hc.
  exists (concat (take i t) ++ concat (drop (S i) t)). split.
  - transitivity (concat (take i t ++ c :: drop (S i) t)); [by rewrite (take_drop_middle t i c Hc)|].
    rewrite concat_app; simpl; solve_Permutation.
  - intros d. rewrite insert_take_drop by done. rewrite concat_app; simpl; solve_Permutation.
Qed.

Lemma elem_of_concat (t : list (list (K * V))) e : e ∈ concat t <-> exists i c, t !! i = Some c /\ e ∈ c.
Proof.
  rewrite list_elem_of_In, in_concat. split.
  - intros (c & Hc & He). apply list_elem_of_In in Hc, He. apply list_elem_of_lookup in Hc as [i Hi]. eauto.
  - intros (i & c & Hi & He). exists c. rewrite <- !list_elem_of_In. split; [|done]. by eapply list_elem_of_lookup_2.
Qed.

Lemma bucket_of_Ok n k : 0 < n -> bucket_of n k = Ok (Z.to_nat (_hc k mod n)).
Proof. intros. unfold bucket_of. by rewrite (proj2 (Z.eqb_neq _ _)) by lia. Qed.

Lemma bucket_lt (t : list (list (K * V))) k :
  0 < zlen t -> (Z.to_nat (_hc k mod zlen t) < length t)%nat.
Proof. intros. pose proof (Z.mod_pos_bound (_hc k) (zlen t)). unfold zlen in *. lia. Qed.

Lemma chain_lookup (t : list (list (K * V))) i e :
  e ∈ chain t i -> t !! i = Some (chain t i).
Proof. unfold chain. destruct (t !! i); simpl; [done|]. by intros ?%not_elem_of_nil. Qed.

Lemma chain_get_Some k v (c : list (K * V)) :
  NoDup (fst <$> c) -> chain_get k c = Some v <-> (k, v) ∈ c.
Proof.
  induction c as [|[k' w] c IH]; simpl; intros Hn; [set_solver|].
  apply list.NoDup_cons in Hn as [Hk Hn]. case_decide; subst.
  - split; [intros [= ->]; set_solver|]. intros [[=]|Hi]%elem_of_cons; [by subst|].
    destruct Hk. apply list_elem_of_fmap. by exists (k, v).
  - rewrite IH by done. set_solver.
Qed.

Lemma chain_get_None k (c : list (K * V)) : chain_get k c = None <-> k ∉ (fst <$> c).
Proof.
  induction c as [|[k' w] c IH]; simpl; [set_solver|]. case_decide; set_solver.
Qed.

Lemma chain_erase_Some k (c : list (K * V)) :
  match chain_erase k c with
  | Some c' => exists l v r, c = l ++ (k, v) :: r /\ c' = l ++ r /\ chain_get k c = Some v
  | None => chain_get k c = None
  end.
Proof.
  induction c as [|[k' w] c IH]; simpl; [done|]. case_decide; [subst; by exists [], w, c|].
  destruct (chain_erase k c); [|done]. destruct IH as (a & v & r & -> & -> & ?).
  by exists ((k', w) :: a), v, r.
Qed.

Lemma chain_set_Some k v (c : list (K * V)) :
  match chain_set k v c with
  | Some c' => exists l w r, c = l ++ (k, w) :: r /\ c' = l ++ (k, v) :: r /\ chain_get k c = Some w
  | None => chain_get k c = None
  end.
Proof.
  induction c as [|[k' w] c IH]; simpl; [done|]. case_decide; [subst; by exists [], w, c|].
  destruct (chain_set k v c); [|done]. destruct IH as (a & u & r & -> & -> & ?).
  by exists ((k', w) :: a), u, r.
Qed.

Lemma rep_nodup h m : rep h m -> NoDup (fst <$> concat (_t h)).
Proof. intros Hr. rewrite (rep_entries _ _ Hr). apply NoDup_fst_map_to_list. Qed.

Lemma rep_chain_nodup h m i : rep h m -> NoDup (fst <$> chain (_t h) i).
Proof.
  intros Hr. destruct (decide (i < length (_t h))%nat) as [Hi|Hi].
  - destruct (concat_split (_t h) i Hi) as (r & Hc & _). pose proof (rep_nodup _ _ Hr) as Hn.
    rewrite Hc, fmap_app in Hn. by apply list.NoDup_app in Hn as [? _].
  - unfold chain. rewrite lookup_ge_None_2 by lia. constructor.
Qed.

(** The loop that every operation starts with finds what the map holds. *)
Lemma rep_chain_get h m k :
  rep h m -> chain_get k (chain (_t h) (Z.to_nat (_hc k mod _bc h))) = m !! k.
Proof.
  intros Hr. apply option_eq; intros v. rewrite chain_get_Some by by eapply rep_chain_nodup.
  rewrite <- elem_of_map_to_list, <- (rep_entries _ _ Hr). split.
  - intros He. apply elem_of_concat. eauto using chain_lookup.
  - intros (j & c & Hj & He)%elem_of_concat.
    pose proof (rep_placed _ _ Hr j c _ Hj He) as ->. unfold chain, _bc in *. simpl in *. by rewrite Hj.
Qed.

Lemma placed_insert (t : list (list (K * V))) i c :
  placed t -> (forall e, e ∈ c -> i = Z.to_nat (_hc e.1 mod zlen t)) -> placed (<[i := c]> t).
Proof.
  intros Hp Hc j d e Hj He. rewrite zlen_insert.
  destruct (decide (i = j)) as [<-|Hij].
  - pose proof (lookup_lt_Some _ _ _ Hj) as Hl. rewrite length_insert in Hl.
    rewrite list_lookup_insert_eq in Hj by done. simplify_eq; auto.
  - rewrite list_lookup_insert_ne in Hj by done. eauto.
Qed.

(** A chain replaced by one whose nodes still belong there. *)
Lemma rep_update h m m' i c s r :
  rep h m -> (i < length (_t h))%nat ->
  concat (_t h) ≡ₚ chain (_t h) i ++ r ->
  (forall e, e ∈ c -> i = Z.to_nat (_hc e.1 mod _bc h)) ->
  c ++ r ≡ₚ map_to_list m' -> s = Z.of_nat (base.size m') ->
  rep (mkTable (<[i := c]> (_t h)) s) m'.
Proof.
  intros Hr Hi Hc Hp Hm Hs. destruct (concat_split (_t h) i Hi) as (r' & Hc' & Hins).
  split; cbn [_t _s]; unfold _bc in *; cbn [_t] in *.
  - rewrite zlen_insert. apply (rep_bc _ _ Hr).
  - apply placed_insert; [apply (rep_placed _ _ Hr)|done].
  - done.
  - rewrite Hins, <- Hm. f_equiv. apply (Permutation_app_inv_l (chain (_t h) i)). by rewrite <- Hc, <- Hc'.
Qed.

Lemma rep_split h m k :
  rep h m -> let i := Z.to_nat (_hc k mod _bc h) in
  bucket_of (_bc h) k = Ok i /\ (i < length (_t h))%nat /\
  (forall e, e ∈ chain (_t h) i -> i = Z.to_nat (_hc e.1 mod _bc h)) /\
  exists r, concat (_t h) ≡ₚ chain (_t h) i ++ r /\ chain (_t h) i ++ r ≡ₚ map_to_list m.
Proof.
  intros Hr i. assert (i < length (_t h))%nat as Hi by (apply bucket_lt, (rep_bc _ _ Hr)).
  split_and!; [apply bucket_of_Ok, (rep_bc _ _ Hr) | done | |].
  - intros e He. by apply (rep_placed _ _ Hr i _ e (chain_lookup _ _ _ He)).
  - destruct (concat_split (_t h) i Hi) as (r & Hc & _). exists r. split; [done|].
    by rewrite <- Hc, (rep_entries _ _ Hr).
Qed.

Lemma table_get_rep h m k : rep h m -> get h k = Ok (m !! k).
Proof.
  intros Hr. destruct (rep_split h m k Hr) as (Hb & _). unfold get. rewrite Hb.
  cbn [mbind outcome_bind]. by rewrite (rep_chain_get h m k Hr).
Qed.

Lemma contains_rep h m k : rep h m -> contains h k = Ok (bool_decide (is_Some (m !! k))).
Proof.
  intros Hr. destruct (rep_split h m k Hr) as (Hb & _). unfold contains. rewrite Hb.
  cbn [mbind outcome_bind]. rewrite (rep_chain_get h m k Hr). f_equal.
  destruct (m !! k); [by rewrite bool_decide_true|]. rewrite bool_decide_false; [done|]. by intros [? ?].
Qed.

Lemma chain_mid h m k l v r (i := Z.to_nat (_hc k mod _bc h)) :
  rep h m -> chain (_t h) i = l ++ (k, v) :: r -> m !! k = Some v ->
  exists r', concat (_t h) ≡ₚ chain (_t h) i ++ r' /\ (l ++ r) ++ r' ≡ₚ map_to_list (delete k m).
Proof.
  intros Hr Hc Hm. destruct (rep_split h m k Hr) as (_ & _ & _ & r' & Hp & Hl). exists r'. split; [done|].
  fold i in Hl. rewrite Hc in Hl. apply (Permutation_cons_inv (a := (k, v))).
  rewrite <- map_to_list_insert by apply lookup_delete_eq. rewrite insert_delete_id by done. rewrite <- Hl.
  solve_Permutation.
Qed.

Lemma erase_rep h m k :
  rep h m -> Z.of_nat (base.size m) < 2 ^ 32 ->
  exists h', erase h k = Ok (h', bool_decide (is_Some (m !! k))) /\ rep h' (delete k m) /\ _bc h' = _bc h.
Proof.
  intros Hr Hsz. destruct (rep_split h m k Hr) as (Hb & Hi & Hp & _). unfold erase. rewrite Hb.
  cbn [mbind outcome_bind]. pose proof (rep_chain_get h m k Hr) as Hg.
  pose proof (chain_erase_Some k (chain (_t h) (Z.to_nat (_hc k mod _bc h)))) as He.
  destruct (chain_erase _ _) as [c'|].
  - destruct He as (l & v & r & Hc & -> & Hv). rewrite Hv in Hg. symmetry in Hg.
    destruct (chain_mid h m k l v r Hr Hc Hg) as (r' & Hr1 & Hr2).
    eexists; split; [by rewrite Hg, bool_decide_true|]. split; [|unfold _bc; cbn [_t]; by rewrite zlen_insert].
    eapply rep_update; eauto.
    + intros e He. apply Hp. rewrite Hc. set_solver.
    + rewrite (rep_size _ _ Hr), map_size_delete, Hg.
      assert (base.size m <> 0%nat) by (intros E%map_size_empty_inv; by rewrite E, lookup_empty in Hg).
      rewrite u32_small; lia.
  - rewrite He in Hg. exists h. rewrite <- Hg, bool_decide_false by (by intros [? ?]).
    split_and!; [done| |done]. by rewrite delete_id.
Qed.

Lemma concat_replicate n : concat (replicate n (@nil (K * V))) = [].
Proof. by induction n. Qed.

Lemma placed_empty n : placed (replicate n []).
Proof. intros i c e Hi He. apply lookup_replicate in Hi as [-> _]. by apply not_elem_of_nil in He. Qed.

Lemma push_ok (t : list (list (K * V))) e :
  0 < zlen t -> placed t ->
  placed (push t e) /\ zlen (push t e) = zlen t /\ concat (push t e) ≡ₚ e :: concat t.
Proof.
  intros Hl Hp. pose proof (bucket_lt t e.1 Hl) as Hi. unfold push. split_and!.
  - apply placed_insert; [done|]. intros e' [->|He]%elem_of_cons; [done|].
    by apply (Hp _ _ _ (chain_lookup _ _ _ He)).
  - apply zlen_insert.
  - destruct (concat_split t _ Hi) as (r & Hc & Hins). rewrite Hins, Hc. done.
Qed.

Lemma fold_push_ok l : forall t : list (list (K * V)),
  0 < zlen t -> placed t ->
  placed (fold_left push l t) /\ zlen (fold_left push l t) = zlen t /\
  concat (fold_left push l t) ≡ₚ l ++ concat t.
Proof.
  induction l as [|e l IH]; intros t Hl Hp; [done|]. simpl.
  destruct (push_ok t e Hl Hp) as (Hp' & Hz & Hc). destruct (IH (push t e)) as (? & Hz' & Hc'); [lia|done|].
  split_and!; [done|lia|]. rewrite Hc', Hc. solve_Permutation.
Qed.

(** The capacity after a possible growth. *)
Definition grown (mem : bool) (bc s : Z) : Z := if (bc <=? s) && mem then 2 * bc else bc.

Lemma grow_rep mem h m :
  rep h m -> _bc h < 2 ^ 29 ->
  exists h', grow mem h = Ok h' /\ rep h' m /\ _bc h' = if mem then 2 * _bc h else _bc h.
Proof.
  intros Hr Hb. unfold grow. rewrite (proj2 (Z.leb_gt _ _)) by lia.
  destruct mem; [|by exists h]. eexists; split; [done|].
  set (t0 := replicate _ _). pose proof (rep_bc _ _ Hr).
  assert (zlen t0 = 2 * _bc h) as Hz by (unfold t0, _bc, zlen; rewrite length_replicate; lia).
  destruct (fold_push_ok (concat (_t h)) t0) as (Hp & Hl & Hc); [lia|apply placed_empty|].
  rewrite Hz in Hl. split; [split; unfold _bc in *; cbn [_t _s]|done].
  - lia.
  - done.
  - apply (rep_size _ _ Hr).
  - rewrite Hc. unfold t0. rewrite concat_replicate, app_nil_r. apply (rep_entries _ _ Hr).
Qed.

Lemma add_node_rep mem h m k v :
  rep h m -> m !! k = None -> _bc h < 2 ^ 29 -> Z.of_nat (base.size m) < 2 ^ 31 ->
  exists h', add_node mem h k v = Ok h' /\ rep h' (<[k := v]> m) /\ _bc h' = grown mem (_bc h) (_s h).
Proof.
  intros Hr Hm Hb Hsz.
  assert (exists h1, (if _bc h <=? _s h then grow mem h else Ok h) = Ok h1 /\ rep h1 m /\
                     _bc h1 = grown mem (_bc h) (_s h)) as (h1 & Hg & Hr1 & Hb1).
  { unfold grown. destruct (_bc h <=? _s h); [|by exists h].
    destruct (grow_rep mem h m) as (h1 & ? & ? & ?); [done..|]. exists h1. by destruct mem. }
  unfold add_node. rewrite Hg. cbn [mbind outcome_bind].
  destruct (rep_split h1 m k Hr1) as (Hbk & Hi & Hp & r & Hr2 & Hr3). rewrite Hbk. cbn [mbind outcome_bind].
  eexists; split; [done|]. split; [|unfold _bc at 1; cbn [_t]; by rewrite zlen_insert].
  eapply rep_update; eauto.
  - intros e [->|He]%elem_of_cons; [done|auto].
  - simpl. by rewrite map_to_list_insert, Hr3 by done.
  - rewrite (rep_size _ _ Hr1), map_size_insert_None by done. rewrite u32_small; lia.
Qed.

Definition set_bc (mem : bool) h (m : gmap K V) k : Z :=
  if decide (m !! k = None) then grown mem (_bc h) (_s h) else _bc h.

Lemma set_rep mem h m k v :
  rep h m -> _bc h < 2 ^ 29 -> Z.of_nat (base.size m) < 2 ^ 31 ->
  exists h', set mem h k v = Ok h' /\ rep h' (<[k := v]> m) /\ _bc h' = set_bc mem h m k.
Proof.
  intros Hr Hb Hsz. destruct (rep_split h m k Hr) as (Hbk & Hi & Hp & _). unfold set. rewrite Hbk.
  cbn [mbind outcome_bind]. pose proof (rep_chain_get h m k Hr) as Hg. unfold set_bc.
  pose proof (chain_set_Some k v (chain (_t h) (Z.to_nat (_hc k mod _bc h)))) as He.
  destruct (chain_set k v _) as [c'|].
  - destruct He as (l & w & r & Hc & -> & Hv). rewrite Hv in Hg. symmetry in Hg.
    destruct (chain_mid h m k l w r Hr Hc Hg) as (r' & Hr1 & Hr2).
    eexists; split; [done|]. rewrite decide_False by congruence.
    split; [|unfold _bc; cbn [_t]; by rewrite zlen_insert].
    eapply rep_update; eauto.
    + intros e He. destruct (decide (e.1 = k)) as [->|Hne]; [done|]. apply Hp. rewrite Hc.
      apply elem_of_app in He as [He|He]; [set_solver|]. apply elem_of_cons in He as [->|He]; [done|set_solver].
    + rewrite <- insert_delete_eq, map_to_list_insert by apply lookup_delete_eq.
      rewrite <- Hr2. solve_Permutation.
    + by rewrite (rep_size _ _ Hr), map_size_insert_Some by eauto.
  - rewrite He in Hg. rewrite decide_True by done. apply add_node_rep; auto.
Qed.

Lemma index_rep mem dflt h m k :
  rep h m -> _bc h < 2 ^ 29 -> Z.of_nat (base.size m) < 2 ^ 31 ->
  exists h', index mem dflt h k = Ok (h', default dflt (m !! k)) /\
    rep h' (if decide (m !! k = None) then <[k := dflt]> m else m) /\ _bc h' = set_bc mem h m k.
Proof.
  intros Hr Hb Hsz. destruct (rep_split h m k Hr) as (Hbk & _). unfold index, set_bc. rewrite Hbk.
  cbn [mbind outcome_bind]. rewrite (rep_chain_get h m k Hr).
  destruct (m !! k) as [v|] eqn:Hm; [by exists h|].
  destruct (add_node_rep mem h m k dflt) as (h' & Ha & ? & ?); [done..|].
  exists h'. by rewrite Ha.
Qed.

Lemma replicate_rep n : (0 < n)%nat -> rep (mkTable (replicate n []) 0) ∅.
Proof.
  intros Hn. split; cbn; unfold _bc, zlen; cbn.
  - rewrite length_replicate. lia.
  - apply placed_empty.
  - by rewrite map_size_empty.
  - by rewrite concat_replicate, map_to_list_empty.
Qed.

Lemma clear_rep h m : rep h m -> rep (clear h) ∅ /\ _bc (clear h) = _bc h.
Proof.
  intros Hr. pose proof (rep_bc _ _ Hr). unfold clear. destruct (Z.eqb_spec (_s h) 0) as [E|E].
  - rewrite (rep_size _ _ Hr) in E. assert (m = ∅) as -> by (apply map_size_empty_inv; lia). done.
  - unfold _bc in *; cbn [_t]. split; [apply replicate_rep; unfold zlen in *; lia|].
    unfold zlen. by rewrite length_replicate.
Qed.

Lemma entries_rep h m : rep h m -> entries h ≡ₚ map_to_list m.
Proof.
  intros Hr. unfold entries. destruct (Z.eqb_spec (_s h) 0) as [E|E]; [|apply (rep_entries _ _ Hr)].
  rewrite (rep_size _ _ Hr) in E. assert (m = ∅) as -> by (apply map_size_empty_inv; lia).
  by rewrite map_to_list_empty.
Qed.

Lemma keys_rep h m : rep h m -> keys h ≡ₚ (map_to_list m).*1.
Proof.
  intros Hr. rewrite <- (entries_rep h m Hr). unfold keys, entries. by case_match.
Qed.

Lemma concat_rev (t : list (list (K * V))) : concat ((fun c => rev c) <$> t) ≡ₚ concat t.
Proof. induction t as [|c t IH]; [done|]. simpl. by rewrite IH, <- Permutation_rev. Qed.

Lemma copy_rep h m : rep h m -> exists h', copy true h = Ok h' /\ rep h' m.
Proof.
  intros Hr. eexists; split; [done|]. split; unfold _bc; cbn [_t _s].
  - unfold zlen. rewrite length_fmap. apply (rep_bc _ _ Hr).
  - intros i c e Hi He. unfold zlen. rewrite length_fmap. rewrite list_lookup_fmap in Hi.
    destruct (_t h !! i) as [d|] eqn:Hd; simplify_eq/=. rewrite <- Permutation_rev in He.
    by apply (rep_placed _ _ Hr i d e).
  - apply (rep_size _ _ Hr).
  - rewrite concat_rev. apply (rep_entries _ _ Hr).
Qed.

Lemma set_bc_le mem h m k B :
  rep h m -> _bc h <= B -> 2 * Z.of_nat (base.size m) <= B -> set_bc mem h m k <= B.
Proof.
  intros Hr Hb Hs. unfold set_bc, grown. rewrite (rep_size _ _ Hr). case_decide; [|done].
  destruct (Z.leb_spec (_bc h) (Z.of_nat (base.size m))); destruct mem; simpl; lia.
Qed.

Definition insert_all (l : list (K * V)) (m : gmap K V) : gmap K V :=
  fold_left (fun m e => <[e.1 := e.2]> m) l m.

Lemma size_insert_le k v (m : gmap K V) : (base.size (<[k := v]> m) <= S (base.size m))%nat.
Proof.
  destruct (m !! k) eqn:E; [rewrite map_size_insert_Some by eauto; lia|].
  by rewrite map_size_insert_None by done.
Qed.

Lemma set_all_rep mem B l : forall h m,
  rep h m -> _bc h <= B -> 2 * (Z.of_nat (base.size m) + zlen l) <= B -> B < 2 ^ 29 ->
  exists h', set_all mem h l = Ok h' /\ rep h' (insert_all l m) /\ _bc h' <= B.
Proof.
  induction l as [|[k v] l IH]; intros h m Hr Hb Hs HB; [by exists h|].
  autorewrite with zlen in Hs. pose proof (zlen_nonneg l). simpl.
  destruct (set_rep mem h m k v) as (h1 & He & Hr1 & Hb1); [done|lia|lia|]. rewrite He.
  pose proof (size_insert_le k v m).
  cbn [mbind outcome_bind]. apply IH; [done| |lia|done]. rewrite Hb1. apply set_bc_le; [done..|lia].
Qed.

Lemma insert_all_empty l (m : gmap K V) : l ≡ₚ map_to_list m -> insert_all l ∅ = m.
Proof.
  intros Hl. unfold insert_all. rewrite <- fold_left_rev_right.
  assert (NoDup (rev l).*1) as Hn.
  { rewrite <- Permutation_rev, Hl. apply NoDup_fst_map_to_list. }
  transitivity (list_to_map (rev l) : gmap K V).
  - generalize (rev l). intros r. induction r as [|[k v] r IH]; [done|]. simpl. by rewrite IH.
  - rewrite <- (list_to_map_to_list m). apply list_to_map_proper; [done|]. by rewrite <- Permutation_rev.
Qed.

Lemma assign_rep mem h m src ms B :
  rep h m -> rep src ms -> _bc h <= B -> 2 * Z.of_nat (base.size ms) <= B -> B < 2 ^ 29 ->
  exists h', assign mem h src = Ok h' /\ rep h' ms.
Proof.
  intros Hr Hs Hb Hsz HB. destruct (clear_rep h m Hr) as [Hc Hcb]. unfold assign.
  destruct (Z.eqb_spec (_s src) 0) as [E|E].
  - rewrite (rep_size _ _ Hs) in E. assert (ms = ∅) as -> by (apply map_size_empty_inv; lia). eauto.
  - destruct (set_all_rep mem B (concat (_t src)) (clear h) ∅ Hc) as (h' & Ha & Hr' & _); [lia| |done|].
    + rewrite map_size_empty. unfold zlen. rewrite (rep_entries _ _ Hs), length_map_to_list. lia.
    + exists h'. split; [done|]. by rewrite (insert_all_empty _ ms (rep_entries _ _ Hs)) in Hr'.
Qed.

(** ** Sequences of operations *)

Inductive ht_op :=
  | OGet k | OContains k | OErase k | OSet (mem : bool) k v | OIndex (mem : bool) k | OClear | OSize | OEmpty.

Inductive ht_res := RNone | RValue (o : option V) | RBool (b : bool) | RSize (n : Z).

(** The table: what the code does. *)
Definition ht_exec (dflt : V) h (o : ht_op) : outcome (Hashtable K V * ht_res) :=
  match o with
  | OGet k => r ← get h k; Ok (h, RValue r)
  | OContains k => r ← contains h k; Ok (h, RBool r)
  | OErase k => '(h', r) ← erase h k; Ok (h', RBool r)
  | OSet mem k v => h' ← set mem h k v; Ok (h', RNone)
  | OIndex mem k => '(h', r) ← index mem dflt h k; Ok (h', RValue (Some r))
  | OClear => Ok (clear h, RNone)
  | OSize => Ok (h, RSize (size h))
  | OEmpty => Ok (h, RBool (empty h))
  end.

(** The map: what a caller expects. *)
Definition map_exec (dflt : V) (m : gmap K V) (o : ht_op) : gmap K V * ht_res :=
  match o with
  | OGet k => (m, RValue (m !! k))
  | OContains k => (m, RBool (bool_decide (is_Some (m !! k))))
  | OErase k => (delete k m, RBool (bool_decide (is_Some (m !! k))))
  | OSet _ k v => (<[k := v]> m, RNone)
  | OIndex _ k =>
      (if decide (m !! k = None) then <[k := dflt]> m else m, RValue (Some (default dflt (m !! k))))
  | OClear => (∅, RNone)
  | OSize => (m, RSize (Z.of_nat (base.size m)))
  | OEmpty => (m, RBool (bool_decide (m = ∅)))
  end.

Fixpoint ht_run (dflt : V) h (os : list ht_op) : outcome (Hashtable K V * list ht_res) :=
  match os with
  | [] => Ok (h, [])
  | o :: os' => '(h1, r) ← ht_exec dflt h o; '(h2, rs) ← ht_run dflt h1 os'; Ok (h2, r :: rs)
  end.

Fixpoint map_run (dflt : V) (m : gmap K V) (os : list ht_op) : gmap K V * list ht_res :=
  match os with
  | [] => (m, [])
  | o :: os' => let '(m1, r) := map_exec dflt m o in let '(m2, rs) := map_run dflt m1 os' in (m2, r :: rs)
  end.

Lemma ht_exec_rep dflt h m o B :
  rep h m -> _bc h <= B -> 2 * (Z.of_nat (base.size m) + 1) <= B -> B < 2 ^ 29 ->
  exists h', ht_exec dflt h o = Ok (h', (map_exec dflt m o).2) /\ rep h' (map_exec dflt m o).1 /\
    _bc h' <= B /\ (base.size (map_exec dflt m o).1 <= S (base.size m))%nat.
Proof.
  intros Hr Hb Hs HB. destruct o as [k|k|k|mem k v|mem k| | |]; simpl.
  - rewrite (table_get_rep h m k Hr). exists h. split_and!; auto.
  - rewrite (contains_rep h m k Hr). exists h. split_and!; auto.
  - destruct (erase_rep h m k Hr) as (h' & -> & ? & ?); [lia|]. exists h'.
    rewrite map_size_delete. split_and!; [done..|lia|]. destruct (m !! k); simpl; lia.
  - destruct (set_rep mem h m k v Hr) as (h' & -> & ? & Hb'); [lia..|]. exists h'.
    split_and!; [done..| |apply size_insert_le]. rewrite Hb'. apply set_bc_le; [done..|lia].
  - destruct (index_rep mem dflt h m k Hr) as (h' & -> & ? & Hb'); [lia..|]. exists h'.
    split_and!; [done..| |case_decide; [apply size_insert_le|lia]].
    rewrite Hb'. apply set_bc_le; [done..|lia].
  - destruct (clear_rep h m Hr) as [? ?]. exists (clear h). rewrite map_size_empty.
    split_and!; [done..|lia|lia].
  - exists h. unfold size. rewrite (rep_size h m Hr). split_and!; auto.
  - exists h. unfold empty. rewrite (rep_size h m Hr).
    destruct (Z.eqb_spec (Z.of_nat (base.size m)) 0).
    + rewrite bool_decide_true by (apply map_size_empty_inv; lia). split_and!; auto.
    + rewrite bool_decide_false by (intros ->; by rewrite map_size_empty in *). split_and!; auto.
Qed.

Lemma ht_run_rep dflt B os : forall h m,
  rep h m -> _bc h <= B -> 2 * (Z.of_nat (base.size m) + zlen os) <= B -> B < 2 ^ 29 ->
  exists h', ht_run dflt h os = Ok (h', (map_run dflt m os).2) /\ rep h' (map_run dflt m os).1.
Proof.
  induction os as [|o os IH]; intros h m Hr Hb Hs HB; [by exists h|].
  autorewrite with zlen in Hs. pose proof (zlen_nonneg os). simpl.
  destruct (ht_exec_rep dflt h m o B) as (h1 & -> & Hr1 & Hb1 & Hs1); [done..|lia|done|].
  cbn [mbind outcome_bind]. destruct (map_exec dflt m o) as [m1 r]. simpl in *.
  destruct (IH h1 m1) as (h2 & -> & Hr2); [done..|lia|done|]. cbn [mbind outcome_bind].
  destruct (map_run dflt m1 os) as [m2 rs]. by exists h2.
Qed.

(** ** Iteration *)

(** What an iterator has still to visit. *)
Definition remaining h (it : Iterator K) (rem : list (K * V)) : Prop :=
  (it_idx it < length (_t h))%nat /\
  exists pre post, chain (_t h) (it_idx it) = pre ++ post /\ it_b it = fst <$> head post /\
    rem = post ++ concat (drop (S (it_idx it)) (_t h)).

Lemma chain_nodup_lookup h m k v l r i :
  rep h m -> chain (_t h) i = l ++ (k, v) :: r -> k ∉ (l.*1) /\ k ∉ (r.*1).
Proof.
  intros Hr Hc. pose proof (rep_chain_nodup h m i Hr) as Hn. rewrite Hc, fmap_app in Hn.
  apply list.NoDup_app in Hn as (_ & Hd & Hn). apply list.NoDup_cons in Hn as [? _].
  split; [|done]. intros Hk. apply (Hd k Hk). set_solver.
Qed.

Lemma node_at_mid k v (l r : list (K * V)) :
  k ∉ (l.*1) -> node_at k (l ++ (k, v) :: r) = Some (k, v, fst <$> head r).
Proof.
  induction l as [|[k' w] l IH]; simpl; intros Hk; [by rewrite decide_True|].
  apply not_elem_of_cons in Hk as [? ?]. rewrite decide_False by done. auto.
Qed.

Lemma chain_erase_mid k v (l r : list (K * V)) :
  k ∉ (l.*1) -> chain_erase k (l ++ (k, v) :: r) = Some (l ++ r).
Proof.
  induction l as [|[k' w] l IH]; simpl; intros Hk; [by rewrite decide_True|].
  apply not_elem_of_cons in Hk as [? ?]. rewrite decide_False by done. by rewrite IH.
Qed.

Lemma drop_chain (t : list (list (K * V))) i :
  (i < length t)%nat -> concat (drop i t) = chain t i ++ concat (drop (S i) t).
Proof.
  intros Hi. destruct (lookup_lt_is_Some_2 t i Hi) as [c Hc]. unfold chain. rewrite Hc.
  by rewrite (drop_S t c i Hc).
Qed.

Lemma Iterator_new_remaining h m : rep h m -> remaining h (Iterator_new h) (concat (_t h)).
Proof.
  intros Hr. pose proof (rep_bc _ _ Hr). unfold _bc, zlen in *. split; [simpl; lia|].
  exists [], (chain (_t h) 0). split_and!; [done..|]. rewrite <- drop_chain by (simpl; lia). done.
Qed.

(** [next] returns the first entry that is left and a position in the chain right behind it. *)
Lemma next_remaining h m fuel : forall it rem,
  rep h m -> remaining h it rem -> (length (_t h) <= it_idx it + fuel)%nat ->
  exists it', next_loop fuel h it = Ok (head rem, it') /\
    match rem with
    | [] => True
    | (k, v) :: rem' =>
        (it_idx it' < length (_t h))%nat /\ exists pre post,
          chain (_t h) (it_idx it') = pre ++ (k, v) :: post /\ it_b it' = fst <$> head post /\
          rem' = post ++ concat (drop (S (it_idx it')) (_t h))
    end.
Proof.
  induction fuel as [|fuel IH]; intros [i b] rem Hr (Hi & pre & post & Hc & Hb & ->) Hf;
    cbn [it_idx it_b] in *; [lia|].
  destruct post as [|[k v] post]; simpl in Hb; subst b; cbn [next_loop it_b it_idx].
  - unfold _bc, zlen. destruct (Z.leb_spec (Z.of_nat (length (_t h))) (Z.of_nat (S i))).
    + rewrite drop_ge by lia. by eexists.
    + rewrite app_nil_l, drop_chain by lia. apply IH; [done| |cbn [it_idx]; lia].
      split; cbn [it_idx it_b]; [lia|]. by exists [], (chain (_t h) (S i)).
  - rewrite Hc. destruct (chain_nodup_lookup h m k v pre post i Hr Hc) as [Hk _].
    rewrite node_at_mid by done. eexists; split; [done|]. cbn [it_idx it_b]. split; [done|].
    exists pre, post. done.
Qed.

(** Erasing the entry that was visited last keeps what is left. *)
Lemma erase_remaining h m k v i pre post b :
  rep h m -> Z.of_nat (base.size m) < 2 ^ 32 -> (i < length (_t h))%nat ->
  chain (_t h) i = pre ++ (k, v) :: post -> b = fst <$> head post ->
  exists h', erase h k = Ok (h', true) /\ rep h' (delete k m) /\
    remaining h' (mkIter i b) (post ++ concat (drop (S i) (_t h))).
Proof.
  intros Hr Hsz Hi Hc ->. destruct (erase_rep h m k Hr Hsz) as (h' & He & Hr' & _).
  assert (i = Z.to_nat (_hc k mod _bc h)) as Hik.
  { apply (rep_placed _ _ Hr i (chain (_t h) i) (k, v)); [|rewrite Hc; set_solver].
    apply (chain_lookup _ _ (k, v)). rewrite Hc; set_solver. }
  pose proof (chain_nodup_lookup h m k v pre post i Hr Hc) as [Hk _].
  assert (erase h k = Ok (mkTable (<[i := pre ++ post]> (_t h)) (u32 (_s h - 1)), true)) as He'.
  { unfold erase. rewrite (bucket_of_Ok _ _ (rep_bc _ _ Hr)), <- Hik. cbn [mbind outcome_bind].
    by rewrite Hc, chain_erase_mid. }
  rewrite He' in *. injection He as <- _. eexists; split_and!; [done..|].
  split; cbn [it_idx it_b _t]; [by rewrite length_insert|]. exists pre, post. split_and!; [|done|].
  - unfold chain. by rewrite list_lookup_insert_eq.
  - by rewrite drop_insert_lt by lia.
Qed.

Lemma visit_rep (p : K -> V -> bool) fuel : forall h m it rem,
  rep h m -> Z.of_nat (base.size m) < 2 ^ 32 -> remaining h it rem -> NoDup rem.*1 ->
  (forall e, e ∈ rem -> m !! e.1 = Some e.2) -> (length rem < fuel)%nat ->
  exists h', visit p fuel h it = Ok (rem, h') /\
    rep h' (filter (fun e => ~ (e.1 ∈ rem.*1 /\ p e.1 e.2)) m).
Proof.
  induction fuel as [|fuel IH]; intros h m it rem Hr Hsz Hrem Hn Hin Hf; [lia|]. cbn [visit].
  destruct (next_remaining h m (length (_t h)) it rem Hr Hrem) as (it' & Hx & Hx'); [lia|].
  unfold next. rewrite Hx. cbn [mbind outcome_bind]. destruct rem as [|[k v] rem]; cbn [hd_error].
  - exists h. split; [done|]. rewrite map_filter_id; [done|]. intros ? ? _ [Hnil ?]. by apply not_elem_of_nil in Hnil.
  - destruct Hx' as (Hi & pre & post & Hc & Hb & Hrem').
    assert (m !! k = Some v) as Hk by (apply (Hin (k, v)); set_solver).
    cbn [fmap list_fmap fst] in Hn. apply list.NoDup_cons in Hn as [Hkn Hn].
    assert (exists h1, (if p k v then fst <$> erase h k else Ok h) = Ok h1 /\
      rep h1 (if p k v then delete k m else m) /\ remaining h1 it' rem) as (h1 & He & Hr1 & Hrem1).
    { destruct (p k v) eqn:Hp.
      - destruct (erase_remaining h m k v (it_idx it') pre post (it_b it')) as (h1 & -> & ? & Hrem1); [done..|].
        exists h1. subst rem. by destruct it'.
      - exists h. split_and!; [done..|]. split; [done|]. exists (pre ++ [(k, v)]), post.
        by rewrite <- app_assoc. }
    rewrite He. cbn [mbind outcome_bind].
    destruct (IH h1 (if p k v then delete k m else m) it' rem) as (h2 & Hv & Hr2); try done.
    + destruct (p k v); [|done]. rewrite map_size_delete, Hk. lia.
    + intros e He'. assert (e.1 <> k) by (intros <-; apply Hkn; set_solver).
      destruct (p k v); [rewrite lookup_delete_ne by done|]; apply Hin; set_solver.
    + simpl in Hf. lia.
    + rewrite Hv. cbn [mbind outcome_bind]. exists h2. split; [done|].
      replace (filter _ m) with (filter (fun e => ~ (e.1 ∈ rem.*1 /\ p e.1 e.2)) (if p k v then delete k m else m)); [done|].
      apply map_eq. intros j. apply option_eq. intros w. rewrite !map_lookup_filter_Some; simpl.
      rewrite elem_of_cons. destruct (p k v) eqn:Hp; [rewrite lookup_delete_Some|].
      * split; [|naive_solver]. intros [[? ?] Hx1]. split; [done|]. naive_solver.
      * split; [|naive_solver]. intros [? Hx1]. split; [done|].
        intros [[->|?] Hpj]; [by simplify_eq; rewrite Hp in Hpj|naive_solver].
Qed.

(** C4. The hash table refines a finite map: any sequence of operations gives the answers a map
    gives and leaves a table that stands for the map's state, whatever the hash function is,
    whichever allocations of a larger bucket array fail, and through every rehash. The bounds
    keep the byte count of the bucket array below [2^32]. *)
Theorem hashtable_refines (dflt : V) h (m : gmap K V) (os : list ht_op) :
  rep h m -> _bc h < 2 ^ 29 -> Z.of_nat (base.size m) + zlen os < 2 ^ 28 ->
  exists h', ht_run dflt h os = Ok (h', (map_run dflt m os).2) /\ rep h' (map_run dflt m os).1 /\
    entries h' ≡ₚ map_to_list (map_run dflt m os).1 /\ keys h' ≡ₚ (map_to_list (map_run dflt m os).1).*1.
Proof.
  intros Hr Hb Hs. pose proof (zlen_nonneg os). pose proof (rep_bc _ _ Hr).
  destruct (ht_run_rep dflt (2 ^ 29 - 1) os h m Hr) as (h' & He & Hr'); [lia..|].
  exists h'. split_and!; [done..| |]; [by apply entries_rep|by apply keys_rep].
Qed.

(** A loop over a table that erases, as it goes, the entry it has just been given, visits every
    entry exactly once and leaves exactly the entries it did not erase; the iterator never follows
    a pointer to a deleted node. *)
Theorem visit_erase_safe (p : K -> V -> bool) h (m : gmap K V) fuel :
  rep h m -> Z.of_nat (base.size m) < 2 ^ 32 -> (base.size m < fuel)%nat ->
  exists l h', visit p fuel h (Iterator_new h) = Ok (l, h') /\ l ≡ₚ map_to_list m /\
    rep h' (filter (fun e => ~ p e.1 e.2) m).
Proof.
  intros Hr Hsz Hf. pose proof (rep_entries _ _ Hr) as Hp.
  destruct (visit_rep p fuel h m (Iterator_new h) (concat (_t h))) as (h' & Hv & Hr'); try done.
  - by eapply Iterator_new_remaining.
  - by apply (rep_nodup h m).
  - intros [k v] He. rewrite Hp in He. by apply elem_of_map_to_list.
  - rewrite Hp, length_map_to_list. done.
  - exists (concat (_t h)), h'. split_and!; [done..|].
    replace (filter (fun e => ~ p e.1 e.2) m) with (filter (fun e => ~ (e.1 ∈ (concat (_t h)).*1 /\ p e.1 e.2)) m); [done|].
    apply map_filter_ext. intros k v Hk; simpl. split; [|naive_solver]. intros Hx Hpk. apply Hx. split; [|done].
    apply list_elem_of_fmap. exists (k, v). split; [done|]. rewrite Hp. by apply elem_of_map_to_list.
Qed.

(** Copying a table gives a table with the same entries, and [operator=] makes the target, a
    different table, hold exactly the source's entries, whether or not its buckets can grow. *)
Theorem copy_assign_refines (mem : bool) h m src (ms : gmap K V) :
  rep h m -> rep src ms -> _bc h < 2 ^ 29 -> Z.of_nat (base.size ms) < 2 ^ 28 ->
  (exists h', assign mem h src = Ok h' /\ rep h' ms) /\ exists h', copy true src = Ok h' /\ rep h' ms.
Proof.
  intros Hr Hs Hb Hsz. split; [|by apply copy_rep].
  by apply (assign_rep mem h m src ms (2 ^ 29 - 1)); try lia.
Qed.

End Table.

(** ** The hashes of integer keys *)

(** [unsigned long] has 32 bits on the ESP32. *)
Definition hc_uint64 (i : Z) : Z := u32 (Z.lxor i (Z.shiftr i 32)).
Definition hc_uint32 (i : Z) : Z := u32 (i * 0x9e3779b1).
Definition hc_uint16 (i : Z) : Z := u32 (i * 0x9e3779b1).
Definition hc_int (i : Z) : Z := u32 (u32 i * 0x9e3379b1).

Definition table2 : Hashtable Z Z := mkTable [[]; []] 0.
Definition ops2 : list ht_op :=
  [OSet true 3 30; OSet true 5 50; OSet false 7 70; OSet true 9 90; OErase 5; OGet 7; OIndex true 1; OSize].

Lemma table2_rep : rep hc_uint32 table2 ∅.
Proof. apply (replicate_rep hc_uint32 2). lia. Qed.

Lemma hashtable_refines_witness :
  exists h, ht_run hc_uint32 0 table2 ops2 =
      Ok (h, [RNone; RNone; RNone; RNone; RBool true; RValue (Some 70); RValue (Some 0); RSize 4]) /\
    entries h ≡ₚ map_to_list (map_run (K := Z) 0 ∅ ops2).1.
Proof.
  destruct (hashtable_refines hc_uint32 0 table2 ∅ ops2 table2_rep) as (h & He & _ & Hp & _);
    [by_compute..|].
  exists h. split; [etransitivity; [exact He|]; vm_compute; reflexivity | exact Hp].
Defined.

Definition table3 : Hashtable Z Z := mkTable [[(4, 40); (2, 20)]; [(3, 30)]] 3.
Definition map3 : gmap Z Z := list_to_map [(4, 40); (2, 20); (3, 30)].

Lemma table3_rep : rep hc_uint64 table3 map3.
Proof.
  split; [done| |vm_compute; reflexivity|].
  - intros i c e Hi He. destruct i as [|[|i]]; simpl in Hi; simplify_eq;
      repeat (apply elem_of_cons in He as [->|He]; [reflexivity|]); by apply not_elem_of_nil in He.
  - symmetry. apply map_to_list_to_map. by_compute.
Qed.

Lemma visit_erase_safe_witness :
  exists l h', visit hc_uint64 (fun k _ => k <? 4) 4 table3 (Iterator_new table3) = Ok (l, h') /\
    l ≡ₚ map_to_list map3 /\ rep hc_uint64 h' (filter (fun e => ~ (e.1 <? 4)) map3).
Proof.
  apply (visit_erase_safe hc_uint64 (fun k _ => k <? 4) table3 map3 4 table3_rep); by_compute.
Defined.

Lemma copy_assign_refines_witness :
  (exists h', assign hc_uint64 true table3 table3 = Ok h' /\ rep hc_uint64 h' map3) /\
  exists h', copy true table3 = Ok h' /\ rep hc_uint64 h' map3.
Proof.
  apply (copy_assign_refines hc_uint64 true table3 map3 table3 map3 table3_rep table3_rep); by_compute.
Defined.
