(* ===== verification/RingBuffer.v ===== *)
(** * The ring buffer (node/RingBuffer.hpp)

    [RingBuffer<T, S>] keeps [S] slots, the index of the oldest element, the index of the next free
    slot, and a flag that tells a full ring from an empty one. It refines a queue of at most [S]
    elements. Its [float] statistics are not modelled; the two that count are. *)

From S2P Require Import Prelude.

Record RingBuffer (A : Type) := mkRing { buf : list A; begin_ : Z; end_ : Z; wrap_ : bool }.
Arguments mkRing {A} buf begin_ end_ wrap_.
Arguments buf {A} r : rename.
Arguments begin_ {A} r : rename.
Arguments end_ {A} r : rename.
Arguments wrap_ {A} r : rename.

Section Ring.
Context {A : Type}.
Implicit Types (r : RingBuffer A) (n : Z) (v : A).

(** The template argument [S]. *)
Definition cap r : Z := zlen (buf r).

Definition RingBuffer_new (zero : A) (S : nat) : RingBuffer A := mkRing (replicate S zero) 0 0 false.

Definition count r : Z :=
  if end_ r =? begin_ r then if wrap_ r then cap r else 0
  else if begin_ r <? end_ r then end_ r - begin_ r
  else cap r + end_ r - begin_ r.

Definition getFree r : Z := cap r - count r.

(** The index after [n] slots from [i], in the two chunks of the code. *)
Definition advance (S i n : Z) : Z :=
  let first_chunk := Z.min n (S - i) in
  let i := (i + first_chunk) mod S in
  if first_chunk <? n then (i + (n - first_chunk)) mod S else i.

Definition produce r n : RingBuffer A * Z :=
  let n := Z.min n (getFree r) in
  if n =? 0 then (r, n)
  else
    let e := advance (cap r) (end_ r) n in
    (mkRing (buf r) (begin_ r) e (if begin_ r =? e then true else wrap_ r), n).

Definition consume r n : RingBuffer A * Z :=
  let n := Z.min n (count r) in
  if n =? 0 then (r, n) else (mkRing (buf r) (advance (cap r) (begin_ r) n) (end_ r) false, n).

Definition reset r : RingBuffer A := (consume r (count r)).1.

Definition write r (data : list A) n : outcome (RingBuffer A * Z) :=
  let n := Z.min n (getFree r) in
  if n =? 0 then Ok (r, n)
  else
    let first_chunk := Z.min n (cap r - end_ r) in
    src ← mem_read data 0 first_chunk;
    b ← mem_write (buf r) (end_ r) src;
    let e := (end_ r + first_chunk) mod cap r in
    '(b, e) ← (if first_chunk <? n then
                 src ← mem_read data first_chunk (n - first_chunk);
                 b ← mem_write b e src;
                 Ok (b, (e + (n - first_chunk)) mod cap r)
               else Ok (b, e));
    Ok (mkRing b (begin_ r) e (if begin_ r =? e then true else wrap_ r), n).

Definition push r v : outcome (RingBuffer A) :=
  let r := if count r =? cap r then (consume r 1).1 else r in
  let first_chunk := Z.min 1 (cap r - end_ r) in
  b ← mem_write (buf r) (end_ r) [v];
  let e := (end_ r + first_chunk) mod cap r in
  Ok (mkRing b (begin_ r) e (if begin_ r =? e then true else wrap_ r)).

Definition slot r (i : Z) : outcome A :=
  match buf r !! Z.to_nat i with Some v => if 0 <=? i then Ok v else Undef | None => Undef end.

Definition get_most_recent r : outcome A := slot r (end_ r).

(** [read]: the new ring and the bytes copied to [dest]. *)
Definition read r n : outcome (RingBuffer A * list A) :=
  let n := Z.min n (count r) in
  if n =? 0 then Ok (r, [])
  else
    let first_chunk := Z.min n (cap r - begin_ r) in
    d1 ← mem_read (buf r) (begin_ r) first_chunk;
    let b := (begin_ r + first_chunk) mod cap r in
    '(d2, b) ← (if first_chunk <? n then
                  d2 ← mem_read (buf r) b (n - first_chunk);
                  Ok (d2, (b + (n - first_chunk)) mod cap r)
                else Ok ([], b));
    Ok (mkRing (buf r) b (end_ r) false, d1 ++ d2).

(** The loop of the statistics: [iterator = (iterator + S - 1) % curr_cnt], [curr_cnt] times. *)
Fixpoint stat_loop (f : A -> bool) r (curr_cnt : Z) (fuel : nat) (iterator acc : Z) : outcome Z :=
  match fuel with
  | O => Ok acc
  | S k =>
      let iterator := (iterator + cap r - 1) mod curr_cnt in
      v ← slot r iterator;
      stat_loop f r curr_cnt k iterator (if f v then acc + 1 else acc)
  end.

Definition countValue `{EqDecision A} r v : outcome Z :=
  stat_loop (fun w => bool_decide (w = v)) r (count r) (Z.to_nat (count r)) (begin_ r) 0.

Definition zeroCount (is_zero : A -> bool) r : outcome Z :=
  stat_loop is_zero r (count r) (Z.to_nat (count r)) (begin_ r) 0.

(** ** The ring as a queue *)

Record ring_ok r : Prop := {
  ring_begin : 0 <= begin_ r < cap r;
  ring_end : 0 <= end_ r < cap r;
  ring_wrap : wrap_ r = true -> begin_ r = end_ r }.

(** The elements, oldest first. *)
Definition contents r : list A :=
  take (Z.to_nat (count r)) (drop (Z.to_nat (begin_ r)) (buf r) ++ take (Z.to_nat (begin_ r)) (buf r)).

Lemma wrap_mod a n : 0 <= a < 2 * n -> a mod n = if a <? n then a else a - n.
Proof.
  intros. destruct (Z.ltb_spec a n); [apply Z.mod_small; lia|].
  symmetry. apply (Z.mod_unique_pos _ _ 1); lia.
Qed.

Lemma advance_eq n i k : 0 <= i < n -> 0 <= k <= n -> advance n i k = if i + k <? n then i + k else i + k - n.
Proof.
  intros. unfold advance. destruct (Z.ltb_spec (Z.min k (n - i)) k).
  - replace (i + Z.min k (n - i)) with n by lia. rewrite Z.mod_same, Z.add_0_l, Z.mod_small by lia.
    rewrite (proj2 (Z.ltb_ge _ _)) by lia. lia.
  - replace (Z.min k (n - i)) with k by lia. rewrite wrap_mod by lia. done.
Qed.

Lemma count_range r : ring_ok r -> 0 <= count r <= cap r.
Proof. intros [Hb He Hw]. unfold count. repeat case_match; lia. Qed.

Lemma zlen_contents r : ring_ok r -> zlen (contents r) = count r.
Proof.
  intros Hr. pose proof (count_range r Hr). destruct Hr. unfold contents, cap, zlen in *.
  rewrite length_take, length_app, length_drop, length_take. lia.
Qed.

Lemma contents_lookup r i :
  ring_ok r -> contents r !! i =
    if decide (Z.of_nat i < count r) then
      buf r !! (if begin_ r + Z.of_nat i <? cap r then Z.to_nat (begin_ r + Z.of_nat i)
                else Z.to_nat (begin_ r + Z.of_nat i - cap r))
    else None.
Proof.
  intros Hr. pose proof (count_range r Hr). destruct Hr. unfold contents, cap, zlen in *. case_decide.
  - rewrite lookup_take_lt by lia. case_match.
    + rewrite lookup_app_l by (rewrite length_drop; lia). rewrite lookup_drop. f_equal. lia.
    + rewrite lookup_app_r by (rewrite length_drop; lia). rewrite length_drop, lookup_take_lt by lia.
      f_equal. lia.
  - by rewrite lookup_take_ge by lia.
Qed.

(** The slot [k] places after slot [i]. *)
Definition pos r (i k : Z) : nat :=
  if i + k <? cap r then Z.to_nat (i + k) else Z.to_nat (i + k - cap r).

(** The ring after [n] more slots are taken into use. *)
Definition extended r (b : list A) n : RingBuffer A :=
  let e := advance (cap r) (end_ r) n in
  mkRing b (begin_ r) e (if begin_ r =? e then true else wrap_ r).

Lemma wrap_false r : ring_ok r -> count r < cap r -> wrap_ r = false.
Proof.
  intros [Hb He Hw] Hc. destruct (wrap_ r) eqn:E; [|done]. unfold count in Hc.
  rewrite E, (proj2 (Z.eqb_eq _ _)) in Hc by (symmetry; auto). lia.
Qed.

Lemma extended_ok r b n :
  ring_ok r -> 0 < n <= getFree r -> zlen b = cap r ->
  ring_ok (extended r b n) /\ count (extended r b n) = count r + n.
Proof.
  intros Hr Hn Hz. unfold getFree in Hn. pose proof (wrap_false r Hr ltac:(lia)) as Hw.
  pose proof (count_range r Hr). destruct Hr as [Hb He _]. unfold extended, getFree in *.
  rewrite advance_eq by lia. unfold count, cap in *. rewrite Hw in *.
  split; [split; unfold cap|]; cbn [buf begin_ end_ wrap_]; rewrite ?Hz; repeat case_match; lia.
Qed.

Lemma extended_contents r b n data :
  ring_ok r -> 0 < n <= getFree r -> zlen b = cap r -> zlen data = n ->
  (forall j, 0 <= j < n -> b !! pos r (end_ r) j = data !! Z.to_nat j) ->
  (forall j, n <= j < cap r -> b !! pos r (end_ r) j = buf r !! pos r (end_ r) j) ->
  contents (extended r b n) = contents r ++ data.
Proof.
  intros Hr Hn Hz Hd Hnew Hold. destruct (extended_ok r b n Hr Hn Hz) as [Hr' Hc'].
  pose proof (count_range r Hr). pose proof (zlen_contents r Hr) as Hl.
  apply list_eq. intros i. rewrite contents_lookup, Hc' by done.
  replace (cap (extended r b n)) with (cap r) by (symmetry; exact Hz). cbn [extended buf begin_].
  fold (pos r (begin_ r) (Z.of_nat i)). unfold getFree, zlen in *.
  assert (forall k, 0 <= k <= cap r -> pos r (begin_ r) k =
    pos r (end_ r) (if k <? count r then k - count r + cap r else k - count r)) as Hpos.
  { destruct Hr as [Hb He Hw]. unfold pos, count in *. intros k Hk. repeat case_match; lia. }
  destruct (decide (Z.of_nat i < count r)) as [Hi|Hi].
  - rewrite decide_True by lia. rewrite lookup_app_l by lia. rewrite contents_lookup, decide_True by done.
    rewrite (Hpos (Z.of_nat i)) by lia. rewrite (proj2 (Z.ltb_lt _ _)) by lia. rewrite Hold by lia.
    destruct Hr as [Hb He Hw]. f_equal. unfold pos, count in *. repeat case_match; lia.
  - rewrite lookup_app_r by lia. case_decide.
    + rewrite Hpos, (proj2 (Z.ltb_ge _ _)), Hnew by lia. f_equal. lia.
    + symmetry. apply lookup_ge_None. lia.
Qed.

(** The positions behind [end_] are all positions. *)
Lemma pos_end r j : ring_ok r -> 0 <= j < cap r -> (pos r (end_ r) j < length (buf r))%nat.
Proof. intros [Hb He Hw] Hj. unfold pos, cap, zlen in *. case_match; lia. Qed.

Lemma mem_write_lookup {B} (m : list B) i bs m' j :
  0 <= i -> mem_write m i bs = Ok m' ->
  m' !! j = if decide (Z.to_nat i <= j < Z.to_nat i + length bs)%nat then bs !! (j - Z.to_nat i)%nat else m !! j.
Proof.
  intros Hi Hw. unfold mem_write in Hw. destruct (Z.leb_spec 0 i); [|lia].
  destruct (Z.leb_spec (i + zlen bs) (zlen m)); [|done]. injection Hw as <-. unfold zlen in *. case_decide.
  - rewrite lookup_app_r by (rewrite length_take; lia). rewrite length_take, lookup_app_l by lia. f_equal; lia.
  - destruct (decide (j < Z.to_nat i)%nat).
    + rewrite lookup_app_l by (rewrite length_take; lia). by rewrite lookup_take_lt by lia.
    + rewrite lookup_app_r by (rewrite length_take; lia). rewrite length_take, lookup_app_r by lia.
      rewrite lookup_drop. f_equal; lia.
Qed.

Lemma zlen_mem_write {B} (m : list B) i bs m' : mem_write m i bs = Ok m' -> zlen m' = zlen m.
Proof.
  unfold mem_write. destruct (Z.leb_spec 0 i); [|done].
  destruct (Z.leb_spec (i + zlen bs) (zlen m)); [|done]. intros [= <-]. unfold zlen in *.
  rewrite !length_app, length_take, length_drop. lia.
Qed.

(** ** Each operation *)

Lemma extended_rep r b n data :
  ring_ok r -> 0 < n <= getFree r -> zlen b = cap r -> zlen data = n ->
  (forall j, 0 <= j < n -> b !! pos r (end_ r) j = data !! Z.to_nat j) ->
  (forall j, n <= j < cap r -> b !! pos r (end_ r) j = buf r !! pos r (end_ r) j) ->
  ring_ok (extended r b n) /\ cap (extended r b n) = cap r /\ contents (extended r b n) = contents r ++ data.
Proof.
  intros. split_and!; [by apply extended_ok|done|by apply extended_contents].
Qed.

Lemma mem_read_prefix (data : list A) n : 0 <= n <= zlen data -> mem_read data 0 n = Ok (take (Z.to_nat n) data).
Proof. intros. by rewrite mem_read_Ok by lia. Qed.

Lemma write_rep r data n :
  ring_ok r -> 0 <= n <= zlen data ->
  exists r', write r data n = Ok (r', Z.min n (getFree r)) /\ ring_ok r' /\ cap r' = cap r /\
    contents r' = contents r ++ take (Z.to_nat (Z.min n (getFree r))) data.
Proof.
  intros Hr Hn. pose proof (count_range r Hr) as Hc. unfold write.
  assert (0 <= getFree r) as Hf by (unfold getFree; lia). set (k := Z.min n (getFree r)).
  assert (0 <= k <= getFree r) as Hk by lia. assert (k <= zlen data) as Hkd by lia. clearbody k.
  destruct (Z.eqb_spec k 0) as [->|Hk0]; [exists r; by rewrite app_nil_r|].
  assert (zlen (take (Z.to_nat k) data) = k) as Hz by (apply zlen_take; lia).
  pose proof (ring_end r Hr) as He. unfold getFree in *.
  set (f := Z.min k (cap r - end_ r)). rewrite mem_read_prefix by lia. cbn [mbind outcome_bind].
  assert (zlen (take (Z.to_nat f) data) = f) as Hzf by (apply zlen_take; lia).
  destruct (mem_write (buf r) (end_ r) (take (Z.to_nat f) data)) as [b1| |] eqn:Hb1;
    [|by rewrite mem_write_Ok in Hb1 by (unfold cap in *; lia)..].
  cbn [mbind outcome_bind]. pose proof (zlen_mem_write _ _ _ _ Hb1) as Hzb.
  assert (forall j, b1 !! j = _) as Hl1 by (intros j; apply (mem_write_lookup _ _ _ _ j (proj1 He) Hb1)).
  destruct (Z.ltb_spec f k) as [Hfk|Hfk].
  - assert (f = cap r - end_ r) as Hf' by lia. replace (end_ r + f) with (cap r) by lia.
    rewrite Z.mod_same by lia. rewrite mem_read_Ok by lia. cbn [mbind outcome_bind].
    set (s2 := take (Z.to_nat (k - f)) (drop (Z.to_nat f) data)).
    assert (zlen s2 = k - f) as Hz2 by (unfold s2; rewrite zlen_take; rewrite ?zlen_drop; lia).
    destruct (mem_write b1 0 s2) as [b2| |] eqn:Hb2;
      [|by rewrite mem_write_Ok in Hb2 by (unfold cap in *; lia)..].
    cbn [mbind outcome_bind]. pose proof (zlen_mem_write _ _ _ _ Hb2) as Hzb2.
    assert (forall j, b2 !! j = _) as Hl2 by (intros j; apply (mem_write_lookup _ _ _ _ j (Z.le_refl 0) Hb2)).
    exists (extended r b2 k). split.
    { unfold extended, advance. fold f. rewrite (proj2 (Z.ltb_lt _ _) Hfk).
      replace (end_ r + f) with (cap r) by lia. by rewrite Z.mod_same by lia. }
    apply extended_rep; [done|unfold getFree; lia|unfold cap in *; lia|done| |]; intros j Hj;
      rewrite Hl2, Hl1; unfold pos, zlen in *.
    + destruct (Z.ltb_spec (end_ r + j) (cap r)).
      * rewrite decide_False, decide_True by lia. rewrite !lookup_take_lt by lia. f_equal; lia.
      * rewrite decide_True by lia. unfold s2. rewrite !lookup_take_lt, lookup_drop by lia. f_equal; lia.
    + destruct (Z.ltb_spec (end_ r + j) (cap r)); rewrite !decide_False by lia; done.
  - assert (f = k) as Hf' by lia. rewrite Hf' in *. exists (extended r b1 k). split.
    { unfold extended, advance. fold f. rewrite Hf', Z.ltb_irrefl. done. }
    apply extended_rep; [done|unfold getFree; lia|unfold cap in *; lia|done| |]; intros j Hj;
      rewrite Hl1; unfold pos, zlen in *; destruct (Z.ltb_spec (end_ r + j) (cap r)); try lia.
    + rewrite decide_True by lia. f_equal; lia.
    + rewrite decide_False by lia. done.
    + rewrite decide_False by lia. done.
Qed.

Lemma drop_contents r r' n :
  ring_ok r -> ring_ok r' -> buf r' = buf r -> 0 <= n <= count r -> count r' = count r - n ->
  begin_ r' = (if begin_ r + n <? cap r then begin_ r + n else begin_ r + n - cap r) ->
  contents r' = drop (Z.to_nat n) (contents r).
Proof.
  intros Hr Hr' Hbuf Hn Hc Hb. pose proof (count_range r Hr). apply list_eq. intros i.
  rewrite lookup_drop, !contents_lookup by done. unfold cap in *. rewrite Hbuf, Hc, Hb.
  destruct Hr as [Hb0 _ _]. unfold cap in *. clear Hb Hc.
  destruct (Z.ltb_spec (begin_ r + n) (zlen (buf r))); repeat case_decide;
    try lia; try done; f_equal; repeat case_match; rewrite ?Z.ltb_lt, ?Z.ltb_ge in *; lia.
Qed.

Lemma consume_rep r n :
  ring_ok r -> 0 <= n ->
  exists r', consume r n = (r', Z.min n (count r)) /\ ring_ok r' /\ cap r' = cap r /\
    contents r' = drop (Z.to_nat (Z.min n (count r))) (contents r).
Proof.
  intros Hr Hn. pose proof (count_range r Hr) as Hc. unfold consume. set (k := Z.min n (count r)).
  assert (0 <= k <= count r) as Hk by lia. clearbody k.
  destruct (Z.eqb_spec k 0) as [->|Hk0]; [by exists r|]. eexists; split; [done|].
  rewrite advance_eq by (destruct Hr; lia).
  assert (ring_ok (mkRing (buf r) (if begin_ r + k <? cap r then begin_ r + k else begin_ r + k - cap r) (end_ r) false)) as Hr'.
  { destruct Hr. split; unfold cap in *; cbn [buf begin_ end_ wrap_]; [case_match; lia|done|done]. }
  split_and!; [done|done|]. apply drop_contents; try done.
  destruct Hr as [Hb He Hw]. unfold count, cap in *. cbn [buf begin_ end_ wrap_]. repeat case_match; lia.
Qed.

Lemma read_rep r n :
  ring_ok r -> 0 <= n ->
  exists r', read r n = Ok (r', take (Z.to_nat (Z.min n (count r))) (contents r)) /\ ring_ok r' /\ cap r' = cap r /\
    contents r' = drop (Z.to_nat (Z.min n (count r))) (contents r).
Proof.
  intros Hr Hn. destruct (consume_rep r n Hr Hn) as (r' & Hcs & Hok & Hcap & Hdrop).
  exists r'. split; [|done]. clear Hok Hcap Hdrop. pose proof (count_range r Hr) as Hc.
  unfold read, consume in *. set (k := Z.min n (count r)) in *.
  assert (0 <= k <= count r) as Hk by lia. clearbody k.
  destruct (Z.eqb_spec k 0) as [E|Hk0]; [subst k; by simplify_eq|]. injection Hcs as <-.
  pose proof (ring_begin r Hr) as Hb. unfold advance.
  assert (exists f, f = Z.min k (cap r - begin_ r)) as [f Hf] by eauto. rewrite <- Hf.
  unfold cap in *. rewrite (mem_read_Ok _ (begin_ r)) by lia. cbn [mbind outcome_bind].
  destruct (Z.ltb_spec f k) as [Hfk|Hfk].
  - assert (begin_ r + f = zlen (buf r)) as Hf' by lia. rewrite Hf'.
    rewrite Z.mod_same by lia. rewrite mem_read_Ok by lia. cbn [mbind outcome_bind]. do 2 f_equal.
    rewrite drop_0. unfold contents. rewrite take_take. unfold zlen in *.
    rewrite take_app_ge by (rewrite length_drop; lia). rewrite length_drop. f_equal.
    + apply take_ge. rewrite length_drop. lia.
    + rewrite take_take. f_equal. lia.
  - assert (f = k) as Hf' by lia. rewrite Hf'. cbn [mbind outcome_bind]. do 2 f_equal.
    rewrite app_nil_r. unfold contents. rewrite take_take. unfold zlen in *.
    rewrite take_app_le by (rewrite length_drop; lia). f_equal. lia.
Qed.

Lemma push_rep r v :
  ring_ok r ->
  exists r', push r v = Ok r' /\ ring_ok r' /\ cap r' = cap r /\
    contents r' = drop (Z.to_nat (count r + 1 - cap r)) (contents r) ++ [v].
Proof.
  intros Hr. unfold push.
  assert (exists r1, (if count r =? cap r then (consume r 1).1 else r) = r1 /\ ring_ok r1 /\ cap r1 = cap r /\
    contents r1 = drop (Z.to_nat (count r + 1 - cap r)) (contents r) /\ count r1 < cap r1)
    as (r1 & -> & Hr1 & Hc1 & Hd & Hlt).
  { pose proof (count_range r Hr). destruct (Z.eqb_spec (count r) (cap r)).
    - destruct (consume_rep r 1 Hr ltac:(lia)) as (r1 & Hcs & Hr1 & Hc1 & Hd). exists r1.
      pose proof (ring_begin r Hr). rewrite Hd. rewrite Hcs. split_and!; [done..| |].
      + f_equal. lia.
      + rewrite <- (zlen_contents r1), Hd by done. pose proof (zlen_contents r Hr). unfold zlen in *.
        rewrite length_drop. lia.
    - exists r. replace (Z.to_nat (count r + 1 - cap r)) with 0%nat by lia. rewrite drop_0. split_and!; [done..|lia]. }
  pose proof (ring_end r1 Hr1) as He. rewrite <- Hd, <- Hc1. clear Hr Hd Hc1 r.
  rewrite mem_write1 by (unfold cap in *; lia). cbn [mbind outcome_bind].
  exists (extended r1 (<[Z.to_nat (end_ r1):=v]> (buf r1)) 1). split.
  { unfold extended, advance. rewrite Z.min_l by lia. done. }
  apply extended_rep; [done|unfold getFree; lia|by rewrite zlen_insert|done| |]; intros j Hj; unfold pos, cap, zlen in *.
  - assert (j = 0) as -> by lia. rewrite Z.add_0_r, (proj2 (Z.ltb_lt _ _)) by lia.
    by rewrite list_lookup_insert_eq by lia.
  - apply list_lookup_insert_ne. case_match; lia.
Qed.

Lemma produce_rep r n :
  ring_ok r -> 0 <= n ->
  exists r' new, produce r n = (r', Z.min n (getFree r)) /\ ring_ok r' /\ cap r' = cap r /\
    contents r' = contents r ++ new /\ zlen new = Z.min n (getFree r).
Proof.
  intros Hr Hn. pose proof (count_range r Hr) as Hc. unfold produce.
  assert (0 <= getFree r) by (unfold getFree; lia). set (k := Z.min n (getFree r)).
  assert (0 <= k <= getFree r) as Hk by lia. clearbody k.
  destruct (Z.eqb_spec k 0) as [->|Hk0]; [exists r, []; by rewrite app_nil_r|].
  set (r2 := mkRing _ _ _ _). assert (r2 = extended r (buf r) k) as E by done.
  assert (exists new, zlen new = k /\ forall j, 0 <= j < k -> buf r !! pos r (end_ r) j = new !! Z.to_nat j)
    as (new & Hz & Hnew).
  { pose proof (zlen_contents r Hr). pose proof (ring_end r Hr).
    exists (take (Z.to_nat k) (drop (Z.to_nat (end_ r)) (buf r) ++ take (Z.to_nat (end_ r)) (buf r))).
    unfold cap, zlen, getFree in *. split.
    { rewrite length_take, length_app, length_drop, length_take. unfold cap, zlen in *. lia. }
    intros j Hj. rewrite lookup_take_lt by lia. unfold pos, cap, zlen in *. case_match.
    - rewrite lookup_app_l by (rewrite length_drop; lia). rewrite lookup_drop. f_equal. lia.
    - rewrite lookup_app_r by (rewrite length_drop; lia). rewrite length_drop, lookup_take_lt by lia. f_equal. lia. }
  exists r2, new. rewrite E. destruct (extended_rep r (buf r) k new) as (? & ? & ?); try done; try lia.
Qed.

(** ** Sequences of operations *)

Inductive ring_op :=
  | OWrite (data : list A) n | OPush v | ORead n | OConsume n | OReset | OCount | OFree.

(** The size arguments are [size_t], and [data] holds the [n] elements that [write] is told of. *)
Definition op_ok (o : ring_op) : Prop :=
  match o with OWrite data n => 0 <= n <= zlen data | ORead n | OConsume n => 0 <= n | _ => True end.

(** What an operation leaves behind and what it returns: a size and the elements it copied out. *)
Definition ring_exec r (o : ring_op) : outcome (RingBuffer A * (Z * list A)) :=
  match o with
  | OWrite data n => '(r', k) ← write r data n; Ok (r', (k, []))
  | OPush v => r' ← push r v; Ok (r', (0, []))
  | ORead n => '(r', l) ← read r n; Ok (r', (zlen l, l))
  | OConsume n => let '(r', k) := consume r n in Ok (r', (k, []))
  | OReset => Ok (reset r, (0, []))
  | OCount => Ok (r, (count r, []))
  | OFree => Ok (r, (getFree r, []))
  end.

(** A queue of at most [S] elements. *)
Definition queue_exec (S : Z) (q : list A) (o : ring_op) : list A * (Z * list A) :=
  match o with
  | OWrite data n => let k := Z.min n (S - zlen q) in (q ++ take (Z.to_nat k) data, (k, []))
  | OPush v => (drop (Z.to_nat (zlen q + 1 - S)) q ++ [v], (0, []))
  | ORead n => let l := take (Z.to_nat n) q in (drop (Z.to_nat n) q, (zlen l, l))
  | OConsume n => (drop (Z.to_nat n) q, (Z.min n (zlen q), []))
  | OReset => ([], (0, []))
  | OCount => (q, (zlen q, []))
  | OFree => (q, (S - zlen q, []))
  end.

Fixpoint ring_run r (os : list ring_op) : outcome (RingBuffer A * list (Z * list A)) :=
  match os with
  | [] => Ok (r, [])
  | o :: os' => '(r1, x) ← ring_exec r o; '(r2, xs) ← ring_run r1 os'; Ok (r2, x :: xs)
  end.

Fixpoint queue_run (S : Z) (q : list A) (os : list ring_op) : list A * list (Z * list A) :=
  match os with
  | [] => (q, [])
  | o :: os' => let '(q1, x) := queue_exec S q o in let '(q2, xs) := queue_run S q1 os' in (q2, x :: xs)
  end.

Lemma take_min (q : list A) n : take (Z.to_nat (Z.min n (zlen q))) q = take (Z.to_nat n) q.
Proof.
  unfold zlen. destruct (Z.le_ge_cases n (Z.of_nat (length q))); [by rewrite Z.min_l by lia|].
  rewrite Z.min_r by lia. by rewrite !take_ge by lia.
Qed.
Lemma drop_min (q : list A) n : drop (Z.to_nat (Z.min n (zlen q))) q = drop (Z.to_nat n) q.
Proof.
  unfold zlen. destruct (Z.le_ge_cases n (Z.of_nat (length q))); [by rewrite Z.min_l by lia|].
  rewrite Z.min_r by lia. by rewrite !drop_ge by lia.
Qed.

Lemma ring_exec_rep r o :
  ring_ok r -> op_ok o ->
  let '(q, x) := queue_exec (cap r) (contents r) o in
  exists r', ring_exec r o = Ok (r', x) /\ ring_ok r' /\ cap r' = cap r /\ contents r' = q.
Proof.
  intros Hr Ho. pose proof (zlen_contents r Hr) as Hz. destruct o as [data n|v|n|n| | |]; simpl in *.
  - destruct (write_rep r data n Hr Ho) as (r' & He & ? & ? & Hq). exists r'. by rewrite He, Hq, Hz.
  - destruct (push_rep r v Hr) as (r' & He & ? & ? & Hq). exists r'. by rewrite He, Hq, Hz.
  - destruct (read_rep r n Hr Ho) as (r' & He & ? & ? & Hq). exists r'. by rewrite He, Hq, <- Hz, take_min, drop_min.
  - destruct (consume_rep r n Hr Ho) as (r' & He & ? & ? & Hq). exists r'. by rewrite He, Hq, <- Hz, drop_min.
  - pose proof (count_range r Hr).
    destruct (consume_rep r (count r) Hr ltac:(lia)) as (r' & Hc & ? & ? & Hd). exists r'.
    unfold reset. rewrite Hc, Hd, <- Hz, drop_min. unfold zlen. by rewrite drop_ge by lia.
  - exists r. by rewrite Hz.
  - exists r. unfold getFree. by rewrite Hz.
Qed.

Lemma ring_run_rep os : forall r,
  ring_ok r -> Forall op_ok os ->
  let '(q, xs) := queue_run (cap r) (contents r) os in
  exists r', ring_run r os = Ok (r', xs) /\ ring_ok r' /\ cap r' = cap r /\ contents r' = q.
Proof.
  induction os as [|o os IH]; intros r Hr Hos; simpl; [by exists r|].
  apply list.Forall_cons in Hos as [Ho Hos]. pose proof (ring_exec_rep r o Hr Ho) as He.
  destruct (queue_exec _ _ _) as [q x]. destruct He as (r1 & -> & Hr1 & Hc1 & <-).
  cbn [mbind outcome_bind]. specialize (IH r1 Hr1 Hos). rewrite Hc1 in IH.
  destruct (queue_run _ _ _) as [q2 xs]. destruct IH as (r2 & -> & ? & Hc2 & ?). exists r2.
  by rewrite Hc2.
Qed.

(** C5. The ring buffer refines a bounded queue: any sequence of writes, pushes, reads and consumes
    starting from any well-formed ring returns what a queue of capacity [S] returns (a [push] on a
    full ring drops the oldest element), and no slot outside the array is touched. *)
Theorem ring_refines r os :
  ring_ok r -> Forall op_ok os ->
  exists r', ring_run r os = Ok (r', (queue_run (cap r) (contents r) os).2) /\ ring_ok r' /\
    contents r' = (queue_run (cap r) (contents r) os).1.
Proof.
  intros Hr Hos. pose proof (ring_run_rep os r Hr Hos) as H. destruct (queue_run _ _ _) as [q xs].
  destruct H as (r' & ? & ? & ? & ?). by exists r'.
Qed.

(** ** The counting statistics *)

Lemma full_slot r k :
  ring_ok r -> count r = cap r -> 0 <= k < cap r ->
  exists v, contents r !! Z.to_nat k = Some v /\ slot r ((begin_ r + k) mod cap r) = Ok v.
Proof.
  intros Hr Hc Hk. pose proof (contents_lookup r (Z.to_nat k) Hr) as Hl.
  rewrite decide_True, Z2Nat.id in Hl by lia. pose proof (ring_begin r Hr).
  assert (Z.to_nat k < length (contents r))%nat as Hlt by (pose proof (zlen_contents r Hr); unfold zlen in *; lia).
  destruct (lookup_lt_is_Some_2 _ _ Hlt) as [v Hv]. exists v. split; [done|]. rewrite Hl in Hv.
  unfold slot. rewrite wrap_mod by lia. destruct (Z.ltb_spec (begin_ r + k) (cap r)); rewrite Hv, (proj2 (Z.leb_le _ _)) by lia; done.
Qed.

Definition matching (f : A -> bool) (l : list A) : Z := zlen (filter f l).

Lemma matching_snoc f l v : matching f (l ++ [v]) = matching f l + (if f v then 1 else 0).
Proof.
  unfold matching, zlen. rewrite list.filter_app, length_app, list.filter_cons.
  destruct (f v) eqn:E; case_decide; simpl in *; try done; lia.
Qed.

Lemma stat_loop_full f r k : forall it acc,
  ring_ok r -> count r = cap r -> Z.of_nat k <= cap r -> it = (begin_ r + Z.of_nat k) mod cap r ->
  stat_loop f r (cap r) k it acc = Ok (acc + matching f (take k (contents r))).
Proof.
  induction k as [|k IH]; intros it acc Hr Hc Hk ->; simpl stat_loop.
  - f_equal. unfold matching, zlen. simpl. lia.
  - pose proof (ring_begin r Hr).
    assert (((begin_ r + Z.of_nat (S k)) mod cap r + cap r - 1) mod cap r = (begin_ r + Z.of_nat k) mod cap r) as ->.
    { rewrite <- Z.add_sub_assoc, Z.add_mod_idemp_l by lia.
      replace (begin_ r + Z.of_nat (S k) + (cap r - 1)) with (begin_ r + Z.of_nat k + 1 * cap r) by lia.
      apply Z.mod_add. lia. }
    destruct (full_slot r (Z.of_nat k) Hr Hc) as (v & Hv & ->); [lia|]. cbn [mbind outcome_bind].
    rewrite Nat2Z.id in Hv. rewrite IH by (done || lia). f_equal.
    rewrite (take_S_r _ _ _ Hv), matching_snoc. destruct (f v); lia.
Qed.
End Ring.

(** The statistics walk backwards through the ring modulo the number of elements, not of slots.
    On a full ring this visits every element, so [countValue] is exact, and [get_most_recent]
    reads the slot of the oldest element. A ring that is not full is different: the one below
    holds 1, 2 and 3, yet is said to hold three times 1. *)
Theorem full_ring_statistics (r : RingBuffer Z) (v : Z) :
  ring_ok r -> count r = cap r ->
  countValue r v = Ok (zlen (filter (fun w => w = v) (contents r))) /\
  get_most_recent r = match contents r with x :: _ => Ok x | [] => Undef end /\
  contents (mkRing [1; 2; 3; 0] 0 3 false) = [1; 2; 3] /\
  countValue (mkRing [1; 2; 3; 0] 0 3 false) 1 = Ok 3.
Proof.
  intros Hr Hc. pose proof (ring_begin r Hr) as Hb. pose proof (zlen_contents r Hr) as Hz. split_and!.
  - unfold countValue. rewrite Hc, stat_loop_full.
    + f_equal. rewrite Z.add_0_l. rewrite take_ge by (unfold zlen in *; lia). unfold matching. f_equal.
      apply list_filter_iff. intros w. by rewrite bool_decide_spec.
    + done.
    + done.
    + lia.
    + rewrite Z2Nat.id by lia. replace (begin_ r + cap r) with (begin_ r + 1 * cap r) by lia.
      rewrite Z.mod_add, Z.mod_small by lia. done.
  - unfold get_most_recent. assert (end_ r = begin_ r) as ->.
    { destruct Hr as [_ He Hw]. unfold count in Hc. destruct (Z.eqb_spec (end_ r) (begin_ r)); [done|].
      case_match; lia. }
    destruct (full_slot r 0 Hr Hc) as (x & Hx & Hs); [lia|].
    rewrite Z.add_0_r, Z.mod_small in Hs by lia. rewrite Hs. by destruct (contents r); simplify_eq/=.
  - reflexivity.
  - reflexivity.
Qed.

Definition ring4 : RingBuffer Z := mkRing [7; 0; 5; 6] 2 1 false.

Lemma ring4_ok : ring_ok ring4.
Proof. by split. Qed.

Lemma ring_refines_witness :
  exists r', ring_run ring4 [OPush 8; OPush 9; ORead 2; OWrite [1; 2; 3] 3; OCount] =
      Ok (r', [(0, []); (0, []); (2, [6; 7]); (2, []); (4, [])]) /\ contents r' = [8; 9; 1; 2].
Proof.
  destruct (ring_refines ring4 [OPush 8; OPush 9; ORead 2; OWrite [1; 2; 3] 3; OCount] ring4_ok)
    as (r' & He & _ & Hc); [by repeat constructor|].
  exists r'. split; [etransitivity; [exact He|] | etransitivity; [exact Hc|]]; vm_compute; reflexivity.
Defined.

Lemma full_ring_statistics_witness :
  countValue (mkRing [1; 2; 1] 1 1 true) 1 = Ok 2 /\ get_most_recent (mkRing [1; 2; 1] 1 1 true) = Ok 2.
Proof.
  destruct (full_ring_statistics (mkRing [1; 2; 1] 1 1 true) 1) as (Hc & Hg & _); [by split|done|].
  split; [rewrite Hc | rewrite Hg]; vm_compute; reflexivity.
Defined.
