(* ===== verification/SortedVector.v ===== *)
(** * Sorted vectors

    A std::vector that is kept in ascending order of a key, with the searches of the C++ library (libstdc++'s bisection): the multicast groups of a network,
    the members of a group. *)

From stdpp Require Import sorting.
From S2P Require Import Prelude.

(** The first index of [first .. first + len - 1] whose element is not [below], when those that are come first. *)
Fixpoint bisect {A} (below : A -> bool) (fuel : nat) (l : list A) (first len : nat) : nat :=
  match fuel, len with
  | S fuel, S _ =>
      let half := Nat.div2 len in
      match l !! (first + half)%nat with
      | Some x => if below x then bisect below fuel l (S (first + half)) (len - half - 1) else bisect below fuel l first half
      | None => first
      end
  | _, _ => first
  end.

Section vector.
Context {A : Type} (key : A -> Z).

Definition lower_bound (l : list A) (k : Z) : nat := bisect (fun x => key x <? k) (S (length l)) l 0 (length l).
Definition upper_bound (l : list A) (k : Z) : nat := bisect (fun x => negb (k <? key x)) (S (length l)) l 0 (length l).
Definition binary_search (l : list A) (k : Z) : bool := match l !! lower_bound l k with Some x => negb (k <? key x) | None => false end.
Definition vec_insert (l : list A) (i : nat) (x : A) : list A := take i l ++ x :: drop i l.

(** [std::unique] and the [erase] that follows it. *)
Fixpoint unique (eqb : A -> A -> bool) (l : list A) : list A :=
  match l with
  | [] => []
  | x :: l' => match unique eqb l' with y :: r => if eqb x y then x :: r else x :: y :: r | [] => [x] end
  end.

(** Strictly ascending. *)
Definition ascending (l : list A) : Prop := StronglySorted Z.lt (key <$> l).

Lemma bisect_spec (below : A -> bool) l (k : nat) : (forall i x, l !! i = Some x -> below x = bool_decide (i < k)%nat) -> (k <= length l)%nat ->
  bisect below (S (length l)) l 0 (length l) = k.
Proof.
  intros Hb Hk. assert (forall fuel first len, (len < fuel)%nat -> (first + len <= length l)%nat -> (first <= k <= first + len)%nat -> bisect below fuel l first len = k) as H; [|apply H; lia].
  induction fuel as [|fuel IH]; intros first len Hf Hl Hr; [lia|]. cbn [bisect]. destruct len as [|len]; [lia|]. set (half := Nat.div2 (S len)).
  assert (half < S len)%nat as Hhalf by (apply Nat.lt_div2; lia). destruct (lookup_lt_is_Some_2 l (first + half) ltac:(lia)) as [x Hx]. rewrite Hx, (Hb _ _ Hx).
  case_bool_decide; apply IH; lia.
Qed.

(** In order, with equal keys allowed. *)
Definition ordered (l : list A) : Prop := forall i j x y, (i <= j)%nat -> l !! i = Some x -> l !! j = Some y -> key x <= key y.

(** Where [k] belongs. *)
Lemma ordered_split l k : ordered l -> exists lo hi, l = lo ++ hi /\ Forall (fun x => key x < k) lo /\ Forall (fun x => k <= key x) hi.
Proof.
  induction l as [|x l IH]; intros Ho; [by exists [], []|]. destruct (Z.lt_ge_cases (key x) k) as [Hlt|Hge].
  - destruct IH as (lo & hi & -> & Hlo & Hhi); [intros i j y z Hij; apply (Ho (S i) (S j)); lia|]. exists (x :: lo), hi. split; [done|]. split; [by apply list.Forall_cons_2|done].
  - exists [], (x :: l). split; [done|]. split; [by constructor|]. apply list.Forall_forall. intros y [i Hi]%list_elem_of_lookup. pose proof (Ho 0%nat i x y ltac:(lia) eq_refl Hi). lia.
Qed.
Lemma ascending_ordered l : ascending l -> ordered l.
Proof.
  unfold ascending. induction l as [|x l IH]; intros Ha i j y z Hij Hy Hz; [done|]. cbn [fmap list_fmap] in Ha. apply StronglySorted_inv in Ha as [Ha Hx].
  destruct i as [|i], j as [|j]; [simplify_eq/=; lia| |lia|apply (IH Ha i j y z); [lia|done..]]. injection Hy as ->. cbn [lookup list_lookup] in Hz. apply list_elem_of_lookup_2 in Hz.
  assert (key z ∈ key <$> l) as Hk by (apply list_elem_of_fmap; by exists z). pose proof (proj1 (list.Forall_forall _ _) Hx (key z) Hk). lia.
Qed.
Lemma ascending_split l k : ascending l -> exists lo hi, l = lo ++ hi /\ Forall (fun x => key x < k) lo /\ Forall (fun x => k <= key x) hi.
Proof. intros Ha. by apply ordered_split, ascending_ordered. Qed.

Lemma lower_bound_spec lo hi k : Forall (fun x => key x < k) lo -> Forall (fun x => k <= key x) hi -> lower_bound (lo ++ hi) k = length lo.
Proof.
  intros Hlo Hhi. apply bisect_spec; [|rewrite length_app; lia]. intros i x Hx. destruct (decide (i < length lo)%nat).
  - rewrite bool_decide_eq_true_2 by done. rewrite lookup_app_l in Hx by done. pose proof (list.Forall_lookup_1 _ _ _ _ Hlo Hx). by apply Z.ltb_lt.
  - rewrite bool_decide_eq_false_2 by done. rewrite lookup_app_r in Hx by lia. pose proof (list.Forall_lookup_1 _ _ _ _ Hhi Hx). by apply Z.ltb_ge.
Qed.

Lemma upper_bound_spec lo hi k : Forall (fun x => key x <= k) lo -> Forall (fun x => k < key x) hi -> upper_bound (lo ++ hi) k = length lo.
Proof.
  intros Hlo Hhi. apply bisect_spec; [|rewrite length_app; lia]. intros i x Hx. destruct (decide (i < length lo)%nat).
  - rewrite bool_decide_eq_true_2 by done. rewrite lookup_app_l in Hx by done. pose proof (list.Forall_lookup_1 _ _ _ _ Hlo Hx). apply negb_true_iff. by apply Z.ltb_ge.
  - rewrite bool_decide_eq_false_2 by done. rewrite lookup_app_r in Hx by lia. pose proof (list.Forall_lookup_1 _ _ _ _ Hhi Hx). apply negb_false_iff. by apply Z.ltb_lt.
Qed.

(** The element with key [k] is where the search says. *)
Lemma lower_bound_found l k x : ascending l -> (l !! lower_bound l k = Some x /\ key x = k) <-> (x ∈ l /\ key x = k).
Proof.
  intros Ha. split; [intros [Hl ?]; split; [by eapply list_elem_of_lookup_2|done]|]. intros [Hin Hk]. split; [|done].
  destruct (ascending_split l k Ha) as (lo & hi & -> & Hlo & Hhi). rewrite (lower_bound_spec lo hi k) by done. rewrite lookup_app_r, Nat.sub_diag by lia.
  apply elem_of_app in Hin as [Hin|Hin]; [pose proof (proj1 (list.Forall_forall _ _) Hlo x Hin) as Hb; cbn in Hb; lia|]. destruct hi as [|y hi]; [by apply elem_of_nil in Hin|].
  apply elem_of_cons in Hin as [->|Hin]; [done|]. apply list.Forall_cons in Hhi as [Hy _]. unfold ascending in Ha. rewrite fmap_app in Ha. apply StronglySorted_app_1_r in Ha.
  cbn [fmap list_fmap] in Ha. apply StronglySorted_inv in Ha as [_ Hlt]. apply (proj1 (list.Forall_fmap _ _ _)) in Hlt. pose proof (proj1 (list.Forall_forall _ _) Hlt x Hin) as Hb. cbn in Hb. lia.
Qed.

Lemma ordered_app_r l l' : ordered (l ++ l') -> ordered l'.
Proof. intros Ho i j x y Hij Hx Hy. apply (Ho (length l + i)%nat (length l + j)%nat x y); [lia|by rewrite lookup_app_r, Nat.add_sub_swap, Nat.sub_diag by lia..]. Qed.

Lemma binary_search_spec l k : ordered l -> binary_search l k = true <-> exists x, x ∈ l /\ key x = k.
Proof.
  intros Ho. unfold binary_search. destruct (ordered_split l k Ho) as (lo & hi & -> & Hlo & Hhi). rewrite (lower_bound_spec lo hi k), lookup_app_r, Nat.sub_diag by (done || lia).
  apply ordered_app_r in Ho. split.
  - destruct hi as [|x hi]; [done|]. cbn [lookup list_lookup]. intros Hk%negb_true_iff%Z.ltb_ge. exists x. split; [apply elem_of_app; right; left|]. apply list.Forall_cons in Hhi as [? _]. lia.
  - intros (x & [Hin|Hin]%elem_of_app & Hk); [pose proof (proj1 (list.Forall_forall _ _) Hlo x Hin) as Hb; cbn in Hb; lia|].
    apply list_elem_of_lookup in Hin as [i Hi]. destruct hi as [|y hi]; [done|]. cbn [lookup list_lookup] in *. pose proof (Ho 0%nat i y x ltac:(lia) eq_refl Hi).
    apply negb_true_iff, Z.ltb_ge. lia.
Qed.

(** Inserting an element with a new key where either search says. *)
Lemma ascending_insert lo hi x : ascending (lo ++ hi) -> Forall (fun y => key y < key x) lo -> Forall (fun y => key x < key y) hi -> ascending (lo ++ x :: hi).
Proof.
  unfold ascending. rewrite !fmap_app. intros Ha Hlo Hhi. cbn [fmap list_fmap]. apply StronglySorted_app_2.
  - intros a b Hla Hlb. apply list_elem_of_fmap in Hla as (y & -> & Hy). pose proof (proj1 (list.Forall_forall _ _) Hlo y Hy) as Hb. cbn in Hb.
    apply elem_of_cons in Hlb as [->|Hlb]; [done|]. apply list_elem_of_fmap in Hlb as (z & -> & Hz). pose proof (proj1 (list.Forall_forall _ _) Hhi z Hz) as Hc. cbn in Hc. lia.
  - by eapply StronglySorted_app_1_l.
  - constructor; [by eapply StronglySorted_app_1_r|]. by apply list.Forall_fmap.
Qed.

Lemma vec_insert_spec l x : ascending l -> ~ (exists y, y ∈ l /\ key y = key x) ->
  lower_bound l (key x) = upper_bound l (key x) /\ ascending (vec_insert l (lower_bound l (key x)) x) /\ vec_insert l (lower_bound l (key x)) x ≡ₚ x :: l.
Proof.
  intros Ha Hn. destruct (ascending_split l (key x) Ha) as (lo & hi & -> & Hlo & Hhi).
  assert (Forall (fun y => key x < key y) hi) as Hhi'.
  { apply list.Forall_forall. intros y Hy. pose proof (proj1 (list.Forall_forall _ _) Hhi y Hy) as Hb. cbn in Hb. destruct (Z.eq_dec (key y) (key x)); [|lia]. exfalso. apply Hn. exists y. split; [|done]. apply elem_of_app. by right. }
  rewrite (lower_bound_spec lo hi) by done. rewrite (upper_bound_spec lo hi); [|eapply list.Forall_impl; [exact Hlo|]; cbn; intros; lia|done].
  split; [done|]. unfold vec_insert. rewrite take_app_length, drop_app_length. split; [by apply ascending_insert|]. by rewrite Permutation_middle.
Qed.

Lemma ascending_NoDup l : ascending l -> NoDup (key <$> l).
Proof.
  unfold ascending. generalize (key <$> l). clear l. induction 1 as [|k ks _ IH Hk]; [constructor|]. apply list.NoDup_cons. split; [|done]. intros Hin.
  pose proof (proj1 (list.Forall_forall _ _) Hk k Hin). lia.
Qed.

Lemma ascending_delete l i : ascending l -> ascending (delete i l).
Proof.
  unfold ascending. rewrite list_fmap_delete. generalize (key <$> l). clear l. intros ks Ha. revert i. induction Ha as [|k ks Ha IH Hk]; intros [|i]; cbn [delete list_delete]; [constructor..|done|].
  constructor; [apply IH|]. apply list.Forall_forall. intros y Hy. apply (proj1 (list.Forall_forall _ _) Hk). by eapply list_elem_of_delete_inv.
Qed.

Lemma sorted_ordered l : Sorted (fun x y => key x <= key y) l -> ordered l.
Proof.
  intros Hs%Sorted_StronglySorted; [|intros x y z ? ?; lia]. induction Hs as [|x l _ IH Hx]; intros i j y z Hij Hy Hz; [done|].
  destruct i as [|i], j as [|j]; [simplify_eq/=; lia| |lia|apply (IH i j y z); [lia|done..]]. injection Hy as ->. cbn [lookup list_lookup] in Hz. apply list_elem_of_lookup_2 in Hz.
  exact (proj1 (list.Forall_forall _ _) Hx z Hz).
Qed.

(** [std::unique] on a vector that was sorted. *)
Lemma unique_spec (eqb : A -> A -> bool) l : (forall x y, eqb x y = true <-> x = y) -> (forall x y, x ∈ l -> y ∈ l -> key x = key y -> x = y) -> Sorted (fun x y => key x <= key y) l ->
  ascending (unique eqb l) /\ forall x, x ∈ unique eqb l <-> x ∈ l.
Proof.
  intros Heq Hinj. induction l as [|x l IH]; intros Hs; [split; [constructor|done]|]. apply Sorted_inv in Hs as [Hs Hhd]. destruct (IH ltac:(intros y z ? ?; apply Hinj; by right) Hs) as [Ha Hin]. cbn [unique].
  assert (forall y, y ∈ l -> key x <= key y) as Hle.
  { intros y Hy. destruct l as [|z l]; [by apply elem_of_nil in Hy|]. apply HdRel_inv in Hhd. apply elem_of_cons in Hy as [->|Hy]; [done|].
    apply Sorted_StronglySorted in Hs; [|intros a b c ? ?; lia]. apply StronglySorted_inv in Hs as [_ Hz]. pose proof (proj1 (list.Forall_forall _ _) Hz y Hy) as Hb. cbn in Hb. lia. }
  destruct (unique eqb l) as [|y r] eqn:Eu.
  - split; [repeat constructor|]. intros z. rewrite !elem_of_cons, <- Hin. done.
  - destruct (eqb x y) eqn:Ee.
    + apply Heq in Ee as ->. split; [done|]. intros z. rewrite (elem_of_cons l), <- Hin, !elem_of_cons. tauto.
    + split; [|intros z; rewrite (elem_of_cons (y :: r)), (elem_of_cons l), <- Hin; done]. unfold ascending in *. cbn [fmap list_fmap] in *. constructor; [done|].
      assert (key x < key y) as Hlt.
      { assert (y ∈ l) as Hy by (apply Hin; left). specialize (Hle y Hy). destruct (Z.eq_dec (key x) (key y)) as [E|]; [|lia]. apply Hinj, Heq in E; [congruence|by left|by right]. }
      apply StronglySorted_inv in Ha as [_ Hr]. apply list.Forall_cons_2; [done|]. eapply list.Forall_impl; [exact Hr|]. cbn. intros k Hk. lia.
Qed.

(** Deleting the element with key [k]. *)
Lemma delete_found l k x : ascending l -> x ∈ l -> key x = k -> l ≡ₚ x :: delete (lower_bound l k) l.
Proof. intros Ha Hin Hk. apply delete_Permutation. by apply lower_bound_found. Qed.

(** The search finds what a walk from the start finds first. *)
Lemma lower_bound_find l k : ordered l -> match l !! lower_bound l k with Some x => if key x =? k then Some x else None | None => None end = List.find (fun x => key x =? k) l.
Proof.
  intros Ho. destruct (ordered_split l k Ho) as (lo & hi & -> & Hlo & Hhi). rewrite (lower_bound_spec lo hi k), lookup_app_r, Nat.sub_diag by (done || lia).
  pose proof (ordered_app_r _ _ Ho) as Hh. clear Ho.
  induction Hlo as [|x lo Hx _ IH]; cbn [app List.find]; [|rewrite (proj2 (Z.eqb_neq _ _)) by lia; exact IH].
  destruct hi as [|y hi]; [done|]. cbn [lookup list_lookup List.find]. destruct (Z.eqb_spec (key y) k) as [|Hn]; [done|]. symmetry. destruct (List.find _ hi) as [z|] eqn:E; [|done]. exfalso.
  apply List.find_some in E as [[i Hi]%list_elem_of_In%list_elem_of_lookup Hk%Z.eqb_eq]. apply list.Forall_cons in Hhi as [Hy _]. pose proof (Hh 0%nat (S i) y z ltac:(lia) eq_refl Hi). lia.
Qed.
End vector.
