(* ===== verification/Rule.v ===== *)
(** * Network flow rules (include/ZeroTierOne.h, node/Capability.hpp)

    [ZT_VirtualNetworkRule] is a type byte and a union. [RuleValue] has a constructor per union
    member; using another member than the one that was written is undefined. The wire form of a
    rule list is shared by capabilities and network configurations. *)

From S2P Require Import Prelude Buffer Serial Address.

(** ** Rule types *)

Definition ACTION_DROP : Z := 0.
Definition ACTION_ACCEPT : Z := 1.
Definition ACTION_TEE : Z := 2.
Definition ACTION_WATCH : Z := 3.
Definition ACTION_REDIRECT : Z := 4.
Definition ACTION_BREAK : Z := 5.
Definition ACTION_PRIORITY : Z := 6.
Definition ACTION__MAX_ID : Z := 15.
Definition MATCH_SOURCE_ZEROTIER_ADDRESS : Z := 24.
Definition MATCH_DEST_ZEROTIER_ADDRESS : Z := 25.
Definition MATCH_VLAN_ID : Z := 26.
Definition MATCH_VLAN_PCP : Z := 27.
Definition MATCH_VLAN_DEI : Z := 28.
Definition MATCH_MAC_SOURCE : Z := 29.
Definition MATCH_MAC_DEST : Z := 30.
Definition MATCH_IPV4_SOURCE : Z := 31.
Definition MATCH_IPV4_DEST : Z := 32.
Definition MATCH_IPV6_SOURCE : Z := 33.
Definition MATCH_IPV6_DEST : Z := 34.
Definition MATCH_IP_TOS : Z := 35.
Definition MATCH_IP_PROTOCOL : Z := 36.
Definition MATCH_ETHERTYPE : Z := 37.
Definition MATCH_ICMP : Z := 38.
Definition MATCH_IP_SOURCE_PORT_RANGE : Z := 39.
Definition MATCH_IP_DEST_PORT_RANGE : Z := 40.
Definition MATCH_CHARACTERISTICS : Z := 41.
Definition MATCH_FRAME_SIZE_RANGE : Z := 42.
Definition MATCH_RANDOM : Z := 43.
Definition MATCH_TAGS_DIFFERENCE : Z := 44.
Definition MATCH_TAGS_BITWISE_AND : Z := 45.
Definition MATCH_TAGS_BITWISE_OR : Z := 46.
Definition MATCH_TAGS_BITWISE_XOR : Z := 47.
Definition MATCH_TAGS_EQUAL : Z := 48.
Definition MATCH_TAG_SENDER : Z := 49.
Definition MATCH_TAG_RECEIVER : Z := 50.
Definition MATCH_INTEGER_RANGE : Z := 51.

(** The union [v]; addresses of more than 8 bytes and MACs are kept as their bytes. *)
Inductive RuleValue :=
  | VNone
  | VIpv6 (ip : list Z) (mask : Z)
  | VIpv4 (ip : list Z) (mask : Z)
  | VIntRange (start end_ idx format : Z)
  | VCharacteristics (c : Z)
  | VPort (p0 p1 : Z)
  | VZt (a : Z)
  | VRandom (p : Z)
  | VMac (m : list Z)
  | VVlanId (n : Z)
  | VVlanPcp (n : Z)
  | VVlanDei (n : Z)
  | VEtherType (n : Z)
  | VIpProtocol (n : Z)
  | VIpTos (mask v0 v1 : Z)
  | VFrameSize (n0 n1 : Z)
  | VIcmp (type code flags : Z)
  | VTag (id value : Z)
  | VFwd (address flags length : Z)
  | VQos (bucket : Z).

Record ZT_VirtualNetworkRule := mkRule { t : Z; v : RuleValue }.

#[export] Instance RuleValue_eq_dec : EqDecision RuleValue.
Proof. solve_decision. Defined.
#[export] Instance Rule_eq_dec : EqDecision ZT_VirtualNetworkRule.
Proof. solve_decision. Defined.

(** [(ZT_VirtualNetworkRuleType)(rule.t & 0x3f)] *)
Definition rule_type (r : ZT_VirtualNetworkRule) : Z := Z.land (t r) 0x3f.

(** The groups of case labels that share a union member; the [default] is [KNone]. *)
Inductive kind :=
  | KNone | KFwd | KZt | KVlanId | KVlanPcp | KVlanDei | KMac | KIpv4 | KIpv6 | KIpTos | KIpProtocol
  | KEtherType | KIcmp | KPort | KCharacteristics | KFrameSize | KRandom | KTag | KIntRange.

#[export] Instance kind_eq_dec : EqDecision kind.
Proof. solve_decision. Defined.

Definition rule_kind (rt : Z) : kind :=
  match rt with
  | 2 | 3 | 4 => KFwd
  | 24 | 25 => KZt
  | 26 => KVlanId
  | 27 => KVlanPcp
  | 28 => KVlanDei
  | 29 | 30 => KMac
  | 31 | 32 => KIpv4
  | 33 | 34 => KIpv6
  | 35 => KIpTos
  | 36 => KIpProtocol
  | 37 => KEtherType
  | 38 => KIcmp
  | 39 | 40 => KPort
  | 41 => KCharacteristics
  | 42 => KFrameSize
  | 43 => KRandom
  | 44 | 45 | 46 | 47 | 48 | 49 | 50 => KTag
  | 51 => KIntRange
  | _ => KNone
  end.

(** ** serializeRules *)

(** One pass of the loop, after the type byte. *)
Definition serialize_value (b : Buffer) (k : kind) (v : RuleValue) : outcome Buffer :=
  match k, v with
  | KNone, _ => append_int 1 b 0
  | KFwd, VFwd address flags length =>
      b ← append_int 1 b 14; b ← append_int 8 b address; b ← append_int 4 b flags; append_int 2 b length
  | KZt, VZt zt => b ← append_int 1 b 5; Address.appendTo b (Address.of_int zt)
  | KVlanId, VVlanId n => b ← append_int 1 b 2; append_int 2 b n
  | KVlanPcp, VVlanPcp n => b ← append_int 1 b 1; append_int 1 b n
  | KVlanDei, VVlanDei n => b ← append_int 1 b 1; append_int 1 b n
  | KMac, VMac mac => b ← append_int 1 b 6; append b mac
  | KIpv4, VIpv4 ip mask => b ← append_int 1 b 5; b ← append b ip; append_int 1 b mask
  | KIpv6, VIpv6 ip mask => b ← append_int 1 b 17; b ← append b ip; append_int 1 b mask
  | KIpTos, VIpTos mask v0 v1 =>
      b ← append_int 1 b 3; b ← append_int 1 b mask; b ← append_int 1 b v0; append_int 1 b v1
  | KIpProtocol, VIpProtocol n => b ← append_int 1 b 1; append_int 1 b n
  | KEtherType, VEtherType n => b ← append_int 1 b 2; append_int 2 b n
  | KIcmp, VIcmp type code flags =>
      b ← append_int 1 b 3; b ← append_int 1 b type; b ← append_int 1 b code; append_int 1 b flags
  | KPort, VPort p0 p1 => b ← append_int 1 b 4; b ← append_int 2 b p0; append_int 2 b p1
  | KCharacteristics, VCharacteristics c => b ← append_int 1 b 8; append_int 8 b c
  | KFrameSize, VFrameSize n0 n1 => b ← append_int 1 b 4; b ← append_int 2 b n0; append_int 2 b n1
  | KRandom, VRandom p => b ← append_int 1 b 4; append_int 4 b p
  | KTag, VTag id value => b ← append_int 1 b 8; b ← append_int 4 b id; append_int 4 b value
  | KIntRange, VIntRange start end_ idx format =>
      b ← append_int 1 b 19; b ← append_int 8 b start; b ← append_int 8 b (u64 (start + end_));
      b ← append_int 2 b idx; append_int 1 b format
  | _, _ => Undef
  end.

Definition serializeRule (b : Buffer) (r : ZT_VirtualNetworkRule) : outcome Buffer :=
  b ← append_int 1 b (t r); serialize_value b (rule_kind (rule_type r)) (v r).

Definition serializeRules : Buffer -> list ZT_VirtualNetworkRule -> outcome Buffer :=
  append_all serializeRule.

(** ** deserializeRules *)

(** What a rule slot holds whose value is not read: the slots are zeroed before, so [qosBucket],
    which is not on the wire, is 0. *)
Definition unread_value (rt : Z) : RuleValue := if rt =? ACTION_PRIORITY then VQos 0 else VNone.

Definition deserialize_value (b : Buffer) (p rt : Z) : outcome RuleValue :=
  match rule_kind rt with
  | KNone => Ok (unread_value rt)
  | KFwd => a ← at_ 8 b p; f ← at_ 4 b (p + 8); l ← at_ 2 b (p + 12); Ok (VFwd a f l)
  | KZt => bs ← field b p 5; a ← Address.setTo bs 5; Ok (VZt (Address.toInt a))
  | KVlanId => n ← at_ 2 b p; Ok (VVlanId n)
  | KVlanPcp => n ← index b p; Ok (VVlanPcp n)
  | KVlanDei => n ← index b p; Ok (VVlanDei n)
  | KMac => m ← field b p 6; Ok (VMac m)
  | KIpv4 => ip ← field b p 4; m ← index b (p + 4); Ok (VIpv4 ip m)
  | KIpv6 => ip ← field b p 16; m ← index b (p + 16); Ok (VIpv6 ip m)
  | KIpTos => m ← index b p; v0 ← index b (p + 1); v1 ← index b (p + 2); Ok (VIpTos m v0 v1)
  | KIpProtocol => n ← index b p; Ok (VIpProtocol n)
  | KEtherType => n ← at_ 2 b p; Ok (VEtherType n)
  | KIcmp => ty ← index b p; co ← index b (p + 1); fl ← index b (p + 2); Ok (VIcmp ty co fl)
  | KPort => p0 ← at_ 2 b p; p1 ← at_ 2 b (p + 2); Ok (VPort p0 p1)
  | KCharacteristics => c ← at_ 8 b p; Ok (VCharacteristics c)
  | KFrameSize => n0 ← at_ 2 b p; n1 ← at_ 2 b (p + 2); Ok (VFrameSize n0 n1)
  | KRandom => n ← at_ 4 b p; Ok (VRandom n)
  | KTag => i ← at_ 4 b p; x ← at_ 4 b (p + 4); Ok (VTag i x)
  | KIntRange =>
      s ← at_ 8 b p; e ← at_ 8 b (p + 8); i ← at_ 2 b (p + 16); f ← index b (p + 18);
      Ok (VIntRange s (u32 (u64 (e - s))) i f)
  end.

(** One pass of the loop: the rule and the number of bytes behind [p] it takes. *)
Definition deserializeRule (b : Buffer) (p : Z) : outcome (ZT_VirtualNetworkRule * Z) :=
  ty ← index b p;
  fieldLen ← index b (p + 1);
  x ← deserialize_value b (p + 2) (Z.land ty 0x3f);
  Ok (mkRule ty x, 2 + fieldLen).

(** [while ((ruleCount < maxRuleCount) && (p < b.size()))]; [fuel] is [maxRuleCount - ruleCount]. *)
Fixpoint deserializeRules (fuel : nat) (b : Buffer) (p : Z) (rules : list ZT_VirtualNetworkRule) :
  outcome (list ZT_VirtualNetworkRule * Z) :=
  match fuel with
  | O => Ok (rules, p)
  | S f =>
      if p <? size b then '(r, n) ← deserializeRule b p; deserializeRules f b (p + n) (rules ++ [r])
      else Ok (rules, p)
  end.

(** ** Wire form *)


Definition value_wf (rt : Z) (v : RuleValue) : Prop :=
  match rule_kind rt, v with
  | KNone, _ => v = unread_value rt
  | KFwd, VFwd a f l => rng 64 a /\ rng 32 f /\ rng 16 l
  | KZt, VZt a => rng 40 a
  | KVlanId, VVlanId n | KEtherType, VEtherType n => rng 16 n
  | KVlanPcp, VVlanPcp n | KVlanDei, VVlanDei n | KIpProtocol, VIpProtocol n => rng 8 n
  | KMac, VMac m => bytes_ok m /\ zlen m = 6
  | KIpv4, VIpv4 ip m => bytes_ok ip /\ zlen ip = 4 /\ rng 8 m
  | KIpv6, VIpv6 ip m => bytes_ok ip /\ zlen ip = 16 /\ rng 8 m
  | KIpTos, VIpTos a b c | KIcmp, VIcmp a b c => rng 8 a /\ rng 8 b /\ rng 8 c
  | KPort, VPort a b | KFrameSize, VFrameSize a b => rng 16 a /\ rng 16 b
  | KCharacteristics, VCharacteristics c => rng 64 c
  | KRandom, VRandom p => rng 32 p
  | KTag, VTag i x => rng 32 i /\ rng 32 x
  | KIntRange, VIntRange s e i f => rng 64 s /\ rng 32 e /\ rng 16 i /\ rng 8 f
  | _, _ => False
  end.

Definition rule_wf (r : ZT_VirtualNetworkRule) : Prop := rng 8 (t r) /\ value_wf (rule_type r) (v r).

(** The length byte of a kind. *)
Definition field_len (k : kind) : Z :=
  match k with
  | KNone => 0
  | KFwd => 14
  | KZt | KIpv4 => 5
  | KVlanId | KEtherType => 2
  | KVlanPcp | KVlanDei | KIpProtocol => 1
  | KMac => 6
  | KIpv6 => 17
  | KIpTos | KIcmp => 3
  | KPort | KFrameSize | KRandom => 4
  | KCharacteristics | KTag => 8
  | KIntRange => 19
  end.

Definition payload (v : RuleValue) : list Z :=
  match v with
  | VNone | VQos _ => []
  | VFwd a f l => be_bytes 8 a ++ be_bytes 4 f ++ be_bytes 2 l
  | VZt zt => be_bytes 5 (Address.of_int zt)
  | VVlanId n | VEtherType n => be_bytes 2 n
  | VVlanPcp n | VVlanDei n | VIpProtocol n => be_bytes 1 n
  | VMac m => m
  | VIpv4 ip m | VIpv6 ip m => ip ++ be_bytes 1 m
  | VIpTos a b c | VIcmp a b c => be_bytes 1 a ++ be_bytes 1 b ++ be_bytes 1 c
  | VPort a b | VFrameSize a b => be_bytes 2 a ++ be_bytes 2 b
  | VCharacteristics c => be_bytes 8 c
  | VRandom p => be_bytes 4 p
  | VTag i x => be_bytes 4 i ++ be_bytes 4 x
  | VIntRange s e i f => be_bytes 8 s ++ be_bytes 8 (u64 (s + e)) ++ be_bytes 2 i ++ be_bytes 1 f
  end.

Definition value_enc (k : kind) (v : RuleValue) : list Z := be_bytes 1 (field_len k) ++ payload v.

Definition rule_enc (r : ZT_VirtualNetworkRule) : list Z :=
  be_bytes 1 (t r) ++ value_enc (rule_kind (rule_type r)) (v r).

#[export] Instance rule_serial : Serial ZT_VirtualNetworkRule := {
  ser_wf := rule_wf; ser_enc := rule_enc; serialize := serializeRule; deserialize := deserializeRule }.

#[local] Hint Extern 1 (writes _ _ (Address.appendTo _ _)) => apply Address.appendTo_writes; done : writes.

(** Split [value_wf] into the kinds; the union member is then known. *)
Ltac value_cases H :=
  unfold value_wf, serialize_value, deserialize_value in *;
  match type of H with context [rule_kind ?rt] => destruct (rule_kind rt) eqn:?Hk end;
  try (match type of H with match ?v with _ => _ end => destruct v end);
  try contradiction; try subst; repeat match goal with H : _ /\ _ |- _ => destruct H end.

Lemma unread_payload rt : payload (unread_value rt) = [].
Proof. unfold unread_value. by case_match. Qed.

Lemma value_bytes rt v : value_wf rt v -> bytes_ok (value_enc (rule_kind rt) v).
Proof.
  intros H. unfold value_enc. value_cases H; rewrite ?unread_payload; cbn [payload]; rewrite ?bytes_ok_app;
    auto 10 with bytes.
  split; [auto with bytes|constructor].
Qed.

Lemma value_writes rt v b :
  value_wf rt v -> buf_ok b -> writes b (value_enc (rule_kind rt) v) (serialize_value b (rule_kind rt) v).
Proof.
  intros H Hb. unfold value_enc. value_cases H; [rewrite unread_payload, app_nil_r; auto with writes|..];
    cbn [payload field_len]; writes_all.
Qed.

Lemma payload_len rt v : value_wf rt v -> zlen (payload v) = field_len (rule_kind rt).
Proof.
  intros H. value_cases H; [by rewrite unread_payload|..]; unfold zlen in *; cbn [payload];
    rewrite ?length_app, ?length_be_bytes; try lia; simpl; lia.
Qed.

Lemma field_len_ok k : byte_ok (field_len k).
Proof. destruct k; by_compute. Qed.

Lemma rule_bytes r : rule_wf r -> bytes_ok (rule_enc r).
Proof. intros [? ?]. unfold rule_enc. rewrite bytes_ok_app. auto using value_bytes with bytes. Qed.

Lemma rule_writes r b : rule_wf r -> buf_ok b -> writes b (rule_enc r) (serializeRule b r).
Proof.
  intros [? ?] Hb. apply writes_bind; [done|auto with writes|intros ? ? _ _]. by apply value_writes.
Qed.

Lemma value_reads rt v b p rest :
  value_wf rt v -> buf_ok b -> rest_at b p (payload v ++ rest) -> deserialize_value b p rt = Ok v.
Proof.
  intros H Hb Hr. value_cases H; cbn [payload] in Hr; rewrite <- ?app_assoc in Hr; unfold rng in *;
    repeat read_pos Hb Hr; try (by rewrite ?u8_small, ?Z.mod_small by (unfold byte_ok; lia)).
  - by rewrite Address.of_int_id, Address.setTo_be_bytes.
  - rewrite u8_small, !Z.mod_small by (unfold byte_ok, u64, wrap; lia || apply Z.mod_pos_bound; lia).
    do 2 f_equal. unfold u32, u64, wrap. rewrite Zminus_mod_idemp_l, Z.add_simpl_l, !(Z.mod_small end_) by lia. done.
Qed.

(** ** Parsing arbitrary input *)

Lemma value_returns rt b p :
  buf_ok b -> 0 <= p < 2 ^ 31 + 2 -> returns (value_wf rt) (deserialize_value b p rt).
Proof.
  intros Hb Hp. unfold deserialize_value, value_wf. destruct (rule_kind rt) eqn:Hk;
    repeat returns_step; simpl; unfold rng; try done; try (split_and?; done || lia).
  - destruct (Address.setTo_returns a) as (x & -> & Hx & _); [done..|]. exact Hx.
  - split_and!; try lia; try (unfold byte_ok in *; lia); apply wrap_range; lia.
Qed.

Lemma rule_returns b p :
  buf_ok b -> pos_ok p ->
  returns (fun '(r, n) => rule_wf r /\ p + 1 < _l b /\ 2 <= n <= 257) (deserializeRule b p).
Proof.
  intros Hb [Hp1 Hp2]. unfold deserializeRule. repeat returns_step.
  eapply returns_bind; [apply value_returns; [done|lia]|]. intros x Hx. simpl.
  unfold byte_ok in *. split_and!; [split; [unfold rng; simpl; lia|done]|lia..].
Qed.

Lemma rule_reads r b p rest :
  rule_wf r -> buf_ok b -> rest_at b p (rule_enc r ++ rest) -> deserializeRule b p = Ok (r, zlen (rule_enc r)).
Proof.
  intros [Ht Hv] Hb Hr. unfold rule_enc, value_enc in *. pose proof (payload_len _ _ Hv) as Hl.
  pose proof (field_len_ok (rule_kind (rule_type r))) as Hf.
  rewrite <- ?app_assoc in Hr. unfold deserializeRule. read_step Hb Hr. read_step Hb Hr.
  rewrite !u8_small by (unfold rng, byte_ok in *; lia).
  replace (p + 1 + 1) with (p + 2) in Hr by lia. fold (rule_type r).
  rewrite (value_reads _ _ b (p + 2) rest Hv Hb Hr). cbn [mbind outcome_bind].
  rewrite !zlen_app, !zlen_be_bytes, Hl. destruct r; simpl. do 2 f_equal. lia.
Qed.

#[export] Instance rule_laws : SerialLaws ZT_VirtualNetworkRule := {
  ser_bytes := rule_bytes; ser_writes := rule_writes; ser_reads := rule_reads }.
#[export] Instance rule_serial_safe : SerialSafe ZT_VirtualNetworkRule.
Proof. intros b p Hb Hp. eapply returns_mono, rule_returns; [|done..]. intros [r n]. lia. Qed.

(** ** What is not transmitted *)

(** A rule as it arrives: what its type has no case for is lost, the bucket of a PRIORITY rule too. *)
Definition wire_rule (r : ZT_VirtualNetworkRule) : ZT_VirtualNetworkRule :=
  if decide (rule_kind (rule_type r) = KNone) then mkRule (t r) (unread_value (rule_type r)) else r.

Lemma wire_rule_id r : rule_wf r -> wire_rule r = r.
Proof.
  intros [_ Hv]. unfold wire_rule. destruct (decide _) as [Hk|]; [|done]. unfold value_wf in Hv. rewrite Hk in Hv. rewrite <- Hv. by destruct r.
Qed.

Lemma serialize_wire_rule b r : serializeRule b (wire_rule r) = serializeRule b r.
Proof.
  unfold wire_rule. destruct (decide _) as [Hk|]; [|done]. unfold serializeRule. cbn [t v]. change (rule_type (mkRule (t r) _)) with (rule_type r). by rewrite Hk.
Qed.

(** ** Rule lists *)

Definition rules_enc (rs : list ZT_VirtualNetworkRule) : list Z := concat (rule_enc <$> rs).

Lemma rules_writes rs b :
  Forall rule_wf rs -> buf_ok b -> writes b (rules_enc rs) (serializeRules b rs).
Proof.
  intros Hw. apply append_all_writes. intros r b1 Hr Hb1. apply rule_writes; [|done].
  by eapply list.Forall_forall in Hr.
Qed.

Lemma serialize_wire_rules rs b : serializeRules b (wire_rule <$> rs) = serializeRules b rs.
Proof.
  unfold serializeRules. revert b. induction rs as [|r rs IH]; intros b; [done|]. cbn [fmap list_fmap append_all]. rewrite serialize_wire_rule.
  by destruct (serializeRule b r); cbn [mbind outcome_bind].
Qed.

Lemma wire_rules_id rs : Forall rule_wf rs -> wire_rule <$> rs = rs.
Proof. induction 1 as [|r rs Hr _ IH]; [done|]. cbn [fmap list_fmap]. by rewrite wire_rule_id, IH. Qed.

Lemma zlen_rule_enc r : 2 <= zlen (rule_enc r).
Proof. unfold rule_enc, value_enc. rewrite !zlen_app, !zlen_be_bytes. pose proof (zlen_nonneg (payload (v r))). lia. Qed.

Lemma rules_reads rs : forall b p acc rest,
  Forall rule_wf rs -> buf_ok b -> rest_at b p (rules_enc rs ++ rest) ->
  deserializeRules (length rs) b p acc = Ok (acc ++ rs, p + zlen (rules_enc rs)) /\
  rest_at b (p + zlen (rules_enc rs)) rest.
Proof.
  induction rs as [|r rs IH]; intros b p acc rest Hw Hb Hr.
  - simpl. rewrite Z.add_0_r, app_nil_r. done.
  - apply list.Forall_cons in Hw as [Hw Hws]. cbn [length deserializeRules].
    change (rules_enc (r :: rs)) with (rule_enc r ++ rules_enc rs) in *. rewrite <- app_assoc in Hr.
    pose proof (rest_at_bound b Hb _ _ Hr) as [Hp0 Hp]. rewrite zlen_app in Hp.
    pose proof (zlen_rule_enc r). pose proof (zlen_nonneg (rules_enc rs ++ rest)).
    rewrite (proj2 (Z.ltb_lt _ _)) by (unfold size; lia).
    rewrite (rule_reads r b p _ Hw Hb Hr). cbn [mbind outcome_bind]. apply rest_at_next in Hr.
    destruct (IH b (p + zlen (rule_enc r)) (acc ++ [r]) rest Hws Hb Hr) as [-> Hr'].
    rewrite <- app_assoc, zlen_app, Z.add_assoc. done.
Qed.

Lemma rules_returns fuel : forall b p acc,
  buf_ok b -> pos_ok p -> Forall rule_wf acc ->
  returns (fun '(rs, p') => Forall rule_wf rs /\ (length rs <= length acc + fuel)%nat /\
                            p <= p' /\ (p' <= p \/ p' <= _l b + 256)) (deserializeRules fuel b p acc).
Proof.
  induction fuel as [|fuel IH]; intros b p acc Hb Hp Hacc; cbn [deserializeRules].
  - simpl. split_and!; [done|lia|lia|by left].
  - destruct (Z.ltb_spec p (size b)) as [Hlt|Hge]; [|simpl; split_and!; [done|lia|lia|by left]].
    eapply returns_bind; [by apply rule_returns|]. intros [r n] (Hr & Hlt' & Hn). unfold size in *.
    destruct (Z.lt_ge_cases (p + n) (2 ^ 31)) as [Hs|Hs].
    + eapply returns_mono, IH; [|done|unfold pos_ok in *; lia|by apply Forall_app_2; [|constructor]].
      intros [rs p'] (? & Hl & ? & Hp'). rewrite length_app in Hl. simpl in Hl. split_and!; [done|lia|lia|lia].
    + destruct Hb as [? ? ?]. destruct fuel; cbn [deserializeRules].
      * simpl. rewrite length_app. simpl. split_and!; [by apply Forall_app_2; [|constructor]|lia..].
      * unfold size. rewrite (proj2 (Z.ltb_ge _ _)) by lia. simpl. rewrite length_app. simpl.
        split_and!; [by apply Forall_app_2; [|constructor]|lia..].
Qed.



(** ** Properties *)

(** A rule list written by [serializeRules] is read back unchanged, up to the last byte, by
    [deserializeRules] with the same count; and on arbitrary bytes at any position the parser
    stays inside the buffer, ends, and yields at most the announced number of rules, each with
    the union member its type calls for and every field in range. *)
Theorem rules_wire rs b (fuel : nat) p :
  Forall rule_wf rs -> buf_ok b -> _l b + zlen (rules_enc rs) <= capacity b -> pos_ok p ->
  (exists b', serializeRules b rs = Ok b' /\ data b' = data b ++ rules_enc rs /\
     deserializeRules (length rs) b' (_l b) [] = Ok (rs, _l b')) /\
  returns (fun '(rs', p') => Forall rule_wf rs' /\ (length rs' <= fuel)%nat /\ p <= p') (deserializeRules fuel b p []).
Proof.
  intros Hw Hb Hfit Hp. split.
  - destruct (writes_fits b _ _ (rules_writes rs b Hw Hb) Hfit) as (b' & -> & Hb' & Hd & _).
    exists b'. split_and!; [done..|].
    destruct (rules_reads rs b' (_l b) [] [] Hw Hb') as [-> _].
    { rewrite app_nil_r. by apply rest_at_end. }
    by rewrite <- (zlen_data b' Hb'), Hd, zlen_app, (zlen_data b Hb).
  - eapply returns_mono, rules_returns; [|done..|constructor]. intros [rs' p'] (? & ? & ? & ?). done.
Qed.

(** A rule of a type that has no case is skipped: whatever its length byte announces is passed
    over, so what follows is parsed at the right place. PRIORITY is such a type although it has a
    value: its bucket is not on the wire and every parsed PRIORITY rule has bucket 0. *)
Theorem unknown_rules_skipped ty bs rest b p :
  rule_kind (Z.land ty 0x3f) = KNone -> zlen bs < 256 -> buf_ok b -> rest_at b p (ty :: zlen bs :: bs ++ rest) ->
  deserializeRule b p = Ok (mkRule ty (unread_value (Z.land ty 0x3f)), 2 + zlen bs) /\
  rest_at b (p + (2 + zlen bs)) rest /\
  forall bucket, rule_enc (mkRule ACTION_PRIORITY (VQos bucket)) = [6; 0] /\
    (ty = ACTION_PRIORITY -> deserializeRule b p = Ok (mkRule ACTION_PRIORITY (VQos 0), 2 + zlen bs)).
Proof.
  intros Hk Hl Hb Hr. assert (deserializeRule b p = Ok (mkRule ty (unread_value (Z.land ty 0x3f)), 2 + zlen bs)) as E.
  { pose proof Hr as Hr'. unfold deserializeRule. read_step Hb Hr'. read_step Hb Hr'.
    unfold deserialize_value. by rewrite Hk. }
  split_and!; [done| |].
  - apply (rest_at_next b p (ty :: zlen bs :: bs)) in Hr. autorewrite with zlen in Hr.
    by replace (p + (2 + zlen bs)) with (p + (1 + (1 + zlen bs))) by lia.
  - intros bucket. split; [done|]. by intros ->.
Qed.

Definition example_rules : list ZT_VirtualNetworkRule :=
  [mkRule 0xa5 (VEtherType 0x800); mkRule 0x65 (VEtherType 0x806); mkRule 0 VNone;
   mkRule 45 (VTag 7 0x100); mkRule 51 (VIntRange 0xffffffff00000000 0xffffffff 14 63); mkRule 2 (VFwd 0x89e92ceee5 0 64);
   mkRule 33 (VIpv6 (replicate 16 0xfc) 8); mkRule 1 VNone].
Definition example_mem : Buffer := mkBuffer (replicate 200 0) 3.

Lemma example_rules_wf : Forall rule_wf example_rules.
Proof.
  repeat (apply Forall_cons_2; [split; [split; by_compute|]; vm_compute;
    repeat split; try (repeat constructor); try (intros; discriminate); done|]). constructor.
Qed.

Lemma example_mem_ok : buf_ok example_mem.
Proof. split; by_compute. Qed.

Lemma rules_wire_witness :
  exists b', serializeRules example_mem example_rules = Ok b' /\
    deserializeRules 8 b' 3 [] = Ok (example_rules, _l b').
Proof.
  destruct (rules_wire example_rules example_mem 0 0 example_rules_wf example_mem_ok) as [(b' & Hs & _ & Hd) _];
    [by_compute|by_compute|]. exists b'. split; [exact Hs|exact Hd].
Defined.

Lemma unknown_rules_skipped_witness :
  deserializeRule (mkBuffer [9; 6; 2; 1; 1; 77; 0; 0] 6) 1 = Ok (mkRule 6 (VQos 0), 4) /\
  rest_at (mkBuffer [9; 6; 2; 1; 1; 77; 0; 0] 6) 5 [77].
Proof.
  destruct (unknown_rules_skipped 6 [1; 1] [77] (mkBuffer [9; 6; 2; 1; 1; 77; 0; 0] 6) 1) as (_ & Hr & Hp);
    [reflexivity|by_compute|split; by_compute|by exists [9]|].
  split; [by apply (Hp 0)|exact Hr].
Defined.
