(* ===== verification/Identity.v ===== *)
(** * Identities (node/Identity.hpp, node/Identity.cpp)

    An identity is an address, a public key set and, for one's own, a private key set. The
    elliptic-curve and hash functions it calls are the class [Crypto]; [deserialize] and the text
    form are modelled as they are, with [abort()] as a loss of the process. *)

From S2P Require Import Prelude Buffer Serial Address Dictionary Salsa20.

Definition ZT_ECC_PUBLIC_KEY_SET_LEN : Z := 64.
Definition ZT_ECC_PRIVATE_KEY_SET_LEN : Z := 64.
Definition ZT_ECC_SIGNATURE_LEN : Z := 96.

(** The primitives of ECC.cpp and SHA512.cpp. *)
Class Crypto := {
  ecc_sign : list Z -> list Z -> list Z -> list Z;
  ecc_verify : list Z -> list Z -> list Z -> bool;
  sha384 : list Z -> list Z;
  sha512 : list Z -> list Z;
}.

Record Identity := mkIdentity { _address : Z; _publicKey : list Z; _privateKey : option (list Z) }.

#[export] Instance Identity_eq_dec : EqDecision Identity.
Proof. solve_decision. Defined.

(** What [Identity()] leaves: no private key, the null address; its key bytes are not read. *)
Definition Identity_nil : Identity := mkIdentity 0 [] None.

Definition hasPrivate (id : Identity) : bool := match _privateKey id with Some _ => true | None => false end.
Definition address (id : Identity) : Z := _address id.
Definition publicKey (id : Identity) : list Z := _publicKey id.
Definition identity_bool (id : Identity) : bool := Address.nonzero (_address id).

Definition eqb (a b : Identity) : bool := (_address a =? _address b) && (memcmp (_publicKey a) (_publicKey b) =? 0).
Definition ltb (a b : Identity) : bool :=
  (_address a <? _address b) || ((_address a =? _address b) && (memcmp (_publicKey a) (_publicKey b) <? 0)).

Section Crypto.
Context `{Crypto}.

Definition publicKeyHash (id : Identity) : list Z := sha384 (Address.to_bytes (_address id) ++ _publicKey id).

Definition sha512PrivateKey (id : Identity) : option (list Z) := sha512 <$> _privateKey id.

(** [sign] without a private key calls [abort()]. *)
Definition sign (id : Identity) (data : list Z) : outcome (list Z) :=
  match _privateKey id with Some k => Ok (ecc_sign k (_publicKey id) data) | None => Undef end.

Definition verify (id : Identity) (data signature : list Z) : bool := ecc_verify (_publicKey id) data signature.

Definition verify_sized (id : Identity) (data signature : list Z) (siglen : Z) : bool :=
  if negb (siglen =? ZT_ECC_SIGNATURE_LEN) then false else ecc_verify (_publicKey id) data signature.

(** ** The memory-hard hash: [blocks] 64-byte blocks of memory; the code has 32768 *)

Definition ZT_IDENTITY_GEN_MEMORY_BLOCKS : Z := 32768.
Definition ZT_IDENTITY_GEN_HASHCASH_FIRST_BYTE_LESS_THAN : Z := 17.

(** The filling loop: each block is the encryption of its predecessor. *)
Fixpoint genmem_fill (n : nat) (s : Salsa20) (prev : list Z) : Salsa20 * list Z :=
  match n with
  | O => (s, [])
  | S k => let '(s, blk) := crypt20_block s prev in let '(s, r) := genmem_fill k s blk in (s, blk ++ r)
  end.

(** The [i]-th 64-bit word of a byte array, and its replacement. *)
Definition word_at (m : list Z) (i : Z) : list Z := take 8 (drop (Z.to_nat (8 * i)) m).
Definition set_word (m : list Z) (i : Z) (w : list Z) : list Z :=
  take (Z.to_nat (8 * i)) m ++ w ++ drop (Z.to_nat (8 * i) + 8) m.

(** The mixing loop: two words of memory select a word of the digest and one of memory to swap. *)
Fixpoint genmem_mix (n : nat) (i : Z) (s : Salsa20) (genmem digest : list Z) : list Z :=
  match n with
  | O => digest
  | S k =>
      let idx1 := be_int (word_at genmem i) mod 8 in
      let idx2 := be_int (word_at genmem (i + 1)) mod (zlen genmem / 8) in
      let tmp := word_at genmem idx2 in
      let genmem := set_word genmem idx2 (word_at digest idx1) in
      let digest := set_word digest idx1 tmp in
      let '(s, digest) := crypt20_block s digest in
      genmem_mix k (i + 2) s genmem digest
  end.

Definition computeMemoryHardHash (blocks : nat) (publicKey : list Z) : list Z :=
  let digest := sha512 publicKey in
  let s := Salsa20.init (take 32 digest) (take 8 (drop 32 digest)) in
  let '(s, genmem) := genmem_fill blocks s (replicate 64 0) in
  genmem_mix (blocks * 4) 0 s genmem digest.

Definition locallyValidate (blocks : nat) (id : Identity) : bool :=
  if Address.isReserved (_address id) then false
  else
    let digest := computeMemoryHardHash blocks (_publicKey id) in
    let addrb := Address.to_bytes (_address id) in
    (nth 0 digest 0 <? ZT_IDENTITY_GEN_HASHCASH_FIRST_BYTE_LESS_THAN) &&
    (nth 59 digest 0 =? nth 0 addrb 0) && (nth 60 digest 0 =? nth 1 addrb 0) &&
    (nth 61 digest 0 =? nth 2 addrb 0) && (nth 62 digest 0 =? nth 3 addrb 0) && (nth 63 digest 0 =? nth 4 addrb 0).

(** One round of [generate]: a key pair that satisfies the halting condition; the loop ends when
    the address is not reserved. *)
Definition generate_cond (blocks : nat) (pub : list Z) : bool :=
  nth 0 (computeMemoryHardHash blocks pub) 0 <? ZT_IDENTITY_GEN_HASHCASH_FIRST_BYTE_LESS_THAN.

Definition generate_step (blocks : nat) (pub priv : list Z) : option Identity :=
  if generate_cond blocks pub then
    let a := Address.of_int (be_int (take 5 (drop 59 (computeMemoryHardHash blocks pub)))) in
    if Address.isReserved a then None else Some (mkIdentity a pub (Some priv))
  else None.

(** [generate] on the key pairs that [ECC::generateSatisfying] draws one after the other; it runs until one is taken. *)
Fixpoint generate (blocks : nat) (pairs : list (list Z * list Z)) : option Identity :=
  match pairs with
  | [] => None
  | (pub, priv) :: pairs =>
      match generate_step blocks pub priv with Some id => Some id | None => generate blocks pairs end
  end.
End Crypto.

(** ** Binary form *)

Definition identity_serialize (b : Buffer) (id : Identity) (includePrivate : bool) : outcome Buffer :=
  b ← Address.appendTo b (_address id);
  b ← append_int 1 b 0;
  b ← append b (_publicKey id);
  match _privateKey id with
  | Some k => if includePrivate then b ← append_int 1 b ZT_ECC_PRIVATE_KEY_SET_LEN; append b k
              else append_int 1 b 0
  | None => append_int 1 b 0
  end.

(** A type byte other than 0 and a private key length other than 0 and 64 call [abort()]. *)
Definition identity_deserialize (b : Buffer) (startAt : Z) : outcome (Identity * Z) :=
  let p := startAt in
  bs ← field b p 5; a ← Address.setTo bs 5; let p := p + 5 in
  ty ← index b p; let p := p + 1 in
  if negb (ty =? 0) then Undef
  else
    pk ← field b p ZT_ECC_PUBLIC_KEY_SET_LEN; let p := p + ZT_ECC_PUBLIC_KEY_SET_LEN in
    privateKeyLength ← index b p; let p := p + 1 in
    if negb (privateKeyLength =? 0) then
      if negb (privateKeyLength =? ZT_ECC_PRIVATE_KEY_SET_LEN) then Undef
      else
        sk ← field b p ZT_ECC_PRIVATE_KEY_SET_LEN; let p := p + ZT_ECC_PRIVATE_KEY_SET_LEN in
        Ok (mkIdentity a pk (Some sk), p - startAt)
    else Ok (mkIdentity a pk None, p - startAt).

(** ** Text form: the characters before the NUL *)

Definition ZT_IDENTITY_STRING_BUFFER_LENGTH : Z := 384.

(** [Utils::hex(bytes, len, buf)] *)
Definition hex_bytes (bs : list Z) : list Z := concat ((fun b => [hexdigit b 4; hexdigit b 0]) <$> bs).

Definition identity_toString (includePrivate : bool) (id : Identity) : list Z :=
  take 10 (Address.toString (_address id)) ++ [58; 48; 58] ++ hex_bytes (_publicKey id) ++
  match _privateKey id with
  | Some k => if includePrivate then 58 :: hex_bytes k else []
  | None => []
  end.

(** A digit of [Utils::unhex]; other characters count as 0. *)
Definition unhex_digit (hc : Z) : Z :=
  if (48 <=? hc) && (hc <=? 57) then hc - 48
  else if (97 <=? hc) && (hc <=? 102) then hc - 87
  else if (65 <=? hc) && (hc <=? 70) then hc - 55
  else 0.

(** [Utils::unhex(h, buf, buflen)]: the bytes written; their number is what it returns. *)
Fixpoint unhex (buflen : nat) (h : list Z) : list Z :=
  match buflen with
  | O => []
  | S n =>
      match h with
      | c :: d :: h' => Z.lor (Z.shiftl (unhex_digit c) 4) (unhex_digit d) :: unhex n h'
      | _ => []
      end
  end.

(** The tokens [strtok_r] finds: the maximal runs of characters other than [sep]. *)
Fixpoint stok (sep : Z) (s : list Z) : list (list Z) :=
  match s with
  | [] => []
  | c :: s' =>
      if c =? sep then stok sep s'
      else match s' with
           | [] => [[c]]
           | d :: _ =>
               if d =? sep then [c] :: stok sep s'
               else match stok sep s' with tok :: r => (c :: tok) :: r | [] => [[c]] end
           end
  end.

(** [fromString]: the identity when it returns true. *)
Definition identity_fromString (str : list Z) : option Identity :=
  if ZT_IDENTITY_STRING_BUFFER_LENGTH <=? zlen str then None
  else
    match stok 58 str with
    | f0 :: f1 :: f2 :: r =>
        let a := Address.of_int (hexStrToU64 f0) in
        if Address.isReserved a then None
        else if negb (bool_decide (f1 = [48])) then None
        else
          let pk := unhex 64 f2 in
          if negb (zlen pk =? ZT_ECC_PUBLIC_KEY_SET_LEN) then None
          else
            match r with
            | [] => Some (mkIdentity a pk None)
            | [f3] =>
                let sk := unhex 64 f3 in
                if negb (zlen sk =? ZT_ECC_PRIVATE_KEY_SET_LEN) then None else Some (mkIdentity a pk (Some sk))
            | _ => None
            end
    | _ => None
    end.

(** ** Wire form of a public identity *)

Definition key_ok (n : Z) (k : list Z) : Prop := bytes_ok k /\ zlen k = n.

Definition identity_ok (id : Identity) : Prop :=
  Address.ok (_address id) /\ key_ok 64 (_publicKey id) /\
  match _privateKey id with Some k => key_ok 64 k | None => True end.

Definition identity_enc (id : Identity) (includePrivate : bool) : list Z :=
  be_bytes 5 (_address id) ++ be_bytes 1 0 ++ _publicKey id ++
  match _privateKey id with
  | Some k => if includePrivate then be_bytes 1 64 ++ k else be_bytes 1 0
  | None => be_bytes 1 0
  end.

(** What is left of an identity on the wire. *)
Definition published (includePrivate : bool) (id : Identity) : Identity :=
  if includePrivate then id else mkIdentity (_address id) (_publicKey id) None.

#[local] Hint Extern 1 (writes _ _ (Address.appendTo _ _)) => apply Address.appendTo_writes; done : writes.

Lemma identity_writes id priv b :
  identity_ok id -> buf_ok b -> writes b (identity_enc id priv) (identity_serialize b id priv).
Proof.
  intros (Ha & [Hpk Hpl] & Hsk) Hb. unfold identity_enc, identity_serialize.
  destruct (_privateKey id) as [k|]; [destruct Hsk as [Hk Hkl]; destruct priv|]; writes_all.
Qed.

Lemma identity_bytes id priv : identity_ok id -> bytes_ok (identity_enc id priv).
Proof.
  intros (Ha & [Hpk Hpl] & Hsk). unfold identity_enc. rewrite !bytes_ok_app.
  split_and!; [auto with bytes..|].
  destruct (_privateKey id) as [k|]; [destruct priv; [destruct Hsk; rewrite bytes_ok_app|]|]; auto with bytes.
Qed.

Lemma identity_reads id priv b p rest :
  identity_ok id -> buf_ok b -> rest_at b p (identity_enc id priv ++ rest) ->
  identity_deserialize b p = Ok (published priv id, zlen (identity_enc id priv)).
Proof.
  intros (Ha & [Hpk Hpl] & Hsk) Hb Hr. unfold identity_enc in Hr. rewrite <- !app_assoc in Hr.
  unfold identity_deserialize, published, identity_enc, ZT_ECC_PUBLIC_KEY_SET_LEN in *.
  read_step Hb Hr. rewrite Address.setTo_be_bytes by done. cbn [mbind outcome_bind].
  read_step Hb Hr. change (u8 0) with 0. cbn [Z.eqb negb]. read_step Hb Hr.
  destruct (_privateKey id) as [k|] eqn:E; [destruct Hsk as [Hk Hkl]; destruct priv|];
    rewrite <- ?app_assoc in Hr; read_step Hb Hr.
  - change (u8 64) with 64. change (64 =? 0) with false. change (64 =? ZT_ECC_PRIVATE_KEY_SET_LEN) with true.
    cbn [negb]. unfold ZT_ECC_PRIVATE_KEY_SET_LEN. read_step Hb Hr.
    destruct id; simpl in *; subst. do 2 f_equal. autorewrite with zlen. lia.
  - change (u8 0) with 0. cbn [Z.eqb negb]. do 2 f_equal. autorewrite with zlen. lia.
  - change (u8 0) with 0. cbn [Z.eqb negb]. destruct priv; destruct id; simpl in *; subst;
      do 2 f_equal; autorewrite with zlen; lia.
Qed.

#[export] Instance identity_serial : Serial Identity := {
  ser_wf id := identity_ok id /\ _privateKey id = None; ser_enc id := identity_enc id false;
  serialize b id := identity_serialize b id false; deserialize := identity_deserialize }.

Lemma identity_reads_public id b p rest :
  identity_ok id /\ _privateKey id = None -> buf_ok b -> rest_at b p (identity_enc id false ++ rest) ->
  identity_deserialize b p = Ok (id, zlen (identity_enc id false)).
Proof.
  intros [Hok Hn] Hb Hr. rewrite (identity_reads id false b p rest) by done.
  unfold published. destruct id as [a pk sk]. cbn in Hn. by subst sk.
Qed.

#[export] Instance identity_laws : SerialLaws Identity := {
  ser_bytes id H := identity_bytes id false (proj1 H);
  ser_writes id b H Hb := identity_writes id false b (proj1 H) Hb;
  ser_reads := identity_reads_public }.

(** ** Properties *)

(** C6. Parsing an identity from the network can take the process down: [deserialize] reaches
    [abort()], on a buffer of any content, if and only if the type byte is there and is not 0, or
    it is 0, the public key is there and the length byte behind it is neither 0 nor 64. In all other
    cases it returns an identity with every field in range or throws. *)
Theorem identity_abort_iff b p :
  buf_ok b -> pos_ok p ->
  (identity_deserialize b p = Undef <->
     (exists ty, index b (p + 5) = Ok ty /\ ty <> 0) \/
     (index b (p + 5) = Ok 0 /\ exists n, index b (p + 70) = Ok n /\ n <> 0 /\ n <> 64)) /\
  (identity_deserialize b p = Undef \/ returns (fun '(id, n) => identity_ok id /\ 71 <= n <= 135) (identity_deserialize b p)).
Proof.
  intros Hb [Hp0 Hp1]. unfold identity_deserialize, ZT_ECC_PUBLIC_KEY_SET_LEN, ZT_ECC_PRIVATE_KEY_SET_LEN.
  destruct (field_cases b p 5 Hb) as [(Hl & bs & -> & Hbs & Hz)|(Hl & ->)]; [lia..| |].
  2: { cbn [mbind outcome_bind]. destruct (index_cases b (p + 5) Hb) as [[? _]|[_ ->]]; [lia|lia|]. naive_solver. }
  cbn [mbind outcome_bind]. destruct (Address.setTo_returns bs Hbs Hz) as (a & -> & Ha & _). cbn [mbind outcome_bind].
  destruct (index_cases b (p + 5) Hb) as [(_ & ty & -> & Hty)|[_ ->]]; [lia| |naive_solver].
  cbn [mbind outcome_bind]. destruct (Z.eqb_spec ty 0) as [->|Hne]; cbn [negb]; [|naive_solver].
  destruct (field_cases b (p + 5 + 1) 64 Hb) as [(Hl' & pk & -> & Hpk & Hpl)|(Hl' & ->)]; [lia..| |].
  2: { cbn [mbind outcome_bind]. destruct (index_cases b (p + 70) Hb) as [[? _]|[_ ->]]; [lia|lia|]. naive_solver. }
  cbn [mbind outcome_bind]. replace (p + 5 + 1 + 64) with (p + 70) by lia.
  destruct (index_cases b (p + 70) Hb) as [(_ & n & -> & Hn)|[_ ->]]; [lia| |naive_solver].
  cbn [mbind outcome_bind]. destruct (Z.eqb_spec n 0) as [->|Hn0]; cbn [negb].
  { split; [naive_solver|]. right. split; [|lia]. by split_and!. }
  destruct (Z.eqb_spec n 64) as [->|Hn64]; cbn [negb]; [|naive_solver].
  destruct (field_cases b (p + 70 + 1) 64 Hb) as [(Hl2 & sk & -> & Hsk & Hsl)|(Hl2 & ->)]; [lia..| |naive_solver].
  cbn [mbind outcome_bind]. split; [naive_solver|]. right. split; [|lia]. by split_and!.
Qed.

Lemma hex_value_unhex c n : hex_value c = Some n -> unhex_digit c = n /\ c <> 58.
Proof. unfold hex_value, unhex_digit. repeat case_match; intros [= <-]; lia. Qed.

Lemma unhex_hex_bytes bs n :
  bytes_ok bs -> unhex (length bs + n) (hex_bytes bs) = bs.
Proof.
  induction 1 as [|b bs Hb Hbs IH]; [by destruct n|]. cbn [length Nat.add].
  change (hex_bytes (b :: bs)) with (hexdigit b 4 :: hexdigit b 0 :: hex_bytes bs). cbn [unhex]. rewrite IH. f_equal.
  destruct (hexdigit_eq b 4) as (hi & Hhi & -> & Ehi); [lia|]. destruct (hexdigit_eq b 0) as (lo & Hlo & -> & Elo); [lia|].
  destruct (hexchar_spec hi Hhi) as [Hh _]. destruct (hexchar_spec lo Hlo) as [Hl _].
  rewrite (proj1 (hex_value_unhex _ _ Hh)), (proj1 (hex_value_unhex _ _ Hl)).
  rewrite lor_add by lia. subst hi lo. unfold byte_ok in *. change (2 ^ 4) with 16. change (2 ^ 0) with 1.
  rewrite Z.div_1_r, (Z.mod_small (b / 16)) by (pose proof (Z.div_lt_upper_bound b 16 16); pose proof (Z.div_pos b 16); lia).
  pose proof (Z.div_mod b 16). lia.
Qed.

Definition no_sep (s : list Z) : Prop := Forall (fun c => c <> 58) s.

Lemma hexdigit_no_sep v k : 0 <= k -> hexdigit v k <> 58.
Proof.
  intros Hk. destruct (hexdigit_eq v k Hk) as (n & Hn & -> & _). destruct (hexchar_spec n Hn) as [Hv _].
  exact (proj2 (hex_value_unhex _ _ Hv)).
Qed.

Lemma hex_bytes_no_sep bs : no_sep (hex_bytes bs).
Proof.
  induction bs as [|b bs IH]; [constructor|].
  change (hex_bytes (b :: bs)) with (hexdigit b 4 :: hexdigit b 0 :: hex_bytes bs).
  by repeat apply Forall_cons_2; try apply hexdigit_no_sep.
Qed.

Lemma zlen_hex_bytes bs : zlen (hex_bytes bs) = 2 * zlen bs.
Proof.
  induction bs as [|b bs IH]; [done|]. change (hex_bytes (b :: bs)) with (hexdigit b 4 :: hexdigit b 0 :: hex_bytes bs).
  autorewrite with zlen. lia.
Qed.

Lemma stok_last s : s <> [] -> no_sep s -> stok 58 s = [s].
Proof.
  intros Hne Hs. induction Hs as [|c s Hc Hs IH]; [done|]. cbn [stok].
  rewrite (proj2 (Z.eqb_neq _ _) Hc). destruct s as [|d s]; [done|].
  apply list.Forall_cons in Hs as Hd. destruct Hd as [Hd _]. rewrite (proj2 (Z.eqb_neq _ _) Hd).
  by rewrite IH.
Qed.

Lemma stok_next s r : s <> [] -> no_sep s -> stok 58 (s ++ 58 :: r) = s :: stok 58 r.
Proof.
  intros Hne Hs. induction Hs as [|c s Hc Hs IH]; [done|]. cbn [stok app].
  rewrite (proj2 (Z.eqb_neq _ _) Hc). destruct s as [|d s]; [done|]. cbn [app] in *.
  apply list.Forall_cons in Hs as Hd. destruct Hd as [Hd _]. rewrite (proj2 (Z.eqb_neq _ _) Hd).
  by rewrite IH.
Qed.

Lemma identity_text priv id :
  identity_ok id -> Address.isReserved (_address id) = false ->
  identity_fromString (identity_toString priv id) = Some (published priv id).
Proof.
  intros (Ha & [Hpk Hpl] & Hsk) Hres.
  assert (exists tl r, identity_toString priv id = hexdigits 10 (_address id) ++ 58 :: [48] ++ 58 :: tl /\
    stok 58 tl = hex_bytes (_publicKey id) :: r /\ zlen tl <= 257 /\
    match r with
    | [] => published priv id = mkIdentity (_address id) (_publicKey id) None
    | [f3] => exists k, f3 = hex_bytes k /\ bytes_ok k /\ zlen k = 64 /\
                published priv id = mkIdentity (_address id) (_publicKey id) (Some k)
    | _ => False
    end) as (tl & r & -> & Htl & Hlen & Hr).
  { assert (hex_bytes (_publicKey id) <> []) as Hne.
    { intros E. pose proof (zlen_hex_bytes (_publicKey id)) as Hz. rewrite E, Hpl in Hz. done. }
    pose proof (hex_bytes_no_sep (_publicKey id)) as Hns. unfold published, identity_toString.
    destruct (_privateKey id) as [k|] eqn:Ek; [destruct Hsk as [Hk Hkl]; destruct priv|].
    - exists (hex_bytes (_publicKey id) ++ 58 :: hex_bytes k), [hex_bytes k]. split_and!; [done| | |].
      + rewrite stok_next, stok_last; auto using hex_bytes_no_sep.
        intros E. pose proof (zlen_hex_bytes k) as Hz. rewrite E, Hkl in Hz. done.
      + autorewrite with zlen. rewrite !zlen_hex_bytes. lia.
      + exists k. split_and!; try done. destruct id; simpl in *; by subst.
    - exists (hex_bytes (_publicKey id) ++ []), []. split_and!; [done| | |done].
      + by rewrite app_nil_r, stok_last.
      + autorewrite with zlen. rewrite !zlen_hex_bytes. lia.
    - exists (hex_bytes (_publicKey id) ++ []), []. split_and!; [done| | |].
      + by rewrite app_nil_r, stok_last.
      + autorewrite with zlen. rewrite !zlen_hex_bytes. lia.
      + destruct priv; destruct id; simpl in *; by subst. }
  unfold identity_fromString, ZT_IDENTITY_STRING_BUFFER_LENGTH.
  rewrite (proj2 (Z.leb_gt _ _)) by (rewrite zlen_app, !zlen_cons, zlen_hexdigits; autorewrite with zlen; lia).
  assert (no_sep (hexdigits 10 (_address id))) as Hn10.
  { change (no_sep (take 10 (Address.toString (_address id)))).
    repeat apply Forall_cons_2; try apply hexdigit_no_sep; try lia. constructor. }
  rewrite stok_next by done. change ([48] ++ 58 :: tl) with ([48] ++ 58 :: tl). rewrite stok_next by (done || (constructor; [lia|constructor])).
  rewrite Htl. unfold hexStrToU64. rewrite (proj1 (strto_hex_plain 9 (_address id))). change (4 * Z.of_nat 10) with 40.
  unfold Address.ok in Ha. rewrite Z.mod_small by lia. rewrite (proj2 (Z.leb_gt _ _)) by lia.
  rewrite Address.of_int_id, Hres by done. rewrite bool_decide_true by done. cbn [negb].
  assert (length (_publicKey id) = 64%nat) as Hl64 by (unfold zlen in Hpl; lia).
  rewrite <- Hl64, <- (Nat.add_0_r (length _)), unhex_hex_bytes, Hpl by done. cbn [negb Z.eqb].
  change (64 =? ZT_ECC_PUBLIC_KEY_SET_LEN) with true. cbn [negb].
  destruct r as [|f3 [|]]; [by rewrite Hr| |done]. destruct Hr as (k & -> & Hk & Hkl & ->).
  assert (length k = 64%nat) as Hk64 by (unfold zlen in Hkl; lia).
  rewrite Hl64, Nat.add_0_r, <- Hk64, <- (Nat.add_0_r (length k)), unhex_hex_bytes, Hkl by done. done.
Qed.

(** An identity survives both its encodings: what [serialize] appends, [deserialize] reads back
    from the same place with its exact length, and [fromString] parses what [toString] prints,
    with the private key when it was included and without it otherwise. *)
Theorem identity_roundtrip priv id b :
  identity_ok id -> Address.isReserved (_address id) = false -> buf_ok b ->
  _l b + zlen (identity_enc id priv) <= capacity b ->
  (exists b', identity_serialize b id priv = Ok b' /\ data b' = data b ++ identity_enc id priv /\
     identity_deserialize b' (_l b) = Ok (published priv id, zlen (identity_enc id priv))) /\
  identity_fromString (identity_toString priv id) = Some (published priv id).
Proof.
  intros Hid Hres Hb Hfit. split; [|by apply identity_text].
  destruct (writes_fits b _ _ (identity_writes id priv b Hid Hb) Hfit) as (b' & -> & Hb' & Hd & _).
  exists b'. split_and!; [done..|]. apply (identity_reads id priv b' (_l b) []); [done..|].
  rewrite app_nil_r. by apply rest_at_end.
Qed.

(** Cryptography with the right shapes and no strength, to evaluate the model with. *)
Definition toy_sum (l : list Z) : Z := fold_left (fun a b => (31 * a + b) mod 65521) l 1.
Definition toy_crypto : Crypto := {|
  ecc_sign sk pk m := be_bytes 96 (toy_sum (pk ++ m));
  ecc_verify pk m s := bool_decide (s = be_bytes 96 (toy_sum (pk ++ m)));
  sha384 x := be_bytes 48 (toy_sum x * 2 ^ 200 + toy_sum x * 2 ^ 320);
  sha512 x := be_bytes 64 (toy_sum x * (2 ^ 490 + 2 ^ 300 + 1));
|}.

Lemma toy_sha384_ok x : bytes_ok (sha384 (Crypto := toy_crypto) x).
Proof. apply bytes_ok_be_bytes. Qed.

Definition example_id : Identity := mkIdentity 0x89e92ceee5 (replicate 64 7) (Some (replicate 64 250)).
Definition example_room : Buffer := mkBuffer (replicate 160 1) 5.

Lemma example_id_ok : identity_ok example_id.
Proof. split_and!; [split; by_compute|split; by_compute|split; by_compute]. Qed.

Lemma example_room_ok : buf_ok example_room.
Proof. split; by_compute. Qed.

Lemma identity_roundtrip_witness :
  (exists b', identity_serialize example_room example_id true = Ok b' /\
     identity_deserialize b' 5 = Ok (example_id, 135)) /\
  identity_fromString (identity_toString true example_id) = Some example_id.
Proof.
  destruct (identity_roundtrip true example_id example_room example_id_ok eq_refl example_room_ok)
    as [(b' & Hs & _ & Hd) Ht]; [by_compute|]. split; [exists b'; split; [exact Hs|exact Hd]|exact Ht].
Defined.

Lemma identity_abort_iff_witness :
  identity_deserialize (mkBuffer [1; 2; 3; 4; 5; 1] 6) 0 = Undef.
Proof.
  apply (identity_abort_iff (mkBuffer [1; 2; 3; 4; 5; 1] 6) 0); [split; by_compute|split; by_compute|].
  left. exists 1. by split.
Defined.

(** ** Generated identities *)

Section Generate.
Context `{Crypto}.
Context (Hsha : forall x, bytes_ok (sha512 x) /\ length (sha512 x) = 64%nat).

Definition block_ok (l : list Z) : Prop := bytes_ok l /\ length l = 64%nat.

Lemma crypt20_block_ok s m : block_ok (crypt20_block s m).2.
Proof. split; [apply bytes_xor_words|apply length_xor_words]. Qed.

Lemma genmem_fill_ok n : forall s prev, bytes_ok (genmem_fill n s prev).2 /\ length (genmem_fill n s prev).2 = (64 * n)%nat.
Proof.
  induction n as [|n IH]; intros s prev; [split; [constructor|done]|]. cbn [genmem_fill].
  pose proof (crypt20_block_ok s prev) as [Hb Hl]. destruct (crypt20_block s prev) as [s1 blk]. cbn in Hb, Hl.
  specialize (IH s1 blk) as [IHb IHl]. destruct (genmem_fill n s1 blk) as [s2 r]. cbn [snd] in *.
  split; [by apply bytes_ok_app|rewrite length_app; lia].
Qed.

Lemma genmem_mix_ok n : forall i s genmem digest, block_ok digest -> block_ok (genmem_mix n i s genmem digest).
Proof.
  induction n as [|n IH]; intros i s genmem digest Hd; [done|]. cbn [genmem_mix].
  match goal with |- context [crypt20_block s ?m] => pose proof (crypt20_block_ok s m) as Hb; destruct (crypt20_block s m) as [s1 d1] end.
  by apply IH.
Qed.

Lemma hash_ok blocks pub : block_ok (computeMemoryHardHash blocks pub).
Proof.
  unfold computeMemoryHardHash. destruct (genmem_fill _ _ _) as [s g]. apply genmem_mix_ok. split; apply Hsha.
Qed.

(** An address taken from the digest is compared byte by byte with the digest again. *)
Lemma digest_address d : block_ok d ->
  exists a b c e f, take 5 (drop 59 d) = [a; b; c; e; f] /\ Address.to_bytes (Address.of_int (be_int (take 5 (drop 59 d)))) = [a; b; c; e; f] /\
    nth 59 d 0 = a /\ nth 60 d 0 = b /\ nth 61 d 0 = c /\ nth 62 d 0 = e /\ nth 63 d 0 = f.
Proof.
  intros [Hb Hl]. rewrite <- (take_drop 59 d). set (p := take 59 d) in *.
  assert (length p = 59%nat) as Hp by (unfold p; rewrite length_take; lia).
  assert (length (drop 59 d) = 5%nat) as Hq by (rewrite length_drop; lia).
  assert (bytes_ok (drop 59 d)) as Hbq by (by apply list.Forall_drop).
  destruct (drop 59 d) as [|a [|b [|c [|e [|f [|]]]]]]; try discriminate Hq.
  exists a, b, c, e, f. rewrite drop_app_length' by done.
  split_and!; [done| |by rewrite app_nth2, Hp by lia..].
  rewrite Address.to_bytes_be. change (take 5 [a; b; c; e; f]) with [a; b; c; e; f].
  pose proof (be_int_range [a; b; c; e; f] Hbq) as Hr. rewrite Address.of_int_id by exact Hr.
  by apply (be_bytes_be_int [a; b; c; e; f]).
Qed.

Lemma generate_step_validates blocks pub priv id :
  generate_step blocks pub priv = Some id ->
  locallyValidate blocks id = true /\ Address.isReserved (_address id) = false /\ Address.ok (_address id) /\
  _privateKey id = Some priv /\ _publicKey id = pub.
Proof.
  unfold generate_step, generate_cond. case_match eqn:Ec; [|done]. case_match eqn:Er; [done|]. intros [= <-].
  unfold locallyValidate. cbn [_address _publicKey]. rewrite Er. split; [|split_and!; [done|apply Address.of_int_ok|done..]].
  destruct (digest_address _ (hash_ok blocks pub)) as (a & b & c & e & f & Hd & Ha & H1 & H2 & H3 & H4 & H5).
  rewrite Ha, Ec, H1, H2, H3, H4, H5. cbn [nth andb]. by rewrite !Z.eqb_refl.
Qed.

(** Whatever key pairs are drawn, an identity that [generate] halts with passes [locallyValidate], its address is
    not reserved and its keys are one of the pairs: the address it takes from the memory-hard hash is the
    one the check recomputes. *)
Theorem generate_validates blocks pairs id :
  generate blocks pairs = Some id ->
  locallyValidate blocks id = true /\ Address.isReserved (_address id) = false /\ Address.ok (_address id) /\
  exists priv, _privateKey id = Some priv /\ (_publicKey id, priv) ∈ pairs.
Proof.
  induction pairs as [|[pub priv] pairs IH]; cbn [generate]; [done|]. case_match eqn:E.
  - intros [= <-]. destruct (generate_step_validates _ _ _ _ E) as (? & ? & ? & ? & ?). subst.
    split_and!; [done..|]. exists priv. split; [done|left].
  - intros Hg. destruct (IH Hg) as (? & ? & ? & p & ? & ?). split_and!; [done..|]. exists p. split; [done|by right].
Qed.
End Generate.

Lemma toy_sha512_ok x : bytes_ok (sha512 (Crypto := toy_crypto) x) /\ length (sha512 (Crypto := toy_crypto) x) = 64%nat.
Proof. split; [apply bytes_ok_be_bytes|apply length_be_bytes]. Qed.

Lemma generate_validates_witness :
  let pairs := [([1], [2]); ([12], [13]); ([3], [4])] in
  exists id, @generate toy_crypto 1 pairs = Some id /\ @locallyValidate toy_crypto 1 id = true.
Proof.
  intros pairs. set (id := mkIdentity 662600058366 [12] (Some [13])).
  exists id. assert (@generate toy_crypto 1 pairs = Some id) as E by (vm_compute; reflexivity). split; [exact E|].
  apply (generate_validates (H := toy_crypto) toy_sha512_ok 1 pairs id E).
Defined.
