(* ===== verification/Credential.v ===== *)
(** * What the credentials share (node/Credential.hpp, Tag.cpp, Revocation.cpp, ...)

    The signature block and the trailing "additional fields" of the wire forms, the check of an
    issuer's signature, and the environment it needs: [RR->topology->getIdentity] as a class. *)

From S2P Require Import Prelude Buffer Serial Address Identity.

Inductive Type_ :=
  | CREDENTIAL_TYPE_NULL | CREDENTIAL_TYPE_COM | CREDENTIAL_TYPE_CAPABILITY | CREDENTIAL_TYPE_TAG
  | CREDENTIAL_TYPE_COO | CREDENTIAL_TYPE_REVOCATION.

#[export] Instance Type_eq_dec : EqDecision Type_.
Proof. solve_decision. Defined.

Definition Type_int (t : Type_) : Z :=
  match t with
  | CREDENTIAL_TYPE_NULL => 0 | CREDENTIAL_TYPE_COM => 1 | CREDENTIAL_TYPE_CAPABILITY => 2
  | CREDENTIAL_TYPE_TAG => 3 | CREDENTIAL_TYPE_COO => 4 | CREDENTIAL_TYPE_REVOCATION => 6
  end.

(** [Network::controllerFor] *)
Definition controllerFor (nwid : Z) : Z := Address.of_int (Z.shiftr nwid 24).

(** [Topology::getIdentity]: the null identity when the address is unknown. *)
Class Env := getIdentity : Z -> Identity.

(** 0, 1 (with the address that [requestWhois] is called for) and -1. *)
Inductive verify_result := VOk | VWait (whois : Z) | VBad.

#[export] Instance verify_result_eq_dec : EqDecision verify_result.
Proof. solve_decision. Defined.

(** An empty [Buffer<C>]. *)
Definition tmp_buffer (C : nat) : Buffer := mkBuffer (replicate C 0) 0.

Lemma tmp_buffer_writes C bs (f : Buffer -> outcome Buffer) :
  Z.of_nat C < 2 ^ 31 -> zlen bs <= Z.of_nat C -> (forall b, buf_ok b -> writes b bs (f b)) ->
  exists b, f (tmp_buffer C) = Ok b /\ data b = bs.
Proof.
  intros HC Hl Hw. assert (capacity (tmp_buffer C) = Z.of_nat C) as Hc.
  { unfold capacity, tmp_buffer, zlen. simpl. by rewrite length_replicate. }
  assert (buf_ok (tmp_buffer C)) as Hb by (split; [rewrite Hc; simpl; lia|rewrite Hc; lia|by apply Forall_replicate]).
  destruct (writes_fits _ _ _ (Hw _ Hb)) as (b & E & _ & Hd & _); [rewrite Hc; simpl; lia|]. by exists b.
Qed.

Definition sign_marker : Z := 0x7f7f7f7f7f7f7f7f.

(** [1 == Ed25519], the length, the signature *)
Definition append_signature (b : Buffer) (signature : list Z) : outcome Buffer :=
  b ← append_int 1 b 1; b ← append_int 2 b ZT_ECC_SIGNATURE_LEN; append b signature.

(** A signature of another type is skipped; the zeroes of the constructor stay. *)
Definition read_signature (b : Buffer) (p : Z) : outcome (list Z * Z) :=
  ty ← index b p; let p := p + 1 in
  if ty =? 1 then
    l ← at_ 2 b p;
    if negb (l =? ZT_ECC_SIGNATURE_LEN) then Throw InvalidCryptographicToken
    else let p := p + 2 in s ← field b p ZT_ECC_SIGNATURE_LEN; Ok (s, p + ZT_ECC_SIGNATURE_LEN)
  else l ← at_ 2 b p; Ok (replicate 96 0, p + (2 + l)).

Definition read_additional (b : Buffer) (p : Z) : outcome Z :=
  l ← at_ 2 b p; let p := p + (2 + l) in if size b <? p then Throw Overflow else Ok p.

Definition read_address (b : Buffer) (p : Z) : outcome Z := bs ← field b p 5; Address.setTo bs 5.

Section Verify.
Context `{Crypto} `{Env}.

(** The body of [Tag::verify], [CertificateOfOwnership::verify] and [Revocation::verify]: [msg] is
    the serialisation for signing. *)
Definition verify_signed (signedBy networkId : Z) (msg : outcome Buffer) (signature : list Z) : outcome verify_result :=
  if negb (Address.nonzero signedBy) || negb (signedBy =? controllerFor networkId) then Ok VBad
  else
    let id := getIdentity signedBy in
    if negb (identity_bool id) then Ok (VWait signedBy)
    else
      match msg with
      | Ok tmp => Ok (if verify id (data tmp) signature then VOk else VBad)
      | Throw _ => Ok VBad
      | Undef => Undef
      end.

(** [sign(signer)]: the signing address is set before the message is serialised. *)
Definition sign_with (signer : Identity) (msg : outcome Buffer) : outcome (list Z) :=
  tmp ← msg; sign signer (data tmp).

Lemma verify_signed_ok signedBy nwid b signature :
  verify_signed signedBy nwid (Ok b) signature = Ok VOk <->
  signedBy <> 0 /\ signedBy = controllerFor nwid /\ identity_bool (getIdentity signedBy) = true /\
  verify (getIdentity signedBy) (data b) signature = true.
Proof.
  unfold verify_signed, Address.nonzero.
  destruct (Z.eqb_spec signedBy 0), (Z.eqb_spec signedBy (controllerFor nwid)); simpl; try naive_solver.
  destruct (identity_bool _); simpl; [|naive_solver]. destruct (verify _ _ _); naive_solver.
Qed.
End Verify.

(** ** Wire form of the shared parts *)

Definition sig_ok (s : list Z) : Prop := key_ok 96 s.

Definition sig_enc (s : list Z) : list Z := be_bytes 1 1 ++ be_bytes 2 96 ++ s.

Lemma append_signature_writes b s : sig_ok s -> buf_ok b -> writes b (sig_enc s) (append_signature b s).
Proof. intros [Hs Hl] Hb. unfold sig_enc, append_signature, ZT_ECC_SIGNATURE_LEN. writes_all. Qed.

Lemma sig_bytes s : sig_ok s -> bytes_ok (sig_enc s).
Proof. intros [Hs Hl]. unfold sig_enc. rewrite !bytes_ok_app. auto with bytes. Qed.
#[export] Hint Resolve sig_bytes : bytes.

Lemma zlen_sig_enc s : sig_ok s -> zlen (sig_enc s) = 99.
Proof. intros [_ Hl]. unfold sig_enc. autorewrite with zlen. lia. Qed.

#[export] Hint Extern 1 (writes _ _ (Address.appendTo _ _)) => apply Address.appendTo_writes; done : writes.
#[export] Hint Extern 1 (writes _ _ (append_signature _ _)) => apply append_signature_writes; done : writes.

Lemma read_signature_rest b p s rest :
  buf_ok b -> sig_ok s -> rest_at b p (sig_enc s ++ rest) ->
  read_signature b p = Ok (s, p + 99) /\ rest_at b (p + 99) rest.
Proof.
  intros Hb Hs Hr. split.
  - destruct Hs as [Hs Hl]. unfold sig_enc in Hr. rewrite <- !app_assoc in Hr. unfold read_signature, ZT_ECC_SIGNATURE_LEN.
    read_step Hb Hr. change (u8 1 =? 1) with true. cbn match. read_step Hb Hr.
    change (96 mod 2 ^ (8 * Z.of_nat 2) =? 96) with true. cbn [negb]. read_pos Hb Hr. do 2 f_equal. lia.
  - apply rest_at_next in Hr. by rewrite zlen_sig_enc in Hr.
Qed.

Lemma read_additional_rest b p rest :
  buf_ok b -> rest_at b p (be_bytes 2 0 ++ rest) -> read_additional b p = Ok (p + 2) /\ rest_at b (p + 2) rest.
Proof.
  intros Hb Hr. split; [|by apply rest_at_next in Hr].
  pose proof (rest_at_bound b Hb _ _ Hr) as [? Hl]. rewrite zlen_app, zlen_be_bytes in Hl.
  pose proof (zlen_nonneg rest).
  unfold read_additional. read_step Hb Hr. change (0 mod 2 ^ (8 * Z.of_nat 2)) with 0.
  unfold size. by rewrite (proj2 (Z.ltb_ge _ _)) by lia.
Qed.

Lemma read_address_rest b p a rest :
  buf_ok b -> Address.ok a -> rest_at b p (be_bytes 5 a ++ rest) ->
  read_address b p = Ok a /\ rest_at b (p + 5) rest.
Proof.
  intros Hb Ha Hr. split; [|by apply rest_at_next in Hr].
  unfold read_address. read_step Hb Hr. by rewrite Address.setTo_be_bytes.
Qed.

Lemma s64_u64 x : - 2 ^ 63 <= x < 2 ^ 63 -> s64 (x mod 2 ^ 64) = x.
Proof.
  intros Hx. unfold s64, swrap. rewrite Zplus_mod_idemp_l. change (64 - 1) with 63.
  rewrite Z.mod_small by lia. lia.
Qed.

(** On arbitrary input. *)
Lemma read_signature_returns b p :
  buf_ok b -> 0 <= p < 2 ^ 31 + 2 ^ 20 ->
  returns (fun '(s, p') => sig_ok s /\ p < _l b /\ p + 3 <= p' <= p + 2 ^ 16 + 2) (read_signature b p).
Proof.
  intros Hb Hp. unfold read_signature, ZT_ECC_SIGNATURE_LEN. repeat returns_step; simpl; unfold byte_ok in *.
  - split_and!; [split; done|lia..].
  - split_and!; [split; [by_compute|reflexivity]|lia..].
Qed.

Lemma read_additional_returns b p :
  buf_ok b -> 0 <= p < 2 ^ 31 + 2 ^ 20 -> returns (fun p' => p + 2 <= p' <= _l b /\ p' <= p + 2 ^ 16 + 1) (read_additional b p).
Proof. intros Hb Hp. unfold read_additional. repeat returns_step; simpl; unfold size in *; lia. Qed.

Lemma read_address_returns b p :
  buf_ok b -> 0 <= p < 2 ^ 31 + 2 ^ 20 -> returns (fun a => Address.ok a /\ p + 5 <= _l b) (read_address b p).
Proof.
  intros Hb Hp. unfold read_address. repeat returns_step. destruct (Address.setTo_returns a) as (x & -> & ? & _); [done..|].
  simpl. split; [done|lia].
Qed.

(** One read of a credential's deserialiser. *)
Ltac cred_norm H :=
  lazymatch type of H with rest_at _ ?p _ =>
    lazymatch goal with
    | |- (read_address _ ?q ≫= _) = _ => replace q with p by lia
    | |- (read_signature _ ?q ≫= _) = _ => replace q with p by lia
    | |- (read_additional _ ?q ≫= _) = _ => replace q with p by lia
    end
  end.
Ltac cred_read H L :=
  let E := fresh "E" in cred_norm H; apply L in H as [E H]; [rewrite E; clear E; cbn [mbind outcome_bind]|done|done].
Ltac cred_step Hb H :=
  cbv zeta;
  lazymatch goal with
  | |- (read_address _ _ ≫= _) = _ => cred_read H read_address_rest
  | |- (read_signature _ _ ≫= _) = _ => cred_read H read_signature_rest
  | |- (read_additional _ _ ≫= _) = _ =>
      let E := fresh "E" in
      cred_norm H; apply read_additional_rest in H as [E H]; [rewrite E; clear E; cbn [mbind outcome_bind]|done]
  | |- _ => read_pos Hb H
  end.

(** The same on arbitrary input. *)
Ltac cred_returns_step :=
  match goal with
  | |- returns _ (read_address _ _ ≫= _) =>
      eapply returns_bind; [apply read_address_returns; [done|lia]|]; intros ? [? ?]
  | |- returns _ (read_signature _ _ ≫= _) =>
      eapply returns_bind; [apply read_signature_returns; [done|lia]|]; intros [? ?] (? & ? & ?)
  | |- returns _ (read_additional _ _ ≫= _) =>
      eapply returns_bind; [apply read_additional_returns; [done|lia]|]; intros ? [? ?]
  | |- _ => returns_step
  end.

Lemma s64_range x : srng 64 (s64 x).
Proof. unfold srng, s64, swrap. change (64 - 1) with 63. pose proof (Z.mod_pos_bound (x + 2 ^ 63) (2 ^ 64)). lia. Qed.

(** A topology that knows one identity. *)
Definition toy_env : Env := fun a => if a =? address example_id then example_id else Identity_nil.
