(* ===== verification/Credentials.v ===== *)
(** * Tags, ownership certificates and revocations
    (node/Tag.hpp, node/CertificateOfOwnership.hpp, node/Revocation.hpp and their .cpp files)

    Each has a wire form with its signature and a form for signing, framed by markers; the
    functions named [tbs] give the bytes of the latter. *)

From S2P Require Import Prelude Buffer Serial Address InetAddress Identity Credential.

Module Tag.
Record Tag := mkTag {
  _id : Z; _value : Z; _networkId : Z; _ts : Z; _issuedTo : Z; _signedBy : Z; _signature : list Z }.

#[global] Instance Tag_eq_dec : EqDecision Tag.
Proof. solve_decision. Defined.

Definition Tag_nil : Tag := mkTag 0 0 0 0 0 0 (replicate 96 0).
Definition credentialType : Type_ := CREDENTIAL_TYPE_TAG.

Definition serialize (b : Buffer) (t : Tag) (forSign : bool) : outcome Buffer :=
  b ← (if forSign then append_int 8 b sign_marker else Ok b);
  b ← append_int 8 b (_networkId t);
  b ← append_int 8 b (_ts t);
  b ← append_int 4 b (_id t);
  b ← append_int 4 b (_value t);
  b ← Address.appendTo b (_issuedTo t);
  b ← Address.appendTo b (_signedBy t);
  b ← (if forSign then Ok b else append_signature b (_signature t));
  b ← append_int 2 b 0;
  if forSign then append_int 8 b sign_marker else Ok b.

Definition deserialize (b : Buffer) (startAt : Z) : outcome (Tag * Z) :=
  let p := startAt in
  nwid ← at_ 8 b p; let p := p + 8 in
  ts ← at_ 8 b p; let p := p + 8 in
  id ← at_ 4 b p; let p := p + 4 in
  value ← at_ 4 b p; let p := p + 4 in
  issuedTo ← read_address b p; let p := p + 5 in
  signedBy ← read_address b p; let p := p + 5 in
  '(signature, p) ← read_signature b p;
  p ← read_additional b p;
  Ok (mkTag id value nwid (s64 ts) issuedTo signedBy signature, p - startAt).

(** [sizeof(Tag)] on the target. *)
Definition sizeof : nat := 136.

Section Sign.
Context `{Crypto} `{Env}.

Definition verify (t : Tag) : outcome verify_result :=
  verify_signed (_signedBy t) (_networkId t) (serialize (tmp_buffer (sizeof * 2)) t true) (_signature t).

(** [sign]: the signed tag, or None when it returns false. *)
Definition sign (t : Tag) (signer : Identity) : outcome (option Tag) :=
  if hasPrivate signer then
    let t := mkTag (_id t) (_value t) (_networkId t) (_ts t) (_issuedTo t) (address signer) (_signature t) in
    s ← sign_with signer (serialize (tmp_buffer (sizeof + 64)) t true);
    Ok (Some (mkTag (_id t) (_value t) (_networkId t) (_ts t) (_issuedTo t) (_signedBy t) s))
  else Ok None.
End Sign.

Definition ltb (a b : Tag) : bool := _id a <? _id b.

Definition ok (t : Tag) : Prop :=
  rng 32 (_id t) /\ rng 32 (_value t) /\ rng 64 (_networkId t) /\ srng 64 (_ts t) /\
  Address.ok (_issuedTo t) /\ Address.ok (_signedBy t) /\ sig_ok (_signature t).

(** The fields, as the code puts them on the wire. *)
Definition body (t : Tag) : list Z :=
  be_bytes 8 (_networkId t) ++ be_bytes 8 (_ts t) ++ be_bytes 4 (_id t) ++ be_bytes 4 (_value t) ++
  be_bytes 5 (_issuedTo t) ++ be_bytes 5 (_signedBy t).

Definition enc (t : Tag) : list Z := body t ++ sig_enc (_signature t) ++ be_bytes 2 0.
Definition tbs (t : Tag) : list Z := be_bytes 8 sign_marker ++ body t ++ be_bytes 2 0 ++ be_bytes 8 sign_marker.

Lemma tag_bytes t : ok t -> bytes_ok (enc t).
Proof. intros (_ & _ & _ & _ & _ & _ & Hs). unfold enc, body. rewrite !bytes_ok_app. auto 20 with bytes. Qed.

Lemma tag_writes_wire t b : ok t -> buf_ok b -> writes b (enc t) (serialize b t false).
Proof.
  intros (_ & _ & _ & _ & _ & _ & Hs) Hb. unfold enc, body, serialize. rewrite <- !app_assoc.
  cbn [mbind outcome_bind]. rewrite <- (app_nil_r (be_bytes 2 0)). writes_all.
Qed.

Lemma tag_writes_tbs t b : buf_ok b -> writes b (tbs t) (serialize b t true).
Proof. intros Hb. unfold tbs, body, serialize. rewrite <- !app_assoc. writes_all. Qed.

Lemma tag_reads t b p rest :
  ok t -> buf_ok b -> rest_at b p (enc t ++ rest) -> deserialize b p = Ok (t, zlen (enc t)).
Proof.
  intros (Hi & Hv & Hn & Ht & Hto & Hby & Hs) Hb Hr. pose proof (zlen_sig_enc _ Hs) as Hz. unfold enc, body in *.
  rewrite <- !app_assoc in Hr. unfold deserialize. repeat cred_step Hb Hr. unfold rng, srng in *.
  autorewrite with zlen. rewrite Hz, s64_u64, !Z.mod_small by lia. destruct t; simpl. do 2 f_equal. lia.
Qed.

Lemma tag_safe b p :
  buf_ok b -> pos_ok p -> returns (fun '(t, n) => ok t /\ p + n <= _l b /\ 39 <= n < 2 ^ 18) (deserialize b p).
Proof.
  intros Hb [? ?]. unfold deserialize. repeat cred_returns_step.
  simpl. split; [|lia]. unfold ok, rng. cbn [_id _value _networkId _ts _issuedTo _signedBy _signature].
  split_and!; try done; try lia; apply s64_range.
Qed.
(** The temporary buffers are large enough. *)
Lemma tag_tbs_buffer n x : 69 <= Z.of_nat n < 2 ^ 31 -> exists b, serialize (tmp_buffer n) x true = Ok b /\ data b = tbs x.
Proof.
  intros Hn. apply (tmp_buffer_writes n (tbs x) (fun b => serialize b x true)); [lia| |apply tag_writes_tbs].
  unfold tbs, body. autorewrite with zlen. lia.
Qed.
End Tag.

Module COO.
(** [CertificateOfOwnership]: up to 16 things, each a type and 16 bytes; the arrays always have 16
    entries, the count has 16 bits. *)
Definition MAX_THINGS : Z := 16.
Definition MAX_THING_VALUE_SIZE : Z := 16.

Inductive Thing := THING_NULL | THING_MAC_ADDRESS | THING_IPV4_ADDRESS | THING_IPV6_ADDRESS.
Definition Thing_int (t : Thing) : Z :=
  match t with THING_NULL => 0 | THING_MAC_ADDRESS => 1 | THING_IPV4_ADDRESS => 2 | THING_IPV6_ADDRESS => 3 end.

Record COO := mkCOO {
  _networkId : Z; _ts : Z; _flags : Z; _id : Z; _thingCount : Z;
  _thingTypes : list Z; _thingValues : list (list Z);
  _issuedTo : Z; _signedBy : Z; _signature : list Z }.

#[global] Instance COO_eq_dec : EqDecision COO.
Proof. solve_decision. Defined.

Definition credentialType : Type_ := CREDENTIAL_TYPE_COO.
Definition no_types : list Z := replicate 16 0.
Definition no_values : list (list Z) := replicate 16 (replicate 16 0).

Definition COO_nil : COO := mkCOO 0 0 0 0 0 no_types no_values 0 0 (replicate 96 0).
Definition COO_new (nwid ts issuedTo id : Z) : COO :=
  mkCOO nwid ts 0 id 0 no_types no_values issuedTo 0 (replicate 96 0).

(** Array accesses: out of range is undefined. *)
Definition thing (c : COO) (i : nat) : outcome (Z * list Z) :=
  match _thingTypes c !! i, _thingValues c !! i with Some t, Some v => Ok (t, v) | _, _ => Undef end.

(** [_owns]: the loop from [i], [n] things to go; the inner loop compares the first [l] bytes. *)
Fixpoint owns_loop (c : COO) (t : Z) (v : list Z) (i n : nat) : outcome bool :=
  match n with
  | O => Ok false
  | S n' =>
      '(ty, val) ← thing c i;
      if (ty =? t) && bool_decide (take (length v) val = v) then Ok true else owns_loop c t v (S i) n'
  end.
Definition _owns (c : COO) (t : Thing) (v : list Z) : outcome bool :=
  owns_loop c (Thing_int t) v 0 (Z.to_nat (_thingCount c)).

Definition owns_ip (c : COO) (ip : InetAddress) : outcome bool :=
  match ip with
  | IV4 a _ => _owns c THING_IPV4_ADDRESS (be_bytes 4 a)
  | IV6 a _ _ _ => _owns c THING_IPV6_ADDRESS a
  | INil => Ok false
  end.
Definition owns_mac (c : COO) (mac : Z) : outcome bool := _owns c THING_MAC_ADDRESS (MAC.to_bytes mac).

(** [memcpy] to the start of a value. *)
Definition put_thing (c : COO) (ty : Thing) (v : list Z) : COO :=
  let i := Z.to_nat (_thingCount c) in
  mkCOO (_networkId c) (_ts c) (_flags c) (_id c) (_thingCount c + 1)
    (<[i := Thing_int ty]> (_thingTypes c))
    (<[i := v ++ drop (length v) (default [] (_thingValues c !! i))]> (_thingValues c))
    (_issuedTo c) (_signedBy c) (_signature c).

Definition addThing_ip (c : COO) (ip : InetAddress) : COO :=
  if MAX_THINGS <=? _thingCount c then c
  else match ip with
       | IV4 a _ => put_thing c THING_IPV4_ADDRESS (be_bytes 4 a)
       | IV6 a _ _ _ => put_thing c THING_IPV6_ADDRESS a
       | INil => c
       end.
Definition addThing_mac (c : COO) (mac : Z) : COO :=
  if MAX_THINGS <=? _thingCount c then c else put_thing c THING_MAC_ADDRESS (MAC.to_bytes mac).

(** The loop of [serialize]. *)
Fixpoint serialize_things (b : Buffer) (c : COO) (i n : nat) : outcome Buffer :=
  match n with
  | O => Ok b
  | S n' =>
      '(ty, val) ← thing c i;
      b ← append_int 1 b ty; b ← append b val; serialize_things b c (S i) n'
  end.

Definition serialize (b : Buffer) (c : COO) (forSign : bool) : outcome Buffer :=
  b ← (if forSign then append_int 8 b sign_marker else Ok b);
  b ← append_int 8 b (_networkId c);
  b ← append_int 8 b (_ts c);
  b ← append_int 8 b (_flags c);
  b ← append_int 4 b (_id c);
  b ← append_int 2 b (_thingCount c);
  b ← serialize_things b c 0 (Z.to_nat (_thingCount c));
  b ← Address.appendTo b (_issuedTo c);
  b ← Address.appendTo b (_signedBy c);
  b ← (if forSign then Ok b else append_signature b (_signature c));
  b ← append_int 2 b 0;
  if forSign then append_int 8 b sign_marker else Ok b.

(** The loop of [deserialize] stores the first 16 things; it reads no bytes for the others. *)
Fixpoint read_things (b : Buffer) (p : Z) (n : nat) : outcome (list Z * list (list Z) * Z) :=
  match n with
  | O => Ok ([], [], p)
  | S n' =>
      ty ← index b p; let p := p + 1 in
      v ← field b p MAX_THING_VALUE_SIZE; let p := p + MAX_THING_VALUE_SIZE in
      '(ts, vs, p) ← read_things b p n'; Ok (ty :: ts, v :: vs, p)
  end.

Definition deserialize (b : Buffer) (startAt : Z) : outcome (COO * Z) :=
  let p := startAt in
  nwid ← at_ 8 b p; let p := p + 8 in
  ts ← at_ 8 b p; let p := p + 8 in
  flags ← at_ 8 b p; let p := p + 8 in
  id ← at_ 4 b p; let p := p + 4 in
  thingCount ← at_ 2 b p; let p := p + 2 in
  '(tys, vals, p) ← read_things b p (Z.to_nat (Z.min thingCount MAX_THINGS));
  issuedTo ← read_address b p; let p := p + 5 in
  signedBy ← read_address b p; let p := p + 5 in
  '(signature, p) ← read_signature b p;
  p ← read_additional b p;
  Ok (mkCOO nwid (s64 ts) flags id thingCount (tys ++ drop (length tys) no_types)
        (vals ++ drop (length vals) no_values) issuedTo signedBy signature, p - startAt).

(** [sizeof(CertificateOfOwnership)] on the target. *)
Definition sizeof : nat := 416.

Section Sign.
Context `{Crypto} `{Env}.

Definition verify (c : COO) : outcome verify_result :=
  verify_signed (_signedBy c) (_networkId c) (serialize (tmp_buffer (sizeof + 64)) c true) (_signature c).

Definition sign (c : COO) (signer : Identity) : outcome (option COO) :=
  if hasPrivate signer then
    let c := mkCOO (_networkId c) (_ts c) (_flags c) (_id c) (_thingCount c) (_thingTypes c) (_thingValues c)
               (_issuedTo c) (address signer) (_signature c) in
    s ← sign_with signer (serialize (tmp_buffer (sizeof + 64)) c true);
    Ok (Some (mkCOO (_networkId c) (_ts c) (_flags c) (_id c) (_thingCount c) (_thingTypes c) (_thingValues c)
               (_issuedTo c) (_signedBy c) s))
  else Ok None.
End Sign.

(** Arrays of 16 entries of 16 bytes; the count is any 16-bit number. *)
Definition ok (c : COO) : Prop :=
  rng 64 (_networkId c) /\ srng 64 (_ts c) /\ rng 64 (_flags c) /\ rng 32 (_id c) /\ rng 16 (_thingCount c) /\
  length (_thingTypes c) = 16%nat /\ Forall byte_ok (_thingTypes c) /\
  length (_thingValues c) = 16%nat /\ Forall (key_ok 16) (_thingValues c) /\
  Address.ok (_issuedTo c) /\ Address.ok (_signedBy c) /\ sig_ok (_signature c).

(** What lies behind the count is as the constructor left it. *)
Definition proper (c : COO) : Prop :=
  drop (Z.to_nat (_thingCount c)) (_thingTypes c) = drop (Z.to_nat (_thingCount c)) no_types /\
  drop (Z.to_nat (_thingCount c)) (_thingValues c) = drop (Z.to_nat (_thingCount c)) no_values.

Definition things (c : COO) : list (Z * list Z) :=
  take (Z.to_nat (_thingCount c)) (zip (_thingTypes c) (_thingValues c)).
Definition things_enc (l : list (Z * list Z)) : list Z := concat ((fun '(t, v) => be_bytes 1 t ++ v) <$> l).

Definition body (c : COO) : list Z :=
  be_bytes 8 (_networkId c) ++ be_bytes 8 (_ts c) ++ be_bytes 8 (_flags c) ++ be_bytes 4 (_id c) ++
  be_bytes 2 (_thingCount c) ++ things_enc (things c) ++ be_bytes 5 (_issuedTo c) ++ be_bytes 5 (_signedBy c).

Definition enc (c : COO) : list Z := body c ++ sig_enc (_signature c) ++ be_bytes 2 0.
Definition tbs (c : COO) : list Z := be_bytes 8 sign_marker ++ body c ++ be_bytes 2 0 ++ be_bytes 8 sign_marker.


(** *** The loops *)

Lemma thing_in c i :
  ok c -> (i < 16)%nat ->
  exists ty v, thing c i = Ok (ty, v) /\ byte_ok ty /\ key_ok 16 v /\
    drop i (zip (_thingTypes c) (_thingValues c)) = (ty, v) :: drop (S i) (zip (_thingTypes c) (_thingValues c)).
Proof.
  intros (_ & _ & _ & _ & _ & Ht & Ft & Hv & Fv & _) Hi. unfold thing.
  destruct (lookup_lt_is_Some_2 (_thingTypes c) i) as [ty Ety]; [lia|].
  destruct (lookup_lt_is_Some_2 (_thingValues c) i) as [v Ev]; [lia|].
  rewrite Ety, Ev. exists ty, v. split_and!; [done|by eapply Forall_lookup_1|by eapply Forall_lookup_1|].
  apply drop_S. by rewrite lookup_zip_with, Ety; simpl; rewrite Ev.
Qed.

Lemma thing_out c i : ok c -> (16 <= i)%nat -> thing c i = Undef.
Proof.
  intros (_ & _ & _ & _ & _ & Ht & _) Hi. unfold thing.
  by rewrite (lookup_ge_None_2 (_thingTypes c)) by lia.
Qed.

Lemma things_enc_cons ty v l : things_enc ((ty, v) :: l) = be_bytes 1 ty ++ v ++ things_enc l.
Proof. unfold things_enc. simpl. by rewrite ?app_assoc. Qed.

Lemma serialize_things_writes c : forall n i b,
  ok c -> buf_ok b -> (i + n <= 16)%nat ->
  writes b (things_enc (take n (drop i (zip (_thingTypes c) (_thingValues c))))) (serialize_things b c i n).
Proof.
  induction n as [|n IH]; intros i b Hc Hb Hi; [by apply writes_nil|]. cbn [serialize_things].
  destruct (thing_in c i) as (ty & v & -> & Hty & [Hv Hl] & ->); [done|lia|].
  rewrite firstn_cons, things_enc_cons. writes_norm.
  apply writes_bind; [done|solve [auto with writes]|intros b1 ? _ _; writes_norm].
  apply writes_bind; [done|solve [auto with writes]|intros b2 ? _ _; writes_norm].
  apply IH; [done..|lia].
Qed.

(** What is parsed: the first things, and how far. *)
Lemma read_things_reads b : forall l p rest,
  buf_ok b -> Forall (fun '(t, v) => byte_ok t /\ key_ok 16 v) l -> rest_at b p (things_enc l ++ rest) ->
  read_things b p (length l) = Ok (l.*1, l.*2, p + zlen (things_enc l)).
Proof.
  induction l as [|[ty v] l IH]; intros p rest Hb Hl Hr.
  { cbn. do 2 f_equal. unfold zlen. simpl. lia. }
  apply list.Forall_cons in Hl as [[Hty [Hv Hvl]] Hl]. rewrite things_enc_cons in *. rewrite <- !app_assoc in Hr.
  cbn [length read_things]. read_step Hb Hr. unfold MAX_THING_VALUE_SIZE. read_step Hb Hr.
  rewrite (IH _ rest) by done. cbn [mbind outcome_bind]. autorewrite with zlen. rewrite u8_small by done.
  simpl. do 2 f_equal. lia.
Qed.

Lemma read_things_returns b : forall n p,
  buf_ok b -> 0 <= p < 2 ^ 31 + 2 ^ 18 - 17 * Z.of_nat n ->
  returns (fun '(tys, vals, p') => length tys = n /\ Forall byte_ok tys /\ length vals = n /\ Forall (key_ok 16) vals /\
    p' = p + 17 * Z.of_nat n) (read_things b p n).
Proof.
  induction n as [|n IH]; intros p Hb Hp; cbn [read_things]; [simpl; split_and!; done || lia|].
  unfold MAX_THING_VALUE_SIZE. repeat returns_step.
  eapply returns_bind; [apply IH; [done|lia]|]. intros [[tys vals] p'] (? & ? & ? & ? & ->). simpl.
  split_and!; try lia; constructor; try done.
Qed.

Lemma things_wf c : ok c -> Forall (fun '(t, v) => byte_ok t /\ key_ok 16 v) (things c).
Proof.
  intros (_ & _ & _ & _ & _ & Ht & Ft & Hv & Fv & _). unfold things. apply Forall_take.
  apply Forall_lookup. intros i [t v] Hi. rewrite lookup_zip_with_Some in Hi. destruct Hi as (? & ? & [= <- <-] & ? & ?).
  split; by eapply Forall_lookup_1.
Qed.

Lemma length_things c : ok c -> length (things c) = Z.to_nat (Z.min (_thingCount c) 16).
Proof.
  intros (_ & _ & _ & _ & [? _] & Ht & _ & Hv & _). unfold things. rewrite length_take, length_zip_with. lia.
Qed.

Lemma things_enc_bytes l : Forall (fun '(t, v) => byte_ok t /\ key_ok 16 v) l -> bytes_ok (things_enc l).
Proof.
  induction 1 as [|[t v] l [Ht [Hv _]] Hl IH]; [constructor|]. rewrite things_enc_cons.
  apply bytes_ok_app; split; [auto with bytes|]. by apply bytes_ok_app.
Qed.

Lemma zlen_things_enc l : Forall (fun '(t, v) => byte_ok t /\ key_ok 16 v) l -> zlen (things_enc l) = 17 * zlen l.
Proof.
  induction 1 as [|[t v] l [Ht [Hv Hl']] Hl IH]; [done|]. rewrite things_enc_cons. autorewrite with zlen.
  rewrite IH. lia.
Qed.

Lemma coo_bytes c : ok c -> bytes_ok (enc c).
Proof.
  intros Hc. pose proof (things_enc_bytes _ (things_wf c Hc)). destruct Hc as (_ & _ & _ & _ & _ & _ & _ & _ & _ & _ & _ & Hs).
  unfold enc, body. rewrite !bytes_ok_app. auto 20 with bytes.
Qed.

Lemma serialize_things_all c b :
  ok c -> buf_ok b -> _thingCount c <= 16 ->
  writes b (things_enc (things c)) (serialize_things b c 0 (Z.to_nat (_thingCount c))).
Proof.
  intros Hc Hb Hn. apply (serialize_things_writes c (Z.to_nat (_thingCount c)) 0 b); [done..|lia].
Qed.
#[local] Hint Extern 1 (writes _ _ (serialize_things _ _ _ _)) => apply serialize_things_all; done : writes.

Lemma coo_writes_wire c b : ok c -> _thingCount c <= 16 -> buf_ok b -> writes b (enc c) (serialize b c false).
Proof.
  intros Hc Hn Hb. pose proof Hc as (_ & _ & _ & _ & _ & _ & _ & _ & _ & _ & _ & Hs).
  unfold enc, body, serialize. rewrite <- !app_assoc.
  cbn [mbind outcome_bind]. rewrite <- (app_nil_r (be_bytes 2 0)). writes_all.
Qed.

Lemma coo_writes_tbs c b : ok c -> _thingCount c <= 16 -> buf_ok b -> writes b (tbs c) (serialize b c true).
Proof. intros Hc Hn Hb. unfold tbs, body, serialize. rewrite <- !app_assoc. writes_all. Qed.

Lemma restore_tail {A} (n : nat) (l d : list A) k :
  length l = n -> length d = n -> 0 <= k -> drop (Z.to_nat k) l = drop (Z.to_nat k) d ->
  take (Z.to_nat k) l ++ drop (Z.to_nat (Z.min k (Z.of_nat n))) d = l.
Proof.
  intros Hl Hd Hk E. destruct (Z.le_gt_cases k (Z.of_nat n)).
  - rewrite Z.min_l by lia. by rewrite <- E, take_drop.
  - by rewrite Z.min_r, take_ge, drop_ge, app_nil_r by lia.
Qed.

Lemma restored_tail {A} (n : nat) (l d : list A) k :
  length l = Z.to_nat (Z.min k (Z.of_nat n)) -> length d = n -> 0 <= k ->
  drop (Z.to_nat k) (l ++ drop (length l) d) = drop (Z.to_nat k) d.
Proof.
  intros Hl Hd Hk. destruct (Z.le_gt_cases k (Z.of_nat n)).
  - replace (Z.to_nat k) with (length l) by lia. by rewrite drop_app_length.
  - by rewrite !drop_ge by (rewrite ?length_app, ?length_drop; lia).
Qed.

Lemma coo_reads c b p rest :
  ok c -> proper c -> buf_ok b -> rest_at b p (enc c ++ rest) -> deserialize b p = Ok (c, zlen (enc c)).
Proof.
  intros Hc [Ht Hv] Hb Hr. pose proof (things_wf c Hc) as Hw. pose proof (length_things c Hc) as Hl.
  pose proof Hc as (Hi & Hts & Hf & Hid & Hcnt & Htl & _ & Hvl & _ & Hto & Hby & Hs). pose proof (zlen_sig_enc _ Hs) as Hz.
  unfold enc, body in *. rewrite <- !app_assoc in Hr. unfold deserialize. do 5 cred_step Hb Hr. unfold rng, srng in *.
  rewrite (Z.mod_small (_thingCount c)) by lia. unfold MAX_THINGS. rewrite <- Hl.
  match goal with |- (read_things _ ?q _ ≫= _) = _ => match type of Hr with rest_at _ ?r _ => replace q with r by lia end end.
  rewrite (read_things_reads _ _ _ _ Hb Hw Hr). apply rest_at_next in Hr. cbn [mbind outcome_bind].
  repeat cred_step Hb Hr. autorewrite with zlen. rewrite Hz, s64_u64, !Z.mod_small by lia.
  rewrite !length_fmap, Hl. unfold things. rewrite !fmap_take, fst_zip, snd_zip by lia.
  rewrite (restore_tail 16 (_thingTypes c) no_types), (restore_tail 16 (_thingValues c) no_values) by (lia || done).
  destruct c; simpl. do 2 f_equal. lia.
Qed.

Lemma coo_safe b p :
  buf_ok b -> pos_ok p -> returns (fun '(c, n) => ok c /\ proper c /\ p + n <= _l b /\ 45 <= n < 2 ^ 18) (deserialize b p).
Proof.
  intros Hb [? ?]. unfold deserialize. do 5 cred_returns_step. cbv zeta.
  eapply returns_bind; [apply read_things_returns; [done|unfold MAX_THINGS; lia]|].
  intros [[tys vals] p'] (Htl & Htf & Hvl & Hvf & ->). unfold MAX_THINGS in *.
  match type of Htl with _ = ?m => set (n := m) in * end. assert (n <= 16)%nat by (subst n; lia).
  repeat cred_returns_step.
  simpl. split_and!; try lia.
  2: split; cbn [_thingCount _thingTypes _thingValues]; apply (restored_tail 16); done || lia.
  unfold ok, rng. cbn [_networkId _ts _flags _id _thingCount _thingTypes _thingValues _issuedTo _signedBy _signature].
  rewrite !length_app, !length_drop, !Htl, !Hvl. unfold no_types, no_values. rewrite !length_replicate.
  split_and!; try done; try lia; try apply s64_range.
  - apply Forall_app; split; [done|]. apply list.Forall_drop, Forall_replicate. done.
  - apply Forall_app; split; [done|]. apply list.Forall_drop, Forall_replicate. by_compute.
Qed.

(** A count above 16 sends the loops outside the arrays, as soon as they get there. *)
Lemma owns_loop_spec c t v : forall n i,
  ok c -> (i <= 16)%nat ->
  owns_loop c t v i n =
    if existsb (fun '(ty, val) => (ty =? t) && bool_decide (take (length v) val = v))
         (take n (drop i (zip (_thingTypes c) (_thingValues c)))) then Ok true
    else if (i + n <=? 16)%nat then Ok false else Undef.
Proof.
  induction n as [|n IH]; intros i Hc Hi; cbn [owns_loop].
  { rewrite take_0. simpl. by rewrite (proj2 (Nat.leb_le _ _)) by lia. }
  destruct (decide (i < 16)%nat) as [Hlt|Hge].
  - destruct (thing_in c i) as (ty & val & -> & _ & _ & ->); [done..|]. rewrite firstn_cons. cbn [mbind outcome_bind existsb].
    destruct ((ty =? t) && _); simpl; [done|]. rewrite IH by (done || lia). by rewrite Nat.add_succ_r.
  - rewrite thing_out by (done || lia). simpl. destruct Hc as (_ & _ & _ & _ & _ & Ht & _ & Hv & _).
    rewrite (drop_ge (zip _ _)) by (rewrite length_zip_with; lia). rewrite firstn_nil. simpl.
    by rewrite (proj2 (Nat.leb_gt _ _)) by lia.
Qed.

(** The form for signing does not depend on the signature. *)
Lemma serialize_resigned b c s :
  serialize b (mkCOO (_networkId c) (_ts c) (_flags c) (_id c) (_thingCount c) (_thingTypes c) (_thingValues c)
                 (_issuedTo c) (_signedBy c) s) true = serialize b c true.
Proof.
  set (c' := mkCOO _ _ _ _ _ _ _ _ _ _).
  assert (forall n i b, serialize_things b c' i n = serialize_things b c i n) as Ht.
  { induction n as [|n IH]; intros i b1; [done|]. cbn [serialize_things]. change (thing c' i) with (thing c i).
    destruct (thing c i) as [[ty v]| |]; [|done..]. cbn [mbind outcome_bind]. destruct (append_int 1 b1 ty) as [b2| |]; [|done..].
    cbn [mbind outcome_bind]. by destruct (append b2 v); cbn [mbind outcome_bind]. }
  unfold serialize. cbn [c' _networkId _ts _flags _id _thingCount _issuedTo _signedBy].
  repeat (match goal with |- ?m ≫= _ = _ => destruct m; [cbn [mbind outcome_bind]|done..] end; rewrite ?Ht).
  all: done.
Qed.

Lemma coo_tbs_buffer n c :
  ok c -> _thingCount c <= 16 -> 330 <= Z.of_nat n < 2 ^ 31 -> exists b, serialize (tmp_buffer n) c true = Ok b /\ data b = tbs c.
Proof.
  intros Hc Hcnt Hn. apply (tmp_buffer_writes n (tbs c) (fun b => serialize b c true)); [lia| |intros; by apply coo_writes_tbs].
  unfold tbs, body. autorewrite with zlen. rewrite zlen_things_enc by (by apply things_wf). unfold zlen.
  rewrite length_things by done. lia.
Qed.
(** With a count above 16 the loop of [serialize] leaves the arrays, if the buffer has room for what is before. *)
Lemma serialize_things_undef c : forall k i n b,
  ok c -> buf_ok b -> (i + k = 16)%nat -> (k < n)%nat -> _l b + 17 * Z.of_nat k <= capacity b -> serialize_things b c i n = Undef.
Proof.
  induction k as [|k IH]; intros i n b Hc Hb Hi Hn Hl; (destruct n as [|n]; [lia|]); cbn [serialize_things].
  - by rewrite thing_out by (done || lia).
  - destruct (thing_in c i) as (ty & v & -> & Hty & [Hv Hvl] & _); [done|lia|]. cbn [mbind outcome_bind].
    assert (writes b (be_bytes 1 ty) (append_int 1 b ty)) as W1 by (apply append_int_writes; done || lia).
    destruct (writes_fits _ _ _ W1) as (b1 & -> & Hb1 & Hd1 & Hc1); [rewrite zlen_be_bytes; lia|]. cbn [mbind outcome_bind].
    pose proof (zlen_data b1 Hb1) as L1. rewrite Hd1, zlen_app, zlen_be_bytes, (zlen_data b Hb) in L1.
    assert (writes b1 v (append b1 v)) as W2 by (apply append_writes; done || lia).
    destruct (writes_fits _ _ _ W2) as (b2 & -> & Hb2 & Hd2 & Hc2); [lia|]. cbn [mbind outcome_bind].
    pose proof (zlen_data b2 Hb2) as L2. rewrite Hd2, zlen_app, (zlen_data b1 Hb1) in L2.
    apply IH; done || lia.
Qed.

Lemma serialize_undef n c :
  ok c -> 16 < _thingCount c -> 310 <= Z.of_nat n < 2 ^ 31 -> serialize (tmp_buffer n) c true = Undef.
Proof.
  intros Hc Hcnt Hn. unfold serialize.
  set (pre := be_bytes 8 sign_marker ++ be_bytes 8 (_networkId c) ++ be_bytes 8 (_ts c) ++ be_bytes 8 (_flags c) ++
              be_bytes 4 (_id c) ++ be_bytes 2 (_thingCount c)).
  assert (exists b, (b ← append_int 8 (tmp_buffer n) sign_marker; b ← append_int 8 b (_networkId c); b ← append_int 8 b (_ts c);
     b ← append_int 8 b (_flags c); b ← append_int 4 b (_id c); append_int 2 b (_thingCount c)) = Ok b /\
     buf_ok b /\ data b = pre /\ capacity b = Z.of_nat n) as (b & E & Hb & Hd & Hcap).
  { assert (capacity (tmp_buffer n) = Z.of_nat n) as Hcap by (unfold capacity, tmp_buffer, zlen; simpl; by rewrite length_replicate).
    assert (buf_ok (tmp_buffer n)) as Hb by (split; [rewrite Hcap; simpl; lia|rewrite Hcap; lia|by apply Forall_replicate]).
    match goal with |- exists b, ?m = Ok b /\ _ => assert (writes (tmp_buffer n) pre m) as W by (unfold pre; writes_all) end.
    destruct (writes_fits _ _ _ W) as (b & ? & ? & Hd & Hc'); [rewrite Hcap; unfold pre; autorewrite with zlen; simpl; lia|].
    exists b. rewrite <- Hcap. split_and!; done. }
  repeat (apply bind_Ok in E as (? & E0 & E); rewrite E0; clear E0; cbn [mbind outcome_bind]). rewrite E. cbn [mbind outcome_bind].
  rewrite (serialize_things_undef c 16); [done|done|done|lia|lia|].
  pose proof (zlen_data b Hb) as L. rewrite Hd in L. unfold pre in L. autorewrite with zlen in L. lia.
Qed.

Lemma owns_spec c t v :
  ok c ->
  _owns c t v =
    if existsb (fun '(ty, val) => (ty =? Thing_int t) && bool_decide (take (length v) val = v)) (things c) then Ok true
    else if _thingCount c <=? 16 then Ok false else Undef.
Proof.
  intros Hc. unfold _owns. rewrite owns_loop_spec by (done || lia). unfold things. cbn [Nat.add drop].
  destruct (existsb _ _); [done|]. pose proof Hc as (_ & _ & _ & _ & [? _] & _).
  by destruct (Nat.leb_spec (Z.to_nat (_thingCount c)) 16), (Z.leb_spec (_thingCount c) 16); try lia.
Qed.
End COO.

Module Revocation.
Definition ZT_REVOCATION_FLAG_FAST_PROPAGATE : Z := 1.

(** [_type] is the byte that was received: a revocation can carry any number there. *)
Record Revocation := mkRevocation {
  _id : Z; _credentialId : Z; _networkId : Z; _threshold : Z; _flags : Z; _target : Z; _signedBy : Z;
  _type : Z; _signature : list Z }.

#[global] Instance Revocation_eq_dec : EqDecision Revocation.
Proof. solve_decision. Defined.

Definition credentialType : Type_ := CREDENTIAL_TYPE_REVOCATION.

Definition Revocation_new (i nwid cid thr fl tgt : Z) (ct : Type_) : Revocation :=
  mkRevocation i cid nwid thr fl tgt 0 (Type_int ct) (replicate 96 0).
Definition Revocation_nil : Revocation := Revocation_new 0 0 0 0 0 0 CREDENTIAL_TYPE_NULL.

Definition fastPropagate (r : Revocation) : bool :=
  negb (Z.land (_flags r) ZT_REVOCATION_FLAG_FAST_PROPAGATE =? 0).

Definition serialize (b : Buffer) (r : Revocation) (forSign : bool) : outcome Buffer :=
  b ← (if forSign then append_int 8 b sign_marker else Ok b);
  b ← append_int 4 b 0;
  b ← append_int 4 b (_id r);
  b ← append_int 8 b (_networkId r);
  b ← append_int 4 b 0;
  b ← append_int 4 b (_credentialId r);
  b ← append_int 8 b (_threshold r);
  b ← append_int 8 b (_flags r);
  b ← Address.appendTo b (_target r);
  b ← Address.appendTo b (_signedBy r);
  b ← append_int 1 b (_type r);
  b ← (if forSign then Ok b else append_signature b (_signature r));
  b ← append_int 2 b 0;
  if forSign then append_int 8 b sign_marker else Ok b.

Definition deserialize (b : Buffer) (startAt : Z) : outcome (Revocation * Z) :=
  let p := startAt + 4 in
  id ← at_ 4 b p; let p := p + 4 in
  nwid ← at_ 8 b p; let p := p + 8 + 4 in
  cid ← at_ 4 b p; let p := p + 4 in
  thr ← at_ 8 b p; let p := p + 8 in
  flags ← at_ 8 b p; let p := p + 8 in
  target ← read_address b p; let p := p + 5 in
  signedBy ← read_address b p; let p := p + 5 in
  type ← index b p; let p := p + 1 in
  '(signature, p) ← read_signature b p;
  p ← read_additional b p;
  Ok (mkRevocation id cid nwid (s64 thr) flags target signedBy type signature, p - startAt).

(** [sizeof(Revocation)] on the target. *)
Definition sizeof : nat := 152.

Section Sign.
Context `{Crypto} `{Env}.

Definition verify (r : Revocation) : outcome verify_result :=
  verify_signed (_signedBy r) (_networkId r) (serialize (tmp_buffer (sizeof + 64)) r true) (_signature r).

Definition sign (r : Revocation) (signer : Identity) : outcome (option Revocation) :=
  if hasPrivate signer then
    let r := mkRevocation (_id r) (_credentialId r) (_networkId r) (_threshold r) (_flags r) (_target r)
               (address signer) (_type r) (_signature r) in
    s ← sign_with signer (serialize (tmp_buffer (sizeof + 64)) r true);
    Ok (Some (mkRevocation (_id r) (_credentialId r) (_networkId r) (_threshold r) (_flags r) (_target r)
               (_signedBy r) (_type r) s))
  else Ok None.
End Sign.

Definition ok (r : Revocation) : Prop :=
  rng 32 (_id r) /\ rng 32 (_credentialId r) /\ rng 64 (_networkId r) /\ srng 64 (_threshold r) /\
  rng 64 (_flags r) /\ Address.ok (_target r) /\ Address.ok (_signedBy r) /\ rng 8 (_type r) /\ sig_ok (_signature r).

Definition body (r : Revocation) : list Z :=
  be_bytes 4 0 ++ be_bytes 4 (_id r) ++ be_bytes 8 (_networkId r) ++ be_bytes 4 0 ++ be_bytes 4 (_credentialId r) ++
  be_bytes 8 (_threshold r) ++ be_bytes 8 (_flags r) ++ be_bytes 5 (_target r) ++ be_bytes 5 (_signedBy r) ++
  be_bytes 1 (_type r).

Definition enc (r : Revocation) : list Z := body r ++ sig_enc (_signature r) ++ be_bytes 2 0.
Definition tbs (r : Revocation) : list Z :=
  be_bytes 8 sign_marker ++ body r ++ be_bytes 2 0 ++ be_bytes 8 sign_marker.

Lemma revocation_bytes r : ok r -> bytes_ok (enc r).
Proof. intros (_ & _ & _ & _ & _ & _ & _ & _ & Hs). unfold enc, body. rewrite !bytes_ok_app. auto 20 with bytes. Qed.

Lemma revocation_writes_wire r b : ok r -> buf_ok b -> writes b (enc r) (serialize b r false).
Proof.
  intros (_ & _ & _ & _ & _ & _ & _ & _ & Hs) Hb. unfold enc, body, serialize. rewrite <- !app_assoc.
  cbn [mbind outcome_bind]. rewrite <- (app_nil_r (be_bytes 2 0)). writes_all.
Qed.

Lemma revocation_writes_tbs r b : buf_ok b -> writes b (tbs r) (serialize b r true).
Proof. intros Hb. unfold tbs, body, serialize. rewrite <- !app_assoc. writes_all. Qed.

Lemma revocation_reads r b p rest :
  ok r -> buf_ok b -> rest_at b p (enc r ++ rest) -> deserialize b p = Ok (r, zlen (enc r)).
Proof.
  intros (Hi & Hc & Hn & Ht & Hf & Hto & Hby & Hty & Hs) Hb Hr. pose proof (zlen_sig_enc _ Hs) as Hz.
  unfold enc, body in *. rewrite <- !app_assoc in Hr. unfold deserialize.
  apply rest_at_next in Hr. rewrite zlen_be_bytes in Hr. do 2 cred_step Hb Hr.
  apply rest_at_next in Hr. rewrite zlen_be_bytes in Hr. repeat cred_step Hb Hr.
  unfold rng, srng in *. autorewrite with zlen. rewrite Hz, s64_u64, !Z.mod_small, u8_small by (unfold byte_ok; lia).
  destruct r; simpl. do 2 f_equal. lia.
Qed.

Lemma revocation_safe b p :
  buf_ok b -> pos_ok p -> returns (fun '(r, n) => ok r /\ p + n <= _l b /\ 56 <= n < 2 ^ 18) (deserialize b p).
Proof.
  intros Hb [? ?]. unfold deserialize. cbv zeta. repeat cred_returns_step.
  simpl. split; [|lia]. unfold ok, rng.
  cbn [_id _credentialId _networkId _threshold _flags _target _signedBy _type _signature].
  split_and!; try done; try lia; try apply s64_range; unfold byte_ok in *; lia.
Qed.
(** The temporary buffers are large enough. *)
Lemma revocation_tbs_buffer n x : 69 <= Z.of_nat n < 2 ^ 31 -> exists b, serialize (tmp_buffer n) x true = Ok b /\ data b = tbs x.
Proof.
  intros Hn. apply (tmp_buffer_writes n (tbs x) (fun b => serialize b x true)); [lia| |apply revocation_writes_tbs].
  unfold tbs, body. autorewrite with zlen. lia.
Qed.
End Revocation.

Module COM.
(** [CertificateOfMembership]. [_qualifiers] are the first [_qualifierCount] entries of the array; no operation
    reads an entry behind them. *)
Definition ZT_NETWORK_COM_MAX_QUALIFIERS : Z := 8.

Record Qualifier := mkQualifier { id : Z; value : Z; maxDelta : Z }.
Record COM := mkCOM { _signedBy : Z; _qualifiers : list Qualifier; _signature : list Z }.

#[global] Instance Qualifier_eq_dec : EqDecision Qualifier.
Proof. solve_decision. Defined.
#[global] Instance COM_eq_dec : EqDecision COM.
Proof. solve_decision. Defined.

Definition _qualifierCount (c : COM) : Z := zlen (_qualifiers c).
Definition COM_RESERVED_ID_TIMESTAMP : Z := 0.
Definition COM_RESERVED_ID_NETWORK_ID : Z := 1.
Definition COM_RESERVED_ID_ISSUED_TO : Z := 2.

Definition COM_bool (c : COM) : bool := negb (_qualifierCount c =? 0).
Definition isSigned (c : COM) : bool := Address.nonzero (_signedBy c).
Definition credential_id (c : COM) : Z := 0.

(** The loops of [timestamp], [issuedTo] and [networkId]: the first qualifier with the ID. *)
Fixpoint qualifier (qs : list Qualifier) (i : Z) : option Z :=
  match qs with
  | [] => None
  | q :: qs => if id q =? i then Some (value q) else qualifier qs i
  end.
Definition timestamp (c : COM) : Z := s64 (default 0 (qualifier (_qualifiers c) COM_RESERVED_ID_TIMESTAMP)).
Definition networkId (c : COM) : Z := default 0 (qualifier (_qualifiers c) COM_RESERVED_ID_NETWORK_ID).
Definition issuedTo (c : COM) : Z := Address.of_int (default 0 (qualifier (_qualifiers c) COM_RESERVED_ID_ISSUED_TO)).

Definition serialize_qualifier (b : Buffer) (q : Qualifier) : outcome Buffer :=
  b ← append_int 8 b (id q); b ← append_int 8 b (value q); append_int 8 b (maxDelta q).
Fixpoint serialize_qualifiers (b : Buffer) (qs : list Qualifier) : outcome Buffer :=
  match qs with
  | [] => Ok b
  | q :: qs => b ← serialize_qualifier b q; serialize_qualifiers b qs
  end.

Definition serialize (b : Buffer) (c : COM) : outcome Buffer :=
  b ← append_int 1 b 1;
  b ← append_int 2 b (_qualifierCount c);
  b ← serialize_qualifiers b (_qualifiers c);
  b ← Address.appendTo b (_signedBy c);
  if Address.nonzero (_signedBy c) then append b (_signature c) else Ok b.

(** The loop of [deserialize]: [n] qualifiers to go, [count] already stored. *)
Fixpoint read_qualifiers (b : Buffer) (p lastId count : Z) (n : nat) : outcome (list Qualifier * Z) :=
  match n with
  | O => Ok ([], p)
  | S n' =>
      qid ← at_ 8 b p;
      if qid <? lastId then Throw BadEncoding
      else if count <? ZT_NETWORK_COM_MAX_QUALIFIERS then
        v ← at_ 8 b (p + 8); d ← at_ 8 b (p + 16);
        '(qs, p) ← read_qualifiers b (p + 24) qid (count + 1) n'; Ok (mkQualifier qid v d :: qs, p)
      else Throw Overflow
  end.

(** [c0] is the object that is parsed into: an unsigned certificate keeps its signature bytes. *)
Definition deserialize (c0 : COM) (b : Buffer) (startAt : Z) : outcome (COM * Z) :=
  let p := startAt in
  v ← index b p; let p := p + 1 in
  if negb (v =? 1) then Throw InvalidType else
  numq ← at_ 2 b p; let p := p + 2 in
  '(qs, p) ← read_qualifiers b p 0 0 (Z.to_nat numq);
  signedBy ← read_address b p; let p := p + 5 in
  if Address.nonzero signedBy then s ← field b p ZT_ECC_SIGNATURE_LEN; Ok (mkCOM signedBy qs s, p + ZT_ECC_SIGNATURE_LEN - startAt)
  else Ok (mkCOM signedBy qs (_signature c0), p - startAt).

Definition eqb (a b : COM) : bool :=
  (_signedBy a =? _signedBy b) && (_qualifierCount a =? _qualifierCount b) &&
  bool_decide (_qualifiers a = _qualifiers b) && bool_decide (_signature a = _signature b).

(** The bytes [buf] that [sign] and [verify] build. *)
Definition qualifier_enc (q : Qualifier) : list Z := be_bytes 8 (id q) ++ be_bytes 8 (value q) ++ be_bytes 8 (maxDelta q).
Definition tbs (c : COM) : list Z := concat (qualifier_enc <$> _qualifiers c).

(** [std::map<uint64_t, uint64_t> otherFields]: a later qualifier replaces an earlier one. *)
Definition otherFields (qs : list Qualifier) : gmap Z Z :=
  fold_left (fun m q => <[id q := value q]> m) qs ∅.

Fixpoint agree_loop (m : gmap Z Z) (qs : list Qualifier) : bool :=
  match qs with
  | [] => true
  | q :: qs =>
      match m !! id q with
      | None => false
      | Some b =>
          let a := value q in
          if maxDelta q <? (if b <=? a then u64 (a - b) else u64 (b - a)) then false else agree_loop m qs
      end
  end.

Section Crypto.
Context `{Crypto} `{Env}.

(** Words 0 to 3 of the SHA-384 of the public key, in host order. *)
Definition idHash (i : Identity) (k : nat) : Z := be_int (take 8 (drop (8 * k) (publicKeyHash i))).

Definition COM_new (ts timestampMaxDelta nwid : Z) (issuedTo : Identity) : COM :=
  let full := 0xffffffffffffffff in
  mkCOM 0
    (mkQualifier COM_RESERVED_ID_TIMESTAMP ts timestampMaxDelta ::
     mkQualifier COM_RESERVED_ID_NETWORK_ID nwid 0 ::
     mkQualifier COM_RESERVED_ID_ISSUED_TO (address issuedTo) full ::
     ((fun k => mkQualifier (Z.of_nat k + 3) (idHash issuedTo k) full) <$> seq 0 4))
    (replicate 96 0).

(** Qualifiers 3 to 6 must be the hash of [i]. *)
Definition full_identity (m : gmap Z Z) (i : Identity) : bool :=
  forallb (fun k => match m !! (Z.of_nat k + 3) with Some v => v =? idHash i k | None => false end) (seq 0 4).

Definition agreesWith (c other : COM) (otherIdentity : Identity) : bool :=
  if (_qualifierCount c =? 0) || (_qualifierCount other =? 0) then false
  else
    let m := otherFields (_qualifiers other) in
    if agree_loop m (_qualifiers c) then
      if existsb (fun q => (3 <=? id q) && (id q <=? 6)) (_qualifiers c) then full_identity m otherIdentity else true
    else false.

(** [buf] has room for 8 qualifiers. [Identity::sign] calls [abort()] without a private key, so the
    [catch] clause is never entered. *)
Definition sign (c : COM) (signer : Identity) : outcome (COM * bool) :=
  if ZT_NETWORK_COM_MAX_QUALIFIERS <? _qualifierCount c then Undef
  else match Identity.sign signer (tbs c) with
       | Ok s => Ok (mkCOM (address signer) (_qualifiers c) s, true)
       | Throw _ => Ok (mkCOM 0 (_qualifiers c) (_signature c), false)
       | Undef => Undef
       end.

Definition verify (c : COM) : verify_result :=
  if negb (Address.nonzero (_signedBy c)) || negb (_signedBy c =? controllerFor (networkId c)) ||
     (ZT_NETWORK_COM_MAX_QUALIFIERS <? _qualifierCount c) then VBad
  else
    let i := getIdentity (_signedBy c) in
    if negb (identity_bool i) then VWait (_signedBy c)
    else if Identity.verify i (tbs c) (_signature c) then VOk else VBad.
End Crypto.

(** *** Wire form *)

Definition qualifier_ok (q : Qualifier) : Prop := rng 64 (id q) /\ rng 64 (value q) /\ rng 64 (maxDelta q).

#[export] Instance qualifier_ok_dec q : Decision (qualifier_ok q).
Proof. unfold qualifier_ok, rng; apply _. Defined.

(** In ascending order of ID, as the parser demands. *)
Fixpoint sorted_from (l : Z) (qs : list Qualifier) : Prop :=
  match qs with [] => True | q :: qs => l <= id q /\ sorted_from (id q) qs end.

Definition ok (c : COM) : Prop :=
  Address.ok (_signedBy c) /\ Forall qualifier_ok (_qualifiers c) /\ _qualifierCount c <= ZT_NETWORK_COM_MAX_QUALIFIERS /\
  sig_ok (_signature c).

Definition body (c : COM) : list Z :=
  be_bytes 1 1 ++ be_bytes 2 (_qualifierCount c) ++ tbs c ++ be_bytes 5 (_signedBy c).
Definition enc (c : COM) : list Z := body c ++ (if Address.nonzero (_signedBy c) then _signature c else []).

Lemma qualifier_bytes q : bytes_ok (qualifier_enc q).
Proof. unfold qualifier_enc. rewrite !bytes_ok_app. auto with bytes. Qed.

Lemma qualifiers_cons q qs : concat (qualifier_enc <$> q :: qs) = qualifier_enc q ++ concat (qualifier_enc <$> qs).
Proof. done. Qed.

Lemma tbs_bytes qs : bytes_ok (concat (qualifier_enc <$> qs)).
Proof. induction qs; [constructor|]. rewrite qualifiers_cons. apply bytes_ok_app; split; [apply qualifier_bytes|done]. Qed.

Lemma com_bytes c : ok c -> bytes_ok (enc c).
Proof.
  intros (_ & _ & _ & [Hs _]). unfold enc, body, tbs. rewrite !bytes_ok_app. pose proof (tbs_bytes (_qualifiers c)).
  split; [auto 20 with bytes|]. case_match; [done|constructor].
Qed.

Lemma zlen_qualifiers qs : zlen (concat (qualifier_enc <$> qs)) = 24 * zlen qs.
Proof.
  induction qs as [|q qs IH]; [done|]. rewrite qualifiers_cons. unfold qualifier_enc at 1. autorewrite with zlen. rewrite IH. lia.
Qed.

Lemma serialize_qualifiers_writes qs : forall b,
  buf_ok b -> writes b (concat (qualifier_enc <$> qs)) (serialize_qualifiers b qs).
Proof.
  induction qs as [|q qs IH]; intros b Hb; [by apply writes_nil|].
  apply writes_bind; [done|unfold serialize_qualifier, qualifier_enc; writes_all|]. intros; by apply IH.
Qed.
#[local] Hint Extern 1 (writes _ _ (serialize_qualifiers _ _)) => apply serialize_qualifiers_writes; done : writes.

Lemma com_writes_wire c b : ok c -> buf_ok b -> writes b (enc c) (serialize b c).
Proof.
  intros (_ & _ & _ & [Hs Hl]) Hb. unfold enc, body, tbs, serialize. rewrite <- !app_assoc.
  destruct (Address.nonzero (_signedBy c)); writes_all.
Qed.

Lemma read_qualifiers_reads b : forall qs p l n rest,
  buf_ok b -> Forall qualifier_ok qs -> sorted_from l qs -> n + zlen qs <= 8 ->
  rest_at b p (concat (qualifier_enc <$> qs) ++ rest) ->
  read_qualifiers b p l n (length qs) = Ok (qs, p + 24 * zlen qs).
Proof.
  induction qs as [|q qs IH]; intros p l n rest Hb Hq Hs Hn Hr.
  { cbn. do 2 f_equal. unfold zlen; simpl; lia. }
  apply list.Forall_cons in Hq as [(Hi & Hv & Hd) Hq]. destruct Hs as [Hl Hs]. rewrite zlen_cons in *.
  rewrite qualifiers_cons in Hr. unfold qualifier_enc at 1 in Hr. rewrite <- !app_assoc in Hr.
  cbn [length read_qualifiers]. pose proof (zlen_nonneg qs). unfold rng in *.
  read_step Hb Hr. rewrite !Z.mod_small by lia. rewrite (proj2 (Z.ltb_ge _ _)) by lia.
  unfold ZT_NETWORK_COM_MAX_QUALIFIERS. rewrite (proj2 (Z.ltb_lt _ _)) by lia.
  read_pos Hb Hr. read_pos Hb Hr. rewrite !Z.mod_small by lia.
  rewrite (IH (p + 24) (id q) (n + 1) rest); [|done..|lia|].
  - simpl. destruct q; simpl. do 2 f_equal. lia.
  - by replace (p + 24) with (p + Z.of_nat 8 + Z.of_nat 8 + Z.of_nat 8) by lia.
Qed.

Lemma com_reads c c0 b p rest :
  ok c -> sorted_from 0 (_qualifiers c) -> (_signedBy c = 0 -> _signature c = _signature c0) ->
  buf_ok b -> rest_at b p (enc c ++ rest) -> deserialize c0 b p = Ok (c, zlen (enc c)).
Proof.
  intros (Ha & Hq & Hn & [Hs Hl]) Hsrt Hun Hb Hr. unfold enc, body, tbs, _qualifierCount, ZT_NETWORK_COM_MAX_QUALIFIERS in *.
  rewrite <- !app_assoc in Hr. unfold deserialize. pose proof (zlen_nonneg (_qualifiers c)).
  cbv zeta. read_step Hb Hr. change (u8 1 =? 1) with true. cbn [negb]. read_step Hb Hr.
  rewrite Z.mod_small by lia. unfold zlen at 1. rewrite Nat2Z.id. change (Z.of_nat 2) with 2 in Hr.
  rewrite (read_qualifiers_reads b _ _ _ 0 _ Hb Hq Hsrt ltac:(lia) Hr).
  apply rest_at_next in Hr. rewrite zlen_qualifiers in Hr. cbn [mbind outcome_bind]. cred_step Hb Hr.
  autorewrite with zlen. rewrite zlen_qualifiers. unfold ZT_ECC_SIGNATURE_LEN.
  destruct (Address.nonzero (_signedBy c)) eqn:E.
  - cred_step Hb Hr. destruct c; simpl in *. do 2 f_equal. lia.
  - unfold Address.nonzero in E. rewrite Z.eqb_neq in E || apply negb_false_iff, Z.eqb_eq in E.
    rewrite <- Hun by done. rewrite zlen_nil. destruct c; simpl in *. do 2 f_equal. lia.
Qed.

Lemma read_qualifiers_returns b : forall n p l k,
  buf_ok b -> 0 <= p < 2 ^ 31 + 2 ^ 10 - 24 * (8 - k) -> 0 <= k <= 8 -> 0 <= l ->
  returns (fun '(qs, p') => Forall qualifier_ok qs /\ k + zlen qs <= 8 /\ sorted_from l qs /\ length qs = n /\
    p' = p + 24 * zlen qs) (read_qualifiers b p l k n).
Proof.
  induction n as [|n IH]; intros p l k Hb Hp Hk Hl; cbn [read_qualifiers].
  { simpl. unfold zlen; simpl. split_and!; done || lia. }
  returns_step. destruct (Z.ltb_spec a l); [done|]. unfold ZT_NETWORK_COM_MAX_QUALIFIERS.
  destruct (Z.ltb_spec k 8); [|done]. repeat returns_step.
  eapply returns_bind; [apply IH; [done|lia..]|]. intros [qs p'] (? & ? & ? & ? & ->). cbn [returns].
  rewrite zlen_cons. split_and!; try lia; [constructor; [|done]; split_and!; simpl; unfold rng; lia|by split|simpl; lia].
Qed.

Lemma com_safe c0 b p :
  buf_ok b -> pos_ok p -> sig_ok (_signature c0) ->
  returns (fun '(c, n) => ok c /\ sorted_from 0 (_qualifiers c) /\ (_signedBy c = 0 -> _signature c = _signature c0) /\ p + n <= _l b /\ 8 <= n < 2 ^ 18) (deserialize c0 b p).
Proof.
  intros Hb [? ?] Hs0. unfold deserialize. repeat cred_returns_step.
  eapply returns_bind; [apply read_qualifiers_returns; [done|lia..]|]. intros [qs p'] (Hq & Hn & Hs & Hl & ->).
  pose proof (zlen_nonneg qs). unfold ZT_ECC_SIGNATURE_LEN.
  repeat cred_returns_step; cbn [returns]; unfold ok, _qualifierCount, ZT_NETWORK_COM_MAX_QUALIFIERS; cbn [_signedBy _qualifiers _signature];
    split_and!; try done; try lia. by intros ->.
Qed.

(** *** Agreement *)

Lemma otherFields_lookup qs i :
  otherFields qs !! i = value <$> list.last (filter (fun q => id q = i) qs).
Proof.
  unfold otherFields. induction qs as [|q qs IH] using rev_ind; [done|].
  rewrite fold_left_app, list.filter_app. simpl. destruct (decide (id q = i)) as [<-|Hne].
  - rewrite filter_cons_True, filter_nil, list.last_snoc by done. by rewrite lookup_insert_eq.
  - rewrite filter_cons_False, filter_nil, app_nil_r by done. by rewrite lookup_insert_ne.
Qed.

Lemma agree_loop_spec m qs :
  Forall qualifier_ok qs -> map_Forall (fun _ v => rng 64 v) m ->
  agree_loop m qs = true <->
  forall q, q ∈ qs -> exists v, m !! id q = Some v /\ Z.abs (value q - v) <= maxDelta q.
Proof.
  intros Hq Hm. induction Hq as [|q qs (_ & Hv & _) _ IH]; cbn [agree_loop].
  { split; [|done]. by intros _ q ?%elem_of_nil. }
  setoid_rewrite elem_of_cons. destruct (m !! id q) as [v|] eqn:E.
  - specialize (Hm _ _ E). simpl in Hm. unfold rng in *.
    assert ((if v <=? value q then u64 (value q - v) else u64 (v - value q)) = Z.abs (value q - v)) as ->.
    { destruct (Z.leb_spec v (value q)); rewrite u64_small by lia; lia. }
    destruct (Z.ltb_spec (maxDelta q) (Z.abs (value q - v))).
    + split; [done|]. intros Hall. destruct (Hall q) as (? & E' & ?); [by left|]. rewrite E in E'. injection E' as <-. lia.
    + rewrite IH. split; [|naive_solver]. intros Hall x [->|Hx]; [eauto|by apply Hall].
  - split; [done|]. intros Hall. destruct (Hall q) as (? & E' & ?); [by left|]. by rewrite E in E'.
Qed.

Lemma otherFields_range qs : Forall qualifier_ok qs -> map_Forall (fun _ v => rng 64 v) (otherFields qs).
Proof.
  intros Hq i v. rewrite otherFields_lookup. destruct (list.last _) as [q|] eqn:E; [|done]. simpl. intros [= <-].
  apply list.last_Some_elem_of, list_elem_of_filter in E as [_ E]. rewrite list.Forall_forall in Hq. by destruct (Hq q E) as (_ & ? & _).
Qed.

Section Agree.
Context `{Crypto}.

(** The qualifier that counts: the last one with the ID. *)
Definition field_of (c : COM) (i : Z) : option Z := value <$> list.last (filter (fun q => id q = i) (_qualifiers c)).

Lemma full_identity_spec qs i :
  full_identity (otherFields qs) i = true <->
  forall k, (k < 4)%nat -> value <$> list.last (filter (fun q => id q = Z.of_nat k + 3) qs) = Some (idHash i k).
Proof.
  unfold full_identity. rewrite forallb_forall. setoid_rewrite in_seq.
  split; intros Hall k Hk; specialize (Hall k ltac:(lia)); rewrite otherFields_lookup in *;
    destruct (value <$> list.last _) eqn:E; try done.
  - apply Z.eqb_eq in Hall. by subst.
  - injection Hall as ->. apply Z.eqb_refl.
Qed.

Lemma agreesWith_iff c other i :
  ok c -> ok other ->
  agreesWith c other i = true <->
  _qualifiers c <> [] /\ _qualifiers other <> [] /\
  (forall q, q ∈ _qualifiers c -> exists v, field_of other (id q) = Some v /\ Z.abs (value q - v) <= maxDelta q) /\
  ((exists q, q ∈ _qualifiers c /\ 3 <= id q <= 6) -> forall k, (k < 4)%nat -> field_of other (Z.of_nat k + 3) = Some (idHash i k)).
Proof.
  intros (_ & Hq & _) (_ & Hq' & _). unfold agreesWith, _qualifierCount, zlen.
  destruct (_qualifiers c) as [|q0 qs] eqn:Ec; [simpl; naive_solver|]. rewrite <- Ec in *.
  destruct (_qualifiers other) as [|q0' qs'] eqn:Eo; [rewrite orb_true_r; naive_solver|]. rewrite <- Eo in *.
  rewrite (proj2 (Z.eqb_neq _ 0)), (proj2 (Z.eqb_neq _ 0)) by (rewrite Ec || rewrite Eo; simpl; lia). cbn [orb].
  assert (forall P Q, (_qualifiers c <> [] /\ _qualifiers other <> [] /\ P /\ Q) <-> P /\ Q) as ->.
  { intros P Q. rewrite Ec, Eo. naive_solver. }
  pose proof (agree_loop_spec _ _ Hq (otherFields_range _ Hq')) as Hloop. setoid_rewrite otherFields_lookup in Hloop.
  change (forall q, q ∈ _qualifiers c -> exists v, field_of other (id q) = Some v /\ Z.abs (value q - v) <= maxDelta q)
    with (forall q, q ∈ _qualifiers c -> exists v, value <$> list.last (filter (fun x => id x = id q) (_qualifiers other)) = Some v /\
            Z.abs (value q - v) <= maxDelta q).
  rewrite <- Hloop. destruct (agree_loop _ _); [|naive_solver].
  assert (existsb (fun q => (3 <=? id q) && (id q <=? 6)) (_qualifiers c) = true <-> exists q, q ∈ _qualifiers c /\ 3 <= id q <= 6) as Hex.
  { rewrite existsb_exists. setoid_rewrite list_elem_of_In. setoid_rewrite andb_true_iff. setoid_rewrite Z.leb_le. done. }
  destruct (existsb _ _).
  - unfold field_of. rewrite full_identity_spec. naive_solver.
  - split; [|done]. intros _. split; [done|]. intros Hx. by apply Hex in Hx.
Qed.

Lemma idHash_range i k : (forall x, bytes_ok (sha384 x)) -> rng 64 (idHash i k).
Proof.
  intros Hsha. unfold idHash, publicKeyHash, rng.
  set (l := take 8 _). assert (bytes_ok l) as Hl by (apply list.Forall_take, list.Forall_drop, Hsha).
  pose proof (be_int_range l Hl) as Hr. assert (0 <= zlen l <= 8) by (subst l; unfold zlen; rewrite length_take; lia).
  assert (2 ^ (8 * zlen l) <= 2 ^ 64) by (apply Z.pow_le_mono_r; lia). lia.
Qed.

(** C10. [agreesWith] holds exactly when both certificates have qualifiers, every qualifier of this one has a
    counterpart in the other whose value is within this one's delta, and, if this one has one of the
    qualifiers 3 to 6, the other's qualifiers 3 to 6 are the hash of the other node's identity. If the other
    has several qualifiers with an ID, the last one counts. So of two certificates as a controller makes
    them, the first accepts the second exactly when the networks are the same, the timestamps differ by at
    most the first's delta, and the identity at hand is the one the second was issued for. *)
Theorem com_agreement c other i ts d nwid me ts' d' nwid' them :
  (forall x, bytes_ok (sha384 x)) -> ok c -> ok other ->
  rng 64 ts -> rng 64 d -> rng 64 nwid -> rng 64 ts' -> rng 64 d' -> rng 64 nwid' ->
  Address.ok (address me) -> Address.ok (address them) ->
  (agreesWith c other i = true <->
   _qualifiers c <> [] /\ _qualifiers other <> [] /\
   (forall q, q ∈ _qualifiers c -> exists v, field_of other (id q) = Some v /\ Z.abs (value q - v) <= maxDelta q) /\
   ((exists q, q ∈ _qualifiers c /\ 3 <= id q <= 6) ->
      forall k, (k < 4)%nat -> field_of other (Z.of_nat k + 3) = Some (idHash i k))) /\
  (_qualifiers c = _qualifiers (COM_new ts d nwid me) -> _qualifiers other = _qualifiers (COM_new ts' d' nwid' them) ->
   agreesWith c other i = true <->
   nwid = nwid' /\ Z.abs (ts - ts') <= d /\ forall k, (k < 4)%nat -> idHash them k = idHash i k).
Proof.
  intros Hsha Hc Ho Hts Hd Hn Hts' Hd' Hn' Hme Hthem. pose proof (agreesWith_iff c other i Hc Ho) as Hiff. split; [exact Hiff|].
  intros Ec Eo. rewrite Hiff.
  assert (forall j, rng 64 (idHash me j) /\ rng 64 (idHash them j)) as Hr by (intros; split; by apply idHash_range).
  unfold field_of. rewrite Ec, Eo. unfold rng, Address.ok in *. split.
  - intros (_ & _ & Hq & Hf).
    destruct (Hq (mkQualifier 0 ts d)) as (v & [= <-] & H0); [by left|].
    destruct (Hq (mkQualifier 1 nwid 0)) as (v & [= <-] & H1); [by right; left|]. cbn [value maxDelta] in *.
    split_and!; [lia|lia|]. intros k Hk.
    assert (exists q, q ∈ _qualifiers (COM_new ts d nwid me) /\ 3 <= id q <= 6) as Hex.
    { exists (mkQualifier 3 (idHash me 0) 0xffffffffffffffff). split; [by do 3 right; left|simpl; lia]. }
    specialize (Hf Hex k Hk). destruct k as [|[|[|[|]]]]; [..|lia]; by injection Hf.
  - intros (<- & Hdl & Hk). split_and!; [done..| |].
    + intros q Hq. set (full := 0xffffffffffffffff) in *.
      change (q ∈ [mkQualifier 0 ts d; mkQualifier 1 nwid 0; mkQualifier 2 (address me) full; mkQualifier 3 (idHash me 0) full;
                   mkQualifier 4 (idHash me 1) full; mkQualifier 5 (idHash me 2) full; mkQualifier 6 (idHash me 3) full]) in Hq.
      rewrite !elem_of_cons in Hq.
      destruct Hq as [->|[->|[->|[->|[->|[->|[->|Hq]]]]]]]; [..|by apply elem_of_nil in Hq];
        (eexists; split; [reflexivity|]; subst full; cbn [value maxDelta];
         try pose proof (Hr 0%nat); try pose proof (Hr 1%nat); pose proof (Hr 2%nat); pose proof (Hr 3%nat); lia).
    + intros _ k Hk4. rewrite <- Hk by done. destruct k as [|[|[|[|]]]]; [reflexivity..|lia].
Qed.
End Agree.

Lemma com_agreement_witness :
  let me := mkIdentity 0x89e92ceee5 (replicate 64 7) None in
  let them := mkIdentity 0x1122334455 (replicate 64 9) None in
  let c := COM_new (H := toy_crypto) 1700000000 7200 0x89e92ceee5000001 me in
  let other := COM_new (H := toy_crypto) 1700007000 60 0x89e92ceee5000001 them in
  agreesWith (H := toy_crypto) c other them = true /\ agreesWith (H := toy_crypto) c other me = false.
Proof.
  intros me them c other.
  assert (ok c) as Hc by (split_and!; by_compute).
  assert (ok other) as Ho by (split_and!; by_compute).
  split.
  - apply (proj2 (com_agreement (H := toy_crypto) c other them 1700000000 7200 0x89e92ceee5000001 me 1700007000 60
      0x89e92ceee5000001 them toy_sha384_ok Hc Ho ltac:(by_compute) ltac:(by_compute) ltac:(by_compute) ltac:(by_compute)
      ltac:(by_compute) ltac:(by_compute) ltac:(by_compute) ltac:(by_compute)) eq_refl eq_refl).
    split; [reflexivity|]. split; [by_compute|]. by intros.
  - apply not_true_iff_false. intros Ht.
    apply (proj2 (com_agreement (H := toy_crypto) c other me 1700000000 7200 0x89e92ceee5000001 me 1700007000 60
      0x89e92ceee5000001 them toy_sha384_ok Hc Ho ltac:(by_compute) ltac:(by_compute) ltac:(by_compute) ltac:(by_compute)
      ltac:(by_compute) ltac:(by_compute) ltac:(by_compute) ltac:(by_compute)) eq_refl eq_refl) in Ht.
    destruct Ht as (_ & _ & Hk). specialize (Hk 0%nat ltac:(lia)). vm_compute in Hk. discriminate.
Defined.
End COM.
