(* ===== verification/Capability.v ===== *)
(** * Capabilities (node/Capability.hpp, node/Capability.cpp)

    A signed group of flow rules with its chain of custody: the controller's entry, then one for
    each hand-over. The array of custody entries always has 7 of them; an entry whose [to] is the
    null address ends the chain. [_rules] are the first [_ruleCount] entries of the rule array. *)

From S2P Require Import Prelude Buffer Serial Address Identity Rule Credential.

Definition ZT_MAX_CAPABILITY_RULES : Z := 64.
Definition ZT_MAX_CAPABILITY_CUSTODY_CHAIN_LENGTH : Z := 7.

Record Custody := mkCustody { to : Z; from : Z; signature : list Z }.
Record Capability := mkCapability {
  _nwid : Z; _ts : Z; _id : Z; _maxCustodyChainLength : Z;
  _rules : list ZT_VirtualNetworkRule; _custody : list Custody }.

#[export] Instance Custody_eq_dec : EqDecision Custody.
Proof. solve_decision. Defined.
#[export] Instance Capability_eq_dec : EqDecision Capability.
Proof. solve_decision. Defined.

Definition credentialType : Type_ := CREDENTIAL_TYPE_CAPABILITY.
Definition no_custody : Custody := mkCustody 0 0 (replicate 96 0).
Definition Capability_nil : Capability := mkCapability 0 0 0 0 [] (replicate 7 no_custody).

(** The constructor does not clear the custody array: the addresses are null by their own constructor,
    the signatures, [uninit], are not initialised. *)
Definition Capability_new (uninit : list (list Z)) (id nwid ts mccl : Z) (rules : list ZT_VirtualNetworkRule) : Capability :=
  mkCapability nwid ts id
    (if 0 <? mccl then (if mccl <? ZT_MAX_CAPABILITY_CUSTODY_CHAIN_LENGTH then mccl else ZT_MAX_CAPABILITY_CUSTODY_CHAIN_LENGTH) else 1)
    (take (Z.to_nat ZT_MAX_CAPABILITY_RULES) rules) (mkCustody 0 0 <$> uninit).

Definition ruleCount (c : Capability) : Z := zlen (_rules c).

(** The last [to] before the end of the chain. *)
Fixpoint issued_loop (i2 : Z) (cs : list Custody) : Z :=
  match cs with
  | [] => i2
  | c :: cs => if negb (Address.nonzero (to c)) then i2 else issued_loop (to c) cs
  end.
Definition issuedTo (c : Capability) : Z := issued_loop 0 (_custody c).

Definition serialize_custody (b : Buffer) (c : Custody) : outcome Buffer :=
  b ← Address.appendTo b (to c); b ← Address.appendTo b (from c); append_signature b (signature c).

(** The loop of [serialize]: [n] is what is left of [_maxCustodyChainLength]. *)
Fixpoint serialize_chain (b : Buffer) (cs : list Custody) (n : nat) : outcome Buffer :=
  match n, cs with
  | S n, c :: cs =>
      if Address.nonzero (to c) then b ← serialize_custody b c; serialize_chain b cs n else append_run b 0 5
  | _, _ => append_run b 0 5
  end.

Definition serialize (b : Buffer) (c : Capability) (forSign : bool) : outcome Buffer :=
  b ← (if forSign then append_int 8 b sign_marker else Ok b);
  b ← append_int 8 b (_nwid c);
  b ← append_int 8 b (_ts c);
  b ← append_int 4 b (_id c);
  b ← append_int 2 b (ruleCount c);
  b ← serializeRules b (_rules c);
  b ← append_int 1 b (_maxCustodyChainLength c);
  b ← (if forSign then Ok b else serialize_chain b (_custody c) (Z.to_nat (_maxCustodyChainLength c)));
  b ← append_int 2 b 0;
  if forSign then append_int 8 b sign_marker else Ok b.

(** The loop of [deserialize]: [n] entries may still follow; one more [to] than that is an error. *)
Fixpoint read_chain (b : Buffer) (p : Z) (n : nat) : outcome (list Custody * Z) :=
  to ← read_address b p; let p := p + 5 in
  if negb (Address.nonzero to) then Ok ([], p)
  else match n with
       | O => Throw Overflow
       | S n =>
           from ← read_address b p; let p := p + 5 in
           '(s, p) ← read_signature b p;
           '(cs, p) ← read_chain b p n; Ok (mkCustody to from s :: cs, p)
       end.

Definition deserialize (b : Buffer) (startAt : Z) : outcome (Capability * Z) :=
  let p := startAt in
  nwid ← at_ 8 b p; let p := p + 8 in
  ts ← at_ 8 b p; let p := p + 8 in
  id ← at_ 4 b p; let p := p + 4 in
  rc ← at_ 2 b p; let p := p + 2 in
  if ZT_MAX_CAPABILITY_RULES <? rc then Throw Overflow else
  '(rules, p) ← deserializeRules (Z.to_nat rc) b p [];
  mccl ← index b p; let p := p + 1 in
  if (mccl <? 1) || (ZT_MAX_CAPABILITY_CUSTODY_CHAIN_LENGTH <? mccl) then Throw Overflow else
  '(chain, p) ← read_chain b p (Z.to_nat mccl);
  p ← read_additional b p;
  Ok (mkCapability nwid (s64 ts) id mccl rules (chain ++ drop (length chain) (replicate 7 no_custody)), p - startAt).

Definition ltb (a b : Capability) : bool := _id a <? _id b.

(** [sizeof(Capability)] on the target. *)
Definition sizeof : nat := 2864.

Section Sign.
Context `{Crypto} `{Env}.

(** The loop of [sign]: the first free entry gets the new link. *)
Fixpoint sign_chain (cs : list Custody) (n : nat) (link : outcome Custody) : outcome (option (list Custody)) :=
  match n, cs with
  | S n, c :: cs =>
      if negb (Address.nonzero (to c)) then k ← link; Ok (Some (k :: cs))
      else r ← sign_chain cs n link; Ok (match r with Some cs => Some (c :: cs) | None => None end)
  | _, _ => Ok None
  end.

(** None: [sign] returned false. *)
Definition sign (c : Capability) (signer : Identity) (rcpt : Z) : outcome (option Capability) :=
  let link := tmp ← serialize (tmp_buffer (sizeof * 2)) c true; s ← Identity.sign signer (data tmp);
              Ok (mkCustody rcpt (address signer) s) in
  match sign_chain (_custody c) (Z.to_nat (Z.min (_maxCustodyChainLength c) ZT_MAX_CAPABILITY_CUSTODY_CHAIN_LENGTH)) link with
  | Ok (Some cs) => Ok (Some (mkCapability (_nwid c) (_ts c) (_id c) (_maxCustodyChainLength c) (_rules c) cs))
  | Ok None | Throw _ => Ok None
  | Undef => Undef
  end.

(** The loop of [verify]: [prev] is the previous entry's [to], None for the first one. *)
Fixpoint verify_chain (nwid : Z) (msg : list Z) (prev : option Z) (cs : list Custody) (n : nat) : outcome verify_result :=
  match n with
  | O => Ok VOk
  | S n =>
      match cs with
      | [] => Undef
      | c :: cs =>
          let check_signature :=
            let id := getIdentity (from c) in
            if identity_bool id then
              if Identity.verify id msg (signature c) then verify_chain nwid msg (Some (to c)) cs n else Ok VBad
            else Ok (VWait (from c)) in
          match prev with
          | None =>
              if negb (Address.nonzero (to c)) || negb (Address.nonzero (from c)) || negb (from c =? controllerFor nwid)
              then Ok VBad else check_signature
          | Some p =>
              if negb (Address.nonzero (to c)) then Ok VOk
              else if negb (Address.nonzero (from c)) || negb (from c =? p) then Ok VBad
              else check_signature
          end
      end
  end.

Definition verify (c : Capability) : outcome verify_result :=
  if (_maxCustodyChainLength c <? 1) || (ZT_MAX_CAPABILITY_CUSTODY_CHAIN_LENGTH <? _maxCustodyChainLength c) then Ok VBad
  else
    match serialize (tmp_buffer (sizeof * 2)) c true with
    | Ok tmp => verify_chain (_nwid c) (data tmp) None (_custody c) (Z.to_nat (_maxCustodyChainLength c))
    | Throw _ => Ok VBad
    | Undef => Undef
    end.
End Sign.

(** ** Wire form *)

Definition custody_ok (c : Custody) : Prop := Address.ok (to c) /\ Address.ok (from c) /\ sig_ok (signature c).

Definition ok (c : Capability) : Prop :=
  rng 64 (_nwid c) /\ srng 64 (_ts c) /\ rng 32 (_id c) /\ 1 <= _maxCustodyChainLength c <= 7 /\
  Forall rule_wf (_rules c) /\ (length (_rules c) <= 64)%nat /\
  length (_custody c) = 7%nat /\ Forall custody_ok (_custody c).

(** The entries in use: up to the first null [to], and at most the maximum. *)
Fixpoint chain_of (n : nat) (cs : list Custody) : list Custody :=
  match n, cs with
  | S n, c :: cs => if Address.nonzero (to c) then c :: chain_of n cs else []
  | _, _ => []
  end.
Definition chain (c : Capability) : list Custody := chain_of (Z.to_nat (_maxCustodyChainLength c)) (_custody c).

(** Entries that are not in use are clear. *)
Definition proper (c : Capability) : Prop :=
  drop (length (chain c)) (_custody c) = drop (length (chain c)) (replicate 7 no_custody).

Definition custody_enc (c : Custody) : list Z := be_bytes 5 (to c) ++ be_bytes 5 (from c) ++ sig_enc (signature c).
Definition chain_enc (cs : list Custody) : list Z := concat (custody_enc <$> cs) ++ be_bytes 5 0.

Definition body (c : Capability) : list Z :=
  be_bytes 8 (_nwid c) ++ be_bytes 8 (_ts c) ++ be_bytes 4 (_id c) ++ be_bytes 2 (ruleCount c) ++
  rules_enc (_rules c) ++ be_bytes 1 (_maxCustodyChainLength c).
Definition enc (c : Capability) : list Z := body c ++ chain_enc (chain c) ++ be_bytes 2 0.
Definition tbs (c : Capability) : list Z := be_bytes 8 sign_marker ++ body c ++ be_bytes 2 0 ++ be_bytes 8 sign_marker.

Lemma chain_enc_cons c cs : chain_enc (c :: cs) = custody_enc c ++ chain_enc cs.
Proof. unfold chain_enc. simpl. by rewrite <- app_assoc. Qed.

Lemma zlen_custody_enc c : custody_ok c -> zlen (custody_enc c) = 109.
Proof. intros (_ & _ & Hs). unfold custody_enc. autorewrite with zlen. rewrite zlen_sig_enc by done. lia. Qed.

Lemma custody_bytes c : custody_ok c -> bytes_ok (custody_enc c).
Proof. intros (_ & _ & Hs). unfold custody_enc. rewrite !bytes_ok_app. auto with bytes. Qed.

Lemma chain_of_ok cs : Forall custody_ok cs -> forall n, Forall custody_ok (chain_of n cs).
Proof. induction 1; intros [|n]; cbn [chain_of]; try constructor. case_match; constructor; auto. Qed.

Lemma chain_bytes cs : Forall custody_ok cs -> bytes_ok (chain_enc cs).
Proof.
  induction 1; [apply bytes_ok_be_bytes|]. rewrite chain_enc_cons. apply bytes_ok_app; split; [by apply custody_bytes|done].
Qed.

Lemma rules_bytes rs : Forall rule_wf rs -> bytes_ok (rules_enc rs).
Proof. induction 1; [constructor|]. apply bytes_ok_app. split; [by apply rule_bytes|done]. Qed.

Lemma capability_bytes c : ok c -> bytes_ok (enc c).
Proof.
  intros (_ & _ & _ & _ & Hr & _ & _ & Hc). unfold enc, body. rewrite !bytes_ok_app.
  pose proof (chain_bytes _ (chain_of_ok _ Hc (Z.to_nat (_maxCustodyChainLength c)))).
  pose proof (rules_bytes _ Hr). auto 20 with bytes.
Qed.

Lemma append_run_zero b : buf_ok b -> writes b (be_bytes 5 0) (append_run b 0 5).
Proof. intros Hb. by apply (append_run_writes b 0 5 Hb). Qed.

Lemma serialize_chain_writes cs : forall n b,
  Forall custody_ok cs -> buf_ok b -> writes b (chain_enc (chain_of n cs)) (serialize_chain b cs n).
Proof.
  induction cs as [|c cs IH]; intros [|n] b Hc Hb; cbn [chain_of serialize_chain]; try by apply append_run_zero.
  apply list.Forall_cons in Hc as [Hc Hcs]. destruct (Address.nonzero (to c)); [|by apply append_run_zero].
  rewrite chain_enc_cons. apply writes_bind; [done| |intros; by apply IH].
  destruct Hc as (_ & _ & Hs). unfold custody_enc, serialize_custody.
  apply writes_bind; [done|solve [auto with writes]|intros b1 ? _ _].
  apply writes_bind; [done|solve [auto with writes]|intros b2 ? _ _]. by apply append_signature_writes.
Qed.
#[local] Hint Extern 1 (writes _ _ (serialize_chain _ _ _)) => apply serialize_chain_writes; done : writes.
#[local] Hint Extern 1 (writes _ _ (serializeRules _ _)) => apply rules_writes; done : writes.

Lemma capability_writes_wire c b : ok c -> buf_ok b -> writes b (enc c) (serialize b c false).
Proof.
  intros (_ & _ & _ & _ & Hr & _ & _ & Hc) Hb. unfold enc, body, chain, serialize. rewrite <- !app_assoc.
  cbn [mbind outcome_bind]. rewrite <- (app_nil_r (be_bytes 2 0)). writes_all.
Qed.

Lemma capability_writes_tbs c b : Forall rule_wf (_rules c) -> buf_ok b -> writes b (tbs c) (serialize b c true).
Proof. intros Hr Hb. unfold tbs, body, serialize. rewrite <- !app_assoc. writes_all. Qed.

(** The capability as it arrives. *)
Definition wire (c : Capability) : Capability :=
  mkCapability (_nwid c) (_ts c) (_id c) (_maxCustodyChainLength c) (wire_rule <$> _rules c) (_custody c).

Lemma serialize_wire b c forSign : serialize b (wire c) forSign = serialize b c forSign.
Proof.
  unfold serialize, wire, ruleCount. cbn [_nwid _ts _id _rules _maxCustodyChainLength _custody].
  replace (zlen (wire_rule <$> _rules c)) with (zlen (_rules c)) by (unfold zlen; by rewrite length_fmap).
  destruct (if forSign then _ else _) as [b1| |]; cbn [mbind outcome_bind]; [|done..].
  do 4 (destruct (append_int _ _ _); cbn [mbind outcome_bind]; [|done..]). by rewrite serialize_wire_rules.
Qed.

Lemma capability_wire_id c : ok c -> wire c = c.
Proof. intros (_ & _ & _ & _ & Hr & _). unfold wire. rewrite wire_rules_id by done. by destruct c. Qed.

Lemma read_chain_reads b : forall cs n p rest,
  buf_ok b -> Forall custody_ok cs -> rest_at b p (chain_enc (chain_of n cs) ++ rest) ->
  read_chain b p n = Ok (chain_of n cs, p + zlen (chain_enc (chain_of n cs))).
Proof.
  assert (forall p rest n, buf_ok b -> rest_at b p (chain_enc [] ++ rest) -> read_chain b p n = Ok ([], p + 5)) as Hnil.
  { intros p rest n Hb Hr. change (chain_enc []) with (be_bytes 5 0) in Hr.
    apply read_address_rest in Hr as [E _]; [|done..]. by destruct n; cbn [read_chain]; rewrite E. }
  induction cs as [|c cs IH]; intros [|n] p rest Hb Hc Hr; cbn [chain_of] in *; try (by eapply Hnil).
  destruct (Address.nonzero (to c)) eqn:E in *; [|by eapply Hnil].
  apply list.Forall_cons in Hc as [Hc Hcs]. pose proof (zlen_custody_enc c Hc) as Hz.
  destruct Hc as (Hto & Hfrom & Hs). rewrite chain_enc_cons in *. rewrite zlen_app, Hz.
  unfold custody_enc in Hr. rewrite <- !app_assoc in Hr. cbn [read_chain].
  cred_step Hb Hr. rewrite E. cbn [negb]. do 2 cred_step Hb Hr.
  rewrite (IH n _ rest) by done. destruct c; simpl. do 2 f_equal. lia.
Qed.

Lemma capability_reads c b p rest :
  ok c -> proper c -> buf_ok b -> rest_at b p (enc c ++ rest) -> deserialize b p = Ok (c, zlen (enc c)).
Proof.
  intros (Hn & Ht & Hi & Hm & Hr & Hrl & Hcl & Hc) Hp Hb Hrest. pose proof (chain_of_ok _ Hc (Z.to_nat (_maxCustodyChainLength c))).
  unfold enc, body, proper, chain, ruleCount in *. rewrite <- !app_assoc in Hrest. unfold deserialize. do 4 cred_step Hb Hrest.
  unfold rng, srng in *. assert (0 <= zlen (_rules c) <= 64) by (unfold zlen; lia). rewrite (Z.mod_small (zlen (_rules c))) by lia.
  unfold ZT_MAX_CAPABILITY_RULES, ZT_MAX_CAPABILITY_CUSTODY_CHAIN_LENGTH. rewrite (proj2 (Z.ltb_ge _ _)) by lia.
  unfold zlen at 1. rewrite Nat2Z.id.
  match goal with |- (deserializeRules _ _ ?q _ ≫= _) = _ => match type of Hrest with rest_at _ ?r _ => replace q with r by lia end end.
  destruct (rules_reads _ _ _ [] _ Hr Hb Hrest) as [E Hrest']. rewrite E. clear E Hrest. cbn [mbind outcome_bind app].
  cred_step Hb Hrest'. rewrite u8_small by (unfold byte_ok; lia).
  rewrite (proj2 (Z.ltb_ge _ 1)), (proj2 (Z.ltb_ge 7 _)) by lia. cbn [orb].
  match goal with |- (read_chain _ ?q _ ≫= _) = _ => match type of Hrest' with rest_at _ ?r _ => replace q with r by lia end end.
  rewrite (read_chain_reads b _ _ _ _ Hb Hc Hrest'). apply rest_at_next in Hrest'. cbn [mbind outcome_bind].
  cred_step Hb Hrest'. autorewrite with zlen. rewrite s64_u64, !Z.mod_small by lia. rewrite <- Hp.
  assert (forall n cs, chain_of n cs ++ drop (length (chain_of n cs)) cs = cs) as ->.
  { clear. induction n as [|n IH]; intros [|c cs]; cbn [chain_of]; try done. case_match; [|done]. simpl. by rewrite IH. }
  destruct c; simpl. do 2 f_equal. lia.
Qed.

Lemma read_chain_returns b : forall n p,
  buf_ok b -> 0 <= p < 2 ^ 31 + 2 ^ 18 ->
  returns (fun '(cs, p') => (length cs <= n)%nat /\ Forall custody_ok cs /\ Forall (fun c => to c <> 0) cs /\
    p + 5 <= p' <= _l b) (read_chain b p n).
Proof.
  induction n as [|n IH]; intros p Hb Hp; cbn [read_chain]; cred_returns_step; unfold Address.nonzero in *.
  - destruct (Z.eqb_spec a 0); simpl; [|done]. split_and!; done || lia.
  - destruct (Z.eqb_spec a 0); cbn [negb]; [simpl; split_and!; done || lia|].
    pose proof (buf_l _ Hb). do 2 cred_returns_step. eapply returns_bind; [apply IH; [done|lia]|].
    intros [cs p'] (? & ? & ? & ?). simpl. split_and!; try lia; by constructor.
Qed.

Lemma chain_of_nonzero n cs cs' :
  Forall (fun c => to c <> 0) cs -> (length cs <= n)%nat -> (forall c, c ∈ cs' -> to c = 0) -> chain_of n (cs ++ cs') = cs.
Proof.
  intros Hn. revert n. unfold Address.nonzero. induction Hn as [|c cs Hc _ IH]; intros n Hl Hz.
  - destruct n as [|n], cs' as [|c' cs']; try done. cbn [app chain_of]. unfold Address.nonzero. by rewrite (Hz c') by left.
  - destruct n as [|n]; simpl in Hl; [lia|]. cbn [app chain_of]. unfold Address.nonzero.
    rewrite (proj2 (Z.eqb_neq _ _)) by done. simpl. rewrite IH by (done || lia). done.
Qed.

Lemma deserialize_safe b p :
  buf_ok b -> pos_ok p -> returns (fun '(c, n) => ok c /\ proper c /\ p + n <= _l b /\ 30 <= n < 2 ^ 31) (deserialize b p).
Proof.
  intros Hb [? ?]. pose proof (buf_l _ Hb). unfold deserialize. do 4 cred_returns_step.
  unfold ZT_MAX_CAPABILITY_RULES, ZT_MAX_CAPABILITY_CUSTODY_CHAIN_LENGTH. destruct (Z.ltb_spec 64 a2); [done|]. cbv zeta.
  destruct (Z.lt_ge_cases (p + 22) (2 ^ 31)); [|lia].
  eapply returns_bind; [apply rules_returns; [done|unfold pos_ok; lia|constructor]|].
  intros [rules p'] (Hr & Hrl & ? & Hp'). simpl in Hrl. cred_returns_step.
  destruct (Z.ltb_spec a3 1), (Z.ltb_spec 7 a3); cbn [orb]; try done.
  eapply returns_bind; [apply read_chain_returns; [done|lia]|]. intros [ch p''] (Hcl & Hc & Hn & ?).
  cred_returns_step. cbn [returns]. split_and!; [| |lia..].
  - unfold ok, rng. cbn [_nwid _ts _id _maxCustodyChainLength _rules _custody].
    rewrite length_app, length_drop, length_replicate.
    split_and!; try done; try lia; try apply s64_range. apply Forall_app; split; [done|].
    apply list.Forall_drop, Forall_replicate. split_and!; by_compute.
  - unfold proper, chain. cbn [_maxCustodyChainLength _custody].
    rewrite chain_of_nonzero; [by rewrite drop_app_length|done|lia|].
    intros c Hin. apply subseteq_drop in Hin. by apply elem_of_replicate_inv in Hin as ->.
Qed.

(** ** The chain of custody *)

Lemma zlen_rules rs : Forall rule_wf rs -> zlen (rules_enc rs) <= 21 * zlen rs.
Proof.
  induction 1 as [|r rs [_ Hr] Hrs IH]; [done|]. change (rules_enc (r :: rs)) with (rule_enc r ++ rules_enc rs).
  rewrite zlen_app, zlen_cons. unfold rule_enc at 1, value_enc. autorewrite with zlen. rewrite (payload_len _ _ Hr).
  assert (field_len (rule_kind (rule_type r)) <= 19) by (by destruct (rule_kind _)). lia.
Qed.

(** The temporary buffer is large enough, so the form for signing always exists. *)
Lemma serialize_tbs c :
  Forall rule_wf (_rules c) -> (length (_rules c) <= 64)%nat ->
  exists b, serialize (tmp_buffer (sizeof * 2)) c true = Ok b /\ data b = tbs c.
Proof.
  intros Hr Hl. apply (tmp_buffer_writes _ (tbs c) (fun b => serialize b c true)); [by_compute| |intros; by apply capability_writes_tbs].
  pose proof (zlen_rules _ Hr). unfold tbs, body. autorewrite with zlen. unfold zlen in *.
  change (Z.of_nat (sizeof * 2)) with 5728. lia.
Qed.

Section Chain.
Context `{Crypto} `{Env}.

(** One entry, given by [holder]. *)
Definition link_ok (msg : list Z) (holder : Z) (c : Custody) : Prop :=
  to c <> 0 /\ from c <> 0 /\ from c = holder /\ identity_bool (getIdentity holder) = true /\
  Identity.verify (getIdentity holder) msg (signature c) = true.

(** Each entry is given by the one the previous entry was given to. *)
Fixpoint links_ok (msg : list Z) (holder : Z) (cs : list Custody) : Prop :=
  match cs with [] => True | c :: cs => link_ok msg holder c /\ links_ok msg (to c) cs end.

Lemma verify_chain_next nwid msg cs : forall n holder,
  (n <= length cs)%nat ->
  verify_chain nwid msg (Some holder) cs n = Ok VOk <-> links_ok msg holder (chain_of n cs).
Proof.
  induction cs as [|c cs IH]; intros [|n] holder Hl; simpl in Hl; try lia; try (by split).
  cbn [verify_chain chain_of]. unfold Address.nonzero.
  destruct (Z.eqb_spec (to c) 0); cbn [negb links_ok]; [by split|]. specialize (IH n (to c) ltac:(lia)).
  unfold link_ok. destruct (Z.eqb_spec (from c) 0); cbn [negb orb]; [naive_solver|].
  destruct (Z.eqb_spec (from c) holder) as [<-|]; cbn [negb]; [|naive_solver].
  destruct (identity_bool _); [|intuition congruence].
  destruct (Identity.verify _ _ _); [rewrite IH; intuition congruence|intuition congruence].
Qed.

Lemma verify_chain_first nwid msg cs n :
  (1 <= n <= length cs)%nat ->
  verify_chain nwid msg None cs n = Ok VOk <-> chain_of n cs <> [] /\ links_ok msg (controllerFor nwid) (chain_of n cs).
Proof.
  intros Hn. destruct n as [|n]; [lia|]. destruct cs as [|c cs]; [simpl in Hn; lia|]. simpl in Hn. cbn [verify_chain chain_of].
  pose proof (verify_chain_next nwid msg cs n (to c) ltac:(lia)) as IH. unfold Address.nonzero.
  destruct (Z.eqb_spec (to c) 0); cbn [negb orb links_ok]; [naive_solver|]. unfold link_ok.
  destruct (Z.eqb_spec (from c) 0); cbn [negb orb]; [naive_solver|].
  destruct (Z.eqb_spec (from c) (controllerFor nwid)) as [E|]; cbn [negb]; [|naive_solver]. rewrite <- E.
  destruct (identity_bool _); [|intuition congruence].
  destruct (Identity.verify _ _ _); [rewrite IH; intuition congruence|intuition congruence].
Qed.

Lemma verify_iff c :
  ok c -> verify c = Ok VOk <-> chain c <> [] /\ links_ok (tbs c) (controllerFor (_nwid c)) (chain c).
Proof.
  intros (_ & _ & _ & Hm & Hr & Hrl & Hcl & _). unfold verify, ZT_MAX_CAPABILITY_CUSTODY_CHAIN_LENGTH, chain.
  rewrite (proj2 (Z.ltb_ge _ 1)), (proj2 (Z.ltb_ge 7 _)) by lia. cbn [orb].
  destruct (serialize_tbs c Hr Hrl) as (b & -> & ->). apply verify_chain_first. lia.
Qed.

(** Another recipient for the last entry. *)
Definition readdress (c : Capability) (a : Z) : Capability :=
  mkCapability (_nwid c) (_ts c) (_id c) (_maxCustodyChainLength c) (_rules c)
    (alter (fun k => mkCustody a (from k) (signature k)) (pred (length (chain c))) (_custody c)).

Lemma links_ok_last msg l k a : forall holder,
  a <> 0 -> links_ok msg holder (l ++ [k]) -> links_ok msg holder (l ++ [mkCustody a (from k) (signature k)]).
Proof.
  induction l as [|c l IH]; intros holder Ha; cbn [app links_ok]; [unfold link_ok; simpl; naive_solver|].
  intros [? ?]. split; [done|by apply IH].
Qed.

Lemma issued_loop_app l k cs : forall z,
  Forall (fun c => to c <> 0) l -> to k <> 0 -> (forall c, c ∈ cs -> to c = 0) -> issued_loop z (l ++ k :: cs) = to k.
Proof.
  unfold Address.nonzero. induction l as [|c l IH]; intros z Hl Hk Hcs; cbn [app issued_loop]; unfold Address.nonzero in *.
  - rewrite (proj2 (Z.eqb_neq _ _)) by done. cbn [negb]. destruct cs as [|c cs]; [done|]. cbn [issued_loop].
    unfold Address.nonzero. by rewrite (Hcs c) by left.
  - apply list.Forall_cons in Hl as [Hc Hl]. rewrite (proj2 (Z.eqb_neq (to c) _)) by done. cbn [negb]. by apply IH.
Qed.

Lemma chain_of_all_nonzero n : forall cs, Forall (fun c => to c <> 0) (chain_of n cs).
Proof.
  induction n as [|n IH]; intros [|c cs]; cbn [chain_of]; try constructor. unfold Address.nonzero.
  destruct (Z.eqb_spec (to c) 0); cbn [negb]; constructor; [done|apply IH].
Qed.

Lemma chain_of_prefix n : forall cs, chain_of n cs ++ drop (length (chain_of n cs)) cs = cs.
Proof. induction n as [|n IH]; intros [|c cs]; cbn [chain_of]; try done. case_match; [|done]. simpl. by rewrite IH. Qed.

Lemma length_chain_of n : forall cs, (length (chain_of n cs) <= n)%nat.
Proof. induction n as [|n IH]; intros [|c cs]; cbn [chain_of]; simpl; try lia. case_match; simpl; [|lia]. specialize (IH cs). lia. Qed.

(** C11. A capability verifies exactly when its chain of custody has an entry and leads from the network's
    controller over the addresses the entries were given to, every entry signed, over the capability's content,
    by the known identity that gives it; whatever the entries hold, [verify] does not leave the custody array and
    the buffer for the signed form is large enough. *)
Theorem capability_verify_spec c :
  ok c ->
  (verify c = Ok VOk <-> chain c <> [] /\ links_ok (tbs c) (controllerFor (_nwid c)) (chain c)) /\ safe (verify c).
Proof.
  intros Hok. split; [by apply verify_iff|]. pose proof Hok as (_ & _ & _ & Hm & Hr & Hrl & Hcl & _).
  unfold verify, ZT_MAX_CAPABILITY_CUSTODY_CHAIN_LENGTH.
  rewrite (proj2 (Z.ltb_ge _ 1)), (proj2 (Z.ltb_ge 7 _)) by lia. cbn [orb].
  destruct (serialize_tbs c Hr Hrl) as (b & -> & ->).
  assert (forall cs n p, (n <= length cs)%nat -> safe (verify_chain (_nwid c) (tbs c) p cs n)) as Hs; [|apply Hs; lia].
  induction cs as [|k cs IH]; intros [|n] p Hl; simpl in Hl; try lia; try done.
  specialize (IH n (Some (to k)) ltac:(lia)). cbn [verify_chain]. by repeat case_match.
Qed.

(** The address a capability was issued to is not covered by any signature of its chain: whoever holds a valid
    capability can put another address into the last entry, and the result verifies as issued to that address. *)
Theorem capability_recipient_unsigned c a :
  ok c -> proper c -> verify c = Ok VOk -> Address.ok a -> a <> 0 ->
  ok (readdress c a) /\ verify (readdress c a) = Ok VOk /\ issuedTo (readdress c a) = a.
Proof.
  intros Hok Hp Hv Ha Hnz. pose proof (proj1 (verify_iff c Hok) Hv) as [Hne Hlinks].
  destruct (exists_last Hne) as (l & k & Hch).
  assert (_custody c = l ++ k :: drop (length (chain c)) (_custody c)) as Hcu.
  { rewrite <- (chain_of_prefix (Z.to_nat (_maxCustodyChainLength c)) (_custody c)) at 1. fold (chain c).
    rewrite Hch at 1. by rewrite <- app_assoc. }
  set (k' := mkCustody a (from k) (signature k)). set (rest := drop (length (chain c)) (_custody c)) in *.
  assert (_custody (readdress c a) = l ++ k' :: rest) as Hcu'.
  { simpl. rewrite Hch, length_app, Nat.add_1_r. cbn [Init.Nat.pred]. rewrite Hcu at 1.
    by rewrite <- (Nat.add_0_r (length l)), alter_app_r. }
  pose proof (chain_of_all_nonzero (Z.to_nat (_maxCustodyChainLength c)) (_custody c)) as Hnzs. fold (chain c) in Hnzs.
  rewrite Hch in Hnzs. apply Forall_app in Hnzs as [Hl Hk]. apply list.Forall_cons in Hk as [Hk _].
  assert (forall x, x ∈ rest -> to x = 0) as Hz.
  { unfold rest. rewrite Hp. intros x Hx. apply subseteq_drop in Hx. by apply elem_of_replicate_inv in Hx as ->. }
  pose proof (length_chain_of (Z.to_nat (_maxCustodyChainLength c)) (_custody c)) as Hlen. fold (chain c) in Hlen.
  rewrite Hch, length_app in Hlen. simpl in Hlen.
  assert (chain (readdress c a) = l ++ [k']) as Hch'.
  { unfold chain. rewrite Hcu'. change (k' :: rest) with ([k'] ++ rest). rewrite app_assoc.
    apply chain_of_nonzero; [|rewrite length_app; simpl; lia|done]. apply Forall_app; split; [done|]. by constructor. }
  assert (ok (readdress c a)) as Hok'.
  { destruct Hok as (? & ? & ? & ? & ? & ? & Hcl & Hcok). rewrite Hcu in Hcl, Hcok. apply Forall_app in Hcok as [Hc1 Hc2].
    apply list.Forall_cons in Hc2 as [(? & ? & ?) Hc2].
    do 6 (split; [done|]). rewrite Hcu'. split; [rewrite length_app in *; done|].
    apply Forall_app; split; [done|]. by constructor. }
  split_and!; [done| |].
  - apply (verify_iff _ Hok'). rewrite Hch'. split; [by destruct l|]. rewrite Hch in Hlinks. by apply links_ok_last.
  - unfold issuedTo. rewrite Hcu'. by apply issued_loop_app.
Qed.
End Chain.

(** ** Evaluation *)

Definition example_cap : Capability :=
  let c := Capability_new (replicate 7 (replicate 96 0)) 7 0x89e92ceee5000001 1700000000000 3
             [mkRule 37 (VEtherType 0x800); mkRule 1 VNone] in
  match sign (H := toy_crypto) c example_id 0x1122334455 with Ok (Some c) => c | _ => c end.

Lemma example_cap_ok : ok example_cap.
Proof.
  unfold ok. do 4 (split; [by_compute|]). split.
  { repeat (apply Forall_cons_2; [split; [split; by_compute|]; vm_compute; repeat split; try done|]). constructor. }
  split; [by_compute|]. split; [by_compute|]. vm_compute _custody.
  repeat (apply Forall_cons_2; [split_and!; by_compute|]). constructor.
Qed.

Lemma capability_verify_spec_witness :
  verify (H := toy_crypto) (H0 := toy_env) example_cap = Ok VOk.
Proof.
  apply (capability_verify_spec (H := toy_crypto) (H0 := toy_env) example_cap example_cap_ok).
  split; [by_compute|]. vm_compute chain. split; [|exact I]. split_and!; by_compute.
Defined.

Lemma capability_recipient_unsigned_witness :
  let stolen := readdress example_cap 0x66778899aa in
  issuedTo example_cap = 0x1122334455 /\
  verify (H := toy_crypto) (H0 := toy_env) stolen = Ok VOk /\ issuedTo stolen = 0x66778899aa.
Proof.
  split; [by_compute|].
  apply (capability_recipient_unsigned (H := toy_crypto) (H0 := toy_env) example_cap 0x66778899aa);
    [exact example_cap_ok|vm_compute; reflexivity|vm_compute; reflexivity|by_compute|by_compute].
Defined.
