(* ===== verification/CredentialSet.v ===== *)
(** * The five credentials together

    What holds for every kind of credential a node can be sent (VERB_NETWORK_CREDENTIALS): the wire form
    is read back, parsing arbitrary bytes is safe, the signed bytes determine what is signed, and what the
    controller signs is accepted. *)

From S2P Require Import Prelude Buffer Serial Address InetAddress Identity Rule Credential Credentials Capability.

Inductive credential :=
  | CCom (c : COM.COM) | CCapability (c : Capability) | CTag (c : Tag.Tag) | CCoo (c : COO.COO)
  | CRevocation (c : Revocation.Revocation).

#[export] Instance credential_eq_dec : EqDecision credential.
Proof. solve_decision. Defined.

Definition credential_type (c : credential) : Type_ :=
  match c with
  | CCom _ => CREDENTIAL_TYPE_COM | CCapability _ => CREDENTIAL_TYPE_CAPABILITY | CTag _ => CREDENTIAL_TYPE_TAG
  | CCoo _ => CREDENTIAL_TYPE_COO | CRevocation _ => CREDENTIAL_TYPE_REVOCATION
  end.

Definition com_nil : COM.COM := COM.mkCOM 0 [] (replicate 96 0).

Definition write (b : Buffer) (c : credential) : outcome Buffer :=
  match c with
  | CCom c => COM.serialize b c | CCapability c => Capability.serialize b c false | CTag c => Tag.serialize b c false
  | CCoo c => COO.serialize b c false | CRevocation c => Revocation.serialize b c false
  end.

Definition tagged {A} (k : A -> credential) (m : outcome (A * Z)) : outcome (credential * Z) := '(a, n) ← m; Ok (k a, n).

Definition parse (t : Type_) (b : Buffer) (p : Z) : outcome (credential * Z) :=
  match t with
  | CREDENTIAL_TYPE_COM => tagged CCom (COM.deserialize com_nil b p)
  | CREDENTIAL_TYPE_CAPABILITY => tagged CCapability (Capability.deserialize b p)
  | CREDENTIAL_TYPE_TAG => tagged CTag (Tag.deserialize b p)
  | CREDENTIAL_TYPE_COO => tagged CCoo (COO.deserialize b p)
  | CREDENTIAL_TYPE_REVOCATION => tagged CRevocation (Revocation.deserialize b p)
  | CREDENTIAL_TYPE_NULL => Throw InvalidType
  end.

(** What parsing gives. *)
Definition wf (c : credential) : Prop :=
  match c with
  | CCom c => COM.ok c /\ COM.sorted_from 0 (COM._qualifiers c) /\ (COM._signedBy c = 0 -> COM._signature c = replicate 96 0)
  | CCapability c => Capability.ok c /\ Capability.proper c
  | CTag c => Tag.ok c
  | CCoo c => COO.ok c /\ COO.proper c
  | CRevocation c => Revocation.ok c
  end.

(** No more things than the arrays have room for. *)
Definition in_arrays (c : credential) : Prop :=
  match c with CCoo c => COO._thingCount c <= 16 | _ => True end.

Definition enc (c : credential) : list Z :=
  match c with
  | CCom c => COM.enc c | CCapability c => Capability.enc c | CTag c => Tag.enc c | CCoo c => COO.enc c
  | CRevocation c => Revocation.enc c
  end.

(** The credential as it arrives: of a capability the parts of rules that are not transmitted are lost ([wire_rule]). *)
Definition wire (c : credential) : credential := match c with CCapability c => CCapability (Capability.wire c) | _ => c end.

Lemma write_wire b c : write b (wire c) = write b c.
Proof. destruct c; [done| |done..]. apply Capability.serialize_wire. Qed.

Lemma wire_id c : wf c -> wire c = c.
Proof. destruct c; [done| |done..]. intros [Hc _]. cbn [wire]. by rewrite Capability.capability_wire_id. Qed.

Lemma write_writes c b : wf c -> in_arrays c -> buf_ok b -> writes b (enc c) (write b c).
Proof.
  destruct c as [c|c|c|c|c]; cbn [wf in_arrays enc write]; intros Hw Ha Hb.
  - apply COM.com_writes_wire; [apply Hw|done].
  - apply Capability.capability_writes_wire; [apply Hw|done].
  - by apply Tag.tag_writes_wire.
  - apply COO.coo_writes_wire; [apply Hw|done..].
  - by apply Revocation.revocation_writes_wire.
Qed.

Lemma parse_reads c b p rest :
  wf c -> buf_ok b -> rest_at b p (enc c ++ rest) -> parse (credential_type c) b p = Ok (c, zlen (enc c)).
Proof.
  destruct c as [c|c|c|c|c]; cbn [wf enc credential_type parse]; intros Hw Hb Hr.
  - by rewrite (COM.com_reads c com_nil b p rest) by (apply Hw || done).
  - by rewrite (Capability.capability_reads c b p rest) by (apply Hw || done).
  - by rewrite (Tag.tag_reads c b p rest).
  - by rewrite (COO.coo_reads c b p rest) by (apply Hw || done).
  - by rewrite (Revocation.revocation_reads c b p rest).
Qed.

Lemma returns_tagged {A} (k : A -> credential) (P : A * Z -> Prop) (Q : credential * Z -> Prop) m :
  returns P m -> (forall a n, P (a, n) -> Q (k a, n)) -> returns Q (tagged k m).
Proof. intros Hm Hq. unfold tagged. eapply returns_bind; [done|]. intros [a n] Hp. by apply Hq. Qed.

Lemma parse_returns t b p :
  buf_ok b -> pos_ok p ->
  returns (fun '(c, n) => wf c /\ credential_type c = t /\ 1 <= n /\ p + n <= _l b) (parse t b p).
Proof.
  intros Hb Hp. destruct t; cbn [parse]; [done|..]; (eapply returns_tagged;
    [first [apply COM.com_safe; [done|done|by_compute]|by apply Capability.deserialize_safe|by apply Tag.tag_safe
           |by apply COO.coo_safe|by apply Revocation.revocation_safe]|]); intros c n Hc; cbn [wf credential_type] in *; intuition lia.
Qed.


(** ** What the signatures cover *)

Definition tbs (c : credential) : list Z :=
  match c with
  | CCom c => COM.tbs c | CCapability c => Capability.tbs c | CTag c => Tag.tbs c | CCoo c => COO.tbs c
  | CRevocation c => Revocation.tbs c
  end.

(** The content of a credential: everything but the signatures, the capability's custody addresses and the
    address of the COM's signer. *)
Definition content (c : credential) : credential :=
  match c with
  | CCom c => CCom (COM.mkCOM 0 (COM._qualifiers c) (replicate 96 0))
  | CCapability c => CCapability (mkCapability (_nwid c) (_ts c) (_id c) (_maxCustodyChainLength c) (_rules c) (replicate 7 no_custody))
  | CTag c => CTag (Tag.mkTag (Tag._id c) (Tag._value c) (Tag._networkId c) (Tag._ts c) (Tag._issuedTo c) (Tag._signedBy c) (replicate 96 0))
  | CCoo c => CCoo (COO.mkCOO (COO._networkId c) (COO._ts c) (COO._flags c) (COO._id c) (COO._thingCount c) (COO._thingTypes c)
                      (COO._thingValues c) (COO._issuedTo c) (COO._signedBy c) (replicate 96 0))
  | CRevocation c => CRevocation (Revocation.mkRevocation (Revocation._id c) (Revocation._credentialId c) (Revocation._networkId c)
                      (Revocation._threshold c) (Revocation._flags c) (Revocation._target c) (Revocation._signedBy c)
                      (Revocation._type c) (replicate 96 0))
  end.

Lemma zero_sig_ok : sig_ok (replicate 96 0).
Proof. split; by_compute. Qed.

Lemma content_wf c : wf c -> wf (content c).
Proof.
  pose proof zero_sig_ok. destruct c as [c|c|c|c|c]; cbn [wf content].
  - intros [(_ & ? & ? & _) [? _]]. split_and!; try done; by_compute.
  - intros [(? & ? & ? & ? & ? & ? & _) _]. split; [do 6 (split; [done|]); split; [done|]|].
    + cbn [_custody]. apply Forall_replicate. split_and!; by_compute.
    + unfold proper, chain. simpl. by destruct (Z.to_nat (_maxCustodyChainLength c)).
  - by intros (? & ? & ? & ? & ? & ? & _).
  - by intros [(? & ? & ? & ? & ? & ? & ? & ? & ? & ? & ? & _) ?].
  - by intros (? & ? & ? & ? & ? & ? & ? & ? & _).
Qed.

Lemma framed_inj x y : 
  be_bytes 8 sign_marker ++ x ++ be_bytes 2 0 ++ be_bytes 8 sign_marker =
  be_bytes 8 sign_marker ++ y ++ be_bytes 2 0 ++ be_bytes 8 sign_marker -> x = y.
Proof. intros E. by apply app_inv_head, app_inv_tail in E. Qed.

(** The signed bytes determine the wire form of the content. *)
Lemma tbs_enc c1 c2 :
  wf c1 -> wf c2 -> credential_type c1 = credential_type c2 -> tbs c1 = tbs c2 -> enc (content c1) = enc (content c2).
Proof.
  intros H1 H2 Ht. destruct c1 as [c|c|c|c|c], c2 as [d|d|d|d|d]; try discriminate Ht;
    cbn [wf tbs content enc] in *; intros E; clear Ht.
  - unfold COM.enc, COM.body, COM.tbs, COM._qualifierCount in *. cbn [COM._qualifiers COM._signedBy].
    assert (zlen (COM._qualifiers c) = zlen (COM._qualifiers d)) as ->.
    { pose proof (COM.zlen_qualifiers (COM._qualifiers c)) as Hz. rewrite E, COM.zlen_qualifiers in Hz. lia. }
    by rewrite E.
  - apply framed_inj in E. unfold Capability.enc, Capability.body, chain, ruleCount in *. cbn [_nwid _ts _id _maxCustodyChainLength _rules _custody].
    rewrite E. by destruct (Z.to_nat (_maxCustodyChainLength c)), (Z.to_nat (_maxCustodyChainLength d)).
  - apply framed_inj in E. unfold Tag.enc. by f_equal.
  - apply framed_inj in E. unfold COO.enc. by f_equal.
  - apply framed_inj in E. unfold Revocation.enc. by f_equal.
Qed.

Lemma enc_bytes c : wf c -> bytes_ok (enc c).
Proof.
  destruct c; cbn [wf enc]; intros Hw;
    [apply COM.com_bytes|apply Capability.capability_bytes|apply Tag.tag_bytes|apply COO.coo_bytes|apply Revocation.revocation_bytes]; apply Hw.
Qed.

Lemma zlen_tbs c :
  wf c ->
  match c with
  | CCom c => zlen (COM.tbs c) = 24 * zlen (COM._qualifiers c)
  | CCapability c => True
  | CTag c => zlen (Tag.tbs c) = 52
  | CCoo c => exists n, 0 <= n <= 16 /\ zlen (COO.tbs c) = 58 + 17 * n
  | CRevocation c => zlen (Revocation.tbs c) = 69
  end.
Proof.
  destruct c as [c|c|c|c|c]; cbn [wf]; intros Hw; [apply COM.zlen_qualifiers|done|..].
  - unfold Tag.tbs, Tag.body. by autorewrite with zlen.
  - destruct Hw as [Hw _]. exists (zlen (COO.things c)). split.
    + unfold zlen. rewrite (COO.length_things c Hw). pose proof (zlen_nonneg (COO.things c)). lia.
    + unfold COO.tbs, COO.body. autorewrite with zlen. rewrite COO.zlen_things_enc by (by apply COO.things_wf). lia.
  - unfold Revocation.tbs, Revocation.body. by autorewrite with zlen.
Qed.

Lemma zlen_enc c : wf c -> zlen (enc (content c)) < 2 ^ 31.
Proof.
  intros Hw. pose proof (zlen_sig_enc _ zero_sig_ok) as Hz. destruct c as [c|c|c|c|c]; cbn [content enc wf] in *.
  - destruct Hw as [(_ & _ & Hn & _) _]. unfold COM.enc, COM.body, COM.tbs, COM._qualifierCount, COM.ZT_NETWORK_COM_MAX_QUALIFIERS in *.
    cbn [COM._qualifiers COM._signedBy]. autorewrite with zlen. rewrite COM.zlen_qualifiers. cbn. lia.
  - destruct Hw as [(_ & _ & _ & _ & Hr & Hl & _) _]. pose proof (zlen_rules _ Hr).
    unfold Capability.enc, Capability.body, chain. cbn [_nwid _ts _id _maxCustodyChainLength _rules _custody].
    assert (chain_of (Z.to_nat (_maxCustodyChainLength c)) (replicate 7 no_custody) = []) as -> by (by destruct (Z.to_nat _)).
    unfold chain_enc. autorewrite with zlen. unfold zlen in *. simpl in *. lia.
  - unfold Tag.enc, Tag.body. cbn [Tag._signature]. autorewrite with zlen. rewrite Hz. lia.
  - destruct Hw as [Hw _]. unfold COO.enc, COO.body. cbn [COO._signature]. autorewrite with zlen. rewrite Hz.
    unfold COO.things at 1. cbn [COO._thingCount COO._thingTypes COO._thingValues]. fold (COO.things c).
    rewrite COO.zlen_things_enc by (by apply COO.things_wf). unfold zlen. rewrite (COO.length_things c Hw). lia.
  - unfold Revocation.enc, Revocation.body. cbn [Revocation._signature]. autorewrite with zlen. rewrite Hz. lia.
Qed.

Lemma content_type c : credential_type (content c) = credential_type c.
Proof. by destruct c. Qed.

Lemma content_eq c1 c2 :
  wf c1 -> wf c2 -> credential_type c1 = credential_type c2 -> tbs c1 = tbs c2 -> content c1 = content c2.
Proof.
  intros H1 H2 Ht E. pose proof (content_wf _ H1) as W1. pose proof (content_wf _ H2) as W2.
  apply (reads_injective (fun c => wf c /\ credential_type c = credential_type c1) enc (parse (credential_type c1))).
  - intros c b p rest [Hc <-] Hb Hr. by apply parse_reads with rest.
  - split; [done|apply content_type].
  - split; [done|]. by rewrite content_type.
  - by apply enc_bytes.
  - by apply zlen_enc.
  - by apply tbs_enc.
Qed.

(** What [verify] of each kind gives to [Identity::verify]. *)
Definition signed_data (c : credential) : outcome (list Z) :=
  match c with
  | CCom c => Ok (COM.tbs c)
  | CCapability c => data <$> Capability.serialize (tmp_buffer (Capability.sizeof * 2)) c true
  | CTag c => data <$> Tag.serialize (tmp_buffer (Tag.sizeof * 2)) c true
  | CCoo c => data <$> COO.serialize (tmp_buffer (COO.sizeof + 64)) c true
  | CRevocation c => data <$> Revocation.serialize (tmp_buffer (Revocation.sizeof + 64)) c true
  end.

Lemma signed_data_tbs c : wf c -> in_arrays c -> signed_data c = Ok (tbs c).
Proof.
  destruct c as [c|c|c|c|c]; cbn [wf in_arrays signed_data tbs]; intros Hw Ha; [done|..].
  - destruct Hw as [(_ & _ & _ & _ & Hr & Hl & _) _]. by destruct (serialize_tbs c Hr Hl) as (b & -> & <-).
  - by destruct (Tag.tag_tbs_buffer (Tag.sizeof * 2) c ltac:(by_compute)) as (b & -> & <-).
  - by destruct (COO.coo_tbs_buffer (COO.sizeof + 64) c (proj1 Hw) Ha ltac:(by_compute)) as (b & -> & <-).
  - by destruct (Revocation.revocation_tbs_buffer (Revocation.sizeof + 64) c ltac:(by_compute)) as (b & -> & <-).
Qed.


(** Tags and capabilities are not told apart by what is signed: the four bytes of a tag's value and its two
    addresses read as the rule count, the rules and the maximum chain length of a capability. With a controller
    whose address is 0x0100010001, every tag 0x31805 it signed for a node is the signature of a capability,
    for anybody, of the rules "from that node, accept, accept". *)
Theorem tag_signature_is_capability_signature `{Crypto} `{Env} id nw ts rcpt a sg :
  rng 32 id -> rng 24 nw -> srng 64 ts -> Address.ok rcpt -> sig_ok sg -> Address.ok a -> a <> 0 ->
  let nwid := 0x0100010001 * 2 ^ 24 + nw in
  let tag := Tag.mkTag id 0x31805 nwid ts rcpt 0x0100010001 sg in
  let cap := mkCapability nwid ts id 1 [mkRule MATCH_SOURCE_ZEROTIER_ADDRESS (VZt rcpt); mkRule ACTION_ACCEPT VNone; mkRule ACTION_ACCEPT VNone]
               (mkCustody a 0x0100010001 sg :: replicate 6 no_custody) in
  Tag.verify tag = Ok VOk -> wf (CTag tag) /\ wf (CCapability cap) /\ tbs (CTag tag) = tbs (CCapability cap) /\
  Capability.verify cap = Ok VOk /\ issuedTo cap = a.
Proof.
  intros Hid Hnw Hts Hr Hsg Ha Hnz nwid tag cap Hv.
  assert (rng 64 nwid) as Hn by (unfold rng, nwid in *; lia).
  assert (wf (CTag tag)) as Ht by (split_and!; done || by_compute).
  assert (Tag.tbs tag = Capability.tbs cap) as E.
  { unfold Tag.tbs, Tag.body, Capability.tbs, Capability.body, ruleCount. cbn -[be_bytes sign_marker].
    rewrite <- !app_assoc. do 4 f_equal.
    assert (rule_enc (mkRule MATCH_SOURCE_ZEROTIER_ADDRESS (VZt rcpt)) = [24; 5] ++ be_bytes 5 rcpt) as ->.
    { unfold rule_enc, value_enc. cbn [payload v]. by rewrite Address.of_int_id. }
    reflexivity. }
  assert (Address.nonzero a = true) as Hnza by (unfold Address.nonzero; by rewrite (proj2 (Z.eqb_neq a 0)) by done).
  assert (chain cap = [mkCustody a 0x0100010001 sg]) as Hch.
  { unfold chain. cbn [_maxCustodyChainLength _custody cap]. change (Z.to_nat 1) with 1%nat. cbn [chain_of to]. by rewrite Hnza. }
  assert (wf (CCapability cap)) as Hc.
  { split; [|unfold proper; by rewrite Hch]. unfold Capability.ok. split; [exact Hn|]. split; [exact Hts|]. split; [exact Hid|]. split; [cbn [_maxCustodyChainLength cap]; lia|]. split; [|split; [simpl; lia|split; [done|]]].
    - repeat (apply Forall_cons_2; [split; [split; by_compute|done]|]). constructor.
    - apply Forall_cons_2; [split_and!; [exact Ha|by_compute|apply Hsg]|]. apply Forall_replicate. split_and!; by_compute. }
  split_and!; [done..|cbn [tbs]; exact E| |].
  - apply (verify_iff _ (proj1 Hc)). rewrite Hch. split; [done|]. split; [|done]. rewrite <- E.
    unfold Tag.verify in Hv. destruct (Tag.tag_tbs_buffer (Tag.sizeof * 2) tag ltac:(by_compute)) as (b & Eb & Hd). rewrite Eb in Hv.
    apply verify_signed_ok in Hv as (_ & Hctl & Hid' & Hver). rewrite Hd in Hver. cbn [Tag._signedBy Tag._signature Tag._networkId tag] in *.
    unfold link_ok. cbn [to from signature _nwid cap]. rewrite <- Hctl.
    split_and!; [exact Hnz|by_compute|reflexivity|exact Hid'|exact Hver].
  - unfold issuedTo. cbn [_custody cap issued_loop to]. rewrite Hnza. reflexivity.
Qed.

(** ** Signing and verifying *)

Section Sign.
Context `{Crypto} `{Env}.

Definition verify (c : credential) : outcome verify_result :=
  match c with
  | CCom c => Ok (COM.verify c) | CCapability c => Capability.verify c | CTag c => Tag.verify c | CCoo c => COO.verify c
  | CRevocation c => Revocation.verify c
  end.

Definition mapped {A} (k : A -> credential) (m : outcome (option A)) : outcome (option credential) :=
  r ← m; Ok (match r with Some c => Some (k c) | None => None end).

(** None: the member function returns false. *)
Definition sign (signer : Identity) (rcpt : Z) (c : credential) : outcome (option credential) :=
  match c with
  | CCom c => '(c, ok) ← COM.sign c signer; Ok (if (ok : bool) then Some (CCom c) else None)
  | CCapability c => mapped CCapability (Capability.sign c signer rcpt)
  | CTag c => mapped CTag (Tag.sign c signer)
  | CCoo c => mapped CCoo (COO.sign c signer)
  | CRevocation c => mapped CRevocation (Revocation.sign c signer)
  end.

Definition network (c : credential) : Z :=
  match c with
  | CCom c => COM.networkId c | CCapability c => _nwid c | CTag c => Tag._networkId c | CCoo c => COO._networkId c
  | CRevocation c => Revocation._networkId c
  end.

(** A capability that has not been given to anybody. *)
Definition unissued (c : credential) : Prop :=
  match c with CCapability c => _custody c = replicate 7 no_custody | _ => True end.

(** Capability and COM sign without asking whether there is a private key. *)
Definition sign_aborts (c : credential) : bool :=
  match c with CCom _ | CCapability _ => true | _ => false end.

(** The signer is the controller of the network, and the node knows its identity. *)
Definition known_controller (signer : Identity) (nwid : Z) : Prop :=
  address signer <> 0 /\ address signer = controllerFor nwid /\ identity_bool (getIdentity (address signer)) = true /\
  _publicKey (getIdentity (address signer)) = _publicKey signer.

(** What the key pair signs verifies. *)
Definition key_pair (sk pk : list Z) : Prop := forall m, ecc_verify pk m (ecc_sign sk pk m) = true.

Lemma signed_verifies signer sk nwid (m m' : outcome Buffer) bs :
  known_controller signer nwid -> key_pair sk (_publicKey signer) -> _privateKey signer = Some sk ->
  (exists b, m = Ok b /\ data b = bs) -> (exists b, m' = Ok b /\ data b = bs) ->
  exists s, sign_with signer m = Ok s /\ verify_signed (address signer) nwid m' s = Ok VOk.
Proof.
  intros (Hnz & Hc & Hi & Hp) Hk Hs (b & -> & <-) (b' & -> & Hd). unfold sign_with, Identity.sign. cbn [mbind outcome_bind].
  rewrite Hs. eexists; split; [done|]. apply verify_signed_ok. split_and!; try done. unfold Identity.verify. by rewrite Hp, Hd.
Qed.

Lemma com_sign_verifies signer sk c :
  COM.ok c -> known_controller signer (COM.networkId c) -> key_pair sk (_publicKey signer) -> _privateKey signer = Some sk ->
  exists c', COM.sign c signer = Ok (c', true) /\ COM.networkId c' = COM.networkId c /\ COM.verify c' = VOk.
Proof.
  intros (_ & _ & Hn & _) (Hnz & Hc & Hi & Hp) Hk Hs. unfold COM.sign. rewrite (proj2 (Z.ltb_ge _ _)) by done.
  unfold Identity.sign. rewrite Hs. eexists; split; [done|]. split; [done|].
  unfold COM.verify, Address.nonzero, COM.networkId, COM._qualifierCount in *. cbn [COM._signedBy COM._qualifiers COM._signature].
  rewrite (proj2 (Z.eqb_neq _ 0)), <- Hc, Z.eqb_refl, (proj2 (Z.ltb_ge _ _)) by done. cbn [negb orb]. rewrite Hi. cbn [negb].
  unfold Identity.verify. rewrite Hp. unfold COM.tbs. cbn [COM._qualifiers]. by rewrite Hk.
Qed.

Lemma capability_sign_verifies signer sk rcpt c :
  Capability.ok c -> _custody c = replicate 7 no_custody -> rcpt <> 0 -> known_controller signer (_nwid c) ->
  key_pair sk (_publicKey signer) -> _privateKey signer = Some sk ->
  exists c', Capability.sign c signer rcpt = Ok (Some c') /\ _nwid c' = _nwid c /\ Capability.verify c' = Ok VOk.
Proof.
  intros (_ & _ & _ & Hm & Hru & Hrl & _) Hun Hr (Hnz & Hc & Hi & Hp) Hk Hs. destruct (serialize_tbs c Hru Hrl) as (b & Eb & Hd).
  unfold Capability.sign, ZT_MAX_CAPABILITY_CUSTODY_CHAIN_LENGTH. rewrite Eb, Hun. unfold Identity.sign. rewrite Hs. cbn [mbind outcome_bind].
  set (k := mkCustody rcpt (address signer) (ecc_sign sk (_publicKey signer) (data b))).
  destruct (Z.to_nat (Z.min (_maxCustodyChainLength c) 7)) as [|n] eqn:En; [lia|].
  cbn [sign_chain replicate]. eexists; split; [done|]. split; [done|]. unfold Capability.verify, ZT_MAX_CAPABILITY_CUSTODY_CHAIN_LENGTH.
  match goal with |- context [mkCapability _ _ _ _ _ ?cs] =>
    destruct (serialize_tbs (mkCapability (_nwid c) (_ts c) (_id c) (_maxCustodyChainLength c) (_rules c) cs) Hru Hrl) as (b' & Eb' & Hd') end.
  rewrite Eb'. cbn [_maxCustodyChainLength _nwid _custody].
  rewrite (proj2 (Z.ltb_ge _ 1)), (proj2 (Z.ltb_ge 7 _)) by lia. cbn [orb].
  apply verify_chain_first; [simpl; lia|]. destruct (Z.to_nat (_maxCustodyChainLength c)) as [|m] eqn:Em; [lia|].
  assert (chain_of (S m) (k :: replicate 6 no_custody) = [k]) as Hch.
  { cbn [chain_of k to]. unfold Address.nonzero. rewrite (proj2 (Z.eqb_neq rcpt 0)) by done. by destruct m. }
  cbn [replicate] in Hch. rewrite Hch. split; [done|]. split; [|done]. unfold link_ok. cbn [to from signature k].
  rewrite <- Hc. split_and!; try done. unfold Identity.verify. rewrite Hp, Hd'. change (Capability.tbs _) with (Capability.tbs c). rewrite <- Hd. apply Hk.
Qed.

(** C9. What the controller signs verifies: if the signer is the network's controller, its key pair works and its
    identity is known, then signing a credential of any kind succeeds and the result verifies. Without a private key
    signing a tag, a certificate of ownership or a revocation returns false, and signing a capability or a
    COM ends the process. *)
Theorem sign_verifies signer rcpt c :
  wf c -> in_arrays c -> unissued c -> Address.ok (address signer) -> rcpt <> 0 -> known_controller signer (network c) ->
  match _privateKey signer with
  | Some sk => key_pair sk (_publicKey signer) ->
      exists c', sign signer rcpt c = Ok (Some c') /\ network c' = network c /\ verify c' = Ok VOk
  | None => sign signer rcpt c = if sign_aborts c then Undef else Ok None
  end.
Proof.
  intros Hw Ha Hun Hsa Hr Hc. destruct (_privateKey signer) as [sk|] eqn:Ek.
  - intros Hk. destruct c as [c|c|c|c|c]; cbn [wf in_arrays unissued network sign] in *.
    + destruct (com_sign_verifies signer sk c) as (c' & -> & ? & Hv); [apply Hw|done..|].
      exists (CCom c'). cbn [verify]. by rewrite Hv.
    + destruct (capability_sign_verifies signer sk rcpt c) as (c' & -> & ? & Hv); [apply Hw|done..|]. by exists (CCapability c').
    + unfold Tag.sign, hasPrivate. rewrite Ek.
      match goal with |- context [Tag.serialize _ ?t true] =>
        destruct (signed_verifies _ _ _ _ _ _ Hc Hk Ek (Tag.tag_tbs_buffer (Tag.sizeof + 64) t ltac:(by_compute))
          (Tag.tag_tbs_buffer (Tag.sizeof * 2) t ltac:(by_compute))) as (s & -> & Hv) end.
      eexists; split; [reflexivity|]. split; [done|]. exact Hv.
    + destruct Hw as [Hw _]. unfold COO.sign, hasPrivate. rewrite Ek.
      match goal with |- context [COO.serialize _ ?t true] => assert (COO.ok t) as Hw' by (destruct Hw; split_and!; intuition) end.
      match goal with |- context [COO.serialize _ ?t true] =>
        destruct (signed_verifies _ _ _ _ _ _ Hc Hk Ek (COO.coo_tbs_buffer (COO.sizeof + 64) t Hw' Ha ltac:(by_compute))
          (COO.coo_tbs_buffer (COO.sizeof + 64) t Hw' Ha ltac:(by_compute))) as (s & -> & Hv) end.
      eexists; split; [reflexivity|]. split; [done|]. rewrite <- (COO.serialize_resigned _ _ s) in Hv. exact Hv.
    + unfold Revocation.sign, hasPrivate. rewrite Ek.
      match goal with |- context [Revocation.serialize _ ?t true] =>
        destruct (signed_verifies _ _ _ _ _ _ Hc Hk Ek (Revocation.revocation_tbs_buffer (Revocation.sizeof + 64) t ltac:(by_compute))
          (Revocation.revocation_tbs_buffer (Revocation.sizeof + 64) t ltac:(by_compute))) as (s & -> & Hv) end.
      eexists; split; [reflexivity|]. split; [done|]. exact Hv.
  - destruct c as [c|c|c|c|c]; cbn [wf in_arrays unissued network sign sign_aborts] in *;
      [| |unfold Tag.sign|unfold COO.sign|unfold Revocation.sign]; try (unfold hasPrivate; by rewrite Ek).
    + unfold COM.sign, Identity.sign. rewrite Ek. by destruct (_ <? _).
    + destruct Hw as [(_ & _ & _ & Hm & Hru & Hrl & _) _]. destruct (serialize_tbs c Hru Hrl) as (b & Eb & Hd).
      unfold Capability.sign, ZT_MAX_CAPABILITY_CUSTODY_CHAIN_LENGTH. rewrite Eb, Hun. unfold Identity.sign. rewrite Ek.
      destruct (Z.to_nat (Z.min (_maxCustodyChainLength c) 7)) as [|n] eqn:En; [lia|]. done.
Qed.
End Sign.

(** The count of things in a certificate of ownership is not checked when it is parsed: any 16-bit count is
    accepted, while the arrays have 16 entries. Up to 16, [owns] answers whether one of the things starts with the
    value; above, it reads outside the arrays unless one of the 16 matches, and [verify] does so before the signature
    has been looked at. *)
Theorem coo_count_unchecked `{Crypto} `{Env} c t v b p rest :
  wf (CCoo c) -> buf_ok b -> rest_at b p (enc (CCoo c) ++ rest) ->
  parse CREDENTIAL_TYPE_COO b p = Ok (CCoo c, zlen (enc (CCoo c))) /\
  COO._owns c t v =
    (if existsb (fun '(ty, val) => (ty =? COO.Thing_int t) && bool_decide (take (length v) val = v)) (COO.things c) then Ok true
     else if COO._thingCount c <=? 16 then Ok false else Undef) /\
  (COO._thingCount c <= 16 -> safe (COO.verify c)) /\
  (16 < COO._thingCount c -> COO._signedBy c <> 0 -> COO._signedBy c = controllerFor (COO._networkId c) ->
   identity_bool (getIdentity (COO._signedBy c)) = true -> COO.verify c = Undef).
Proof.
  intros Hw Hb Hr. split_and!.
  - exact (parse_reads (CCoo c) b p rest Hw Hb Hr).
  - apply COO.owns_spec, Hw.
  - intros Hn. unfold COO.verify. destruct (COO.coo_tbs_buffer (COO.sizeof + 64) c (proj1 Hw) Hn ltac:(by_compute)) as (b' & -> & _).
    unfold verify_signed. by repeat case_match.
  - intros Hn Hnz Hc Hi. unfold COO.verify. rewrite COO.serialize_undef by (apply Hw || done || by_compute).
    unfold verify_signed, Address.nonzero. rewrite <- Hc, Z.eqb_refl, Hi. by rewrite (proj2 (Z.eqb_neq _ 0)) by done.
Qed.

(** ** Evaluation *)

Definition example_tag : Tag.Tag :=
  match Tag.sign (H := toy_crypto) (Tag.mkTag 1 0x31805 0x89e92ceee5000001 1700000000000 0x1122334455 0 (replicate 96 0)) example_id with
  | Ok (Some t) => t | _ => Tag.Tag_nil end.

Definition example_coo : COO.COO := COO.addThing_mac (COO.addThing_ip (COO.COO_new 0x89e92ceee5000001 5 0x1122334455 9) (IV4 0x0a000001 24)) 0x52abcdef0102.

(** The same with a count of 4000, which names the controller as signer. *)
Definition hostile_coo : COO.COO :=
  COO.mkCOO 0x89e92ceee5000001 5 0 9 4000 COO.no_types COO.no_values 0x1122334455 0x89e92ceee5 (replicate 96 0).

Lemma example_coo_wf : wf (CCoo example_coo).
Proof. split; [|split; reflexivity]. split_and!; by_compute. Qed.

Lemma hostile_coo_wf : wf (CCoo hostile_coo).
Proof. split; [|split; reflexivity]. split_and!; by_compute. Qed.

Lemma example_tag_wf : wf (CTag example_tag).
Proof. split_and!; by_compute. Qed.

Definition example_space : Buffer := mkBuffer (replicate 400 0) 3.

(** The bucket of a PRIORITY rule is lost on the way. *)
Definition priority_capability (bucket : Z) : Capability :=
  mkCapability 0x89e92ceee5000001 1700000000000 7 1 [mkRule ACTION_PRIORITY (VQos bucket); mkRule ACTION_ACCEPT VNone] (replicate 7 no_custody).

Lemma priority_capability_wf : wf (CCapability (priority_capability 0)).
Proof.
  split; [|reflexivity]. unfold Capability.ok. do 4 (split; [by_compute|]). split.
  { repeat (apply list.Forall_cons_2; [split; [split; by_compute|vm_compute; reflexivity]|]). constructor. }
  do 2 (split; [by_compute|]). repeat (apply list.Forall_cons_2; [split_and!; by_compute|]). constructor.
Qed.



Lemma tag_signature_is_capability_signature_witness :
  let ctl := mkIdentity 0x0100010001 (replicate 64 7) (Some (replicate 64 250)) in
  let env : Env := fun a => if a =? 0x0100010001 then ctl else Identity_nil in
  let sg := be_bytes 96 (toy_sum (_publicKey ctl ++ Tag.tbs (Tag.mkTag 1 0x31805 0x0100010001000001 5 0x1122334455 0x0100010001 []))) in
  Capability.verify (H := toy_crypto) (H0 := env)
    (mkCapability 0x0100010001000001 5 1 1 [mkRule 24 (VZt 0x1122334455); mkRule 1 VNone; mkRule 1 VNone]
       (mkCustody 0x66778899aa 0x0100010001 sg :: replicate 6 no_custody)) = Ok VOk.
Proof.
  intros ctl env sg.
  apply (tag_signature_is_capability_signature (H := toy_crypto) (H0 := env) 1 1 5 0x1122334455 0x66778899aa sg);
    by_compute.
Defined.

Lemma sign_verifies_witness :
  (exists c', sign (H := toy_crypto) example_id 0x1122334455 (CCoo example_coo) = Ok (Some c') /\
     verify (H := toy_crypto) (H0 := toy_env) c' = Ok VOk) /\
  sign (H := toy_crypto) (mkIdentity 0x89e92ceee5 (replicate 64 7) None) 1
    (CCom (COM.mkCOM 0 [COM.mkQualifier 1 0x89e92ceee5000001 0] (replicate 96 0))) = Undef.
Proof.
  split.
  - destruct (sign_verifies (H := toy_crypto) (H0 := toy_env) example_id 0x1122334455 (CCoo example_coo) example_coo_wf ltac:(by_compute) I
      ltac:(by_compute) ltac:(by_compute) ltac:(split_and!; by_compute)) as (c' & Hs & _ & Hv).
    { intros m. by apply bool_decide_eq_true_2. }
    exists c'. split; [exact Hs|exact Hv].
  - apply (sign_verifies (H := toy_crypto) (H0 := fun _ => mkIdentity 0x89e92ceee5 (replicate 64 7) None)
      (mkIdentity 0x89e92ceee5 (replicate 64 7) None) 1 (CCom (COM.mkCOM 0 [COM.mkQualifier 1 0x89e92ceee5000001 0] (replicate 96 0))));
      by_compute.
Defined.

Lemma coo_count_unchecked_witness :
  let b := mkBuffer (enc (CCoo hostile_coo)) 413 in
  parse CREDENTIAL_TYPE_COO b 0 = Ok (CCoo hostile_coo, 413) /\
  COO._owns hostile_coo COO.THING_IPV4_ADDRESS [10; 0; 0; 1] = Undef /\
  COO.verify (H := toy_crypto) (H0 := toy_env) hostile_coo = Undef.
Proof.
  intros b. destruct (coo_count_unchecked (H := toy_crypto) (H0 := toy_env) hostile_coo COO.THING_IPV4_ADDRESS [10; 0; 0; 1] b 0 [])
    as (Hp & Ho & _ & Hv); [exact hostile_coo_wf|split; by_compute|exists []; split; by_compute|].
  split; [exact Hp|]. split; [rewrite Ho; vm_compute; reflexivity|apply Hv; by_compute].
Defined.
