(* ===== verification/Table.v ===== *)
(** * The interface of a table with integer keys

    What the classes that keep their data in a [Hashtable<K, V>] rely on. A client is written against
    [Table] and its theorems are proved from [TableLaws] or on the instance [gmap_table], the
    specification; [hashtable_table] is the instance the program has, and its laws follow from the
    refinement of [Hashtable]. *)

From S2P Require Import Prelude Hashtable.

(** [get], [set], [operator[]] on a key (with the value of [V()]), the entries in the order in which an
    iterator visits them, and the loop that erases the visited entries for which a test fails. *)
Class Table (T : Type -> Type) := {
  tab_new : forall {V}, T V;
  tab_get : forall {V}, T V -> Z -> outcome (option V);
  tab_set : forall {V}, T V -> Z -> V -> outcome (T V);
  tab_index : forall {V}, V -> T V -> Z -> outcome (T V * V);
  tab_entries : forall {V}, T V -> list (Z * V);
  tab_keep : forall {V}, (Z -> V -> bool) -> T V -> outcome (T V);
}.

(** [tab_rep t m]: the table [t] stands for the map [m]. Maps stay below [2^28] entries. *)
Definition room {V} (m : gmap Z V) : Prop := Z.of_nat (base.size m) < 2 ^ 28.

Class TableLaws (T : Type -> Type) `{Table T} := {
  tab_rep : forall {V}, T V -> gmap Z V -> Prop;
  tab_new_rep {V} : tab_rep (@tab_new T _ V) ∅;
  tab_get_rep {V} (t : T V) m k : tab_rep t m -> tab_get t k = Ok (m !! k);
  tab_set_rep {V} (t : T V) m k v : tab_rep t m -> room m ->
    exists t', tab_set t k v = Ok t' /\ tab_rep t' (<[k := v]> m);
  tab_index_rep {V} (d : V) (t : T V) m k : tab_rep t m -> room m ->
    exists t', tab_index d t k = Ok (t', default d (m !! k)) /\ tab_rep t' (if decide (m !! k = None) then <[k := d]> m else m);
  tab_entries_rep {V} (t : T V) m : tab_rep t m -> tab_entries t ≡ₚ map_to_list m;
  tab_keep_rep {V} (p : Z -> V -> bool) (t : T V) m : tab_rep t m -> room m ->
    exists t', tab_keep p t = Ok t' /\ tab_rep t' (filter (fun e => p e.1 e.2 = true) m);
}.

(** ** The specification: a finite map *)

#[export] Instance gmap_table : Table (gmap Z) := {
  tab_new _ := ∅;
  tab_get _ m k := Ok (m !! k);
  tab_set _ m k v := Ok (<[k := v]> m);
  tab_index _ d m k := Ok (if decide (m !! k = None) then <[k := d]> m else m, default d (m !! k));
  tab_entries _ m := map_to_list m;
  tab_keep _ p m := Ok (filter (fun e => p e.1 e.2 = true) m);
}.

#[export] Program Instance gmap_laws : TableLaws (gmap Z) := { tab_rep _ t m := t = m }.
Next Obligation. done. Qed.
Next Obligation. by intros ???? ->. Qed.
Next Obligation. intros ????? -> _. by eexists. Qed.
Next Obligation. intros ????? -> _. by eexists. Qed.
Next Obligation. by intros ??? ->. Qed.
Next Obligation. intros ???? -> _. by eexists. Qed.

(** ** The implementation *)

Section Hash.
Context (hc : Z -> Z) (buckets : nat).

(** The table is made with [buckets] buckets; every allocation of a larger array succeeds. *)
Definition hash_keep {V} (p : Z -> V -> bool) (t : Hashtable Z V) : outcome (Hashtable Z V) :=
  '(_, t) ← visit hc (fun k v => negb (p k v)) (S (length (concat (_t t)))) t (Iterator_new t); Ok t.

Definition hashtable_table : Table (Hashtable Z) := {|
  tab_new V := mkTable (replicate buckets []) 0;
  tab_get V t k := get hc t k;
  tab_set V t k v := set hc true t k v;
  tab_index V d t k := index hc true d t k;
  tab_entries V t := entries t;
  tab_keep V p t := hash_keep p t;
|}.

Definition hash_rep {V} (t : Hashtable Z V) (m : gmap Z V) : Prop := rep hc t m /\ _bc t < 2 ^ 29.

Lemma grown_bound {V} (t : Hashtable Z V) m k : hash_rep t m -> room m -> set_bc true t m k < 2 ^ 29.
Proof.
  unfold room. intros [Hr Hb] Hs. pose proof (set_bc_le hc true t m k (2 ^ 29 - 1) Hr) as Hx. lia.
Qed.

Lemma visit_bc {V} (p : Z -> V -> bool) fuel : forall (t : Hashtable Z V) it l t',
  visit hc p fuel t it = Ok (l, t') -> _bc t' = _bc t.
Proof.
  induction fuel as [|fuel IH]; intros t it l t' Hv; cbn [visit] in Hv; [done|].
  inv_ok Hv. destruct v as [[[k v]|] it']; [|by injection Hv as <- <-]. inv_ok Hv. inv_ok Hv. destruct v1 as [l1 t1]. injection Hv as <- <-.
  apply IH in H1. rewrite H1. destruct (p k v); [|by injection H0 as <-].
  unfold erase in H0. destruct (bucket_of _ _ _); [|done..]. cbn [mbind outcome_bind] in H0.
  destruct (chain_erase _ _); cbn [fmap outcome_fmap fst] in H0; injection H0 as <-; [|done].
  unfold _bc. cbn [_t]. by rewrite zlen_insert.
Qed.

#[program] Definition hashtable_laws (Hbk : (0 < buckets)%nat) (Hbk' : Z.of_nat buckets < 2 ^ 29) :
  @TableLaws (Hashtable Z) hashtable_table := {| tab_rep V t m := hash_rep t m |}.
Next Obligation.
  intros Hbk Hbk' V. split; [by apply replicate_rep|]. unfold _bc, zlen. cbn. by rewrite length_replicate.
Qed.
Next Obligation. intros _ _ V t m k [Hr _]. by apply table_get_rep. Qed.
Next Obligation.
  intros _ _ V t m k v Hr Hs. pose proof (grown_bound t m k Hr Hs). destruct Hr as [Hr Hb]. unfold room in Hs.
  destruct (set_rep hc true t m k v Hr Hb) as (t' & He & Hr' & Hb'); [lia|]. exists t'. split; [done|]. split; [done|]. by rewrite Hb'.
Qed.
Next Obligation.
  intros _ _ V d t m k Hr Hs. pose proof (grown_bound t m k Hr Hs). destruct Hr as [Hr Hb]. unfold room in Hs.
  destruct (index_rep hc true d t m k Hr Hb) as (t' & He & Hr' & Hb'); [lia|]. exists t'. split; [done|]. split; [done|]. by rewrite Hb'.
Qed.
Next Obligation. intros _ _ V t m [Hr _]. by apply (entries_rep hc). Qed.
Next Obligation.
  intros _ _ V p t m [Hr Hb] Hs. unfold room in Hs.
  pose proof (rep_entries _ _ _ Hr) as Hp.
  destruct (visit_rep hc (fun k v => negb (p k v)) (S (length (concat (_t t)))) t m (Iterator_new t) (concat (_t t))) as (t' & Hv & Hr'); try done.
  - lia.
  - by apply (Iterator_new_remaining hc t m).
  - by apply (rep_nodup hc t m).
  - intros [k v] He. rewrite Hp in He. by apply elem_of_map_to_list.
  - lia.
  - exists t'. change (hash_keep p t = Ok t' /\ hash_rep t' (filter (fun e => p e.1 e.2 = true) m)). unfold hash_keep. rewrite Hv. split; [done|]. split; [|by rewrite (visit_bc _ _ _ _ _ _ Hv)].
    replace (filter (fun e => p e.1 e.2 = true) m) with (filter (fun e => ~ (e.1 ∈ (concat (_t t)).*1 /\ negb (p e.1 e.2))) m); [done|].
    apply map_filter_ext. intros k v Hk; simpl. split; [|by intros -> [_ ?]].
    intros Hx. apply not_false_is_true. intros Hpk. apply Hx. rewrite Hpk. split; [|done].
    apply list_elem_of_fmap. exists (k, v). split; [done|]. rewrite Hp. by apply elem_of_map_to_list.
Qed.
End Hash.
