(* ===== verification/NetworkConfig.v ===== *)
(** * Network configurations (node/NetworkConfig.hpp)

    The configuration a controller issues to a member: the data and the accessors. Arrays with a count are the
    lists of their entries in use; character arrays are the text before the NUL. *)

From S2P Require Import Prelude Buffer Serial Address InetAddress Rule Credential Credentials Capability.

Definition ZT_NETWORK_TYPE_PRIVATE : Z := 0.
Definition ZT_NETWORK_TYPE_PUBLIC : Z := 1.
Definition ZT_NETWORKCONFIG_FLAG_ENABLE_BROADCAST : Z := 0x2.
Definition ZT_NETWORKCONFIG_FLAG_ENABLE_IPV6_NDP_EMULATION : Z := 0x4.
Definition ZT_NETWORKCONFIG_FLAG_RULES_RESULT_OF_UNSUPPORTED_MATCH : Z := 0x8.
Definition ZT_NETWORKCONFIG_SPECIALIST_TYPE_ACTIVE_BRIDGE : Z := 0x20000000000.
Definition ZT_NETWORKCONFIG_SPECIALIST_TYPE_MULTICAST_REPLICATOR : Z := 0x80000000000.
Definition ZT_NETWORKCONFIG_SPECIALIST_TYPE_NETWORK_RELAY : Z := 0x100000000000.
Definition ZT_MAX_NETWORK_SPECIALISTS : Z := 256.

Record Route := mkRoute { target : InetAddress; via : InetAddress; route_flags : Z; metric : Z }.
(** [domain] is the whole array of 128 characters: all of it is serialised. *)
Record DNS := mkDNS { domain : list Z; server_addr : list InetAddress }.

(** The fields of single sign-on. *)
Record SSO := mkSSO {
  ssoEnabled : bool; ssoVersion : Z; authenticationURL : list Z; authenticationExpiryTime : Z; issuerURL : list Z;
  centralAuthURL : list Z; ssoNonce : list Z; ssoState : list Z; ssoClientID : list Z; ssoProvider : list Z }.

Record NetworkConfig := mkNetworkConfig {
  networkId : Z; timestamp : Z; credentialTimeMaxDelta : Z; revision : Z; issuedTo : Z; remoteTraceTarget : Z;
  flags : Z; remoteTraceLevel : Z; mtu : Z; multicastLimit : Z;
  specialists : list Z; routes : list Route; staticIps : list InetAddress; rules : list ZT_VirtualNetworkRule;
  capabilities : list Capability; tags : list Tag.Tag; certificatesOfOwnership : list COO.COO;
  type : Z; name : list Z; com : COM.COM; dns : DNS; sso : SSO }.

#[export] Instance Route_eq_dec : EqDecision Route.
Proof. solve_decision. Defined.
#[export] Instance DNS_eq_dec : EqDecision DNS.
Proof. solve_decision. Defined.
#[export] Instance SSO_eq_dec : EqDecision SSO.
Proof. solve_decision. Defined.

Definition com_nil : COM.COM := COM.mkCOM 0 [] (replicate 96 0).

(** The text "default". *)
Definition default_provider : list Z := [100; 101; 102; 97; 117; 108; 116].

(** [NetworkConfig()]; [ssoVersion] is the one field it leaves uninitialised. *)
Definition NetworkConfig_nil (uninit : Z) : NetworkConfig :=
  mkNetworkConfig 0 0 0 0 0 0 0 0 0 0 [] [] [] [] [] [] [] ZT_NETWORK_TYPE_PRIVATE [] com_nil
    (mkDNS (replicate 128 0) (replicate 4 INil)) (mkSSO false uninit [] 0 [] [] [] [] [] default_provider).

Section Accessors.
Implicit Type (nc : NetworkConfig).

Definition has_flag (v f : Z) : bool := negb (Z.land v f =? 0).

Definition enableBroadcast nc : bool := has_flag (flags nc) ZT_NETWORKCONFIG_FLAG_ENABLE_BROADCAST.
Definition ndpEmulation nc : bool := has_flag (flags nc) ZT_NETWORKCONFIG_FLAG_ENABLE_IPV6_NDP_EMULATION.
Definition isPublic nc : bool := type nc =? ZT_NETWORK_TYPE_PUBLIC.
Definition isPrivate nc : bool := type nc =? ZT_NETWORK_TYPE_PRIVATE.
Definition nonnull nc : bool := negb (networkId nc =? 0).

(** The loops over the specialists: 40 bits of address, 24 bits of flags. *)
Definition with_role (roles : Z) nc : list Z := Address.of_int <$> List.filter (fun s => has_flag s roles) (specialists nc).
Definition has_role (role : Z) nc (a : Z) : bool :=
  existsb (fun s => has_flag s role && (a =? Address.of_int s)) (specialists nc).

Definition activeBridges nc : list Z := with_role ZT_NETWORKCONFIG_SPECIALIST_TYPE_ACTIVE_BRIDGE nc.
Definition isActiveBridge nc (a : Z) : bool := has_role ZT_NETWORKCONFIG_SPECIALIST_TYPE_ACTIVE_BRIDGE nc a.
Definition multicastReplicators nc : list Z := with_role ZT_NETWORKCONFIG_SPECIALIST_TYPE_MULTICAST_REPLICATOR nc.
Definition isMulticastReplicator nc (a : Z) : bool := has_role ZT_NETWORKCONFIG_SPECIALIST_TYPE_MULTICAST_REPLICATOR nc a.
Definition alwaysContactAddresses nc : list Z :=
  with_role (Z.lor ZT_NETWORKCONFIG_SPECIALIST_TYPE_NETWORK_RELAY ZT_NETWORKCONFIG_SPECIALIST_TYPE_MULTICAST_REPLICATOR) nc.
Definition permitsBridging nc (a : Z) : bool := has_role ZT_NETWORKCONFIG_SPECIALIST_TYPE_ACTIVE_BRIDGE nc a.

(** The first specialist with the address gets the flags; otherwise it is added, if there is room. *)
Fixpoint mask_specialist (l : list Z) (a f : Z) : option (list Z) :=
  match l with
  | [] => None
  | s :: l =>
      if Z.land s 0xffffffffff =? a then Some (Z.lor s f :: l)
      else match mask_specialist l a f with Some l => Some (s :: l) | None => None end
  end.
Definition add_to_specialists (l : list Z) (a f : Z) : list Z * bool :=
  match mask_specialist l a f with
  | Some l => (l, true)
  | None => if zlen l <? ZT_MAX_NETWORK_SPECIALISTS then (l ++ [Z.lor f a], true) else (l, false)
  end.

Definition capability nc (id : Z) : option Capability := List.find (fun c => Capability._id c =? id) (capabilities nc).
Definition tag nc (id : Z) : option Tag.Tag := List.find (fun t => Tag._id t =? id) (tags nc).
End Accessors.
