(* ===== verification/NetconfDict.v ===== *)
(** * Network configurations as dictionaries (node/NetworkConfig.cpp, node/DNS.hpp)

    [toDictionary] writes a configuration as text fields and binary blobs, [fromDictionary] reads it back; the controller signs and
    a node caches this form. ZT_SUPPORT_OLD_STYLE_NETCONF is not defined, so the legacy fields do not exist. Both use one temporary
    [Buffer] for all blobs; [getUI] and its like have an uninitialised array on the stack, the argument [stack].

    [std::sort] leaves elements that compare equal in an unspecified order: the sort is a parameter with the two laws of the standard. *)

From Stdlib Require Import String Ascii.
From stdpp Require Import sorting.
From S2P Require Import Prelude Buffer Serial Address InetAddress Dictionary Rule Identity Credential Credentials Capability NetworkConfig.

Local Open Scope Z_scope.

(** The characters of a C string literal. *)
Fixpoint chars (s : string) : list Z :=
  match s with EmptyString => [] | String c s => Z.of_nat (nat_of_ascii c) :: chars s end.

Definition ZT_NETWORKCONFIG_DICT_CAPACITY : Z := 16384.
Definition ZT_NETWORKCONFIG_VERSION : Z := 7.
Definition ZT_DEFAULT_MTU : Z := 2800.
Definition ZT_MAX_MTU : Z := 10000.
Definition ZT_MAX_NETWORK_CAPABILITIES : Z := 128.
Definition ZT_MAX_NETWORK_TAGS : Z := 128.
Definition ZT_MAX_CERTIFICATES_OF_OWNERSHIP : Z := 4.
Definition ZT_MAX_NETWORK_ROUTES : Z := 128.
Definition ZT_MAX_ZT_ASSIGNED_ADDRESSES : Z := 32.
Definition ZT_MAX_NETWORK_RULES : nat := 1024.

Definition KEY_VERSION : list Z := Eval compute in chars "v".
Definition KEY_NETWORK_ID : list Z := Eval compute in chars "nwid".
Definition KEY_TIMESTAMP : list Z := Eval compute in chars "ts".
Definition KEY_REVISION : list Z := Eval compute in chars "r".
Definition KEY_ISSUED_TO : list Z := Eval compute in chars "id".
Definition KEY_REMOTE_TRACE_TARGET : list Z := Eval compute in chars "tt".
Definition KEY_REMOTE_TRACE_LEVEL : list Z := Eval compute in chars "tl".
Definition KEY_FLAGS : list Z := Eval compute in chars "f".
Definition KEY_MULTICAST_LIMIT : list Z := Eval compute in chars "ml".
Definition KEY_TYPE : list Z := Eval compute in chars "t".
Definition KEY_NAME : list Z := Eval compute in chars "n".
Definition KEY_MTU : list Z := Eval compute in chars "mtu".
Definition KEY_CREDENTIAL_TIME_MAX_DELTA : list Z := Eval compute in chars "ctmd".
Definition KEY_COM : list Z := Eval compute in chars "C".
Definition KEY_SPECIALISTS : list Z := Eval compute in chars "S".
Definition KEY_ROUTES : list Z := Eval compute in chars "RT".
Definition KEY_STATIC_IPS : list Z := Eval compute in chars "I".
Definition KEY_RULES : list Z := Eval compute in chars "R".
Definition KEY_CAPABILITIES : list Z := Eval compute in chars "CAP".
Definition KEY_TAGS : list Z := Eval compute in chars "TAG".
Definition KEY_CERTIFICATES_OF_OWNERSHIP : list Z := Eval compute in chars "COO".
Definition KEY_DNS : list Z := Eval compute in chars "DNS".
Definition KEY_SSO_ENABLED : list Z := Eval compute in chars "ssoe".
Definition KEY_SSO_VERSION : list Z := Eval compute in chars "ssov".
Definition KEY_AUTHENTICATION_URL : list Z := Eval compute in chars "aurl".
Definition KEY_AUTHENTICATION_EXPIRY_TIME : list Z := Eval compute in chars "aexpt".
Definition KEY_ISSUER_URL : list Z := Eval compute in chars "iurl".
Definition KEY_CENTRAL_ENDPOINT_URL : list Z := Eval compute in chars "ssoce".
Definition KEY_NONCE : list Z := Eval compute in chars "sson".
Definition KEY_STATE : list Z := Eval compute in chars "ssos".
Definition KEY_CLIENT_ID : list Z := Eval compute in chars "ssocid".
Definition KEY_SSO_PROVIDER : list Z := Eval compute in chars "ssop".

(** ** toDictionary *)

(** A statement [if (! d.add(...)) return false]: the dictionary, the temporary buffer, and whether to go on. *)
Abbreviation dict_state := (list Z * Buffer)%type.
Abbreviation dict_step := (dict_state -> outcome (dict_state * bool)).

Definition put (f : list Z -> outcome (list Z * bool)) : dict_step := fun '(d, t) => '(d, ok) ← f d; Ok (d, t, ok).
Definition put_text (key s : list Z) : dict_step := put (fun d => add d key (s ++ [0]) (-1)).
(** [tmp->clear()], then what [ser] appends, if that is anything. *)
Definition put_blob (key : list Z) (ser : Buffer -> outcome Buffer) : dict_step := fun '(d, t) =>
  t ← ser (clear t);
  if size t =? 0 then Ok (d, t, true) else '(d, ok) ← addBuffer d key t; Ok (d, t, ok).
Definition put_when (c : bool) (f : dict_step) : dict_step := fun s => if c then f s else Ok (s, true).
Fixpoint put_seq (l : list dict_step) : dict_step := fun s =>
  match l with
  | [] => Ok (s, true)
  | f :: l => '(s, ok) ← f s; if (ok : bool) then put_seq l s else Ok (s, false)
  end.

Definition serialize_route (b : Buffer) (r : Route) : outcome Buffer :=
  b ← inet_serialize b (target r); b ← inet_serialize b (via r);
  b ← append_int 2 b (route_flags r); append_int 2 b (metric r).
Definition serializeDNS (b : Buffer) (d : DNS) : outcome Buffer :=
  b ← append b (domain d); append_all inet_serialize b (server_addr d).

Definition com_valid (c : COM.COM) : bool := match COM._qualifiers c with [] => false | _ => true end.
Definition is_empty (l : list Z) : bool := match l with [] => true | _ => false end.

Definition sso_steps (s : SSO) : list dict_step :=
  if ssoVersion s =? 0 then
    [put (fun d => addUI d KEY_SSO_VERSION (ssoVersion s));
     put (fun d => addB d KEY_SSO_ENABLED (ssoEnabled s));
     put_when (ssoEnabled s && negb (is_empty (authenticationURL s))) (put_text KEY_AUTHENTICATION_URL (authenticationURL s));
     put_when (ssoEnabled s) (put (fun d => addUI d KEY_AUTHENTICATION_EXPIRY_TIME (authenticationExpiryTime s)))]
  else if ssoVersion s =? 1 then
    [put (fun d => addUI d KEY_SSO_VERSION (ssoVersion s));
     put (fun d => addB d KEY_SSO_ENABLED (ssoEnabled s));
     put_text KEY_ISSUER_URL (issuerURL s);
     put_text KEY_CENTRAL_ENDPOINT_URL (centralAuthURL s);
     put_text KEY_NONCE (ssoNonce s);
     put_text KEY_STATE (ssoState s);
     put_text KEY_CLIENT_ID (ssoClientID s);
     put_text KEY_SSO_PROVIDER (ssoProvider s)]
  else [].

Definition netconf_steps (nc : NetworkConfig) : list dict_step :=
  [put (fun d => addUI d KEY_VERSION ZT_NETWORKCONFIG_VERSION);
   put (fun d => addUI d KEY_NETWORK_ID (networkId nc));
   put (fun d => addI d KEY_TIMESTAMP (timestamp nc));
   put (fun d => addI d KEY_CREDENTIAL_TIME_MAX_DELTA (credentialTimeMaxDelta nc));
   put (fun d => addUI d KEY_REVISION (revision nc));
   put (fun d => add d KEY_ISSUED_TO (Address.toString (issuedTo nc)) (-1));
   put (fun d => add d KEY_REMOTE_TRACE_TARGET (Address.toString (remoteTraceTarget nc)) (-1));
   put (fun d => addUI d KEY_REMOTE_TRACE_LEVEL (remoteTraceLevel nc));
   put (fun d => addUI d KEY_FLAGS (flags nc));
   put (fun d => addUI d KEY_MULTICAST_LIMIT (multicastLimit nc));
   put (fun d => addUI d KEY_TYPE (type nc));
   put_text KEY_NAME (name nc);
   put (fun d => addUI d KEY_MTU (mtu nc));
   put_when (com_valid (com nc)) (put_blob KEY_COM (fun b => COM.serialize b (com nc)));
   put_blob KEY_CAPABILITIES (fun b => append_all (fun b c => Capability.serialize b c false) b (capabilities nc));
   put_blob KEY_TAGS (fun b => append_all (fun b t => Tag.serialize b t false) b (tags nc));
   put_blob KEY_CERTIFICATES_OF_OWNERSHIP (fun b => append_all (fun b c => COO.serialize b c false) b (certificatesOfOwnership nc));
   put_blob KEY_SPECIALISTS (fun b => append_all (append_int 8) b (specialists nc));
   put_blob KEY_ROUTES (fun b => append_all serialize_route b (routes nc));
   put_blob KEY_STATIC_IPS (fun b => append_all inet_serialize b (staticIps nc));
   put_when (0 <? zlen (rules nc)) (put_blob KEY_RULES (fun b => serializeRules b (rules nc)));
   put_blob KEY_DNS (fun b => serializeDNS b (dns nc))] ++ sso_steps (sso nc).

(** [toDictionary(d, false)]; [tmp] is the uninitialised temporary buffer. *)
Definition toDictionary (nc : NetworkConfig) (tmp : Buffer) (d : list Z) : outcome (list Z * bool) :=
  '(d, _, ok) ← put_seq (netconf_steps nc) (dict_clear d, tmp); Ok (d, ok).

(** ** fromDictionary *)

(** [std::sort] of an array of objects that are compared by their ID. *)
Class StdSort := std_sort : forall A : Type, (A -> Z) -> list A -> list A.
Arguments std_sort {_ A} _ _.
Class StdSortLaws `{StdSort} := {
  std_sort_perm A (id : A -> Z) l : std_sort id l ≡ₚ l;
  std_sort_sorted A (id : A -> Z) l : Sorted (fun a b => id a <= id b) (std_sort id l) }.

(** [while (p < tmp->size()) { p += x.deserialize(tmp, p); array[count++] = x; }] in a [try]: an exception ends the loop and what
    was stored before stays. The array has [max] elements and the count is not compared with it. *)
Fixpoint read_unbounded {A} (deser : Buffer -> Z -> outcome (A * Z)) (max : Z) (fuel : nat) (b : Buffer) (p : Z) (acc : list A) : outcome (list A) :=
  match fuel with
  | O => Undef
  | S fuel =>
      if p <? size b then
        match deser b p with
        | Ok (a, n) => if zlen acc <? max then read_unbounded deser max fuel b (u32 (p + n)) (acc ++ [a]) else Undef
        | Throw _ => Ok acc
        | Undef => Undef
        end
      else Ok acc
  end.

(** The same with a comparison, outside a [try]; [discard]: objects beyond the end of the array are read but not stored; otherwise the
    loop ends when the array is full. *)
Fixpoint read_bounded {A} (deser : Buffer -> Z -> outcome (A * Z)) (discard : bool) (max : Z) (fuel : nat) (b : Buffer) (p : Z) (acc : list A) :
  outcome (list A) :=
  match fuel with
  | O => Undef
  | S fuel =>
      if (p <? size b) && (discard || (zlen acc <? max)) then
        '(a, n) ← deser b p;
        read_bounded deser discard max fuel b (u32 (p + n)) (if zlen acc <? max then acc ++ [a] else acc)
      else Ok acc
  end.

Fixpoint read_specialists (fuel : nat) (b : Buffer) (p : Z) (acc : list Z) : outcome (list Z) :=
  match fuel with
  | O => Undef
  | S fuel =>
      if p + 8 <=? size b then
        acc ← (if zlen acc <? ZT_MAX_NETWORK_SPECIALISTS then x ← at_ 8 b p; Ok (acc ++ [x]) else Ok acc);
        read_specialists fuel b (p + 8) acc
      else Ok acc
  end.

Definition deserialize_route (b : Buffer) (p0 : Z) : outcome (Route * Z) :=
  let p := p0 in
  '(t, n) ← inet_deserialize b p; let p := p + n in
  '(v, n) ← inet_deserialize b p; let p := p + n in
  f ← at_ 2 b p; let p := p + 2 in
  m ← at_ 2 b p; let p := p + 2 in
  Ok (mkRoute t v f m, p - p0).

Fixpoint read_servers (n : nat) (b : Buffer) (p : Z) : outcome (list InetAddress) :=
  match n with
  | O => Ok []
  | S n => '(a, k) ← inet_deserialize b p; l ← read_servers n b (p + k); Ok (a :: l)
  end.
(** The domain is copied from the array of the buffer, whatever the buffer's size. *)
Definition deserializeDNS (b : Buffer) (p : Z) : outcome DNS :=
  dom ← mem_read (_b b) p 128;
  dom ← mem_write dom 127 [0];
  l ← read_servers 4 b (p + 128);
  Ok (mkDNS dom l).

(** Room for one more object than bytes. *)
Definition blob_fuel (b : Buffer) : nat := S (S (Z.to_nat (size b))).

Section fromDictionary.
Context `{StdSort}.
Context (stack : list Z) (d : list Z).

Abbreviation ui key := (getUI stack d key).

(** [if (d.get(key, tmp)) k]; the buffer is used for the next blob. *)
Definition read_blob {A} (key : list Z) (dfl : A) (k : Buffer -> outcome A) (t : Buffer) : outcome (Buffer * A) :=
  '(t, ok) ← get_buffer d key t;
  if (ok : bool) then a ← k t; Ok (t, a) else Ok (t, dfl).

(** [d.get(key, array, sizeof(array))] and the text in the array, the length that is returned first. *)
Definition get_text (key : list Z) (old : list Z) (n : nat) : outcome (Z * list Z) :=
  '(r, m) ← get d key (old ++ replicate (n - length old) 0) (Z.of_nat n); Ok (r, cstr m).
(** With the NUL put at the end of the array when the text is not empty. *)
Definition get_terminated (key : list Z) (old : list Z) (n : nat) : outcome (Z * list Z) :=
  '(r, m) ← get d key (old ++ replicate (n - length old) 0) (Z.of_nat n);
  m ← (if 0 <? r then mem_write m (Z.of_nat n - 1) [0] else Ok m);
  Ok (r, cstr m).

Definition read_sso (s : SSO) : outcome SSO :=
  version ← ui KEY_SSO_VERSION 0;
  enabled ← getB (take 4 stack) d KEY_SSO_ENABLED false;
  if version =? 0 then
    if (enabled : bool) then
      '(r, url) ← get_terminated KEY_AUTHENTICATION_URL (authenticationURL s) 2048;
      let url := if 0 <? r then url else [] in
      expiry ← getI stack d KEY_AUTHENTICATION_EXPIRY_TIME 0;
      Ok (mkSSO enabled version url (u64 expiry) (issuerURL s) (centralAuthURL s) (ssoNonce s) (ssoState s) (ssoClientID s) (ssoProvider s))
    else Ok (mkSSO enabled version [] 0 (issuerURL s) (centralAuthURL s) (ssoNonce s) (ssoState s) (ssoClientID s) (ssoProvider s))
  else if version =? 1 then
    if (enabled : bool) then
      '(_, url) ← get_terminated KEY_AUTHENTICATION_URL (authenticationURL s) 2048;
      '(_, iss) ← get_terminated KEY_ISSUER_URL (issuerURL s) 2048;
      '(_, cen) ← get_terminated KEY_CENTRAL_ENDPOINT_URL (centralAuthURL s) 2048;
      '(_, non) ← get_terminated KEY_NONCE (ssoNonce s) 128;
      '(_, sta) ← get_terminated KEY_STATE (ssoState s) 256;
      '(_, cid) ← get_terminated KEY_CLIENT_ID (ssoClientID s) 256;
      '(r, prov) ← get_terminated KEY_SSO_PROVIDER (ssoProvider s) 64;
      Ok (mkSSO enabled version url (authenticationExpiryTime s) iss cen non sta cid (if 0 <? r then prov else default_provider))
    else Ok (mkSSO enabled version [] 0 [] [] [] [] [] [])
  else Ok (mkSSO enabled version (authenticationURL s) (authenticationExpiryTime s) (issuerURL s) (centralAuthURL s) (ssoNonce s) (ssoState s)
             (ssoClientID s) (ssoProvider s)).

(** The body of the [try]. The assignment [*this = NIL_NC] copies a static object: its [ssoVersion] is 0. *)
Definition parse_netconf (t : Buffer) : outcome (option NetworkConfig) :=
  let nil := NetworkConfig_nil 0 in
  networkId ← ui KEY_NETWORK_ID 0;
  if networkId =? 0 then Ok None else
  timestamp ← ui KEY_TIMESTAMP 0;
  delta ← ui KEY_CREDENTIAL_TIME_MAX_DELTA 0;
  revision ← ui KEY_REVISION 0;
  issuedTo ← ui KEY_ISSUED_TO 0;
  let issuedTo := Address.of_int issuedTo in
  if issuedTo =? 0 then Ok None else
  target ← ui KEY_REMOTE_TRACE_TARGET 0;
  level ← ui KEY_REMOTE_TRACE_LEVEL 0;
  limit ← ui KEY_MULTICAST_LIMIT 0;
  '(_, name) ← get_text KEY_NAME [] 128;
  mtu ← ui KEY_MTU ZT_DEFAULT_MTU;
  let mtu := u32 mtu in
  let mtu := if mtu <? 1280 then 1280 else if ZT_MAX_MTU <? mtu then ZT_MAX_MTU else mtu in
  version ← ui KEY_VERSION 0;
  if version <? 6 then Ok None else
  flags ← ui KEY_FLAGS 0;
  type ← ui KEY_TYPE ZT_NETWORK_TYPE_PRIVATE;
  '(t, com) ← read_blob KEY_COM com_nil (fun b => '(c, _) ← COM.deserialize com_nil b 0; Ok c) t;
  '(t, caps) ← read_blob KEY_CAPABILITIES []
     (fun b => l ← read_unbounded Capability.deserialize ZT_MAX_NETWORK_CAPABILITIES (blob_fuel b) b 0 []; Ok (std_sort Capability._id l)) t;
  '(t, tags) ← read_blob KEY_TAGS []
     (fun b => l ← read_unbounded Tag.deserialize ZT_MAX_NETWORK_TAGS (blob_fuel b) b 0 []; Ok (std_sort Tag._id l)) t;
  '(t, coos) ← read_blob KEY_CERTIFICATES_OF_OWNERSHIP []
     (fun b => read_bounded COO.deserialize true ZT_MAX_CERTIFICATES_OF_OWNERSHIP (blob_fuel b) b 0 []) t;
  '(t, specialists) ← read_blob KEY_SPECIALISTS [] (fun b => read_specialists (blob_fuel b) b 0 []) t;
  '(t, routes) ← read_blob KEY_ROUTES [] (fun b => read_bounded deserialize_route false ZT_MAX_NETWORK_ROUTES (blob_fuel b) b 0 []) t;
  '(t, ips) ← read_blob KEY_STATIC_IPS [] (fun b => read_bounded inet_deserialize false ZT_MAX_ZT_ASSIGNED_ADDRESSES (blob_fuel b) b 0 []) t;
  '(t, rules) ← read_blob KEY_RULES [] (fun b => '(l, _) ← deserializeRules ZT_MAX_NETWORK_RULES b 0 []; Ok l) t;
  '(t, dns) ← read_blob KEY_DNS (dns nil) (fun b => deserializeDNS b 0) t;
  sso ← read_sso (sso nil);
  Ok (Some (mkNetworkConfig networkId (s64 timestamp) (s64 delta) revision issuedTo (Address.of_int target) flags (u32 level) mtu (u32 limit)
              specialists routes ips rules caps tags coos (u32 type) name com dns sso)).

(** [fromDictionary(d)]: every exception makes it return false. *)
Definition fromDictionary (t : Buffer) : outcome (option NetworkConfig) :=
  match parse_netconf t with Throw _ => Ok None | r => r end.
End fromDictionary.

(** ** The entries of a configuration *)

Definition signed_text (v : Z) : list Z := if 0 <=? v then hexdigits 16 (u64 v) else 45 :: hexdigits 16 (u64 (v * -1)).
Definition bool_text (b : bool) : list Z := if b then [49] else [48].
Definition nonempty (bs : list Z) : option (list Z) := match bs with [] => None | _ => Some bs end.
Definition only (c : bool) (o : option (list Z)) : option (list Z) := if c then o else None.

Definition route_enc (r : Route) : list Z :=
  inet_enc (target r) ++ inet_enc (via r) ++ be_bytes 2 (route_flags r) ++ be_bytes 2 (metric r).
Definition dns_enc (d : DNS) : list Z := domain d ++ concat (inet_enc <$> server_addr d).

(** A key and its value, for the fields that are present. *)
Abbreviation named := (list Z * option (list Z))%type.

Definition sso_fields (s : SSO) : list named :=
  if ssoVersion s =? 0 then
    [(KEY_SSO_VERSION, Some (hexdigits 16 (ssoVersion s)));
     (KEY_SSO_ENABLED, Some (bool_text (ssoEnabled s)));
     (KEY_AUTHENTICATION_URL, only (ssoEnabled s && negb (is_empty (authenticationURL s))) (Some (authenticationURL s)));
     (KEY_AUTHENTICATION_EXPIRY_TIME, only (ssoEnabled s) (Some (hexdigits 16 (authenticationExpiryTime s))))]
  else if ssoVersion s =? 1 then
    [(KEY_SSO_VERSION, Some (hexdigits 16 (ssoVersion s)));
     (KEY_SSO_ENABLED, Some (bool_text (ssoEnabled s)));
     (KEY_ISSUER_URL, Some (issuerURL s));
     (KEY_CENTRAL_ENDPOINT_URL, Some (centralAuthURL s));
     (KEY_NONCE, Some (ssoNonce s));
     (KEY_STATE, Some (ssoState s));
     (KEY_CLIENT_ID, Some (ssoClientID s));
     (KEY_SSO_PROVIDER, Some (ssoProvider s))]
  else [].

Definition netconf_fields (nc : NetworkConfig) : list named :=
  [(KEY_VERSION, Some (hexdigits 16 ZT_NETWORKCONFIG_VERSION));
   (KEY_NETWORK_ID, Some (hexdigits 16 (networkId nc)));
   (KEY_TIMESTAMP, Some (signed_text (timestamp nc)));
   (KEY_CREDENTIAL_TIME_MAX_DELTA, Some (signed_text (credentialTimeMaxDelta nc)));
   (KEY_REVISION, Some (hexdigits 16 (revision nc)));
   (KEY_ISSUED_TO, Some (hexdigits 10 (issuedTo nc)));
   (KEY_REMOTE_TRACE_TARGET, Some (hexdigits 10 (remoteTraceTarget nc)));
   (KEY_REMOTE_TRACE_LEVEL, Some (hexdigits 16 (remoteTraceLevel nc)));
   (KEY_FLAGS, Some (hexdigits 16 (flags nc)));
   (KEY_MULTICAST_LIMIT, Some (hexdigits 16 (multicastLimit nc)));
   (KEY_TYPE, Some (hexdigits 16 (type nc)));
   (KEY_NAME, Some (name nc));
   (KEY_MTU, Some (hexdigits 16 (mtu nc)));
   (KEY_COM, only (com_valid (com nc)) (nonempty (COM.enc (com nc))));
   (KEY_CAPABILITIES, nonempty (concat (Capability.enc <$> capabilities nc)));
   (KEY_TAGS, nonempty (concat (Tag.enc <$> tags nc)));
   (KEY_CERTIFICATES_OF_OWNERSHIP, nonempty (concat (COO.enc <$> certificatesOfOwnership nc)));
   (KEY_SPECIALISTS, nonempty (concat (be_bytes 8 <$> specialists nc)));
   (KEY_ROUTES, nonempty (concat (route_enc <$> routes nc)));
   (KEY_STATIC_IPS, nonempty (concat (inet_enc <$> staticIps nc)));
   (KEY_RULES, only (0 <? zlen (rules nc)) (nonempty (rules_enc (rules nc))));
   (KEY_DNS, nonempty (dns_enc (dns nc)))] ++ sso_fields (sso nc).

Definition field_entries (f : named) : list entry := match f.2 with Some v => [(f.1, v)] | None => [] end.
Definition netconf_entries (nc : NetworkConfig) : list entry := concat (field_entries <$> netconf_fields nc).

(** Texts fit their arrays with the NUL. *)
Definition text_ok (n : Z) (s : list Z) : Prop := bytes_ok s /\ Forall (fun c => c <> 0) s /\ zlen s < n.

Record sso_ok (s : SSO) : Prop := {
  so_version : rng 64 (ssoVersion s); so_url : text_ok 2048 (authenticationURL s); so_expiry : rng 63 (authenticationExpiryTime s);
  so_issuer : text_ok 2048 (issuerURL s); so_central : text_ok 2048 (centralAuthURL s); so_nonce : text_ok 128 (ssoNonce s);
  so_state : text_ok 256 (ssoState s); so_client : text_ok 256 (ssoClientID s); so_provider : text_ok 64 (ssoProvider s) }.

Record netconf_ok (nc : NetworkConfig) : Prop := {
  no_nwid : rng 64 (networkId nc) /\ networkId nc <> 0;
  no_ts : srng 64 (timestamp nc) /\ timestamp nc <> - 2 ^ 63;
  no_delta : srng 64 (credentialTimeMaxDelta nc) /\ credentialTimeMaxDelta nc <> - 2 ^ 63;
  no_rev : rng 64 (revision nc);
  no_to : Address.ok (issuedTo nc) /\ issuedTo nc <> 0;
  no_trace : Address.ok (remoteTraceTarget nc);
  no_flags : rng 64 (flags nc);
  no_level : rng 32 (remoteTraceLevel nc);
  no_mtu : rng 32 (mtu nc);
  no_limit : rng 32 (multicastLimit nc);
  no_type : rng 32 (type nc);
  no_name : text_ok 128 (name nc);
  no_com : COM.ok (com nc) /\ COM.sorted_from 0 (COM._qualifiers (com nc)) /\ (COM._signedBy (com nc) = 0 -> COM._signature (com nc) = COM._signature com_nil);
  no_caps : Forall (fun c => Capability.ok c /\ Capability.proper c) (capabilities nc) /\ zlen (capabilities nc) <= 128;
  no_tags : Forall Tag.ok (tags nc) /\ zlen (tags nc) <= 128;
  no_coos : Forall (fun c => COO.ok c /\ COO.proper c /\ COO._thingCount c <= 16) (certificatesOfOwnership nc) /\ zlen (certificatesOfOwnership nc) <= 4;
  no_spec : Forall (rng 64) (specialists nc) /\ zlen (specialists nc) <= 256;
  no_routes : Forall (fun r => inet_wf (target r) /\ inet_wf (via r) /\ rng 16 (route_flags r) /\ rng 16 (metric r)) (routes nc) /\ zlen (routes nc) <= 128;
  no_ips : Forall inet_wf (staticIps nc) /\ zlen (staticIps nc) <= 32;
  no_rules : Forall rule_wf (rules nc) /\ zlen (rules nc) <= 1024;
  no_dns : bytes_ok (domain (dns nc)) /\ (exists dom, domain (dns nc) = dom ++ [0] /\ length dom = 127%nat) /\
    Forall inet_wf (server_addr (dns nc)) /\ length (server_addr (dns nc)) = 4%nat;
  no_sso : sso_ok (sso nc) }.

(** What of the single sign-on fields is transmitted. *)
Definition received_sso (s : SSO) : SSO :=
  if ssoVersion s =? 0 then
    if ssoEnabled s then mkSSO true 0 (authenticationURL s) (authenticationExpiryTime s) [] [] [] [] [] default_provider
    else mkSSO false 0 [] 0 [] [] [] [] [] default_provider
  else if ssoVersion s =? 1 then
    if ssoEnabled s then
      mkSSO true 1 [] 0 (issuerURL s) (centralAuthURL s) (ssoNonce s) (ssoState s) (ssoClientID s)
        (if is_empty (ssoProvider s) then default_provider else ssoProvider s)
    else mkSSO false 1 [] 0 [] [] [] [] [] []
  else mkSSO false 0 [] 0 [] [] [] [] [] default_provider.

(** The configuration without what is not transmitted of the rules, its own and those of its capabilities ([wire_rule]). *)
Definition wire (nc : NetworkConfig) : NetworkConfig :=
  mkNetworkConfig (networkId nc) (timestamp nc) (credentialTimeMaxDelta nc) (revision nc) (issuedTo nc) (remoteTraceTarget nc) (flags nc)
    (remoteTraceLevel nc) (mtu nc) (multicastLimit nc) (specialists nc) (routes nc) (staticIps nc) (wire_rule <$> rules nc)
    (Capability.wire <$> capabilities nc) (tags nc) (certificatesOfOwnership nc) (type nc) (name nc) (com nc) (dns nc) (sso nc).

Lemma netconf_wire_id nc : netconf_ok nc -> wire nc = nc.
Proof.
  intros Hok. destruct (no_rules nc Hok) as [Hr _]. destruct (no_caps nc Hok) as [Hc _]. unfold wire. rewrite wire_rules_id by done.
  replace (Capability.wire <$> capabilities nc) with (capabilities nc); [by destruct nc|].
  clear Hok Hr. induction Hc as [|c cs [Hc _] _ IH]; [done|]. cbn [fmap list_fmap]. by rewrite <- IH, Capability.capability_wire_id.
Qed.

(** The configuration as it arrives: the MTU in its limits, no certificate without qualifiers, capabilities and tags sorted by their IDs. *)
Definition received `{StdSort} (nc : NetworkConfig) : NetworkConfig :=
  mkNetworkConfig (networkId nc) (timestamp nc) (credentialTimeMaxDelta nc) (revision nc) (issuedTo nc) (remoteTraceTarget nc) (flags nc)
    (remoteTraceLevel nc) (if mtu nc <? 1280 then 1280 else if ZT_MAX_MTU <? mtu nc then ZT_MAX_MTU else mtu nc) (multicastLimit nc)
    (specialists nc) (routes nc) (staticIps nc) (rules nc) (std_sort Capability._id (capabilities nc)) (std_sort Tag._id (tags nc))
    (certificatesOfOwnership nc) (type nc) (name nc)
    (if com_valid (com nc) then com nc else com_nil) (dns nc) (received_sso (sso nc)).

(** ** Writing *)

Lemma dict_text_app_le es es' : zlen (dict_text es) <= zlen (dict_text (es ++ es')).
Proof.
  induction es' as [|e es' IH] using rev_ind; [by rewrite app_nil_r|]. etrans; [exact IH|].
  rewrite app_assoc, dict_text_snoc, zlen_app. pose proof (zlen_nonneg (entry_text e)). destruct (es ++ es'); [cbn; lia|].
  rewrite zlen_app. change (zlen [10]) with 1. lia.
Qed.

Lemma zlen_escape v : zlen v <= zlen (escape v).
Proof.
  induction v as [|c v IH]; [done|]. rewrite escape_cons, zlen_app, zlen_cons.
  assert (1 <= zlen (escape1 c)) by (destruct (escape1_cases c) as [(e & -> & _)|(-> & _)]; done). lia.
Qed.

(** The text of a value is part of the text. *)
Lemma value_in_text es k v : zlen v < zlen (dict_text (es ++ [(k, v)])).
Proof.
  rewrite dict_text_snoc, zlen_app. unfold entry_text. cbn [fst snd]. rewrite zlen_app, zlen_cons. pose proof (zlen_escape v).
  pose proof (zlen_nonneg k). match goal with |- context [zlen ?x + _] => pose proof (zlen_nonneg x) end. lia.
Qed.

(** [f] adds [new] to the entries, if the text has room. *)
Definition puts (f : dict_step) (new : list entry) : Prop := forall d t es,
  rep d es -> buf_ok t -> capacity t = zlen d -> zlen (dict_text (es ++ new)) < zlen d ->
  exists d' t', f (d, t) = Ok (d', t', true) /\ rep d' (es ++ new) /\ zlen d' = zlen d /\ buf_ok t' /\ capacity t' = capacity t.

Lemma puts_one f k v : legal_key k -> (forall d, exists value vlen, f d = add d k value vlen /\ value_of value vlen = Ok v) -> puts (put f) (field_entries (k, Some v)).
Proof.
  intros Hk Hf d t es Hd Ht Hc Hfit. destruct (Hf d) as (value & vlen & E & Hv). unfold put. rewrite E. unfold add. rewrite Hv. cbn [mbind outcome_bind].
  destruct (add_chars_rep d es k v Hd Hk) as (d' & Hl & Ha). rewrite decide_True in Ha by done. destruct Ha as [-> Hr].
  by exists d', t.
Qed.

Lemma value_cstr_text s : Forall (fun c => c <> 0) s -> value_of (s ++ [0]) (-1) = Ok s.
Proof.
  intros Hs. change (value_cstr (s ++ [0]) = Ok s). induction Hs as [|c s Hc Hs IH]; [done|].
  cbn [value_cstr app]. rewrite (proj2 (Z.eqb_neq _ _) Hc), IH. done.
Qed.

Lemma puts_text k s : legal_key k -> Forall (fun c => c <> 0) s -> puts (put_text k s) (field_entries (k, Some (s))).
Proof. intros Hk Hs. apply puts_one; [done|]. intros d. eexists _, _. split; [done|]. by apply value_cstr_text. Qed.

Lemma puts_ui k v : legal_key k -> puts (put (fun d => addUI d k v)) (field_entries (k, Some (hexdigits 16 v))).
Proof. intros Hk. apply puts_one; [done|]. intros d. exists (hex64 v), (-1). split; [done|]. rewrite hex64_eq. apply (value_cstr_hex 16). Qed.

Lemma puts_address k a : legal_key k -> puts (put (fun d => add d k (Address.toString a) (-1))) (field_entries (k, Some (hexdigits 10 a))).
Proof. intros Hk. apply puts_one; [done|]. intros d. exists (hexdigits 10 a ++ [0]), (-1). split; [done|]. apply (value_cstr_hex 10). Qed.

Lemma puts_i k v : legal_key k -> v <> - 2 ^ 63 -> puts (put (fun d => addI d k v)) (field_entries (k, Some (signed_text v))).
Proof.
  intros Hk Hv. apply puts_one; [done|]. intros d. unfold addI, signed_text. destruct (0 <=? v).
  - exists (hex64 (u64 v)), (-1). split; [done|]. rewrite hex64_eq. apply (value_cstr_hex 16).
  - rewrite (proj2 (Z.eqb_neq _ _) Hv). exists (45 :: hex64 (u64 (v * -1))), (-1). split; [done|]. rewrite hex64_eq. apply (value_of_minus 16).
Qed.

Lemma puts_b k v : legal_key k -> puts (put (fun d => addB d k v)) (field_entries (k, Some (bool_text v))).
Proof. intros Hk. apply puts_one; [done|]. intros d. eexists _, _. split; [done|]. by destruct v. Qed.

Lemma value_chars_take n m : (n <= length m)%nat -> value_chars n m = Ok (take n m).
Proof. revert m. induction n as [|n IH]; intros [|c m] H; cbn in *; try done; [lia|]. rewrite IH by lia. done. Qed.

Lemma puts_blob k ser bs : legal_key k -> (forall b, buf_ok b -> writes b bs (ser b)) -> puts (put_blob k ser) (field_entries (k, nonempty bs)).
Proof.
  intros Hk Hw d t es Hd Ht Hc Hfit. unfold put_blob.
  assert (buf_ok (clear t)) as Ht0 by (destruct Ht; split; unfold clear, capacity in *; cbn in *; try done; lia).
  assert (zlen bs <= zlen d) as Hl.
  { destruct bs; [rewrite zlen_nil; apply zlen_nonneg|]. unfold field_entries in Hfit. cbn [fst snd nonempty] in Hfit. match type of Hfit with context [(k, ?v)] => pose proof (value_in_text es k v) end. lia. }
  destruct (writes_fits _ _ _ (Hw _ Ht0)) as (t' & -> & Ht' & Hd' & Hc'); [cbn; unfold clear, capacity in *; cbn in *; lia|].
  change (data (clear t)) with (@nil Z) in Hd'. cbn [app] in Hd'. cbn [mbind outcome_bind].
  pose proof (zlen_data t' Ht') as Hz. rewrite Hd' in Hz. unfold size. rewrite <- Hz. change (capacity (clear t)) with (capacity t) in Hc'.
  destruct (Z.eqb_spec (zlen bs) 0) as [E|E].
  - assert (bs = []) as -> by (destruct bs; [done|rewrite zlen_cons in E; pose proof (zlen_nonneg bs); lia]).
    exists d, t'. cbn [field_entries nonempty fst snd]. by rewrite app_nil_r.
  - assert (field_entries (k, nonempty bs) = [(k, bs)]) as Eb by (by destruct bs). rewrite Eb in *. unfold addBuffer, add.
    assert (value_of (_b t') (size t') = Ok bs) as ->.
    { unfold value_of, size. destruct (bo_size t' Ht') as [Hs1 Hs2]. rewrite (proj2 (Z.ltb_ge _ _)) by lia. rewrite value_chars_take by (unfold capacity, zlen in *; lia). by rewrite <- Hd'. }
    cbn [mbind outcome_bind]. destruct (add_chars_rep d es k bs Hd Hk) as (d' & Hl' & Ha). rewrite decide_True in Ha by done. destruct Ha as [-> Hr].
    exists d', t'. cbn [mbind outcome_bind]. by rewrite Hc'.
Qed.

Lemma puts_when (c : bool) f k o : (c = true -> puts f (field_entries (k, o))) -> puts (put_when c f) (field_entries (k, only c o)).
Proof.
  intros Hf d t es Hd Ht Hc Hfit. unfold put_when, only in *. destruct c; [by apply Hf|]. exists d, t. cbn [field_entries fst snd]. by rewrite app_nil_r.
Qed.

Lemma puts_seq l news : Forall2 puts l news -> puts (put_seq l) (concat news).
Proof.
  induction 1 as [|f new l news Hf _ IH]; intros d t es Hd Ht Hc Hfit.
  - exists d, t. cbn. by rewrite app_nil_r.
  - cbn [concat put_seq] in *. pose proof (dict_text_app_le (es ++ new) (concat news)). rewrite <- app_assoc in *.
    destruct (Hf d t es Hd Ht Hc) as (d1 & t1 & -> & Hd1 & Hl1 & Ht1 & Hc1); [lia|]. cbn [mbind outcome_bind].
    destruct (IH d1 t1 (es ++ new) Hd1 Ht1) as (d2 & t2 & E & Hd2 & Hl2 & Ht2 & Hc2); [congruence|rewrite <- app_assoc; lia|].
    exists d2, t2. rewrite <- app_assoc in Hd2. split; [exact E|]. split; [done|]. split; [congruence|]. split; [done|]. congruence.
Qed.

Lemma append_all_Forall {A} (f : Buffer -> A -> outcome Buffer) (enc : A -> list Z) (P : A -> Prop) l b :
  (forall x b, P x -> buf_ok b -> writes b (enc x) (f b x)) -> Forall P l -> buf_ok b -> writes b (concat (enc <$> l)) (append_all f b l).
Proof. intros Hf Hl Hb. apply append_all_writes; [|done]. intros x b' Hx Hb'. apply Hf; [|done]. by eapply list.Forall_forall in Hl. Qed.

Lemma route_writes r b : inet_wf (target r) -> inet_wf (via r) -> buf_ok b -> writes b (route_enc r) (serialize_route b r).
Proof.
  intros Ht Hv Hb. unfold route_enc, serialize_route. apply writes_bind; [done|by apply inet_writes|]. intros b1 Hb1 _ _.
  apply writes_bind; [done|by apply inet_writes|]. intros b2 Hb2 _ _. apply writes_bind; [done|by apply append_int_writes|]. intros b3 Hb3 _ _.
  by apply append_int_writes.
Qed.

Lemma dns_writes d b : bytes_ok (domain d) -> zlen (domain d) = 128 -> Forall inet_wf (server_addr d) -> buf_ok b ->
  writes b (dns_enc d) (serializeDNS b d).
Proof.
  intros Hd Hl Hs Hb. unfold dns_enc, serializeDNS. apply writes_bind; [done|apply append_writes; [done|done|lia]|]. intros b1 Hb1 _ _.
  apply (append_all_Forall _ _ inet_wf); [|done|done]. intros. by apply inet_writes.
Qed.

Ltac key := by_compute.
(** [put_tac]: a step that writes a number or a text. *)
Ltac put_tac :=
  lazymatch goal with
  | |- puts (put (fun _ => addUI _ ?k ?v)) _ => apply (puts_ui k v); key
  | |- puts (put (fun _ => addI _ ?k ?v)) _ => apply (puts_i k v); [key|tauto]
  | |- puts (put (fun _ => addB _ ?k ?v)) _ => apply (puts_b k v); key
  | |- puts (put (fun _ => add _ ?k (Address.toString ?v) _)) _ => apply (puts_address k v); key
  | |- puts (put_text ?k ?v) _ => apply (puts_text k v); [key|tauto]
  | |- puts (put_blob ?k ?f) _ => apply (puts_blob k f); [key|]; intros b Hb
  | |- puts (put_when _ _) _ => apply puts_when; intros _; put_tac
  end.

Lemma sso_puts s : sso_ok s -> Forall2 puts (sso_steps s) (field_entries <$> sso_fields s).
Proof.
  intros [_ (_ & Hu & _) _ (_ & Hi & _) (_ & Hc & _) (_ & Hn & _) (_ & Hs & _) (_ & Hcl & _) (_ & Hp & _)]. unfold sso_steps, sso_fields.
  repeat case_match; cbn [fmap list_fmap]; repeat (first [apply List.Forall2_nil | apply List.Forall2_cons]);
    put_tac.
Qed.

Lemma dns_length nc : netconf_ok nc -> zlen (domain (dns nc)) = 128.
Proof. intros [? ? ? ? ? ? ? ? ? ? ? ? ? ? ? ? ? ? ? ? (_ & (dom & -> & Hl) & _) _]. rewrite zlen_app. unfold zlen. rewrite Hl. done. Qed.

Lemma capability_wire_writes c b : Capability.ok (Capability.wire c) -> buf_ok b -> writes b (Capability.enc (Capability.wire c)) (Capability.serialize b c false).
Proof. intros Hc Hb. rewrite <- Capability.serialize_wire. by apply Capability.capability_writes_wire. Qed.

Lemma netconf_puts nc : netconf_ok (wire nc) -> Forall2 puts (netconf_steps nc) (field_entries <$> netconf_fields (wire nc)).
Proof.
  intros Hok. pose proof (dns_length _ Hok) as Hdom. destruct Hok as [? [_ ?] [_ ?] ? ? ? ? ? ? ? ? (_ & ? & _) (Hcom & _) (Hcaps & _) (Htags & _) (Hcoos & _) _ (Hroutes & _) (Hips & _) (Hrules & _) (Hd1 & _ & Hd2 & _) Hsso].
  unfold wire in *. cbn [timestamp credentialTimeMaxDelta name com capabilities tags certificatesOfOwnership specialists routes staticIps rules dns sso] in *.
  unfold netconf_steps, netconf_fields. cbn [networkId timestamp credentialTimeMaxDelta revision issuedTo remoteTraceTarget flags remoteTraceLevel mtu multicastLimit
    type name com capabilities tags certificatesOfOwnership specialists routes staticIps rules dns sso]. replace (zlen (wire_rule <$> rules nc)) with (zlen (rules nc)) by (unfold zlen; by rewrite length_fmap).
  rewrite fmap_app. apply List.Forall2_app; [|by apply sso_puts].
  cbn [fmap list_fmap]. repeat (first [apply List.Forall2_nil | apply List.Forall2_cons]); put_tac.
  - by apply COM.com_writes_wire.
  - rewrite <- list_fmap_compose. apply list.Forall_fmap in Hcaps. apply (append_all_Forall _ _ ((fun c => Capability.ok c /\ Capability.proper c) ∘ Capability.wire)); [|done|done].
    intros x b' [? _] ?. by apply capability_wire_writes.
  - apply (append_all_Forall _ _ Tag.ok); [|done|done]. intros. by apply Tag.tag_writes_wire.
  - eapply (append_all_Forall _ _); [|exact Hcoos|done]. intros x b' (? & _ & ?) ?. by apply COO.coo_writes_wire.
  - apply (append_all_Forall _ _ (fun _ => True)); [|by apply list.Forall_true|done]. intros. by apply append_int_writes.
  - eapply (append_all_Forall _ _); [|exact Hroutes|done]. intros x b' (? & ? & _) ?. by apply route_writes.
  - apply (append_all_Forall _ _ inet_wf); [|done|done]. intros. by apply inet_writes.
  - rewrite <- serialize_wire_rules. by apply rules_writes.
  - by apply dns_writes.
Qed.

(** When the text fits, [toDictionary] writes all the entries. *)
Lemma toDictionary_entries nc tmp d : netconf_ok (wire nc) -> buf_ok tmp -> capacity tmp = zlen d -> 0 < zlen d -> zlen (dict_text (netconf_entries (wire nc))) < zlen d ->
  exists d', toDictionary nc tmp d = Ok (d', true) /\ rep d' (netconf_entries (wire nc)) /\ zlen d' = zlen d.
Proof.
  intros Hok Ht Hc Hd Hfit. unfold toDictionary.
  assert (zlen (dict_clear d) = zlen d) as Hz by (unfold dict_clear, zlen; by rewrite length_replicate).
  destruct (puts_seq _ _ (netconf_puts nc Hok) (dict_clear d) tmp []) as (d' & t' & -> & Hr & Hl & _).
  - apply Dictionary_new_rep. unfold zlen in Hd. lia.
  - done.
  - congruence.
  - by rewrite Hz.
  - exists d'. split; [done|]. split; [exact Hr|]. congruence.
Qed.

(** ** Reading *)

Lemma field_first fs k o : NoDup fs.*1 -> (k, o) ∈ fs -> first_value (concat (field_entries <$> fs)) k = o.
Proof.
  assert (forall fs, k ∉ fs.*1 -> first_value (concat (field_entries <$> fs)) k = None) as Habs.
  { clear. induction fs as [|[k' o'] fs IH]; [done|]. cbn [fmap list_fmap fst]. intros [Hk Hn]%not_elem_of_cons.
    cbn [concat]. unfold field_entries at 1. cbn [fst snd]. destruct o'; cbn [app first_value]; [rewrite decide_False by done|]; by apply IH. }
  induction fs as [|[k' o'] fs IH]; [by intros _ ?%elem_of_nil|]. cbn [fmap list_fmap fst]. intros [Hn Hnd]%list.NoDup_cons [[= -> ->]|Hin]%elem_of_cons.
  - cbn [concat]. unfold field_entries at 1. cbn [fst snd]. destruct o'; cbn [app first_value]; [by rewrite decide_True|by apply Habs].
  - assert (k <> k') as Hk. { intros ->. apply Hn. apply (list_elem_of_fmap_2' fst _ (k', o)); done. }
    cbn [concat]. unfold field_entries at 1. cbn [fst snd]. destruct o'; cbn [app first_value]; [rewrite decide_False by done|]; by apply IH.
Qed.

Lemma field_absent fs k : k ∉ fs.*1 -> first_value (concat (field_entries <$> fs)) k = None.
Proof.
  induction fs as [|[k' o'] fs IH]; [done|]. cbn [fmap list_fmap fst]. intros [Hk Hn]%not_elem_of_cons.
  cbn [concat]. unfold field_entries at 1. cbn [fst snd]. destruct o'; cbn [app first_value]; [rewrite decide_False by done|]; by apply IH.
Qed.

Section reading.
Context (d : list Z) (es : list entry) (Hrep : rep d es) (stack : list Z) (Hstack : zlen stack = 128).

Lemma hexdigits_nonzero n v : Forall (fun c => c <> 0) (hexdigits n v).
Proof. eapply list.Forall_impl; [apply hexdigits_plain|]. by intros c [? _]. Qed.

Lemma get_chars key v : legal_key key -> first_value es key = Some v -> Forall (fun c => c <> 0) v -> zlen v < 128 ->
  exists m, get d key stack 128 = Ok (zlen v, m) /\ cstr m = v.
Proof. intros. by eapply get_stored. Qed.

Lemma getUI_hex key n v dfl : legal_key key -> first_value es key = Some (hexdigits (S n) v) -> (S n <= 16)%nat -> 0 <= v < 2 ^ (4 * Z.of_nat (S n)) ->
  getUI stack d key dfl = Ok v.
Proof.
  intros Hk Hf Hn Hv. destruct (get_chars key _ Hk Hf (hexdigits_nonzero _ _)) as (m & E & Em); [rewrite zlen_hexdigits; lia|].
  unfold getUI. rewrite E. cbn [mbind outcome_bind]. rewrite zlen_hexdigits, (proj2 (Z.leb_le 1 _)) by lia. f_equal. rewrite Em.
  unfold hexStrToU64. rewrite (proj1 (strto_hex_plain n v)). rewrite Z.mod_small by done.
  assert (2 ^ (4 * Z.of_nat (S n)) <= 2 ^ 64) by (apply Z.pow_le_mono_r; lia). by rewrite (proj2 (Z.leb_gt _ _)) by lia.
Qed.

Lemma getUI_signed key v dfl : legal_key key -> first_value es key = Some (signed_text v) -> srng 64 v -> v <> - 2 ^ 63 ->
  exists x, getUI stack d key dfl = Ok x /\ s64 x = v.
Proof.
  intros Hk Hf Hv Hm. unfold srng in Hv. unfold signed_text in Hf. destruct (Z.leb_spec 0 v) as [H0|H0].
  - exists v. rewrite u64_small in Hf by lia. split; [apply (getUI_hex key 15); [done|done|lia|lia]|].
    unfold s64, swrap. rewrite Z.mod_small by lia. lia.
  - destruct (get_chars key _ Hk Hf) as (m & E & Em).
    { constructor; [done|apply hexdigits_nonzero]. }
    { rewrite zlen_cons, zlen_hexdigits. lia. }
    unfold getUI. rewrite E. cbn [mbind outcome_bind]. rewrite zlen_cons, zlen_hexdigits. cbn [Z.leb Z.compare Z.add Z.of_nat Pos.compare].
    eexists. split; [done|]. rewrite Em. unfold hexStrToU64. rewrite (proj2 (strto_hex_plain 15 _)).
    change (4 * Z.of_nat 16) with 64. rewrite u64_small, Z.mod_small by lia.
    change (1 <=? 1 + Z.of_nat 16) with true. cbv match. destruct (Z.leb_spec (2 ^ 64) (v * -1)); [lia|].
    unfold s64, swrap, u64, wrap. replace (- (v * -1)) with v by lia. rewrite Z.add_mod_idemp_l by lia. rewrite Z.mod_small by lia. lia.
Qed.

Lemma getUI_none key dfl : legal_key key -> first_value es key = None -> getUI stack d key dfl = Ok dfl.
Proof. intros Hk Hf. unfold getUI. rewrite (get_refines d es) by (done || lia). by rewrite Hf. Qed.

Lemma getI_hex key v dfl : legal_key key -> first_value es key = Some (hexdigits 16 v) -> rng 63 v -> getI stack d key dfl = Ok v.
Proof.
  intros Hk Hf Hv. unfold rng in Hv. destruct (get_chars key _ Hk Hf (hexdigits_nonzero _ _)) as (m & E & Em); [rewrite zlen_hexdigits; lia|].
  unfold getI. rewrite E. cbn [mbind outcome_bind]. rewrite zlen_hexdigits. change (1 <=? Z.of_nat 16) with true. cbv match. f_equal. rewrite Em.
  unfold hexStrTo64. rewrite (proj1 (strto_hex_plain 15 v)). change (4 * Z.of_nat 16) with 64. rewrite Z.mod_small by lia. lia.
Qed.

Lemma getI_none key dfl : legal_key key -> first_value es key = None -> getI stack d key dfl = Ok dfl.
Proof. intros Hk Hf. unfold getI. rewrite (get_refines d es) by (done || lia). by rewrite Hf. Qed.

Lemma zlen_stack4 : zlen (take 4 stack) = 4.
Proof. change 4%nat with (Z.to_nat 4). apply zlen_take. lia. Qed.

Lemma getB_some key b dfl : legal_key key -> first_value es key = Some (bool_text b) -> getB (take 4 stack) d key dfl = Ok b.
Proof.
  intros Hk Hf. pose proof zlen_stack4. unfold getB. rewrite (get_refines d es) by (done || lia). rewrite Hf. by destruct b.
Qed.
Lemma getB_none key dfl : legal_key key -> first_value es key = None -> getB (take 4 stack) d key dfl = Ok dfl.
Proof. intros Hk Hf. pose proof zlen_stack4. unfold getB. rewrite (get_refines d es) by (done || lia). by rewrite Hf. Qed.

Lemma zlen_array (old : list Z) n : (length old <= n)%nat -> zlen (old ++ replicate (n - length old) 0) = Z.of_nat n.
Proof. intros. unfold zlen. rewrite length_app, length_replicate. lia. Qed.

Lemma cstr_insert v r i : Forall (fun c => c <> 0) v -> (length v <= i)%nat -> cstr (<[i := 0]> (v ++ 0 :: r)) = v.
Proof.
  intros Hv Hi. rewrite insert_app_r_alt by done. destruct (i - length v)%nat as [|k]; cbn [insert list_insert]; by apply cstr_hex.
Qed.

Lemma get_terminated_some key old n v : legal_key key -> (length old <= n)%nat -> (0 < n)%nat -> first_value es key = Some v -> text_ok (Z.of_nat n) v ->
  get_terminated d key old n = Ok (zlen v, v).
Proof.
  clear Hstack. intros Hk Hold Hn Hf (_ & Hv & Hl). pose proof (zlen_array old n Hold) as Hz. unfold get_terminated.
  rewrite (get_refines d es) by (done || lia). rewrite Hf. rewrite take_ge by (unfold zlen in *; lia). cbv zeta. cbn [mbind outcome_bind].
  assert (zlen (v ++ [0] ++ drop (length v + 1) (old ++ replicate (n - length old) 0)) = Z.of_nat n) as Hm.
  { rewrite !zlen_app. change (zlen [0]) with 1. unfold zlen in *. rewrite length_drop. lia. }
  destruct (0 <? zlen v); cbn [mbind outcome_bind].
  - rewrite mem_write1 by lia. cbn [mbind outcome_bind]. do 2 f_equal. apply cstr_insert; [done|unfold zlen in *; lia].
  - do 2 f_equal. by apply cstr_hex.
Qed.

Lemma get_terminated_none key old n : legal_key key -> (length old <= n)%nat -> (0 < n)%nat -> first_value es key = None ->
  get_terminated d key old n = Ok (-1, []).
Proof.
  clear Hstack. intros Hk Hold Hn Hf. pose proof (zlen_array old n Hold) as Hz. unfold get_terminated.
  rewrite (get_refines d es) by (done || lia). rewrite Hf. cbn [mbind outcome_bind Z.ltb Z.compare]. do 2 f_equal.
  destruct (old ++ replicate (n - length old) 0) as [|x l]; [unfold zlen in Hz; cbn in Hz; lia|done].
Qed.

Lemma get_text_some key n v : legal_key key -> (0 < n)%nat -> first_value es key = Some v -> text_ok (Z.of_nat n) v -> get_text d key [] n = Ok (zlen v, v).
Proof.
  clear Hstack. intros Hk Hn Hf (_ & Hv & Hl). pose proof (zlen_array [] n ltac:(cbn; lia)) as Hz. unfold get_text.
  rewrite (get_refines d es) by (done || lia). rewrite Hf. rewrite take_ge by (unfold zlen in *; lia). cbv zeta. cbn [mbind outcome_bind].
  do 2 f_equal. by apply cstr_hex.
Qed.

Lemma get_buffer_some key v (t : Buffer) : legal_key key -> first_value es key = Some v -> bytes_ok v -> zlen v < zlen d -> buf_ok t -> capacity t = zlen d ->
  exists t', get_buffer d key t = Ok (t', true) /\ data t' = v /\ buf_ok t' /\ capacity t' = zlen d.
Proof.
  clear Hstack. intros Hk Hf Hv Hl Ht Hc. pose proof (zlen_nonneg v). destruct Ht as [Hs Hcap Hb]. unfold capacity in *. unfold get_buffer, capacity.
  rewrite (get_refines d es) by (done || lia). rewrite Hf. rewrite take_ge by (unfold zlen in *; lia). cbv zeta. cbn [mbind outcome_bind].
  rewrite (proj2 (Z.leb_le 0 _)) by lia. unfold setSize, capacity. cbn [_b].
  assert (zlen (v ++ [0] ++ drop (length v + 1) (_b t)) = zlen d) as Hm.
  { rewrite !zlen_app. change (zlen [0]) with 1. unfold zlen in *. rewrite length_drop. lia. }
  rewrite bind_throw_if_false by (apply Z.ltb_ge; lia). cbn [mbind outcome_bind]. eexists. split; [done|]. split_and!.
  - unfold data. cbn [_l _b]. unfold zlen. by rewrite Nat2Z.id, take_app_length.
  - split; unfold capacity; cbn [_l _b]; [lia|lia|]. rewrite !bytes_ok_app. split; [done|]. split; [by repeat constructor|]. by apply list.Forall_drop.
  - exact Hm.
Qed.

Lemma get_buffer_none key (t : Buffer) : legal_key key -> first_value es key = None -> buf_ok t -> capacity t = zlen d -> 0 < zlen d ->
  exists t', get_buffer d key t = Ok (t', false) /\ buf_ok t' /\ capacity t' = zlen d.
Proof.
  clear Hstack. intros Hk Hf Ht Hc Hd. destruct Ht as [Hs Hcap Hb]. unfold capacity in *. unfold get_buffer, capacity.
  rewrite (get_refines d es) by (done || lia). rewrite Hf. cbn [mbind outcome_bind Z.leb Z.compare]. eexists. split; [done|]. unfold clear, capacity. cbn [_b _l].
  split; [|by rewrite zlen_insert]. split; unfold capacity; cbn [_b _l]; rewrite ?zlen_insert; [lia|lia|]. by apply Forall_insert.
Qed.
End reading.

(** *** Sequences of objects *)

Section loops.
Context {A : Type} (deser : Buffer -> Z -> outcome (A * Z)) (enc : A -> list Z) (P : A -> Prop).
Context (Hread : forall x b p rest, P x -> buf_ok b -> rest_at b p (enc x ++ rest) -> deser b p = Ok (x, zlen (enc x))).
Context (Hpos : forall x, P x -> 1 <= zlen (enc x)).

Lemma rest_size b p bs : buf_ok b -> rest_at b p bs -> 0 <= p /\ size b = p + zlen bs /\ size b < 2 ^ 31.
Proof. intros Hb Hr. pose proof (rest_at_bound b Hb p bs Hr). pose proof (buf_l b Hb). unfold size. lia. Qed.

(** The array holds at most [max] objects: one more is stored beyond its end. *)
Lemma read_unbounded_spec max b l : forall fuel p acc, Forall P l -> buf_ok b -> rest_at b p (concat (enc <$> l)) ->
  zlen acc <= max -> (length l < fuel)%nat ->
  read_unbounded deser max fuel b p acc = if zlen acc + zlen l <=? max then Ok (acc ++ l) else Undef.
Proof.
  induction l as [|x l IH]; intros fuel p acc Hl Hb Hr Hmax Hf; (destruct fuel as [|fuel]; [lia|]); cbn [read_unbounded].
  all: destruct (rest_size b p _ Hb Hr) as (Hp & Hs & Hs2).
  - rewrite (proj2 (Z.ltb_ge _ _)) by (cbn in Hs; rewrite Hs; change (zlen []) with 0; lia).
    rewrite (proj2 (Z.leb_le _ _)) by (change (@zlen A []) with 0; lia). by rewrite app_nil_r.
  - apply list.Forall_cons in Hl as [Hx Hl]. cbn [fmap list_fmap concat] in *. pose proof (Hpos x Hx). rewrite zlen_app in Hs. pose proof (zlen_nonneg (concat (enc <$> l))).
    rewrite (proj2 (Z.ltb_lt _ _)) by lia. rewrite (Hread x b p _ Hx Hb Hr). rewrite zlen_cons. pose proof (zlen_nonneg l).
    destruct (Z.ltb_spec (zlen acc) max); [|by rewrite (proj2 (Z.leb_gt _ _)) by lia].
    rewrite u32_small by lia. apply rest_at_next in Hr. assert (zlen (acc ++ [x]) = zlen acc + 1) as E by (rewrite zlen_app; done).
    rewrite (IH fuel (p + zlen (enc x)) (acc ++ [x])); [|done|done|done|lia|cbn in Hf; lia].
    rewrite E, <- app_assoc. by replace (zlen acc + 1 + zlen l) with (zlen acc + (1 + zlen l)) by lia.
Qed.

Lemma read_unbounded_reads max b l fuel p acc : Forall P l -> buf_ok b -> rest_at b p (concat (enc <$> l)) ->
  zlen acc + zlen l <= max -> (length l < fuel)%nat -> read_unbounded deser max fuel b p acc = Ok (acc ++ l).
Proof.
  intros ? ? ? ? ?. pose proof (zlen_nonneg l). rewrite read_unbounded_spec with (l := l) by (done || lia). by rewrite (proj2 (Z.leb_le _ _)) by lia.
Qed.

Lemma read_bounded_reads discard max b l : forall fuel p acc, Forall P l -> buf_ok b -> rest_at b p (concat (enc <$> l)) ->
  zlen acc + zlen l <= max -> (length l < fuel)%nat -> read_bounded deser discard max fuel b p acc = Ok (acc ++ l).
Proof.
  induction l as [|x l IH]; intros fuel p acc Hl Hb Hr Hmax Hf; (destruct fuel as [|fuel]; [lia|]); cbn [read_bounded].
  all: destruct (rest_size b p _ Hb Hr) as (Hp & Hs & Hs2).
  - rewrite (proj2 (Z.ltb_ge p _)) by (cbn in Hs; rewrite Hs; change (zlen []) with 0; lia). by rewrite app_nil_r.
  - apply list.Forall_cons in Hl as [Hx Hl]. cbn [fmap list_fmap concat] in *. pose proof (Hpos x Hx). rewrite zlen_app in Hs. pose proof (zlen_nonneg (concat (enc <$> l))).
    rewrite (proj2 (Z.ltb_lt p _)) by lia. rewrite zlen_cons in Hmax. pose proof (zlen_nonneg l).
    rewrite (proj2 (Z.ltb_lt _ max)) by lia. rewrite orb_true_r. cbn [andb]. rewrite (Hread x b p _ Hx Hb Hr). cbn [mbind outcome_bind].
    rewrite u32_small by lia. apply rest_at_next in Hr.
    rewrite (IH fuel (p + zlen (enc x)) (acc ++ [x])); [by rewrite <- app_assoc|done|done|done| |cbn in Hf; lia].
    rewrite zlen_app. change (zlen [x]) with 1. lia.
Qed.

(** The fuel of a blob is enough for what is in it. *)
Lemma blob_fuel_enough b l : Forall P l -> data b = concat (enc <$> l) -> buf_ok b -> (length l < blob_fuel b)%nat.
Proof.
  intros Hl Hd Hb. pose proof (zlen_data b Hb) as Hz. rewrite Hd in Hz. unfold blob_fuel, size. rewrite <- Hz.
  assert (zlen l <= zlen (concat (enc <$> l))); [|unfold zlen in *; lia].
  clear Hd Hz. induction Hl as [|x l Hx Hl IH]; [done|]. cbn [fmap list_fmap concat]. rewrite zlen_cons, zlen_app. pose proof (Hpos x Hx). lia.
Qed.
End loops.

Lemma rest_at_start b bs : data b = bs -> rest_at b 0 bs.
Proof. intros Hd. by exists []. Qed.

Lemma read_specialists_reads b l : forall fuel p acc, Forall (rng 64) l -> buf_ok b -> rest_at b p (concat (be_bytes 8 <$> l)) ->
  zlen acc + zlen l <= 256 -> (length l < fuel)%nat -> read_specialists fuel b p acc = Ok (acc ++ l).
Proof.
  induction l as [|x l IH]; intros fuel p acc Hl Hb Hr Hmax Hf; (destruct fuel as [|fuel]; [lia|]); cbn [read_specialists].
  all: destruct (rest_size b p _ Hb Hr) as (Hp & Hs & Hs2).
  - rewrite (proj2 (Z.leb_gt _ _)) by (cbn in Hs; rewrite Hs; change (zlen []) with 0; lia). by rewrite app_nil_r.
  - apply list.Forall_cons in Hl as [Hx Hl]. cbn [fmap list_fmap concat] in *. rewrite zlen_app, zlen_be_bytes in Hs. pose proof (zlen_nonneg (concat (be_bytes 8 <$> l))).
    rewrite (proj2 (Z.leb_le _ _)) by lia. rewrite zlen_cons in Hmax. pose proof (zlen_nonneg l). unfold ZT_MAX_NETWORK_SPECIALISTS.
    rewrite (proj2 (Z.ltb_lt _ _)) by lia. read_step Hb Hr. unfold rng in Hx. rewrite Z.mod_small by lia. cbn [mbind outcome_bind]. change (Z.of_nat 8) with 8 in Hr.
    rewrite (IH fuel (p + 8) (acc ++ [x])); [by rewrite <- app_assoc|done|done|done| |cbn in Hf; lia].
    rewrite zlen_app. change (zlen [x]) with 1. lia.
Qed.

Definition route_ok (r : Route) : Prop := inet_wf (target r) /\ inet_wf (via r) /\ rng 16 (route_flags r) /\ rng 16 (metric r).

Lemma inet_enc_pos a : 1 <= zlen (inet_enc a).
Proof. destruct a; unfold inet_enc; rewrite ?zlen_app, ?zlen_be_bytes; try lia. pose proof (zlen_nonneg ip); lia. Qed.

Lemma route_reads r b p rest : route_ok r -> buf_ok b -> rest_at b p (route_enc r ++ rest) -> deserialize_route b p = Ok (r, zlen (route_enc r)).
Proof.
  intros (Ht & Hv & Hf & Hm) Hb Hr. unfold route_enc in *. rewrite <- !app_assoc in Hr. unfold deserialize_route.
  rewrite (inet_reads _ _ _ _ Ht Hb Hr). apply rest_at_next in Hr. cbn [mbind outcome_bind].
  rewrite (inet_reads _ _ _ _ Hv Hb Hr). apply rest_at_next in Hr. cbn [mbind outcome_bind].
  read_step Hb Hr. change (Z.of_nat 2) with 2 in Hr. read_step Hb Hr. unfold rng in *. rewrite !Z.mod_small by lia. rewrite !zlen_app, !zlen_be_bytes.
  destruct r as [rt rv rf rm]. cbn [target via route_flags metric]. do 2 f_equal. lia.
Qed.

Lemma read_servers_reads b l : forall p rest, Forall inet_wf l -> buf_ok b -> rest_at b p (concat (inet_enc <$> l) ++ rest) -> read_servers (length l) b p = Ok l.
Proof.
  induction l as [|a l IH]; intros p rest Hl Hb Hr; [done|]. apply list.Forall_cons in Hl as [Ha Hl]. cbn [length read_servers fmap list_fmap concat] in *.
  rewrite <- app_assoc in Hr. rewrite (inet_reads _ _ _ _ Ha Hb Hr). apply rest_at_next in Hr. cbn [mbind outcome_bind].
  by rewrite (IH _ _ Hl Hb Hr).
Qed.

Lemma dns_reads dn b : data b = dns_enc dn -> buf_ok b -> (exists dom, domain dn = dom ++ [0] /\ length dom = 127%nat) -> Forall inet_wf (server_addr dn) ->
  length (server_addr dn) = 4%nat -> deserializeDNS b 0 = Ok dn.
Proof.
  intros Hd Hb (dom & Hdom & Hl) Hs Hn. unfold dns_enc in Hd. unfold deserializeDNS.
  assert (zlen (domain dn) = 128) as Hz by (rewrite Hdom, zlen_app; unfold zlen; rewrite Hl; done).
  pose proof (data_prefix b [] (domain dn) (concat (inet_enc <$> server_addr dn)) Hd) as E. change (zlen (@nil Z)) with 0 in E. rewrite Hz in E. rewrite E.
  cbn [mbind outcome_bind]. assert (mem_write (domain dn) 127 [0] = Ok (domain dn)) as ->.
  { rewrite mem_write1 by lia. f_equal. rewrite Hdom. change (Z.to_nat 127) with 127%nat. rewrite <- Hl. rewrite insert_app_r_alt by lia. by rewrite Nat.sub_diag. }
  cbn [mbind outcome_bind]. rewrite <- Hn. rewrite (read_servers_reads b (server_addr dn) _ [] Hs Hb); [by destruct dn|].
  rewrite app_nil_r. replace (0 + 128) with (0 + zlen (domain dn)) by lia. apply rest_at_next. by apply rest_at_start.
Qed.

Lemma bytes_concat {A} (enc : A -> list Z) (P : A -> Prop) l : (forall x, P x -> bytes_ok (enc x)) -> Forall P l -> bytes_ok (concat (enc <$> l)).
Proof. intros He. induction 1 as [|x l Hx _ IH]; [constructor|]. cbn [fmap list_fmap concat]. apply bytes_ok_app. auto. Qed.

Lemma first_value_text es k v : first_value es k = Some v -> zlen v < zlen (dict_text es).
Proof.
  intros Hf. assert ((k, v) ∈ es) as Hin.
  { induction es as [|[k' v'] es IH]; [done|]. cbn [first_value] in Hf. case_decide; [injection Hf as ->; subst; by left|right; by apply IH]. }
  apply list_elem_of_split in Hin as (l1 & l2 & ->). pose proof (value_in_text l1 k v). pose proof (dict_text_app_le (l1 ++ [(k, v)]) l2) as Hle.
  rewrite <- app_assoc in Hle. cbn [app] in Hle. lia.
Qed.

Lemma netconf_keys nc : NoDup (netconf_fields nc).*1.
Proof. unfold netconf_fields, sso_fields. repeat case_match; cbn [app fmap list_fmap fst]; by_compute. Qed.

Lemma netconf_field nc k o : (k, o) ∈ netconf_fields nc -> first_value (netconf_entries nc) k = o.
Proof. apply field_first, netconf_keys. Qed.

Section blobs.
Context (d : list Z) (es : list entry) (Hrep : rep d es) (Hfit : zlen (dict_text es) < zlen d).

Lemma read_blob_field {A} key bs (dfl a : A) (k : Buffer -> outcome A) t : legal_key key -> first_value es key = nonempty bs -> bytes_ok bs ->
  (bs = [] -> dfl = a) -> (forall b, bs <> [] -> buf_ok b -> data b = bs -> k b = Ok a) -> buf_ok t -> capacity t = zlen d ->
  exists t', read_blob d key dfl k t = Ok (t', a) /\ buf_ok t' /\ capacity t' = zlen d.
Proof.
  intros Hk Hf Hbs Hdfl Hread Ht Hc. pose proof (zlen_nonneg (dict_text es)). unfold read_blob. destruct bs as [|x bs].
  - destruct (get_buffer_none d es Hrep key t Hk Hf Ht Hc) as (t' & -> & Ht' & Hc'); [lia|]. cbn [mbind outcome_bind]. exists t'.
    by rewrite Hdfl.
  - cbn [nonempty] in Hf. pose proof (first_value_text _ _ _ Hf).
    destruct (get_buffer_some d es Hrep key _ t Hk Hf Hbs) as (t' & -> & Hd & Ht' & Hc'); [lia|done|done|]. cbn [mbind outcome_bind].
    rewrite (Hread t' ltac:(done) Ht' Hd). cbn [mbind outcome_bind]. by exists t'.
Qed.
End blobs.

Lemma capability_enc_pos c : 1 <= zlen (Capability.enc c).
Proof. unfold Capability.enc, Capability.body. rewrite !zlen_app, !zlen_be_bytes. repeat match goal with |- context [zlen ?x] => lazymatch goal with _ : 0 <= zlen x |- _ => fail | _ => pose proof (zlen_nonneg x) end end. lia. Qed.
Lemma tag_enc_pos t : 1 <= zlen (Tag.enc t).
Proof. unfold Tag.enc, Tag.body. rewrite !zlen_app, !zlen_be_bytes. pose proof (zlen_nonneg (sig_enc (Tag._signature t))). lia. Qed.
Lemma coo_enc_pos c : 1 <= zlen (COO.enc c).
Proof. unfold COO.enc, COO.body. rewrite !zlen_app, !zlen_be_bytes. pose proof (zlen_nonneg (sig_enc (COO._signature c))). pose proof (zlen_nonneg (COO.things_enc (COO.things c))). lia. Qed.


(** ** The round trip *)

(** [in_fields]: a field with a given key is in the list. *)
Ltac in_fields := repeat (first [apply list_elem_of_here | apply list_elem_of_further]).

(** The rules are all that is in the buffer: the loop ends there, whatever fuel is left. *)
Lemma rules_reads_upto n rs : forall b p acc, Forall rule_wf rs -> buf_ok b -> rest_at b p (rules_enc rs ++ []) -> (length rs <= n)%nat ->
  deserializeRules n b p acc = Ok (acc ++ rs, p + zlen (rules_enc rs)).
Proof.
  revert n. induction rs as [|r rs IH]; intros n b p acc Hw Hb Hr Hn.
  - destruct (rest_size b p _ Hb Hr) as (_ & Hs & _). change (zlen (rules_enc [] ++ [])) with 0 in Hs. rewrite app_nil_r. change (zlen (rules_enc [])) with 0. rewrite Z.add_0_r.
    destruct n; [done|]. cbn [deserializeRules]. by rewrite (proj2 (Z.ltb_ge _ _)) by lia.
  - destruct n as [|n]; [cbn in Hn; lia|]. apply list.Forall_cons in Hw as [Hw Hws]. cbn [deserializeRules].
    change (rules_enc (r :: rs)) with (rule_enc r ++ rules_enc rs) in *. rewrite <- app_assoc in Hr.
    destruct (rest_size b p _ Hb Hr) as (_ & Hs & _). rewrite !zlen_app in Hs. pose proof (zlen_rule_enc r). pose proof (zlen_nonneg (rules_enc rs)).
    change (zlen (@nil Z)) with 0 in Hs. rewrite (proj2 (Z.ltb_lt _ _)) by lia.
    rewrite (rule_reads r b p (rules_enc rs ++ []) Hw Hb Hr). cbn [mbind outcome_bind]. apply rest_at_next in Hr.
    rewrite (IH n b _ (acc ++ [r]) Hws Hb Hr) by (cbn in Hn; lia). rewrite <- app_assoc, zlen_app. do 2 f_equal. lia.
Qed.

Section roundtrip.
Context `{StdSortLaws}.
Context (nc : NetworkConfig) (Hok : netconf_ok nc) (d : list Z) (Hrep : rep d (netconf_entries nc)) (Hfit : zlen (dict_text (netconf_entries nc)) < zlen d).
Context (stack : list Z) (Hstack : zlen stack = 128).

Lemma sso_field k o : (k, o) ∈ sso_fields (sso nc) -> first_value (netconf_entries nc) k = o.
Proof. intros Hin. apply netconf_field. unfold netconf_fields. apply elem_of_app. by right. Qed.
Lemma sso_no_field k : k ∉ (netconf_fields nc).*1 -> first_value (netconf_entries nc) k = None.
Proof. apply field_absent. Qed.

Lemma rng64_hex v : rng 64 v -> 0 <= v < 2 ^ (4 * Z.of_nat 16).
Proof. unfold rng. change (4 * Z.of_nat 16) with 64. lia. Qed.

Lemma rng32_hex v : rng 32 v -> 0 <= v < 2 ^ (4 * Z.of_nat 16).
Proof. unfold rng. change (4 * Z.of_nat 16) with 64. lia. Qed.

Lemma sso_url_v0 : ssoVersion (sso nc) = 0 -> ssoEnabled (sso nc) = true ->
  exists r, get_terminated d KEY_AUTHENTICATION_URL [] 2048 = Ok (r, authenticationURL (sso nc)) /\ (if 0 <? r then authenticationURL (sso nc) else []) = authenticationURL (sso nc).
Proof.
  intros Hv He. destruct Hok as [? ? ? ? ? ? ? ? ? ? ? ? ? ? ? ? ? ? ? ? ? [_ Hu _ _ _ _ _ _ _]].
  assert (first_value (netconf_entries nc) KEY_AUTHENTICATION_URL = only (ssoEnabled (sso nc) && negb (is_empty (authenticationURL (sso nc)))) (Some (authenticationURL (sso nc)))) as Hf.
  { apply sso_field. unfold sso_fields. rewrite Hv. cbn [Z.eqb]. in_fields. }
  rewrite He in Hf. cbn [andb] in Hf. destruct (authenticationURL (sso nc)) as [|c u] eqn:E; cbn [is_empty negb only] in Hf.
  - exists (-1). split; [|done]. apply (get_terminated_none _ _ Hrep); [by_compute|cbn; lia|lia|done].
  - exists (zlen (c :: u)). split.
    + apply (get_terminated_some _ _ Hrep); [by_compute|cbn; lia|lia|done|exact Hu].
    + by rewrite zlen_cons, (proj2 (Z.ltb_lt 0 _)) by (pose proof (zlen_nonneg u); lia).
Qed.

Lemma text_field key old n v : legal_key key -> (length old <= n)%nat -> (0 < n)%nat -> (key, Some v) ∈ sso_fields (sso nc) -> text_ok (Z.of_nat n) v ->
  get_terminated d key old n = Ok (zlen v, v).
Proof. intros Hk Ho Hn Hin Hv. apply (get_terminated_some _ _ Hrep); [done|done|done|by apply sso_field|done]. Qed.

Lemma read_sso_received : read_sso stack d (sso (NetworkConfig_nil 0)) = Ok (received_sso (sso nc)).
Proof.
  destruct Hok as [? ? ? ? ? ? ? ? ? ? ? ? ? ? ? ? ? ? ? ? ? [Hver Hu Hexp Hi Hc Hn Hs Hcl Hp]]. unfold read_sso, received_sso. cbn [sso NetworkConfig_nil].
  destruct (Z.eqb_spec (ssoVersion (sso nc)) 0) as [Hv|Hv0]; [|destruct (Z.eqb_spec (ssoVersion (sso nc)) 1) as [Hv|Hv1]].
  - assert (forall k o, (k, o) ∈ sso_fields (sso nc) -> first_value (netconf_entries nc) k = o) as Hf by apply sso_field.
    rewrite (getUI_hex _ _ Hrep _ Hstack KEY_SSO_VERSION 15 0); [|key|apply Hf; unfold sso_fields; rewrite Hv; cbn [Z.eqb]; in_fields|lia|lia].
    rewrite (getB_some _ _ Hrep _ Hstack KEY_SSO_ENABLED (ssoEnabled (sso nc))); [|key|apply Hf; unfold sso_fields; rewrite Hv; cbn [Z.eqb]; in_fields].
    cbn [mbind outcome_bind Z.eqb]. destruct (ssoEnabled (sso nc)) eqn:He; [|done].
    destruct (sso_url_v0 Hv He) as (r & E & Er). cbn [authenticationURL]. rewrite E. cbn [mbind outcome_bind].
    rewrite (getI_hex _ _ Hrep _ Hstack KEY_AUTHENTICATION_EXPIRY_TIME (authenticationExpiryTime (sso nc)));
      [|by_compute|apply Hf; unfold sso_fields; rewrite Hv, He; cbn [Z.eqb only]; in_fields|done].
    cbn [mbind outcome_bind]. rewrite Er. unfold rng in Hexp. by rewrite u64_small by lia.
  - assert (forall k o, (k, o) ∈ sso_fields (sso nc) -> first_value (netconf_entries nc) k = o) as Hf by apply sso_field.
    rewrite (getUI_hex _ _ Hrep _ Hstack KEY_SSO_VERSION 15 1); [|key|apply Hf; unfold sso_fields; rewrite Hv; cbn [Z.eqb]; in_fields|lia|lia].
    rewrite (getB_some _ _ Hrep _ Hstack KEY_SSO_ENABLED (ssoEnabled (sso nc))); [|key|apply Hf; unfold sso_fields; rewrite Hv; cbn [Z.eqb]; in_fields].
    cbn [mbind outcome_bind Z.eqb]. destruct (ssoEnabled (sso nc)) eqn:He; [|done].
    cbn [authenticationURL issuerURL centralAuthURL ssoNonce ssoState ssoClientID ssoProvider authenticationExpiryTime].
    rewrite (get_terminated_none _ _ Hrep KEY_AUTHENTICATION_URL);
      [|by_compute|cbn; lia|lia|apply sso_no_field; unfold netconf_fields, sso_fields; rewrite Hv; cbn [Z.eqb app fmap list_fmap fst]; by_compute].
    cbn [mbind outcome_bind].
    assert (forall key old n v, legal_key key -> (length old <= n)%nat -> (0 < n)%nat ->
      (key, Some v) ∈ [(KEY_ISSUER_URL, Some (issuerURL (sso nc))); (KEY_CENTRAL_ENDPOINT_URL, Some (centralAuthURL (sso nc)));
         (KEY_NONCE, Some (ssoNonce (sso nc))); (KEY_STATE, Some (ssoState (sso nc))); (KEY_CLIENT_ID, Some (ssoClientID (sso nc)));
         (KEY_SSO_PROVIDER, Some (ssoProvider (sso nc)))] -> text_ok (Z.of_nat n) v -> get_terminated d key old n = Ok (zlen v, v)) as Ht.
    { intros key old n v ? ? ? Hin ?. apply text_field; try done. unfold sso_fields. rewrite Hv. cbn [Z.eqb]. do 2 apply list_elem_of_further. exact Hin. }
    rewrite (Ht KEY_ISSUER_URL [] 2048%nat (issuerURL (sso nc))); [|by_compute|cbn; lia|lia|in_fields|done]. cbn [mbind outcome_bind].
    rewrite (Ht KEY_CENTRAL_ENDPOINT_URL [] 2048%nat (centralAuthURL (sso nc))); [|by_compute|cbn; lia|lia|in_fields|done]. cbn [mbind outcome_bind].
    rewrite (Ht KEY_NONCE [] 128%nat (ssoNonce (sso nc))); [|by_compute|cbn; lia|lia|in_fields|done]. cbn [mbind outcome_bind].
    rewrite (Ht KEY_STATE [] 256%nat (ssoState (sso nc))); [|by_compute|cbn; lia|lia|in_fields|done]. cbn [mbind outcome_bind].
    rewrite (Ht KEY_CLIENT_ID [] 256%nat (ssoClientID (sso nc))); [|by_compute|cbn; lia|lia|in_fields|done]. cbn [mbind outcome_bind].
    rewrite (Ht KEY_SSO_PROVIDER default_provider 64%nat (ssoProvider (sso nc))); [|by_compute|cbn; lia|lia|in_fields|done]. cbn [mbind outcome_bind].
    do 2 f_equal. destruct (ssoProvider (sso nc)) as [|c p]; [done|]. rewrite zlen_cons, (proj2 (Z.ltb_lt 0 _)) by (pose proof (zlen_nonneg p); lia). done.
  - assert (sso_fields (sso nc) = []) as Hnil by (unfold sso_fields; by rewrite (proj2 (Z.eqb_neq _ _) Hv0), (proj2 (Z.eqb_neq _ _) Hv1)).
    rewrite (getUI_none _ _ Hrep _ Hstack); [|key|apply sso_no_field; unfold netconf_fields; rewrite Hnil; cbn [app fmap list_fmap fst]; key].
    rewrite (getB_none _ _ Hrep _ Hstack); [done|key|apply sso_no_field; unfold netconf_fields; rewrite Hnil; cbn [app fmap list_fmap fst]; key].
Qed.

Lemma field_in k o : (k, o) ∈ netconf_fields nc -> first_value (netconf_entries nc) k = o.
Proof. apply netconf_field. Qed.

Lemma mask40_id a : Address.ok a -> Address.of_int a = a.
Proof. apply Address.of_int_id. Qed.

Ltac hex_bound := lazymatch goal with |- 0 <= ?v < _ => first [change (0 <= v < 2 ^ 64); lia | change (0 <= v < 2 ^ 40); lia | by_compute] end.
(** [hex_field]: a number. *)
Ltac hex_field k n v :=
  rewrite (getUI_hex _ _ Hrep _ Hstack k n v); [|key|apply field_in; unfold netconf_fields; cbn [app]; in_fields|lia|hex_bound]; cbn [mbind outcome_bind].
(** [blob_field]: a blob and what it is read as. *)
Ltac blob_field k bs a :=
  match goal with |- context [read_blob d k ?dfl ?f ?t] =>
    let t' := fresh "t" in let Hb := fresh "Hb" in let Hc := fresh "Hc" in let E := fresh "E" in
    edestruct (read_blob_field d _ Hrep Hfit k bs dfl a f t) as (t' & E & Hb & Hc);
      [key|apply field_in; unfold netconf_fields; cbn [app]; in_fields| | | |done|done|rewrite E; clear E; cbn [mbind outcome_bind]]
  end.

Lemma read_com t : buf_ok t -> capacity t = zlen d ->
  exists t', read_blob d KEY_COM com_nil (fun b => '(c, _) ← COM.deserialize com_nil b 0; Ok c) t = Ok (t', if com_valid (com nc) then com nc else com_nil) /\
    buf_ok t' /\ capacity t' = zlen d.
Proof.
  intros Ht Hc. destruct (no_com nc Hok) as (Hcom & Hsort & Hsig).
  assert (first_value (netconf_entries nc) KEY_COM = only (com_valid (com nc)) (nonempty (COM.enc (com nc)))) as Hf by (apply field_in; unfold netconf_fields; cbn [app]; in_fields).
  destruct (com_valid (com nc)).
  - apply (read_blob_field d _ Hrep Hfit KEY_COM (COM.enc (com nc))); [key|exact Hf|by apply COM.com_bytes|done| |done|done].
    intros b _ Hb Hd. assert (rest_at b 0 (COM.enc (com nc) ++ [])) as Hr by (rewrite app_nil_r; by apply rest_at_start).
    by rewrite (COM.com_reads (com nc) com_nil b 0 [] Hcom Hsort Hsig Hb Hr).
  - by apply (read_blob_field d _ Hrep Hfit KEY_COM [] com_nil com_nil); [key|exact Hf|constructor|done| |done|done].
Qed.

Lemma read_rules t : buf_ok t -> capacity t = zlen d ->
  exists t', read_blob d KEY_RULES [] (fun b => '(l, _) ← deserializeRules ZT_MAX_NETWORK_RULES b 0 []; Ok l) t = Ok (t', rules nc) /\
    buf_ok t' /\ capacity t' = zlen d.
Proof.
  intros Ht Hc. destruct (no_rules nc Hok) as (Hr & Hl).
  assert (first_value (netconf_entries nc) KEY_RULES = nonempty (rules_enc (rules nc))) as Hf.
  { rewrite (field_in KEY_RULES (only (0 <? zlen (rules nc)) (nonempty (rules_enc (rules nc))))); [|unfold netconf_fields; cbn [app]; in_fields].
    destruct (rules nc) as [|r rs]; [done|]. by rewrite zlen_cons, (proj2 (Z.ltb_lt 0 _)) by (pose proof (zlen_nonneg rs); lia). }
  apply (read_blob_field d _ Hrep Hfit KEY_RULES (rules_enc (rules nc))); [key|exact Hf|by apply rules_bytes| | |done|done].
  - intros E. destruct (rules nc) as [|r rs]; [done|]. exfalso. apply (f_equal zlen) in E. change (rules_enc (r :: rs)) with (rule_enc r ++ rules_enc rs) in E.
    rewrite zlen_app in E. pose proof (zlen_rule_enc r). pose proof (zlen_nonneg (rules_enc rs)). change (zlen []) with 0 in E. lia.
  - intros b _ Hb Hd. assert (rest_at b 0 (rules_enc (rules nc) ++ [])) as Hrest by (rewrite app_nil_r; by apply rest_at_start).
    rewrite (rules_reads_upto ZT_MAX_NETWORK_RULES (rules nc) b 0 [] Hr Hb Hrest); [done|]. unfold zlen in Hl. unfold ZT_MAX_NETWORK_RULES. lia.
Qed.

Lemma concat_nil_pos {A} (enc : A -> list Z) l : (forall x, 1 <= zlen (enc x)) -> concat (enc <$> l) = [] -> [] = l.
Proof.
  intros Hp E. destruct l as [|x l]; [done|]. exfalso. apply (f_equal zlen) in E. cbn [fmap list_fmap concat] in E. rewrite zlen_app in E.
  pose proof (Hp x). pose proof (zlen_nonneg (concat (enc <$> l))). change (zlen []) with 0 in E. lia.
Qed.

Lemma std_sort_of_nil {A} (id : A -> Z) (enc : A -> list Z) l : (forall x, 1 <= zlen (enc x)) -> concat (enc <$> l) = [] -> [] = std_sort id l.
Proof. intros Hp E. rewrite <- (concat_nil_pos enc l Hp E). symmetry. apply Permutation_nil. symmetry. apply std_sort_perm. Qed.

Lemma parse_received t : buf_ok t -> capacity t = zlen d -> parse_netconf stack d t = Ok (Some (received nc)).
Proof.
  intros Ht Hc. pose proof Hok as [[Hnw Hnw0] [Hts Hts0] [Hdl Hdl0] Hrev [Hto Hto0] Htr Hfl Hlv Hmtu Hlim Hty Hname _ (Hcaps & Hcapl) (Htags & Htagl)
    (Hcoos & Hcool) (Hspec & Hspecl) (Hroutes & Hroutel) (Hips & Hipl) _ (Hdom & Hdom0 & Hsrv & Hsrvl) _].
  unfold Address.ok, rng in *. unfold parse_netconf. cbv zeta.
  hex_field KEY_NETWORK_ID 15%nat (networkId nc). rewrite (proj2 (Z.eqb_neq _ _) Hnw0).
  destruct (getUI_signed _ _ Hrep _ Hstack KEY_TIMESTAMP (timestamp nc) 0) as (ts & -> & Ets); [key|apply field_in; unfold netconf_fields; cbn [app]; in_fields|done|done|]. cbn [mbind outcome_bind].
  destruct (getUI_signed _ _ Hrep _ Hstack KEY_CREDENTIAL_TIME_MAX_DELTA (credentialTimeMaxDelta nc) 0) as (dl & -> & Edl); [key|apply field_in; unfold netconf_fields; cbn [app]; in_fields|done|done|]. cbn [mbind outcome_bind].
  hex_field KEY_REVISION 15%nat (revision nc).
  hex_field KEY_ISSUED_TO 9%nat (issuedTo nc). rewrite (mask40_id (issuedTo nc)) by done. rewrite (proj2 (Z.eqb_neq _ _) Hto0).
  hex_field KEY_REMOTE_TRACE_TARGET 9%nat (remoteTraceTarget nc).
  hex_field KEY_REMOTE_TRACE_LEVEL 15%nat (remoteTraceLevel nc).
  hex_field KEY_MULTICAST_LIMIT 15%nat (multicastLimit nc).
  rewrite (get_text_some _ _ Hrep KEY_NAME 128 (name nc)); [|key|lia|apply field_in; unfold netconf_fields; cbn [app]; in_fields|done]. cbn [mbind outcome_bind].
  hex_field KEY_MTU 15%nat (mtu nc).
  hex_field KEY_VERSION 15%nat ZT_NETWORKCONFIG_VERSION. change (ZT_NETWORKCONFIG_VERSION <? 6) with false. cbv match.
  hex_field KEY_FLAGS 15%nat (flags nc).
  hex_field KEY_TYPE 15%nat (type nc).
  destruct (read_com t Ht Hc) as (t1 & -> & Ht1 & Hc1). cbn [mbind outcome_bind].
  blob_field KEY_CAPABILITIES (concat (Capability.enc <$> capabilities nc)) (std_sort Capability._id (capabilities nc)).
  { eapply bytes_concat; [|exact Hcaps]. intros x [? _]. by apply Capability.capability_bytes. }
  { apply std_sort_of_nil, capability_enc_pos. }
  { intros b _ Hb Hd. rewrite (read_unbounded_reads Capability.deserialize Capability.enc (fun c => Capability.ok c /\ Capability.proper c)) with (l := capabilities nc);
      [done| | |done|done|by apply rest_at_start|done|].
    - intros x b' p rest [? ?] ? ?. by eapply Capability.capability_reads.
    - intros. apply capability_enc_pos.
    - eapply blob_fuel_enough; [|exact Hcaps|done|done]. intros. apply capability_enc_pos. }
  blob_field KEY_TAGS (concat (Tag.enc <$> tags nc)) (std_sort Tag._id (tags nc)).
  { eapply bytes_concat; [|exact Htags]. intros x ?. by apply Tag.tag_bytes. }
  { apply std_sort_of_nil, tag_enc_pos. }
  { intros b _ Hb' Hd. rewrite (read_unbounded_reads Tag.deserialize Tag.enc Tag.ok) with (l := tags nc);
      [done| | |done|done|by apply rest_at_start|done|].
    - intros. by eapply Tag.tag_reads.
    - intros. apply tag_enc_pos.
    - eapply blob_fuel_enough; [|exact Htags|done|done]. intros. apply tag_enc_pos. }
  blob_field KEY_CERTIFICATES_OF_OWNERSHIP (concat (COO.enc <$> certificatesOfOwnership nc)) (certificatesOfOwnership nc).
  { eapply bytes_concat; [|exact Hcoos]. intros x [? _]. by apply COO.coo_bytes. }
  { apply concat_nil_pos, coo_enc_pos. }
  { intros b _ Hb' Hd. rewrite (read_bounded_reads COO.deserialize COO.enc (fun c => COO.ok c /\ COO.proper c /\ COO._thingCount c <= 16)) with (l := certificatesOfOwnership nc);
      [done| | |done|done|by apply rest_at_start|done|].
    - intros x b' p rest (? & ? & _) ? ?. by eapply COO.coo_reads.
    - intros. apply coo_enc_pos.
    - eapply blob_fuel_enough; [|exact Hcoos|done|done]. intros. apply coo_enc_pos. }
  blob_field KEY_SPECIALISTS (concat (be_bytes 8 <$> specialists nc)) (specialists nc).
  { eapply bytes_concat; [|exact Hspec]. intros x _. apply bytes_ok_be_bytes. }
  { apply concat_nil_pos. intros. by rewrite zlen_be_bytes. }
  { intros b _ Hb' Hd. rewrite (read_specialists_reads b (specialists nc)); [done|done|done|by apply rest_at_start|done|].
    eapply blob_fuel_enough; [|exact Hspec|done|done]. intros. by rewrite zlen_be_bytes. }
  blob_field KEY_ROUTES (concat (route_enc <$> routes nc)) (routes nc).
  { eapply bytes_concat; [|exact Hroutes]. intros x (? & ? & _). unfold route_enc. rewrite !bytes_ok_app. split_and!; auto using inet_bytes, bytes_ok_be_bytes. }
  { apply concat_nil_pos. intros x. unfold route_enc. rewrite !zlen_app, !zlen_be_bytes. pose proof (inet_enc_pos (target x)). pose proof (zlen_nonneg (inet_enc (via x))). lia. }
  { intros b _ Hb' Hd. rewrite (read_bounded_reads deserialize_route route_enc route_ok) with (l := routes nc); [done| | |exact Hroutes|done|by apply rest_at_start|done|].
    - intros. by eapply route_reads.
    - intros x _. unfold route_enc. rewrite !zlen_app, !zlen_be_bytes. pose proof (inet_enc_pos (target x)). pose proof (zlen_nonneg (inet_enc (via x))). lia.
    - eapply blob_fuel_enough; [|exact Hroutes|done|done]. intros x _. unfold route_enc. rewrite !zlen_app, !zlen_be_bytes. pose proof (inet_enc_pos (target x)). pose proof (zlen_nonneg (inet_enc (via x))). lia. }
  blob_field KEY_STATIC_IPS (concat (inet_enc <$> staticIps nc)) (staticIps nc).
  { eapply bytes_concat; [|exact Hips]. apply inet_bytes. }
  { apply concat_nil_pos, inet_enc_pos. }
  { intros b _ Hb' Hd. rewrite (read_bounded_reads inet_deserialize inet_enc inet_wf) with (l := staticIps nc); [done| | |done|done|by apply rest_at_start|done|].
    - intros. by eapply inet_reads.
    - intros. apply inet_enc_pos.
    - eapply blob_fuel_enough; [|exact Hips|done|done]. intros. apply inet_enc_pos. }
  match goal with |- context [read_blob d KEY_RULES [] _ ?x] => destruct (read_rules x) as (t9 & -> & Ht9 & Hc9); [done|done|] end. cbn [mbind outcome_bind].
  blob_field KEY_DNS (dns_enc (dns nc)) (dns nc).
  { unfold dns_enc. apply bytes_ok_app. split; [done|]. eapply bytes_concat; [|exact Hsrv]. apply inet_bytes. }
  { intros E. apply (f_equal zlen) in E. unfold dns_enc in E. rewrite zlen_app, (dns_length nc Hok) in E. pose proof (zlen_nonneg (concat (inet_enc <$> server_addr (dns nc)))). change (zlen []) with 0 in E. lia. }
  { intros b _ Hb' Hd. by apply dns_reads. }
  rewrite read_sso_received. cbn [mbind outcome_bind]. unfold received. rewrite Ets, Edl, (mask40_id (remoteTraceTarget nc)) by done. by rewrite !u32_small by lia.
Qed.
End roundtrip.

(** C25. A configuration survives the dictionary: when its text fits, [toDictionary] succeeds and [fromDictionary] of the result gives the
    configuration back as [wire] and [received] have it: with the MTU brought into its limits, the capabilities and tags sorted by ID, no certificate of membership without
    qualifiers, the values of rules of a type without a case lost (the bucket of PRIORITY) and without the single sign-on fields that its version does not transmit.
    [netconf_ok] asks for values of their types, texts that end, lists that fit their arrays, a network, a member and a certificate with sorted qualifiers. *)
Theorem netconf_roundtrip `{StdSortLaws} nc d tmp t stack : netconf_ok (wire nc) -> 0 < zlen d -> buf_ok tmp -> capacity tmp = zlen d -> buf_ok t -> capacity t = zlen d ->
  zlen stack = 128 -> zlen (dict_text (netconf_entries (wire nc))) < zlen d ->
  exists d', toDictionary nc tmp d = Ok (d', true) /\ zlen d' = zlen d /\ fromDictionary stack d' t = Ok (Some (received (wire nc))).
Proof.
  intros Hok Hd Htmp Hctmp Ht Hct Hs Hfit. destruct (toDictionary_entries nc tmp d Hok Htmp Hctmp Hd Hfit) as (d' & E & Hr & Hl).
  exists d'. split; [done|]. split; [done|]. unfold fromDictionary. rewrite (parse_received (wire nc) Hok d' Hr); [done|by rewrite Hl|done|done|by rewrite Hl].
Qed.

(** ** Arbitrary dictionaries *)

(** [m] has a result with [P], or throws; undefined behaviour only when [U]. *)
Definition returns_unless {A} (U : Prop) (P : A -> Prop) (m : outcome A) : Prop :=
  match m with Ok a => P a | Throw _ => True | Undef => U end.

Lemma unless_bind {A B} U (P : A -> Prop) (Q : B -> Prop) (m : outcome A) f :
  returns_unless U P m -> (forall a, P a -> returns_unless U Q (f a)) -> returns_unless U Q (m ≫= f).
Proof. destruct m; cbn; auto. Qed.
Lemma unless_mono {A} (U V : Prop) (P : A -> Prop) (m : outcome A) : (U -> V) -> returns_unless U P m -> returns_unless V P m.
Proof. destruct m; cbn; auto. Qed.
Lemma unless_returns {A} U (P : A -> Prop) (m : outcome A) : returns P m -> returns_unless U P m.
Proof. destruct m; cbn; tauto. Qed.

Section parse_loops.
Context {A : Type} (deser : Buffer -> Z -> outcome (A * Z)) (P : A -> Prop) (least : Z) (Hleast : 1 <= least).
Context (Hsafe : forall b p, buf_ok b -> pos_ok p -> returns (fun '(a, n) => P a /\ p + n <= _l b /\ least <= n < 2 ^ 31) (deser b p)).

(** An array overflows only when the blob has the bytes of one object more than the array has room for. *)
Lemma read_unbounded_safe max b : buf_ok b -> forall fuel p acc, 0 <= p <= _l b -> Forall P acc -> zlen acc <= max -> least * zlen acc <= p ->
  (Z.to_nat (_l b - p) < fuel)%nat ->
  returns_unless (least * (max + 1) <= size b) (fun l => Forall P l /\ zlen l <= max) (read_unbounded deser max fuel b p acc).
Proof.
  intros Hb. pose proof (buf_l b Hb) as Hl. induction fuel as [|fuel IH]; intros p acc Hp Hacc Hmax Hle Hf; [lia|]. cbn [read_unbounded].
  destruct (Z.ltb_spec p (size b)) as [Hlt|]; [|done]. unfold size in *.
  assert (pos_ok p) as Hpos by (unfold pos_ok; lia). pose proof (Hsafe b p Hb Hpos) as Hs.
  destruct (deser b p) as [[a n]|e|]; cbn [returns] in Hs; [|done|done]. destruct Hs as (Ha & Hn & Hn2).
  destruct (Z.ltb_spec (zlen acc) max); [|cbn; nia]. rewrite u32_small by lia. apply IH; try lia.
  - apply list.Forall_app. split; [done|]. by apply list.Forall_singleton.
  - rewrite zlen_app. change (zlen [a]) with 1. lia.
  - rewrite zlen_app. change (zlen [a]) with 1. lia.
Qed.

End parse_loops.

Lemma read_bounded_safe {A} (deser : Buffer -> Z -> outcome (A * Z)) (P : A -> Prop) discard max b :
  (forall p, pos_ok p -> returns (fun '(a, n) => P a /\ 1 <= n < 2 ^ 31) (deser b p)) -> buf_ok b ->
  forall fuel p acc, 0 <= p -> Forall P acc -> zlen acc <= max -> (Z.to_nat (_l b - p) < fuel)%nat ->
  returns (fun l => Forall P l /\ zlen l <= max) (read_bounded deser discard max fuel b p acc).
Proof.
  intros Hsafe Hb. pose proof (buf_l b Hb) as Hl. induction fuel as [|fuel IH]; intros p acc Hp Hacc Hmax Hf; [lia|]. cbn [read_bounded].
  destruct (Z.ltb_spec p (size b)) as [Hlt|]; [|done]. unfold size in *. cbn [andb]. destruct (discard || (zlen acc <? max)); [|done].
  assert (pos_ok p) as Hpos by (unfold pos_ok; lia). eapply returns_bind; [by apply Hsafe|]. intros [a n] (Ha & Hn).
  rewrite u32_small by lia. destruct (Z.ltb_spec (zlen acc) max); apply IH; try lia; try done.
  - apply list.Forall_app. split; [done|]. by apply list.Forall_singleton.
  - rewrite zlen_app. change (zlen [a]) with 1. lia.
Qed.

Lemma read_specialists_safe b : buf_ok b -> forall fuel p acc, 0 <= p -> Forall (rng 64) acc -> zlen acc <= 256 -> (Z.to_nat (_l b - p) < fuel)%nat ->
  returns (fun l => Forall (rng 64) l /\ zlen l <= 256) (read_specialists fuel b p acc).
Proof.
  intros Hb. pose proof (buf_l b Hb) as Hl. induction fuel as [|fuel IH]; intros p acc Hp Hacc Hmax Hf; [lia|]. cbn [read_specialists]. unfold size in *.
  destruct (Z.leb_spec (p + 8) (_l b)) as [Hle|]; [|done]. unfold ZT_MAX_NETWORK_SPECIALISTS.
  destruct (Z.ltb_spec (zlen acc) 256).
  - eapply (returns_bind (fun l => Forall (rng 64) l /\ zlen l <= 256)); [|intros l [? ?]; apply IH; done || lia].
    eapply returns_bind; [apply at_returns; [done|lia|lia]|]. intros x [Hx _]. split.
    + apply list.Forall_app. split; [done|]. apply list.Forall_singleton. unfold rng. change (8 * Z.of_nat 8) with 64 in Hx. exact Hx.
    + rewrite zlen_app. change (zlen [x]) with 1. lia.
  - cbn [mbind outcome_bind]. apply IH; try done; lia.
Qed.

Lemma inet_bounds b p : buf_ok b -> 0 <= p < 2 ^ 31 + 2 ^ 18 -> returns (fun '(a, n) => p < _l b /\ 1 <= n < 2 ^ 18) (inet_deserialize b p).
Proof. intros Hb Hp. unfold inet_deserialize. repeat returns_step; cbn [returns]; lia. Qed.

Lemma route_bounds b p : buf_ok b -> pos_ok p -> returns (fun '(a, n) => True /\ 1 <= n < 2 ^ 31) (deserialize_route b p).
Proof.
  intros Hb Hp. unfold pos_ok, deserialize_route in *. pose proof (buf_l b Hb). eapply returns_bind; [apply inet_bounds; [done|lia]|]. intros [a n] [? ?].
  eapply returns_bind; [apply inet_bounds; [done|lia]|]. intros [a2 n2] [? ?].
  eapply returns_bind; [apply at_returns; [done|lia|lia]|]. intros x [? ?]. eapply returns_bind; [apply at_returns; [done|lia|lia]|]. intros y [? ?]. cbn [returns]. lia.
Qed.

Lemma read_servers_safe b n : forall p, buf_ok b -> 0 <= p < 2 ^ 31 + 2 ^ 18 -> returns (fun l => length l = n) (read_servers n b p).
Proof.
  induction n as [|n IH]; intros p Hb Hp; cbn [read_servers]; [done|]. pose proof (buf_l b Hb). eapply returns_bind; [by apply inet_bounds|]. intros [a k] [? ?].
  eapply returns_bind; [apply IH; [done|lia]|]. intros l Hl. cbn [returns length]. by rewrite Hl.
Qed.

Lemma dns_safe b : buf_ok b -> 128 <= capacity b -> returns (fun dn => length (server_addr dn) = 4%nat) (deserializeDNS b 0).
Proof.
  intros Hb Hc. destruct Hb as [Hs Hcap Hm]. unfold deserializeDNS, capacity in *.
  destruct (mem_read_spec (_b b) 0 128) as (dom & -> & _ & Hl); [done|lia|lia|lia|]. cbn [mbind outcome_bind].
  rewrite mem_write1 by lia. cbn [mbind outcome_bind]. eapply returns_bind; [apply (read_servers_safe b 4 (0 + 128)); [by split|lia]|]. by intros l Hl4.
Qed.

(** *** What [get] stores is bytes *)

Lemma mem_write1_bytes m j c m' : bytes_ok m -> byte_ok c -> mem_write m j [c] = Ok m' -> bytes_ok m'.
Proof.
  intros Hm Hc. unfold mem_write. case_match; [|done]. intros [= <-]. apply bytes_ok_app. split; [by apply list.Forall_take|].
  apply (list.Forall_cons_2 byte_ok); [done|]. by apply list.Forall_drop.
Qed.

Lemma unescape_byte c : byte_ok c -> byte_ok (unescape c).
Proof. intros. unfold unescape. repeat case_match; try done; by_compute. Qed.

Lemma not_found_bytes dest r m : bytes_ok dest -> not_found dest = Ok (r, m) -> bytes_ok m.
Proof. intros Hd. unfold not_found. intros E. inv_ok E. injection E as <- <-. eapply mem_write1_bytes; [exact Hd| |done]. by_compute. Qed.

Lemma get_value_bytes p : forall dest destlen j esc r m, bytes_ok p -> bytes_ok dest -> get_value p dest destlen j esc = Ok (r, m) -> bytes_ok m.
Proof.
  induction p as [|c p IH]; intros dest destlen j esc r m Hp Hd E; [done|]. cbn [get_value] in E. apply list.Forall_cons in Hp as [Hc Hp].
  assert (byte_ok 0) as H0 by by_compute.
  assert (forall dd jj ee, bytes_ok dd -> match p with [] => not_found dd | _ => get_value p dd destlen jj ee end = Ok (r, m) -> bytes_ok m) as Hcont.
  { intros dd jj ee Hdd E2. destruct p; [by eapply not_found_bytes|]. by eapply IH. }
  assert (forall ch, byte_ok ch -> (dest0 ← mem_write dest j [ch];
     if j + 1 =? destlen then dest1 ← mem_write dest0 (j + 1 - 1) [0]; Ok (j + 1 - 1, dest1)
     else match p with [] => not_found dest0 | _ => get_value p dest0 destlen (j + 1) false end) = Ok (r, m) -> bytes_ok m) as Hstore.
  { intros ch Hch E2. apply bind_Ok in E2 as (d1 & E1 & E2). pose proof (mem_write1_bytes _ _ _ _ Hd Hch E1) as Hd1. destruct (_ =? _).
    - apply bind_Ok in E2 as (d2 & E3 & E2). injection E2 as <- <-. exact (mem_write1_bytes _ _ _ _ Hd1 H0 E3).
    - by eapply Hcont. }
  destruct (is_end c).
  - apply bind_Ok in E as (d2 & E3 & E). injection E as <- <-. exact (mem_write1_bytes _ _ _ _ Hd H0 E3).
  - destruct esc; [eapply (Hstore (unescape c)); [by apply unescape_byte|exact E]|].
    destruct (c =? 92); [by eapply Hcont|]. by eapply (Hstore c).
Qed.

Lemma match_key_bytes k : forall p k' q, bytes_ok p -> match_key k p = Ok (Some (k', q)) -> bytes_ok q.
Proof.
  induction k as [|kc k IH]; intros p k' q Hp E; cbn [match_key] in E; [by injection E as <- <-|].
  destruct p as [|c p]; [done|]. destruct (c =? 0); [by injection E as <- <-|]. destruct (negb (c =? kc)); [by injection E as <- <-|].
  apply list.Forall_cons in Hp as [_ Hp]. destruct p; [done|]. by eapply IH.
Qed.

Lemma next_line_bytes p : forall q, bytes_ok p -> next_line p = Ok (Some q) -> bytes_ok q.
Proof.
  induction p as [|c p IH]; intros q Hp E; cbn [next_line] in E; [done|]. apply list.Forall_cons in Hp as [_ Hp].
  destruct (is_end c); [destruct (c =? 0); [done|]; destruct p; [done|by injection E as <-]|]. destruct p; [done|]. by apply IH.
Qed.

Lemma get_loop_bytes fuel : forall p key dest destlen r m, bytes_ok p -> bytes_ok dest -> get_loop fuel p key dest destlen = Ok (r, m) -> bytes_ok m.
Proof.
  induction fuel as [|fuel IH]; intros p key dest destlen r m Hp Hd E; [done|]. cbn [get_loop] in E. destruct p as [|c p]; [done|].
  destruct (c =? 0); [exact (not_found_bytes _ _ _ Hd E)|]. apply bind_Ok in E as (mk & Emk & E). destruct mk as [[k q]|]; [|exact (not_found_bytes _ _ _ Hd E)].
  pose proof (match_key_bytes _ _ _ _ Hp Emk) as Hq. destruct q as [|qc q]; [done|]. destruct (_ && _).
  - apply list.Forall_cons in Hq as [_ Hq]. exact (get_value_bytes _ _ _ _ _ _ _ Hq Hd E).
  - apply bind_Ok in E as (nl & Enl & E). destruct nl; [|exact (not_found_bytes _ _ _ Hd E)]. exact (IH _ _ _ _ _ _ (next_line_bytes _ _ Hq Enl) Hd E).
Qed.

Lemma get_bytes d key dest destlen r m : bytes_ok d -> bytes_ok dest -> get d key dest destlen = Ok (r, m) -> bytes_ok m.
Proof. intros Hd Hdest. unfold get. destruct (_ =? _); [by intros [= <- <-]|]. by apply get_loop_bytes. Qed.

(** What a configuration that was read is like. *)
Record parsed_ok (nc : NetworkConfig) : Prop := {
  po_nwid : networkId nc <> 0; po_to : issuedTo nc <> 0; po_mtu : 1280 <= mtu nc <= ZT_MAX_MTU;
  po_com : COM.ok (com nc);
  po_caps : Forall Capability.ok (capabilities nc) /\ zlen (capabilities nc) <= 128 /\ Sorted (fun a b => Capability._id a <= Capability._id b) (capabilities nc);
  po_tags : Forall Tag.ok (tags nc) /\ zlen (tags nc) <= 128 /\ Sorted (fun a b => Tag._id a <= Tag._id b) (tags nc);
  po_coos : Forall COO.ok (certificatesOfOwnership nc) /\ zlen (certificatesOfOwnership nc) <= 4;
  po_spec : Forall (rng 64) (specialists nc) /\ zlen (specialists nc) <= 256;
  po_routes : zlen (routes nc) <= 128;
  po_ips : zlen (staticIps nc) <= 32;
  po_rules : Forall rule_wf (rules nc) /\ zlen (rules nc) <= 1024;
  po_dns : length (server_addr (dns nc)) = 4%nat }.

(** The dictionary has a blob of more capabilities or tags than there is room for: the smallest take 30 and 39 bytes. *)
Definition too_many (d : list Z) : Prop :=
  exists key n t t', ((key = KEY_CAPABILITIES /\ n = 30) \/ (key = KEY_TAGS /\ n = 39)) /\ get_buffer d key t = Ok (t', true) /\ n * 129 <= size t'.

Section safety.
Context `{StdSortLaws}.
Context (d : list Z) (Hd : bytes_ok d) (Hends : ends d) (Hcap : 128 <= zlen d < 2 ^ 31) (stack : list Z) (Hstack : zlen stack = 128).

Lemma get_any key dest n : 0 < n <= zlen dest -> bytes_ok dest -> returns (fun '(r, m) => zlen m = zlen dest /\ -1 <= r < n /\ bytes_ok m) (get d key dest n).
Proof.
  intros Hn Hb. pose proof (get_safe d key dest n Hends Hn) as Hs. destruct (get d key dest n) as [[r m]| |] eqn:E; [|done|done].
  destruct Hs as (Hl & Hr & _). split; [done|]. split; [done|]. exact (get_bytes _ _ _ _ _ _ Hd Hb E).
Qed.

Lemma getUI_any U key dfl : returns_unless U (fun _ => True) (getUI stack d key dfl).
Proof.
  apply unless_returns. unfold getUI. pose proof (get_safe d key stack 128 Hends ltac:(lia)) as Hs. eapply returns_bind; [exact Hs|]. by intros [r m] _.
Qed.
Lemma getI_any U key dfl : returns_unless U (fun _ => True) (getI stack d key dfl).
Proof.
  apply unless_returns. unfold getI. pose proof (get_safe d key stack 128 Hends ltac:(lia)) as Hs. eapply returns_bind; [exact Hs|]. by intros [r m] _.
Qed.
Lemma getB_any U key dfl : returns_unless U (fun _ => True) (getB (take 4 stack) d key dfl).
Proof.
  pose proof (zlen_stack4 stack Hstack). apply unless_returns. unfold getB. pose proof (get_safe d key (take 4 stack) 4 Hends ltac:(lia)) as Hs.
  eapply returns_bind; [exact Hs|]. intros [r m] _. by destruct (0 <=? r).
Qed.

Lemma get_terminated_any U key old n : (length old <= n)%nat -> (0 < n)%nat -> returns_unless U (fun _ => True) (get_terminated d key old n).
Proof.
  intros Ho Hn. pose proof (zlen_array old n Ho) as Hz. apply unless_returns. unfold get_terminated.
  pose proof (get_safe d key (old ++ replicate (n - length old) 0) (Z.of_nat n) Hends ltac:(lia)) as Hs. eapply returns_bind; [exact Hs|].
  intros [r m] (Hl & Hr & _). destruct (0 <? r); cbn [mbind outcome_bind]; [|done]. by rewrite mem_write1 by lia.
Qed.
Lemma get_text_any U key n : (0 < n)%nat -> returns_unless U (fun _ => True) (get_text d key [] n).
Proof.
  intros Hn. pose proof (zlen_array [] n ltac:(cbn; lia)) as Hz. apply unless_returns. unfold get_text.
  eapply returns_bind; [apply get_safe; [exact Hends|rewrite Hz; lia]|]. by intros [r m] _.
Qed.

Lemma read_sso_any U (s : SSO) : (length (authenticationURL s) <= 2048)%nat -> (length (issuerURL s) <= 2048)%nat -> (length (centralAuthURL s) <= 2048)%nat ->
  (length (ssoNonce s) <= 128)%nat -> (length (ssoState s) <= 256)%nat -> (length (ssoClientID s) <= 256)%nat -> (length (ssoProvider s) <= 64)%nat ->
  returns_unless U (fun _ => True) (read_sso stack d s).
Proof.
  intros. unfold read_sso. eapply unless_bind; [apply getUI_any|]. intros v _. eapply unless_bind; [apply getB_any|]. intros e _.
  destruct (v =? 0); [|destruct (v =? 1); [|done]]; (destruct e; [|done]).
  - eapply unless_bind; [apply get_terminated_any; [done|lia]|]. intros [r u] _. eapply unless_bind; [apply getI_any|]. by intros x _.
  - repeat (eapply unless_bind; [apply get_terminated_any; [done|lia]|]; intros [? ?] _). done.
Qed.

Lemma get_buffer_any key t : buf_ok t -> capacity t = zlen d -> returns (fun '(t', _) => buf_ok t' /\ capacity t' = zlen d) (get_buffer d key t).
Proof.
  intros [Hs Hc Hb] Hct. unfold get_buffer, capacity in *. eapply returns_bind; [apply get_any; [lia|done]|]. intros [r m] (Hm & Hr & Hmb).
  destruct (Z.leb_spec 0 r).
  - unfold setSize, capacity. cbn [_b]. rewrite bind_throw_if_false by (apply Z.ltb_ge; lia). cbn [mbind outcome_bind returns]. unfold capacity; cbn [_b].
    split; [|lia]. split; unfold capacity; cbn [_b _l]; [lia|lia|done].
  - cbn [returns]. unfold clear, capacity. cbn [_b]. split; [|lia]. split; unfold capacity; cbn [_b _l]; [lia|lia|done].
Qed.

(** Reading a blob with a parser that is safe on every blob of the dictionary. *)
Lemma read_blob_any {A} U (P : A -> Prop) key dfl (k : Buffer -> outcome A) t : buf_ok t -> capacity t = zlen d -> P dfl ->
  (forall b, buf_ok b -> capacity b = zlen d -> get_buffer d key t = Ok (b, true) -> returns_unless U P (k b)) ->
  returns_unless U (fun '(t', a) => buf_ok t' /\ capacity t' = zlen d /\ P a) (read_blob d key dfl k t).
Proof.
  intros Ht Hc Hdfl Hk. unfold read_blob. pose proof (get_buffer_any key t Ht Hc) as Hg. destruct (get_buffer d key t) as [[b ok]| |] eqn:E; [|done|done].
  destruct Hg as [Hb Hcb]. cbn [mbind outcome_bind]. destruct ok; [|done]. eapply unless_bind; [by apply Hk|]. intros a Ha. done.
Qed.

Lemma sorted_objects {A} U (id : A -> Z) (P : A -> Prop) m : returns_unless U (fun l => Forall P l /\ zlen l <= 128) m ->
  returns_unless U (fun l => Forall P l /\ zlen l <= 128 /\ Sorted (fun a b => id a <= id b) l) (l ← m; Ok (std_sort id l)).
Proof.
  intros Hm. eapply unless_bind; [exact Hm|]. intros l [Hl Hn]. cbn [returns_unless]. pose proof (std_sort_perm A id l) as Hp. split; [by rewrite Hp|].
  split; [|apply std_sort_sorted]. unfold zlen in *. by rewrite Hp.
Qed.

Lemma blob_fuel_any b : buf_ok b -> (Z.to_nat (_l b - 0) < blob_fuel b)%nat.
Proof. intros Hb. unfold blob_fuel, size. lia. Qed.

Lemma zero_pos b : buf_ok b -> 0 <= 0 <= _l b.
Proof. intros Hb. pose proof (buf_l b Hb). lia. Qed.

Lemma parse_any t : buf_ok t -> capacity t = zlen d ->
  returns_unless (too_many d) (fun o => match o with Some nc => parsed_ok nc | None => True end) (parse_netconf stack d t).
Proof.
  intros Ht Hc. unfold parse_netconf. cbv zeta.
  eapply unless_bind; [apply getUI_any|]. intros nwid _. destruct (Z.eqb_spec nwid 0) as [|Hnw]; [done|].
  do 3 (eapply unless_bind; [apply getUI_any|]; intros ? _).
  eapply unless_bind; [apply getUI_any|]. intros to _. destruct (Z.eqb_spec (Address.of_int to) 0) as [|Hto]; [done|].
  do 3 (eapply unless_bind; [apply getUI_any|]; intros ? _). eapply unless_bind; [apply get_text_any; lia|]. intros [? nm] _.
  eapply unless_bind; [apply getUI_any|]. intros mt _. eapply unless_bind; [apply getUI_any|]. intros ver _. destruct (ver <? 6); [done|].
  do 2 (eapply unless_bind; [apply getUI_any|]; intros ? _).
  eapply unless_bind; [apply (read_blob_any _ COM.ok); [done|done|by_compute|]|].
  { intros b Hb _ _. apply unless_returns. eapply returns_bind; [apply COM.com_safe; [done|done|by_compute]|]. by intros [c n] [Hok _]. }
  intros [t1 com] (Ht1 & Hc1 & Hcom).
  eapply unless_bind; [apply (read_blob_any _ (fun l => Forall Capability.ok l /\ zlen l <= 128 /\ Sorted (fun a b => Capability._id a <= Capability._id b) l)); [done|done|by repeat constructor|]|].
  { intros b Hb _ Hget. apply sorted_objects. pose proof (zero_pos b Hb). eapply unless_mono; [|apply (read_unbounded_safe _ Capability.ok 30); try done; [|by apply blob_fuel_any]].
    - intros Hsize. exists KEY_CAPABILITIES, 30, t1, b. split; [by left|]. done.
    - intros b' p Hb' Hp. eapply returns_mono; [|by apply Capability.deserialize_safe]. intros [c n] (? & _ & ? & ?). done. }
  intros [t2 caps] (Ht2 & Hc2 & Hcaps).
  eapply unless_bind; [apply (read_blob_any _ (fun l => Forall Tag.ok l /\ zlen l <= 128 /\ Sorted (fun a b => Tag._id a <= Tag._id b) l)); [done|done|by repeat constructor|]|].
  { intros b Hb _ Hget. apply sorted_objects. pose proof (zero_pos b Hb). eapply unless_mono; [|apply (read_unbounded_safe _ Tag.ok 39); try done; [|by apply blob_fuel_any]].
    - intros Hsize. exists KEY_TAGS, 39, t2, b. split; [by right|]. done.
    - intros b' p Hb' Hp. eapply returns_mono; [|by apply Tag.tag_safe]. intros [c n] (? & ? & ?). split; [done|]. lia. }
  intros [t3 tags] (Ht3 & Hc3 & Htags).
  eapply unless_bind; [apply (read_blob_any _ (fun l => Forall COO.ok l /\ zlen l <= 4)); [done|done|by repeat constructor|]|].
  { intros b Hb _ _. apply unless_returns, read_bounded_safe; try done; [|by apply blob_fuel_any].
    intros p Hp. eapply returns_mono; [|by apply COO.coo_safe]. intros [c n] (? & _ & ? & ?). split; [done|lia]. }
  intros [t4 coos] (Ht4 & Hc4 & Hcoos).
  eapply unless_bind; [apply (read_blob_any _ (fun l => Forall (rng 64) l /\ zlen l <= 256)); [done|done|by repeat constructor|]|].
  { intros b Hb _ _. apply unless_returns, read_specialists_safe; try done. by apply blob_fuel_any. }
  intros [t5 spec] (Ht5 & Hc5 & Hspec).
  eapply unless_bind; [apply (read_blob_any _ (fun l => Forall (fun _ => True) l /\ zlen l <= 128)); [done|done|by repeat constructor|]|].
  { intros b Hb _ _. apply unless_returns, read_bounded_safe; try done; [|by apply blob_fuel_any]. intros p Hp. by apply route_bounds. }
  intros [t6 rts] (Ht6 & Hc6 & _ & Hrts).
  eapply unless_bind; [apply (read_blob_any _ (fun l => Forall (fun _ => True) l /\ zlen l <= 32)); [done|done|by repeat constructor|]|].
  { intros b Hb _ _. apply unless_returns, read_bounded_safe; try done; [|by apply blob_fuel_any]. intros p Hp. unfold pos_ok in Hp.
    eapply returns_mono; [|apply inet_bounds; [done|lia]]. intros [c n] [? ?]. split; [done|lia]. }
  intros [t7 ips] (Ht7 & Hc7 & _ & Hips).
  eapply unless_bind; [apply (read_blob_any _ (fun l => Forall rule_wf l /\ zlen l <= 1024)); [done|done|by repeat constructor|]|].
  { intros b Hb _ _. apply unless_returns. eapply returns_bind; [apply rules_returns; [done|unfold pos_ok; lia|constructor]|].
    intros [l p] (Hl & Hn & _). split; [done|]. unfold ZT_MAX_NETWORK_RULES, zlen in *. cbn [length] in Hn. lia. }
  intros [t8 rls] (Ht8 & Hc8 & Hrls).
  eapply unless_bind; [apply (read_blob_any _ (fun dn => length (server_addr dn) = 4%nat)); [done|done|done|]|].
  { intros b Hb Hcb _. apply unless_returns, dns_safe; [done|lia]. }
  intros [t9 dn] (_ & _ & Hdn).
  eapply unless_bind; [apply read_sso_any; cbn; lia|]. intros s _. cbn [returns_unless].
  split; try done. cbn [mtu]. unfold ZT_MAX_MTU. destruct (Z.ltb_spec (u32 mt) 1280); [lia|]. destruct (Z.ltb_spec 10000 (u32 mt)); lia.
Qed.
End safety.

(** C26. Whatever text arrives, [fromDictionary] ends and returns false or a configuration within all limits; the one way to undefined
    behaviour are more capabilities or tags than there is room for. *)
Theorem fromDictionary_safe `{StdSortLaws} d stack t : bytes_ok d -> ends d -> 128 <= zlen d < 2 ^ 31 -> zlen stack = 128 -> buf_ok t -> capacity t = zlen d ->
  match fromDictionary stack d t with
  | Ok None => True
  | Ok (Some nc) => parsed_ok nc
  | Throw _ => False
  | Undef => too_many d
  end.
Proof.
  intros Hd He Hc Hs Ht Hct. pose proof (parse_any d Hd He Hc stack Hs t Ht Hct) as Hp. unfold fromDictionary.
  by destruct (parse_netconf stack d t) as [[nc|]| |].
Qed.

(** ** Witnesses *)

Definition by_id {A} (id : A -> Z) (a b : A) : Prop := id a <= id b.
#[export] Instance by_id_dec {A} (id : A -> Z) a b : Decision (by_id id a b) := decide (id a <= id b).
#[export] Instance by_id_total {A} (id : A -> Z) : Total (by_id id).
Proof. intros a b. unfold by_id. lia. Qed.

#[export] Instance toy_sort : StdSort := fun A id l => merge_sort (by_id id) l.
#[export] Instance toy_sort_laws : StdSortLaws.
Proof.
  split; intros A id l; unfold std_sort, toy_sort.
  - apply merge_sort_Permutation.
  - apply (Sorted_merge_sort (by_id id)).
Qed.

Definition example_tag (id : Z) : Tag.Tag := Tag.mkTag id 4 1 5 6 7 (replicate 96 9).
Definition example_netconf : NetworkConfig :=
  mkNetworkConfig 0x89e92ceee5000001 (-5) 6 7 8 9 10 0 2800 32 [0x20000000007] [mkRoute (IV4 167772160 24) INil 0 1] [IV4 167772161 24]
    [mkRule MATCH_ETHERTYPE (VEtherType 0x800); mkRule ACTION_ACCEPT VNone] [] [example_tag 3; example_tag 5] [] 1 [108; 97; 110]
    com_nil (mkDNS (replicate 128 0) (replicate 4 INil)) (mkSSO true 1 [] 0 [104; 61] [99] [110] [115] [105] []).

(** Each field of [netconf_ok] is decidable, but for the shape of the text array and what is defined by recursion on lists. *)
Ltac example_field :=
  lazymatch goal with
  | |- _ /\ _ => split; example_field
  | |- Forall _ [] => once constructor
  | |- Forall _ (_ :: _) => once constructor; example_field
  | |- Forall _ (replicate _ _) => once (by repeat constructor)
  | |- inet_wf _ => repeat split; cbn; unfold rng; lia
  | |- sso_ok _ => constructor; by_compute
  | |- rule_wf _ => split; [by_compute|cbn; done || by_compute]
  | |- _ -> _ => done
  | |- COM.sorted_from _ _ => exact I
  | |- True => exact I
  | |- exists _, _ => exists (replicate 127 0); vm_compute; split; reflexivity
  | |- _ => by_compute
  end.
Lemma example_netconf_ok : netconf_ok example_netconf.
Proof.
  constructor; cbn [example_netconf networkId timestamp credentialTimeMaxDelta revision issuedTo remoteTraceTarget flags remoteTraceLevel mtu multicastLimit
    specialists routes staticIps rules capabilities tags certificatesOfOwnership type name com dns sso domain server_addr].
  all: try by_compute.
  all: example_field.
Qed.

(** With the tags out of order and the bucket 5 for the first rule it arrives with sorted tags and the bucket 0. *)
Definition priority_netconf (bucket : Z) (ts : list Tag.Tag) : NetworkConfig :=
  let nc := example_netconf in
  mkNetworkConfig (networkId nc) (timestamp nc) (credentialTimeMaxDelta nc) (revision nc) (issuedTo nc) (remoteTraceTarget nc) (flags nc) (remoteTraceLevel nc) (mtu nc)
    (multicastLimit nc) (specialists nc) (routes nc) (staticIps nc) (mkRule ACTION_PRIORITY (VQos bucket) :: rules nc) (capabilities nc) ts (certificatesOfOwnership nc)
    (type nc) (name nc) (com nc) (dns nc) (sso nc).

Lemma priority_netconf_ok : netconf_ok (wire (priority_netconf 5 [example_tag 5; example_tag 3])).
Proof.
  destruct example_netconf_ok. constructor; try assumption.
  - split; [|by_compute]. repeat (apply list.Forall_cons_2; [by_compute|]). constructor.
  - destruct no_rules0 as [Hr _]. split; [|by_compute]. repeat (apply list.Forall_cons_2; [split; [by_compute|vm_compute; done || by_compute]|]). constructor.
Qed.

Lemma netconf_roundtrip_witness :
  let t := mkBuffer (replicate 4096 0) 0 in
  exists d', toDictionary (priority_netconf 5 [example_tag 5; example_tag 3]) t (replicate 4096 0) = Ok (d', true) /\ zlen d' = 4096 /\
    fromDictionary (replicate 128 0) d' t = Ok (Some (received (priority_netconf 0 [example_tag 3; example_tag 5]))).
Proof.
  cbv zeta. destruct (netconf_roundtrip (priority_netconf 5 [example_tag 5; example_tag 3]) (replicate 4096 0) (mkBuffer (replicate 4096 0) 0) (mkBuffer (replicate 4096 0) 0) (replicate 128 0))
    as (d' & E1 & E2 & E3); [exact priority_netconf_ok|by_compute|constructor; by_compute|by_compute|constructor; by_compute|by_compute..|].
  exists d'. split; [exact E1|]. split; [exact E2|]. rewrite E3. vm_compute. reflexivity.
Defined.

(** A dictionary with the mandatory fields and a blob of [n] zero bytes (escaped) for the key [k]. *)
Definition zeros_dictionary (k : list Z) (n : nat) : list Z :=
  chars "nwid=1"%string ++ [10] ++ chars "id=1"%string ++ [10] ++ chars "v=7"%string ++ [10] ++ k ++ [61] ++ concat (replicate n [92; 48]) ++ [0].

Lemma fromDictionary_safe_witness :
  let d := zeros_dictionary KEY_RULES 64 in
  let t := mkBuffer (replicate (length d) 0) 0 in
  match fromDictionary (replicate 128 0) d t with Ok None => True | Ok (Some nc) => parsed_ok nc | Throw _ => False | Undef => too_many d end.
Proof.
  cbv zeta. apply fromDictionary_safe; [by_compute|unfold ends; by_compute|by_compute|by_compute|constructor; by_compute|by_compute].
Defined.

(** A blob with one tag more than the array has room for makes the loop that reads the tags write beyond the array. *)
Lemma config_overflow l b : Forall Tag.ok l -> 128 < zlen l -> buf_ok b -> data b = concat (Tag.enc <$> l) ->
  read_unbounded Tag.deserialize ZT_MAX_NETWORK_TAGS (blob_fuel b) b 0 [] = Undef.
Proof.
  intros Hl Hn Hb Hd. rewrite (read_unbounded_spec Tag.deserialize Tag.enc Tag.ok) with (l := l).
  - by rewrite (proj2 (Z.leb_gt _ _)) by (unfold ZT_MAX_NETWORK_TAGS; change (@zlen Tag.Tag []) with 0; lia).
  - intros. by eapply Tag.tag_reads.
  - intros. apply tag_enc_pos.
  - done.
  - done.
  - by apply rest_at_start.
  - by_compute.
  - eapply blob_fuel_enough; [|exact Hl|done|done]. intros. apply tag_enc_pos.
Qed.
