(* ===== verification/Membership.v ===== *)
(** * Memberships (node/Membership.hpp, node/Membership.cpp)

    What a node has been told about another member of a network: its certificate of membership, its
    other credentials by ID, and the revocations. The class is written against the interface [Table];
    the credentials that [_addCredImpl<C>] is a template for are the class [Cred]. *)

From S2P Require Import Prelude Buffer Serial Address InetAddress Hashtable Table Identity Rule Credential Credentials Capability NetworkConfig.

Inductive AddCredentialResult :=
  | ADD_REJECTED | ADD_ACCEPTED_NEW | ADD_ACCEPTED_REDUNDANT
  (** with the address that [requestWhois] was called for *)
  | ADD_DEFERRED_FOR_WHOIS (whois : Z).

#[export] Instance AddCredentialResult_eq_dec : EqDecision AddCredentialResult.
Proof. solve_decision. Defined.

Definition ZT_MULTICAST_ANNOUNCE_PERIOD : Z := 60000.
Definition ZT_PEER_ACTIVITY_TIMEOUT : Z := 500000.

(** [((uint64_t)t << 32) | (uint64_t)i] *)
Definition credentialKey (t i : Z) : Z := Z.lor (Z.shiftl t 32) i.

(** The difference of two [int64_t]; overflow is undefined. *)
Definition ssub (a b : Z) : outcome Z := if bool_decide (srng 64 (a - b)) then Ok (a - b) else Undef.

(** What the templates use of a credential. [==] is [memcmp] of the objects, with the unused parts of their arrays and their padding: here equality of the records. An object that differs only there
    is not redundant for the code but new; its signature is verified then, and what is stored are the same fields. *)
Class Cred (C : Type) := {
  cred_type : Type_;
  cred_id : C -> Z;
  cred_timestamp : C -> Z;
  cred_eqb : C -> C -> bool;
  cred_verify : forall `{Crypto} `{Env}, C -> outcome verify_result;
}.

#[export] Instance tag_cred : Cred Tag.Tag := {
  cred_type := Tag.credentialType; cred_id := Tag._id; cred_timestamp := Tag._ts; cred_eqb a b := bool_decide (a = b);
  cred_verify := @Tag.verify }.
#[export] Instance capability_cred : Cred Capability := {
  cred_type := Capability.credentialType; cred_id := Capability._id; cred_timestamp := Capability._ts; cred_eqb a b := bool_decide (a = b);
  cred_verify := @Capability.verify }.
#[export] Instance coo_cred : Cred COO.COO := {
  cred_type := COO.credentialType; cred_id := COO._id; cred_timestamp := COO._ts; cred_eqb a b := bool_decide (a = b);
  cred_verify := @COO.verify }.

Section Membership.
Context {T : Type -> Type} `{Table T}.

Record Membership := mkMembership {
  _lastUpdatedMulticast : Z; _comRevocationThreshold : Z; _lastPushedCredentials : Z;
  _com : COM.COM;
  _revocations : T Z; _remoteTags : T Tag.Tag; _remoteCaps : T Capability; _remoteCoos : T COO.COO }.

(** The constructor: tables of 4 buckets. *)
Definition Membership_new : Membership := mkMembership 0 0 0 com_nil tab_new tab_new tab_new tab_new.

Definition multicastLikeGate (m : Membership) (now : Z) : outcome (Membership * bool) :=
  d ← ssub now (_lastUpdatedMulticast m);
  if ZT_MULTICAST_ANNOUNCE_PERIOD <=? d then
    Ok (mkMembership now (_comRevocationThreshold m) (_lastPushedCredentials m) (_com m) (_revocations m) (_remoteTags m)
          (_remoteCaps m) (_remoteCoos m), true)
  else Ok (m, false).

Definition recentlyAssociated (m : Membership) (now : Z) : outcome bool :=
  if COM.COM_bool (_com m) then d ← ssub now (COM.timestamp (_com m)); Ok (d <? ZT_PEER_ACTIVITY_TIMEOUT) else Ok false.

(** [_isCredentialTimestampValid<C>] *)
Definition isCredentialTimestampValid {C} `{Cred C} (m : Membership) (nconf : NetworkConfig) (c : C) : outcome bool :=
  let ts := cred_timestamp c in
  d ← (if timestamp nconf <=? ts then ssub ts (timestamp nconf) else ssub (timestamp nconf) ts);
  if d <=? credentialTimeMaxDelta nconf then
    threshold ← tab_get (_revocations m) (credentialKey (Type_int (cred_type (C := C))) (cred_id c));
    Ok (match threshold with None => true | Some t => t <? ts end)
  else Ok false.

Definition getTag (m : Membership) (nconf : NetworkConfig) (id : Z) : outcome (option Tag.Tag) :=
  t ← tab_get (_remoteTags m) id;
  match t with
  | Some t => ok ← isCredentialTimestampValid m nconf t; Ok (if (ok : bool) then Some t else None)
  | None => Ok None
  end.

(** The static IPs are searched for the emulated address; its first occurrence decides. *)
Definition ndp_matches (nconf : NetworkConfig) (emulated ip : InetAddress) (n : nat) : bool :=
  existsb (fun s => ipsEqual s emulated) (staticIps nconf) &&
  match ip, emulated with IV6 a _ _ _, IV6 b _ _ _ => bool_decide (take n a = take n b) | _, _ => false end.

Definition isV6NDPEmulated (nconf : NetworkConfig) (ip : InetAddress) : bool :=
  if isV6 ip && ndpEmulation nconf then
    ndp_matches nconf (makeIpv66plane (networkId nconf) (issuedTo nconf)) ip 5 ||
    ndp_matches nconf (makeIpv6rfc4193 (networkId nconf) (issuedTo nconf)) ip 11
  else false.

(** The loop of [hasCertificateOfOwnershipFor]: [owns] is the test for the resource. *)
Fixpoint coo_loop (m : Membership) (nconf : NetworkConfig) (owns : COO.COO -> outcome bool) (l : list (Z * COO.COO)) : outcome bool :=
  match l with
  | [] => Ok false
  | (_, v) :: l =>
      ok ← isCredentialTimestampValid m nconf v;
      if (ok : bool) then o ← owns v; if (o : bool) then Ok true else coo_loop m nconf owns l else coo_loop m nconf owns l
  end.
Definition hasCertificateOfOwnershipFor_ip (m : Membership) (nconf : NetworkConfig) (ip : InetAddress) : outcome bool :=
  r ← coo_loop m nconf (fun c => COO.owns_ip c ip) (tab_entries (_remoteCoos m));
  Ok (if (r : bool) then true else isV6NDPEmulated nconf ip).
Definition hasCertificateOfOwnershipFor_mac (m : Membership) (nconf : NetworkConfig) (mac : Z) : outcome bool :=
  coo_loop m nconf (fun c => COO.owns_mac c mac) (tab_entries (_remoteCoos m)).

(** [CapabilityIterator]: the capabilities it returns, in order. *)
Fixpoint valid_capabilities (m : Membership) (nconf : NetworkConfig) (l : list (Z * Capability)) : outcome (list Capability) :=
  match l with
  | [] => Ok []
  | (_, c) :: l =>
      ok ← isCredentialTimestampValid m nconf c; r ← valid_capabilities m nconf l; Ok (if (ok : bool) then c :: r else r)
  end.
Definition capability_iterator (m : Membership) (nconf : NetworkConfig) : outcome (list Capability) :=
  valid_capabilities m nconf (tab_entries (_remoteCaps m)).

Section Crypto.
Context `{Crypto} `{Env}.

Definition isAllowedOnNetwork (m : Membership) (nconf : NetworkConfig) (otherNodeIdentity : Identity) : bool :=
  isPublic nconf ||
  ((_comRevocationThreshold m <? COM.timestamp (_com m)) && COM.agreesWith (NetworkConfig.com nconf) (_com m) otherNodeIdentity).

Definition set_com (m : Membership) (c : COM.COM) : Membership :=
  mkMembership (_lastUpdatedMulticast m) (_comRevocationThreshold m) (_lastPushedCredentials m) c (_revocations m) (_remoteTags m)
    (_remoteCaps m) (_remoteCoos m).
Definition set_comRevocationThreshold (m : Membership) (t : Z) : Membership :=
  mkMembership (_lastUpdatedMulticast m) t (_lastPushedCredentials m) (_com m) (_revocations m) (_remoteTags m)
    (_remoteCaps m) (_remoteCoos m).
Definition set_revocations (m : Membership) (r : T Z) : Membership :=
  mkMembership (_lastUpdatedMulticast m) (_comRevocationThreshold m) (_lastPushedCredentials m) (_com m) r (_remoteTags m)
    (_remoteCaps m) (_remoteCoos m).

Definition addCredential_com (m : Membership) (com : COM.COM) : Membership * AddCredentialResult :=
  let newts := COM.timestamp com in
  if newts <=? _comRevocationThreshold m then (m, ADD_REJECTED)
  else if newts <? COM.timestamp (_com m) then (m, ADD_REJECTED)
  else if COM.eqb (_com m) com then (m, ADD_ACCEPTED_REDUNDANT)
  else match COM.verify com with
       | VOk => (set_com m com, ADD_ACCEPTED_NEW)
       | VWait a => (m, ADD_DEFERRED_FOR_WHOIS a)
       | VBad => (m, ADD_REJECTED)
       end.

(** [_addCredImpl<C>] on the table [creds], from the check for a revocation on. *)
Definition addCred_checked {C} `{Cred C} (creds : T C) (revocations : T Z) (cred : C) : outcome (T C * AddCredentialResult) :=
  rt ← tab_get revocations (credentialKey (Type_int (cred_type (C := C))) (cred_id cred));
  if match rt with Some t => cred_timestamp cred <=? t | None => false end then Ok (creds, ADD_REJECTED)
  else
    r ← cred_verify cred;
    match r with
    | VOk => creds ← tab_set creds (cred_id cred) cred; Ok (creds, ADD_ACCEPTED_NEW)
    | VWait a => Ok (creds, ADD_DEFERRED_FOR_WHOIS a)
    | VBad => Ok (creds, ADD_REJECTED)
    end.

Definition addCredImpl {C} `{Cred C} (creds : T C) (revocations : T Z) (cred : C) : outcome (T C * AddCredentialResult) :=
  rc ← tab_get creds (cred_id cred);
  match rc with
  | Some old =>
      if cred_timestamp cred <? cred_timestamp old then Ok (creds, ADD_REJECTED)
      else if cred_eqb old cred then Ok (creds, ADD_ACCEPTED_REDUNDANT)
      else addCred_checked creds revocations cred
  | None => addCred_checked creds revocations cred
  end.

Definition addCredential_tag (m : Membership) (t : Tag.Tag) : outcome (Membership * AddCredentialResult) :=
  '(tags, r) ← addCredImpl (_remoteTags m) (_revocations m) t;
  Ok (mkMembership (_lastUpdatedMulticast m) (_comRevocationThreshold m) (_lastPushedCredentials m) (_com m) (_revocations m) tags
        (_remoteCaps m) (_remoteCoos m), r).
Definition addCredential_cap (m : Membership) (c : Capability) : outcome (Membership * AddCredentialResult) :=
  '(caps, r) ← addCredImpl (_remoteCaps m) (_revocations m) c;
  Ok (mkMembership (_lastUpdatedMulticast m) (_comRevocationThreshold m) (_lastPushedCredentials m) (_com m) (_revocations m)
        (_remoteTags m) caps (_remoteCoos m), r).
Definition addCredential_coo (m : Membership) (c : COO.COO) : outcome (Membership * AddCredentialResult) :=
  '(coos, r) ← addCredImpl (_remoteCoos m) (_revocations m) c;
  Ok (mkMembership (_lastUpdatedMulticast m) (_comRevocationThreshold m) (_lastPushedCredentials m) (_com m) (_revocations m)
        (_remoteTags m) (_remoteCaps m) coos, r).

(** The case of a capability, tag or certificate of ownership: the threshold for COMs is set as well. *)
Definition raise_revocation (m : Membership) (k thr : Z) : outcome (Membership * AddCredentialResult) :=
  '(revs, rt) ← tab_index 0 (_revocations m) k;
  if rt <? thr then
    revs ← tab_set revs k thr; Ok (set_comRevocationThreshold (set_revocations m revs) thr, ADD_ACCEPTED_NEW)
  else Ok (set_revocations m revs, ADD_ACCEPTED_REDUNDANT).

Definition addCredential_revocation (m : Membership) (rev : Revocation.Revocation) : outcome (Membership * AddCredentialResult) :=
  r ← Revocation.verify rev;
  match r with
  | VBad => Ok (m, ADD_REJECTED)
  | VWait a => Ok (m, ADD_DEFERRED_FOR_WHOIS a)
  | VOk =>
      let ct := Revocation._type rev in
      let thr := Revocation._threshold rev in
      if ct =? Type_int CREDENTIAL_TYPE_COM then
        if _comRevocationThreshold m <? thr then Ok (set_comRevocationThreshold m thr, ADD_ACCEPTED_NEW)
        else Ok (m, ADD_ACCEPTED_REDUNDANT)
      else if (ct =? Type_int CREDENTIAL_TYPE_CAPABILITY) || (ct =? Type_int CREDENTIAL_TYPE_TAG) || (ct =? Type_int CREDENTIAL_TYPE_COO) then
        raise_revocation m (credentialKey ct (Revocation._credentialId rev)) thr
      else Ok (m, ADD_REJECTED)
  end.
End Crypto.

(** [_cleanCredImpl<C>]: an overflow in the test is undefined for any of the entries. *)
Definition all_defined {C} `{Cred C} (m : Membership) (nconf : NetworkConfig) (l : list (Z * C)) : bool :=
  forallb (fun e => match isCredentialTimestampValid m nconf e.2 with Undef => false | _ => true end) l.
Definition cleanCredImpl {C} `{Cred C} (m : Membership) (nconf : NetworkConfig) (creds : T C) : outcome (T C) :=
  if all_defined m nconf (tab_entries creds)
  then tab_keep (fun _ c => match isCredentialTimestampValid m nconf c with Ok b => b | _ => false end) creds
  else Undef.

(** [now] is not used. *)
Definition clean (m : Membership) (nconf : NetworkConfig) : outcome Membership :=
  tags ← cleanCredImpl m nconf (_remoteTags m);
  caps ← cleanCredImpl m nconf (_remoteCaps m);
  coos ← cleanCredImpl m nconf (_remoteCoos m);
  Ok (mkMembership (_lastUpdatedMulticast m) (_comRevocationThreshold m) (_lastPushedCredentials m) (_com m) (_revocations m)
        tags caps coos).
End Membership.
Arguments Membership : clear implicits.

(** ** Operations in sequence *)

Inductive mem_op :=
  | AddCom (c : COM.COM) | AddTag (t : Tag.Tag) | AddCapability (c : Capability) | AddCoo (c : COO.COO)
  | AddRevocation (r : Revocation.Revocation) | Clean (nconf : NetworkConfig) | LikeGate (now : Z)
  | GetTag (nconf : NetworkConfig) (id : Z).

Inductive mem_res := RAdd (r : AddCredentialResult) | RGate (b : bool) | RTag (t : option Tag.Tag) | RCleaned.

Section Exec.
Context {T : Type -> Type} `{Table T} `{Crypto}.

(** One operation; [e] is what the topology knows at that time. *)
Definition mem_exec (m : Membership T) (e : Env) (o : mem_op) : outcome (Membership T * mem_res) :=
  match o with
  | AddCom c => let '(m, r) := addCredential_com m c in Ok (m, RAdd r)
  | AddTag t => '(m, r) ← addCredential_tag m t; Ok (m, RAdd r)
  | AddCapability c => '(m, r) ← addCredential_cap m c; Ok (m, RAdd r)
  | AddCoo c => '(m, r) ← addCredential_coo m c; Ok (m, RAdd r)
  | AddRevocation r => '(m, r) ← addCredential_revocation m r; Ok (m, RAdd r)
  | Clean nconf => m ← clean m nconf; Ok (m, RCleaned)
  | LikeGate now => '(m, b) ← multicastLikeGate m now; Ok (m, RGate b)
  | GetTag nconf id => t ← getTag m nconf id; Ok (m, RTag t)
  end.

Fixpoint mem_run (m : Membership T) (os : list (Env * mem_op)) : outcome (Membership T * list mem_res) :=
  match os with
  | [] => Ok (m, [])
  | (e, o) :: os => '(m, r) ← mem_exec m e o; '(m, rs) ← mem_run m os; Ok (m, r :: rs)
  end.
End Exec.

(** ** Refinement: any table that obeys the laws gives the behaviour of finite maps *)

Section Refine.
Context {T : Type -> Type} `{TableLaws T} `{Crypto}.

Record mem_rep (m : Membership T) (s : Membership (gmap Z)) : Prop := mkMemRep {
  mr_like : _lastUpdatedMulticast m = _lastUpdatedMulticast s;
  mr_thr : _comRevocationThreshold m = _comRevocationThreshold s;
  mr_pushed : _lastPushedCredentials m = _lastPushedCredentials s;
  mr_com : _com m = _com s;
  mr_revs : tab_rep (_revocations m) (_revocations s);
  mr_tags : tab_rep (_remoteTags m) (_remoteTags s);
  mr_caps : tab_rep (_remoteCaps m) (_remoteCaps s);
  mr_coos : tab_rep (_remoteCoos m) (_remoteCoos s) }.

(** Room for [n] more entries in each table. *)
Definition mem_room (s : Membership (gmap Z)) (n : Z) : Prop :=
  Z.of_nat (base.size (_revocations s)) + n < 2 ^ 28 /\ Z.of_nat (base.size (_remoteTags s)) + n < 2 ^ 28 /\
  Z.of_nat (base.size (_remoteCaps s)) + n < 2 ^ 28 /\ Z.of_nat (base.size (_remoteCoos s)) + n < 2 ^ 28.

Lemma valid_rep {C} `{Cred C} m s nconf (c : C) :
  mem_rep m s -> isCredentialTimestampValid m nconf c = isCredentialTimestampValid s nconf c.
Proof. intros Hr. unfold isCredentialTimestampValid. by rewrite (tab_get_rep _ _ _ (mr_revs _ _ Hr)). Qed.

Lemma addCredImpl_rep {C} `{Cred C} `{Env} (t : T C) (mt : gmap Z C) revs mrevs (c : C) :
  tab_rep t mt -> tab_rep revs mrevs -> room mt ->
  out_rel (fun x y => tab_rep x.1 y.1 /\ x.2 = y.2 /\ (base.size y.1 <= S (base.size mt))%nat)
    (addCredImpl t revs c) (addCredImpl (T := gmap Z) mt mrevs c).
Proof.
  intros Ht Hr Hroom. pose proof (Nat.le_succ_diag_r (base.size mt)) as Hle.
  assert (forall r, out_rel (fun x y => tab_rep x.1 y.1 /\ x.2 = y.2 /\ (base.size y.1 <= S (base.size mt))%nat)
    (Ok (t, r) : outcome (T C * AddCredentialResult)) (Ok (mt, r))) as Hsame by (intros; cbn [out_rel]; done).
  assert (out_rel (fun x y => tab_rep x.1 y.1 /\ x.2 = y.2 /\ (base.size y.1 <= S (base.size mt))%nat)
    (addCred_checked t revs c) (addCred_checked (T := gmap Z) mt mrevs c)) as Hv.
  { unfold addCred_checked. rewrite (tab_get_rep _ _ _ Hr). cbn [tab_get gmap_table mbind outcome_bind].
    case_match; [apply Hsame|]. apply out_rel_eq; [done|]. intros [|a|]; [|apply Hsame..].
    destruct (tab_set_rep t mt (cred_id c) c Ht Hroom) as (t' & -> & Ht'). simpl. split_and!; [done..|].
    apply size_insert_le. }
  unfold addCredImpl. rewrite (tab_get_rep _ _ _ Ht). cbn [tab_get gmap_table mbind outcome_bind].
  destruct (mt !! cred_id c) as [old|]; [|exact Hv]. destruct (cred_timestamp c <? cred_timestamp old); [apply Hsame|].
  destruct (cred_eqb old c); [apply Hsame|exact Hv].
Qed.

Lemma cleanCredImpl_rep {C} `{Cred C} m s nconf (t : T C) (mt : gmap Z C) :
  mem_rep m s -> tab_rep t mt -> room mt ->
  out_rel (fun x y => tab_rep x y /\ (base.size y <= base.size mt)%nat) (cleanCredImpl m nconf t) (cleanCredImpl s nconf mt).
Proof.
  intros Hr Ht Hroom. unfold cleanCredImpl.
  assert (all_defined m nconf (tab_entries t) = all_defined s nconf (tab_entries mt)) as ->.
  { unfold all_defined. apply eq_bool_prop_intro. rewrite !Is_true_true, !forallb_forall. setoid_rewrite <- list_elem_of_In.
    setoid_rewrite (tab_entries_rep t mt Ht). by setoid_rewrite (valid_rep m s nconf _ Hr). }
  case_match; [|done]. cbn [tab_keep gmap_table].
  destruct (tab_keep_rep (fun _ c => match isCredentialTimestampValid m nconf c with Ok b => b | _ => false end) t mt Ht Hroom) as (t' & -> & Ht').
  cbn [out_rel]. split; [|apply map_size_filter].
  match type of Ht' with tab_rep _ ?x => match goal with |- tab_rep _ ?y => assert (y = x) as -> end end; [|exact Ht'].
  apply map_filter_ext. intros i c Hc. cbn [snd]. by rewrite (valid_rep m s).
Qed.

Ltac mem_fields := cbn [_lastUpdatedMulticast _comRevocationThreshold _lastPushedCredentials _com _revocations _remoteTags _remoteCaps _remoteCoos].

(** After a step: the new states correspond, the answers are equal, and a table has grown by one entry at most. *)
Definition step_rel {R} (s : Membership (gmap Z)) (x : Membership T * R) (y : Membership (gmap Z) * R) : Prop :=
  mem_rep x.1 y.1 /\ x.2 = y.2 /\ forall n, mem_room s (n + 1) -> mem_room y.1 n.

Lemma step_same {R} m s (r : R) : mem_rep m s -> out_rel (step_rel s) (Ok (m, r)) (Ok (s, r)).
Proof. intros Hr. cbn [out_rel]. split_and!; [done..|]. unfold mem_room; simpl; intros; lia. Qed.

Lemma step_answer {R R'} s (k : R -> R') x y :
  out_rel (step_rel s) x y -> out_rel (step_rel s) ('(m, r) ← x; Ok (m, k r)) ('(m, r) ← y; Ok (m, k r)).
Proof.
  intros Hx. eapply out_rel_bind; [exact Hx|]. intros [m r] [s' r'] (? & E & ?); cbn [fst snd] in *. subst r'. done.
Qed.

Lemma add_rep {C} `{Cred C} `{Env} s (t : T C) (mt : gmap Z C) revs mrevs (c : C) (put : T C -> Membership T) (put' : gmap Z C -> Membership (gmap Z)) :
  tab_rep t mt -> tab_rep revs mrevs -> room mt ->
  (forall x y, tab_rep x y -> mem_rep (put x) (put' y)) ->
  (forall y n, (base.size y <= S (base.size mt))%nat -> mem_room s (n + 1) -> mem_room (put' y) n) ->
  out_rel (step_rel s) ('(x, r) ← addCredImpl t revs c; Ok (put x, r)) ('(y, r) ← addCredImpl (T := gmap Z) mt mrevs c; Ok (put' y, r)).
Proof.
  intros Ht Hr Hroom Hp Hn. eapply out_rel_bind; [by apply (addCredImpl_rep t mt revs mrevs c)|].
  intros [x rx] [y ry] (Hx & E & Hsz); cbn [fst snd] in *. subst ry. cbn [out_rel]. split_and!; [by apply Hp|done|].
  intros n. by apply Hn.
Qed.

Lemma revocation_rep `{Env} m s r :
  mem_rep m s -> mem_room s 1 -> out_rel (step_rel s) (addCredential_revocation m r) (addCredential_revocation (T := gmap Z) s r).
Proof.
  intros Hr Hs. unfold addCredential_revocation. apply out_rel_eq; [done|]. intros [|a|]; [|by apply step_same..]. cbv zeta.
  rewrite (mr_thr _ _ Hr). case_match.
  - destruct (_comRevocationThreshold s <? _); [|by apply step_same]. cbn [out_rel]. split_and!; [|done|unfold mem_room; simpl; intros; lia].
    destruct Hr. by split.
  - destruct (_ || _ || _); [|by apply step_same]. unfold raise_revocation.
    set (k := credentialKey _ _). set (thr := Revocation._threshold r).
    destruct (tab_index_rep 0 (_revocations m) (_revocations s) k (mr_revs _ _ Hr)) as (t & -> & Ht).
    { destruct Hs as (? & _). unfold room. lia. }
    cbn [mbind outcome_bind tab_index gmap_table]. set (rv := if decide (_revocations s !! k = None) then _ else _) in *.
    assert (base.size rv <= S (base.size (_revocations s)))%nat as Hsz by (unfold rv; case_decide; [apply size_insert_le|lia]).
    assert (base.size (<[k := thr]> rv) <= S (base.size (_revocations s)))%nat as Hsz2.
    { unfold rv. case_decide; [rewrite insert_insert_eq|]; apply size_insert_le. }
    destruct (default 0 _ <? thr).
    + destruct (tab_set_rep t rv k thr Ht) as (t2 & -> & Ht2); [destruct Hs as (? & _); unfold room; lia|].
      cbn [mbind outcome_bind tab_set gmap_table out_rel]. split_and!; [|done|unfold mem_room; simpl; intros; lia].
      destruct Hr. by split.
    + cbn [out_rel]. split_and!; [|done|unfold mem_room; simpl; intros; lia]. destruct Hr. by split.
Qed.

Lemma clean_rep m s nconf :
  mem_rep m s -> mem_room s 1 ->
  out_rel (fun x y => mem_rep x y /\ forall n, mem_room s (n + 1) -> mem_room y n) (clean m nconf) (clean (T := gmap Z) s nconf).
Proof.
  intros Hr (Hrv & Hrt & Hrc & Hro). unfold clean.
  eapply out_rel_bind; [apply (cleanCredImpl_rep m s nconf _ _ Hr (mr_tags _ _ Hr)); unfold room; lia|]. intros tg tg' [Ht Hts].
  eapply out_rel_bind; [apply (cleanCredImpl_rep m s nconf _ _ Hr (mr_caps _ _ Hr)); unfold room; lia|]. intros cp cp' [Hc Hcs].
  eapply out_rel_bind; [apply (cleanCredImpl_rep m s nconf _ _ Hr (mr_coos _ _ Hr)); unfold room; lia|]. intros co co' [Ho Hos].
  cbn [out_rel]. split; [|unfold mem_room; simpl; intros; lia]. destruct Hr. by split.
Qed.

Lemma mem_exec_rep m s e o :
  mem_rep m s -> mem_room s 1 -> out_rel (step_rel s) (mem_exec m e o) (mem_exec (T := gmap Z) s e o).
Proof.
  intros Hr Hs. pose proof Hs as (Hrv & Hrt & Hrc & Hro). pose proof Hr as [E1 E2 E3 E4 R1 R2 R3 R4].
  destruct o as [c|t|c|c|r|nconf|now|nconf i]; cbn [mem_exec].
  - unfold addCredential_com. rewrite E2, E4.
    repeat (match goal with |- context [if ?b then (?x, _) else _] => destruct b; [by apply step_same|] end).
    destruct (COM.verify c); [|by apply step_same..]. cbn [out_rel]. split_and!; [by split|done|]. unfold mem_room; simpl; intros; lia.
  - apply step_answer, add_rep; [done|done|unfold room; lia|by intros; split|unfold mem_room; simpl; intros; lia].
  - apply step_answer, add_rep; [done|done|unfold room; lia|by intros; split|unfold mem_room; simpl; intros; lia].
  - apply step_answer, add_rep; [done|done|unfold room; lia|by intros; split|unfold mem_room; simpl; intros; lia].
  - by apply step_answer, revocation_rep.
  - eapply out_rel_bind; [by apply clean_rep|]. intros x y [? ?]. done.
  - apply step_answer. unfold multicastLikeGate. rewrite E1. apply out_rel_eq; [done|]. intros d. case_match; [|by apply step_same].
    cbn [out_rel]. split_and!; [by split|done|]. unfold mem_room; simpl; intros; lia.
  - unfold getTag. rewrite (tab_get_rep _ _ _ R2). cbn [mbind outcome_bind tab_get gmap_table].
    destruct (_remoteTags s !! i) as [t|]; [|by apply step_same]. rewrite (valid_rep m s nconf t Hr).
    destruct (isCredentialTimestampValid s nconf t); [by apply step_same|done..].
Qed.

(** On tables that obey the laws of [Table], as the hash tables of the program do, any sequence of operations on a
    membership gives the answers, and ends in the failures, that it gives on finite maps, and the state it leaves
    stands for the state of the maps, as long as the tables stay below [2^28] entries. *)
Lemma mem_run_rep m s (os : list (Env * mem_op)) :
  mem_rep m s -> mem_room s (zlen os) ->
  out_rel (fun x y => mem_rep x.1 y.1 /\ x.2 = y.2) (mem_run m os) (mem_run (T := gmap Z) s os).
Proof.
  revert m s. induction os as [|[e o] os IH]; intros m s Hr Hs; [by split|]. rewrite zlen_cons in Hs. pose proof (zlen_nonneg os).
  cbn [mem_run]. eapply out_rel_bind; [apply mem_exec_rep; [done|unfold mem_room in *; lia]|].
  intros [m1 r1] [s1 r1'] (Hr1 & E & Hs1); cbn [fst snd] in *. subst r1'.
  eapply out_rel_bind; [apply IH; [done|]; apply Hs1; unfold mem_room in *; lia|].
  intros [m2 rs] [s2 rs'] (Hr2 & E); cbn [fst snd] in *. by subst rs'.
Qed.
End Refine.

(** ** Correctness, on finite maps *)

Ltac mem_fields :=
  unfold set_com, set_comRevocationThreshold, set_revocations;
  cbn [_lastUpdatedMulticast _comRevocationThreshold _lastPushedCredentials _com _revocations _remoteTags _remoteCaps _remoteCoos].

Section Spec.
Context `{Crypto}.
Implicit Type s : Membership (gmap Z).

Lemma addCredImpl_spec {C} `{Cred C} `{Env} (creds creds' : gmap Z C) revs (c : C) r :
  addCredImpl (T := gmap Z) creds revs c = Ok (creds', r) ->
  (creds' = creds /\ r <> ADD_ACCEPTED_NEW) \/
  (creds' = <[cred_id c := c]> creds /\ r = ADD_ACCEPTED_NEW /\ cred_verify c = Ok VOk /\
   (forall t, revs !! credentialKey (Type_int (cred_type (C := C))) (cred_id c) = Some t -> t < cred_timestamp c) /\
   (forall old, creds !! cred_id c = Some old -> cred_timestamp old <= cred_timestamp c)).
Proof.
  assert (addCred_checked (T := gmap Z) creds revs c = Ok (creds', r) -> (forall old, creds !! cred_id c = Some old -> cred_timestamp old <= cred_timestamp c) ->
    (creds' = creds /\ r <> ADD_ACCEPTED_NEW) \/
    (creds' = <[cred_id c := c]> creds /\ r = ADD_ACCEPTED_NEW /\ cred_verify c = Ok VOk /\
     (forall t, revs !! credentialKey (Type_int (cred_type (C := C))) (cred_id c) = Some t -> t < cred_timestamp c) /\
     (forall old, creds !! cred_id c = Some old -> cred_timestamp old <= cred_timestamp c))) as Hv.
  { unfold addCred_checked. cbn [tab_get gmap_table mbind outcome_bind]. intros Hv Hold. destruct (revs !! _) as [t|] eqn:Er.
    - destruct (Z.leb_spec (cred_timestamp c) t); [left; by simplify_eq|].
      destruct (cred_verify c) as [[|a|]| |] eqn:Ev; simplify_eq/=; [right|by left..]. split_and!; try done. by intros ? [= <-].
    - destruct (cred_verify c) as [[|a|]| |] eqn:Ev; simplify_eq/=; [right|by left..]. by split_and!. }
  unfold addCredImpl. cbn [tab_get gmap_table mbind outcome_bind]. destruct (creds !! cred_id c) as [old|] eqn:Eo.
  - destruct (Z.ltb_spec (cred_timestamp c) (cred_timestamp old)); [intros; left; by simplify_eq|].
    destruct (cred_eqb old c); [intros; left; by simplify_eq|]. intros E. apply Hv; [done|]. by intros ? [= <-].
  - intros E. by apply Hv.
Qed.

(** Everything a membership holds was verified when it was added, by what the topology knew then ([E] holds of what it
    may know), and is filed under its ID; revocation thresholds are not negative. *)
Definition filed {C} `{Cred C} (E : Env -> Prop) (creds : gmap Z C) : Prop :=
  map_Forall (fun k c => cred_id c = k /\ exists e, E e /\ @cred_verify C _ _ e c = Ok VOk) creds.

Record mem_inv (E : Env -> Prop) s : Prop := mkMemInv {
  mi_tags : filed E (_remoteTags s);
  mi_caps : filed E (_remoteCaps s);
  mi_coos : filed E (_remoteCoos s);
  mi_com : _com s = com_nil \/ exists e, E e /\ @COM.verify _ e (_com s) = VOk;
  mi_revs : map_Forall (fun _ t => 0 <= t) (_revocations s) }.

Lemma addCredImpl_filed {C} `{Cred C} (E : Env -> Prop) (e : Env) (creds creds' : gmap Z C) revs (c : C) r :
  E e -> filed E creds -> @addCredImpl (gmap Z) _ _ e C _ creds revs c = Ok (creds', r) -> filed E creds'.
Proof.
  intros He Hf Ha. apply addCredImpl_spec in Ha as [[-> _]|(-> & _ & Hv & _)]; [done|].
  apply map_Forall_insert_2; [|done]. eauto.
Qed.

Lemma clean_filed {C} `{Cred C} (E : Env -> Prop) s nconf (creds creds' : gmap Z C) :
  filed E creds -> cleanCredImpl s nconf creds = Ok creds' -> filed E creds'.
Proof.
  intros Hf Ha. unfold cleanCredImpl in Ha. destruct (all_defined _ _ _); [|done]. injection Ha as <-.
  intros k c Hk. apply map_lookup_filter_Some in Hk as [Hk _]. by apply Hf.
Qed.

Lemma addCredential_revocation_spec `{Env} s s' rev r :
  addCredential_revocation s rev = Ok (s', r) ->
  _com s' = _com s /\ _remoteTags s' = _remoteTags s /\ _remoteCaps s' = _remoteCaps s /\ _remoteCoos s' = _remoteCoos s /\
  forall k, match _revocations s !! k with
       | Some t => exists t', _revocations s' !! k = Some t' /\ t <= t'
       | None => match _revocations s' !! k with Some t' => 0 <= t' | None => True end
       end.
Proof.
  assert (forall k, match _revocations s !! k with
    | Some t => exists t', _revocations s !! k = Some t' /\ t <= t'
    | None => match _revocations s !! k with Some t' => 0 <= t' | None => True end end) as Hid.
  { intros k. destruct (_revocations s !! k); [|done]. eexists; split; [done|lia]. }
  unfold addCredential_revocation. intros Ha. inv_ok Ha. destruct v as [|a|]; [|simplify_eq; by split_and!..].
  destruct (_ =? _); [destruct (_ <? _); simplify_eq; by split_and!|].
  destruct (_ || _ || _); [|simplify_eq; by split_and!]. unfold raise_revocation in Ha. cbn [tab_index gmap_table mbind outcome_bind] in Ha.
  set (k0 := credentialKey _ _) in *. set (thr := Revocation._threshold rev) in *.
  destruct (Z.ltb_spec (default 0 (_revocations s !! k0)) thr) as [Hlt|Hge]; cbn [tab_set gmap_table mbind outcome_bind] in Ha; simplify_eq;
    (split_and!; [done..|]); intros k; mem_fields.
  - destruct (decide (k = k0)) as [->|Hne].
    + rewrite lookup_insert_eq. destruct (_revocations s !! k0); simpl in Hlt; [exists thr; split; [done|lia]|lia].
    + rewrite lookup_insert_ne by done. case_decide; [rewrite lookup_insert_ne by done|]; apply Hid.
  - case_decide as Hn; [|apply Hid]. destruct (decide (k = k0)) as [->|Hne].
    + by rewrite Hn, lookup_insert_eq.
    + rewrite lookup_insert_ne by done. apply Hid.
Qed.

Lemma mem_exec_inv (E : Env -> Prop) e o s s' r :
  E e -> mem_inv E s -> mem_exec s e o = Ok (s', r) -> mem_inv E s'.
Proof.
  intros He [I1 I2 I3 I4 I5] Hx. destruct o as [c|t|c|c|rev|nconf|now|nconf i]; cbn [mem_exec] in Hx.
  - unfold addCredential_com in Hx. repeat (match goal with _ : context [if ?b then (s, _) else _] |- _ => destruct b; [by simplify_eq|] end).
    destruct (COM.verify c) eqn:Ev; simplify_eq; [|done..]. split; mem_fields; try done. right. eauto.
  - inv_ok Hx. destruct v as [s1 r1]. simplify_eq. unfold addCredential_tag in H0. inv_ok H0. destruct v as [x rx]. simplify_eq.
    split; mem_fields; try done. by eapply addCredImpl_filed.
  - inv_ok Hx. destruct v as [s1 r1]. simplify_eq. unfold addCredential_cap in H0. inv_ok H0. destruct v as [x rx]. simplify_eq.
    split; mem_fields; try done. by eapply addCredImpl_filed.
  - inv_ok Hx. destruct v as [s1 r1]. simplify_eq. unfold addCredential_coo in H0. inv_ok H0. destruct v as [x rx]. simplify_eq.
    split; mem_fields; try done. by eapply addCredImpl_filed.
  - inv_ok Hx. destruct v as [s1 r1]. simplify_eq. apply addCredential_revocation_spec in H0 as (E1 & E2 & E3 & E4 & Hk).
    split; rewrite ?E1, ?E2, ?E3, ?E4; try done. intros k t' Ht'. specialize (Hk k). rewrite Ht' in Hk.
    destruct (_revocations s !! k) as [t|] eqn:Ek; [|done]. destruct Hk as (? & [= <-] & ?). specialize (I5 _ _ Ek). simpl in I5. lia.
  - inv_ok Hx. simplify_eq. unfold clean in H0. inv_ok H0. inv_ok H0. inv_ok H0. simplify_eq.
    split; mem_fields; try done; by eapply clean_filed.
  - inv_ok Hx. destruct v as [s1 b]. simplify_eq. unfold multicastLikeGate in H0. inv_ok H0. destruct (_ <=? _); by simplify_eq.
  - inv_ok Hx. by simplify_eq.
Qed.

(** C13. In every state a membership can reach, whatever it is sent, each credential it holds is filed under its own ID and
    was verified by what the topology knew when it was added, the certificate of membership is the null one or was
    verified, and no revocation threshold is negative. *)
Theorem membership_invariant (E : Env -> Prop) (os : list (Env * mem_op)) s rs :
  Forall (fun eo => E eo.1) os -> mem_run Membership_new os = Ok (s, rs) -> mem_inv E s.
Proof.
  intros Hos. assert (mem_inv E Membership_new) as Hnew by (split; try apply map_Forall_empty; by left).
  revert Hnew s rs. generalize (Membership_new (T := gmap Z)). induction Hos as [|[e o] os He Hos IH]; intros s0 Hinv s rs Hx.
  - by injection Hx as <- <-.
  - cbn [mem_run] in Hx. inv_ok Hx. destruct v as [s1 r1]. inv_ok Hx. destruct v as [s2 rs2]. simplify_eq.
    eapply (IH s1); [|done]. by eapply mem_exec_inv.
Qed.


Lemma mem_exec_revs e o s s' r k t :
  mem_exec s e o = Ok (s', r) -> _revocations s !! k = Some t -> exists t', _revocations s' !! k = Some t' /\ t <= t'.
Proof.
  assert (_revocations s' = _revocations s -> _revocations s !! k = Some t -> exists t', _revocations s' !! k = Some t' /\ t <= t') as Hsame.
  { intros -> ?. exists t. split; [done|lia]. }
  intros Hx Hk. destruct o as [c|tg|c|c|rev|nconf|now|nconf i]; cbn [mem_exec] in Hx; try (inv_ok Hx; try destruct v as [s1 r1]; simplify_eq).
  - apply Hsame; [|done]. unfold addCredential_com in Hx.
    repeat (match goal with _ : context [if ?b then (s, _) else _] |- _ => destruct b; [by simplify_eq|] end).
    destruct (COM.verify c); simplify_eq; by mem_fields.
  - apply Hsame; [|done]. unfold addCredential_tag in H0. inv_ok H0. destruct v as [x rx]. by simplify_eq.
  - apply Hsame; [|done]. unfold addCredential_cap in H0. inv_ok H0. destruct v as [x rx]. by simplify_eq.
  - apply Hsame; [|done]. unfold addCredential_coo in H0. inv_ok H0. destruct v as [x rx]. by simplify_eq.
  - apply addCredential_revocation_spec in H0 as (_ & _ & _ & _ & Hr). specialize (Hr k). by rewrite Hk in Hr.
  - apply Hsame; [|done]. unfold clean in H0. inv_ok H0. inv_ok H0. inv_ok H0. by simplify_eq.
  - apply Hsame; [|done]. unfold multicastLikeGate in H0. inv_ok H0. destruct (_ <=? _); by simplify_eq.
  - by apply Hsame.
Qed.

Lemma mem_run_revs os : forall s s' rs k t,
  mem_run s os = Ok (s', rs) -> _revocations s !! k = Some t -> exists t', _revocations s' !! k = Some t' /\ t <= t'.
Proof.
  induction os as [|[e o] os IH]; intros s s' rs k t Hx Hk; cbn [mem_run] in Hx.
  - injection Hx as <- <-. exists t. split; [done|lia].
  - inv_ok Hx. destruct v as [s1 r1]. inv_ok Hx. destruct v as [s2 rs2]. simplify_eq.
    destruct (mem_exec_revs e o s s1 r1 k t) as (t1 & Hk1 & ?); [done..|].
    destruct (IH s1 s' rs2 k t1) as (t2 & ? & ?); [done..|]. exists t2. split; [done|lia].
Qed.

(** The kinds of credential a revocation with an ID is for. *)
Definition revocable (t : Type_) : bool :=
  match t with CREDENTIAL_TYPE_CAPABILITY | CREDENTIAL_TYPE_TAG | CREDENTIAL_TYPE_COO => true | _ => false end.

Lemma revocation_recorded `{Env} s s1 rev r ct :
  Revocation.verify rev = Ok VOk -> Revocation._type rev = Type_int ct -> revocable ct = true ->
  addCredential_revocation s rev = Ok (s1, r) ->
  exists t, _revocations s1 !! credentialKey (Type_int ct) (Revocation._credentialId rev) = Some t /\ Revocation._threshold rev <= t.
Proof.
  intros Hv Ht Hct Ha. unfold addCredential_revocation in Ha. rewrite Hv in Ha. cbn [mbind outcome_bind] in Ha. rewrite Ht in Ha.
  assert (forall k thr, raise_revocation s k thr = Ok (s1, r) -> exists t, _revocations s1 !! k = Some t /\ thr <= t) as Hk.
  { intros k thr Hx. unfold raise_revocation in Hx. cbn [tab_index gmap_table mbind outcome_bind] in Hx.
    destruct (Z.ltb_spec (default 0 (_revocations s !! k)) thr); cbn [tab_set gmap_table mbind outcome_bind] in Hx; simplify_eq; mem_fields.
    - rewrite lookup_insert_eq. exists thr. split; [done|lia].
    - case_decide as Hn; [rewrite lookup_insert_eq; rewrite Hn in *; simpl in *; eauto|].
      destruct (_revocations s !! k) as [t|]; [|done]. simpl in *. eauto. }
  destruct ct; try done; cbn [Type_int] in Ha; by apply Hk in Ha.
Qed.

(** C14. A revocation lasts: once one for a kind and an ID has verified, and whatever happens afterwards, no credential of
    that kind with that ID and a timestamp up to the threshold is ever found valid, and none is added to the membership
    again, even if it verifies. *)
Theorem revocation_lasts `{Env} {C} `{Cred C} s s1 s2 rev r os rs (c : C) :
  Revocation.verify rev = Ok VOk -> Revocation._type rev = Type_int (cred_type (C := C)) -> revocable (cred_type (C := C)) = true ->
  addCredential_revocation s rev = Ok (s1, r) -> mem_run s1 os = Ok (s2, rs) ->
  cred_id c = Revocation._credentialId rev -> cred_timestamp c <= Revocation._threshold rev ->
  (forall nconf, isCredentialTimestampValid s2 nconf c <> Ok true) /\
  (forall (e : Env) creds creds' res, @addCredImpl (gmap Z) _ _ e C _ creds (_revocations s2) c = Ok (creds', res) ->
     creds' = creds /\ res <> ADD_ACCEPTED_NEW).
Proof.
  intros Hv Ht Hct Ha Hrun Hid Hts. destruct (revocation_recorded s s1 rev r _ Hv Ht Hct Ha) as (t & Hk & Hle).
  destruct (mem_run_revs _ _ _ _ _ _ Hrun Hk) as (t2 & Hk2 & Hle2). rewrite <- Hid in Hk2. split.
  - intros nconf. unfold isCredentialTimestampValid. cbn [tab_get gmap_table]. rewrite Hk2.
    destruct (if _ <=? _ then _ else _) as [d| |]; [|done..]. cbn [mbind outcome_bind].
    destruct (d <=? _); [|done]. intros [= Hlt]. apply Z.ltb_lt in Hlt. lia.
  - intros e creds creds' res Hadd. apply addCredImpl_spec in Hadd as [?|(_ & _ & _ & Hr & _)]; [done|].
    specialize (Hr _ Hk2). lia.
Qed.

(** A revocation of a tag, a capability or a certificate of ownership that raises the threshold of its ID also replaces
    the threshold for certificates of membership by its own, higher or lower: a certificate of membership that was
    revoked is accepted again if it is newer than the other credential's threshold, and a member whose certificate is
    older loses access to the network. *)
Theorem revocation_resets_com_threshold `{Env} s rev ct :
  Revocation.verify rev = Ok VOk -> Revocation._type rev = Type_int ct -> revocable ct = true ->
  default 0 (_revocations s !! credentialKey (Type_int ct) (Revocation._credentialId rev)) < Revocation._threshold rev ->
  exists s', addCredential_revocation s rev = Ok (s', ADD_ACCEPTED_NEW) /\
    _comRevocationThreshold s' = Revocation._threshold rev /\
    (forall c, Revocation._threshold rev < COM.timestamp c <= _comRevocationThreshold s -> COM.timestamp (_com s) <= COM.timestamp c ->
       COM.verify c = VOk -> COM.eqb (_com s) c = false ->
       addCredential_com s c = (s, ADD_REJECTED) /\ addCredential_com s' c = (set_com s' c, ADD_ACCEPTED_NEW)) /\
    (forall nconf i, isPublic nconf = false -> COM.timestamp (_com s) <= Revocation._threshold rev -> isAllowedOnNetwork s' nconf i = false).
Proof.
  intros Hv Ht Hct Hlt. set (k := credentialKey _ _) in *. set (thr := Revocation._threshold rev) in *.
  set (rv := <[k := thr]> (if decide (_revocations s !! k = None) then <[k := 0]> (_revocations s) else _revocations s)).
  exists (set_comRevocationThreshold (set_revocations s rv) thr). split_and!.
  - unfold addCredential_revocation. rewrite Hv. cbn [mbind outcome_bind]. rewrite Ht. fold k thr.
    destruct ct; try done; cbn [Type_int Z.eqb Pos.eqb orb]; unfold raise_revocation;
      change (credentialKey _ _) with k; cbn [tab_index gmap_table mbind outcome_bind]; rewrite (proj2 (Z.ltb_lt _ _) Hlt); reflexivity.
  - done.
  - intros c Hc Hold Hcv Hne. unfold addCredential_com. mem_fields. rewrite Hne, Hcv.
    rewrite (proj2 (Z.leb_le (COM.timestamp c) (_comRevocationThreshold s))), (proj2 (Z.leb_gt (COM.timestamp c) thr)) by lia.
    rewrite (proj2 (Z.ltb_ge _ _)) by lia. done.
  - intros nconf i Hp Hc. unfold isAllowedOnNetwork. rewrite Hp. mem_fields. by rewrite (proj2 (Z.ltb_ge _ _)) by lia.
Qed.
End Spec.

(** ** Evaluation *)

Definition example_nwid : Z := 0x89e92ceee5000001.
Definition signed_tag (id ts : Z) : Tag.Tag :=
  match Tag.sign (H := toy_crypto) (Tag.mkTag id 7 example_nwid ts 0x1122334455 0 (replicate 96 0)) example_id with
  | Ok (Some t) => t | _ => Tag.Tag_nil end.
Definition signed_com (ts : Z) : COM.COM :=
  match COM.sign (H := toy_crypto) (COM.COM_new (H := toy_crypto) ts 7200000 example_nwid (mkIdentity 0x1122334455 (replicate 64 9) None)) example_id with
  | Ok (c, _) => c | _ => com_nil end.
Definition signed_revocation (cid thr : Z) (ct : Type_) : Revocation.Revocation :=
  match Revocation.sign (H := toy_crypto) (Revocation.Revocation_new 1 example_nwid cid thr 0 0x1122334455 ct) example_id with
  | Ok (Some r) => r | _ => Revocation.Revocation_nil end.
Definition example_nconf : NetworkConfig :=
  mkNetworkConfig example_nwid 1000000 7200000 1 0x89e92ceee5 0 0 0 2800 32 [] [] [] [] [] [] [] ZT_NETWORK_TYPE_PRIVATE [] (signed_com 1000000)
    (mkDNS [] []) (mkSSO false 0 [] 0 [] [] [] [] [] []).

Definition example_mem_ops : list (Env * mem_op) :=
  [(toy_env, AddTag (signed_tag 5 999000)); (toy_env, GetTag example_nconf 5); (toy_env, AddCom (signed_com 999500));
   (toy_env, AddRevocation (signed_revocation 5 999999 CREDENTIAL_TYPE_TAG)); (toy_env, GetTag example_nconf 5);
   (toy_env, AddTag (signed_tag 5 999500)); (toy_env, Clean example_nconf)].

Definition answers {A} (m : outcome (A * list mem_res)) : list mem_res := match m with Ok (_, rs) => rs | _ => [] end.

Lemma membership_invariant_witness :
  exists s rs, @mem_run (gmap Z) _ toy_crypto Membership_new example_mem_ops = Ok (s, rs) /\ mem_inv (H := toy_crypto) (fun e => e = toy_env) s.
Proof.
  destruct (@mem_run (gmap Z) _ toy_crypto Membership_new example_mem_ops) as [[s rs]| |] eqn:E.
  - exists s, rs. split; [reflexivity|].
    apply (membership_invariant (H := toy_crypto) (fun e => e = toy_env) example_mem_ops s rs); [by repeat constructor|exact E].
  - exfalso. assert (answers (@mem_run (gmap Z) _ toy_crypto Membership_new example_mem_ops) !! 4%nat = Some (RTag None)) as Ha by (vm_compute; reflexivity).
    rewrite E in Ha. discriminate.
  - exfalso. assert (answers (@mem_run (gmap Z) _ toy_crypto Membership_new example_mem_ops) !! 4%nat = Some (RTag None)) as Ha by (vm_compute; reflexivity).
    rewrite E in Ha. discriminate.
Defined.

(** A membership whose tag 5 was revoked up to 999999. *)
Definition revoked_state : Membership (gmap Z) :=
  match @addCredential_revocation (gmap Z) _ toy_crypto toy_env Membership_new (signed_revocation 5 999999 CREDENTIAL_TYPE_TAG) with
  | Ok (s, _) => s | _ => Membership_new end.

Lemma revocation_lasts_witness :
  isCredentialTimestampValid revoked_state example_nconf (signed_tag 5 999000) <> Ok true.
Proof.
  apply (revocation_lasts (H := toy_crypto) (H0 := toy_env) Membership_new revoked_state revoked_state
    (signed_revocation 5 999999 CREDENTIAL_TYPE_TAG) ADD_ACCEPTED_NEW [] [] (signed_tag 5 999000));
    [vm_compute; reflexivity|vm_compute; reflexivity|reflexivity|vm_compute; reflexivity|reflexivity|vm_compute; reflexivity|by_compute].
Defined.

(** The COM of 999500 is revoked up to 999900; the revocation of a tag up to 999000 lets it in again. *)
Definition com_revoked : Membership (gmap Z) := set_comRevocationThreshold Membership_new 999900.

Lemma revocation_resets_com_threshold_witness :
  exists s', @addCredential_revocation (gmap Z) _ toy_crypto toy_env com_revoked (signed_revocation 5 999000 CREDENTIAL_TYPE_TAG) = Ok (s', ADD_ACCEPTED_NEW) /\
    @addCredential_com (gmap Z) toy_crypto toy_env com_revoked (signed_com 999500) = (com_revoked, ADD_REJECTED) /\
    @addCredential_com (gmap Z) toy_crypto toy_env s' (signed_com 999500) = (set_com s' (signed_com 999500), ADD_ACCEPTED_NEW).
Proof.
  destruct (revocation_resets_com_threshold (H := toy_crypto) (H0 := toy_env) com_revoked (signed_revocation 5 999000 CREDENTIAL_TYPE_TAG)
    CREDENTIAL_TYPE_TAG) as (s' & Hs & _ & Hc & _); [vm_compute; reflexivity|vm_compute; reflexivity|reflexivity|vm_compute; reflexivity|].
  exists s'. split; [exact Hs|]. apply Hc; [by_compute|by_compute|vm_compute; reflexivity|vm_compute; reflexivity].
Defined.
