(* ===== verification/MembershipSpec.v ===== *)
(** * What a membership promises

    The state of a membership without tables: who holds which credential, what is revoked up to when. The rules of [step] say what an operation may do to it, without
    regard to how [Membership.cpp] goes about it: one rule for each reason to refuse a credential, the validity of a credential as a distance in time and the absence of a
    revocation that covers it. The operations on the tables of the program return, and take exactly such steps, with these answers. *)

From S2P Require Import Prelude Buffer Serial Address Hashtable Table Identity Rule Credential Credentials Capability NetworkConfig Membership.

(** ** The specification *)

Record Trust := mkTrust {
  liked : Z; member_com : COM.COM; com_threshold : Z;
  held_tags : Z -> option Tag.Tag; held_caps : Z -> option Capability; held_coos : Z -> option COO.COO;
  (** by kind and ID *)
  revoked : Type_ -> Z -> option Z }.

Definition nothing {A} : Z -> option A := fun _ => None.
Definition Trust_new : Trust := mkTrust 0 com_nil 0 nothing nothing nothing (fun _ => nothing).

Definition update {A} (f : Z -> option A) (k : Z) (a : A) : Z -> option A := fun i => if decide (i = k) then Some a else f i.

Section Offer.
Context {C : Type} `{Cred C}.

(** A revocation covers what it is about up to its threshold. *)
Definition covered (rev : Z -> option Z) (c : C) : Prop := exists t, rev (cred_id c) = Some t /\ cred_timestamp c <= t.
(** It is not older than what is held under its ID, nor the same. *)
Definition fresh (held : Z -> option C) (c : C) : Prop := forall old, held (cred_id c) = Some old -> cred_timestamp old <= cred_timestamp c /\ old <> c.
Definition good (nconf : NetworkConfig) (rev : Z -> option Z) (c : C) : Prop :=
  Z.abs (timestamp nconf - cred_timestamp c) <= credentialTimeMaxDelta nconf /\ ~ covered rev c.

(** A credential is offered, [v] is what is known about its signature. *)
Inductive offered (held : Z -> option C) (rev : Z -> option Z) (v : verify_result) (c : C) : (Z -> option C) -> AddCredentialResult -> Prop :=
  | offered_older old : held (cred_id c) = Some old -> cred_timestamp c < cred_timestamp old -> offered held rev v c held ADD_REJECTED
  | offered_known : held (cred_id c) = Some c -> offered held rev v c held ADD_ACCEPTED_REDUNDANT
  | offered_revoked : fresh held c -> covered rev c -> offered held rev v c held ADD_REJECTED
  | offered_forged : fresh held c -> ~ covered rev c -> v = VBad -> offered held rev v c held ADD_REJECTED
  | offered_early a : fresh held c -> ~ covered rev c -> v = VWait a -> offered held rev v c held (ADD_DEFERRED_FOR_WHOIS a)
  | offered_taken : fresh held c -> ~ covered rev c -> v = VOk -> offered held rev v c (update held (cred_id c) c) ADD_ACCEPTED_NEW.

(** After cleaning the good ones are left. *)
Definition cleaned (nconf : NetworkConfig) (rev : Z -> option Z) (held held' : Z -> option C) : Prop :=
  forall i c, held' i = Some c <-> held i = Some c /\ good nconf rev c.
End Offer.

(** A threshold only rises. *)
Definition raise (rev : Type_ -> Z -> option Z) (ct : Type_) (i thr : Z) : Type_ -> Z -> option Z :=
  fun ct' i' => if decide (ct' = ct /\ i' = i) then Some (Z.max thr (default 0 (rev ct i))) else rev ct' i'.

Section Step.
Context `{Crypto}.

Definition com_stale (tr : Trust) (c : COM.COM) : Prop := COM.timestamp c <= com_threshold tr \/ COM.timestamp c < COM.timestamp (member_com tr).

Inductive step (e : Env) (tr : Trust) : mem_op -> Trust -> mem_res -> Prop :=
  | step_com_stale c : com_stale tr c -> step e tr (AddCom c) tr (RAdd ADD_REJECTED)
  | step_com_known c : ~ com_stale tr c -> COM.eqb (member_com tr) c = true -> step e tr (AddCom c) tr (RAdd ADD_ACCEPTED_REDUNDANT)
  | step_com_forged c : ~ com_stale tr c -> COM.eqb (member_com tr) c = false -> COM.verify c = VBad -> step e tr (AddCom c) tr (RAdd ADD_REJECTED)
  | step_com_early c a : ~ com_stale tr c -> COM.eqb (member_com tr) c = false -> COM.verify c = VWait a ->
      step e tr (AddCom c) tr (RAdd (ADD_DEFERRED_FOR_WHOIS a))
  | step_com_taken c : ~ com_stale tr c -> COM.eqb (member_com tr) c = false -> COM.verify c = VOk ->
      step e tr (AddCom c) (mkTrust (liked tr) c (com_threshold tr) (held_tags tr) (held_caps tr) (held_coos tr) (revoked tr)) (RAdd ADD_ACCEPTED_NEW)
  | step_tag t v held r : Tag.verify t = Ok v -> offered (held_tags tr) (revoked tr CREDENTIAL_TYPE_TAG) v t held r ->
      step e tr (AddTag t) (mkTrust (liked tr) (member_com tr) (com_threshold tr) held (held_caps tr) (held_coos tr) (revoked tr)) (RAdd r)
  | step_capability c v held r : Capability.verify c = Ok v -> offered (held_caps tr) (revoked tr CREDENTIAL_TYPE_CAPABILITY) v c held r ->
      step e tr (AddCapability c) (mkTrust (liked tr) (member_com tr) (com_threshold tr) (held_tags tr) held (held_coos tr) (revoked tr)) (RAdd r)
  | step_coo c v held r : COO.verify c = Ok v -> offered (held_coos tr) (revoked tr CREDENTIAL_TYPE_COO) v c held r ->
      step e tr (AddCoo c) (mkTrust (liked tr) (member_com tr) (com_threshold tr) (held_tags tr) (held_caps tr) held (revoked tr)) (RAdd r)
  | step_revocation_forged rv : Revocation.verify rv = Ok VBad -> step e tr (AddRevocation rv) tr (RAdd ADD_REJECTED)
  | step_revocation_early rv a : Revocation.verify rv = Ok (VWait a) -> step e tr (AddRevocation rv) tr (RAdd (ADD_DEFERRED_FOR_WHOIS a))
  | step_revocation_com rv (thr := Revocation._threshold rv) : Revocation.verify rv = Ok VOk -> Revocation._type rv = Type_int CREDENTIAL_TYPE_COM ->
      step e tr (AddRevocation rv) (mkTrust (liked tr) (member_com tr) (Z.max thr (com_threshold tr)) (held_tags tr) (held_caps tr) (held_coos tr) (revoked tr))
        (RAdd (if com_threshold tr <? thr then ADD_ACCEPTED_NEW else ADD_ACCEPTED_REDUNDANT))
  (** The threshold for certificates of membership is replaced as well, when the one for the ID rises. *)
  | step_revocation_id rv ct (thr := Revocation._threshold rv) (i := Revocation._credentialId rv) (rises := default 0 (revoked tr ct i) <? thr) :
      Revocation.verify rv = Ok VOk -> Revocation._type rv = Type_int ct -> revocable ct = true ->
      step e tr (AddRevocation rv)
        (mkTrust (liked tr) (member_com tr) (if rises then thr else com_threshold tr) (held_tags tr) (held_caps tr) (held_coos tr) (raise (revoked tr) ct i thr))
        (RAdd (if rises then ADD_ACCEPTED_NEW else ADD_ACCEPTED_REDUNDANT))
  | step_revocation_other rv : Revocation.verify rv = Ok VOk -> (forall ct, Revocation._type rv = Type_int ct -> ct <> CREDENTIAL_TYPE_COM /\ revocable ct = false) ->
      step e tr (AddRevocation rv) tr (RAdd ADD_REJECTED)
  | step_clean nconf tags caps coos : cleaned nconf (revoked tr CREDENTIAL_TYPE_TAG) (held_tags tr) tags ->
      cleaned nconf (revoked tr CREDENTIAL_TYPE_CAPABILITY) (held_caps tr) caps -> cleaned nconf (revoked tr CREDENTIAL_TYPE_COO) (held_coos tr) coos ->
      step e tr (Clean nconf) (mkTrust (liked tr) (member_com tr) (com_threshold tr) tags caps coos (revoked tr)) RCleaned
  | step_liked now : 60000 <= now - liked tr ->
      step e tr (LikeGate now) (mkTrust now (member_com tr) (com_threshold tr) (held_tags tr) (held_caps tr) (held_coos tr) (revoked tr)) (RGate true)
  | step_like_early now : now - liked tr < 60000 -> step e tr (LikeGate now) tr (RGate false)
  | step_get nconf i r : (forall t, r = Some t <-> held_tags tr i = Some t /\ good nconf (revoked tr CREDENTIAL_TYPE_TAG) t) -> step e tr (GetTag nconf i) tr (RTag r).

Inductive steps : Trust -> list (Env * mem_op) -> Trust -> list mem_res -> Prop :=
  | steps_nil tr : steps tr [] tr []
  | steps_cons tr e o tr1 r os tr2 rs : step e tr o tr1 r -> steps tr1 os tr2 rs -> steps tr ((e, o) :: os) tr2 (r :: rs).
End Step.

(** ** The operations take such steps *)

(** Time stamps whose differences do not overflow. *)
Definition in_time (t : Z) : Prop := - 2 ^ 62 <= t < 2 ^ 62.

(** Credentials as the parsers give them. *)
Definition op_ok (o : mem_op) : Prop :=
  match o with
  | AddCom _ => True
  | AddTag t => Tag.ok t /\ in_time (Tag._ts t)
  | AddCapability c => Capability.ok c /\ in_time (_ts c)
  | AddCoo c => COO.ok c /\ COO._thingCount c <= 16 /\ in_time (COO._ts c)
  | AddRevocation r => Revocation.ok r
  | Clean nconf | GetTag nconf _ => in_time (timestamp nconf)
  | LikeGate now => in_time now
  end.

Section Verify.
Context `{Crypto} `{Env}.

Lemma verify_signed_returns sb nwid (m : outcome Buffer) s : (exists b, m = Ok b) -> exists v, verify_signed sb nwid m s = Ok v.
Proof. intros [b ->]. unfold verify_signed. repeat case_match; by eexists. Qed.

Lemma tag_verify_returns t : exists v, Tag.verify t = Ok v.
Proof. apply verify_signed_returns. destruct (Tag.tag_tbs_buffer (Tag.sizeof * 2) t ltac:(by_compute)) as (b & E & _). by exists b. Qed.

Lemma coo_verify_returns c : COO.ok c -> COO._thingCount c <= 16 -> exists v, COO.verify c = Ok v.
Proof. intros Hc Hn. apply verify_signed_returns. destruct (COO.coo_tbs_buffer (COO.sizeof + 64) c Hc Hn ltac:(by_compute)) as (b & E & _). by exists b. Qed.

Lemma revocation_verify_returns r : exists v, Revocation.verify r = Ok v.
Proof. apply verify_signed_returns. destruct (Revocation.revocation_tbs_buffer (Revocation.sizeof + 64) r ltac:(by_compute)) as (b & E & _). by exists b. Qed.

Lemma verify_chain_returns nwid msg cs : forall n p, (n <= length cs)%nat -> exists v, verify_chain nwid msg p cs n = Ok v.
Proof.
  induction cs as [|k cs IH]; intros [|n] p Hl; simpl in Hl; try lia; try (by eexists).
  specialize (IH n (Some (to k)) ltac:(lia)). cbn [verify_chain]. repeat case_match; first [exact IH|by eexists].
Qed.

Lemma capability_verify_returns c : Capability.ok c -> exists v, Capability.verify c = Ok v.
Proof.
  intros (_ & _ & _ & Hm & Hr & Hrl & Hcl & _). unfold verify. destruct (_ || _); [by eexists|].
  destruct (serialize_tbs c Hr Hrl) as (b & -> & _). apply verify_chain_returns. lia.
Qed.
End Verify.

(** ** On finite maps *)

Lemma credentialKey_inj t i t' i' : 0 <= t -> 0 <= t' -> rng 32 i -> rng 32 i' -> credentialKey t i = credentialKey t' i' -> t = t' /\ i = i'.
Proof.
  intros Ht Ht' Hi Hi'. unfold credentialKey, rng in *. rewrite !lor_add by lia. lia.
Qed.

Section Refine.
Context `{Crypto}.
Implicit Type s : Membership (gmap Z).

(** The table holds what is held, each under its own ID, with time stamps in range. *)
Definition holds {C} `{Cred C} (creds : gmap Z C) (held : Z -> option C) : Prop :=
  forall i, creds !! i = held i /\ forall c, held i = Some c -> cred_id c = i /\ rng 32 i /\ in_time (cred_timestamp c).

Definition threshold_of (revs : gmap Z Z) (ct : Type_) (i : Z) : option Z := revs !! credentialKey (Type_int ct) i.

Record trusts (s : Membership (gmap Z)) (tr : Trust) : Prop := mkTrusts {
  ts_like : _lastUpdatedMulticast s = liked tr /\ in_time (liked tr);
  ts_com : _com s = member_com tr;
  ts_thr : _comRevocationThreshold s = com_threshold tr;
  ts_tags : holds (_remoteTags s) (held_tags tr);
  ts_caps : holds (_remoteCaps s) (held_caps tr);
  ts_coos : holds (_remoteCoos s) (held_coos tr);
  ts_revs : forall ct i, revocable ct = true -> rng 32 i -> threshold_of (_revocations s) ct i = revoked tr ct i }.

Lemma offer_refines {C} `{Cred C} `{Env} (creds : gmap Z C) revs held rev (c : C) v :
  (forall a b : C, cred_eqb a b = true <-> a = b) -> holds creds held -> threshold_of revs (cred_type (C := C)) (cred_id c) = rev (cred_id c) ->
  rng 32 (cred_id c) -> in_time (cred_timestamp c) -> cred_verify c = Ok v ->
  exists creds' held' r, addCredImpl (T := gmap Z) creds revs c = Ok (creds', r) /\ offered held rev v c held' r /\ holds creds' held'.
Proof.
  intros Heq Hh Hrev Hi Ht Hv. destruct (Hh (cred_id c)) as [Hc _].
  assert (fresh held c -> exists creds' held' r, addCred_checked (T := gmap Z) creds revs c = Ok (creds', r) /\ offered held rev v c held' r /\ holds creds' held') as Hchecked.
  { intros Hf. unfold addCred_checked. cbn [tab_get gmap_table mbind outcome_bind]. unfold threshold_of in Hrev. rewrite Hrev.
    assert (match rev (cred_id c) with Some t => cred_timestamp c <=? t | None => false end = true <-> covered rev c) as Hcov.
    { unfold covered. destruct (rev (cred_id c)) as [t|]; [rewrite Z.leb_le|]; naive_solver. }
    destruct (match rev (cred_id c) with Some t => _ | None => _ end); [exists creds, held; eexists; split; [done|]; split; [by apply offered_revoked; [|apply Hcov]|done]|].
    assert (~ covered rev c) as Hn by (intros Hx; by apply Hcov in Hx). rewrite Hv. cbn [mbind outcome_bind].
    destruct v as [|a|]; [|exists creds, held; eexists; split; [done|]; split; [|done]..].
    - cbn [tab_set gmap_table mbind outcome_bind]. exists (<[cred_id c := c]> creds), (update held (cred_id c) c). eexists. split; [done|]. split; [by apply offered_taken|].
      intros i. unfold update. case_decide as E; [|rewrite lookup_insert_ne by done; apply Hh]. subst i. rewrite lookup_insert_eq. split; [done|]. by intros c' [= <-].
    - by apply offered_early.
    - by apply offered_forged. }
  unfold addCredImpl. cbn [tab_get gmap_table mbind outcome_bind]. rewrite Hc. destruct (held (cred_id c)) as [old|] eqn:Eo; [|apply Hchecked; intros old; by rewrite Eo].
  destruct (Z.ltb_spec (cred_timestamp c) (cred_timestamp old)); [exists creds, held; eexists; split; [done|]; split; [by eapply offered_older|done]|].
  destruct (cred_eqb old c) eqn:E; [apply Heq in E; subst old; exists creds, held; eexists; split; [done|]; split; [by apply offered_known|done]|].
  apply Hchecked. intros old'. rewrite Eo. intros [= <-]. split; [done|]. intros E2%Heq. congruence.
Qed.

Lemma valid_good {C} `{Cred C} s nconf rev (c : C) : threshold_of (_revocations s) (cred_type (C := C)) (cred_id c) = rev (cred_id c) ->
  in_time (timestamp nconf) -> in_time (cred_timestamp c) ->
  exists b, isCredentialTimestampValid s nconf c = Ok b /\ (b = true <-> good nconf rev c).
Proof.
  intros Hrev Hn Hc. unfold in_time in *. unfold isCredentialTimestampValid.
  assert ((if timestamp nconf <=? cred_timestamp c then ssub (cred_timestamp c) (timestamp nconf) else ssub (timestamp nconf) (cred_timestamp c)) =
    Ok (Z.abs (timestamp nconf - cred_timestamp c))) as ->.
  { unfold ssub. destruct (Z.leb_spec (timestamp nconf) (cred_timestamp c)); rewrite bool_decide_eq_true_2 by (unfold srng; lia); f_equal; lia. }
  cbn [mbind outcome_bind]. unfold good, covered. destruct (Z.leb_spec (Z.abs (timestamp nconf - cred_timestamp c)) (credentialTimeMaxDelta nconf)).
  - cbn [tab_get gmap_table mbind outcome_bind]. unfold threshold_of in Hrev. rewrite Hrev. eexists. split; [done|]. destruct (rev (cred_id c)) as [t|].
    + rewrite Z.ltb_lt. split; [intros Ht; split; [done|]; intros (t' & [= <-] & ?); lia|]. intros [_ Ht]. apply Z.nle_gt. intros ?. apply Ht. by exists t.
    + split; [|done]. intros _. split; [done|]. by intros (t & [=] & _).
  - exists false. split; [done|]. split; [done|]. lia.
Qed.

Lemma clean_refines {C} `{Cred C} s nconf (creds : gmap Z C) held rev : holds creds held -> (forall i, rng 32 i -> threshold_of (_revocations s) (cred_type (C := C)) i = rev i) ->
  in_time (timestamp nconf) -> exists creds' held', cleanCredImpl s nconf creds = Ok creds' /\ cleaned nconf rev held held' /\ holds creds' held'.
Proof.
  intros Hh Hrev Hn. assert (forall i c, creds !! i = Some c -> exists b, isCredentialTimestampValid s nconf c = Ok b /\ (b = true <-> good nconf rev c)) as Hv.
  { intros i c Hi. destruct (Hh i) as [E Hc]. rewrite Hi in E. destruct (Hc c) as (Hid & Hr & Ht); [done|]. apply valid_good; [|done..]. apply Hrev. by rewrite Hid. }
  unfold cleanCredImpl. assert (all_defined s nconf (tab_entries creds) = true) as ->.
  { unfold all_defined. apply forallb_forall. intros [i c] Hin%list_elem_of_In. cbn [tab_entries gmap_table snd] in *. apply elem_of_map_to_list in Hin.
    by destruct (Hv i c Hin) as (b & -> & _). }
  cbn [tab_keep gmap_table]. set (creds' := filter _ creds). exists creds', (fun i => creds' !! i). split; [done|].
  assert (forall i c, creds' !! i = Some c <-> held i = Some c /\ good nconf rev c) as Hl.
  { intros i c. unfold creds'. rewrite map_lookup_filter_Some. cbn [snd]. destruct (Hh i) as [<- _]. split; intros [Hi Hg]; (split; [done|]);
      destruct (Hv i c Hi) as (b & E & Hb); rewrite E in *; by apply Hb. }
  split; [exact Hl|]. intros i. split; [done|]. intros c [Hi _]%Hl. by apply (Hh i).
Qed.

Lemma Type_int_inj ct ct' : Type_int ct = Type_int ct' -> ct = ct'.
Proof. by destruct ct, ct'. Qed.

Lemma Type_int_nonneg ct : 0 <= Type_int ct.
Proof. by destruct ct. Qed.

Lemma threshold_ne (revs : gmap Z Z) ct i ct' i' thr : rng 32 i -> rng 32 i' -> ~ (ct' = ct /\ i' = i) ->
  threshold_of (<[credentialKey (Type_int ct) i := thr]> revs) ct' i' = threshold_of revs ct' i'.
Proof.
  intros Hi Hi' Hne. unfold threshold_of. apply lookup_insert_ne. intros E.
  apply credentialKey_inj in E as [E1 E2]; [|apply Type_int_nonneg|apply Type_int_nonneg|done|done]. apply Hne. split; [|done]. symmetry. by apply Type_int_inj.
Qed.

Lemma raise_refines s tr ct i thr (rises := default 0 (revoked tr ct i) <? thr) : trusts s tr -> revocable ct = true -> rng 32 i ->
  exists s', raise_revocation s (credentialKey (Type_int ct) i) thr = Ok (s', if rises then ADD_ACCEPTED_NEW else ADD_ACCEPTED_REDUNDANT) /\
    trusts s' (mkTrust (liked tr) (member_com tr) (if rises then thr else com_threshold tr) (held_tags tr) (held_caps tr) (held_coos tr) (raise (revoked tr) ct i thr)).
Proof.
  intros [Hlike Hcom Hthr Ht Hc Ho Hr] Hct Hi. set (k := credentialKey _ _). pose proof (Hr ct i Hct Hi) as Hk. unfold threshold_of in Hk. fold k in Hk.
  unfold raise_revocation. cbn [tab_index gmap_table mbind outcome_bind]. set (revs := if decide (_ = None) then _ else _). rewrite Hk. fold rises.
  assert (forall ct' i' x, rng 32 i' -> revocable ct' = true -> revs !! k = Some x -> ~ (ct' = ct /\ i' = i) -> threshold_of revs ct' i' = revoked tr ct' i') as Hother.
  { intros ct' i' x Hi' Hct' _ Hne. unfold revs. case_decide; [unfold k; rewrite threshold_ne by done|]; by apply Hr. }
  assert (revs !! k = Some (default 0 (revoked tr ct i))) as Hrk.
  { unfold revs. case_decide as E; [rewrite lookup_insert_eq, <- Hk, E; done|]. rewrite Hk in *. by destruct (revoked tr ct i). }
  unfold rises in *. destruct (Z.ltb_spec (default 0 (revoked tr ct i)) thr) as [Hlt|Hge]; cbn [tab_set gmap_table mbind outcome_bind].
  - eexists. split; [done|]. split; cbn; try done. intros ct' i' Hct' Hi'. unfold raise. case_decide as E.
    + destruct E as [-> ->]. unfold threshold_of. fold k. rewrite lookup_insert_eq. f_equal. lia.
    + unfold k. rewrite threshold_ne by done. by eapply Hother.
  - eexists. split; [done|]. split; cbn; try done. intros ct' i' Hct' Hi'. unfold raise. case_decide as E.
    + destruct E as [-> ->]. unfold threshold_of. fold k. rewrite Hrk. f_equal. lia.
    + by eapply Hother.
Qed.

Lemma revocation_refines `{Env} s tr rv : trusts s tr -> Revocation.ok rv ->
  exists s' tr' r, addCredential_revocation s rv = Ok (s', r) /\ step _ tr (AddRevocation rv) tr' (RAdd r) /\ trusts s' tr'.
Proof.
  intros Hs (_ & Hid & _). destruct (revocation_verify_returns rv) as [v Hv]. unfold addCredential_revocation. rewrite Hv. cbn [mbind outcome_bind].
  destruct v as [|a|]; [|exists s, tr; eexists; split; [done|]; split; [by apply step_revocation_early|done]|exists s, tr; eexists; split; [done|]; split; [by apply step_revocation_forged|done]].
  cbv zeta. assert (forall ct, revocable ct = true -> Revocation._type rv = Type_int ct -> exists s' tr' r,
    raise_revocation s (credentialKey (Revocation._type rv) (Revocation._credentialId rv)) (Revocation._threshold rv) = Ok (s', r) /\ step _ tr (AddRevocation rv) tr' (RAdd r) /\ trusts s' tr') as Hraise.
  { intros ct Hct Ety. rewrite Ety. destruct (raise_refines s tr ct (Revocation._credentialId rv) (Revocation._threshold rv) Hs Hct Hid) as (s' & E & Hs').
    eexists s', _, _. split; [exact E|]. split; [by apply step_revocation_id|exact Hs']. }
  destruct (Z.eqb_spec (Revocation._type rv) (Type_int CREDENTIAL_TYPE_COM)) as [Ety|Hn1].
  - pose proof Hs as [Hlike Hcom Hthr Ht Hc Ho Hr]. rewrite Hthr.
    destruct (Z.ltb_spec (com_threshold tr) (Revocation._threshold rv)) as [Hlt|Hge]; eexists _, _, _; (split; [done|]).
    + split; [pose proof (step_revocation_com _ tr rv Hv Ety) as Hstep; cbv zeta in Hstep; rewrite (proj2 (Z.ltb_lt _ _) Hlt) in Hstep; exact Hstep|]. split; cbn; try done. lia.
    + split; [pose proof (step_revocation_com _ tr rv Hv Ety) as Hstep; cbv zeta in Hstep; rewrite (proj2 (Z.ltb_ge _ _) Hge) in Hstep; exact Hstep|]. split; cbn; try done. lia.
  - destruct (Z.eqb_spec (Revocation._type rv) (Type_int CREDENTIAL_TYPE_CAPABILITY)) as [Ety|Hn2]; [by apply (Hraise CREDENTIAL_TYPE_CAPABILITY)|].
    destruct (Z.eqb_spec (Revocation._type rv) (Type_int CREDENTIAL_TYPE_TAG)) as [Ety|Hn3]; [by apply (Hraise CREDENTIAL_TYPE_TAG)|].
    destruct (Z.eqb_spec (Revocation._type rv) (Type_int CREDENTIAL_TYPE_COO)) as [Ety|Hn4]; [by apply (Hraise CREDENTIAL_TYPE_COO)|]. cbn [orb].
    exists s, tr. eexists. split; [done|]. split; [|done]. apply step_revocation_other; [done|]. intros [] Ety; done.
Qed.

Lemma exec_refines s tr e o : trusts s tr -> op_ok o -> exists s' tr' r, mem_exec s e o = Ok (s', r) /\ step e tr o tr' r /\ trusts s' tr'.
Proof.
  intros Hs Ho. pose proof Hs as [[El Hl] Hcom Hthr Ht Hc Hco Hr]. destruct o as [c|t|c|c|rv|nconf|now|nconf i]; cbn [mem_exec op_ok] in *.
  - unfold addCredential_com. rewrite Hthr, Hcom.
    destruct (Z.leb_spec (COM.timestamp c) (com_threshold tr)); [exists s, tr; eexists; split; [done|]; split; [apply step_com_stale; by left|done]|].
    destruct (Z.ltb_spec (COM.timestamp c) (COM.timestamp (member_com tr))); [exists s, tr; eexists; split; [done|]; split; [apply step_com_stale; by right|done]|].
    assert (~ com_stale tr c) as Hn by (intros [?|?]; lia).
    destruct (COM.eqb (member_com tr) c) eqn:Eq; [exists s, tr; eexists; split; [done|]; split; [by apply step_com_known|done]|].
    destruct (COM.verify c) as [|a|] eqn:Ev; (eexists _, _, _; split; [done|]); (split; [by constructor|done]).
  - destruct Ho as [Hok Htime]. destruct (tag_verify_returns t) as [v Hv].
    destruct (offer_refines (_remoteTags s) (_revocations s) (held_tags tr) (revoked tr CREDENTIAL_TYPE_TAG) t v) as (creds & held & r & E & Hoff & Hh); try done.
    + intros a b. apply bool_decide_eq_true.
    + apply Hr; [done|]. apply Hok.
    + apply Hok.
    + unfold addCredential_tag. rewrite E. eexists _, _, _. split; [done|]. split; [by eapply step_tag|]. by split.
  - destruct Ho as [Hok Htime]. destruct (capability_verify_returns c Hok) as [v Hv].
    destruct (offer_refines (_remoteCaps s) (_revocations s) (held_caps tr) (revoked tr CREDENTIAL_TYPE_CAPABILITY) c v) as (creds & held & r & E & Hoff & Hh); try done.
    + intros a b. apply bool_decide_eq_true.
    + apply Hr; [done|]. apply Hok.
    + apply Hok.
    + unfold addCredential_cap. rewrite E. eexists _, _, _. split; [done|]. split; [by eapply step_capability|]. by split.
  - destruct Ho as (Hok & Hcnt & Htime). destruct (coo_verify_returns c Hok Hcnt) as [v Hv].
    destruct (offer_refines (_remoteCoos s) (_revocations s) (held_coos tr) (revoked tr CREDENTIAL_TYPE_COO) c v) as (creds & held & r & E & Hoff & Hh); try done.
    + intros a b. apply bool_decide_eq_true.
    + apply Hr; [done|]. apply Hok.
    + apply Hok.
    + unfold addCredential_coo. rewrite E. eexists _, _, _. split; [done|]. split; [by eapply step_coo|]. by split.
  - destruct (revocation_refines s tr rv Hs Ho) as (s' & tr' & r & E & Hx & Hs'). rewrite E. by eexists _, _, _.
  - unfold clean. destruct (clean_refines s nconf (_remoteTags s) (held_tags tr) (revoked tr CREDENTIAL_TYPE_TAG) Ht) as (t1 & h1 & -> & Hc1 & Hh1); [intros; by apply Hr|done|].
    destruct (clean_refines s nconf (_remoteCaps s) (held_caps tr) (revoked tr CREDENTIAL_TYPE_CAPABILITY) Hc) as (t2 & h2 & -> & Hc2 & Hh2); [intros; by apply Hr|done|].
    destruct (clean_refines s nconf (_remoteCoos s) (held_coos tr) (revoked tr CREDENTIAL_TYPE_COO) Hco) as (t3 & h3 & -> & Hc3 & Hh3); [intros; by apply Hr|done|].
    eexists _, _, _. split; [done|]. split; [by apply step_clean|]. by split.
  - unfold multicastLikeGate, ssub. rewrite El. unfold in_time in *. rewrite bool_decide_eq_true_2 by (unfold srng; lia). cbn [mbind outcome_bind].
    destruct (Z.leb_spec ZT_MULTICAST_ANNOUNCE_PERIOD (now - liked tr)); unfold ZT_MULTICAST_ANNOUNCE_PERIOD in *; eexists _, _, _; (split; [done|]);
      (split; [by apply step_liked || by apply step_like_early|]); [by split|done].
  - unfold getTag. cbn [tab_get gmap_table mbind outcome_bind]. destruct (Ht i) as [-> Hi]. destruct (held_tags tr i) as [t|] eqn:Et.
    + destruct (Hi t eq_refl) as (Hid & Hri & Hti).
      destruct (valid_good s nconf (revoked tr CREDENTIAL_TYPE_TAG) t) as (b & -> & Hb); [|done..|].
      { apply Hr; [done|]. cbn in *. by rewrite Hid. }
      cbn [mbind outcome_bind]. eexists _, _, _. split; [done|]. split; [|done]. apply step_get. intros t'. rewrite Et. destruct b; naive_solver.
    + eexists _, _, _. split; [done|]. split; [|done]. apply step_get. intros t'. rewrite Et. naive_solver.
Qed.

Lemma run_refines os : forall s tr, trusts s tr -> Forall (fun eo => op_ok eo.2) os -> exists s' tr' rs, mem_run s os = Ok (s', rs) /\ steps tr os tr' rs /\ trusts s' tr'.
Proof.
  induction os as [|[e o] os IH]; intros s tr Hs Hos; [exists s, tr, []; split; [done|]; split; [constructor|done]|]. apply list.Forall_cons in Hos as [Ho Hos]. cbn [snd] in Ho.
  destruct (exec_refines s tr e o Hs Ho) as (s1 & tr1 & r & E1 & Hst & Hs1). destruct (IH s1 tr1 Hs1 Hos) as (s2 & tr2 & rs & E2 & Hsts & Hs2).
  exists s2, tr2, (r :: rs). cbn [mem_run]. rewrite E1. cbn [mbind outcome_bind]. rewrite E2. cbn [mbind outcome_bind]. split; [done|]. split; [by econstructor|done].
Qed.

Lemma new_trusts : trusts Membership_new Trust_new.
Proof. split; try done. Qed.
End Refine.

(** ** On the tables of the program *)

Section Tables.
Context {T : Type -> Type} `{TableLaws T} `{Crypto}.

(** The tables of [m] hold what the state of the specification says. *)
Definition keeps (m : Membership T) (tr : Trust) : Prop := exists s, mem_rep m s /\ trusts s tr.

End Tables.

(** ** Witness *)

Definition example_table : Table (Hashtable Z) := hashtable_table hc_uint32 4.
Definition example_laws : @TableLaws (Hashtable Z) example_table := hashtable_laws hc_uint32 4 ltac:(lia) ltac:(lia).

Lemma example_ops_ok : Forall (fun eo => op_ok eo.2) example_mem_ops.
Proof.
  repeat (apply list.Forall_cons_2); [..|apply list.Forall_nil_2]; cbn [snd op_ok].
  all: try exact I.
  all: unfold Tag.ok, Revocation.ok, in_time; by_compute.
Qed.

