(* ===== verification/Filter.v ===== *)
(** * The rule engine (node/Network.cpp)

    [_doZtFilter] runs the rules of a network or of a capability on an Ethernet frame. Entries are grouped in sets: matches, each ANDed
    or ORed with the match state of the set, then an action that is taken when the state is true.

    The frame is the list of its [frameLen] bytes; a read behind them is undefined. The trace log [rrl] is not modelled. *)

From S2P Require Import Prelude SortedVector Buffer Serial Address InetAddress Table Rule Credential Credentials NetworkConfig Membership.

Definition ZT_ETHERTYPE_IPV4 : Z := 0x0800.
Definition ZT_ETHERTYPE_ARP : Z := 0x0806.
Definition ZT_ETHERTYPE_IPV6 : Z := 0x86dd.
Definition CHARACTERISTICS_INBOUND : Z := 0x8000000000000000.
Definition CHARACTERISTICS_MULTICAST : Z := 0x4000000000000000.
Definition CHARACTERISTICS_BROADCAST : Z := 0x2000000000000000.
Definition CHARACTERISTICS_SENDER_IP_AUTHENTICATED : Z := 0x1000000000000000.
Definition CHARACTERISTICS_SENDER_MAC_AUTHENTICATED : Z := 0x0800000000000000.

(** ** The union members of a rule *)

Definition v_fwd (r : ZT_VirtualNetworkRule) : outcome (Z * Z) := match Rule.v r with VFwd a _ l => Ok (a, l) | _ => Undef end.
Definition v_qosBucket (r : ZT_VirtualNetworkRule) : outcome Z := match Rule.v r with VQos b => Ok b | _ => Undef end.

(** ** Node::prng: xorshift128+ on two 64-bit words *)
Definition prng (s : Z * Z) : (Z * Z) * Z :=
  let x := s.1 in
  let y := s.2 in
  let x := Z.lxor x (u64 (Z.shiftl x 23)) in
  let z := Z.lxor (Z.lxor (Z.lxor x y) (Z.shiftr x 17)) (Z.shiftr y 26) in
  ((y, z), u64 (z + y)).

Inductive _doZtFilterResult := DOZTFILTER_NO_MATCH | DOZTFILTER_DROP | DOZTFILTER_REDIRECT | DOZTFILTER_ACCEPT | DOZTFILTER_SUPER_ACCEPT.

#[export] Instance filter_result_eq_dec : EqDecision _doZtFilterResult.
Proof. solve_decision. Defined.

(** The frame and its direction: the arguments that do not change. *)
Record Frame := mkFrame {
  inbound : bool; ztSource : Z; macSource : Z; macDest : Z; frameData : list Z; etherType : Z; vlanId : Z }.
Definition frameLen (f : Frame) : Z := zlen (frameData f).

(** The mutable arguments, and the generator of the node. *)
Record Out := mkOut { ztDest : Z; cc : Z; ccLength : Z; ccWatch : bool; qosBucket : Z; prngState : Z * Z }.

(** The local variables of [_doZtFilter]. *)
Record State := mkState { superAccept : bool; thisSetMatches : bool; skipDrop : bool; out : Out }.

Definition set_ztDest (o : Out) (a : Z) : Out := mkOut a (cc o) (ccLength o) (ccWatch o) (qosBucket o) (prngState o).
Definition set_cc (o : Out) (a len : Z) (watch : bool) : Out := mkOut (ztDest o) a len watch (qosBucket o) (prngState o).
Definition set_qosBucket (o : Out) (b : Z) : Out := mkOut (ztDest o) (cc o) (ccLength o) (ccWatch o) b (prngState o).
Definition set_prngState (o : Out) (p : Z * Z) : Out := mkOut (ztDest o) (cc o) (ccLength o) (ccWatch o) (qosBucket o) p.

Definition set_matches (s : State) (b : bool) : State := mkState (superAccept s) b (skipDrop s) (out s).
Definition set_superAccept (s : State) : State := mkState true (thisSetMatches s) (skipDrop s) (out s).
Definition set_skipDrop (s : State) (b : bool) : State := mkState (superAccept s) (thisSetMatches s) b (out s).
Definition set_out (s : State) (o : Out) : State := mkState (superAccept s) (thisSetMatches s) (skipDrop s) o.

(** The bits of a rule's type byte. *)
Definition rule_not (r : ZT_VirtualNetworkRule) : bool := Z.testbit (Rule.t r) 7.
Definition rule_or (r : ZT_VirtualNetworkRule) : bool := Z.testbit (Rule.t r) 6.

(** ** Parts of a frame *)

Section Frame.
Context (f : Frame).

Definition byte (i : Z) : outcome Z := bs ← mem_read (frameData f) i 1; Ok (be_int bs).
Definition is_ipv4 : bool := (etherType f =? ZT_ETHERTYPE_IPV4) && (20 <=? frameLen f).
Definition is_ipv6 : bool := (etherType f =? ZT_ETHERTYPE_IPV6) && (40 <=? frameLen f).
Definition frame_ip (i n : Z) : outcome InetAddress := bs ← mem_read (frameData f) i n; Ok (InetAddress.set bs 0).

(** [_ipv6GetPayload]: [pos] and [proto], if it returns true. *)
Fixpoint ipv6_headers (fuel : nat) (pos proto : Z) : outcome (option (Z * Z)) :=
  match fuel with
  | O => Undef
  | S fuel =>
      if pos <=? frameLen f then
        if bool_decide (proto ∈ [0; 43; 60; 135]) then
          if frameLen f <? u32 (pos + 8) then Ok None
          else proto ← byte pos; len ← byte (pos + 1); ipv6_headers fuel (u32 (pos + u32 (u32 (len * 8) + 8))) proto
        else Ok (Some (pos, proto))
      else Ok None
  end.

(** Every pass moves [pos] by 8 at least. *)
Definition _ipv6GetPayload : outcome (option (Z * Z)) :=
  if frameLen f <? 40 then Ok None else proto ← byte 6; ipv6_headers (S (Z.to_nat (frameLen f))) 40 proto.
End Frame.

(** [std::lower_bound] on the tags by ID. *)
Definition localTag (nconf : NetworkConfig) (id : Z) : option Tag.Tag :=
  match tags nconf !! lower_bound Tag._id (tags nconf) id with
  | Some t => if Tag._id t =? id then Some t else None
  | None => None
  end.

(** ** The matches that only look at the frame

    [hardYes] and [hardNo] are inverted by the NOT bit, so that after the XOR with it they decide whatever it is. *)

Section Match.
Context (f : Frame) (hardYes hardNo : bool).

Definition contains_ip (net : InetAddress) (i n : Z) : outcome bool := a ← frame_ip f i n; containsAddress net a.

Definition match_ipv4 (r : ZT_VirtualNetworkRule) (i : Z) : outcome bool :=
  match Rule.v r with
  | VIpv4 ip mask => if is_ipv4 f then contains_ip (InetAddress.set ip mask) i 4 else Ok hardNo
  | _ => Undef
  end.
Definition match_ipv6 (r : ZT_VirtualNetworkRule) (i : Z) : outcome bool :=
  match Rule.v r with
  | VIpv6 ip mask => if is_ipv6 f then contains_ip (InetAddress.set ip mask) i 16 else Ok hardNo
  | _ => Undef
  end.

Definition in_range (x lo hi : Z) : bool := (lo <=? x) && (x <=? hi).

Definition match_tos (r : ZT_VirtualNetworkRule) : outcome bool :=
  match Rule.v r with
  | VIpTos mask v0 v1 =>
      if is_ipv4 f then b ← byte f 1; Ok (in_range (Z.land b mask) v0 v1)
      else if is_ipv6 f then
        b0 ← byte f 0; b1 ← byte f 1;
        Ok (in_range (u8 (Z.land (Z.lor (Z.land (Z.shiftl b0 4) 0xf0) (Z.land (Z.shiftr b1 4) 0x0f)) mask)) v0 v1)
      else Ok hardNo
  | _ => Undef
  end.

Definition match_protocol (r : ZT_VirtualNetworkRule) : outcome bool :=
  match Rule.v r with
  | VIpProtocol p =>
      if is_ipv4 f then b ← byte f 9; Ok (p =? b)
      else if etherType f =? ZT_ETHERTYPE_IPV6 then
        h ← _ipv6GetPayload f; match h with Some (_, proto) => Ok (p =? u8 proto) | None => Ok hardNo end
      else Ok hardNo
  | _ => Undef
  end.

(** The type and code at [pos]. *)
Definition match_icmp_at (type code flags pos : Z) : outcome bool :=
  b ← byte f pos;
  if type =? b then
    if negb (Z.land flags 1 =? 0) then c ← byte f (pos + 1); Ok (c =? code) else Ok hardYes
  else Ok hardNo.
Definition match_icmp (r : ZT_VirtualNetworkRule) : outcome bool :=
  match Rule.v r with
  | VIcmp type code flags =>
      if is_ipv4 f then
        proto ← byte f 9;
        if proto =? 1 then
          b ← byte f 0;
          let ihl := Z.land b 0xf * 4 in
          if ihl + 2 <=? frameLen f then match_icmp_at type code flags ihl else Ok hardNo
        else Ok hardNo
      else if etherType f =? ZT_ETHERTYPE_IPV6 then
        h ← _ipv6GetPayload f;
        match h with
        | Some (pos, proto) =>
            if (proto =? 0x3a) && (u32 (pos + 2) <=? frameLen f) then match_icmp_at type code flags pos else Ok hardNo
        | None => Ok hardNo
        end
      else Ok hardNo
  | _ => Undef
  end.

(** The port at [pos], -1 if the protocol has none or the frame ends before it. *)
Definition has_ports (proto : Z) : bool := bool_decide (proto ∈ [0x06; 0x11; 0x84; 0x88]).
Definition port_at (proto start : Z) (dest : bool) : outcome Z :=
  if has_ports proto && (u32 (start + 4) <? frameLen f) then
    let pos := start + (if dest then 2 else 0) in
    hi ← byte f pos; lo ← byte f (pos + 1); Ok (Z.lor (Z.shiftl hi 8) lo)
  else Ok (-1).
Definition match_port (r : ZT_VirtualNetworkRule) : outcome bool :=
  match Rule.v r with
  | VPort p0 p1 =>
      let dest := rule_type r =? MATCH_IP_DEST_PORT_RANGE in
      if is_ipv4 f then
        b ← byte f 0; proto ← byte f 9;
        p ← port_at proto (4 * Z.land b 0xf) dest;
        Ok (if 0 <=? p then in_range p p0 p1 else false)
      else if etherType f =? ZT_ETHERTYPE_IPV6 then
        h ← _ipv6GetPayload f;
        match h with
        | Some (pos, proto) => p ← port_at proto pos dest; Ok (if 0 <? p then in_range p p0 p1 else false)
        | None => Ok hardNo
        end
      else Ok hardNo
  | _ => Undef
  end.

Definition match_frame_size (r : ZT_VirtualNetworkRule) : outcome bool :=
  match Rule.v r with VFrameSize n0 n1 => Ok (in_range (frameLen f) n0 n1) | _ => Undef end.

(** [while (idx < eof)]: [n] bytes from [idx]. *)
Fixpoint read_be (n : nat) (idx integer : Z) : outcome Z :=
  match n with O => Ok integer | S n => b ← byte f idx; read_be n (idx + 1) (Z.lor (u64 (Z.shiftl integer 8)) b) end.
Fixpoint read_le (n : nat) (idx integer : Z) : outcome Z :=
  match n with O => Ok integer | S n => b ← byte f idx; read_le n (idx + 1) (Z.lor (Z.shiftr integer 8) (Z.shiftl b 56)) end.
Definition match_integer (r : ZT_VirtualNetworkRule) : outcome bool :=
  match Rule.v r with
  | VIntRange start end_ idx format =>
      let bits := Z.land format 63 + 1 in
      let bytes := (bits + 8 - 1) / 8 in
      integer ← (if Z.land format 0x80 =? 0 then
                   let idx := idx + (8 - bytes) in
                   x ← (if idx + bytes <=? frameLen f then read_be (Z.to_nat bytes) idx 0 else Ok 0);
                   Ok (Z.land x (Z.shiftr ones64 (64 - bits)))
                 else
                   x ← (if idx + bytes <=? frameLen f then read_le (Z.to_nat bytes) idx 0 else Ok 0);
                   Ok (Z.shiftr x (64 - bits)));
      Ok ((start <=? integer) && (integer <=? u64 (start + end_)))
  | _ => Undef
  end.

(** The flags, and above them the reserved bits and NS, of a TCP header at [pos]. *)
Definition tcp_flags (pos : Z) : outcome Z :=
  fl ← byte f (pos + 13); off ← byte f (pos + 12); Ok (Z.lor fl (Z.shiftl (Z.land off 0x0f) 8)).
Definition frame_tcp_flags : outcome Z :=
  if is_ipv4 f then
    proto ← byte f 9;
    if proto =? 6 then b ← byte f 0; tcp_flags (4 * Z.land b 0xf) else Ok 0
  else if etherType f =? ZT_ETHERTYPE_IPV6 then
    h ← _ipv6GetPayload f;
    match h with
    | Some (pos, proto) => if (proto =? 6) && (u32 (pos + 14) <? frameLen f) then tcp_flags pos else Ok 0
    | None => Ok 0
    end
  else Ok 0.

(** The sender's IP, and whether the frame is a neighbor solicitation, which counts as authenticated. *)
Definition sender_ip : outcome (InetAddress * bool) :=
  if is_ipv4 f then a ← frame_ip f 12 4; Ok (a, false)
  else if is_ipv6 f then
    proto ← byte f 6;
    if (64 <=? frameLen f) && (proto =? 0x3a) then
      ty ← byte f 40;
      if ty =? 0x87 then Ok (INil, true)
      else if ty =? 0x88 then a ← frame_ip f 48 16; Ok (a, false)
      else a ← frame_ip f 8 16; Ok (a, false)
    else a ← frame_ip f 8 16; Ok (a, false)
  else if (etherType f =? ZT_ETHERTYPE_ARP) && (28 <=? frameLen f) then a ← frame_ip f 14 4; Ok (a, false)
  else Ok (INil, false).
End Match.

(** ** The filter *)

Section Filter.
Context {T : Type -> Type} `{Table T}.
(** [RR->identity.address()]; [membership] can be null. *)
Context (self : Z) (nconf : NetworkConfig) (membership : option (Membership T)) (f : Frame).

Definition getTag_of (id : Z) : outcome (option Tag.Tag) :=
  match membership with Some m => getTag m nconf id | None => Ok None end.

(** [ownershipVerificationMask] *)
Fixpoint owned_mask (l : list COO.COO) (src : InetAddress) (mask : Z) : outcome Z :=
  match l with
  | [] => Ok mask
  | c :: l =>
      ip ← (if valid src then COO.owns_ip c src else Ok false);
      let mask := if (ip : bool) then Z.lor mask CHARACTERISTICS_SENDER_IP_AUTHENTICATED else mask in
      mac ← COO.owns_mac c (macSource f);
      owned_mask l src (if (mac : bool) then Z.lor mask CHARACTERISTICS_SENDER_MAC_AUTHENTICATED else mask)
  end.
Definition ownership_mask : outcome Z :=
  '(src, ndp) ← sender_ip f;
  let mask := if (ndp : bool) then CHARACTERISTICS_SENDER_IP_AUTHENTICATED else 0 in
  if inbound f then
    match membership with
    | Some m =>
        ip ← (if valid src then hasCertificateOfOwnershipFor_ip m nconf src else Ok false);
        let mask := if (ip : bool) then Z.lor mask CHARACTERISTICS_SENDER_IP_AUTHENTICATED else mask in
        mac ← hasCertificateOfOwnershipFor_mac m nconf (macSource f);
        Ok (if (mac : bool) then Z.lor mask CHARACTERISTICS_SENDER_MAC_AUTHENTICATED else mask)
    | None => Ok mask
    end
  else owned_mask (certificatesOfOwnership nconf) src mask.

Definition characteristics : outcome Z :=
  let cf := if inbound f then CHARACTERISTICS_INBOUND else 0 in
  let cf := if MAC.isMulticast (macDest f) then Z.lor cf CHARACTERISTICS_MULTICAST else cf in
  let cf := if MAC.isBroadcast (macDest f) then Z.lor cf CHARACTERISTICS_BROADCAST else cf in
  m ← ownership_mask;
  fl ← frame_tcp_flags f;
  Ok (Z.lor (Z.lor cf m) fl).
Definition match_characteristics (r : ZT_VirtualNetworkRule) : outcome bool :=
  match Rule.v r with VCharacteristics c => cf ← characteristics; Ok (negb (Z.land cf c =? 0)) | _ => Undef end.

Definition compare_tags (rt ltv rtv value : Z) : bool :=
  if rt =? MATCH_TAGS_DIFFERENCE then (if rtv <? ltv then ltv - rtv else rtv - ltv) <=? value
  else if rt =? MATCH_TAGS_BITWISE_AND then Z.land ltv rtv =? value
  else if rt =? MATCH_TAGS_BITWISE_OR then Z.lor ltv rtv =? value
  else if rt =? MATCH_TAGS_BITWISE_XOR then Z.lxor ltv rtv =? value
  else (ltv =? value) && (rtv =? value).

(** The match of two tags: the answer, and whether the next DROP is to be skipped. *)
Definition match_tags (superAccept hardYes hardNo : bool) (r : ZT_VirtualNetworkRule) : outcome (bool * bool) :=
  match Rule.v r with
  | VTag id value =>
      match localTag nconf id with
      | Some l =>
          remote ← getTag_of id;
          match remote with
          | Some t => Ok (compare_tags (rule_type r) (Tag._value l) (Tag._value t) value, false)
          | None => if inbound f && negb superAccept then Ok (hardNo, false) else Ok (hardYes, true)
          end
      | None => Ok (hardNo, false)
      end
  | _ => Undef
  end.

Definition match_tag (superAccept hardYes hardNo : bool) (r : ZT_VirtualNetworkRule) : outcome (bool * bool) :=
  match Rule.v r with
  | VTag id value =>
      let sender := rule_type r =? MATCH_TAG_SENDER in
      if superAccept then Ok (hardYes, true)
      else if Bool.eqb sender (inbound f) then
        remote ← getTag_of id;
        match remote with
        | Some t => Ok (Tag._value t =? value, false)
        | None => if sender then Ok (hardNo, false) else Ok (hardYes, true)
        end
      else match localTag nconf id with Some l => Ok (Tag._value l =? value, false) | None => Ok (hardNo, false) end
  | _ => Undef
  end.

(** The matches without an effect. *)
Definition match_pure (o : Out) (r : ZT_VirtualNetworkRule) : outcome bool :=
  let hardYes := negb (rule_not r) in
  let hardNo := rule_not r in
  match rule_kind (rule_type r), Rule.v r with
  | KZt, VZt a => Ok (a =? (if rule_type r =? MATCH_SOURCE_ZEROTIER_ADDRESS then ztSource f else ztDest o))
  | KVlanId, VVlanId n => Ok (n =? u16 (vlanId f))
  | KVlanPcp, VVlanPcp n | KVlanDei, VVlanDei n => Ok (n =? 0)
  | KMac, VMac m =>
      mac ← MAC.setTo m 6; Ok (mac =? (if rule_type r =? MATCH_MAC_SOURCE then macSource f else macDest f))
  | KIpv4, _ => match_ipv4 f hardNo r (if rule_type r =? MATCH_IPV4_SOURCE then 12 else 16)
  | KIpv6, _ => match_ipv6 f hardNo r (if rule_type r =? MATCH_IPV6_SOURCE then 8 else 24)
  | KIpTos, _ => match_tos f hardNo r
  | KIpProtocol, _ => match_protocol f hardNo r
  | KEtherType, VEtherType n => Ok (n =? u16 (etherType f))
  | KIcmp, _ => match_icmp f hardYes hardNo r
  | KPort, _ => match_port f hardNo r
  | KCharacteristics, _ => match_characteristics r
  | KFrameSize, _ => match_frame_size f r
  | KIntRange, _ => match_integer f r
  | KNone, _ => Ok (has_flag (NetworkConfig.flags nconf) ZT_NETWORKCONFIG_FLAG_RULES_RESULT_OF_UNSUPPORTED_MATCH)
  | _, _ => Undef
  end.

(** [thisRuleMatches], with the effects of the match. *)
Definition match_rule (s : State) (r : ZT_VirtualNetworkRule) : outcome (State * bool) :=
  let hardYes := negb (rule_not r) in
  let hardNo := rule_not r in
  match rule_kind (rule_type r) with
  | KRandom =>
      match Rule.v r with
      | VRandom p => let '(st, x) := prng (prngState (out s)) in Ok (set_out s (set_prngState (out s) st), u32 x <=? p)
      | _ => Undef
      end
  | KTag =>
      '(b, skip) ← (if (rule_type r =? MATCH_TAG_SENDER) || (rule_type r =? MATCH_TAG_RECEIVER)
                    then match_tag (superAccept s) hardYes hardNo r
                    else match_tags (superAccept s) hardYes hardNo r);
      Ok (if (skip : bool) then set_skipDrop s true else s, b)
  | _ => b ← match_pure (out s) r; Ok (s, b)
  end.

(** [thisSetMatches |= ...] or [&= ...] *)
Definition combine (s : State) (r : ZT_VirtualNetworkRule) (b : bool) : State :=
  let x := xorb b (rule_not r) in
  set_matches s (if rule_or r then thisSetMatches s || x else thisSetMatches s && x).

Definition is_forward (rt : Z) : bool := (rt =? ACTION_TEE) || (rt =? ACTION_WATCH) || (rt =? ACTION_REDIRECT).

(** An action whose set matches: the end of the evaluation, or the state with which it goes on. *)
Definition take_action (s : State) (r : ZT_VirtualNetworkRule) : outcome (State * option _doZtFilterResult) :=
  let rt := rule_type r in
  if rt =? ACTION_PRIORITY then
    b ← v_qosBucket r; Ok (set_out s (set_qosBucket (out s) (if b <=? 8 then b else 4)), Some DOZTFILTER_ACCEPT)
  else if rt =? ACTION_DROP then if skipDrop s then Ok (set_skipDrop s false, None) else Ok (s, Some DOZTFILTER_DROP)
  else if rt =? ACTION_ACCEPT then Ok (s, Some (if superAccept s then DOZTFILTER_SUPER_ACCEPT else DOZTFILTER_ACCEPT))
  else if is_forward rt then
    '(a, length) ← v_fwd r;
    let fwdAddr := Address.of_int a in
    if fwdAddr =? ztSource f then Ok (s, None)
    else if fwdAddr =? self then Ok (s, if inbound f then Some DOZTFILTER_SUPER_ACCEPT else None)
    else if fwdAddr =? ztDest (out s) then Ok (s, None)
    else if rt =? ACTION_REDIRECT then Ok (set_out s (set_ztDest (out s) fwdAddr), Some DOZTFILTER_REDIRECT)
    else
      Ok (set_out s (set_cc (out s) fwdAddr (if negb (length =? 0) then (if frameLen f <? length then frameLen f else length) else frameLen f)
                       (rt =? ACTION_WATCH)), None)
  else if rt =? ACTION_BREAK then Ok (s, Some DOZTFILTER_NO_MATCH)
  else Ok (s, None).

(** An action whose set does not match. *)
Definition skip_action (s : State) (r : ZT_VirtualNetworkRule) : outcome State :=
  s ← (if inbound f && is_forward (rule_type r) then
         '(a, _) ← v_fwd r; Ok (if self =? Address.of_int a then set_superAccept s else s)
       else Ok s);
  Ok (set_matches s true).

(** One pass of the loop. *)
Definition filter_rule (s : State) (r : ZT_VirtualNetworkRule) : outcome (State * option _doZtFilterResult) :=
  if rule_type r <=? ACTION__MAX_ID then
    if thisSetMatches s then take_action s r else s ← skip_action s r; Ok (s, None)
  else if negb (thisSetMatches s) && negb (rule_or r) then Ok (s, None)
  else '(s, b) ← match_rule s r; Ok (combine s r b, None).

Fixpoint filter_rules (s : State) (rules : list ZT_VirtualNetworkRule) : outcome (Out * _doZtFilterResult) :=
  match rules with
  | [] => Ok (out s, DOZTFILTER_NO_MATCH)
  | r :: rules =>
      '(s, res) ← filter_rule s r;
      match res with Some res => Ok (out s, res) | None => filter_rules s rules end
  end.

Definition _doZtFilter (o : Out) (rules : list ZT_VirtualNetworkRule) : outcome (Out * _doZtFilterResult) :=
  filter_rules (mkState false true false o) rules.
End Filter.

(** ** Reading the frame *)

Definition frame_ok (f : Frame) : Prop := bytes_ok (frameData f) /\ frameLen f < 2 ^ 31.

Section reading.
Context (f : Frame) (Hf : frame_ok f).

Lemma byte_in i : 0 <= i < frameLen f -> exists b, byte f i = Ok b /\ byte_ok b.
Proof.
  destruct Hf as [Hb _]. intros [H0 H1]. unfold byte. destruct (mem_read_spec (frameData f) i 1) as (bs & -> & Hbs & Hl); [done|lia|lia|unfold frameLen in *; lia|].
  cbn [mbind outcome_bind]. destruct bs as [|b [|? ?]]; [done| |unfold zlen in Hl; cbn in Hl; lia].
  exists b. split; [done|]. by apply list.Forall_cons in Hbs as [? _].
Qed.

Lemma frame_ip_in i n : 0 <= i -> (n = 4 \/ n = 16) -> i + n <= frameLen f -> exists bs, frame_ip f i n = Ok (InetAddress.set bs 0) /\ bytes_ok bs /\ zlen bs = n.
Proof.
  destruct Hf as [Hb _]. intros. unfold frame_ip.
  destruct (mem_read_spec (frameData f) i n) as (bs & -> & Hbs & Hl); [done|lia|lia|unfold frameLen in *; lia|]. by exists bs.
Qed.

(** The walk over the extension headers ends, inside the frame. *)
Lemma ipv6_headers_in fuel : forall pos proto, 40 <= pos -> frameLen f - pos < Z.of_nat fuel -> byte_ok proto ->
  exists r, ipv6_headers f (S fuel) pos proto = Ok r /\ (forall p q, r = Some (p, q) -> 40 <= p <= frameLen f /\ byte_ok q).
Proof.
  destruct Hf as [_ Hlen]. induction fuel as [|fuel IH]; intros pos proto Hpos Hfuel Hproto; cbn [ipv6_headers].
  all: destruct (Z.leb_spec pos (frameLen f)); [|by (eexists; split; [done|])].
  - lia.
  - case_bool_decide; [|eexists; split; [done|]; by intros p q [= <- <-]].
    rewrite u32_small by lia. destruct (Z.ltb_spec (frameLen f) (pos + 8)); [by (eexists; split; [done|])|].
    destruct (byte_in pos) as (p & -> & Hp); [lia|]. destruct (byte_in (pos + 1)) as (n & -> & Hn); [lia|]. cbn [mbind outcome_bind].
    unfold byte_ok in Hn. rewrite (u32_small (n * 8)), (u32_small (n * 8 + 8)), u32_small by lia. apply IH; [lia|lia|done].
Qed.

Lemma ipv6_payload_in : exists r, _ipv6GetPayload f = Ok r /\ (forall p q, r = Some (p, q) -> 40 <= p <= frameLen f /\ byte_ok q).
Proof.
  unfold _ipv6GetPayload. destruct (Z.ltb_spec (frameLen f) 40); [by (eexists; split; [done|])|]. destruct (byte_in 6) as (p & -> & Hp); [lia|]. cbn [mbind outcome_bind].
  destruct (Z.to_nat (frameLen f)) as [|n] eqn:E; [lia|]. apply (ipv6_headers_in (S n)); [lia|lia|done].
Qed.
End reading.

(** ** Safety *)

Definition succeeds {A} (P : A -> Prop) (m : outcome A) : Prop := exists a, m = Ok a /\ P a.

Lemma succeeds_Ok {A} (P : A -> Prop) a : P a -> succeeds P (Ok a).
Proof. intros. by exists a. Qed.
Lemma succeeds_bind {A B} (P : A -> Prop) (Q : B -> Prop) m (k : A -> outcome B) :
  succeeds P m -> (forall a, P a -> succeeds Q (k a)) -> succeeds Q (m ≫= k).
Proof. intros (a & -> & Ha) Hk. by apply Hk. Qed.
Lemma succeeds_mono {A} (P Q : A -> Prop) m : (forall a, P a -> Q a) -> succeeds P m -> succeeds Q m.
Proof. intros HP (a & -> & Ha). exists a. auto. Qed.

Definition any {A} (_ : A) : Prop := True.

(** A mask an address of the family can have. *)
Definition mask_ok (r : ZT_VirtualNetworkRule) : Prop :=
  match Rule.v r with VIpv4 _ m => m <= 32 | VIpv6 _ m => m <= 128 | _ => True end.

Section safety.
Context (f : Frame) (Hf : frame_ok f) (y n : bool).

Lemma byte_ok_in i : 0 <= i < frameLen f -> succeeds byte_ok (byte f i).
Proof. apply byte_in, Hf. Qed.

Lemma payload_in : succeeds (fun r => forall p q, r = Some (p, q) -> 40 <= p <= frameLen f /\ byte_ok q) (_ipv6GetPayload f).
Proof. apply ipv6_payload_in, Hf. Qed.

Lemma is_ipv4_len : is_ipv4 f = true -> 20 <= frameLen f.
Proof. unfold is_ipv4. rewrite andb_true_iff. intros [_ ?%Z.leb_le]. done. Qed.
Lemma is_ipv6_len : is_ipv6 f = true -> 40 <= frameLen f.
Proof. unfold is_ipv6. rewrite andb_true_iff. intros [_ ?%Z.leb_le]. done. Qed.

Lemma nibble_bound b : 0 <= Z.land b 0xf < 16.
Proof. change 15 with (Z.ones 4). rewrite Z.land_ones by lia. change 16 with (2 ^ 4). apply Z.mod_pos_bound. lia. Qed.

(** [ok]: one step of a computation on the frame. *)
Ltac ok :=
  match goal with
  | |- succeeds _ (Ok _) => apply succeeds_Ok; done
  | |- succeeds _ (byte _ _ ≫= _) => eapply succeeds_bind; [apply byte_ok_in; lia|intros]
  | |- succeeds _ (_ipv6GetPayload _ ≫= _) => eapply succeeds_bind; [apply payload_in|intros]
  | |- succeeds _ (if is_ipv4 f then _ else _) => destruct (is_ipv4 f) eqn:?; [pose proof (is_ipv4_len ltac:(assumption))|]
  | |- succeeds _ (if is_ipv6 f then _ else _) => destruct (is_ipv6 f) eqn:?; [pose proof (is_ipv6_len ltac:(assumption))|]
  | |- succeeds _ (match ?o with Some _ => _ | None => _ end) => destruct o as [[? ?]|]
  | H : forall p q, Some (?a, ?b) = Some (p, q) -> _ |- _ => destruct (H a b eq_refl); clear H
  | |- succeeds _ (if ?a <=? ?b then _ else _) => destruct (Z.leb_spec a b)
  | |- succeeds _ (if ?a <? ?b then _ else _) => destruct (Z.ltb_spec a b)
  | |- succeeds _ (if (?a <=? ?b) && _ then _ else _) => destruct (Z.leb_spec a b); cbn [andb]
  | |- succeeds _ (if ?c && _ then _ else _) => destruct c; cbn [andb]
  | |- succeeds _ (if ?c then _ else _) => destruct c
  end.

(** [bounds]: arithmetic, with the bounds of header lengths. *)
Ltac bounds :=
  repeat match goal with
  | |- context [Z.land ?b 0xf] => lazymatch goal with H : 0 <= Z.land b 0xf < 16 |- _ => fail | _ => pose proof (nibble_bound b) end
  | H : context [u32 _] |- _ => rewrite u32_small in H by lia
  end; lia.

Lemma contains_ok net i k : (match net with IV4 _ b => 0 <= b <= 32 | IV6 ip b _ _ => 0 <= b <= 128 /\ length ip = 16%nat | INil => True end) -> 0 <= i ->
  (k = 4 \/ k = 16) -> i + k <= frameLen f -> succeeds any (contains_ip f net i k).
Proof.
  intros Hnet Hi Hk Hl. unfold contains_ip. destruct (frame_ip_in f Hf i k Hi Hk Hl) as (bs & -> & Hbs & Hz). cbn [mbind outcome_bind].
  destruct net as [|b bits|ip bits fl sc]; [by eexists| |].
  - unfold containsAddress. destruct (InetAddress.set bs 0); [by eexists| |by eexists]. destruct (Z.eqb_spec bits 0); [by eexists|].
    rewrite u32_small by lia. rewrite !shr_div by lia. by eexists.
  - unfold containsAddress. destruct (InetAddress.set bs 0); [by eexists|by eexists|]. destruct (netmask_v6 ip bits fl sc) as (m & -> & _); [tauto|]. by eexists.
Qed.

Lemma match_tos_ok r : rule_wf r -> rule_kind (rule_type r) = KIpTos -> succeeds any (match_tos f n r).
Proof.
  intros [_ Hv] Hk. unfold value_wf in Hv. rewrite Hk in Hv. unfold match_tos. destruct (Rule.v r); try done. repeat ok.
Qed.

Lemma match_protocol_ok r : rule_wf r -> rule_kind (rule_type r) = KIpProtocol -> succeeds any (match_protocol f n r).
Proof.
  intros [_ Hv] Hk. unfold value_wf in Hv. rewrite Hk in Hv. unfold match_protocol. destruct (Rule.v r); try done. repeat ok.
Qed.

Lemma match_icmp_at_ok ty co fl pos : 0 <= pos -> pos + 2 <= frameLen f -> succeeds any (match_icmp_at f y n ty co fl pos).
Proof. intros. unfold match_icmp_at. repeat ok. Qed.

Lemma match_icmp_ok r : rule_wf r -> rule_kind (rule_type r) = KIcmp -> succeeds any (match_icmp f y n r).
Proof.
  intros [_ Hv] Hk. unfold value_wf in Hv. rewrite Hk in Hv. unfold match_icmp. destruct (Rule.v r); try done. destruct Hf as [_ Hlen].
  repeat ok; apply match_icmp_at_ok; bounds.
Qed.

Lemma port_at_ok proto start dest : 0 <= start < 2 ^ 31 -> succeeds any (port_at f proto start dest).
Proof.
  intros Hs. unfold port_at. rewrite u32_small by lia. destruct (has_ports proto); cbn [andb]; [|repeat ok].
  destruct (Z.ltb_spec (start + 4) (frameLen f)); [|repeat ok]. destruct dest; repeat ok.
Qed.

Lemma match_port_ok r : rule_wf r -> rule_kind (rule_type r) = KPort -> succeeds any (match_port f n r).
Proof.
  intros [_ Hv] Hk. unfold value_wf in Hv. rewrite Hk in Hv. unfold match_port. destruct (Rule.v r); try done. destruct Hf as [_ Hlen].
  repeat ok; (eapply succeeds_bind; [apply port_at_ok; bounds|intros; apply succeeds_Ok; done]).
Qed.

Lemma read_be_ok k : forall i x, 0 <= i -> i + Z.of_nat k <= frameLen f -> succeeds any (read_be f k i x).
Proof. induction k as [|k IH]; intros; cbn [read_be]; repeat ok. apply IH; lia. Qed.
Lemma read_le_ok k : forall i x, 0 <= i -> i + Z.of_nat k <= frameLen f -> succeeds any (read_le f k i x).
Proof. induction k as [|k IH]; intros; cbn [read_le]; repeat ok. apply IH; lia. Qed.

Lemma match_integer_ok r : rule_wf r -> rule_kind (rule_type r) = KIntRange -> succeeds any (match_integer f r).
Proof.
  intros [_ Hv] Hk. unfold value_wf in Hv. rewrite Hk in Hv. unfold match_integer. destruct (Rule.v r) as [| | |start end_ idx format| | | | | | | | | | | | | | | |]; try done.
  destruct Hv as (_ & _ & Hi & _). assert (0 <= Z.land format 63 < 64) as Hb by (change 63 with (Z.ones 6); rewrite Z.land_ones by lia; apply Z.mod_pos_bound; lia).
  set (k := (Z.land format 63 + 1 + 8 - 1) / 8). assert (1 <= k <= 8) as Hk8 by (unfold k; Z.div_mod_to_equations; lia). unfold rng in Hi.
  eapply (succeeds_bind any); [|intros; apply succeeds_Ok; done].
  destruct (_ =? 0); (eapply (succeeds_bind any); [|intros; apply succeeds_Ok; done]).
  - destruct (Z.leb_spec (idx + (8 - k) + k) (frameLen f)); [apply read_be_ok; lia|by eexists].
  - destruct (Z.leb_spec (idx + k) (frameLen f)); [apply read_le_ok; lia|by eexists].
Qed.

Lemma match_ipv4_ok r i : rule_wf r -> mask_ok r -> rule_kind (rule_type r) = KIpv4 -> 0 <= i -> i + 4 <= 20 -> succeeds any (match_ipv4 f n r i).
Proof.
  intros [_ Hv] Hm Hk Hi Hi2. unfold value_wf in Hv. rewrite Hk in Hv. unfold match_ipv4, mask_ok in *. destruct (Rule.v r) as [| |ip mask| | | | | | | | | | | | | | | | |]; try done.
  destruct Hv as (_ & Hl & Hr). repeat ok. unfold rng in Hr. apply contains_ok; [|lia|by left|lia].
  unfold InetAddress.set. rewrite Hl. cbn [Z.eqb Pos.eqb]. rewrite u16_small by lia. lia.
Qed.

Lemma match_ipv6_ok r i : rule_wf r -> mask_ok r -> rule_kind (rule_type r) = KIpv6 -> 0 <= i -> i + 16 <= 40 -> succeeds any (match_ipv6 f n r i).
Proof.
  intros [_ Hv] Hm Hk Hi Hi2. unfold value_wf in Hv. rewrite Hk in Hv. unfold match_ipv6, mask_ok in *. destruct (Rule.v r) as [|ip mask| | | | | | | | | | | | | | | | | |]; try done.
  destruct Hv as (_ & Hl & Hr). repeat ok. unfold rng in Hr. apply contains_ok; [|lia|by right|lia].
  unfold InetAddress.set. rewrite Hl. cbn [Z.eqb Pos.eqb]. rewrite u16_small by lia. unfold zlen in Hl. lia.
Qed.

Lemma sender_ip_ok : succeeds any (sender_ip f).
Proof.
  unfold sender_ip. repeat ok;
  try (match goal with |- succeeds _ (frame_ip f ?i ?k ≫= _) => destruct (frame_ip_in f Hf i k) as (bs & -> & _); [lia|lia|lia|by eexists] end).
Qed.

(** The TCP header of an IPv4 frame is where the IP header says, whether or not the frame reaches that far. *)
Definition tcp_in_frame : Prop := forall b, is_ipv4 f = true -> byte f 9 = Ok 6 -> byte f 0 = Ok b -> 4 * Z.land b 0xf + 14 <= frameLen f.

Lemma tcp_flags_ok pos : 0 <= pos -> pos + 14 <= frameLen f -> succeeds any (tcp_flags f pos).
Proof. intros. unfold tcp_flags. repeat ok. Qed.

Lemma frame_tcp_flags_ok : tcp_in_frame -> succeeds any (frame_tcp_flags f).
Proof.
  intros Ht. unfold tcp_in_frame, frame_tcp_flags in *. destruct (is_ipv4 f) eqn:E4.
  - pose proof (is_ipv4_len E4). destruct (byte_in f Hf 9) as (p & E9 & Hp); [lia|]. rewrite E9. destruct (byte_in f Hf 0) as (b & E0 & Hb); [lia|].
    cbn [mbind outcome_bind]. destruct (Z.eqb_spec p 6) as [->|]; [|repeat ok]. rewrite E0. cbn [mbind outcome_bind]. specialize (Ht b eq_refl E9 E0).
    apply tcp_flags_ok; [bounds|done].
  - destruct Hf as [_ Hlen]. repeat ok. rewrite u32_small in * by lia. apply tcp_flags_ok; lia.
Qed.
End safety.

(** ** Safety of the whole filter *)

Section whole.
Context {T : Type -> Type} `{Table T}.
Context (self : Z) (nconf : NetworkConfig) (membership : option (Membership T)) (f : Frame) (Hf : frame_ok f).

(** What the filter asks of the credentials is defined: no time stamp difference overflows, no certificate of ownership
    has more things than fit, no hash table has a bad index. The frame has no part in it: it holds for every resource. *)
Definition credentials_defined : Prop :=
  (forall id, succeeds any (getTag_of nconf membership id)) /\
  (forall m ip mac, membership = Some m ->
    succeeds any (hasCertificateOfOwnershipFor_ip m nconf ip) /\ succeeds any (hasCertificateOfOwnershipFor_mac m nconf mac)) /\
  Forall (fun c => forall ip mac, succeeds any (COO.owns_ip c ip) /\ succeeds any (COO.owns_mac c mac)) (certificatesOfOwnership nconf).

Context (Hcred : credentials_defined) (Htcp : tcp_in_frame f).

Definition rule_ok (r : ZT_VirtualNetworkRule) : Prop := rule_wf r /\ mask_ok r.

Lemma succeeds_pair {A B} (m : outcome A) (k : A -> B) : succeeds any m -> succeeds any (a ← m; Ok (k a)).
Proof. intros (a & -> & _). by eexists. Qed.

Lemma owned_mask_ok l src mask : Forall (fun c => forall ip mac, succeeds any (COO.owns_ip c ip) /\ succeeds any (COO.owns_mac c mac)) l ->
  succeeds any (owned_mask f l src mask).
Proof.
  intros Hl. revert mask. induction Hl as [|c l Hc _ IH]; intros mask; cbn [owned_mask]; [by eexists|].
  destruct (Hc src (macSource f)) as [(x & -> & _) (y & -> & _)]. destruct (valid src); cbn [mbind outcome_bind]; apply IH.
Qed.

(** The addresses of the frame, its sender's included, are read only where the frame has them. *)
Lemma ownership_mask_ok : succeeds any (ownership_mask nconf membership f).
Proof.
  destruct Hcred as (_ & Hm & Hl). unfold ownership_mask. destruct (sender_ip_ok f Hf) as ([src ndp] & -> & _). cbn [mbind outcome_bind].
  destruct (inbound f); [|by apply owned_mask_ok]. destruct membership as [m|]; [|by eexists].
  destruct (Hm m src (macSource f) eq_refl) as [(x & -> & _) (y & -> & _)]. destruct (valid src); cbn [mbind outcome_bind]; by eexists.
Qed.

Lemma match_pure_ok o r : rule_ok r -> rule_kind (rule_type r) <> KFwd -> rule_kind (rule_type r) <> KRandom -> rule_kind (rule_type r) <> KTag ->
  succeeds any (match_pure nconf membership f o r).
Proof.
  intros [Hwf Hm] H1 H2 H3. pose proof Hwf as [_ Hv]. unfold value_wf in Hv. unfold match_pure.
  destruct (rule_kind (rule_type r)) eqn:Hk; try done.
  all: try (by apply match_tos_ok || by apply match_protocol_ok || by apply match_icmp_ok || by apply match_port_ok || by apply match_integer_ok).
  all: try (match goal with |- context [if ?b then _ else _] => destruct b end; (apply match_ipv4_ok || apply match_ipv6_ok); (done || lia)).
  all: destruct (Rule.v r) as [| | | | | | | |m| | | | | | | | | | |] eqn:Ev; try done; try (by eexists).
  - destruct Hv as [_ Hl]. unfold zlen in Hl. destruct m as [|? [|? [|? [|? [|? [|? [|? ?]]]]]]]; try (cbn in Hl; lia). by eexists.
  - unfold match_characteristics. rewrite Ev. apply succeeds_pair. unfold characteristics.
    destruct ownership_mask_ok as (mk & -> & _). destruct (frame_tcp_flags_ok f Hf Htcp) as (fl & -> & _). by eexists.
  - unfold match_frame_size. rewrite Ev. by eexists.
Qed.

Lemma match_rule_ok s r : rule_ok r -> rule_kind (rule_type r) <> KFwd -> succeeds any (match_rule nconf membership f s r).
Proof.
  intros Hr H1. unfold match_rule. pose proof Hr as [[_ Hv] _]. unfold value_wf in Hv. destruct Hcred as [Htag _].
  destruct (rule_kind (rule_type r)) eqn:Hk; try (apply (succeeds_pair _ (fun b => (s, b))); apply match_pure_ok; [done|by rewrite Hk..]).
  - destruct (Rule.v r); try done. destruct (prng _). by eexists.
  - eapply (succeeds_bind any); [|intros [? ?] _; by eexists].
    destruct (_ || _); unfold match_tag, match_tags; destruct (Rule.v r); try done; repeat case_match; try by eexists.
    all: destruct (Htag id) as (tg & -> & _); cbn [mbind outcome_bind]; repeat case_match; by eexists.
Qed.
End whole.

Section outcomes.
Context {T : Type -> Type} `{Table T}.
Context (self : Z) (nconf : NetworkConfig) (membership : option (Membership T)) (f : Frame).
Abbreviation run_rules := (filter_rules self nconf membership f).
Abbreviation run_rule := (filter_rule self nconf membership f).
Abbreviation run_action := (take_action self f).

Lemma kind_fwd r : rule_kind (rule_type r) = KFwd <-> is_forward (rule_type r) = true.
Proof.
  unfold is_forward, ACTION_TEE, ACTION_WATCH, ACTION_REDIRECT. rewrite !orb_true_iff, !Z.eqb_eq. unfold rule_kind. split.
  - intros E. repeat case_match; try discriminate E; lia.
  - intros [[-> | ->] | ->]; done.
Qed.

Lemma v_fwd_ok r : rule_wf r -> is_forward (rule_type r) = true -> exists a fl l, Rule.v r = VFwd a fl l /\ rng 16 l.
Proof.
  intros [_ Hv] Hk%kind_fwd. unfold value_wf in Hv. rewrite Hk in Hv. destruct (Rule.v r); try done. eexists _, _, _. split; [done|]. tauto.
Qed.

Lemma filter_safe_lemma (o : Out) (rules : list ZT_VirtualNetworkRule) :
  frame_ok f -> credentials_defined nconf membership -> tcp_in_frame f -> Forall rule_ok rules ->
  exists o' res, _doZtFilter self nconf membership f o rules = Ok (o', res).
Proof.
  intros Hf Hcred Htcp Hr. unfold _doZtFilter. generalize (mkState false true false o).
  induction Hr as [|r rules Hrule _ IH]; intros s; [by eexists _, _|]. cbn [Filter.filter_rules].
  assert (succeeds any (run_rule s r)) as ([s' res] & -> & _).
  { pose proof Hrule as [Hwf _]. unfold Filter.filter_rule. destruct (Z.leb_spec (rule_type r) ACTION__MAX_ID) as [Ha|Ha].
    - destruct (thisSetMatches s).
      + unfold Filter.take_action. destruct (rule_type r =? ACTION_PRIORITY) eqn:Ep.
        { apply Z.eqb_eq in Ep. destruct Hwf as [_ Hv]. unfold value_wf, v_qosBucket in *. rewrite Ep in Hv. cbn in Hv. rewrite Hv. by eexists. }
        destruct (_ =? ACTION_DROP); [destruct (skipDrop s); by eexists|]. destruct (_ =? ACTION_ACCEPT); [by eexists|].
        destruct (is_forward _) eqn:Ef; [|destruct (_ =? ACTION_BREAK); by eexists].
        destruct (v_fwd_ok r Hwf Ef) as (a & fl & l & E & _). unfold v_fwd. rewrite E. cbn [mbind outcome_bind].
        repeat match goal with |- context [if ?b then _ else _] => destruct b; try by eexists end.
      + unfold skip_action. destruct (inbound f); cbn [andb]; [|by eexists]. destruct (is_forward (rule_type r)) eqn:Ef; [|by eexists].
        destruct (v_fwd_ok r Hwf Ef) as (a & fl & l & E & _). unfold v_fwd. rewrite E. by eexists.
    - destruct (_ && _); [by eexists|]. destruct (match_rule_ok nconf membership f Hf Hcred Htcp s r Hrule) as ([s' b] & -> & _); [|by eexists].
      rewrite kind_fwd. unfold is_forward, ACTION_TEE, ACTION_WATCH, ACTION_REDIRECT, ACTION__MAX_ID in *. rewrite !orb_true_iff, !Z.eqb_eq. lia. }
  cbn [mbind outcome_bind]. destruct res; [by eexists _, _|apply IH].
Qed.

(** C19. With rules as the parser yields them and masks in range, the flags of the TCP header inside the frame ([tcp_in_frame]; the code does not check it for
    IPv4, see [tcp_flags_undef_iff]) and credentials that can be looked up for every ID, address and MAC ([credentials_defined]; it does not depend on the frame),
    the filter returns: no read outside the frame, no undefined shift. *)
Theorem filter_safe (o : Out) (rules : list ZT_VirtualNetworkRule) :
  frame_ok f -> credentials_defined nconf membership -> tcp_in_frame f -> Forall rule_ok rules ->
  exists o' res, _doZtFilter self nconf membership f o rules = Ok (o', res).
Proof. apply filter_safe_lemma. Qed.

(** ** What the filter can do to its arguments *)

Record effects (o o' : Out) (res : _doZtFilterResult) : Prop := mkEffects {
  ef_qos : qosBucket o' = qosBucket o \/ qosBucket o' <= 8 /\ res = DOZTFILTER_ACCEPT;
  ef_cc : (cc o' = cc o /\ ccLength o' = ccLength o) \/
    (cc o' <> ztSource f /\ cc o' <> self /\ cc o' <> ztDest o /\ 0 <= ccLength o' <= frameLen f);
  ef_dest : if decide (res = DOZTFILTER_REDIRECT) then ztDest o' <> ztSource f /\ ztDest o' <> self /\ ztDest o' <> ztDest o else ztDest o' = ztDest o;
  ef_super : res = DOZTFILTER_SUPER_ACCEPT -> inbound f = true }.

(** The length of a copy is unsigned. *)
Definition fwd_ok (r : ZT_VirtualNetworkRule) : Prop := match Rule.v r with VFwd _ _ l => 0 <= l | _ => True end.

Lemma rule_wf_fwd r : rule_wf r -> fwd_ok r.
Proof.
  intros [_ Hv]. unfold fwd_ok, value_wf in *. destruct (Rule.v r) as [| | | | | | | | | | | | | | | | | |a fl l|]; try done.
  destruct (rule_kind (rule_type r)); try done; [unfold unread_value in Hv; by destruct (_ =? _)|]. unfold rng in Hv. lia.
Qed.

(** Between two rules nothing but the copy and the generator has changed. *)
Record running (o : Out) (s : State) : Prop := mkRunning {
  run_qos : qosBucket (out s) = qosBucket o;
  run_cc : (cc (out s) = cc o /\ ccLength (out s) = ccLength o) \/
    (cc (out s) <> ztSource f /\ cc (out s) <> self /\ cc (out s) <> ztDest o /\ 0 <= ccLength (out s) <= frameLen f);
  run_dest : ztDest (out s) = ztDest o;
  run_super : superAccept s = true -> inbound f = true }.

Lemma running_same o s s' : running o s -> out s' = out s -> superAccept s' = superAccept s -> running o s'.
Proof. intros [? ? ? ?] E1 E2. split; by rewrite ?E1, ?E2. Qed.

Lemma match_rule_running o s r s' b : running o s -> match_rule nconf membership f s r = Ok (s', b) -> running o s'.
Proof.
  intros Hr Hm. unfold match_rule in Hm. destruct (rule_kind (rule_type r)).
  all: try (inv_ok Hm; injection Hm as <- <-; exact Hr).
  - destruct (Rule.v r); try discriminate Hm. destruct (prng _) as [st x]. injection Hm as <- <-. destruct Hr. by split.
  - inv_ok Hm. destruct v as [b' skip]. injection Hm as <- <-. destruct skip; [|done]. by eapply running_same.
Qed.

Lemma take_action_running o s r s' res : fwd_ok r -> running o s -> run_action s r = Ok (s', res) ->
  match res with Some res => effects o (out s') res | None => running o s' end.
Proof.
  intros Hfwd Hrun Ht. pose proof Hrun as [Hq Hc Hd Hs]. unfold Filter.take_action in Ht.
  destruct (_ =? ACTION_PRIORITY).
  { inv_ok Ht. injection Ht as <- <-. split; [|done..]. right. split; [|done]. cbn. destruct (Z.leb_spec v 8); lia. }
  destruct (_ =? ACTION_DROP). { destruct (skipDrop s); injection Ht as <- <-; split; try done. by left. }
  destruct (_ =? ACTION_ACCEPT). { injection Ht as <- <-. destruct (superAccept s) eqn:?; split; try done; try (by left). intros _. by apply Hs. }
  destruct (is_forward _).
  - inv_ok Ht. destruct v as [a l]. assert (0 <= l) as Hl by (unfold fwd_ok, v_fwd in *; destruct (Rule.v r); try discriminate H0; by injection H0 as <- <-).
    pose proof (zlen_nonneg (frameData f)) as Hfl. change (0 <= frameLen f) in Hfl. set (w := Address.of_int a) in *.
    destruct (Z.eqb_spec w (ztSource f)); [injection Ht as <- <-; by split|]. 
    destruct (Z.eqb_spec w self). { injection Ht as <- <-. destruct (inbound f) eqn:Ei; [|exact Hrun]. split; try done. by left. }
    destruct (Z.eqb_spec w (ztDest (out s))); [injection Ht as <- <-; by split|].
    destruct (_ =? ACTION_REDIRECT); injection Ht as <- <-.
    + split; [by left|done| |done]. cbn. rewrite <- Hd. done.
    + split; [done| |done|done]. right. cbn. rewrite <- Hd. do 3 (split; [done|]). destruct (Z.eqb_spec l 0); cbn [negb]; [lia|].
      destruct (Z.ltb_spec (frameLen f) l); lia.
  - destruct (_ =? ACTION_BREAK); injection Ht as <- <-; split; try done. by left.
Qed.

Lemma skip_action_running o s r s' : running o s -> skip_action self f s r = Ok s' -> running o s'.
Proof.
  intros Hrun H1. unfold skip_action in H1. inv_ok H1. injection H1 as <-. apply (running_same o v); [|done|done].
  destruct (inbound f && is_forward (rule_type r)) eqn:E; [|by injection H0 as <-].
  inv_ok H0. destruct v0. apply andb_true_iff in E as [E _]. destruct Hrun. destruct (_ =? _); injection H0 as <-; by split.
Qed.

Lemma filter_effects_lemma o rules o' res : Forall fwd_ok rules -> _doZtFilter self nconf membership f o rules = Ok (o', res) -> effects o o' res.
Proof.
  intros Hwf. unfold _doZtFilter. assert (running o (mkState false true false o)) as Hrun by (split; try done; by left).
  revert Hrun. generalize (mkState false true false o). induction Hwf as [|r rules Hr _ IH]; intros s Hrun; cbn [Filter.filter_rules].
  { intros [= <- <-]. destruct Hrun. split; try done. by left. }
  intros Hv. inv_ok Hv. destruct v as [s1 res1]. unfold Filter.filter_rule in H0.
  destruct (_ <=? ACTION__MAX_ID).
  - destruct (thisSetMatches s).
    + pose proof (take_action_running _ _ _ _ _ Hr Hrun H0) as Hx. destruct res1; [by injection Hv as <- <-|]. by eapply IH.
    + inv_ok H0. injection H0 as <- <-. eapply IH; [|exact Hv]. by eapply skip_action_running.
  - destruct (_ && _); [injection H0 as <- <-; by eapply IH|]. inv_ok H0. destruct v as [s2 b]. injection H0 as <- <-.
    eapply IH; [|exact Hv]. eapply running_same; [by eapply match_rule_running|done|done].
Qed.

(** C21. The filter changes the destination only to redirect, to a third party; it copies to a third party and no more than the frame;
    it sets the priority, to a valid bucket, only when it accepts; it accepts in spite of the addresses only inbound. *)
Theorem filter_effects o rules o' res : Forall fwd_ok rules -> _doZtFilter self nconf membership f o rules = Ok (o', res) -> effects o o' res.
Proof. apply filter_effects_lemma. Qed.
End outcomes.

(** ** The rules as sets *)

Section sets.
Context {T : Type -> Type} `{Table T}.
Context (self : Z) (nconf : NetworkConfig) (membership : option (Membership T)) (f : Frame).
Abbreviation eval_rules := (filter_rules self nconf membership f).

Definition is_action (r : ZT_VirtualNetworkRule) : bool := rule_type r <=? ACTION__MAX_ID.

(** The actions with the matches before them; matches behind the last action have no effect. *)
Fixpoint sets_from (ms rules : list ZT_VirtualNetworkRule) : list (list ZT_VirtualNetworkRule * ZT_VirtualNetworkRule) :=
  match rules with
  | [] => []
  | r :: rules => if is_action r then (ms, r) :: sets_from [] rules else sets_from (ms ++ [r]) rules
  end.

(** The value of a set: its matches folded from the left with AND and OR, from true. *)
Definition set_value (m : ZT_VirtualNetworkRule -> bool) (ms : list ZT_VirtualNetworkRule) : bool :=
  fold_left (fun acc r => let x := xorb (m r) (rule_not r) in if rule_or r then acc || x else acc && x) ms true.

(** The actions in order, each taken or skipped by the value of its set, until one ends the evaluation. *)
Fixpoint run_sets (m : ZT_VirtualNetworkRule -> bool) (s : State) (l : list (list ZT_VirtualNetworkRule * ZT_VirtualNetworkRule)) :
  outcome (Out * _doZtFilterResult) :=
  match l with
  | [] => Ok (out s, DOZTFILTER_NO_MATCH)
  | (ms, a) :: l =>
      if set_value m ms then
        '(s, res) ← take_action self f s a;
        match res with Some res => Ok (out s, res) | None => run_sets m s l end
      else s ← skip_action self f s a; run_sets m s l
  end.

Lemma match_pure_dest o o' r : ztDest o = ztDest o' -> match_pure nconf membership f o r = match_pure nconf membership f o' r.
Proof. intros E. unfold match_pure. by rewrite E. Qed.

Lemma set_matches_id s b : thisSetMatches s = b -> set_matches s b = s.
Proof. by intros <-; destruct s. Qed.

Lemma take_action_matches s a s' res : take_action self f s a = Ok (s', res) -> thisSetMatches s' = thisSetMatches s.
Proof.
  unfold take_action. intros Ht.
  repeat match type of Ht with (if ?c then _ else _) = _ => destruct c end;
    try (inv_ok Ht); repeat match type of Ht with context [match ?x with _ => _ end] => destruct x end; injection Ht as <- _; done.
Qed.

Lemma take_action_dest s a s' : take_action self f s a = Ok (s', None) -> ztDest (out s') = ztDest (out s).
Proof.
  unfold take_action. intros Ht.
  repeat match type of Ht with (if ?c then _ else _) = _ => destruct c end;
    try (inv_ok Ht); repeat match type of Ht with context [match ?x with _ => _ end] => destruct x end; by injection Ht as <-.
Qed.

Lemma skip_action_out s a s' : skip_action self f s a = Ok s' -> out s' = out s.
Proof.
  unfold skip_action. intros E. inv_ok E. injection E as <-. destruct (_ && _); [|by injection H0 as <-].
  inv_ok H0. destruct v0. destruct (_ =? _); by injection H0 as <-.
Qed.

Lemma filter_rules_sets o (m : ZT_VirtualNetworkRule -> bool) rules : forall s ms,
  Forall (fun r => is_action r = true \/ (rule_kind (rule_type r) <> KRandom /\ rule_kind (rule_type r) <> KTag /\
    match_pure nconf membership f o r = Ok (m r))) rules ->
  ztDest (out s) = ztDest o -> thisSetMatches s = set_value m ms ->
  eval_rules s rules = run_sets m (set_matches s true) (sets_from ms rules).
Proof.
  induction rules as [|r rules IH]; intros s ms Hm Hrun Hv; cbn [Filter.filter_rules sets_from run_sets]; [done|].
  apply list.Forall_cons in Hm as [Hr Hm]. unfold filter_rule, is_action in *. destruct (rule_type r <=? ACTION__MAX_ID) eqn:Ea.
  - cbn [run_sets]. rewrite <- Hv. destruct (thisSetMatches s) eqn:Et.
    + rewrite set_matches_id by done. destruct (take_action self f s r) as [[s1 [res|]]| |] eqn:E; try done. cbn [mbind outcome_bind].
      pose proof (take_action_matches _ _ _ _ E) as Et1. rewrite Et in Et1.
      rewrite (IH s1 []); [by rewrite set_matches_id|done| |done]. by rewrite (take_action_dest _ _ _ E).
    + assert (skip_action self f (set_matches s true) r = skip_action self f s r) as ->.
      { unfold skip_action. destruct (_ && _); [|done]. destruct (v_fwd r) as [[a l]| |]; [|done..]. cbn [mbind outcome_bind]. by destruct (_ =? _). }
      destruct (skip_action self f s r) as [s1| |] eqn:E; [|done..]. cbn [mbind outcome_bind].
      assert (thisSetMatches s1 = true) as Et1 by (unfold skip_action in E; inv_ok E; by injection E as <-).
      rewrite (IH s1 []); [by rewrite set_matches_id|done| |done]. by rewrite (skip_action_out _ _ _ E).
  - destruct Hr as [?|(Hk1 & Hk2 & Hp)]; [done|].
    assert (set_value m (ms ++ [r]) = let x := xorb (m r) (rule_not r) in if rule_or r then set_value m ms || x else set_value m ms && x) as Hsv
      by (unfold set_value; by rewrite fold_left_app).
    assert (match_rule nconf membership f s r = Ok (s, m r)) as Em.
    { unfold match_rule. rewrite (match_pure_dest _ o) by done. rewrite Hp. by destruct (rule_kind (rule_type r)). }
    destruct (negb (thisSetMatches s) && negb (rule_or r)) eqn:E2.
    + cbn [mbind outcome_bind]. apply IH; [done|done|]. rewrite Hsv, <- Hv.
      apply andb_true_iff in E2 as [E3%negb_true_iff E4%negb_true_iff]. by rewrite E3, E4.
    + rewrite Em. cbn [mbind outcome_bind]. rewrite (IH (combine s r (m r)) (ms ++ [r])); [done|done|done|].
      rewrite Hsv, <- Hv. done.
Qed.

(** C20. Where no match is random or about tags, the filter is the evaluation of the sets, without the short cuts and with a single
    value for each match. *)
Theorem filter_sets o rules (m : ZT_VirtualNetworkRule -> bool) :
  Forall (fun r => is_action r = true \/ (rule_kind (rule_type r) <> KRandom /\ rule_kind (rule_type r) <> KTag /\
    match_pure nconf membership f o r = Ok (m r))) rules ->
  _doZtFilter self nconf membership f o rules = run_sets m (mkState false true false o) (sets_from [] rules).
Proof.
  intros Hm. unfold _doZtFilter. rewrite (filter_rules_sets o m rules _ []); done.
Qed.
End sets.

(** ** The TCP flags *)

(** The flags of an IPv4 TCP frame are read wherever its header length says: the read is defined exactly when the frame reaches that
    far. The length of the frame is only compared with 20. *)
Theorem tcp_flags_undef_iff f b : frame_ok f -> is_ipv4 f = true -> byte f 9 = Ok 6 -> byte f 0 = Ok b ->
  frame_tcp_flags f = Undef <-> frameLen f < 4 * Z.land b 0xf + 14.
Proof.
  intros Hf H4 H9 H0. split.
  - intros Hu. apply Z.nle_gt. intros Hle. destruct (frame_tcp_flags_ok f Hf) as (x & Hx & _); [|congruence].
    intros b' _ _ Hb'. rewrite H0 in Hb'. by injection Hb' as <-.
  - intros Hlt. unfold frame_tcp_flags. rewrite H4, H9, H0. cbn [mbind outcome_bind Z.eqb Pos.eqb]. unfold tcp_flags, byte, mem_read.
    rewrite (proj2 (Z.leb_gt (4 * Z.land b 15 + 13 + 1) _)), andb_false_r by (unfold frameLen in Hlt; lia). done.
Qed.

(** ** The local tag *)

(** On tags sorted by ID the binary search finds the tag the linear search does. *)
Theorem localTag_spec nconf id : ordered Tag._id (tags nconf) -> localTag nconf id = tag nconf id.
Proof. apply lower_bound_find. Qed.

(** ** Witnesses *)

Definition toy_rule (ty : Z) (x : RuleValue) : ZT_VirtualNetworkRule := mkRule ty x.
(** IPv4 and not UDP: copy 10 bytes to 7, redirect to 9; otherwise drop. *)
Definition toy_rules : list ZT_VirtualNetworkRule :=
  [toy_rule MATCH_ETHERTYPE (VEtherType 0x0800); toy_rule (0x80 + MATCH_IP_PROTOCOL) (VIpProtocol 0x11); toy_rule ACTION_TEE (VFwd 7 0 10);
   toy_rule MATCH_IPV4_DEST (VIpv4 [10; 0; 0; 0] 8); toy_rule ACTION_REDIRECT (VFwd 9 0 0); toy_rule ACTION_DROP VNone].
(** An IPv4 header of 20 bytes, to 10.1.1.1, whose protocol is TCP, and a TCP header. *)
Definition toy_ip_header : list Z := [0x45; 0; 0; 40; 0; 0; 0; 0; 64; 6; 0; 0; 10; 0; 0; 1; 10; 1; 1; 1].
Definition toy_frame : Frame := mkFrame false 1 5 6 (toy_ip_header ++ replicate 20 2) 0x0800 0.
Definition toy_out : Out := mkOut 2 0 0 false 255 (1, 2).
Abbreviation toy_filter := (_doZtFilter (T := gmap Z) 3 (NetworkConfig_nil 0) None toy_frame toy_out).

Lemma filter_safe_witness : exists o' res, toy_filter toy_rules = Ok (o', res).
Proof.
  apply (filter_safe (T := gmap Z)).
  - split; by_compute.
  - split; [intros id; by eexists|]. split; [intros m ip mac Hm; discriminate Hm|apply list.Forall_nil_2].
  - intros b _ _ Hb. vm_compute in Hb. injection Hb as <-. by_compute.
  - repeat constructor; cbn; try by_compute; unfold rng; lia.
Defined.

Lemma filter_effects_witness :
  exists o', toy_filter toy_rules = Ok (o', DOZTFILTER_REDIRECT) /\ effects 3 toy_frame toy_out o' DOZTFILTER_REDIRECT /\
    ztDest o' = 9 /\ cc o' = 7 /\ ccLength o' = 10.
Proof.
  eexists. split; [vm_compute; reflexivity|]. split; [|done].
  apply (filter_effects (T := gmap Z) 3 (NetworkConfig_nil 0) None toy_frame toy_out toy_rules); [repeat constructor; cbn; lia|]. vm_compute. reflexivity.
Defined.

Lemma filter_sets_witness :
  exists m, toy_filter toy_rules = run_sets 3 toy_frame m (mkState false true false toy_out) (sets_from [] toy_rules).
Proof.
  exists (fun r => negb (rule_not r)). apply (filter_sets (T := gmap Z)).
  repeat (apply list.Forall_cons_2); [..|apply list.Forall_nil_2]; first [left; vm_compute; reflexivity|right; split_and!; [by_compute|by_compute|vm_compute; reflexivity]].
Defined.

(** A frame of 20 bytes is enough to be read behind its end. *)
Lemma tcp_flags_undef_iff_witness : frame_tcp_flags (mkFrame true 1 5 6 toy_ip_header 0x0800 0) = Undef.
Proof. apply (tcp_flags_undef_iff _ 0x45); [split; by_compute|done|done|done|by_compute]. Defined.
