(* ===== verification/Network.v ===== *)
(** * Networks (node/Network.cpp, node/Network.hpp)

    What a node keeps about a network it has joined: the configuration, the other members, routes behind bridges and the pieces
    of a configuration that is arriving. Packets that are sent are returned in order; each is given uninitialised
    memory and the 8 random bytes of its ID. What is here: the filters, the members and their credentials, the routes and the status; configurations
    are in [NetworkUpdate]. The statistics are not modelled. *)

From S2P Require Import Prelude Hashtable Buffer Serial Address InetAddress Dictionary Packet Table Identity Rule Credential Credentials Capability NetworkConfig NetconfDict Membership Filter.

Definition ZT_MAX_BRIDGE_ROUTES : Z := 67108864.

(** The pieces of a configuration that is arriving. *)
Definition ZT_NETWORK_MAX_INCOMING_UPDATES : nat := 3.
Definition ZT_NETWORK_MAX_UPDATE_CHUNKS : Z := ZT_NETWORKCONFIG_DICT_CAPACITY / 1024 + 1.
Record _IncomingConfigChunk := mkChunks { ts : Z; updateId : Z; haveChunkIds : list Z; haveChunks : Z; haveBytes : Z; chunk_data : Dictionary }.
Definition no_chunks : _IncomingConfigChunk :=
  mkChunks 0 0 (replicate (Z.to_nat ZT_NETWORK_MAX_UPDATE_CHUNKS) 0) 0 0 (Dictionary_new (Z.to_nat ZT_NETWORKCONFIG_DICT_CAPACITY)).

(** What [new Packet] is given: the n-th packet's memory and random bytes. *)
Class PacketSource := { new_mem : nat -> list Z; new_iv : nat -> list Z }.
Class PacketSourceLaws `{PacketSource} :=
  new_packet_ok n : bytes_ok (new_mem n) /\ zlen (new_mem n) = ZT_PROTO_MAX_PACKET_LENGTH /\ bytes_ok (new_iv n) /\ length (new_iv n) = 8%nat.

(** [RR->sw->send]: the destination of a packet and the packet. *)
Abbreviation sends := (list (Z * Buffer)).

Section Filters.
Context {T : Type -> Type} `{Table T} `{PacketSource}.
Context (self _id : Z) (_config : NetworkConfig).

(** The payload of an EXT_FRAME: network, flags, the addresses and type of the frame, its first [len] bytes. *)
Definition append_frame (b : Buffer) (f : Frame) (flags len : Z) : outcome Buffer :=
  b ← append_int 8 b _id;
  b ← append_int 1 b flags;
  b ← MAC.appendTo b (macDest f);
  b ← MAC.appendTo b (macSource f);
  b ← append_int 2 b (etherType f);
  bs ← mem_read (frameData f) 0 len;
  append b bs.

(** [ap] has been sent; the EXT_FRAME with the first [len] bytes of the frame goes to [dest]. *)
Definition send_frame (ap : sends) (f : Frame) (dest flags len : Z) : outcome sends :=
  b ← Packet.Packet (new_mem (length ap)) (new_iv (length ap)) dest self Packet.VERB_EXT_FRAME;
  b ← append_frame b f flags len;
  Ok (ap ++ [(dest, b)]).

Definition accepts (r : _doZtFilterResult) : bool :=
  match r with DOZTFILTER_NO_MATCH | DOZTFILTER_DROP => false | _ => true end.

(** The copy to [cc], if there is one. *)
Definition send_copy (ap : sends) (f : Frame) (o : Out) (watch tee : Z) : outcome sends :=
  if negb (cc o =? 0) then send_frame ap f (cc o) (if ccWatch o then watch else tee) (ccLength o) else Ok ap.

(** [cc2], [ccLength2], [ccWatch2] and [ztFinalDest] before each capability. *)
Definition fresh_out (ztDest : Z) (o : Out) : Out := mkOut ztDest 0 0 false (qosBucket o) (prngState o).

(** The capabilities of this node, in order, until one accepts. *)
Fixpoint outgoing_capabilities (noTee : bool) (membership : option (Membership T)) (f : Frame) (dest : Z) (ap : sends) (o : Out) (caps : list Capability) :
  outcome (sends * Out * bool) :=
  match caps with
  | [] => Ok (ap, o, false)
  | c :: caps =>
      '(o, r) ← _doZtFilter self _config membership f (fresh_out dest o) (Capability._rules c);
      if accepts r then ap ← (if noTee then Ok ap else send_copy ap f o 0x16 0x02); Ok (ap, o, true)
      else outgoing_capabilities noTee membership f dest ap o caps
  end.

(** The end of both filters: the copy of the base rules, then the redirected frame. [None] for a frame that goes elsewhere. *)
Definition forward (ap : sends) (f : Frame) (dest : Z) (base : option Out) (final watch tee redirect : Z) : outcome (sends * bool) :=
  ap ← match base with Some o => send_copy ap f o watch tee | None => Ok ap end;
  if negb (dest =? final) && negb (final =? 0) then
    ap ← send_frame ap f final redirect (frameLen f); Ok (ap, false)
  else Ok (ap, true).

(** [filterOutgoingPacket]; the answer, the packets, and the priority and generator that were changed. *)
Definition filterOutgoing (noTee : bool) (membership : option (Membership T)) (f : Frame) (dest qos : Z) (rnd : Z * Z) : outcome (sends * Out * bool) :=
  '(o, r) ← _doZtFilter self _config membership f (mkOut dest 0 0 false qos rnd) (rules _config);
  '(ap, fin, accept) ← match r with
                       | DOZTFILTER_NO_MATCH => outgoing_capabilities noTee membership f dest [] o (capabilities _config)
                       | _ => Ok ([], o, accepts r)
                       end;
  if (accept : bool) then
    '(ap, ok) ← forward ap f dest (if noTee then None else Some o) (ztDest fin) 0x16 0x02 0x04; Ok (ap, fin, ok)
  else Ok (ap, fin, false).

(** 0 to drop, 1 to accept, 2 to accept in spite of the addresses. *)
Definition accept_level (r : _doZtFilterResult) : Z :=
  match r with DOZTFILTER_NO_MATCH | DOZTFILTER_DROP => 0 | DOZTFILTER_REDIRECT | DOZTFILTER_ACCEPT => 1 | DOZTFILTER_SUPER_ACCEPT => 2 end.

(** The capabilities of the sender that are valid, until one accepts. *)
Fixpoint incoming_capabilities (m : Membership T) (f : Frame) (dest : Z) (ap : sends) (o : Out) (caps : list (Z * Capability)) : outcome (sends * Out * Z) :=
  match caps with
  | [] => Ok (ap, o, 0)
  | (_, c) :: caps =>
      ok ← isCredentialTimestampValid m _config c;
      if (ok : bool) then
        '(o, r) ← _doZtFilter self _config (Some m) f (fresh_out dest o) (Capability._rules c);
        if accept_level r =? 0 then incoming_capabilities m f dest ap o caps
        else ap ← send_copy ap f o 0x1c 0x08; Ok (ap, o, accept_level r)
      else incoming_capabilities m f dest ap o caps
  end.

Definition filterIncoming (m : Membership T) (f : Frame) (dest : Z) (rnd : Z * Z) : outcome (sends * Out * Z) :=
  '(o, r) ← _doZtFilter self _config (Some m) f (mkOut dest 0 0 false 255 rnd) (rules _config);
  '(ap, fin, accept) ← match r with
                       | DOZTFILTER_NO_MATCH => incoming_capabilities m f dest [] o (tab_entries (_remoteCaps m))
                       | _ => Ok ([], o, accept_level r)
                       end;
  if negb (accept =? 0) then
    '(ap, ok) ← forward ap f dest (Some o) (ztDest fin) 0x1c 0x08 0x0a; Ok (ap, fin, if (ok : bool) then accept else 0)
  else Ok (ap, fin, 0).
End Filters.

(** ** The packets *)

Section packets.
Context `{PacketSourceLaws}.
Context (self _id : Z).

Lemma packet_payload_at r iv dest source mac v bs : length iv = 8%nat -> length mac = 8%nat -> data r = header_bytes iv dest source mac v ++ bs ->
  rest_at r ZT_PACKET_IDX_PAYLOAD bs.
Proof. intros Hiv Hmac Hd. exists (header_bytes iv dest source mac v). split; [done|]. unfold header_bytes, zlen. rewrite !length_app, Hiv, Hmac. done. Qed.

(** The most an EXT_FRAME can carry. *)
Definition max_frame : Z := ZT_PROTO_MAX_PACKET_LENGTH - 51.

Lemma mac_bytes m : bytes_ok (MAC.to_bytes m).
Proof. unfold MAC.to_bytes. repeat (apply list.Forall_cons_2; [apply u8_ok|]). by constructor. Qed.

Definition frame_bytes (f : Frame) (flags len : Z) : list Z :=
  be_bytes 8 _id ++ be_bytes 1 flags ++ MAC.to_bytes (macDest f) ++ MAC.to_bytes (macSource f) ++ be_bytes 2 (etherType f) ++
  take (Z.to_nat len) (frameData f).

Lemma append_frame_writes b f flags len : frame_ok f -> 0 <= len <= frameLen f -> buf_ok b ->
  writes b (frame_bytes f flags len) (append_frame _id b f flags len).
Proof.
  intros [Hb Hl] Hlen Hb0. unfold frameLen in *. unfold append_frame. rewrite mem_read_Ok by lia. rewrite drop_0. unfold frame_bytes.
  apply writes_bind; [done|by apply append_int_writes|]. intros b1 Hb1 _ _.
  apply writes_bind; [done|by apply append_int_writes|]. intros b2 Hb2 _ _.
  apply writes_bind; [done|apply append_writes; [done|apply mac_bytes|done]|]. intros b3 Hb3 _ _.
  apply writes_bind; [done|apply append_writes; [done|apply mac_bytes|done]|]. intros b4 Hb4 _ _.
  apply writes_bind; [done|by apply append_int_writes|]. intros b5 Hb5 _ _.
  apply append_writes; [done|by apply list.Forall_take|]. rewrite zlen_take by (unfold zlen in *; lia). lia.
Qed.

Definition frame_packet (f : Frame) (b : Buffer) (iv : list Z) (dest flags len : Z) : Prop :=
  exists mac, length mac = 8%nat /\ data b = header_bytes iv dest self mac Packet.VERB_EXT_FRAME ++ frame_bytes f flags len.

(** An EXT_FRAME carries up to 9973 bytes, less than the largest MTU; for a longer piece [append] throws. *)
Lemma send_frame_spec ap f dest flags len : frame_ok f -> 0 <= len <= frameLen f ->
  if len <=? max_frame
  then exists b, send_frame self _id ap f dest flags len = Ok (ap ++ [(dest, b)]) /\ frame_packet f b (new_iv (length ap)) dest flags len
  else send_frame self _id ap f dest flags len = Throw OutOfBounds.
Proof.
  intros Hf Hlen. destruct (new_packet_ok (length ap)) as (Hm & Hml & Hiv & Hivl). unfold send_frame.
  destruct (packet_new _ (new_iv (length ap)) dest self Packet.VERB_EXT_FRAME Hm Hml Hiv Hivl) as (b & mac & -> & Hb0 & Hc & Hd & Hmac); [by_compute|].
  cbn [mbind outcome_bind]. pose proof (append_frame_writes b f flags len Hf Hlen Hb0) as Hw. unfold writes in Hw. rewrite Hc in Hw.
  assert (_l b = 28) as Hlb by (rewrite <- (zlen_data b Hb0), Hd; unfold header_bytes, zlen; rewrite !length_app, Hivl, Hmac; done).
  assert (zlen (frame_bytes f flags len) = 23 + len) as Hz.
  { unfold frame_bytes. rewrite !zlen_app, !zlen_be_bytes. change (zlen (MAC.to_bytes ?m)) with 6. unfold frameLen in *. rewrite zlen_take; unfold zlen in *; lia. }
  rewrite Hlb, Hz in Hw. unfold max_frame. destruct (Z.leb_spec len (ZT_PROTO_MAX_PACKET_LENGTH - 51)).
  - rewrite decide_True in Hw by lia. destruct Hw as (b' & -> & Hb' & Hd' & _). eexists. split; [reflexivity|]. exists mac. split; [done|]. by rewrite Hd', Hd.
  - rewrite decide_False in Hw by lia. by rewrite Hw.
Qed.
End packets.

(** ** The filters *)

Section filters.
Context {T : Type -> Type} `{Table T} `{PacketSourceLaws}.
Context (self _id : Z) (_config : NetworkConfig) (f : Frame).

(** Evaluating [rs] on the frame, sent to [dest], accepts it. *)
Definition rules_accept (m : option (Membership T)) (dest : Z) (rs : list ZT_VirtualNetworkRule) : Prop :=
  exists o o' r, ztDest o = dest /\ _doZtFilter self _config m f o rs = Ok (o', r) /\ accepts r = true.

(** A packet that a filter may send: an EXT_FRAME with the start of the frame, to somebody else. *)
Definition sent (dest : Z) (x : Z * Buffer) : Prop :=
  x.1 <> ztSource f /\ x.1 <> self /\ x.1 <> dest /\
  exists iv flags len, 0 <= len <= frameLen f /\ frame_packet self _id f x.2 iv x.1 flags len.

Section lemmas.
Context (Hf : frame_ok f) (Htcp : tcp_in_frame f) (Hmax : frameLen f <= max_frame).

Lemma filter_call m o rs : credentials_defined _config m -> Forall rule_ok rs ->
  exists o' r, _doZtFilter self _config m f o rs = Ok (o', r) /\ effects self f o o' r.
Proof.
  intros Hc Hr. destruct (filter_safe_lemma self _config m f o rs Hf Hc Htcp Hr) as (o' & r & E). exists o', r. split; [done|].
  eapply filter_effects_lemma; [|exact E]. eapply list.Forall_impl; [exact Hr|]. intros x [Hx _]. by apply rule_wf_fwd.
Qed.

Lemma send_frame_sent ap dest d flags len : 0 <= len <= frameLen f -> d <> ztSource f -> d <> self -> d <> dest -> Forall (sent dest) ap ->
  exists ap', send_frame self _id ap f d flags len = Ok ap' /\ Forall (sent dest) ap'.
Proof.
  intros Hl Hd1 Hd2 Hd3 Hap. pose proof (send_frame_spec self _id ap f d flags len Hf Hl) as Hs.
  rewrite (proj2 (Z.leb_le len max_frame)) in Hs by lia. destruct Hs as (b & -> & Hb). eexists. split; [done|].
  apply list.Forall_app. split; [done|]. apply list.Forall_singleton. split; [done|]. split; [done|]. split; [done|]. by exists (new_iv (length ap)), flags, len.
Qed.

Lemma send_copy_sent ap dest o o' r w t : effects self f o o' r -> cc o = 0 -> ztDest o = dest -> Forall (sent dest) ap ->
  exists ap', send_copy self _id ap f o' w t = Ok ap' /\ Forall (sent dest) ap'.
Proof.
  intros [_ Hc _ _] Hcc Hd Hap. unfold send_copy. destruct (Z.eqb_spec (cc o') 0); cbn [negb]; [by eexists|].
  destruct Hc as [[? _]|(? & ? & ? & ?)]; [congruence|]. apply send_frame_sent; try done. congruence.
Qed.

Lemma forward_sent ap dest base o0 r0 fin w t rd : Forall (sent dest) ap ->
  match base with Some o => effects self f o0 o r0 | None => True end -> cc o0 = 0 -> ztDest o0 = dest ->
  fin = dest \/ (fin <> ztSource f /\ fin <> self) ->
  exists ap' ok, forward self _id ap f dest base fin w t rd = Ok (ap', ok) /\ Forall (sent dest) ap' /\
    ok = bool_decide (fin = dest \/ fin = 0).
Proof.
  intros Hap Hb Hcc Hd Hfin. unfold forward.
  match goal with |- context [?x ≫= _] => assert (exists ap1, x = Ok ap1 /\ Forall (sent dest) ap1) as (ap1 & -> & Hap1) end.
  { destruct base; [by eapply send_copy_sent|by eexists]. }
  cbn [mbind outcome_bind]. destruct (Z.eqb_spec dest fin) as [->|Hne]; cbn [negb andb].
  { eexists _, _. split; [done|]. split; [done|]. symmetry. apply bool_decide_eq_true_2. by left. }
  destruct (Z.eqb_spec fin 0) as [->|Hnz]; cbn [negb].
  { eexists _, _. split; [done|]. split; [done|]. symmetry. apply bool_decide_eq_true_2. by right. }
  destruct Hfin as [|[? ?]]; [done|]. destruct (send_frame_sent ap1 dest fin rd (frameLen f)) as (ap2 & -> & Hap2); try done; [pose proof (zlen_nonneg (frameData f)); unfold frameLen; lia|].
  eexists _, _. split; [done|]. split; [done|]. symmetry. apply bool_decide_eq_false_2. intros [?|?]; congruence.
Qed.

Lemma effects_dest o o' r : effects self f o o' r -> ztDest o' = ztDest o \/ (ztDest o' <> ztSource f /\ ztDest o' <> self).
Proof. intros [_ _ Hd _]. destruct (decide (r = DOZTFILTER_REDIRECT)); [right; tauto|by left]. Qed.

Lemma outgoing_capabilities_spec q noTee m dest ap o caps : credentials_defined _config m ->
  Forall (fun c => Forall rule_ok (Capability._rules c)) caps -> Forall (sent dest) ap -> qosBucket o <= 8 \/ qosBucket o = q ->
  exists ap' o' ok, outgoing_capabilities self _id _config noTee m f dest ap o caps = Ok (ap', o', ok) /\ Forall (sent dest) ap' /\
    (if (ok : bool) then (exists c, c ∈ caps /\ rules_accept m dest (Capability._rules c)) /\ (ztDest o' = dest \/ (ztDest o' <> ztSource f /\ ztDest o' <> self))
     else ap' = ap) /\ (qosBucket o' <= 8 \/ qosBucket o' = q).
Proof.
  intros Hc Hr. revert ap o. induction Hr as [|c caps Hrc _ IH]; intros ap o Hap Hq; cbn [outgoing_capabilities]; [by eexists _, _, false|].
  destruct (filter_call m (fresh_out dest o) _ Hc Hrc) as (o' & r & E & Ho'). rewrite E. cbn [mbind outcome_bind].
  assert (qosBucket o' <= 8 \/ qosBucket o' = q) as Hq' by (destruct Ho' as [[Eq|[? _]] _ _ _]; [by rewrite Eq|by left]).
  destruct (accepts r) eqn:Ea.
  - match goal with |- context [?x ≫= _] => assert (exists ap1, x = Ok ap1 /\ Forall (sent dest) ap1) as (ap1 & -> & Hap1) end.
    { destruct noTee; [by eexists|]. by eapply send_copy_sent. }
    eexists _, _, true. split; [done|]. split; [done|]. split; [|done]. split.
    + exists c. split; [by left|]. by exists (fresh_out dest o), o', r.
    + apply (effects_dest _ _ _ Ho').
  - destruct (IH ap o' Hap Hq') as (ap' & o2 & ok & E2 & Hap' & Hok & Hq2). rewrite E2. eexists _, _, _. split; [done|]. split; [done|]. split; [|done].
    destruct ok; [|done]. destruct Hok as [(c' & Hin & Hacc) ?]. split; [|done]. exists c'. split; [by right|done].
Qed.

Lemma incoming_capabilities_spec m dest ap o caps : credentials_defined _config (Some m) ->
  Forall (fun e => Forall rule_ok (Capability._rules e.2) /\ succeeds any (isCredentialTimestampValid m _config e.2)) caps -> Forall (sent dest) ap ->
  exists ap' o' n, incoming_capabilities self _id _config m f dest ap o caps = Ok (ap', o', n) /\ Forall (sent dest) ap' /\ 0 <= n <= 2 /\
    (if n =? 0 then ap' = ap
     else (exists e, e ∈ caps /\ isCredentialTimestampValid m _config e.2 = Ok true /\ rules_accept (Some m) dest (Capability._rules e.2)) /\
       (ztDest o' = dest \/ (ztDest o' <> ztSource f /\ ztDest o' <> self))).
Proof.
  intros Hc Hr. revert ap o. induction Hr as [|[k c] caps [Hrc Hv] _ IH]; intros ap o Hap; cbn [incoming_capabilities fst snd] in *; [by eexists _, _, 0|].
  assert (forall o, exists ap' o' n, incoming_capabilities self _id _config m f dest ap o caps = Ok (ap', o', n) /\ Forall (sent dest) ap' /\ 0 <= n <= 2 /\
    (if n =? 0 then ap' = ap
     else (exists e, e ∈ (k, c) :: caps /\ isCredentialTimestampValid m _config e.2 = Ok true /\ rules_accept (Some m) dest (Capability._rules e.2)) /\
       (ztDest o' = dest \/ (ztDest o' <> ztSource f /\ ztDest o' <> self)))) as Hnext.
  { intros o1. destruct (IH ap o1 Hap) as (ap' & o' & n & E & Hap' & Hn & Hx). eexists _, _, _. split; [exact E|]. split; [done|]. split; [done|].
    destruct (n =? 0); [done|]. destruct Hx as [(e & ? & ?) ?]. split; [|done]. exists e. split; [by right|done]. }
  destruct Hv as (b & Eb & _). rewrite Eb. cbn [mbind outcome_bind]. destruct b; [|apply Hnext].
  destruct (filter_call (Some m) (fresh_out dest o) _ Hc Hrc) as (o' & r & E & Ho'). rewrite E. cbn [mbind outcome_bind].
  destruct (Z.eqb_spec (accept_level r) 0) as [Ea|Ea]; [apply Hnext|].
  destruct (send_copy_sent ap dest _ _ _ 0x1c 0x08 Ho') as (ap1 & -> & Hap1); [done..|]. cbn [mbind outcome_bind].
  eexists _, _, _. split; [done|]. split; [done|]. split; [by destruct r|]. rewrite (proj2 (Z.eqb_neq _ _)) by done. split.
  - exists (k, c). split; [by left|]. split; [done|]. exists (fresh_out dest o), o', r. split; [done|]. split; [done|]. by destruct r.
  - apply (effects_dest _ _ _ Ho').
Qed.

End lemmas.

Lemma filterOutgoing_lemma noTee m dest qos rnd :
  frame_ok f -> frameLen f <= max_frame -> tcp_in_frame f -> credentials_defined _config m -> Forall rule_ok (rules _config) ->
  Forall (fun c => Forall rule_ok (Capability._rules c)) (capabilities _config) ->
  exists o r ap fin ok, _doZtFilter self _config m f (mkOut dest 0 0 false qos rnd) (rules _config) = Ok (o, r) /\
    filterOutgoing self _id _config noTee m f dest qos rnd = Ok (ap, fin, ok) /\ Forall (sent dest) ap /\
    (qosBucket fin <= 8 \/ qosBucket fin = qos) /\
    match r with
    | DOZTFILTER_DROP => ap = [] /\ ok = false
    | DOZTFILTER_NO_MATCH => ap <> [] \/ ok = true -> exists c, c ∈ capabilities _config /\ rules_accept m dest (Capability._rules c)
    | DOZTFILTER_REDIRECT => ok = bool_decide (ztDest o = 0)
    | _ => ok = true
    end.
Proof.
  intros Hf Hmax Htcp Hc Hr Hcaps. destruct (filter_call Hf Htcp m (mkOut dest 0 0 false qos rnd) _ Hc Hr) as (o & r & E & Ho).
  exists o, r. unfold filterOutgoing. rewrite E. cbn [mbind outcome_bind].
  assert (qosBucket o <= 8 \/ qosBucket o = qos) as Hq by (destruct Ho as [[Eq|[? _]] _ _ _]; [by right|by left]).
  assert (forall ap fin, Forall (sent dest) ap -> ztDest fin = dest \/ (ztDest fin <> ztSource f /\ ztDest fin <> self) -> qosBucket fin <= 8 \/ qosBucket fin = qos ->
    exists ap' ok, ('(ap, ok) ← forward self _id ap f dest (if noTee then None else Some o) (ztDest fin) 0x16 0x02 0x04; Ok (ap, fin, ok)) = Ok (ap', fin, ok) /\
      Forall (sent dest) ap' /\ ok = bool_decide (ztDest fin = dest \/ ztDest fin = 0)) as Hforward.
  { intros ap fin Hap Hfin Hqf.
    destruct (forward_sent Hf Hmax ap dest (if noTee then None else Some o) (mkOut dest 0 0 false qos rnd) r (ztDest fin) 0x16 0x02 0x04) as (ap' & ok & -> & ? & ?);
      [done|by destruct noTee|done|done|done|by eexists _, _]. }
  destruct (decide (r = DOZTFILTER_NO_MATCH)) as [->|Hn].
  - destruct (outgoing_capabilities_spec Hf Htcp Hmax qos noTee m dest [] o (capabilities _config) Hc Hcaps) as (ap & fin & acc & -> & Hap & Hacc & Hqf); [done|done|].
    cbn [mbind outcome_bind]. destruct acc.
    + destruct Hacc as [Hacc Hfin]. destruct (Hforward ap fin Hap Hfin Hqf) as (ap' & ok & -> & ? & _). by eexists _, _, _.
    + eexists _, _, _. split; [done|]. split; [done|]. split; [done|]. split; [done|]. intros [?|?]; [done|discriminate].
  - assert (Ok ([], o, accepts r) = match r with DOZTFILTER_NO_MATCH => outgoing_capabilities self _id _config noTee m f dest [] o (capabilities _config) | _ => Ok ([], o, accepts r) end) as <-
      by (by destruct r).
    cbn [mbind outcome_bind]. destruct (decide (r = DOZTFILTER_DROP)) as [->|Hd]; [by eexists _, _, _|].
    replace (accepts r) with true by (by destruct r). destruct (Hforward [] o) as (ap' & ok & -> & ? & Hok); [done|apply (effects_dest _ _ _ Ho)|done|].
    eexists _, _, _. do 4 (split; [done|]). destruct Ho as [_ _ Hdest _]. subst ok. destruct r; try done; cbn in Hdest; rewrite ?Hdest.
    + apply bool_decide_ext. naive_solver.
    + by apply bool_decide_eq_true_2; left.
    + by apply bool_decide_eq_true_2; left.
Qed.


End filters.

(** ** class Network *)

Inductive NetconfFailure := NETCONF_FAILURE_NONE | NETCONF_FAILURE_ACCESS_DENIED | NETCONF_FAILURE_NOT_FOUND | NETCONF_FAILURE_INIT_FAILED
  | NETCONF_FAILURE_AUTHENTICATION_REQUIRED.
Inductive VirtualNetworkStatus := ZT_NETWORK_STATUS_REQUESTING_CONFIGURATION | ZT_NETWORK_STATUS_OK | ZT_NETWORK_STATUS_ACCESS_DENIED
  | ZT_NETWORK_STATUS_NOT_FOUND | ZT_NETWORK_STATUS_PORT_ERROR | ZT_NETWORK_STATUS_AUTHENTICATION_REQUIRED.

Module Network.
Section Network.
Context {T : Type -> Type} `{Table T}.

(** [_multicastGroupsBehindMe] has the groups as keys: the number [group_key]. *)
Record Network := mkNetwork {
  _id : Z; _mac : Z; _config : NetworkConfig; _lastConfigUpdate : Z; _destroyed : bool; _netconfFailure : NetconfFailure;
  _portError : Z; _portInitialized : bool; _authenticationURL : list Z; _lastAnnouncedMulticastGroupsUpstream : Z;
  _myMulticastGroups : list MulticastGroup; _multicastGroupsBehindMe : T Z; _remoteBridgeRoutes : T Z;
  _incomingConfigChunks : list _IncomingConfigChunk; _memberships : T (Membership T) }.

(** What the constructor does before it looks for a configuration. *)
Definition Network_new (uninit self nwid : Z) : Network :=
  mkNetwork nwid (MAC.fromAddress self nwid) (NetworkConfig_nil uninit) 0 false NETCONF_FAILURE_NONE 0 false [] 0 [] tab_new tab_new
    (replicate ZT_NETWORK_MAX_INCOMING_UPDATES no_chunks) tab_new.

Definition controller (n : Network) : Z := Address.of_int (Z.shiftr (_id n) 24).
Definition multicastEnabled (n : Network) : bool := 0 <? multicastLimit (_config n).
Definition hasConfig (n : Network) : bool := nonnull (_config n).

(** Assignments to the fields. *)
Definition set_config (n : Network) (c : NetworkConfig) : Network :=
  mkNetwork (_id n) (_mac n) c (_lastConfigUpdate n) (_destroyed n) (_netconfFailure n) (_portError n) (_portInitialized n) (_authenticationURL n) (_lastAnnouncedMulticastGroupsUpstream n) (_myMulticastGroups n) (_multicastGroupsBehindMe n) (_remoteBridgeRoutes n) (_incomingConfigChunks n) (_memberships n).
Definition set_lastConfigUpdate (n : Network) (t : Z) : Network :=
  mkNetwork (_id n) (_mac n) (_config n) t (_destroyed n) (_netconfFailure n) (_portError n) (_portInitialized n) (_authenticationURL n) (_lastAnnouncedMulticastGroupsUpstream n) (_myMulticastGroups n) (_multicastGroupsBehindMe n) (_remoteBridgeRoutes n) (_incomingConfigChunks n) (_memberships n).
Definition setFailure (n : Network) (x : NetconfFailure) : Network :=
  mkNetwork (_id n) (_mac n) (_config n) (_lastConfigUpdate n) (_destroyed n) x (_portError n) (_portInitialized n) (_authenticationURL n) (_lastAnnouncedMulticastGroupsUpstream n) (_myMulticastGroups n) (_multicastGroupsBehindMe n) (_remoteBridgeRoutes n) (_incomingConfigChunks n) (_memberships n).
Definition set_portError (n : Network) (e : Z) : Network :=
  mkNetwork (_id n) (_mac n) (_config n) (_lastConfigUpdate n) (_destroyed n) (_netconfFailure n) e (_portInitialized n) (_authenticationURL n) (_lastAnnouncedMulticastGroupsUpstream n) (_myMulticastGroups n) (_multicastGroupsBehindMe n) (_remoteBridgeRoutes n) (_incomingConfigChunks n) (_memberships n).
Definition set_portInitialized (n : Network) (b : bool) : Network :=
  mkNetwork (_id n) (_mac n) (_config n) (_lastConfigUpdate n) (_destroyed n) (_netconfFailure n) (_portError n) b (_authenticationURL n) (_lastAnnouncedMulticastGroupsUpstream n) (_myMulticastGroups n) (_multicastGroupsBehindMe n) (_remoteBridgeRoutes n) (_incomingConfigChunks n) (_memberships n).
Definition set_authenticationURL (n : Network) (u : list Z) : Network :=
  mkNetwork (_id n) (_mac n) (_config n) (_lastConfigUpdate n) (_destroyed n) (_netconfFailure n) (_portError n) (_portInitialized n) u (_lastAnnouncedMulticastGroupsUpstream n) (_myMulticastGroups n) (_multicastGroupsBehindMe n) (_remoteBridgeRoutes n) (_incomingConfigChunks n) (_memberships n).
Definition set_lastAnnounced (n : Network) (t : Z) : Network :=
  mkNetwork (_id n) (_mac n) (_config n) (_lastConfigUpdate n) (_destroyed n) (_netconfFailure n) (_portError n) (_portInitialized n) (_authenticationURL n) t (_myMulticastGroups n) (_multicastGroupsBehindMe n) (_remoteBridgeRoutes n) (_incomingConfigChunks n) (_memberships n).
Definition set_myMulticastGroups (n : Network) (l : list MulticastGroup) : Network :=
  mkNetwork (_id n) (_mac n) (_config n) (_lastConfigUpdate n) (_destroyed n) (_netconfFailure n) (_portError n) (_portInitialized n) (_authenticationURL n) (_lastAnnouncedMulticastGroupsUpstream n) l (_multicastGroupsBehindMe n) (_remoteBridgeRoutes n) (_incomingConfigChunks n) (_memberships n).
Definition set_groupsBehindMe (n : Network) (g : T Z) : Network :=
  mkNetwork (_id n) (_mac n) (_config n) (_lastConfigUpdate n) (_destroyed n) (_netconfFailure n) (_portError n) (_portInitialized n) (_authenticationURL n) (_lastAnnouncedMulticastGroupsUpstream n) (_myMulticastGroups n) g (_remoteBridgeRoutes n) (_incomingConfigChunks n) (_memberships n).
Definition set_bridgeRoutes (n : Network) (r : T Z) : Network :=
  mkNetwork (_id n) (_mac n) (_config n) (_lastConfigUpdate n) (_destroyed n) (_netconfFailure n) (_portError n) (_portInitialized n) (_authenticationURL n) (_lastAnnouncedMulticastGroupsUpstream n) (_myMulticastGroups n) (_multicastGroupsBehindMe n) r (_incomingConfigChunks n) (_memberships n).
Definition set_incoming (n : Network) (l : list _IncomingConfigChunk) : Network :=
  mkNetwork (_id n) (_mac n) (_config n) (_lastConfigUpdate n) (_destroyed n) (_netconfFailure n) (_portError n) (_portInitialized n) (_authenticationURL n) (_lastAnnouncedMulticastGroupsUpstream n) (_myMulticastGroups n) (_multicastGroupsBehindMe n) (_remoteBridgeRoutes n) l (_memberships n).
Definition set_memberships (n : Network) (m : T (Membership T)) : Network :=
  mkNetwork (_id n) (_mac n) (_config n) (_lastConfigUpdate n) (_destroyed n) (_netconfFailure n) (_portError n) (_portInitialized n) (_authenticationURL n) (_lastAnnouncedMulticastGroupsUpstream n) (_myMulticastGroups n) (_multicastGroupsBehindMe n) (_remoteBridgeRoutes n) (_incomingConfigChunks n) m.
Definition destroy (n : Network) : Network :=
  mkNetwork (_id n) (_mac n) (_config n) (_lastConfigUpdate n) true (_netconfFailure n) (_portError n) (_portInitialized n) (_authenticationURL n) (_lastAnnouncedMulticastGroupsUpstream n) (_myMulticastGroups n) (_multicastGroupsBehindMe n) (_remoteBridgeRoutes n) (_incomingConfigChunks n) (_memberships n).

(** [_memberships[a]] *)
Definition _membership (n : Network) (a : Z) : outcome (Network * Membership T) :=
  '(ms, m) ← tab_index Membership_new (_memberships n) a; Ok (set_memberships n ms, m).
Definition put_membership (n : Network) (a : Z) (m : Membership T) : outcome Network :=
  ms ← tab_set (_memberships n) a m; Ok (set_memberships n ms).

(** The filters, on the membership of the other end. *)
Definition filterOutgoingPacket `{PacketSource} (self : Z) (n : Network) (noTee : bool) (f : Frame) (dest qos : Z) (rnd : Z * Z) :
  outcome (list (Z * Buffer) * Out * bool) :=
  m ← (if dest =? 0 then Ok None else tab_get (_memberships n) dest);
  filterOutgoing self (_id n) (_config n) noTee m f dest qos rnd.
Definition filterIncomingPacket `{PacketSource} (self : Z) (n : Network) (f : Frame) (dest : Z) (rnd : Z * Z) :
  outcome (Network * (list (Z * Buffer) * Out * Z)) :=
  '(n, m) ← _membership n (ztSource f); r ← filterIncoming self (_id n) (_config n) m f dest rnd; Ok (n, r).

Definition recentlyAssociatedWith (n : Network) (a now : Z) : outcome bool :=
  m ← tab_get (_memberships n) a; match m with Some m => recentlyAssociated m now | None => Ok false end.

Section Crypto.
Context `{Crypto} `{Env}.

(** [addCredential]: a credential of another network is rejected; otherwise the member it is about gets it. *)
Definition add_to (n : Network) (nwid a : Z) (add : Membership T -> outcome (Membership T * AddCredentialResult)) : outcome (Network * AddCredentialResult) :=
  if negb (nwid =? _id n) then Ok (n, ADD_REJECTED)
  else '(n, m) ← _membership n a; '(m, r) ← add m; n ← put_membership n a m; Ok (n, r).
Definition addCredential_com (n : Network) (c : COM.COM) : outcome (Network * AddCredentialResult) :=
  add_to n (COM.networkId c) (COM.issuedTo c) (fun m => Ok (Membership.addCredential_com m c)).
Definition addCredential_cap (n : Network) (c : Capability) : outcome (Network * AddCredentialResult) :=
  add_to n (Capability._nwid c) (Capability.issuedTo c) (fun m => Membership.addCredential_cap m c).
Definition addCredential_tag (n : Network) (t : Tag.Tag) : outcome (Network * AddCredentialResult) :=
  add_to n (Tag._networkId t) (Tag._issuedTo t) (fun m => Membership.addCredential_tag m t).
Definition addCredential_coo (n : Network) (c : COO.COO) : outcome (Network * AddCredentialResult) :=
  add_to n (COO._networkId c) (COO._issuedTo c) (fun m => Membership.addCredential_coo m c).
End Crypto.

(** [learnBridgeRoute]: while there are too many routes, those through the address that has most of them are removed. *)
Fixpoint find_max (counts : T Z) (l : list (Z * Z)) (maxAddr maxCount : Z) : outcome Z :=
  match l with
  | [] => Ok maxAddr
  | (_, a) :: l =>
      '(counts, c0) ← tab_index (T := T) 0 counts a;
      let c := u32 (c0 + 1) in
      counts ← tab_set (T := T) counts a c;
      if maxCount <? c then find_max counts l a c else find_max counts l maxAddr maxCount
  end.
Fixpoint prune_routes (fuel : nat) (routes : T Z) : outcome (T Z) :=
  if ZT_MAX_BRIDGE_ROUTES <? zlen (tab_entries routes) then
    match fuel with
    | O => Undef
    | S fuel =>
        a ← find_max (tab_new (T := T)) (tab_entries routes) 0 0;
        routes ← tab_keep (T := T) (fun _ b => negb (b =? a)) routes;
        prune_routes fuel routes
    end
  else Ok routes.
Definition learnBridgeRoute (n : Network) (mac a : Z) : outcome Network :=
  r ← tab_set (T := T) (_remoteBridgeRoutes n) mac a;
  r ← prune_routes (S (length (tab_entries r))) r;
  Ok (set_bridgeRoutes n r).
Definition findBridgeTo (n : Network) (mac : Z) : outcome Z :=
  b ← tab_get (_remoteBridgeRoutes n) mac; Ok (default 0 b).


Definition _status (n : Network) : VirtualNetworkStatus :=
  if negb (_portError n =? 0) then ZT_NETWORK_STATUS_PORT_ERROR
  else match _netconfFailure n with
       | NETCONF_FAILURE_ACCESS_DENIED => ZT_NETWORK_STATUS_ACCESS_DENIED
       | NETCONF_FAILURE_NOT_FOUND => ZT_NETWORK_STATUS_NOT_FOUND
       | NETCONF_FAILURE_NONE => if nonnull (_config n) then ZT_NETWORK_STATUS_OK else ZT_NETWORK_STATUS_REQUESTING_CONFIGURATION
       | NETCONF_FAILURE_AUTHENTICATION_REQUIRED => ZT_NETWORK_STATUS_AUTHENTICATION_REQUIRED
       | NETCONF_FAILURE_INIT_FAILED => ZT_NETWORK_STATUS_PORT_ERROR
       end.
End Network.
Arguments Network : clear implicits.

(** ** Routes behind bridges *)

Section routes.
Context {T : Type -> Type} `{TableLaws T}.

(** The counts after one more route through [a]. *)
Lemma count_step counts (mc : gmap Z Z) a k : tab_rep counts mc -> Z.of_nat (base.size mc) + 1 < 2 ^ 28 -> k < 2 ^ 32 - 1 ->
  (forall a c, mc !! a = Some c -> 0 <= c <= k) -> 0 <= k ->
  exists counts1 c0 counts2, tab_index 0 counts a = Ok (counts1, c0) /\ tab_set counts1 a (u32 (c0 + 1)) = Ok counts2 /\ 0 < u32 (c0 + 1) /\
    tab_rep counts2 (<[a := u32 (c0 + 1)]> mc) /\ (forall b c, <[a := u32 (c0 + 1)]> mc !! b = Some c -> 0 <= c <= k + 1).
Proof.
  intros Hr Hs Hk Hc Hk0. destruct (tab_index_rep 0 counts mc a Hr) as (t1 & E1 & Hr1); [unfold room; lia|].
  set (c0 := default 0 (mc !! a)) in *. assert (0 <= c0 <= k) as Hc0 by (unfold c0; destruct (mc !! a) eqn:E; [by eapply Hc|cbn; lia]).
  assert (forall (v : Z), <[a := v]> (if decide (mc !! a = None) then <[a := 0]> mc else mc) = <[a := v]> mc) as Hi
    by (intros; case_decide; [apply insert_insert_eq|done]).
  destruct (tab_set_rep t1 _ a (u32 (c0 + 1)) Hr1) as (t2 & E2 & Hr2).
  { unfold room. case_decide; [|lia]. rewrite map_size_insert_None by done. lia. }
  exists t1, c0, t2. rewrite u32_small in * by lia. rewrite Hi in Hr2. split_and!; try done; [lia|].
  intros b c. destruct (decide (a = b)) as [->|Hn]; [rewrite lookup_insert_eq; intros [= <-]; lia|].
  rewrite lookup_insert_ne by done. intros Hb%Hc. lia.
Qed.

Lemma find_max_in l : forall counts (mc : gmap Z Z) k maxAddr maxCount, tab_rep counts mc -> Z.of_nat (base.size mc) + zlen l < 2 ^ 28 ->
  (forall a c, mc !! a = Some c -> 0 <= c <= k) -> 0 <= k -> k + zlen l < 2 ^ 32 ->
  exists a, Network.find_max counts l maxAddr maxCount = Ok a /\ (a ∈ l.*2 \/ a = maxAddr) /\ (maxCount = 0 -> l <> [] -> a ∈ l.*2).
Proof.
  induction l as [|[i a] l IH]; intros counts mc k maxAddr maxCount Hr Hs Hc Hk0 Hk; cbn [Network.find_max].
  { exists maxAddr. split; [done|]. split; [by right|done]. }
  rewrite zlen_cons in Hs, Hk. pose proof (zlen_nonneg l).
  destruct (count_step counts mc a k Hr) as (t1 & c0 & t2 & -> & E & Hpos & Hr2 & Hc2); [lia|lia|done|done|].
  cbn [mbind outcome_bind]. rewrite E. cbn [mbind outcome_bind].
  assert (Z.of_nat (base.size (<[a := u32 (c0 + 1)]> mc)) + zlen l < 2 ^ 28) as Hs2 by (pose proof (size_insert_le a (u32 (c0 + 1)) mc); lia).
  destruct (Z.ltb_spec maxCount (u32 (c0 + 1))).
  - destruct (IH t2 _ (k + 1) a (u32 (c0 + 1)) Hr2 Hs2 Hc2) as (b & -> & Hb & _); [lia|lia|]. exists b. split; [done|].
    assert (b ∈ ((i, a) :: l).*2) by (cbn; destruct Hb as [|<-]; [by right|by left]). split; [by left|done].
  - destruct (IH t2 _ (k + 1) maxAddr maxCount Hr2 Hs2 Hc2) as (b & -> & Hb & Hb0); [lia|lia|]. exists b. split; [done|].
    split; [destruct Hb; [left; by right|by right]|]. intros ->. lia.
Qed.

(** The routes without those through [a]. *)
Definition without (a : Z) (m : gmap Z Z) : gmap Z Z := filter (fun e => negb (e.2 =? a) = true) m.

Lemma without_smaller a m k : m !! k = Some a -> (base.size (without a m) < base.size m)%nat.
Proof.
  intros Hk. apply map_subset_size. split; [apply map_filter_subseteq|]. intros Hsub. pose proof (lookup_weaken _ _ _ _ Hk Hsub) as Hf.
  apply map_lookup_filter_Some in Hf as [_ Hf]. cbn in Hf. by rewrite Z.eqb_refl in Hf.
Qed.

Lemma entries_length (t : T Z) (m : gmap Z Z) : tab_rep t m -> zlen (tab_entries t) = Z.of_nat (base.size m).
Proof. intros Hr. unfold zlen. by rewrite (tab_entries_rep t m Hr), length_map_to_list. Qed.

(** The loop ends: each pass removes all the routes through an address that has one. *)
Lemma prune_routes_spec fuel : forall (t : T Z) (m : gmap Z Z), tab_rep t m -> room m -> (base.size m < fuel)%nat ->
  exists t' m', Network.prune_routes fuel t = Ok t' /\ tab_rep t' m' /\ m' ⊆ m /\ Z.of_nat (base.size m') <= ZT_MAX_BRIDGE_ROUTES /\
    (Z.of_nat (base.size m) <= ZT_MAX_BRIDGE_ROUTES -> m' = m) /\
    (forall k k' a, m' !! k = None -> m !! k = Some a -> m' !! k' <> Some a).
Proof.
  induction fuel as [|fuel IH]; intros t m Hr Hroom Hf; [lia|]. cbn [Network.prune_routes]. rewrite (entries_length t m Hr).
  destruct (Z.ltb_spec ZT_MAX_BRIDGE_ROUTES (Z.of_nat (base.size m))) as [Hlt|Hle].
  2:{ exists t, m. split_and!; try done. intros k k' a Hn Hs. congruence. }
  destruct (find_max_in (tab_entries t) tab_new ∅ 0 0 0) as (a & -> & _ & Ha); [apply tab_new_rep| |done|lia| |].
  { rewrite map_size_empty, (entries_length t m Hr). unfold room in Hroom. lia. }
  { rewrite (entries_length t m Hr). unfold room in Hroom. lia. }
  cbn [mbind outcome_bind]. specialize (Ha eq_refl). destruct (tab_keep_rep (fun _ b => negb (b =? a)) t m Hr Hroom) as (t1 & -> & Hr1).
  cbn [mbind outcome_bind]. fold (without a m) in Hr1.
  assert (exists k, m !! k = Some a) as [k Hk].
  { assert (tab_entries t <> []) as Hne. { intros E. pose proof (entries_length t m Hr) as El. rewrite E, zlen_nil in El. unfold ZT_MAX_BRIDGE_ROUTES in Hlt. lia. }
    apply Ha in Hne. apply list_elem_of_fmap in Hne as ([k b] & -> & Hin). rewrite (tab_entries_rep t m Hr) in Hin. apply elem_of_map_to_list in Hin. by exists k. }
  pose proof (without_smaller a m k Hk) as Hsm.
  destruct (IH t1 (without a m) Hr1) as (t2 & m2 & -> & Hr2 & Hsub & Hmax & Hid & Hall); [unfold room in *; lia|lia|].
  exists t2, m2. split_and!; try done; [etrans; [exact Hsub|apply map_filter_subseteq]|lia|].
  intros i j b Hn Hs Hj. destruct (decide (b = a)) as [->|Hb].
  - pose proof (lookup_weaken _ _ _ _ Hj Hsub) as Hx. apply map_lookup_filter_Some in Hx as [_ Hx]. cbn in Hx. by rewrite Z.eqb_refl in Hx.
  - apply (Hall i j b); [done| |done]. apply map_lookup_filter_Some. split; [done|]. cbn. apply Z.eqb_neq in Hb. by rewrite Hb.
Qed.

(** C24. A route is learned and the table stays within its limit: either nothing else changes, or the routes are removed that go through
    some of the addresses, for those addresses all of them. *)
Theorem learnBridgeRoute_spec (n : Network.Network T) (m : gmap Z Z) mac a : tab_rep (Network._remoteBridgeRoutes n) m ->
  Z.of_nat (base.size m) <= ZT_MAX_BRIDGE_ROUTES ->
  exists n' m', Network.learnBridgeRoute n mac a = Ok n' /\ tab_rep (Network._remoteBridgeRoutes n') m' /\
    m' ⊆ <[mac := a]> m /\ Z.of_nat (base.size m') <= ZT_MAX_BRIDGE_ROUTES /\
    (Z.of_nat (base.size (<[mac := a]> m)) <= ZT_MAX_BRIDGE_ROUTES -> Network.findBridgeTo n' mac = Ok a) /\
    (forall k k' b, m' !! k = None -> <[mac := a]> m !! k = Some b -> m' !! k' <> Some b).
Proof.
  intros Hr Hs. unfold Network.learnBridgeRoute. unfold ZT_MAX_BRIDGE_ROUTES in Hs.
  destruct (tab_set_rep (Network._remoteBridgeRoutes n) m mac a Hr) as (t & -> & Ht); [unfold room; lia|]. cbn [mbind outcome_bind].
  pose proof (size_insert_le mac a m).
  destruct (prune_routes_spec (S (length (tab_entries t))) t _ Ht) as (t' & m' & -> & Ht' & Hsub & Hmax & Hid & Hall); [unfold room; lia| |].
  { rewrite (tab_entries_rep t _ Ht), length_map_to_list. lia. }
  cbn [mbind outcome_bind]. eexists _, m'. split; [done|]. split; [done|]. split; [done|]. split; [done|]. split; [|done].
  intros Hfit. rewrite (Hid Hfit) in Ht'. unfold Network.findBridgeTo. cbn [Network._remoteBridgeRoutes Network.set_bridgeRoutes].
  rewrite (tab_get_rep _ _ mac Ht'). cbn [mbind outcome_bind]. by rewrite lookup_insert_eq.
Qed.
End routes.
End Network.

(** ** Witnesses *)

#[export] Instance toy_source : PacketSource := { new_mem n := replicate (7 * 1432) 0; new_iv n := be_bytes 8 (Z.of_nat n) }.
#[export] Instance toy_source_laws : PacketSourceLaws.
Proof. intros n. split; [by_compute|]. split; [by_compute|]. split; [apply bytes_ok_be_bytes|apply length_be_bytes]. Qed.

(** The configuration with the rules of the filter's witnesses, and a capability that accepts everything. *)
Definition toy_config (rs : list ZT_VirtualNetworkRule) : NetworkConfig :=
  let nc := NetworkConfig_nil 0 in
  mkNetworkConfig 1 0 0 0 3 0 0 0 2800 0 [] [] [] rs [mkCapability 1 0 1 0 [toy_rule ACTION_ACCEPT VNone] []] [] [] 0 [] com_nil (dns nc) (sso nc).

Lemma toy_rules_wf rs : rs = toy_rules \/ rs = [] \/ rs = [toy_rule ACTION_ACCEPT VNone] -> Forall rule_ok rs.
Proof. intros [-> | [-> | ->]]; repeat constructor; cbn; try by_compute; unfold rng; lia. Qed.


(** A frame from 1 to the node. The rules of the network only drop what is not IPv4; of the two capabilities of the sender the first is too old,
    the second copies 10 bytes of what comes in to 7 and accepts it. *)
Definition toy_in_frame : Frame := mkFrame true 1 5 6 (frameData toy_frame) 0x0800 0.
Definition toy_in_rules : list ZT_VirtualNetworkRule := [toy_rule (0x80 + MATCH_ETHERTYPE) (VEtherType 0x0800); toy_rule ACTION_DROP VNone].
Definition toy_in_capability : list ZT_VirtualNetworkRule :=
  [toy_rule MATCH_CHARACTERISTICS (VCharacteristics CHARACTERISTICS_INBOUND); toy_rule ACTION_TEE (VFwd 7 0 10); toy_rule ACTION_ACCEPT VNone].
Definition toy_in_member : Membership (gmap Z) :=
  mkMembership 0 0 0 com_nil tab_new tab_new
    (<[2 := mkCapability 1 (2 ^ 40) 2 0 [toy_rule ACTION_ACCEPT VNone] []]> (<[1 := mkCapability 1 0 1 0 toy_in_capability []]> ∅)) tab_new.

Lemma toy_in_entries : tab_entries (_remoteCaps toy_in_member) =
  [(2, mkCapability 1 (2 ^ 40) 2 0 [toy_rule ACTION_ACCEPT VNone] []); (1, mkCapability 1 0 1 0 toy_in_capability [])].
Proof. vm_compute. reflexivity. Qed.

Lemma toy_in_wf : Forall (fun e => Forall rule_ok (Capability._rules e.2) /\ succeeds any (isCredentialTimestampValid toy_in_member (toy_config toy_in_rules) e.2))
  (tab_entries (_remoteCaps toy_in_member)).
Proof.
  rewrite toy_in_entries. repeat (apply list.Forall_cons_2); [..|apply list.Forall_nil_2].
  all: (split; [repeat constructor; cbn; try by_compute; unfold rng; lia|]); vm_compute; by eexists.
Qed.

Lemma toy_in_rules_wf : Forall rule_ok toy_in_rules.
Proof. repeat constructor; cbn; by_compute. Qed.

Lemma toy_in_defined : credentials_defined (toy_config toy_in_rules) (Some toy_in_member).
Proof.
  split; [intros id; by eexists|]. split; [|apply list.Forall_nil_2]. intros m ip mac Hm. injection Hm as <-. split; by eexists.
Qed.


Lemma learnBridgeRoute_spec_witness :
  exists n' m', Network.learnBridgeRoute (T := gmap Z) (Network.set_bridgeRoutes (Network.Network_new 0 3 1) {[5 := 6]}) 7 8 = Ok n' /\
    Network.findBridgeTo n' 7 = Ok 8 /\ tab_rep (Network._remoteBridgeRoutes n') m'.
Proof.
  destruct (Network.learnBridgeRoute_spec (T := gmap Z) (Network.set_bridgeRoutes (Network.Network_new 0 3 1) {[5 := 6]}) {[5 := 6]} 7 8) as (n' & m' & E & Hr & _ & _ & Hfit & _);
    [done|by_compute|].
  exists n', m'. split; [exact E|]. split; [apply Hfit; by_compute|exact Hr].
Defined.
