(* ===== verification/NetworkUpdate.v ===== *)
(** * Configuration updates (node/Network.cpp, node/Node.cpp)

    A controller cuts the dictionary of a configuration into signed chunks ([Node::ncSendConfig]); a member puts them
    together ([Network::handleConfigChunk]) and adopts the configuration ([Network::setConfiguration]). What the node asks of its host is
    returned as a list of calls, in order; what it sends as a list of packets, as in [Network]. *)

From S2P Require Import Prelude Buffer Serial Address InetAddress Dictionary Identity Packet Table Rule Credential Credentials Capability CredentialSet NetworkConfig NetconfDict Membership Filter Network.
Import Network.

Definition ZT_MAX_MULTICAST_SUBSCRIPTIONS : Z := 1024.

(** ** The host *)

Inductive PortOp := ZT_VIRTUAL_NETWORK_CONFIG_OPERATION_UP | ZT_VIRTUAL_NETWORK_CONFIG_OPERATION_CONFIG_UPDATE
  | ZT_VIRTUAL_NETWORK_CONFIG_OPERATION_DOWN | ZT_VIRTUAL_NETWORK_CONFIG_OPERATION_DESTROY.

(** ZT_VirtualNetworkConfig; character arrays as their text, arrays with a count as the entries in use. *)
Record ExternalConfig := mkExternalConfig {
  ec_nwid : Z; ec_mac : Z; ec_name : list Z; ec_status : VirtualNetworkStatus; ec_type : Z; ec_mtu : Z; ec_dhcp : Z; ec_bridge : bool;
  ec_broadcastEnabled : bool; ec_portError : Z; ec_netconfRevision : Z; ec_assignedAddresses : list InetAddress; ec_routes : list Route;
  ec_multicastSubscriptions : list (Z * Z); ec_dns : DNS; ec_sso : SSO }.

(** [configureVirtualNetworkPort] and [stateObjectPut(ZT_STATE_OBJECT_NETWORK_CONFIG)]. *)
Inductive Call := PortCall (op : PortOp) (nwid : Z) (ec : ExternalConfig) | StatePut (nwid : Z) (text : list Z).

(** The return value of the port callback, and memcmp of two configuration objects with their padding: equal memory is an equal value. *)
Class Host := { port_result : PortOp -> ExternalConfig -> Z; same_object : NetworkConfig -> NetworkConfig -> bool }.
Class HostLaws `{Host} := same_object_eq a b : same_object a b = true -> a = b.

(** The uninitialised memory of [fromDictionary] and [toDictionary]. *)
Class ConfigMemory := { cm_stack : list Z; cm_tmp : Buffer }.
Class ConfigMemoryLaws `{ConfigMemory} := {
  cm_stack_len : zlen cm_stack = 128; cm_tmp_ok : buf_ok cm_tmp; cm_tmp_cap : capacity cm_tmp = ZT_NETWORKCONFIG_DICT_CAPACITY }.

Definition CONFIG_ROOM : nat := Z.to_nat ZT_NETWORKCONFIG_DICT_CAPACITY.

(** [Utils::scopy] into an array of [n] characters. *)
Definition scopy (n : nat) (s : list Z) : list Z := take (n - 1) s.

Definition set_sso (c : NetworkConfig) (s : SSO) : NetworkConfig :=
  mkNetworkConfig (networkId c) (timestamp c) (credentialTimeMaxDelta c) (revision c) (issuedTo c) (remoteTraceTarget c) (flags c) (remoteTraceLevel c)
    (mtu c) (multicastLimit c) (specialists c) (routes c) (staticIps c) (rules c) (capabilities c) (tags c) (certificatesOfOwnership c) (type c) (name c)
    (com c) (dns c) s.

Section Update.
Context {T : Type -> Type} `{Table T} `{Host} `{ConfigMemory} `{StdSort}.
Context (self now : Z).

Definition _externalConfig (n : Network T) : outcome ExternalConfig :=
  let c := _config n in
  let some := nonnull c in
  if ZT_MAX_MULTICAST_SUBSCRIPTIONS <? zlen (_myMulticastGroups n) then Undef
  else Ok (mkExternalConfig (_id n) (_mac n) (if some then scopy 128 (name c) else []) (_status n)
    (if some then if isPrivate c then ZT_NETWORK_TYPE_PRIVATE else ZT_NETWORK_TYPE_PUBLIC else ZT_NETWORK_TYPE_PRIVATE)
    (if some then mtu c else ZT_DEFAULT_MTU) 0
    (existsb (Z.eqb self) (activeBridges c)) (some && enableBroadcast c) (_portError n) (if some then u32 (revision c) else 0)
    (staticIps c) (routes c) ((fun g => (InetAddress._mac g, _adi g)) <$> _myMulticastGroups n) (dns c)
    (mkSSO (ssoEnabled (sso c)) (ssoVersion (sso c)) (scopy 2048 (_authenticationURL n)) (authenticationExpiryTime (sso c)) (scopy 2048 (issuerURL (sso c)))
       (scopy 2048 (centralAuthURL (sso c))) (scopy 128 (ssoNonce (sso c))) (scopy 256 (ssoState (sso c))) (scopy 256 (ssoClientID (sso c)))
       (scopy 64 (ssoProvider (sso c))))).

Definition port_op (initialized : bool) : PortOp :=
  if initialized then ZT_VIRTUAL_NETWORK_CONFIG_OPERATION_CONFIG_UPDATE else ZT_VIRTUAL_NETWORK_CONFIG_OPERATION_UP.

Definition _sendUpdateEvent (n : Network T) : outcome (list Call) :=
  ec ← _externalConfig n; Ok [PortCall (port_op (_portInitialized n)) (_id n) ec].

Definition setAccessDenied (n : Network T) : outcome (Network T * list Call) :=
  let n := setFailure n NETCONF_FAILURE_ACCESS_DENIED in calls ← _sendUpdateEvent n; Ok (n, calls).
Definition setNotFound (n : Network T) : outcome (Network T * list Call) :=
  let n := setFailure n NETCONF_FAILURE_NOT_FOUND in calls ← _sendUpdateEvent n; Ok (n, calls).
Definition setAuthenticationRequired (n : Network T) (issuer central clientID provider nonce state : list Z) : outcome (Network T * list Call) :=
  let c := _config n in
  let s := mkSSO true 1 (authenticationURL (sso c)) (authenticationExpiryTime (sso c)) (scopy 2048 issuer) (scopy 2048 central) (scopy 128 nonce)
             (scopy 256 state) (scopy 256 clientID) (scopy 64 provider) in
  let n := set_config (setFailure n NETCONF_FAILURE_AUTHENTICATION_REQUIRED) (set_sso c s) in
  calls ← _sendUpdateEvent n; Ok (n, calls).

(** The inline one, with only an URL. *)
Definition setAuthenticationRequired_url (n : Network T) (url : list Z) : outcome (Network T * list Call) :=
  let c := _config n in
  let s := mkSSO true 0 (authenticationURL (sso c)) (authenticationExpiryTime (sso c)) (issuerURL (sso c)) (centralAuthURL (sso c)) (ssoNonce (sso c))
             (ssoState (sso c)) (ssoClientID (sso c)) (ssoProvider (sso c)) in
  let n := set_authenticationURL (set_config (setFailure n NETCONF_FAILURE_AUTHENTICATION_REQUIRED) (set_sso c s)) url in
  calls ← _sendUpdateEvent n; Ok (n, calls).

(** The dictionary that is saved; exceptions are ignored. *)
Definition save_config (n : Network T) (nconf : NetworkConfig) : outcome (list Call) :=
  match toDictionary nconf cm_tmp (Dictionary_new CONFIG_ROOM) with
  | Ok (d, true) => Ok [StatePut (_id n) (take (Z.to_nat (sizeBytes d)) d)]
  | Undef => Undef
  | _ => Ok []
  end.

(** 0: not for this node or network; 1: what it already has; 2: adopted. *)
Definition setConfiguration (n : Network T) (nconf : NetworkConfig) (saveToDisk : bool) : outcome (Network T * list Call * Z) :=
  if _destroyed n then Ok (n, [], 0)
  else if negb (issuedTo nconf =? self) || negb (networkId nconf =? _id n) then Ok (n, [], 0)
  else if same_object (_config n) nconf then Ok (n, [], 1)
  else
    let old := _portInitialized n in
    let n := set_portInitialized (setFailure (set_lastConfigUpdate (set_config n nconf) now) NETCONF_FAILURE_NONE) true in
    ec ← _externalConfig n;
    let n := set_portError n (port_result (port_op old) ec) in
    let n := set_authenticationURL n (authenticationURL (sso nconf)) in
    saved ← (if saveToDisk then save_config n nconf else Ok []);
    Ok (n, PortCall (port_op old) (_id n) ec :: saved, 2).

(** ** handleConfigChunk *)

(** [chunkId]: the first 16 bytes of the signature, folded into 64 bits. *)
Definition chunk_id (sig : list Z) : Z := be_int (rev (zip_with Z.lxor (take 8 sig) (take 8 (drop 8 sig)))).

(** The loop over [haveChunkIds]. *)
Definition have_chunk (c : _IncomingConfigChunk) (cid : Z) : outcome bool :=
  if existsb (Z.eqb cid) (take (Z.to_nat (haveChunks c)) (haveChunkIds c)) then Ok true
  else if zlen (haveChunkIds c) <? haveChunks c then Undef else Ok false.

(** The slot of the update or else the oldest one, from slot [i] on; [best] is the oldest so far. [None] for a chunk that is there already. *)
Fixpoint find_slot (u cid : Z) (l : list _IncomingConfigChunk) (i : nat) (best : option (nat * Z)) : outcome (option nat) :=
  match l with
  | [] => match best with Some (j, _) => Ok (Some j) | None => Undef end
  | c :: l =>
      if updateId c =? u then dup ← have_chunk c cid; Ok (if (dup : bool) then None else Some i)
      else if match best with None => true | Some (_, t) => ts c <? t end then find_slot u cid l (S i) (Some (i, ts c))
      else find_slot u cid l (S i) best
  end.
(** The loop of the legacy branch. *)
Fixpoint oldest_slot (l : list _IncomingConfigChunk) (i : nat) (best : option (nat * Z)) : outcome nat :=
  match l with
  | [] => match best with Some (j, _) => Ok j | None => Undef end
  | c :: l =>
      if match best with None => true | Some (_, t) => ts c <? t end then oldest_slot l (S i) (Some (i, ts c)) else oldest_slot l (S i) best
  end.

(** [++c->ts], and an older update in the slot is dropped. *)
Definition open_slot (c : _IncomingConfigChunk) (u : Z) : _IncomingConfigChunk :=
  if updateId c =? u then mkChunks (u64 (ts c + 1)) u (haveChunkIds c) (haveChunks c) (haveBytes c) (chunk_data c)
  else mkChunks (u64 (ts c + 1)) u (haveChunkIds c) 0 0 (chunk_data c).
(** The chunk is written into its slot; true when the update is complete. *)
Definition store_chunk (c : _IncomingConfigChunk) (u cid total idx : Z) (bytes : list Z) : outcome (_IncomingConfigChunk * bool) :=
  let c := open_slot c u in
  if ZT_NETWORK_MAX_UPDATE_CHUNKS <=? haveChunks c then Ok (c, false)
  else
    ids ← mem_write (haveChunkIds c) (haveChunks c) [cid];
    d ← mem_write (chunk_data c) idx bytes;
    let have := u32 (haveBytes c + zlen bytes) in
    d ← (if have =? total then mem_write d have [0] else Ok d);
    Ok (mkChunks (ts c) (updateId c) ids (haveChunks c + 1) have d, have =? total).

(** From [++c->ts] on. *)
Definition receive_chunk (n : Network T) (i : nat) (u cid total idx : Z) (bytes : list Z) : outcome (Network T * list Call * Z) :=
  match _incomingConfigChunks n !! i with
  | None => Undef
  | Some c =>
      '(c, complete) ← store_chunk c u cid total idx bytes;
      let n := set_incoming n (<[i := c]> (_incomingConfigChunks n)) in
      if (complete : bool) then
        match fromDictionary cm_stack (chunk_data c) cm_tmp with
        | Ok (Some nc) => '(n, calls, _) ← setConfiguration n nc true; Ok (n, calls, u)
        | Undef => Undef
        | _ => Ok (n, [], 0)
        end
      else Ok (n, [], 0)
  end.

Section Chunks.
Context `{Crypto} `{Env} `{PacketSource}.

(** A verified chunk is passed on to the members [l]. *)
Fixpoint flood (bytes : list Z) (ap : sends) (l : list Z) : outcome sends :=
  match l with
  | [] => Ok ap
  | a :: l =>
      b ← Packet.Packet (new_mem (length ap)) (new_iv (length ap)) a self Packet.VERB_NETWORK_CONFIG;
      b ← append b bytes;
      flood bytes (ap ++ [(a, b)]) l
  end.

Definition handleConfigChunk (n : Network T) (packetId source : Z) (chunk : Buffer) (start : Z) : outcome (Network T * sends * list Call * Z) :=
  let nothing := Ok (n, [], [], 0) in
  if _destroyed n then nothing else
  let ptr := start + 8 in
  chunkLen ← at_ 2 chunk ptr; let ptr := ptr + 2 in
  chunkData ← field chunk ptr chunkLen; let ptr := ptr + chunkLen in
  if ptr <? size chunk then
    fl ← index chunk ptr; let ptr := ptr + 1 in
    configUpdateId ← at_ 8 chunk ptr; let ptr := ptr + 8 in
    totalLength ← at_ 4 chunk ptr; let ptr := ptr + 4 in
    chunkIndex ← at_ 4 chunk ptr; let ptr := ptr + 4 in
    if (totalLength <? u32 (chunkIndex + chunkLen)) || (ZT_NETWORKCONFIG_DICT_CAPACITY <=? totalLength) then nothing else
    ty ← index chunk ptr;
    is_sig ← (if ty =? 1 then l ← at_ 2 chunk (ptr + 1); Ok (l =? ZT_ECC_SIGNATURE_LEN) else Ok false);
    if negb is_sig then nothing else
    sig ← field chunk (ptr + 3) ZT_ECC_SIGNATURE_LEN;
    slot ← find_slot configUpdateId (chunk_id sig) (_incomingConfigChunks n) 0 None;
    match slot with
    | None => nothing
    | Some i =>
        let controllerId := getIdentity (controller n) in
        if negb (identity_bool controllerId) then nothing else
        msg ← field chunk start (ptr - start);
        if negb (verify_sized controllerId msg sig ZT_ECC_SIGNATURE_LEN) then nothing else
        ap ← (if negb (Z.land fl 0x01 =? 0) then
                bytes ← mem_read (_b chunk) start (size chunk - start);
                flood bytes [] (List.filter (fun a => negb (a =? source) && negb (a =? controller n)) (tab_entries (_memberships n)).*1)
              else Ok []);
        '(n, calls, r) ← receive_chunk n i configUpdateId (chunk_id sig) totalLength chunkIndex chunkData;
        Ok (n, ap, calls, r)
    end
  else if (source =? controller n) || (source =? 0) then
    if ZT_NETWORKCONFIG_DICT_CAPACITY <=? chunkLen then nothing else
    i ← oldest_slot (_incomingConfigChunks n) 0 None;
    '(n, calls, r) ← receive_chunk n i packetId packetId chunkLen 0 chunkData;
    Ok (n, [], calls, r)
  else nothing.

(** ** ncSendConfig *)

Definition CHUNK_ROOM : Z := Packet.ZT_PROTO_MAX_PACKET_LENGTH - (Packet.ZT_PACKET_IDX_PAYLOAD + 256).

(** The signed part of a chunk of [d]. *)
Definition append_chunk (b : Buffer) (nwid u total : Z) (d : list Z) (idx len : Z) : outcome Buffer :=
  b ← append_int 8 b nwid;
  b ← append_int 2 b len;
  bytes ← mem_read d idx len;
  b ← append b bytes;
  b ← append_int 1 b 0;
  b ← append_int 8 b u;
  b ← append_int 4 b total;
  append_int 4 b idx.
(** The packet with it and its signature. *)
Definition chunk_packet (id : Identity) (nwid requestPacketId dest u total : Z) (d : list Z) (k : nat) (idx len : Z) : outcome Buffer :=
  b ← Packet.Packet (new_mem k) (new_iv k) dest self (if requestPacketId =? 0 then Packet.VERB_NETWORK_CONFIG else Packet.VERB_OK);
  b ← (if requestPacketId =? 0 then Ok b
       else b ← append_int 1 b Packet.VERB_NETWORK_CONFIG_REQUEST; append_int 8 b requestPacketId);
  let sigStart := size b in
  b ← append_chunk b nwid u total d idx len;
  msg ← mem_read (_b b) sigStart (size b - sigStart);
  sig ← Identity.sign id msg;
  append_signature b sig.

Fixpoint send_chunks `{PacketCrypto} (fuel : nat) (id : Identity) (nwid requestPacketId dest u total : Z) (d : list Z) (idx : Z) (ap : sends) : outcome sends :=
  if idx <? total then
    match fuel with
    | O => Undef
    | S fuel =>
        let len := Z.min (total - idx) CHUNK_ROOM in
        b ← chunk_packet id nwid requestPacketId dest u total d (length ap) idx len;
        '(b, _) ← Armor.compress b;
        send_chunks fuel id nwid requestPacketId dest u total d (idx + len) (ap ++ [(dest, b)])
    end
  else Ok ap.

(** [auth]: _localControllerAuthorizations; [n]: the network, if this node is a member; [rnd] is the random update ID. *)
Definition ncSendConfig `{PacketCrypto} (auth : gmap (Z * Z) Z) (n : option (Network T)) (id : Identity) (nwid requestPacketId dest : Z) (nc : NetworkConfig) (rnd : Z) :
  outcome (gmap (Z * Z) Z * option (Network T) * list Call * sends) :=
  let auth := <[(nwid, dest) := now]> auth in
  if dest =? self then
    match n with
    | None => Ok (auth, None, [], [])
    | Some n => '(n, calls, _) ← setConfiguration n nc true; Ok (auth, Some n, calls, [])
    end
  else
    '(d, ok) ← toDictionary nc cm_tmp (Dictionary_new CONFIG_ROOM);
    if (ok : bool) then
      let u := if rnd =? 0 then 1 else rnd in
      let total := sizeBytes d in
      ap ← send_chunks (S (Z.to_nat total)) id nwid requestPacketId dest u total d 0 [];
      Ok (auth, n, [], ap)
    else Ok (auth, n, [], []).
End Chunks.
End Update.

(** ** Slots *)

Record slot_ok (c : _IncomingConfigChunk) : Prop := {
  slot_ids : length (haveChunkIds c) = Z.to_nat ZT_NETWORK_MAX_UPDATE_CHUNKS;
  slot_chunks : 0 <= haveChunks c <= ZT_NETWORK_MAX_UPDATE_CHUNKS;
  slot_bytes : rng 32 (haveBytes c);
  slot_data : length (chunk_data c) = CONFIG_ROOM;
  slot_data_bytes : bytes_ok (chunk_data c) }.

Lemma open_slot_ok c u : slot_ok c -> slot_ok (open_slot c u).
Proof. intros [? ? ? ? ?]. unfold open_slot. destruct (updateId c =? u); split; cbn; unfold ZT_NETWORK_MAX_UPDATE_CHUNKS, ZT_NETWORKCONFIG_DICT_CAPACITY, rng in *; (done || lia). Qed.

Lemma zlen_slot_ids c : slot_ok c -> zlen (haveChunkIds c) = ZT_NETWORK_MAX_UPDATE_CHUNKS.
Proof. intros [E _ _ _ _]. unfold zlen. rewrite E. done. Qed.
Lemma zlen_slot_data c : slot_ok c -> zlen (chunk_data c) = ZT_NETWORKCONFIG_DICT_CAPACITY.
Proof. intros [_ _ _ E _]. unfold zlen. rewrite E. done. Qed.

(** A chunk that ends before the end of the array is stored within it. *)
Lemma store_chunk_ok c u cid total idx bytes : slot_ok c -> bytes_ok bytes -> 0 <= idx -> idx + zlen bytes < ZT_NETWORKCONFIG_DICT_CAPACITY ->
  total < ZT_NETWORKCONFIG_DICT_CAPACITY ->
  exists c' complete, store_chunk c u cid total idx bytes = Ok (c', complete) /\ slot_ok c' /\ (complete = true -> 0 ∈ chunk_data c').
Proof.
  intros Hc Hb Hi Hl Ht. unfold store_chunk. pose proof (open_slot_ok c u Hc) as Ho. generalize dependent (open_slot c u). intros o Ho. clear c Hc. pose proof Ho as [Hids Hn Hh Hd Hdb].
  destruct (Z.leb_spec ZT_NETWORK_MAX_UPDATE_CHUNKS (haveChunks o)); [by eexists _, _|].
  pose proof (zlen_slot_ids o Ho) as Ei. pose proof (zlen_slot_data o Ho) as Ed. pose proof (zlen_nonneg bytes).
  rewrite mem_write1 by lia. cbn [mbind outcome_bind]. destruct (mem_write_spec (chunk_data o) idx bytes Hdb Hb Hi ltac:(lia)) as (d & -> & Hdo & Hdl & _). cbn [mbind outcome_bind].
  set (have := u32 (haveBytes o + zlen bytes)). assert (0 <= have < 2 ^ 32) by (apply wrap_range; lia).
  destruct (Z.eqb_spec have total) as [->|].
  - rewrite mem_write1 by lia. cbn [mbind outcome_bind]. eexists _, _. split; [done|]. split; [split; cbn|].
    + by rewrite length_insert.
    + lia.
    + done.
    + rewrite length_insert. unfold zlen in *. lia.
    + apply Forall_insert; [done|]. by_compute.
    + intros _. cbn. apply list_elem_of_lookup. exists (Z.to_nat total). rewrite list_lookup_insert_eq; [done|]. unfold zlen in *. lia.
  - cbn [mbind outcome_bind]. eexists _, _. split; [done|]. split; [split; cbn|done].
    + by rewrite length_insert.
    + lia.
    + done.
    + unfold zlen in *. lia.
    + done.
Qed.

(** The bounds check of [handleConfigChunk] adds 32-bit integers: a signed chunk at a position near 2^32 passes it and is written outside the array. *)
Lemma chunk_position_wraps c u cid total idx bytes : slot_ok c -> haveChunks (open_slot c u) < ZT_NETWORK_MAX_UPDATE_CHUNKS -> ZT_NETWORKCONFIG_DICT_CAPACITY <= idx ->
  u32 (idx + zlen bytes) <= total < ZT_NETWORKCONFIG_DICT_CAPACITY ->
  (total <? u32 (idx + zlen bytes)) || (ZT_NETWORKCONFIG_DICT_CAPACITY <=? total) = false /\ store_chunk c u cid total idx bytes = Undef.
Proof.
  intros Hc Hn Hi Ht. split; [by rewrite (proj2 (Z.ltb_ge _ _)), (proj2 (Z.leb_gt _ _)) by lia|]. pose proof (open_slot_ok c u Hc) as Ho. unfold store_chunk.
  rewrite (proj2 (Z.leb_gt _ _)) by lia. pose proof (zlen_slot_ids _ Ho). pose proof (zlen_slot_data _ Ho). pose proof (slot_chunks _ Ho). pose proof (zlen_nonneg bytes).
  rewrite mem_write1 by lia. cbn [mbind outcome_bind]. unfold mem_write. rewrite andb_comm. destruct (Z.leb_spec (idx + zlen bytes) (zlen (chunk_data (open_slot c u)))); [|done].
  assert (zlen bytes = 0) as Hz by lia. assert (idx = ZT_NETWORKCONFIG_DICT_CAPACITY) by lia. unfold ZT_NETWORKCONFIG_DICT_CAPACITY in *. rewrite u32_small in Ht by lia. lia.
Qed.

(** ** Whose configurations are adopted *)

Section authentic.
Context {T : Type -> Type} `{Table T} `{Host} `{ConfigMemory} `{StdSort} `{Crypto} `{Env} `{PacketSource}.
Context (self now : Z).

Lemma setConfiguration_for (n : Network T) nc save n' calls r : setConfiguration self now n nc save = Ok (n', calls, r) ->
  n' = n \/ (_config n' = nc /\ issuedTo nc = self /\ networkId nc = _id n /\ r = 2).
Proof.
  unfold setConfiguration. destruct (_destroyed n); [intros [= <- _ _]; by left|].
  destruct (Z.eqb_spec (issuedTo nc) self); cbn [negb orb]; [|intros [= <- _ _]; by left]. destruct (Z.eqb_spec (networkId nc) (_id n)); cbn [negb orb]; [|intros [= <- _ _]; by left].
  destruct (same_object _ _); [intros [= <- _ _]; by left|]. cbv zeta. set (n1 := set_portInitialized _ _). destruct (_externalConfig self n1) as [ec| |]; [|done..]. cbn [mbind outcome_bind].
  match goal with |- context [if save then ?a else ?b] => destruct (if save then a else b) as [saved| |]; [|done..] end. cbn [mbind outcome_bind]. intros [= <- _ <-]. by right.
Qed.

(** What a chunk may change: the slots, and the configuration to one for this node and network. *)
Definition updated (n n' : Network T) : Prop :=
  (exists l, n' = set_incoming n l) \/ (issuedTo (_config n') = self /\ networkId (_config n') = _id n).

Lemma receive_updated (n : Network T) i u cid total idx bytes n' calls r : receive_chunk self now n i u cid total idx bytes = Ok (n', calls, r) -> updated n n'.
Proof.
  unfold receive_chunk. destruct (_ !! i) as [c|]; [|done]. destruct (store_chunk c u cid total idx bytes) as [[c' complete]| |]; [|done..]. cbn [mbind outcome_bind].
  destruct complete; [|intros [= <- _ _]; left; by eexists]. destruct (fromDictionary _ _ _) as [[nc|]| |]; [|intros [= <- _ _]; left; by eexists..|done].
  destruct (setConfiguration self now _ nc true) as [[[n1 cs] r1]| |] eqn:E; [|done..]. cbn [mbind outcome_bind]. intros [= <- _ _].
  destruct (setConfiguration_for _ _ _ _ _ _ E) as [->|(Hc & Hto & Hnw & _)]; [left; by eexists|right]. by rewrite Hc.
Qed.

(** C27. A chunk has no effect at all unless it ends with a signature that verifies with the key of the network's controller over everything before it,
    or is an unsigned one that came from the controller itself or from nobody; and what it changes then is the slots, or the configuration to one
    that is issued to this node for this network. *)
Theorem handleConfigChunk_authentic (n : Network T) packetId source chunk start n' ap calls r :
  handleConfigChunk self now n packetId source chunk start = Ok (n', ap, calls, r) ->
  (n' = n /\ ap = [] /\ calls = [] /\ r = 0) \/
  (updated n n' /\
   ((exists len msg sig, field chunk start len = Ok msg /\ field chunk (start + len + 3) ZT_ECC_SIGNATURE_LEN = Ok sig /\
      identity_bool (getIdentity (controller n)) = true /\ Identity.verify (getIdentity (controller n)) msg sig = true) \/
    (source = controller n \/ source = 0))).
Proof.
  unfold handleConfigChunk. destruct (_destroyed n); [intros [= <- <- <- <-]; by left|]. cbv zeta.
  intros E. inv_ok E. inv_ok E. destruct (_ <? size chunk).
  - do 4 inv_ok E. destruct (_ || _); [injection E as <- <- <- <-; by left|]. do 2 inv_ok E. destruct (negb _); [injection E as <- <- <- <-; by left|].
    inv_ok E. inv_ok E. destruct v8 as [i|]; [|injection E as <- <- <- <-; by left].
    destruct (identity_bool _) eqn:Eid; cbn [negb] in E; [|injection E as <- <- <- <-; by left]. inv_ok E.
    destruct (verify_sized _ _ _ _) eqn:Ev; cbn [negb] in E; [|injection E as <- <- <- <-; by left]. do 2 inv_ok E. destruct v10 as [[n1 cs] r1]. injection E as <- <- <- <-.
    right. split; [by eapply receive_updated|]. left. exists (start + 8 + 2 + v + 1 + 8 + 4 + 4 - start), v8, v7. split; [done|]. split; [|done].
    by replace (start + (start + 8 + 2 + v + 1 + 8 + 4 + 4 - start) + 3) with (start + 8 + 2 + v + 1 + 8 + 4 + 4 + 3) by lia.
  - destruct (Z.eqb_spec source (controller n)), (Z.eqb_spec source 0); cbn [orb] in E; try (injection E as <- <- <- <-; by left).
    all: destruct (_ <=? v); [injection E as <- <- <- <-; by left|]; do 2 inv_ok E; destruct v2 as [[n1 cs] r1]; injection E as <- <- <- <-.
    all: right; split; [by eapply receive_updated|by auto].
Qed.
End authentic.

(** ** Witness *)

(** A host whose port never fails and whose objects always differ in their padding. *)
#[export] Instance toy_host : Host := { port_result _ _ := 0; same_object _ _ := false }.
#[export] Instance toy_host_laws : HostLaws.
Proof. done. Qed.
#[export] Instance toy_config_memory : ConfigMemory := { cm_stack := replicate 128 0; cm_tmp := mkBuffer (replicate CONFIG_ROOM 0) 0 }.
#[export] Instance toy_config_memory_laws : ConfigMemoryLaws.
Proof. split; [by_compute|constructor; by_compute|by_compute]. Qed.

(** The controller of the network sends four bytes that are not a configuration, unsigned. *)
Definition legacy_chunk : Buffer := mkBuffer (replicate 28 0 ++ be_bytes 8 0x89e92ceee5000001 ++ be_bytes 2 4 ++ [97; 61; 98; 10] ++ replicate 10 0) 42.

Lemma handleConfigChunk_authentic_witness :
  let n := Network_new (T := gmap Z) 0 8 0x89e92ceee5000001 in
  exists n' ap calls r, handleConfigChunk (T := gmap Z) (H2 := toy_sort) (H3 := toy_crypto) (H4 := toy_env) 8 5 n 77 0x89e92ceee5 legacy_chunk 28 = Ok (n', ap, calls, r) /\ updated 8 n n'.
Proof.
  intros n. destruct (handleConfigChunk (T := gmap Z) (H2 := toy_sort) (H3 := toy_crypto) (H4 := toy_env) 8 5 n 77 0x89e92ceee5 legacy_chunk 28) as [[[[n' ap] calls] r]| |] eqn:E.
  - exists n', ap, calls, r. split; [reflexivity|]. destruct (handleConfigChunk_authentic (T := gmap Z) (H2 := toy_sort) (H3 := toy_crypto) (H4 := toy_env) 8 5 n 77 0x89e92ceee5 legacy_chunk 28 n' ap calls r E)
      as [(-> & _)|[Hu _]]; [left; by exists (_incomingConfigChunks n)|exact Hu].
  - exfalso. vm_compute in E. discriminate E.
  - exfalso. vm_compute in E. discriminate E.
Defined.
