(* ===== verification/ConfigDelivery.v ===== *)
(** * Delivery of a configuration

    What [ncSendConfig] of a controller sends makes the member adopt the configuration, in whatever order the chunks arrive and
    however often each of them does. *)

From S2P Require Import Prelude Buffer Serial Address InetAddress Dictionary Identity Packet Table Rule Credential Credentials Capability CredentialSet NetworkConfig NetconfDict Membership Filter Network NetworkUpdate.
Import Network.

(** ** A text in pieces *)

Section pieces.
Context (pieces : list (list Z)).

Definition piece (k : nat) : list Z := nth k pieces [].
Definition off (k : nat) : nat := length (concat (take k pieces)).
Definition len (k : nat) : nat := length (piece k).

Lemma off_next k : (k < length pieces)%nat -> off (S k) = (off k + len k)%nat.
Proof.
  intros Hk. unfold off, len, piece. destruct (lookup_lt_is_Some_2 pieces k Hk) as [p Hp]. rewrite (take_S_r _ _ _ Hp), concat_app, length_app.
  cbn [concat]. rewrite app_nil_r. by rewrite (nth_lookup_Some _ _ _ _ Hp).
Qed.

Lemma off_mono j k : (j < k)%nat -> (k <= length pieces)%nat -> (off j + len j <= off k)%nat.
Proof.
  intros Hj Hk. induction k as [|k IH]; [lia|]. rewrite off_next by lia. destruct (decide (j = k)) as [->|]; [lia|]. specialize (IH ltac:(lia) ltac:(lia)). lia.
Qed.

Lemma off_all : off (length pieces) = length (concat pieces).
Proof. unfold off. by rewrite firstn_all. Qed.

(** Piece [k] is where it belongs in the array [d]. *)
Definition placed (d : list Z) (k : nat) : Prop := forall i, (i < len k)%nat -> d !! (off k + i)%nat = piece k !! i.

Lemma placed_all d : (length (concat pieces) <= length d)%nat -> (forall k, (k < length pieces)%nat -> placed d k) -> exists tl, d = concat pieces ++ tl.
Proof.
  intros Hl Hp. exists (drop (length (concat pieces)) d). rewrite <- (take_drop (length (concat pieces)) d) at 1. f_equal.
  assert (forall n, (n <= length pieces)%nat -> take (off n) d = concat (take n pieces)) as Ht.
  { induction n as [|n IH]; intros Hn; [done|]. rewrite off_next by lia. rewrite <- (take_drop (off n) d) at 1.
    destruct (lookup_lt_is_Some_2 pieces n ltac:(lia)) as [p Ep]. rewrite (take_S_r _ _ _ Ep), concat_app. cbn [concat]. rewrite app_nil_r.
    pose proof (off_mono n (S n) ltac:(lia) Hn) as Hm. rewrite off_next in Hm by lia.
    assert (off (S n) <= length d)%nat as Hd.
    { transitivity (off (length pieces)); [|rewrite off_all; done]. destruct (decide (S n = length pieces)) as [->|]; [done|].
      pose proof (off_mono (S n) (length pieces) ltac:(lia) ltac:(lia)). lia. }
    rewrite off_next in Hd by lia. assert (length (take (off n) d) = off n) as El by (rewrite length_take; lia).
    rewrite take_app_ge by lia. rewrite El. f_equal; [by apply IH; lia|]. replace (off n + len n - off n)%nat with (len n) by lia.
    specialize (Hp n ltac:(lia)). unfold placed, len, piece in *. rewrite (nth_lookup_Some _ _ _ _ Ep) in *.
    apply list_eq. intros i. destruct (decide (i < length p)%nat).
    - rewrite lookup_take_lt, lookup_drop by done. by apply Hp.
    - rewrite lookup_take_ge, (lookup_ge_None_2 p) by lia. done. }
  rewrite <- off_all. rewrite Ht by done. by rewrite firstn_all.
Qed.
End pieces.

Lemma mem_written_at {A} (m : list A) o bs m' : mem_write m (Z.of_nat o) bs = Ok m' -> length m' = length m /\
  forall i, m' !! i = if decide (o <= i < o + length bs)%nat then bs !! (i - o)%nat else m !! i.
Proof.
  unfold mem_write, zlen. destruct (Z.leb_spec 0 (Z.of_nat o)); [|lia]. cbn [andb]. destruct (Z.leb_spec (Z.of_nat o + Z.of_nat (length bs)) (Z.of_nat (length m))); [|done].
  intros [= <-]. rewrite Nat2Z.id. replace (Z.to_nat (Z.of_nat o + Z.of_nat (length bs))) with (o + length bs)%nat by lia.
  split; [rewrite !length_app, length_take, length_drop; lia|]. intros i. assert (length (take o m) = o) as El by (rewrite length_take; lia). case_decide.
  - rewrite lookup_app_r, El, lookup_app_l by lia. done.
  - destruct (decide (i < o)%nat); [rewrite lookup_app_l, lookup_take_lt by lia; done|].
    rewrite lookup_app_r, El, lookup_app_r, lookup_drop by lia. f_equal. lia.
Qed.

Section pieces.
Context (pieces : list (list Z)).

Lemma placed_written d j d' : (j < length pieces)%nat -> mem_write d (Z.of_nat (off pieces j)) (piece pieces j) = Ok d' ->
  placed pieces d' j /\ forall k, (k < length pieces)%nat -> placed pieces d k -> placed pieces d' k.
Proof.
  intros Hj E. destruct (mem_written_at _ _ _ _ E) as [_ Hl]. assert (placed pieces d' j) as Hpj.
  { intros i Hi. unfold len in Hi. rewrite Hl. case_decide; [|lia]. f_equal. lia. }
  split; [done|]. intros k Hk Hp. destruct (decide (k = j)) as [->|Hn]; [done|]. intros i Hi. rewrite Hl. rewrite decide_False; [by apply Hp|].
  fold (len pieces j). destruct (decide (k < j)%nat).
  - pose proof (off_mono pieces k j ltac:(lia) ltac:(lia)). lia.
  - pose proof (off_mono pieces j k ltac:(lia) ltac:(lia)). lia.
Qed.

Lemma placed_kept d o bs d' k : (length (concat pieces) <= o)%nat -> (k < length pieces)%nat -> mem_write d (Z.of_nat o) bs = Ok d' -> placed pieces d k -> placed pieces d' k.
Proof.
  intros Ho Hk E Hp i Hi. destruct (mem_written_at _ _ _ _ E) as [_ Hl]. rewrite Hl, decide_False; [by apply Hp|].
  destruct (decide (S k = length pieces)) as [Ek|].
  - pose proof (off_next pieces k Hk) as Hn. rewrite Ek, off_all in Hn. lia.
  - pose proof (off_mono pieces k (length pieces) ltac:(lia) ltac:(lia)) as Hn. rewrite off_all in Hn. lia.
Qed.

(** ** Which pieces have arrived *)

(** [S]: the pieces that have arrived, in order. *)
Definition arrived (S : list nat) : Prop := NoDup S /\ Forall (fun k => (k < length pieces)%nat) S.
Definition bytes_of (S : list nat) : nat := sum_list_with (len pieces) S.

#[local] Instance bytes_of_perm : Proper (Permutation ==> eq) bytes_of.
Proof. intros l l' Hp. unfold bytes_of. induction Hp; cbn; lia. Qed.

Lemma bytes_of_all : bytes_of (seq 0 (length pieces)) = length (concat pieces).
Proof.
  rewrite <- off_all. assert (forall n, (n <= length pieces)%nat -> bytes_of (seq 0 n) = off pieces n) as Hn; [|by apply Hn].
  induction n as [|n IH]; intros Hn; [done|]. rewrite seq_S, off_next by lia. unfold bytes_of in *. rewrite sum_list_with_app, IH by lia. cbn. lia.
Qed.

Lemma arrived_rest S : arrived S -> exists R, seq 0 (length pieces) ≡ₚ S ++ R.
Proof.
  intros [Hn Hf]. apply submseteq_Permutation, NoDup_submseteq; [done|]. intros x Hx. rewrite list.Forall_forall in Hf. apply elem_of_seq. specialize (Hf x Hx). lia.
Qed.

Lemma arrived_bound S : arrived S -> (length S <= length pieces)%nat /\ (bytes_of S <= length (concat pieces))%nat.
Proof.
  intros HS. destruct (arrived_rest S HS) as [R HR]. split.
  - apply Permutation_length in HR. rewrite length_seq, length_app in HR. lia.
  - rewrite <- bytes_of_all, HR. unfold bytes_of. rewrite sum_list_with_app. lia.
Qed.

Definition all_there (S : list nat) : Prop := Forall (fun k => k ∈ S) (seq 0 (length pieces)).

Lemma all_there_iff S : all_there S <-> forall k, (k < length pieces)%nat -> k ∈ S.
Proof.
  unfold all_there. rewrite list.Forall_forall. split; intros Hx k Hk.
  - apply Hx, elem_of_seq. lia.
  - apply elem_of_seq in Hk. apply Hx. lia.
Qed.

(** When no piece is empty, all bytes are there exactly when all pieces are. *)
Lemma arrived_complete S : Forall (fun p => p <> []) pieces -> arrived S ->
  bytes_of S = length (concat pieces) <-> all_there S.
Proof.
  rewrite all_there_iff.
  intros Hne HS. destruct (arrived_rest S HS) as [R HR]. rewrite <- bytes_of_all, HR. unfold bytes_of. rewrite sum_list_with_app. split.
  - intros Hz k Hk. destruct R as [|r R].
    + rewrite app_nil_r in HR. rewrite <- HR. apply elem_of_seq. lia.
    + exfalso. cbn in Hz. assert (r ∈ seq 0 (length pieces)) as Hr by (rewrite HR; apply elem_of_app; right; left).
      apply elem_of_seq in Hr. assert (0 < len pieces r)%nat; [|lia]. unfold len, piece. rewrite list.Forall_forall in Hne.
      destruct (lookup_lt_is_Some_2 pieces r ltac:(lia)) as [p Ep]. rewrite (nth_lookup_Some _ _ _ _ Ep). specialize (Hne p (list_elem_of_lookup_2 _ _ _ Ep)).
      destruct p; [done|cbn; lia].
  - intros Hall. destruct R as [|r R]; [cbn; lia|]. exfalso. assert (r ∈ seq 0 (length pieces)) as Hr by (rewrite HR; apply elem_of_app; right; left).
    apply elem_of_seq in Hr. pose proof (Hall r ltac:(lia)) as Hin. pose proof (NoDup_seq 0 (length pieces)) as Hd. rewrite HR in Hd.
    apply list.NoDup_app in Hd as (_ & Hx & _). apply (Hx r Hin). left.
Qed.
End pieces.

(** ** The slot of an update *)

Section slot.
Context (pieces : list (list Z)) (cid : nat -> Z) (u : Z).
Abbreviation count := (length pieces).
Abbreviation total := (length (concat pieces)).
Context (Hcount : Z.of_nat count <= ZT_NETWORK_MAX_UPDATE_CHUNKS) (Htotal : Z.of_nat total < ZT_NETWORKCONFIG_DICT_CAPACITY).
Context (Hne : Forall (fun p => p <> []) pieces) (Hbytes : Forall bytes_ok pieces).
Context (Hcid : forall j k, (j < count)%nat -> (k < count)%nat -> cid j = cid k -> j = k).

Record progress (S : list nat) (c : _IncomingConfigChunk) : Prop := {
  pr_slot : slot_ok c;
  pr_update : updateId c = u;
  pr_count : haveChunks c = zlen S;
  pr_ids : take (length S) (haveChunkIds c) = cid <$> S;
  pr_bytes : haveBytes c = Z.of_nat (bytes_of pieces S);
  pr_placed : forall k, k ∈ S -> placed pieces (chunk_data c) k;
  pr_end : S <> [] -> bytes_of pieces S = total -> chunk_data c !! total = Some 0 }.

Definition slot_progress (S : list nat) (c : _IncomingConfigChunk) : Prop :=
  progress S c \/ (S = [] /\ slot_ok c /\ updateId c <> u).

Lemma open_progress S c : slot_progress S c -> progress S (open_slot c u).
Proof.
  unfold open_slot. intros [[Hs Hu Hc Hi Hb Hp He] | (-> & Hs & Hu)].
  - rewrite Hu, Z.eqb_refl. assert (slot_ok (open_slot c u)) as Ho by (by apply open_slot_ok). unfold open_slot in Ho. rewrite Hu, Z.eqb_refl in Ho. split; cbn; done.
  - assert (slot_ok (open_slot c u)) as Ho by (by apply open_slot_ok). unfold open_slot in Ho.
    rewrite (proj2 (Z.eqb_neq _ _) Hu) in *. split; cbn; try done. by intros k ?%elem_of_nil.
Qed.

Lemma have_chunk_progress S c k : progress S c -> arrived pieces S -> (k < count)%nat -> have_chunk c (cid k) = Ok (bool_decide (k ∈ S)).
Proof.
  intros [Hs Hu Hc Hi Hb Hp He] [Hnd Hf] Hk. unfold have_chunk. rewrite Hc. unfold zlen at 1. rewrite Nat2Z.id, Hi.
  assert (existsb (Z.eqb (cid k)) (cid <$> S) = bool_decide (k ∈ S)) as ->.
  { rewrite list.Forall_forall in Hf. apply eq_true_iff_eq. rewrite existsb_exists, bool_decide_eq_true. split.
    - intros (x & Hx & E%Z.eqb_eq). apply list_elem_of_In, list_elem_of_fmap in Hx as (j & -> & Hj). by rewrite (Hcid k j Hk (Hf j Hj) E).
    - intros Hj. exists (cid k). split; [|apply Z.eqb_refl]. apply list_elem_of_In, list_elem_of_fmap. by exists k. }
  case_bool_decide; [done|]. rewrite (proj2 (Z.ltb_ge _ _)); [done|]. pose proof (slot_chunks c Hs). rewrite zlen_slot_ids by done. lia.
Qed.

Lemma arrived_next S k : arrived pieces S -> (k < count)%nat -> k ∉ S -> arrived pieces (S ++ [k]).
Proof.
  intros [Hn Hf] Hk HkS. split; [|apply list.Forall_app; split; [done|by constructor]]. apply list.NoDup_app. split_and!; [done| |apply NoDup_singleton].
  by intros x Hx ->%list_elem_of_singleton.
Qed.

Lemma bytes_of_next S k : bytes_of pieces (S ++ [k]) = (bytes_of pieces S + len pieces k)%nat.
Proof. unfold bytes_of. rewrite sum_list_with_app. cbn. lia. Qed.

Lemma piece_end k : (k < count)%nat -> (off pieces k + len pieces k <= total)%nat.
Proof.
  intros Hk. destruct (decide (Datatypes.S k = count)) as [Ek|].
  - pose proof (off_next pieces k Hk) as Hx. rewrite Ek, off_all in Hx. lia.
  - pose proof (off_mono pieces k count ltac:(lia) ltac:(lia)) as Hx. rewrite off_all in Hx. lia.
Qed.

Lemma piece_bytes k : (k < count)%nat -> bytes_ok (piece pieces k).
Proof.
  intros Hk. unfold piece. destruct (lookup_lt_is_Some_2 pieces k Hk) as [p Ep]. rewrite (nth_lookup_Some _ _ _ _ Ep). by eapply list.Forall_lookup_1 in Hbytes.
Qed.

Lemma progress_next S o k d : progress S o -> arrived pieces (S ++ [k]) -> length d = CONFIG_ROOM -> bytes_ok d -> (forall j, j ∈ S ++ [k] -> placed pieces d j) ->
  (bytes_of pieces (S ++ [k]) = total -> d !! total = Some 0) ->
  progress (S ++ [k]) (mkChunks (ts o) (updateId o) (<[Z.to_nat (haveChunks o) := cid k]> (haveChunkIds o)) (haveChunks o + 1) (Z.of_nat (bytes_of pieces (S ++ [k]))) d).
Proof.
  intros [Hs Hu Hc Hi Hb Hp He] HS' Hdl Hdb Hpl Hend. destruct (arrived_bound pieces _ HS') as [HlS HbS]. rewrite length_app in HlS. cbn [length] in HlS.
  pose proof (slot_ids _ Hs) as Hids. assert (haveChunks o = Z.of_nat (length S)) as Hc' by done. split; cbn [haveChunkIds haveChunks haveBytes chunk_data updateId]; try done.
  - split; cbn [haveChunkIds haveChunks haveBytes chunk_data]; [by rewrite length_insert|lia|unfold rng, ZT_NETWORKCONFIG_DICT_CAPACITY in *; lia|done|done].
  - rewrite zlen_app, Hc. done.
  - rewrite length_app. cbn [length]. rewrite Nat.add_1_r. assert ((length S < length (haveChunkIds o))%nat) as Hlt by (rewrite Hids; lia).
    rewrite (take_S_r _ _ (cid k)) by (rewrite Hc'; rewrite Nat2Z.id; by apply list_lookup_insert_eq).
    rewrite Hc', Nat2Z.id, take_insert_le, Hi by done. by rewrite fmap_app.
Qed.

Lemma store_progress S c k : slot_progress S c -> arrived pieces S -> (k < count)%nat -> k ∉ S ->
  exists c', store_chunk c u (cid k) (Z.of_nat total) (Z.of_nat (off pieces k)) (piece pieces k) =
    Ok (c', bool_decide (all_there pieces (S ++ [k]))) /\ progress (S ++ [k]) c'.
Proof.
  intros Hp HS Hk HkS. apply open_progress in Hp. pose proof (arrived_next S k HS Hk HkS) as HS'. unfold store_chunk. generalize dependent (open_slot c u). intros o Hpr.
  pose proof Hpr as [Hs Hu Hc Hi Hb Hp He]. destruct (arrived_bound pieces _ HS') as [HlS HbS]. rewrite length_app in HlS. cbn [length] in HlS.
  pose proof (zlen_slot_ids _ Hs) as Ei. pose proof (zlen_slot_data _ Hs) as Ed. pose proof (piece_end k Hk) as Hoff.
  rewrite (proj2 (Z.leb_gt _ _)) by (rewrite Hc; unfold zlen; lia). rewrite mem_write1 by (rewrite Hc; unfold zlen in *; lia). cbn [mbind outcome_bind].
  assert (zlen (piece pieces k) = Z.of_nat (len pieces k)) as El by done.
  destruct (mem_write_spec (chunk_data o) (Z.of_nat (off pieces k)) (piece pieces k) (slot_data_bytes _ Hs) (piece_bytes k Hk) ltac:(lia) ltac:(lia)) as (d & Ew & Hdb & _).
  rewrite Ew. cbn [mbind outcome_bind]. destruct (placed_written pieces _ k d Hk Ew) as [Hpk Hkeep]. destruct (mem_written_at _ _ _ _ Ew) as [Hdl _].
  rewrite Hb, El, u32_small by (pose proof (bytes_of_next S k); unfold ZT_NETWORKCONFIG_DICT_CAPACITY in *; lia). rewrite <- Nat2Z.inj_add, <- bytes_of_next.
  assert ((Z.of_nat (bytes_of pieces (S ++ [k])) =? Z.of_nat total) = bool_decide (all_there pieces (S ++ [k]))) as ->.
  { apply eq_true_iff_eq. rewrite Z.eqb_eq, bool_decide_eq_true, <- (arrived_complete pieces (S ++ [k]) Hne HS'). lia. }
  assert (forall j, j ∈ S ++ [k] -> placed pieces d j) as Hall.
  { intros j [Hj | ->%list_elem_of_singleton]%elem_of_app; [|done]. destruct HS as [_ Hf]. rewrite list.Forall_forall in Hf. apply Hkeep; [by apply Hf|by apply Hp]. }
  pose proof (slot_data _ Hs). case_bool_decide as Hth.
  - apply (arrived_complete pieces _ Hne HS') in Hth. rewrite mem_write1 by (unfold zlen, ZT_NETWORKCONFIG_DICT_CAPACITY in *; lia). cbn [mbind outcome_bind]. eexists; split; [done|].
    apply progress_next; [done|done|rewrite length_insert; lia|apply Forall_insert; [done|by_compute]| |].
    + intros j Hj. apply (placed_kept pieces d total [0] _ j); [done| | |by apply Hall].
      * destruct HS' as [_ Hf]. rewrite list.Forall_forall in Hf. by apply Hf.
      * rewrite mem_write1 by (unfold zlen, ZT_NETWORKCONFIG_DICT_CAPACITY in *; lia). by rewrite Hth.
    + intros _. rewrite Hth, Nat2Z.id. apply list_lookup_insert_eq. unfold zlen, ZT_NETWORKCONFIG_DICT_CAPACITY in *. lia.
  - cbn [mbind outcome_bind]. eexists; split; [done|]. apply progress_next; [done|done|lia|done|done|]. intros Hx%(arrived_complete pieces _ Hne HS'). done.
Qed.

(** The array of a complete update. *)
Lemma progress_complete S c : progress S c -> arrived pieces S -> all_there pieces S -> S <> [] -> exists tl, chunk_data c = concat pieces ++ 0 :: tl.
Proof.
  intros [Hs Hu Hc Hi Hb Hp He] HS Hall Hn. pose proof (proj2 (arrived_complete pieces S Hne HS) Hall) as Ht. specialize (He Hn Ht).
  pose proof (proj1 (all_there_iff pieces S) Hall) as Hin. pose proof (slot_data _ Hs). destruct (placed_all pieces (chunk_data c)) as [tl Etl].
  - unfold CONFIG_ROOM, ZT_NETWORKCONFIG_DICT_CAPACITY in *. lia.
  - intros k Hk. apply Hp. by apply Hin.
  - rewrite Etl in He |- *. rewrite lookup_app_r in He by lia. rewrite Nat.sub_diag in He. destruct tl as [|x tl]; [done|]. cbn in He. injection He as ->. by exists tl.
Qed.
End slot.

(** ** Chunks on the wire *)

(** The signed part of a chunk without flags, and the chunk with its signature. *)
Definition chunk_msg (nwid u total idx : Z) (bytes : list Z) : list Z :=
  be_bytes 8 nwid ++ be_bytes 2 (zlen bytes) ++ bytes ++ be_bytes 1 0 ++ be_bytes 8 u ++ be_bytes 4 total ++ be_bytes 4 idx.
Definition chunk_wire (nwid u total idx : Z) (bytes sig : list Z) : list Z := chunk_msg nwid u total idx bytes ++ sig_enc sig.

Section handle.
Context {T : Type -> Type} `{Table T} `{Host} `{ConfigMemory} `{StdSort} `{Crypto} `{Env} `{PacketSource}.
Context (self now : Z).

(** What [handleConfigChunk] does with such a chunk. *)
Lemma handle_wire (n : Network T) packetId source b start nwid u total idx bytes sig : _destroyed n = false -> buf_ok b -> bytes_ok bytes -> sig_ok sig ->
  zlen bytes < 2 ^ 16 -> rng 64 u -> 0 <= idx -> idx + zlen bytes <= total -> total < ZT_NETWORKCONFIG_DICT_CAPACITY ->
  rest_at b start (chunk_wire nwid u total idx bytes sig) -> identity_bool (getIdentity (controller n)) = true ->
  Identity.verify (getIdentity (controller n)) (chunk_msg nwid u total idx bytes) sig = true ->
  handleConfigChunk self now n packetId source b start =
    (slot ← find_slot u (chunk_id sig) (_incomingConfigChunks n) 0 None;
     match slot with
     | None => Ok (n, [], [], 0)
     | Some i => '(n, calls, r) ← receive_chunk self now n i u (chunk_id sig) total idx bytes; Ok (n, [], calls, r)
     end).
Proof.
  intros Hd Hb Hbytes Hsig Hl Hu Hi Hit Ht Hr Hid Hv. unfold handleConfigChunk. rewrite Hd. cbv zeta. pose proof Hr as Hr0. pose proof (zlen_nonneg bytes).
  unfold chunk_wire, chunk_msg in Hr. rewrite <- !app_assoc in Hr. apply rest_at_next in Hr. rewrite zlen_be_bytes in Hr. change (Z.of_nat 8) with 8 in Hr.
  unfold rng, ZT_NETWORKCONFIG_DICT_CAPACITY in *.
  read_step Hb Hr. rewrite Z.mod_small by (change (2 ^ (8 * Z.of_nat 2)) with 65536; lia). change (Z.of_nat 2) with 2 in Hr. read_step Hb Hr.
  destruct (rest_at_bound b Hb _ _ Hr) as [_ Hlen]. destruct Hsig as [Hsb Hsl]. unfold sig_enc in Hlen. rewrite !zlen_app, !zlen_be_bytes, Hsl in Hlen.
  rewrite (proj2 (Z.ltb_lt _ _)) by (unfold size; lia).
  do 4 read_pos Hb Hr. change (8 * Z.of_nat 8) with 64 in *. change (8 * Z.of_nat 4) with 32 in *. rewrite !Z.mod_small by lia.
  rewrite u32_small by lia. rewrite (proj2 (Z.ltb_ge _ _)), (proj2 (Z.leb_gt _ _)) by lia. cbn [orb].
  unfold sig_enc in Hr. read_pos Hb Hr. change (u8 1 =? 1) with true. cbn match. read_step Hb Hr.
  change (96 mod 2 ^ (8 * Z.of_nat 2) =? ZT_ECC_SIGNATURE_LEN) with true. cbn [negb].
  rewrite <- (app_nil_r sig) in Hr. unfold ZT_ECC_SIGNATURE_LEN. read_pos Hb Hr.
  destruct (find_slot u (chunk_id sig) (_incomingConfigChunks n) 0 None) as [[i|]| |]; cbn [mbind outcome_bind]; [|done..].
  rewrite Hid. cbn [negb]. destruct (field_rest b Hb start (zlen (chunk_msg nwid u total idx bytes)) _ _ Hr0 eq_refl) as [Ef _].
  match goal with |- context [field b start ?q] => replace q with (zlen (chunk_msg nwid u total idx bytes)); [rewrite Ef|] end.
  - cbn [mbind outcome_bind]. unfold verify_sized. change (negb (96 =? ZT_ECC_SIGNATURE_LEN)) with false. cbn match. unfold Identity.verify in Hv. rewrite Hv. done.
  - unfold chunk_msg. rewrite !zlen_app, !zlen_be_bytes. lia.
Qed.
End handle.

(** *** The choice of a slot *)

Lemma find_slot_hit u cid c : forall l i best p, l !! p = Some c -> updateId c = u -> (forall q c', (q < p)%nat -> l !! q = Some c' -> updateId c' <> u) ->
  find_slot u cid l i best = (dup ← have_chunk c cid; Ok (if (dup : bool) then None else Some (i + p)%nat)).
Proof.
  induction l as [|x l IH]; intros i best p Hp Hu Hlt; [done|]. cbn [find_slot]. destruct p as [|p].
  - cbn in Hp. injection Hp as ->. by rewrite Hu, Z.eqb_refl, Nat.add_0_r.
  - assert (updateId x <> u) as Hx by (apply (Hlt 0%nat x); [lia|done]). rewrite (proj2 (Z.eqb_neq _ _) Hx). cbn in Hp.
    assert (forall q c', (q < p)%nat -> l !! q = Some c' -> updateId c' <> u) as Hlt' by (intros q c' Hq Hc'; apply (Hlt (S q) c'); [lia|done]).
    rewrite Nat.add_succ_r, <- Nat.add_succ_l. destruct best as [[j t]|]; [|by apply IH]. by destruct (ts x <? t); apply IH.
Qed.

Lemma find_slot_fresh u cid : forall l i best, Forall (fun c => updateId c <> u) l -> (best = None -> l <> []) ->
  exists j, find_slot u cid l i best = Ok (Some j) /\ ((i <= j < i + length l)%nat \/ exists t, best = Some (j, t)).
Proof.
  induction l as [|x l IH]; intros i best Hl Hne; cbn [find_slot].
  - destruct best as [[j t]|]; [|by destruct Hne]. exists j. split; [done|]. right. by eexists.
  - apply list.Forall_cons in Hl as [Hx Hl]. rewrite (proj2 (Z.eqb_neq _ _) Hx). cbn [length].
    set (better := match best with None => true | Some (_, t) => ts x <? t end). destruct better eqn:Eb.
    + destruct (IH (S i) (Some (i, ts x)) Hl ltac:(done)) as (j & -> & Hj). exists j. split; [done|]. destruct Hj as [|(t & [= <- <-])]; left; lia.
    + destruct (IH (S i) best Hl) as (j & -> & Hj); [by subst better; destruct best|]. exists j. split; [done|]. destruct Hj as [|]; [left; lia|by right].
Qed.

(** *** Delivery *)

Section delivery.
Context {T : Type -> Type} `{Table T} `{HostLaws} `{ConfigMemory} `{StdSort} `{Crypto} `{Env} `{PacketSource}.
Context (self now nwid u : Z) (pieces sigs : list (list Z)) (nc : NetworkConfig).
Abbreviation count := (length pieces).
Abbreviation total := (length (concat pieces)).
Context (Hcount : Z.of_nat count <= ZT_NETWORK_MAX_UPDATE_CHUNKS) (Htotal : 0 < Z.of_nat total < ZT_NETWORKCONFIG_DICT_CAPACITY).
Context (Hne : Forall (fun p => p <> []) pieces) (Hbytes : Forall bytes_ok pieces) (Hu : rng 64 u /\ u <> 0).

Definition sig_of (k : nat) : list Z := nth k sigs [].
Definition cid (k : nat) : Z := chunk_id (sig_of k).
Definition msg_of (k : nat) : list Z := chunk_msg nwid u (Z.of_nat total) (Z.of_nat (off pieces k)) (piece pieces k).
Context (Hsigs : forall k, (k < count)%nat -> sig_ok (sig_of k) /\ Identity.verify (getIdentity (Address.of_int (Z.shiftr nwid 24))) (msg_of k) (sig_of k) = true).
Context (Hctrl : identity_bool (getIdentity (Address.of_int (Z.shiftr nwid 24))) = true).
Context (Hcid : forall j k, (j < count)%nat -> (k < count)%nat -> cid j = cid k -> j = k).

(** The configuration in the text, which is for this node and can be saved. *)
Context (Hparse : forall tl, length (concat pieces ++ 0 :: tl) = CONFIG_ROOM -> fromDictionary cm_stack (concat pieces ++ 0 :: tl) cm_tmp = Ok (Some nc)).
Context (Hfor : issuedTo nc = self /\ networkId nc = nwid) (Hsave : forall n : Network T, _id n = nwid -> exists calls, save_config n nc = Ok calls).

(** A packet: its ID, its source, its buffer and where the chunk starts. *)
Record delivery := mkDelivery { d_id : Z; d_source : Z; d_buffer : Buffer; d_start : Z }.
Definition carries (k : nat) (d : delivery) : Prop := (k < count)%nat /\ buf_ok (d_buffer d) /\
  rest_at (d_buffer d) (d_start d) (chunk_wire nwid u (Z.of_nat total) (Z.of_nat (off pieces k)) (piece pieces k) (sig_of k)).

(** The packets are handled in order; all calls to the host, and the results. *)
Fixpoint deliver (n : Network T) (l : list delivery) : outcome (Network T * list Call * list Z) :=
  match l with
  | [] => Ok (n, [], [])
  | d :: l =>
      '(n, _, calls, r) ← handleConfigChunk self now n (d_id d) (d_source d) (d_buffer d) (d_start d);
      '(n, calls', rs) ← deliver n l;
      Ok (n, calls ++ calls', r :: rs)
  end.

Record member (n : Network T) : Prop := {
  mb_alive : _destroyed n = false; mb_id : _id n = nwid; mb_groups : zlen (_myMulticastGroups n) <= ZT_MAX_MULTICAST_SUBSCRIPTIONS;
  mb_slots : Forall slot_ok (_incomingConfigChunks n) }.

(** The pieces in [S] have arrived. *)
Definition receiving (S : list nat) (n : Network T) : Prop := member n /\ arrived pieces S /\
  ((S = [] /\ _incomingConfigChunks n <> [] /\ Forall (fun c => updateId c <> u) (_incomingConfigChunks n)) \/
   exists i c, _incomingConfigChunks n !! i = Some c /\ progress pieces cid u S c /\
     forall j c', j <> i -> _incomingConfigChunks n !! j = Some c' -> updateId c' <> u).

Lemma handle_carried n k d : member n -> carries k d ->
  handleConfigChunk self now n (d_id d) (d_source d) (d_buffer d) (d_start d) =
    (slot ← find_slot u (cid k) (_incomingConfigChunks n) 0 None;
     match slot with
     | None => Ok (n, [], [], 0)
     | Some i => '(n, calls, r) ← receive_chunk self now n i u (cid k) (Z.of_nat total) (Z.of_nat (off pieces k)) (piece pieces k); Ok (n, [], calls, r)
     end).
Proof.
  intros [Ha Hid Hg Hs] (Hk & Hb & Hr). destruct (Hsigs k Hk) as [Hsok Hv]. pose proof (piece_end pieces k Hk) as He. unfold len in He.
  assert (controller n = Address.of_int (Z.shiftr nwid 24)) as Hc by (unfold controller; by rewrite Hid). unfold ZT_NETWORKCONFIG_DICT_CAPACITY in *.
  apply (handle_wire self now n (d_id d) (d_source d) (d_buffer d) (d_start d) nwid); try done; unfold zlen; try lia.
  - by apply piece_bytes.
  - by destruct Hu.
  - unfold ZT_NETWORKCONFIG_DICT_CAPACITY. lia.
  - by rewrite Hc.
  - by rewrite Hc.
Qed.

(** A piece that is there already changes nothing. *)
Lemma duplicate S n k d : receiving S n -> carries k d -> k ∈ S -> handleConfigChunk self now n (d_id d) (d_source d) (d_buffer d) (d_start d) = Ok (n, [], [], 0).
Proof.
  intros (Hm & Ha & Hs) Hc Hk. rewrite (handle_carried n k d Hm Hc). destruct Hs as [(-> & _ & _)|(i & c & Hi & Hp & Ho)]; [by apply elem_of_nil in Hk|].
  rewrite (find_slot_hit u (cid k) c _ 0 None i Hi (pr_update _ _ _ _ _ Hp)) by (intros q c' Hq; apply Ho; lia).
  destruct Hc as (Hkc & _). rewrite (have_chunk_progress pieces cid u Hcid S c k Hp Ha Hkc). rewrite bool_decide_eq_true_2 by done. done.
Qed.

Lemma picked S n k : receiving S n -> (k < count)%nat -> k ∉ S ->
  exists i c, find_slot u (cid k) (_incomingConfigChunks n) 0 None = Ok (Some i) /\ _incomingConfigChunks n !! i = Some c /\ slot_progress pieces cid u S c /\
    forall j c', j <> i -> _incomingConfigChunks n !! j = Some c' -> updateId c' <> u.
Proof.
  intros (Hm & Ha & [(-> & Hnil & Hf)|(i & c & Hi & Hp & Ho)]) Hk HkS.
  - destruct (find_slot_fresh u (cid k) _ 0 None Hf ltac:(done)) as (j & -> & [Hj|(t & [=])]). destruct (lookup_lt_is_Some_2 (_incomingConfigChunks n) j ltac:(lia)) as [c Hc].
    exists j, c. split; [done|]. split; [done|]. split.
    + right. split; [done|]. split; [|by eapply list.Forall_lookup_1 in Hf]. pose proof (mb_slots n Hm) as Hs. by eapply list.Forall_lookup_1 in Hs.
    + intros j' c' _ Hc'. by eapply list.Forall_lookup_1 in Hf.
  - exists i, c. split; [|split; [done|]; split; [by left|done]].
    rewrite (find_slot_hit u (cid k) c _ 0 None i Hi (pr_update _ _ _ _ _ Hp)) by (intros q c' Hq; apply Ho; lia).
    rewrite (have_chunk_progress pieces cid u Hcid S c k Hp Ha Hk). by rewrite bool_decide_eq_false_2.
Qed.

Lemma setConfiguration_adopts n : member n -> exists n' calls r, setConfiguration self now n nc true = Ok (n', calls, r) /\ _config n' = nc /\ member n' /\
  _incomingConfigChunks n' = _incomingConfigChunks n.
Proof.
  intros Hm. pose proof Hm as [Ha Hid Hg Hs]. destruct Hfor as [Hto Hnw]. unfold setConfiguration. rewrite Ha, Hto, Hnw, Hid, !Z.eqb_refl. cbn [negb orb].
  destruct (same_object (_config n) nc) eqn:Es.
  - exists n, [], 1. split; [done|]. split; [by apply same_object_eq|done].
  - set (n1 := set_portInitialized _ _). unfold _externalConfig. rewrite (proj2 (Z.ltb_ge _ _)) by done. cbv zeta. cbn [mbind outcome_bind].
    match goal with |- context [save_config ?x nc] => destruct (Hsave x Hid) as [calls ->] end. cbn [mbind outcome_bind].
    eexists _, _, _. split; [done|]. split; [done|]. split; [|done]. by split.
Qed.

Lemma received_progress S S' n i c c' : receiving S n -> arrived pieces S' -> _incomingConfigChunks n !! i = Some c -> progress pieces cid u S' c' ->
  (forall j c', j <> i -> _incomingConfigChunks n !! j = Some c' -> updateId c' <> u) -> receiving S' (set_incoming n (<[i := c']> (_incomingConfigChunks n))).
Proof.
  intros (Hm & Ha & _) Ha' Hi Hp Ho. pose proof Hm as [? ? ? Hs]. split; [|split; [done|right]].
  - split; cbn; try done. apply Forall_insert; [done|apply Hp].
  - exists i, c'. cbn [_incomingConfigChunks set_incoming]. split; [apply list_lookup_insert_eq; by apply lookup_lt_Some in Hi|]. split; [done|].
    intros j c1 Hj. rewrite list_lookup_insert_ne by done. by apply Ho.
Qed.

Lemma stored S n k d : receiving S n -> carries k d -> k ∉ S ->
  exists n' calls, handleConfigChunk self now n (d_id d) (d_source d) (d_buffer d) (d_start d) =
      Ok (n', [], calls, if bool_decide (all_there pieces (S ++ [k])) then u else 0) /\
    receiving (S ++ [k]) n' /\ if bool_decide (all_there pieces (S ++ [k])) then _config n' = nc else calls = [].
Proof.
  intros Hr Hc HkS. pose proof Hr as (Hm & Ha & _). pose proof Hc as (Hk & _). destruct (picked S n k Hr Hk HkS) as (i & c & Ef & Hi & Hp & Ho).
  rewrite (handle_carried n k d Hm Hc), Ef. cbn [mbind outcome_bind]. unfold receive_chunk. rewrite Hi.
  destruct (store_progress pieces cid u Hcount ltac:(lia) Hne Hbytes S c k Hp Ha Hk HkS) as (c' & -> & Hp'). cbn [mbind outcome_bind].
  pose proof (arrived_next pieces S k Ha Hk HkS) as Ha'. pose proof (received_progress S (S ++ [k]) n i c c' Hr Ha' Hi Hp' Ho) as Hr'.
  case_bool_decide as Hall; [|by eexists _, _].
  destruct (progress_complete pieces cid u ltac:(lia) Hne _ c' Hp' Ha' Hall ltac:(by destruct S)) as [tl Etl]. rewrite Etl, Hparse by (rewrite <- Etl; exact (slot_data _ (pr_slot _ _ _ _ _ Hp'))).
  destruct Hr' as (Hm' & _ & Hs'). destruct (setConfiguration_adopts _ Hm') as (n' & calls & r & -> & Hcf & Hmm & Hin). cbn [mbind outcome_bind].
  eexists _, _. split; [done|]. split; [|done]. split; [done|]. split; [done|]. rewrite Hin. done.
Qed.

(** Once complete, nothing changes any more. *)
Lemma deliver_done S order l n : receiving S n -> all_there pieces S -> Forall2 carries order l -> deliver n l = Ok (n, [], replicate (length l) 0).
Proof.
  intros Hr Hall Hl. induction Hl as [|k d order l Hc Hl IH]; [done|]. cbn [deliver]. rewrite (duplicate S n k d Hr Hc); [|exact (proj1 (all_there_iff pieces S) Hall k (proj1 Hc))].
  cbn [mbind outcome_bind]. by rewrite IH.
Qed.

Lemma deliver_all : forall l order S n, Forall2 carries order l -> receiving S n -> ~ all_there pieces S -> all_there pieces (S ++ order) ->
  exists n' calls rs, deliver n l = Ok (n', calls, rs) /\ _config n' = nc /\ List.filter (fun r => negb (r =? 0)) rs = [u].
Proof.
  induction l as [|d l IH]; intros order S n Hl Hr Hno Hall; inversion Hl as [|k ? order' ? Hc Hl']; subst; [by rewrite app_nil_r in Hall|].
  cbn [deliver]. destruct (decide (k ∈ S)) as [HkS|HkS].
  - rewrite (duplicate S n k d Hr Hc HkS). cbn [mbind outcome_bind]. destruct (IH order' S n Hl' Hr Hno) as (n' & calls & rs & -> & Hcf & Hu1).
    + rewrite all_there_iff in *. intros j Hj. specialize (Hall j Hj). rewrite elem_of_app, elem_of_cons in Hall. rewrite elem_of_app. naive_solver.
    + cbn [mbind outcome_bind]. by eexists _, _, _.
  - destruct (stored S n k d Hr Hc HkS) as (n1 & calls1 & -> & Hr1 & Hx). cbn [mbind outcome_bind]. case_bool_decide as Hnow.
    + rewrite (deliver_done _ order' l n1 Hr1 Hnow Hl'). cbn [mbind outcome_bind]. eexists _, _, _. split; [done|]. split; [done|]. cbn [List.filter].
      rewrite (proj2 (Z.eqb_neq u 0)) by apply Hu. cbn [negb]. f_equal. clear. by induction (length l).
    + destruct (IH order' (S ++ [k]) n1 Hl' Hr1 Hnow) as (n' & calls & rs & -> & Hcf & Hu1); [by rewrite <- app_assoc|]. cbn [mbind outcome_bind]. by eexists _, _, _.
Qed.
End delivery.

(** ** The sender *)

(** A text in the pieces the sender cuts it into. *)
Fixpoint cut (fuel : nat) (t : list Z) : list (list Z) :=
  match fuel, t with
  | S fuel, _ :: _ => take (Z.to_nat CHUNK_ROOM) t :: cut fuel (drop (Z.to_nat CHUNK_ROOM) t)
  | _, _ => []
  end.

Lemma cut_concat : forall fuel t, (length t <= fuel)%nat -> concat (cut fuel t) = t.
Proof.
  induction fuel as [|fuel IH]; intros t Hl; (destruct t as [|x t]; [done|]); [cbn in Hl; lia|]. cbn [cut concat]. rewrite IH; [by rewrite take_drop|].
  rewrite length_drop. cbn [length] in *. assert (0 < Z.to_nat CHUNK_ROOM)%nat by (by_compute). lia.
Qed.

(** More fuel than characters does not matter. *)
Lemma cut_fuel : forall m n t, (length t <= m)%nat -> (length t <= n)%nat -> cut m t = cut n t.
Proof.
  induction m as [|m IH]; intros n t Hm Hn; (destruct t as [|x t]; [by destruct n|]); [cbn in Hm; lia|]. destruct n as [|n]; [cbn in Hn; lia|].
  cbn [cut]. f_equal. assert (0 < Z.to_nat CHUNK_ROOM)%nat by by_compute. apply IH; rewrite length_drop; cbn [length] in *; lia.
Qed.

Lemma cut_pieces : forall fuel t, bytes_ok t -> Forall (fun p => p <> []) (cut fuel t) /\ Forall bytes_ok (cut fuel t) /\ Forall (fun p => zlen p <= CHUNK_ROOM) (cut fuel t).
Proof.
  induction fuel as [|fuel IH]; intros t Ht; (destruct t as [|x t]; [cbn; split_and!; constructor|]); [cbn; split_and!; constructor|].
  cbn [cut]. destruct (IH (drop (Z.to_nat CHUNK_ROOM) (x :: t))) as (H1 & H2 & H3); [by apply list.Forall_drop|].
  split_and!; (apply list.Forall_cons_2; [|done]).
  - by replace (Z.to_nat CHUNK_ROOM) with (S 9739) by (vm_compute; reflexivity).
  - by apply list.Forall_take.
  - unfold zlen. rewrite length_take. assert (0 <= CHUNK_ROOM) by by_compute. lia.
Qed.

Lemma cut_count : forall k fuel t, zlen t <= Z.of_nat k * CHUNK_ROOM -> (length (cut fuel t) <= k)%nat.
Proof.
  induction k as [|k IH]; intros fuel t Ht; (destruct fuel as [|fuel]; [cbn; lia|]); (destruct t as [|x t]; [cbn; lia|]); [rewrite zlen_cons in Ht; pose proof (zlen_nonneg t); lia|].
  cbn [cut length]. enough (length (cut fuel (drop (Z.to_nat CHUNK_ROOM) (x :: t))) <= k)%nat by lia. apply IH. unfold zlen in *. rewrite length_drop.
  assert (CHUNK_ROOM = 9740) as E by by_compute. rewrite E in *. lia.
Qed.

(** Where a chunk starts in a packet. *)
Definition chunk_start (requestPacketId : Z) : Z := if requestPacketId =? 0 then 28 else 37.

Section sender.
Context `{Crypto} `{PacketSourceLaws} `{PacketCrypto} `{!Lz4Laws}.
Context (self : Z) (id : Identity) (sk : list Z) (nwid req dest u total : Z) (d : list Z).
Context (Hsk : _privateKey id = Some sk) (Hsig : forall m, sig_ok (ecc_sign sk (_publicKey id) m)).

Definition signature (idx : Z) (bytes : list Z) : list Z := ecc_sign sk (_publicKey id) (chunk_msg nwid u total idx bytes).

(** A packet with a chunk, before compression. *)
Definition chunk_in (idx : Z) (bytes : list Z) (b : Buffer) : Prop := buf_ok b /\ rest_at b (chunk_start req) (chunk_wire nwid u total idx bytes (signature idx bytes)).

Definition sigs_of (pieces : list (list Z)) : list (list Z) := imap (fun k p => signature (Z.of_nat (off pieces k)) p) pieces.

Lemma data_read b1 b2 msg : buf_ok b1 -> buf_ok b2 -> data b2 = data b1 ++ msg -> mem_read (_b b2) (size b1) (size b2 - size b1) = Ok msg.
Proof.
  intros Hb1 Hb2 Hd. unfold size. rewrite <- (zlen_data b1 Hb1), <- (zlen_data b2 Hb2), Hd, zlen_app. replace (zlen (data b1) + zlen msg - zlen (data b1)) with (zlen msg) by lia.
  rewrite <- (take_drop (Z.to_nat (_l b2)) (_b b2)). fold (data b2). rewrite Hd, <- app_assoc. apply mem_read_app.
Qed.

Lemma chunk_packet_spec k idx bytes : mem_read d idx (zlen bytes) = Ok bytes -> bytes_ok bytes -> zlen bytes <= CHUNK_ROOM ->
  exists b, chunk_packet self id nwid req dest u total d k idx (zlen bytes) = Ok b /\ chunk_in idx bytes b /\ capacity b = ZT_PROTO_MAX_PACKET_LENGTH /\
    Packet.compressed b = Ok false /\ ZT_PROTO_MIN_PACKET_LENGTH <= size b.
Proof.
  intros Hread Hb Hl. destruct (new_packet_ok k) as (Hm & Hml & Hiv & Hivl). unfold chunk_packet.
  set (v := if req =? 0 then Packet.VERB_NETWORK_CONFIG else Packet.VERB_OK). assert (byte_ok v) as Hv by (unfold v; destruct (req =? 0); by_compute).
  destruct (packet_new _ (new_iv k) dest self v Hm Hml Hiv Hivl Hv) as (b & mac & -> & Hb0 & Hc & Hd & Hmac). cbn [mbind outcome_bind].
  set (pre := if req =? 0 then [] else be_bytes 1 Packet.VERB_NETWORK_CONFIG_REQUEST ++ be_bytes 8 req).
  assert (writes b pre (if req =? 0 then Ok b else b ← append_int 1 b Packet.VERB_NETWORK_CONFIG_REQUEST; append_int 8 b req)) as Hw.
  { unfold pre. destruct (req =? 0); [by apply writes_nil|]. writes_all. }
  assert (_l b = 28) as Hlb by (rewrite <- (zlen_data b Hb0), Hd; unfold header_bytes, zlen; rewrite !length_app, Hivl, Hmac; done).
  assert (zlen pre = if req =? 0 then 0 else 9) as Hpre by (unfold pre; by destruct (req =? 0)).
  destruct (writes_fits _ _ _ Hw) as (b1 & -> & Hb1 & Hd1 & Hc1); [rewrite Hlb, Hc, Hpre; destruct (req =? 0); by_compute|]. cbn [mbind outcome_bind].
  set (msg := chunk_msg nwid u total idx bytes). assert (zlen msg = 27 + zlen bytes) as Hzm by (unfold msg, chunk_msg; rewrite !zlen_app, !zlen_be_bytes; lia).
  assert (CHUNK_ROOM = 9740 /\ ZT_PROTO_MAX_PACKET_LENGTH = 10024) as [Ecr Emp] by (by_compute). rewrite Ecr in Hl. rewrite Emp in *. pose proof (zlen_nonneg bytes).
  assert (_l b1 = 28 + zlen pre) as Hl1 by (rewrite <- (zlen_data b1 Hb1), Hd1, zlen_app, (zlen_data b Hb0), Hlb; done).
  assert (zlen pre <= 9) as Hp9 by (rewrite Hpre; destruct (req =? 0); lia).
  assert (writes b1 msg (append_chunk b1 nwid u total d idx (zlen bytes))) as Hwm.
  { unfold append_chunk, msg, chunk_msg. rewrite Hread. cbn [mbind outcome_bind]. writes_all. }
  destruct (writes_fits _ _ _ Hwm) as (b2 & -> & Hb2 & Hd2 & Hc2); [rewrite Hzm, Hl1, Hc1, Hc; lia|]. cbn [mbind outcome_bind].
  rewrite (data_read b1 b2 msg Hb1 Hb2 Hd2). cbn [mbind outcome_bind]. unfold Identity.sign. rewrite Hsk. cbn [mbind outcome_bind].
  assert (_l b2 = 28 + zlen pre + zlen msg) as Hl2 by (rewrite <- (zlen_data b2 Hb2), Hd2, zlen_app, (zlen_data b1 Hb1), Hl1; done).
  pose proof (append_signature_writes b2 _ (Hsig msg) Hb2) as Hws. pose proof (zlen_sig_enc _ (Hsig msg)) as Hz99.
  destruct (writes_fits _ _ _ Hws) as (b3 & -> & Hb3 & Hd3 & Hc3); [rewrite Hl2, Hzm, Hz99, Hc2, Hc1, Hc; lia|].
  exists b3. assert (data b3 = data b1 ++ chunk_wire nwid u total idx bytes (signature idx bytes)) as Hdata.
  { rewrite Hd3, Hd2, <- app_assoc. done. }
  split; [done|]. split; [split; [done|]|].
  - exists (data b1). split; [done|]. rewrite (zlen_data b1 Hb1), Hl1, Hpre. unfold chunk_start. by destruct (req =? 0).
  - split; [congruence|]. split.
    + unfold Packet.compressed. assert (index b3 ZT_PACKET_IDX_VERB = Ok v) as ->.
      { replace ZT_PACKET_IDX_VERB with (zlen (new_iv k ++ Address.to_bytes dest ++ Address.to_bytes self ++ [0] ++ mac)).
        - apply (index_data b3 Hb3 _ _ (pre ++ chunk_wire nwid u total idx bytes (signature idx bytes))). rewrite Hdata, Hd1, Hd. unfold header_bytes. by rewrite <- !app_assoc.
        - unfold zlen. rewrite !length_app, Hivl, Hmac. done. }
      cbn [mbind outcome_bind]. unfold v. by destruct (req =? 0).
    + unfold size. rewrite <- (zlen_data b3 Hb3), Hdata, zlen_app, (zlen_data b1 Hb1), Hl1. pose proof (zlen_nonneg pre).
      pose proof (zlen_nonneg (chunk_wire nwid u total idx bytes (signature idx bytes))). assert (ZT_PROTO_MIN_PACKET_LENGTH = 28) as -> by by_compute. lia.
Qed.

(** What is sent for the pieces [ps] from position [idx] on. *)
Lemma send_chunks_spec : forall fuel t idx ap pre post, bytes_ok t -> d = pre ++ t ++ post -> zlen pre = idx -> idx + zlen t = total -> (length t < fuel)%nat ->
  exists aps, send_chunks self fuel id nwid req dest u total d idx ap = Ok (ap ++ aps) /\ length aps = length (cut (length t) t) /\
    forall k p, cut (length t) t !! k = Some p -> exists x r, aps !! k = Some x /\ x.1 = dest /\ Armor.uncompress x.2 = Ok (r, true) /\
      chunk_in (idx + Z.of_nat (off (cut (length t) t) k)) p r.
Proof.
  induction fuel as [|fuel IH]; intros t idx ap pre post Hb Hd Hpre Hlen Hf; [lia|]. cbn [send_chunks]. destruct t as [|x t].
  - change (@zlen Z []) with 0 in Hlen. rewrite (proj2 (Z.ltb_ge _ _)) by lia. exists []. rewrite app_nil_r. split; [done|]. split; [done|]. by intros [|k] p Hk.
  - set (t' := x :: t) in *. assert (0 < zlen t') as Ht by (unfold t'; rewrite zlen_cons; pose proof (zlen_nonneg t); lia). rewrite (proj2 (Z.ltb_lt _ _)) by lia.
    assert (CHUNK_ROOM = 9740) as Ecr by by_compute. set (p := take (Z.to_nat CHUNK_ROOM) t'). set (t2 := drop (Z.to_nat CHUNK_ROOM) t').
    assert (t' = p ++ t2) as Et by (symmetry; apply take_drop). assert (zlen p = Z.min (total - idx) CHUNK_ROOM) as Hp by (unfold p, zlen in *; rewrite length_take; lia).
    rewrite <- Hp. assert (bytes_ok p /\ bytes_ok t2) as [Hbp Hbt] by (rewrite Et in Hb; by apply bytes_ok_app in Hb).
    destruct (chunk_packet_spec (length ap) idx p) as (b & -> & Hin & Hc & Hcomp & Hsz); [|done|lia|].
    { rewrite Hd, Et, <- app_assoc, <- Hpre. apply mem_read_app. }
    cbn [mbind outcome_bind]. destruct Hin as [Hbb Hin]. destruct (compress_undone b Hbb Hc Hsz Hcomp) as (c & on & r & -> & Eu & Hdr & Hbr & _). cbn [mbind outcome_bind].
    assert (cut (length t') t' = p :: cut (length t2) t2) as Ecut.
    { unfold t' at 1 2. cbn [cut length]. fold t' p t2. f_equal. apply cut_fuel; unfold t2; rewrite length_drop; unfold t'; cbn [length]; lia. }
    assert (zlen t' = zlen p + zlen t2) as Ez by (rewrite Et at 1; apply zlen_app).
    destruct (IH t2 (idx + zlen p) (ap ++ [(dest, c)]) (pre ++ p) post) as (aps & -> & Hla & Hall); [done| |rewrite zlen_app; lia|lia| |].
    { rewrite Hd, Et. by rewrite <- !app_assoc. }
    { unfold t2. rewrite length_drop. unfold t'. cbn [length]. unfold t' in Hf. cbn [length] in Hf. lia. }
    exists ((dest, c) :: aps). split; [by rewrite <- app_assoc|]. rewrite Ecut. split; [cbn [length]; by rewrite Hla|]. intros [|k] q Hk; cbn in Hk.
    + injection Hk as <-. exists (dest, c), r. split; [done|]. split; [done|]. split; [done|]. change (off _ 0) with 0%nat. rewrite Z.add_0_r. split; [done|].
      destruct Hin as (pr & Hin & Hs). exists pr. split; [congruence|done].
    + destruct (Hall k q Hk) as (y & r' & Hy & Hyd & Hyu & Hyc). exists y, r'. split; [done|]. split; [done|]. split; [done|].
      unfold off in *. cbn [take concat]. rewrite length_app. unfold zlen in Hyc. replace (idx + Z.of_nat (length p + _)) with (idx + Z.of_nat (length p) + Z.of_nat (length (concat (take k (cut (length t2) t2))))) by lia. done.
Qed.
End sender.

(** ** The text of a configuration *)

Definition value_ok (f : list Z * option (list Z)) : Prop := match f.2 with Some v => bytes_ok v | None => True end.

Lemma nonempty_ok k bs : bytes_ok bs -> value_ok (k, nonempty bs).
Proof. by destruct bs. Qed.
Lemma only_ok k c o : (c = true -> value_ok (k, o)) -> value_ok (k, only c o).
Proof. destruct c; cbn; tauto. Qed.

Lemma hexchar_ok : forall m, 0 <= m < 16 -> byte_ok (hexchar m).
Proof. intros m Hm. assert (In m (seqZ 0 16)) as Hin by (apply list_elem_of_In, elem_of_seqZ; lia). cbn in Hin. repeat (destruct Hin as [<-|Hin]; [by_compute|]). done. Qed.
Lemma hexdigits_ok n v : bytes_ok (hexdigits n v).
Proof. induction n as [|n IH]; [constructor|]. cbn [hexdigits]. apply list.Forall_cons_2; [|done].
  destruct (hexdigit_eq v (4 * Z.of_nat n)) as (m & Hm & -> & _); [lia|]. by apply hexchar_ok. Qed.

Lemma signed_text_ok v : bytes_ok (signed_text v).
Proof. unfold signed_text. destruct (0 <=? v); [|apply list.Forall_cons_2; [by_compute|]]; apply hexdigits_ok. Qed.

Lemma escape_bytes v : bytes_ok v -> bytes_ok (escape v).
Proof.
  induction 1 as [|c v Hc Hv IH]; [constructor|]. rewrite escape_cons. apply bytes_ok_app. split; [|done].
  unfold escape1. repeat case_match; try by_compute. by apply list.Forall_singleton.
Qed.

Lemma dict_text_bytes es : Forall (fun e => bytes_ok e.1 /\ bytes_ok e.2) es -> bytes_ok (dict_text es).
Proof.
  intros Hes. assert (forall e, bytes_ok e.1 /\ bytes_ok e.2 -> bytes_ok (entry_text e)) as He.
  { intros e [Hk Hv]. unfold entry_text. apply bytes_ok_app. split; [done|]. apply list.Forall_cons_2; [by_compute|by apply escape_bytes]. }
  induction Hes as [|e es Hx Hes IH]; [constructor|]. destruct es as [|e' es]; [by apply He|].
  change (bytes_ok (entry_text e ++ 10 :: dict_text (e' :: es))). apply bytes_ok_app. split; [by apply He|]. apply list.Forall_cons_2; [by_compute|done].
Qed.

Ltac each := lazymatch goal with |- Forall _ (_ :: _) => apply list.Forall_cons_2; [|each] | |- Forall _ [] => apply list.Forall_nil_2 end.
Ltac value_tac :=
  lazymatch goal with
  | |- value_ok (_, only _ _) => apply only_ok; intros _; value_tac
  | |- value_ok (_, nonempty _) => apply nonempty_ok
  | |- value_ok (_, Some (hexdigits _ _)) => apply hexdigits_ok
  | |- value_ok (_, Some (signed_text _)) => apply signed_text_ok
  | |- value_ok (_, Some (bool_text ?b)) => unfold value_ok; destruct b; by_compute
  | |- value_ok (_, Some _) => unfold value_ok; cbn [snd]; tauto
  end.

Lemma sso_values s : sso_ok s -> Forall value_ok (sso_fields s).
Proof.
  intros [_ [Hu _] _ [Hi _] [Hc _] [Hn _] [Hs _] [Hcl _] [Hp _]]. unfold sso_fields.
  repeat case_match; each; value_tac.
Qed.

Lemma netconf_values nc : netconf_ok nc -> Forall value_ok (netconf_fields nc).
Proof.
  intros [? [_ ?] [_ ?] ? ? ? ? ? ? ? ? [? _] (Hcom & _) (Hcaps & _) (Htags & _) (Hcoos & _) _ (Hroutes & _) (Hips & _) (Hrules & _) (Hd1 & _ & Hd2 & _) Hsso].
  unfold netconf_fields. apply list.Forall_app. split; [|by apply sso_values].
  each; value_tac.
  - by apply COM.com_bytes.
  - eapply bytes_concat; [|exact Hcaps]. intros x [? _]. by apply Capability.capability_bytes.
  - eapply bytes_concat; [|exact Htags]. intros x ?. by apply Tag.tag_bytes.
  - eapply bytes_concat; [|exact Hcoos]. intros x [? _]. by apply COO.coo_bytes.
  - apply (bytes_concat _ (fun _ => True)); [intros x _; apply bytes_ok_be_bytes|by apply list.Forall_true].
  - eapply bytes_concat; [|exact Hroutes]. intros x (? & ? & _). unfold route_enc. rewrite !bytes_ok_app. split_and!; auto using inet_bytes, bytes_ok_be_bytes.
  - eapply bytes_concat; [|exact Hips]. apply inet_bytes.
  - by apply rules_bytes.
  - unfold dns_enc. apply bytes_ok_app. split; [done|]. eapply bytes_concat; [|exact Hd2]. apply inet_bytes.
Qed.

Lemma netconf_keys_bytes nc : Forall (fun f => bytes_ok f.1) (netconf_fields nc).
Proof.
  unfold netconf_fields. apply list.Forall_app. split; [|unfold sso_fields; repeat case_match]; each; by_compute.
Qed.

Lemma netconf_text_bytes nc : netconf_ok nc -> bytes_ok (dict_text (netconf_entries nc)).
Proof.
  intros Hok. apply dict_text_bytes. unfold netconf_entries. pose proof (netconf_values nc Hok) as Hv. pose proof (netconf_keys_bytes nc) as Hk.
  induction Hv as [|[k o] fs Hf Hv IH]; [constructor|]. apply list.Forall_cons in Hk as [Hk1 Hk]. cbn [fmap list_fmap concat]. apply list.Forall_app. split; [|by apply IH].
  unfold field_entries. cbn [fst snd]. destruct o; [by apply list.Forall_singleton|constructor].
Qed.

Lemma netconf_text_nonempty nc : 0 < zlen (dict_text (netconf_entries nc)).
Proof.
  assert (exists es, netconf_entries nc = (KEY_VERSION, hexdigits 16 ZT_NETWORKCONFIG_VERSION) :: es) as [es ->] by (eexists; reflexivity).
  destruct es as [|e es]; [by_compute|]. change (dict_text (?x :: e :: es)) with (entry_text x ++ 10 :: dict_text (e :: es)). rewrite zlen_app, zlen_cons.
  pose proof (zlen_nonneg (dict_text (e :: es))). pose proof (zlen_nonneg (entry_text (KEY_VERSION, hexdigits 16 ZT_NETWORKCONFIG_VERSION))). lia.
Qed.

(** What arrives can be sent on. *)
Lemma received_ok `{StdSortLaws} nc : netconf_ok nc -> netconf_ok (received nc).
Proof.
  intros [? ? ? ? ? ? ? ? Hm ? ? ? Hcom Hcaps Htags ? ? ? ? ? ? Hsso]. split; unfold received; cbn; try done.
  - unfold rng, ZT_MAX_MTU in *. repeat case_match; lia.
  - destruct (com_valid (com nc)); [done|]. split; [by_compute|done].
  - unfold zlen. by rewrite std_sort_perm.
  - unfold zlen. by rewrite std_sort_perm.
  - destruct Hsso. unfold received_sso. repeat case_match; split; cbn; try done; by_compute.
Qed.

(** ** From the controller to the member *)

Definition text_fits (nc : NetworkConfig) : Prop := zlen (dict_text (netconf_entries nc)) < ZT_NETWORKCONFIG_DICT_CAPACITY.
Definition update_id (rnd : Z) : Z := if rnd =? 0 then 1 else rnd.
(** The packets as they are after decompression. *)
Definition uncompressed `{PacketCrypto} (ap : sends) : list Buffer := (fun x => match Armor.uncompress x.2 with Ok (r, _) => r | _ => x.2 end) <$> ap.
(** The chunk ID of the signature that ends a packet. *)
Definition chunk_tag (r : Buffer) : Z := chunk_id (drop (length (data r) - 96) (data r)).

Section end_to_end.
Context {T : Type -> Type} `{Table T} `{HostLaws} `{ConfigMemoryLaws} `{StdSortLaws} `{Crypto} `{Env} `{PacketSourceLaws} `{PacketCrypto} `{!Lz4Laws}.

Lemma config_sizeBytes es tl : Forall (fun e => legal_key e.1) es -> sizeBytes (dict_text es ++ 0 :: tl) = zlen (dict_text es).
Proof. intros Hl. unfold sizeBytes. by rewrite find_nul_app by (by apply dict_text_no_nul). Qed.

Lemma new_dictionary_len : zlen (Dictionary_new CONFIG_ROOM) = ZT_NETWORKCONFIG_DICT_CAPACITY.
Proof. unfold zlen, Dictionary_new. rewrite length_replicate. unfold CONFIG_ROOM. by_compute. Qed.

Lemma toDictionary_text nc : netconf_ok (wire nc) -> text_fits (wire nc) -> exists tl, let d := dict_text (netconf_entries (wire nc)) ++ 0 :: tl in
  toDictionary nc cm_tmp (Dictionary_new CONFIG_ROOM) = Ok (d, true) /\ rep d (netconf_entries (wire nc)) /\ sizeBytes d = zlen (dict_text (netconf_entries (wire nc))).
Proof.
  intros Hok Hfit. destruct (toDictionary_entries nc cm_tmp (Dictionary_new CONFIG_ROOM) Hok cm_tmp_ok) as (d & E & Hrep & Hl).
  - rewrite new_dictionary_len. apply cm_tmp_cap.
  - rewrite new_dictionary_len. done.
  - by rewrite new_dictionary_len.
  - destruct Hrep as [Hk [tl ->]]. exists tl. cbv zeta. split; [done|]. split; [by split; [|exists tl]|]. by apply config_sizeBytes.
Qed.

Lemma fromDictionary_text nc tl : netconf_ok nc -> text_fits nc -> Forall (fun e => legal_key e.1) (netconf_entries nc) ->
  length (dict_text (netconf_entries nc) ++ 0 :: tl) = CONFIG_ROOM -> fromDictionary cm_stack (dict_text (netconf_entries nc) ++ 0 :: tl) cm_tmp = Ok (Some (received nc)).
Proof.
  intros Hok Hfit Hk Hl. assert (zlen (dict_text (netconf_entries nc) ++ 0 :: tl) = ZT_NETWORKCONFIG_DICT_CAPACITY) as Hz by (unfold zlen; rewrite Hl; by_compute).
  unfold fromDictionary. rewrite (parse_received nc Hok _); [done| | |apply cm_stack_len|apply cm_tmp_ok|by rewrite Hz; apply cm_tmp_cap].
  - split; [done|]. by exists tl.
  - by rewrite Hz.
Qed.

Lemma save_received (n : Network T) nc : netconf_ok nc -> text_fits (received nc) -> exists calls, save_config n (received nc) = Ok calls.
Proof.
  intros Hok%received_ok Hfit. unfold save_config. destruct (toDictionary_text (received nc)) as (tl & -> & _); [by rewrite netconf_wire_id|by rewrite netconf_wire_id|]. by eexists.
Qed.

Lemma chunk_in_tag id sk nwid req u total idx bytes b : sig_ok (signature id sk nwid u total idx bytes) -> chunk_in id sk nwid req u total idx bytes b ->
  chunk_tag b = chunk_id (signature id sk nwid u total idx bytes).
Proof.
  intros Hs (Hb & pre & Hd & _). unfold chunk_tag. f_equal. rewrite Hd. unfold chunk_wire, sig_enc. set (s := signature _ _ _ _ _ _ _) in *. destruct Hs as [_ Hl].
  rewrite !app_assoc. apply drop_app_length'. rewrite !length_app. unfold zlen in Hl. lia.
Qed.

Lemma sigs_of_lookup id sk nwid u total pieces k : (k < length pieces)%nat ->
  sig_of (sigs_of id sk nwid u total pieces) k = signature id sk nwid u total (Z.of_nat (off pieces k)) (piece pieces k).
Proof.
  intros Hk. unfold sig_of, sigs_of, piece. destruct (lookup_lt_is_Some_2 pieces k Hk) as [p Ep]. rewrite (nth_lookup_Some pieces k [] p Ep).
  apply nth_lookup_Some. rewrite list_lookup_imap, Ep. done.
Qed.

(** C28. What a controller sends makes the member adopt the configuration: [ncSendConfig] succeeds, and a member that has no other update under the
    same ID and gets the packets - in any order, each at least once - ends up with the configuration as [wire] and [received] describe it (as in the round trip through the
    dictionary); exactly one of the packets returns the ID of the update, the others 0. Signatures with different IDs are assumed. *)
Theorem config_delivered (ctrl : Identity) sk self nwid req rnd nc auth (cn : option (Network T)) now now' :
  known_controller ctrl nwid -> _privateKey ctrl = Some sk -> key_pair sk (_publicKey ctrl) -> (forall m, sig_ok (ecc_sign sk (_publicKey ctrl) m)) ->
  netconf_ok (wire nc) -> networkId nc = nwid -> issuedTo nc = self -> self <> address ctrl -> text_fits (wire nc) -> text_fits (received (wire nc)) -> rng 64 rnd ->
  exists auth' ap, ncSendConfig (address ctrl) now auth cn ctrl nwid req self nc rnd = Ok (auth', cn, [], ap) /\ Forall (fun x => x.1 = self) ap /\
    (NoDup (chunk_tag <$> uncompressed ap) -> forall (n : Network T) order ds, member nwid n -> _incomingConfigChunks n <> [] ->
      Forall (fun c => updateId c <> update_id rnd) (_incomingConfigChunks n) ->
      (forall k, (k < length ap)%nat -> k ∈ order) -> Forall2 (fun k d => uncompressed ap !! k = Some (d_buffer d) /\ d_start d = chunk_start req) order ds ->
      exists n' calls rs, deliver self now' n ds = Ok (n', calls, rs) /\ _config n' = received (wire nc) /\ List.filter (fun r => negb (r =? 0)) rs = [update_id rnd]).
Proof.
  intros Hctrl Hsk Hkp Hsig Hok Hnw Hto Hne Hfit Hfit' Hrnd. destruct (toDictionary_text nc Hok Hfit) as (tl & Ed & [Hkeys _] & Esz). set (text := dict_text (netconf_entries (wire nc))) in *.
  unfold ncSendConfig. rewrite (proj2 (Z.eqb_neq _ _) Hne), Ed. cbn [mbind outcome_bind]. rewrite Esz. fold (update_id rnd). set (u := update_id rnd).
  pose proof (netconf_text_bytes _ Hok) as Hbytes. fold text in Hbytes. pose proof (netconf_text_nonempty (wire nc)) as Hpos. fold text in Hpos.
  destruct (send_chunks_spec (address ctrl) ctrl sk nwid req self u (zlen text) (text ++ 0 :: tl) Hsk Hsig (S (Z.to_nat (zlen text))) text 0 [] [] (0 :: tl)) as (ap & -> & Hlen & Hap);
    [done|done|done|lia|unfold zlen; lia|]. cbn [mbind outcome_bind app]. set (pieces := cut (length text) text) in *.
  assert (concat pieces = text) as Hcat by (by apply cut_concat). destruct (cut_pieces (length text) text Hbytes) as (Hne' & Hbs & Hroom). fold pieces in Hne', Hbs, Hroom.
  assert (forall k x, ap !! k = Some x -> exists p r, pieces !! k = Some p /\ x.1 = self /\ Armor.uncompress x.2 = Ok (r, true) /\
    chunk_in ctrl sk nwid req u (zlen text) (Z.of_nat (off pieces k)) p r) as Hsent.
  { intros k x Hk. destruct (lookup_lt_is_Some_2 pieces k) as [p Hp]; [rewrite <- Hlen; by apply lookup_lt_Some in Hk|].
    destruct (Hap k p Hp) as (x' & r & Hx & Hd & Hu & Hin). rewrite Hk in Hx. injection Hx as <-. exists p, r. rewrite Z.add_0_l in Hin. exact (conj Hp (conj Hd (conj Hu Hin))). }
  eexists _, _. split; [done|]. split.
  { apply list.Forall_lookup_2. intros k x Hk. destruct (Hsent k x Hk) as (p & r & _ & Hx & _). exact Hx. }
  intros Hnd n order ds Hm Hslots Hfresh Hin Hds.
  assert (forall k r, uncompressed ap !! k = Some r -> (k < length pieces)%nat /\ chunk_in ctrl sk nwid req u (zlen text) (Z.of_nat (off pieces k)) (piece pieces k) r) as Hun.
  { intros k r Hk. unfold uncompressed in Hk. rewrite list_lookup_fmap in Hk. destruct (ap !! k) as [x|] eqn:Ex; [|discriminate Hk]. cbn in Hk. injection Hk as <-.
    destruct (Hsent k x Ex) as (p & r & Hp & _ & Eu & Hc). rewrite Eu. split; [apply lookup_lt_Some in Hp; exact Hp|]. unfold piece. rewrite (nth_lookup_Some _ _ _ _ Hp). exact Hc. }
  assert (forall k, (k < length pieces)%nat -> exists r, uncompressed ap !! k = Some r) as Hall.
  { intros k Hk. apply lookup_lt_is_Some_2. unfold uncompressed. rewrite length_fmap, Hlen. exact Hk. }
  set (sigs := sigs_of ctrl sk nwid u (zlen text) pieces).
  assert (Z.of_nat (length (concat pieces)) = zlen text) as Hz' by (rewrite Hcat; reflexivity).
  assert (0 < zlen text < ZT_NETWORKCONFIG_DICT_CAPACITY) as Htext by (split; [exact Hpos|exact Hfit]).
  assert (rng 64 u /\ u <> 0) as Hu by (unfold u, update_id; destruct (Z.eqb_spec rnd 0); [split; [by_compute|lia]|exact (conj Hrnd n0)]).
  destruct Hctrl as (_ & Hca & Hcid & Hcpk). unfold controllerFor in Hca. rewrite Hca in Hcid, Hcpk.
  assert (forall k, (k < length pieces)%nat -> sig_ok (sig_of sigs k) /\ Identity.verify (getIdentity (Address.of_int (Z.shiftr nwid 24))) (msg_of nwid u pieces k) (sig_of sigs k) = true) as Hsigs.
  { intros k Hk. unfold sigs. rewrite sigs_of_lookup by exact Hk. split; [apply Hsig|]. unfold Identity.verify, msg_of, signature. rewrite Hcpk, Hz'. apply Hkp. }
  assert (forall k r, uncompressed ap !! k = Some r -> chunk_tag r = cid sigs k) as Htag.
  { intros k r Hk. destruct (Hun k r Hk) as [Hkl Hc]. unfold cid, sigs. rewrite sigs_of_lookup by exact Hkl. exact (chunk_in_tag _ _ _ _ _ _ _ _ _ (Hsig _) Hc). }
  assert (forall j k, (j < length pieces)%nat -> (k < length pieces)%nat -> cid sigs j = cid sigs k -> j = k) as Hinj.
  { intros j k Hj Hk E. destruct (Hall j Hj) as [rj Erj], (Hall k Hk) as [rk Erk]. assert (chunk_tag rk = chunk_tag rj) as Et by (rewrite (Htag j rj Erj), (Htag k rk Erk); symmetry; exact E).
    apply (NoDup_lookup _ _ _ (chunk_tag rj) Hnd); rewrite list_lookup_fmap; [rewrite Erj; reflexivity|rewrite Erk, <- Et; reflexivity]. }
  destruct (deliver_all self now' nwid u pieces sigs (received (wire nc))) with (l := ds) (order := order) (S := @nil nat) (n := n) as (n' & calls & rs & E1 & E2 & E3).
  - pose proof (cut_count 2 (length text) text) as Hc2. fold pieces in Hc2. unfold ZT_NETWORKCONFIG_DICT_CAPACITY in Htext. change CHUNK_ROOM with 9740 in Hc2.
    change ZT_NETWORK_MAX_UPDATE_CHUNKS with 17. lia.
  - rewrite Hz'. exact Htext.
  - exact Hne'.
  - exact Hbs.
  - exact Hu.
  - exact Hsigs.
  - exact Hcid.
  - exact Hinj.
  - rewrite Hcat. intros tl' Hl. apply fromDictionary_text; assumption.
  - exact (conj Hto Hnw).
  - intros n' _. apply save_received; assumption.
  - eapply list.Forall2_impl; [exact Hds|]. intros k d [Hk Hst]. destruct (Hun k _ Hk) as [Hkl [Hb Hr]]. split; [exact Hkl|]. split; [exact Hb|].
    rewrite Hst, Hz'. unfold sigs. rewrite sigs_of_lookup by exact Hkl. exact Hr.
  - split; [exact Hm|]. split; [split; constructor|]. left. split; [reflexivity|]. split; [exact Hslots|exact Hfresh].
  - intros Hx. rewrite all_there_iff in Hx. assert (0 < length pieces)%nat as H0p; [|exact (not_elem_of_nil _ (Hx 0%nat H0p))].
    destruct (length pieces) eqn:El; [|lia]. apply length_zero_iff_nil in El. rewrite El in Hz'. change (0 = zlen text) in Hz'. lia.
  - rewrite all_there_iff. cbn [app]. intros k Hk. apply Hin. rewrite Hlen. exact Hk.
  - exists n', calls, rs. exact (conj E1 (conj E2 E3)).
Qed.
End end_to_end.

(** ** Witness *)

(** The controller sends its configuration to the member 8, which has just joined. *)
Lemma config_delivered_witness :
  let nwid := 0x89e92ceee5000001 in
  let n := Network_new (T := gmap Z) 0 8 nwid in
  exists ap, (exists auth, ncSendConfig (T := gmap Z) (H3 := toy_crypto) (address example_id) 5 ∅ None example_id nwid 77 8 example_netconf 0 = Ok (auth, None, [], ap)) /\
    Forall (fun x => x.1 = 8) ap /\
    (NoDup (chunk_tag <$> uncompressed ap) -> forall order ds, (forall k, (k < length ap)%nat -> k ∈ order) ->
      Forall2 (fun k d => uncompressed ap !! k = Some (d_buffer d) /\ d_start d = 37) order ds ->
      exists n' calls rs, deliver (H4 := toy_crypto) (H5 := toy_env) 8 6 n ds = Ok (n', calls, rs) /\ _config n' = received example_netconf /\ List.filter (fun r => negb (r =? 0)) rs = [1]).
Proof.
  intros nwid n.
  destruct (config_delivered (T := gmap Z) (H6 := toy_crypto) (H7 := toy_env) example_id (replicate 64 250) 8 nwid 77 0 example_netconf ∅ None 5 6)
    as (auth & ap & E & Hd & Hx).
  - split_and!; by_compute.
  - reflexivity.
  - intros m. cbn. by apply bool_decide_eq_true_2.
  - intros m. split; [apply bytes_ok_be_bytes|exact (zlen_be_bytes 96 _)].
  - exact example_netconf_ok.
  - reflexivity.
  - reflexivity.
  - by_compute.
  - unfold text_fits; by_compute.
  - unfold text_fits; by_compute.
  - by_compute.
  - exists ap. split; [by exists auth|]. split; [exact Hd|]. intros Hnd order ds Hall Hds. apply (Hx Hnd n order ds); [|done| |exact Hall|exact Hds].
    + split; [done|done|by_compute|]. apply list.Forall_replicate. split; [done|by_compute|by_compute|done|]. apply list.Forall_replicate. by_compute.
    + repeat constructor; by_compute.
Defined.
