(* ===== verification/CredentialTransfer.v ===== *)
(** * Credentials on their way to another member (node/Membership.cpp, node/Network.cpp, node/IncomingPacket.cpp)

    [Membership::pushCredentials] sends a member all the credentials of this node, in as many packets as they need;
    [IncomingPacket::_doNETWORK_CREDENTIALS] reads such a packet and gives what is in it to the networks; a revocation that is new is passed on
    ([Network::addCredential]). *)

From S2P Require Import Prelude Buffer Serial Address InetAddress Identity Packet Table Rule Credential Credentials Capability CredentialSet NetworkConfig NetconfDict Membership Filter Network.
Import Network.

Definition ZT_PEER_CREDENTIALS_RATE_LIMIT : Z := 1000.
Definition ZT_PEER_CREDENTIALS_REQUEST_RATE_LIMIT : Z := 1000.

Section Push.
Context {T : Type -> Type} `{Table T} `{PacketSource} `{PacketCrypto}.
Context (self : Z).

(** The objects of one kind, while there is room for the next one: the packet, the objects that are left, the number of those that are in it. *)
Fixpoint push_while {C} (sizeof : nat) (ser : Buffer -> C -> outcome Buffer) (b : Buffer) (l : list C) (n : Z) : outcome (Buffer * list C * Z) :=
  match l with
  | [] => Ok (b, [], n)
  | c :: l' =>
      if size b + Z.of_nat sizeof + 16 <? ZT_PROTO_MAX_PACKET_LENGTH then b ← ser b c; push_while sizeof ser b l' (n + 1) else Ok (b, l, n)
  end.
(** Their number is put in front of them afterwards. *)
Definition push_counted {C} (sizeof : nat) (ser : Buffer -> C -> outcome Buffer) (b : Buffer) (l : list C) : outcome (Buffer * list C) :=
  let at' := size b in
  b ← addSize b 2;
  '(b, l, n) ← push_while sizeof ser b l 0;
  b ← setAt 2 b at' n;
  Ok (b, l).

(** What still has to be sent. *)
Record Load := mkLoad { l_com : option COM.COM; l_caps : list Capability; l_tags : list Tag.Tag; l_coos : list COO.COO }.
Definition load_empty (l : Load) : bool := match l with mkLoad None [] [] [] => true | _ => false end.

(** The [k]-th packet. *)
Definition push_packet (k : nat) (peer : Z) (l : Load) : outcome (Buffer * Load) :=
  b ← Packet.Packet (new_mem k) (new_iv k) peer self Packet.VERB_NETWORK_CREDENTIALS;
  b ← match l_com l with Some c => COM.serialize b c | None => Ok b end;
  b ← append_int 1 b 0;
  '(b, caps) ← push_counted Capability.sizeof (fun b c => Capability.serialize b c false) b (l_caps l);
  '(b, tags) ← push_counted Tag.sizeof (fun b t => Tag.serialize b t false) b (l_tags l);
  b ← append_int 2 b 0;
  '(b, coos) ← push_counted COO.sizeof (fun b c => COO.serialize b c false) b (l_coos l);
  '(b, _) ← Armor.compress b;
  Ok (b, mkLoad None caps tags coos).

Fixpoint push_loop (fuel : nat) (ap : sends) (peer : Z) (l : Load) : outcome sends :=
  if load_empty l then Ok ap
  else match fuel with
       | O => Undef
       | S fuel => '(b, l) ← push_packet (length ap) peer l; push_loop fuel (ap ++ [(peer, b)]) peer l
       end.

Definition set_lastPushedCredentials (m : Membership T) (now : Z) : Membership T :=
  mkMembership (_lastUpdatedMulticast m) (_comRevocationThreshold m) now (_com m) (_revocations m) (_remoteTags m) (_remoteCaps m) (_remoteCoos m).

(** The arrays of pointers have room for what a configuration may have. *)
Definition load_of (nconf : NetworkConfig) : Load :=
  mkLoad (if COM.COM_bool (com nconf) then Some (com nconf) else None) (capabilities nconf) (tags nconf) (certificatesOfOwnership nconf).
Definition push_fuel (l : Load) : nat := S (length (l_caps l) + length (l_tags l) + length (l_coos l)).
Definition pushCredentials (m : Membership T) (ap : sends) (now peer : Z) (nconf : NetworkConfig) : outcome (Membership T * sends) :=
  if (ZT_MAX_NETWORK_CAPABILITIES <? zlen (capabilities nconf)) || (ZT_MAX_NETWORK_TAGS <? zlen (tags nconf)) ||
     (ZT_MAX_CERTIFICATES_OF_OWNERSHIP <? zlen (certificatesOfOwnership nconf)) then Undef
  else
    ap ← push_loop (push_fuel (load_of nconf)) ap peer (load_of nconf);
    Ok (set_lastPushedCredentials m now, ap).

(** [peerRequestedCredentials] and [pushCredentialsIfNeeded], which differ in the interval. *)
Definition push_after (interval : Z) (n : Network T) (ap : sends) (to now : Z) : outcome (Network T * sends) :=
  '(n, m) ← _membership n to;
  let lastPushed := _lastPushedCredentials m in
  due ← (if lastPushed <? _lastConfigUpdate n then Ok true else d ← ssub now lastPushed; Ok (interval <? d));
  if (due : bool) then '(m, ap) ← pushCredentials m ap now to (_config n); n ← put_membership n to m; Ok (n, ap) else Ok (n, ap).
Definition peerRequestedCredentials := push_after ZT_PEER_CREDENTIALS_REQUEST_RATE_LIMIT.
Definition pushCredentialsIfNeeded := push_after ZT_PEER_ACTIVITY_TIMEOUT.
End Push.

(** ** Receiving *)

Section Receive.
Context {T : Type -> Type} `{Table T} `{PacketSource} `{Crypto} `{Env}.
Context (self : Z).

(** A revocation goes to the members [l]. *)
Fixpoint flood_revocation (ap : sends) (rev : Revocation.Revocation) (l : list Z) : outcome sends :=
  match l with
  | [] => Ok ap
  | a :: l =>
      b ← Packet.Packet (new_mem (length ap)) (new_iv (length ap)) a self Packet.VERB_NETWORK_CREDENTIALS;
      b ← append_int 1 b 0; b ← append_int 2 b 0; b ← append_int 2 b 0; b ← append_int 2 b 1;
      b ← Revocation.serialize b rev false;
      b ← append_int 2 b 0;
      flood_revocation (ap ++ [(a, b)]) rev l
  end.

Definition is_new (r : AddCredentialResult) : bool := match r with ADD_ACCEPTED_NEW => true | _ => false end.

Definition addCredential_revocation (n : Network T) (ap : sends) (sentFrom : Z) (rev : Revocation.Revocation) : outcome (Network T * sends * AddCredentialResult) :=
  if negb (Revocation._networkId rev =? _id n) then Ok (n, ap, ADD_REJECTED)
  else
    '(n, m) ← _membership n (Revocation._target rev);
    '(m, r) ← Membership.addCredential_revocation m rev;
    n ← put_membership n (Revocation._target rev) m;
    ap ← (if is_new r && Revocation.fastPropagate rev then
            flood_revocation ap rev (List.filter (fun a => negb (a =? sentFrom) && negb (a =? Revocation._signedBy rev)) (tab_entries (_memberships n)).*1)
          else Ok ap);
    Ok (n, ap, r).

(** The networks of the node by their ID; what has been sent; the variables [network] and [trustEstablished]. *)
Record Desk := mkDesk { d_nets : gmap Z (Network T); d_sent : sends; d_network : option Z; d_trust : bool }.

Definition d_look (d : Desk) (nwid : Z) : Desk := mkDesk (d_nets d) (d_sent d) (if decide (d_nets d !! nwid = None) then None else Some nwid) (d_trust d).
Definition nwid_of (c : credential) : Z :=
  match c with
  | CCom c => COM.networkId c | CCapability c => Capability._nwid c | CTag t => Tag._networkId t | CCoo c => COO._networkId c
  | CRevocation r => Revocation._networkId r
  end.
Definition is_com (c : credential) : bool := match c with CCom _ => true | _ => false end.

Definition net_add (n : Network T) (ap : sends) (from : Z) (c : credential) : outcome (Network T * sends * AddCredentialResult) :=
  match c with
  | CCom c => '(n, r) ← addCredential_com n c; Ok (n, ap, r)
  | CCapability c => '(n, r) ← addCredential_cap n c; Ok (n, ap, r)
  | CTag t => '(n, r) ← addCredential_tag n t; Ok (n, ap, r)
  | CCoo c => '(n, r) ← addCredential_coo n c; Ok (n, ap, r)
  | CRevocation rev => addCredential_revocation n ap from rev
  end.

(** The body of the loops: the network is looked up, for a COM always, and gets the credential. The address is that of a missing signer,
    for which the handler gives up. *)
Definition offer (d : Desk) (from : Z) (c : credential) : outcome (Desk * option Z) :=
  let d := if is_com c || negb (bool_decide (d_network d = Some (nwid_of c))) then d_look d (nwid_of c) else d in
  match d_network d ≫= (fun i => d_nets d !! i) with
  | None => Ok (d, None)
  | Some n =>
      '(n, ap, r) ← net_add n (d_sent d) from c;
      let d := mkDesk (<[nwid_of c := n]> (d_nets d)) ap (d_network d) (d_trust d) in
      Ok match r with
         | ADD_REJECTED => (d, None)
         | ADD_ACCEPTED_NEW | ADD_ACCEPTED_REDUNDANT => (mkDesk (d_nets d) (d_sent d) (d_network d) true, None)
         | ADD_DEFERRED_FOR_WHOIS a => (d, Some a)
         end
  end.

(** How the handler ends: [received], with the arguments that depend on the content; without it; with false, to be called again; with an exception, which the caller
    catches. *)
Inductive Handled := HReceived (trust : bool) (network : Z) | HDone | HAgain (whois : Z) | HThrow (e : exn).
Inductive Step := Next (p : Z) | Stop (h : Handled).

(** What has been done before an exception stays done. *)
Definition attempt {A} (d : Desk) (m : outcome A) (k : A -> outcome (Desk * Step)) : outcome (Desk * Step) :=
  match m with Ok a => k a | Throw e => Ok (d, Stop (HThrow e)) | Undef => Undef end.

Fixpoint read_coms (fuel : nat) (d : Desk) (from : Z) (c0 : COM.COM) (b : Buffer) (p : Z) : outcome (Desk * Step) :=
  if p <? size b then
    attempt d (index b p) (fun v =>
      if v =? 0 then Ok (d, Next p)
      else match fuel with
           | O => Undef
           | S fuel =>
               attempt d (COM.deserialize c0 b p) (fun '(c, n) =>
                 if COM.COM_bool c then
                   attempt d (offer d from (CCom c)) (fun '(d, w) =>
                     match w with Some a => Ok (d, Stop (HAgain a)) | None => read_coms fuel d from c b (p + n) end)
                 else read_coms fuel d from c b (p + n))
           end)
  else Ok (d, Next p).

Fixpoint read_creds (t : Type_) (k : nat) (d : Desk) (from : Z) (b : Buffer) (p : Z) : outcome (Desk * Step) :=
  match k with
  | O => Ok (d, Next p)
  | S k =>
      attempt d (parse t b p) (fun '(c, n) =>
        attempt d (offer d from c) (fun '(d, w) =>
          match w with Some a => Ok (d, Stop (HAgain a)) | None => read_creds t k d from b (p + n) end))
  end.

(** A counted section, after the check that there is one. *)
Definition read_section (t : Type_) (d : Desk) (from : Z) (b : Buffer) (p : Z) : outcome (Desk * Step) :=
  attempt d (at_ 2 b p) (fun k => read_creds t (Z.to_nat k) d from b (p + 2)).
(** [later]: it is preceded by [if (p >= size()) return true]. *)
Fixpoint read_sections (ts : list Type_) (later : bool) (d : Desk) (from : Z) (b : Buffer) (p : Z) : outcome (Desk * Step) :=
  match ts with
  | [] => Ok (d, Next p)
  | t :: ts =>
      if later && (size b <=? p) then Ok (d, Stop HDone)
      else '(d, s) ← read_section t d from b p;
           match s with Next p => read_sections ts true d from b p | Stop h => Ok (d, Stop h) end
  end.

(** From the rate limit on; the network is null and no trust is established. *)
Definition credential_sections : list Type_ := [CREDENTIAL_TYPE_CAPABILITY; CREDENTIAL_TYPE_TAG; CREDENTIAL_TYPE_REVOCATION; CREDENTIAL_TYPE_COO].
Definition read_credentials (nets : gmap Z (Network T)) (ap : sends) (from : Z) (b : Buffer) : outcome (gmap Z (Network T) * sends * Handled) :=
  let d := mkDesk nets ap None false in
  '(d, s) ← read_coms (S (Z.to_nat (size b))) d from com_nil b Packet.ZT_PACKET_IDX_PAYLOAD;
  '(d, s) ← match s with
            | Stop h => Ok (d, Stop h)
            | Next p => let p := p + 1 in if p <? size b then read_sections credential_sections false d from b p else Ok (d, Next p)
            end;
  Ok (d_nets d, d_sent d, match s with
                          | Stop h => h
                          | Next _ => HReceived (d_trust d) (match d_network d ≫= (fun i => d_nets d !! i) with Some n => _id n | None => 0 end)
                          end).

Definition rateGateCredentialsReceived (last now : Z) : outcome (Z * bool) :=
  d ← ssub now last; Ok (if ZT_PEER_CREDENTIALS_RATE_LIMIT <=? d then (now, true) else (last, false)).

(** [last]: the peer's [_lastCredentialsReceived]. *)
Definition _doNETWORK_CREDENTIALS (nets : gmap Z (Network T)) (ap : sends) (last now from : Z) (b : Buffer) : outcome (gmap Z (Network T) * sends * Z * Handled) :=
  '(last, ok) ← rateGateCredentialsReceived last now;
  if (ok : bool) then '(nets, ap, h) ← read_credentials nets ap from b; Ok (nets, ap, last, h) else Ok (nets, ap, last, HDone).
End Receive.
Arguments Desk : clear implicits.

(** ** What a packet of credentials contains *)

Definition section_enc (l : list credential) : list Z := be_bytes 2 (zlen l) ++ concat (enc <$> l).
Definition part_enc (l : Load) : list Z :=
  match l_com l with Some c => COM.enc c | None => [] end ++ be_bytes 1 0 ++ section_enc (CCapability <$> l_caps l) ++
  section_enc (CTag <$> l_tags l) ++ be_bytes 2 0 ++ section_enc (CCoo <$> l_coos l).

Definition sendable (c : credential) : Prop := wf c /\ in_arrays c.
Record load_ok (l : Load) : Prop := {
  lo_com : match l_com l with Some c => sendable (CCom c) | None => True end;
  lo_caps : Forall (fun c => sendable (CCapability c)) (l_caps l);
  lo_tags : Forall (fun c => sendable (CTag c)) (l_tags l);
  lo_coos : Forall (fun c => sendable (CCoo c)) (l_coos l) }.

Lemma com_enc_small c : sendable (CCom c) -> zlen (enc (CCom c)) <= 296.
Proof.
  intros [[(_ & _ & Hn & _ & Hs) _] _]. cbn [enc]. unfold COM.enc, COM.body, COM.tbs, COM._qualifierCount, COM.ZT_NETWORK_COM_MAX_QUALIFIERS in *. autorewrite with zlen.
  rewrite COM.zlen_qualifiers. pose proof (zlen_nonneg (COM._qualifiers c)). destruct (Address.nonzero _); rewrite ?Hs, ?zlen_nil; unfold ZT_ECC_SIGNATURE_LEN; lia.
Qed.
Lemma cap_enc_small c : sendable (CCapability c) -> zlen (enc (CCapability c)) <= 2137.
Proof.
  intros [[(_ & _ & _ & Hm & Hr & Hl & _ & Hc) _] _]. cbn [enc]. unfold Capability.enc, Capability.body, chain_enc. autorewrite with zlen. pose proof (zlen_rules _ Hr).
  assert (zlen (concat (custody_enc <$> chain c)) <= 763) as Hch; [|unfold zlen in *; lia].
  pose proof (length_chain_of (Z.to_nat (_maxCustodyChainLength c)) (_custody c)) as Hlen. pose proof (chain_of_ok _ Hc (Z.to_nat (_maxCustodyChainLength c))) as Hok. unfold chain.
  transitivity (109 * zlen (chain_of (Z.to_nat (_maxCustodyChainLength c)) (_custody c))); [|unfold zlen; lia].
  induction Hok as [|x l Hx _ IH]; [done|]. change (concat (custody_enc <$> x :: l)) with (custody_enc x ++ concat (custody_enc <$> l)). rewrite zlen_app, zlen_cons, zlen_custody_enc by done. cbn [length] in Hlen. specialize (IH ltac:(lia)). lia.
Qed.
Lemma tag_enc_small c : sendable (CTag c) -> zlen (enc (CTag c)) = 135.
Proof. intros [(_ & _ & _ & _ & _ & _ & Hs) _]. cbn [enc]. unfold Tag.enc, Tag.body. autorewrite with zlen. by rewrite zlen_sig_enc. Qed.
Lemma coo_enc_small c : sendable (CCoo c) -> zlen (enc (CCoo c)) <= 413.
Proof.
  intros [[Hc _] Ha]. cbn [enc in_arrays] in *. pose proof Hc as (_ & _ & _ & _ & [Hp _] & _ & _ & _ & _ & _ & _ & Hs). unfold COO.enc, COO.body. autorewrite with zlen.
  rewrite zlen_sig_enc, COO.zlen_things_enc by (done || by apply COO.things_wf). unfold zlen. rewrite COO.length_things by done. lia.
Qed.

(** ** The loops of pushCredentials *)

Lemma push_while_spec {C} (sizeof : nat) (ser : Buffer -> C -> outcome Buffer) (cenc : C -> list Z) (m : Z) l : 0 <= m ->
  Forall (fun c => (forall b, buf_ok b -> writes b (cenc c) (ser b c)) /\ zlen (cenc c) <= Z.of_nat sizeof + 16 - m) l ->
  forall b n, buf_ok b -> capacity b = ZT_PROTO_MAX_PACKET_LENGTH ->
  exists some rest b', push_while sizeof ser b l n = Ok (b', rest, n + zlen some) /\ l = some ++ rest /\ buf_ok b' /\ capacity b' = ZT_PROTO_MAX_PACKET_LENGTH /\
    data b' = data b ++ concat (cenc <$> some) /\ (rest <> [] -> ZT_PROTO_MAX_PACKET_LENGTH <= size b' + Z.of_nat sizeof + 16) /\
    size b' <= Z.max (size b) (ZT_PROTO_MAX_PACKET_LENGTH - m).
Proof.
  intros Hm. induction 1 as [|c l [Hw Hs] _ IH]; intros b n Hb Hcap; cbn [push_while].
  { exists [], [], b. rewrite zlen_nil, Z.add_0_r. cbn [fmap list_fmap concat]. rewrite !app_nil_r. split_and!; try done. lia. }
  destruct (Z.ltb_spec (size b + Z.of_nat sizeof + 16) ZT_PROTO_MAX_PACKET_LENGTH) as [Hlt|Hge].
  - destruct (writes_fits b (cenc c) (ser b c) (Hw b Hb)) as (b1 & -> & Hb1 & Hd1 & Hc1); [rewrite Hcap; unfold size in Hlt; lia|]. cbn [mbind outcome_bind].
    assert (size b1 = size b + zlen (cenc c)) as Hsz by (unfold size; by rewrite <- !zlen_data, Hd1, zlen_app, zlen_data by done).
    destruct (IH b1 (n + 1) Hb1 ltac:(congruence)) as (some & rest & b' & -> & -> & Hb' & Hc' & Hd' & Hr & Hmax). exists (c :: some), rest, b'. rewrite zlen_cons.
    replace (n + 1 + zlen some) with (n + (1 + zlen some)) by lia. split_and!; try done; [|lia]. rewrite Hd', Hd1, <- app_assoc. done.
  - exists [], (c :: l), b. rewrite zlen_nil, Z.add_0_r. cbn [fmap list_fmap concat]. rewrite !app_nil_r. split_and!; try done. lia.
Qed.

Lemma push_counted_spec {C} (sizeof : nat) (ser : Buffer -> C -> outcome Buffer) (con : C -> credential) (m : Z) l b : 0 <= m ->
  Forall (fun c => (forall b, buf_ok b -> writes b (enc (con c)) (ser b c)) /\ zlen (enc (con c)) <= Z.of_nat sizeof + 16 - m) l ->
  buf_ok b -> capacity b = ZT_PROTO_MAX_PACKET_LENGTH -> size b + 2 <= ZT_PROTO_MAX_PACKET_LENGTH ->
  exists some rest b', push_counted sizeof ser b l = Ok (b', rest) /\ l = some ++ rest /\ buf_ok b' /\ capacity b' = ZT_PROTO_MAX_PACKET_LENGTH /\
    data b' = data b ++ section_enc (con <$> some) /\ (rest = l -> l <> [] -> ZT_PROTO_MAX_PACKET_LENGTH <= size b + Z.of_nat sizeof + 18) /\
    size b' <= Z.max (size b + 2) (ZT_PROTO_MAX_PACKET_LENGTH - m).
Proof.
  intros Hm Hl Hb Hcap Hfit. unfold push_counted. destruct (addSize_data b 2 Hb) as (b1 & old & -> & Hb1 & Hc1 & Hd1 & Hold); [lia|rewrite Hcap; exact Hfit|]. cbn [mbind outcome_bind].
  assert (size b1 = size b + 2) as Hsz by (unfold size; by rewrite <- !zlen_data, Hd1, zlen_app, Hold, zlen_data by done).
  destruct (push_while_spec sizeof ser (fun c => enc (con c)) m l Hm Hl b1 0 Hb1 ltac:(congruence)) as (some & rest & b2 & -> & -> & Hb2 & Hc2 & Hd2 & Hr & Hmax).
  cbn [mbind outcome_bind]. rewrite Hd1, <- app_assoc in Hd2. destruct (setAt_data 2 b2 (data b) old _ (0 + zlen some) Hb2 Hd2) as (b3 & E & Hb3 & Hc3 & Hd3); [unfold zlen in Hold; lia|].
  rewrite zlen_data in E by done. fold (size b) in E. rewrite E. cbn [mbind outcome_bind]. exists some, rest, b3. split_and!; try done; [congruence| | |].
  - rewrite Hd3. unfold section_enc. rewrite Z.add_0_l. unfold zlen at 2. rewrite length_fmap. fold (zlen some). by rewrite <- list_fmap_compose.
  - intros He Hne. assert (some = []) as ->. { apply (f_equal length) in He. rewrite length_app in He. apply nil_length_inv. lia. }
    cbn [app] in Hne. specialize (Hr Hne). cbn [fmap list_fmap concat] in Hd2. rewrite app_nil_r in Hd2.
    assert (size b2 = size b + 2) by (unfold size; by rewrite <- !zlen_data, Hd2, zlen_app, Hold, zlen_data by done). lia.
  - assert (size b3 = size b2) as -> by (unfold size; rewrite <- !zlen_data, Hd2, Hd3, !zlen_app, zlen_be_bytes, Hold by done; lia). lia.
Qed.

Section sender.
Context `{PacketSourceLaws} `{PacketCrypto} `{!Lz4Laws}.
Context (self : Z).

Definition load_size (l : Load) : nat := match l_com l with Some _ => 1 | None => 0 end + (length (l_caps l) + length (l_tags l) + length (l_coos l)).

(** [part] is in the packet, [rest] is still to be sent. *)
Definition load_split (l part rest : Load) : Prop :=
  l_com part = l_com l /\ l_com rest = None /\ l_caps l = l_caps part ++ l_caps rest /\ l_tags l = l_tags part ++ l_tags rest /\ l_coos l = l_coos part ++ l_coos rest.

(** A packet as the receiver sees it after decompression. *)
Definition carries_part (b : Buffer) (part : Load) : Prop :=
  exists r, Armor.uncompress b = Ok (r, true) /\ buf_ok r /\ rest_at r ZT_PACKET_IDX_PAYLOAD (part_enc part).

Lemma sendable_writes (c : credential) : sendable c -> forall b, buf_ok b -> writes b (enc c) (write b c).
Proof. intros [Hw Ha] b Hb. by apply write_writes. Qed.

Lemma push_packet_spec k peer l : load_ok l ->
  exists b part rest, push_packet self k peer l = Ok (b, rest) /\ load_split l part rest /\ load_ok part /\ load_ok rest /\ carries_part b part /\
    (load_empty l = false -> (load_size rest < load_size l)%nat).
Proof.
  intros [Hcom Hcaps Htags Hcoos]. destruct (new_packet_ok k) as (Hm & Hml & Hiv & Hivl). unfold push_packet.
  destruct (packet_new _ (new_iv k) peer self Packet.VERB_NETWORK_CREDENTIALS Hm Hml Hiv Hivl) as (b & mac & -> & Hb & Hc & Hd & Hmac); [by_compute|]. cbn [mbind outcome_bind].
  assert (size b = 28) as Hz by (unfold size; rewrite <- (zlen_data b Hb), Hd; by apply zlen_header_bytes).
  assert (ZT_PROTO_MAX_PACKET_LENGTH = 10024) as Emax by by_compute.
  set (cb := match l_com l with Some c => COM.enc c | None => [] end).
  assert (writes b (cb ++ be_bytes 1 0) (b ← match l_com l with Some c => COM.serialize b c | None => Ok b end; append_int 1 b 0)) as Hw.
  { apply writes_bind; [done| |intros; by apply append_int_writes]. unfold cb. destruct (l_com l) as [c|]; [by apply (sendable_writes (CCom c))|by apply writes_nil]. }
  assert (zlen cb <= 296) as Hcb by (unfold cb; destruct (l_com l) as [c|]; [by apply (com_enc_small c)|by rewrite zlen_nil]).
  pose proof (zlen_nonneg cb). destruct (writes_fits _ _ _ Hw) as (b1 & E1 & Hb1 & Hd1 & Hc1); [unfold size in Hz; rewrite Hz, Hc, Emax, zlen_app, zlen_be_bytes; lia|].
  destruct (match l_com l with Some c => COM.serialize b c | None => Ok b end) as [b0| |]; [|discriminate E1..]. cbn [mbind outcome_bind] in *. rewrite E1. clear E1 Hw b0. cbn [mbind outcome_bind].
  assert (size b1 = 29 + zlen cb) as Hz1 by (unfold size in *; rewrite <- (zlen_data b1 Hb1), Hd1, !zlen_app, zlen_be_bytes, zlen_data by done; lia).
  destruct (push_counted_spec Capability.sizeof (fun b c => Capability.serialize b c false) CCapability 64 (l_caps l) b1) as (caps & caps' & b2 & -> & Ecaps & Hb2 & Hc2 & Hd2 & Hp2 & Hs2);
    [lia| |done|congruence|lia|].
  { eapply list.Forall_impl; [exact Hcaps|]. intros c Hs. split; [by apply (sendable_writes (CCapability c))|]. pose proof (cap_enc_small c Hs). change (Z.of_nat sizeof) with 2864. lia. }
  cbn [mbind outcome_bind].
  destruct (push_counted_spec Tag.sizeof (fun b c => Tag.serialize b c false) CTag 17 (l_tags l) b2) as (tags & tags' & b3 & -> & Etags & Hb3 & Hc3 & Hd3 & Hp3 & Hs3);
    [lia| |done|done|lia|].
  { eapply list.Forall_impl; [exact Htags|]. intros c Hs. split; [by apply (sendable_writes (CTag c))|]. pose proof (tag_enc_small c Hs). change (Z.of_nat Tag.sizeof) with 136. lia. }
  cbn [mbind outcome_bind].
  destruct (writes_fits b3 (be_bytes 2 0) (append_int 2 b3 0)) as (b4 & -> & Hb4 & Hd4 & Hc4); [by apply append_int_writes|rewrite zlen_be_bytes, Hc3; unfold size in *; lia|]. cbn [mbind outcome_bind].
  assert (size b4 = size b3 + 2) as Hz4 by (unfold size; rewrite <- !zlen_data, Hd4, zlen_app, zlen_be_bytes by done; lia).
  destruct (push_counted_spec COO.sizeof (fun b c => COO.serialize b c false) CCoo 1 (l_coos l) b4) as (coos & coos' & b5 & -> & Ecoos & Hb5 & Hc5 & Hd5 & Hp5 & Hs5);
    [lia| |done|congruence|lia|].
  { eapply list.Forall_impl; [exact Hcoos|]. intros c Hs. split; [by apply (sendable_writes (CCoo c))|]. pose proof (coo_enc_small c Hs). change (Z.of_nat COO.sizeof) with 416. lia. }
  cbn [mbind outcome_bind]. set (part := mkLoad (l_com l) caps tags coos). assert (data b5 = header_bytes (new_iv k) peer self mac Packet.VERB_NETWORK_CREDENTIALS ++ part_enc part) as Hdata.
  { rewrite Hd5, Hd4, Hd3, Hd2, Hd1, Hd. unfold part_enc. cbn [l_com l_caps l_tags l_coos part]. fold cb. by rewrite <- !app_assoc. }
  destruct (sent_packet b5 (new_iv k) peer self mac Packet.VERB_NETWORK_CREDENTIALS (part_enc part)) as (c & on & r & -> & Eu & Hr & Hdr); [exact Hb5|exact Hc5|exact Hivl|exact Hmac|by_compute|reflexivity|exact Hdata|]. cbn [mbind outcome_bind].
  rewrite Ecaps in Hcaps. rewrite Etags in Htags. rewrite Ecoos in Hcoos. apply list.Forall_app in Hcaps as [? ?], Htags as [? ?], Hcoos as [? ?].
  eexists c, part, _. split; [reflexivity|]. split; [unfold load_split; by split_and!|]. split; [by split|]. split; [by split|]. split.
  - exists r. split; [done|]. split; [done|]. exact (packet_payload_at r _ _ _ _ _ _ Hivl Hmac Hdr).
  - unfold load_size. cbn [l_com l_caps l_tags l_coos]. intros Hne. change (Z.of_nat sizeof) with 2864 in Hp2. change (Z.of_nat Tag.sizeof) with 136 in Hp3. change (Z.of_nat COO.sizeof) with 416 in Hp5.
    destruct (l_com l) eqn:Ecom; [rewrite Ecaps, Etags, Ecoos, !length_app; lia|]. rewrite Ecaps, Etags, Ecoos, !length_app. rewrite Ecaps in Hp2. rewrite Etags in Hp3. rewrite Ecoos in Hp5.
    destruct caps as [|? caps]; [|cbn; lia]. cbn [app length] in *. destruct caps' as [|? caps']; [|specialize (Hp2 eq_refl ltac:(done)); lia]. cbn [fmap list_fmap] in Hd2.
    assert (size b2 = 31 + zlen cb) as Hz2 by (unfold size in *; rewrite <- (zlen_data b2 Hb2), Hd2, zlen_app, zlen_data by done; change (zlen (section_enc [])) with 2; lia).
    destruct tags as [|? tags]; [|cbn; lia]. cbn [app length] in *. destruct tags' as [|? tags']; [|specialize (Hp3 eq_refl ltac:(done)); lia]. cbn [fmap list_fmap] in Hd3.
    assert (size b3 = 33 + zlen cb) as Hz3 by (unfold size in *; rewrite <- (zlen_data b3 Hb3), Hd3, zlen_app, zlen_data by done; change (zlen (section_enc [])) with 2; lia).
    destruct coos as [|? coos]; [|cbn; lia]. cbn [app length] in *. destruct coos' as [|? coos']; [|specialize (Hp5 eq_refl ltac:(done)); lia].
    unfold load_empty in Hne. destruct l as [lc l1 l2 l3]. cbn [l_caps l_tags l_coos l_com] in *. subst. discriminate Hne.
Qed.

(** All of a load, in packets to [peer]. *)
Inductive load_parts : Load -> list Load -> Prop :=
  | parts_none l : load_empty l = true -> load_parts l []
  | parts_more l part rest parts : load_empty l = false -> load_split l part rest -> load_parts rest parts -> load_parts l (part :: parts).

Lemma push_loop_spec peer : forall fuel l ap, load_ok l -> (load_size l <= fuel)%nat ->
  exists aps parts, push_loop self fuel ap peer l = Ok (ap ++ aps) /\ load_parts l parts /\ Forall load_ok parts /\
    Forall2 (fun x part => x.1 = peer /\ carries_part x.2 part) aps parts.
Proof.
  induction fuel as [|fuel IH]; intros l ap Hok Hf; cbn [push_loop].
  - exists [], []. rewrite app_nil_r. assert (load_empty l = true) as Ee; [|rewrite Ee; split; [done|]; split; [by apply parts_none|by split]].
    destruct l as [[]  [] [] []]; cbn in Hf; (done || lia).
  - destruct (load_empty l) eqn:Ee; [exists [], []; rewrite app_nil_r; split; [done|]; split; [by apply parts_none|by split]|].
    destruct (push_packet_spec (length ap) peer l Hok) as (b & part & rest & -> & Hsp & Hp & Hr & Hc & Hlt). cbn [mbind outcome_bind]. specialize (Hlt Ee).
    destruct (IH rest (ap ++ [(peer, b)]) Hr ltac:(lia)) as (aps & parts & -> & Hparts & Hoks & Hall). exists ((peer, b) :: aps), (part :: parts).
    rewrite <- app_assoc. split; [done|]. split; [by econstructor|]. split; [by apply list.Forall_cons_2|]. by apply List.Forall2_cons.
Qed.
End sender.

(** ** What the receiver makes of a packet *)

Section receiver.
Context {T : Type -> Type} `{Table T} `{PacketSource} `{Crypto} `{Env}.
Context (self : Z).

(** The credentials of a packet in their order. *)
Definition creds_of (l : Load) : list credential :=
  match l_com l with Some c => [CCom c] | None => [] end ++ (CCapability <$> l_caps l) ++ (CTag <$> l_tags l) ++ (CCoo <$> l_coos l).

Fixpoint offer_all (d : Desk T) (from : Z) (cs : list credential) : outcome (Desk T * option Z) :=
  match cs with
  | [] => Ok (d, None)
  | c :: cs => '(d, w) ← offer self d from c; match w with Some a => Ok (d, Some a) | None => offer_all d from cs end
  end.

Lemma offer_all_app (d d' : Desk T) from cs cs' : offer_all d from (cs ++ cs') = Ok (d', None) ->
  exists d1, offer_all d from cs = Ok (d1, None) /\ offer_all d1 from cs' = Ok (d', None).
Proof.
  revert d. induction cs as [|c cs IH]; intros d; cbn [app offer_all]; [by exists d|]. destruct (offer self d from c) as [[d1 [a|]]| |]; cbn [mbind outcome_bind]; try done. apply IH.
Qed.

Lemma read_creds_reads t b from : buf_ok b -> forall cs d d' p rest, Forall (fun c => wf c /\ credential_type c = t) cs -> rest_at b p (concat (enc <$> cs) ++ rest) ->
  offer_all d from cs = Ok (d', None) ->
  read_creds self t (length cs) d from b p = Ok (d', Next (p + zlen (concat (enc <$> cs)))) /\ rest_at b (p + zlen (concat (enc <$> cs))) rest.
Proof.
  intros Hb cs. induction cs as [|c cs IH]; intros d d' p rest Hcs Hr Ho; cbn [offer_all] in Ho.
  { injection Ho as <-. change (zlen (concat (enc <$> []))) with 0. rewrite Z.add_0_r. done. }
  apply list.Forall_cons in Hcs as [[Hw <-] Hcs]. change (concat (enc <$> c :: cs)) with (enc c ++ concat (enc <$> cs)) in *. rewrite <- app_assoc in Hr.
  cbn [length read_creds]. rewrite (parse_reads c b p _ Hw Hb Hr). cbn [attempt]. apply rest_at_next in Hr.
  destruct (offer self d from c) as [[d1 [a|]]| |]; [discriminate Ho| |discriminate Ho..]. cbn [mbind outcome_bind attempt] in *.
  rewrite zlen_app, Z.add_assoc. by apply IH.
Qed.

Lemma read_section_reads t b from cs d d' p rest : buf_ok b -> Forall (fun c => wf c /\ credential_type c = t) cs -> zlen cs < 2 ^ 16 -> rest_at b p (section_enc cs ++ rest) ->
  offer_all d from cs = Ok (d', None) ->
  read_section self t d from b p = Ok (d', Next (p + zlen (section_enc cs))) /\ rest_at b (p + zlen (section_enc cs)) rest.
Proof.
  intros Hb Hcs Hl Hr Ho. unfold section_enc in *. rewrite <- app_assoc in Hr. pose proof (zlen_nonneg cs). apply (at_rest b Hb) in Hr as [E Hr].
  unfold read_section. rewrite E. cbn [attempt]. change (2 ^ (8 * Z.of_nat 2)) with (2 ^ 16). rewrite Z.mod_small by lia. unfold zlen at 1. rewrite Nat2Z.id.
  rewrite zlen_app, zlen_be_bytes, Z.add_assoc. by apply read_creds_reads.
Qed.

Lemma part_sizes l : load_ok l -> zlen (l_caps l) < 2 ^ 16 -> zlen (l_tags l) < 2 ^ 16 -> zlen (l_coos l) < 2 ^ 16 ->
  Forall2 (fun t cs => Forall (fun c => wf c /\ credential_type c = t) cs /\ zlen cs < 2 ^ 16) credential_sections
    [CCapability <$> l_caps l; CTag <$> l_tags l; []; CCoo <$> l_coos l].
Proof.
  intros [_ Hc1 Hc2 Hc3] L1 L2 L3. unfold credential_sections. repeat apply List.Forall2_cons; [..|apply List.Forall2_nil].
  all: unfold zlen; rewrite ?length_fmap; split; try done. all: apply list.Forall_fmap; eapply list.Forall_impl; [eassumption|]; by intros c [? _].
Qed.

Lemma section_enc_len cs : 2 <= zlen (section_enc cs).
Proof. unfold section_enc. rewrite zlen_app, zlen_be_bytes. pose proof (zlen_nonneg (concat (enc <$> cs))). lia. Qed.

Lemma read_sections_reads b from : buf_ok b -> forall ts css later d d' p,
  Forall2 (fun t cs => Forall (fun c => wf c /\ credential_type c = t) cs /\ zlen cs < 2 ^ 16) ts css -> rest_at b p (concat (section_enc <$> css)) ->
  offer_all d from (concat css) = Ok (d', None) -> exists p', read_sections self ts later d from b p = Ok (d', Next p').
Proof.
  intros Hb ts css later d d' p Hall. revert later d p. induction Hall as [|t cs ts css [Hcs Hl] _ IH]; intros later d p Hr Ho; cbn [read_sections].
  { cbn [concat offer_all] in Ho. injection Ho as <-. by eexists. }
  change (concat (section_enc <$> cs :: css)) with (section_enc cs ++ concat (section_enc <$> css)) in Hr. cbn [concat] in Ho.
  pose proof (rest_at_bound b Hb _ _ Hr) as [_ Hbd].
  rewrite zlen_app in Hbd. pose proof (zlen_nonneg (concat (section_enc <$> css))). pose proof (section_enc_len cs) as Hz. assert ((later && (size b <=? p)) = false) as ->.
  { unfold size. rewrite (proj2 (Z.leb_gt _ _)) by lia. apply andb_false_r. }
  apply offer_all_app in Ho as (d1 & Ho1 & Ho). destruct (read_section_reads t b from cs d d1 p _ Hb Hcs Hl Hr Ho1) as [E Hr']. rewrite E. cbn [mbind outcome_bind]. by apply IH.
Qed.

(** A packet with [part] is handled as the credentials of [part] are offered, one after the other. *)
Lemma read_credentials_part nets ap from b part d : buf_ok b -> load_ok part -> zlen (l_caps part) < 2 ^ 16 -> zlen (l_tags part) < 2 ^ 16 -> zlen (l_coos part) < 2 ^ 16 ->
  match l_com part with Some c => COM.COM_bool c = true | None => True end -> rest_at b ZT_PACKET_IDX_PAYLOAD (part_enc part) ->
  offer_all (mkDesk nets ap None false) from (creds_of part) = Ok (d, None) ->
  read_credentials self nets ap from b =
    Ok (d_nets d, d_sent d, HReceived (d_trust d) (match d_network d ≫= (fun i => d_nets d !! i) with Some n => _id n | None => 0 end)).
Proof.
  intros Hb Hok L1 L2 L3 Hcom Hr Ho. set (d0 := mkDesk nets ap None false) in *. unfold creds_of in Ho. apply offer_all_app in Ho as (d1 & Ho1 & Ho).
  unfold part_enc in Hr. pose proof (rest_at_bound b Hb _ _ Hr) as [_ Hbd].
  set (secs := section_enc (CCapability <$> l_caps part) ++ _) in *. rewrite zlen_app, zlen_app in Hbd. change (zlen (be_bytes 1 0)) with 1 in Hbd.
  set (cb := match l_com part with Some c => COM.enc c | None => [] end) in *. pose proof (zlen_nonneg cb). pose proof (zlen_nonneg secs).
  assert (2 <= zlen secs) as Hsec by (unfold secs; rewrite zlen_app; pose proof (section_enc_len (CCapability <$> l_caps part)); pose proof (zlen_nonneg (section_enc (CTag <$> l_tags part) ++ be_bytes 2 0 ++ section_enc (CCoo <$> l_coos part))); lia).
  assert (read_coms self (S (Z.to_nat (size b))) d0 from com_nil b ZT_PACKET_IDX_PAYLOAD = Ok (d1, Next (ZT_PACKET_IDX_PAYLOAD + zlen cb))) as Ec.
  { unfold ZT_PACKET_IDX_PAYLOAD in *. unfold cb in *. destruct (l_com part) as [c|] eqn:Epc.
    - pose proof (lo_com _ Hok) as Hc. rewrite Epc in Hc. destruct Hc as [(Hw1 & Hw2 & Hw3) _]. cbn [read_coms]. rewrite (proj2 (Z.ltb_lt _ _)) by (unfold size; lia).
      assert (exists rest', COM.enc c = 1 :: rest') as [rest' Er] by (unfold COM.enc, COM.body; by eexists).
      pose proof Hr as Hr1. rewrite Er in Hr1. cbn [app] in Hr1. destruct (index_rest b Hb _ _ _ Hr1) as [-> _]. cbn [attempt Z.eqb].
      rewrite (COM.com_reads c com_nil b 28 _ Hw1 Hw2 Hw3 Hb Hr). cbn [attempt]. rewrite Hcom. cbn [offer_all] in Ho1.
      destruct (offer self d0 from (CCom c)) as [[d2 [a|]]| |]; [discriminate Ho1| |discriminate Ho1..]. cbn [mbind outcome_bind attempt] in *. injection Ho1 as <-.
      apply rest_at_next in Hr. apply (index_rest_be b Hb) in Hr as [E _].
      destruct (Z.to_nat (size b)); cbn [read_coms]; (rewrite (proj2 (Z.ltb_lt _ _)) by (unfold size; lia)); rewrite E; done.
    - cbn [offer_all] in Ho1. injection Ho1 as <-. cbn [read_coms]. rewrite (proj2 (Z.ltb_lt _ _)) by (unfold size; lia). cbn [app] in Hr. apply (index_rest_be b Hb) in Hr as [-> _]. done. }
  unfold read_credentials. fold d0. rewrite Ec. cbn [mbind outcome_bind]. apply rest_at_next in Hr. apply (index_rest_be b Hb) in Hr as [_ Hr].
  rewrite (proj2 (Z.ltb_lt _ _)) by (unfold size; lia).
  destruct (read_sections_reads b from Hb _ _ false d1 d (ZT_PACKET_IDX_PAYLOAD + zlen cb + 1) (part_sizes _ Hok L1 L2 L3)) as [p' ->]; [| |done].
  - unfold secs in Hr. cbn [fmap list_fmap concat]. rewrite app_nil_r. exact Hr.
  - cbn [concat app]. by rewrite app_nil_r.
Qed.
End receiver.

(** ** What a member ends up with *)

Section delivered.
Context `{PacketSource} `{Crypto} `{Env}.
Context (self : Z).
Implicit Type m : Membership (gmap Z).

Definition owner_of (c : credential) : Z :=
  match c with
  | CCom c => COM.issuedTo c | CCapability c => Capability.issuedTo c | CTag t => Tag._issuedTo t | CCoo c => COO._issuedTo c
  | CRevocation r => Revocation._target r
  end.
Definition key_of (c : credential) : Z * Z :=
  (Type_int (credential_type c),
   match c with CCom _ => 0 | CCapability c => Capability._id c | CTag t => Tag._id t | CCoo c => COO._id c | CRevocation r => Revocation._id r end).

(** A credential that the membership takes: it verifies, is not revoked and is not older than what is there. *)
Definition cred_fits {C} `{Cred C} (creds : gmap Z C) (revs : gmap Z Z) (c : C) : Prop :=
  cred_verify c = Ok VOk /\ (forall old, creds !! cred_id c = Some old -> cred_timestamp old <= cred_timestamp c) /\
  (forall t, revs !! credentialKey (Type_int (cred_type (C := C))) (cred_id c) = Some t -> t < cred_timestamp c).
Definition fits m (c : credential) : Prop :=
  match c with
  | CCom c => COM.verify c = VOk /\ _comRevocationThreshold m < COM.timestamp c /\ COM.timestamp (_com m) <= COM.timestamp c
  | CCapability c => cred_fits (_remoteCaps m) (_revocations m) c
  | CTag t => cred_fits (_remoteTags m) (_revocations m) t
  | CCoo c => cred_fits (_remoteCoos m) (_revocations m) c
  | CRevocation _ => False
  end.

(** It has it then. *)
Definition holds m (c : credential) : Prop :=
  match c with
  | CCom c => _com m = c | CCapability c => _remoteCaps m !! Capability._id c = Some c | CTag t => _remoteTags m !! Tag._id t = Some t
  | CCoo c => _remoteCoos m !! COO._id c = Some c | CRevocation _ => False
  end.
Definition store m (c : credential) : Membership (gmap Z) :=
  match c with
  | CCom c => set_com m c
  | CCapability c => mkMembership (_lastUpdatedMulticast m) (_comRevocationThreshold m) (_lastPushedCredentials m) (_com m) (_revocations m) (_remoteTags m)
                       (<[Capability._id c := c]> (_remoteCaps m)) (_remoteCoos m)
  | CTag t => mkMembership (_lastUpdatedMulticast m) (_comRevocationThreshold m) (_lastPushedCredentials m) (_com m) (_revocations m) (<[Tag._id t := t]> (_remoteTags m))
                       (_remoteCaps m) (_remoteCoos m)
  | CCoo c => mkMembership (_lastUpdatedMulticast m) (_comRevocationThreshold m) (_lastPushedCredentials m) (_com m) (_revocations m) (_remoteTags m)
                       (_remoteCaps m) (<[COO._id c := c]> (_remoteCoos m))
  | CRevocation _ => m
  end.

Lemma store_holds m c : fits m c -> holds (store m c) c.
Proof. destruct c; cbn; try done; intros _; apply lookup_insert_eq. Qed.

Lemma store_keeps m c c' : key_of c <> key_of c' -> (fits m c -> fits (store m c') c) /\ (holds m c -> holds (store m c') c).
Proof.
  intros Hk. destruct c, c'; cbn; try done; unfold cred_fits; (split; [intros (? & Hold & ?); split; [done|]; split; [|done]|]);
    unfold cred_id, capability_cred, tag_cred, coo_cred in *; rewrite ?lookup_insert_ne by (intros E; apply Hk; unfold key_of; by rewrite E); done.
Qed.

Lemma addCredImpl_stores {C} `{Cred C} `{EqDecision C} (creds : gmap Z C) revs (c : C) : (forall a b, cred_eqb a b = true -> a = b) -> cred_fits creds revs c ->
  exists r, addCredImpl creds revs c = Ok (<[cred_id c := c]> creds, r) /\ (r = ADD_ACCEPTED_NEW \/ r = ADD_ACCEPTED_REDUNDANT).
Proof.
  intros Heq (Hv & Hold & Hrev). assert (addCred_checked creds revs c = Ok (<[cred_id c := c]> creds, ADD_ACCEPTED_NEW)) as Hc.
  { unfold addCred_checked. cbn [tab_get gmap_table mbind outcome_bind]. rewrite Hv. destruct (revs !! _) as [t|] eqn:Er; [|done].
    rewrite (proj2 (Z.leb_gt _ _)) by (by apply Hrev). done. }
  unfold addCredImpl. cbn [tab_get gmap_table mbind outcome_bind]. destruct (creds !! cred_id c) as [old|] eqn:Eo; [|by eexists; split; [|left]].
  rewrite (proj2 (Z.ltb_ge _ _)) by (by apply Hold). destruct (cred_eqb old c) eqn:Ee; [|by eexists; split; [|left]].
  apply Heq in Ee as ->. rewrite insert_id by done. by eexists; split; [|right].
Qed.

Lemma com_eqb_eq a b : COM.eqb a b = true -> a = b.
Proof.
  unfold COM.eqb. rewrite !andb_true_iff. intros [[[Hs%Z.eqb_eq _] Hq%bool_decide_eq_true] Hg%bool_decide_eq_true]. destruct a, b. cbn in *. congruence.
Qed.

(** A network of the node gets a credential of one of its members. *)
Lemma net_add_stores (n : Network (gmap Z)) ap from c (m := default Membership_new (_memberships n !! owner_of c)) : nwid_of c = _id n -> fits m c ->
  exists r, net_add self n ap from c = Ok (set_memberships n (<[owner_of c := store m c]> (_memberships n)), ap, r) /\ (r = ADD_ACCEPTED_NEW \/ r = ADD_ACCEPTED_REDUNDANT).
Proof.
  intros Hn Hf. assert (forall add m' r, add m = Ok (m', r) ->
    add_to n (_id n) (owner_of c) add = Ok (set_memberships n (<[owner_of c := m']> (_memberships n)), r)) as Hadd.
  { intros add m' r E. unfold add_to. rewrite Z.eqb_refl. cbn [negb]. unfold _membership, put_membership. cbn [tab_index gmap_table mbind outcome_bind set_memberships _memberships].
    unfold m in E. unfold set_memberships at 2. cbn [_memberships]. rewrite E. cbn [mbind outcome_bind tab_set gmap_table set_memberships _memberships].
    unfold set_memberships. cbn. do 2 f_equal. f_equal. case_decide; [apply insert_insert_eq|done]. }
  destruct c as [c|c|t|c|rev]; cbn [net_add nwid_of owner_of store fits] in *; [..|done].
  - unfold addCredential_com. rewrite Hn. destruct Hf as (Hv & Ht & Hold).
    assert (exists r, Membership.addCredential_com m c = (set_com m c, r) /\ (r = ADD_ACCEPTED_NEW \/ r = ADD_ACCEPTED_REDUNDANT)) as (r & E & Hr).
    { unfold Membership.addCredential_com. rewrite (proj2 (Z.leb_gt _ _)), (proj2 (Z.ltb_ge _ _)) by done. destruct (COM.eqb (_com m) c) eqn:Ee.
      - apply com_eqb_eq in Ee. exists ADD_ACCEPTED_REDUNDANT. split; [|by right]. rewrite <- Ee. by destruct m.
      - rewrite Hv. eexists. split; [done|by left]. }
    exists r. split; [|done]. rewrite (Hadd _ (set_com m c) r); [done|]. cbn. by rewrite E.
  - unfold addCredential_cap. rewrite Hn. destruct (addCredImpl_stores (_remoteCaps m) (_revocations m) c) as (r & E & Hr); [by intros ?? ?%bool_decide_eq_true|done|].
    exists r. split; [|done]. erewrite Hadd; [done|]. unfold Membership.addCredential_cap. rewrite E. done.
  - unfold addCredential_tag. rewrite Hn. destruct (addCredImpl_stores (_remoteTags m) (_revocations m) t) as (r & E & Hr); [by intros ?? ?%bool_decide_eq_true|done|].
    exists r. split; [|done]. erewrite Hadd; [done|]. unfold Membership.addCredential_tag. rewrite E. done.
  - unfold addCredential_coo. rewrite Hn. destruct (addCredImpl_stores (_remoteCoos m) (_revocations m) c) as (r & E & Hr); [by intros ?? ?%bool_decide_eq_true|done|].
    exists r. split; [|done]. erewrite Hadd; [done|]. unfold Membership.addCredential_coo. rewrite E. done.
Qed.
End delivered.

Section run.
Context `{PacketSource} `{Crypto} `{Env}.
Context (self nwid a : Z).
Implicit Type nets : gmap Z (Network (gmap Z)).

Lemma holds_fold cs : forall m c, Forall (fun c' => key_of c <> key_of c') cs -> holds m c -> holds (foldl store m cs) c.
Proof.
  induction cs as [|c' cs IH]; intros m c Hk Hh; [done|]. apply list.Forall_cons in Hk as [Hk Hks]. cbn [foldl]. apply IH; [done|]. by apply (store_keeps m c c' Hk).
Qed.

Lemma fits_fold cs : forall m c, Forall (fun c' => key_of c <> key_of c') cs -> fits m c -> fits (foldl store m cs) c.
Proof.
  induction cs as [|c' cs IH]; intros m c Hk Hh; [done|]. apply list.Forall_cons in Hk as [Hk Hks]. cbn [foldl]. apply IH; [done|]. by apply (store_keeps m c c' Hk).
Qed.

Lemma nodup_keys c cs : NoDup (key_of <$> c :: cs) -> Forall (fun c' => key_of c <> key_of c') cs /\ Forall (fun c' => key_of c' <> key_of c) cs /\ NoDup (key_of <$> cs).
Proof.
  cbn [fmap list_fmap]. intros [Hn Hd]%list.NoDup_cons. split_and!; [| |done]; apply list.Forall_forall; intros c' Hc' E; apply Hn; apply list_elem_of_fmap; exists c'; by split.
Qed.

Lemma stored_all cs : forall m, NoDup (key_of <$> cs) -> Forall (fits m) cs -> Forall (holds (foldl store m cs)) cs.
Proof.
  induction cs as [|c cs IH]; intros m Hd Hf; [constructor|]. apply nodup_keys in Hd as (Hk & Hk' & Hd). apply list.Forall_cons in Hf as [Hf Hfs]. cbn [foldl]. apply list.Forall_cons_2.
  - apply holds_fold; [done|by apply store_holds].
  - apply IH; [done|]. apply list.Forall_forall. intros c' Hc'. apply store_keeps; [exact (proj1 (list.Forall_forall _ _) Hk' c' Hc')|exact (proj1 (list.Forall_forall _ _) Hfs c' Hc')].
Qed.

(** The member [a] of the network [nwid] got the credentials [cs]; nothing else changed. *)
Definition member_of (n : Network (gmap Z)) : Membership (gmap Z) := default Membership_new (_memberships n !! a).
Definition gave nets (cs : list credential) nets' : Prop :=
  exists n ms, nets !! nwid = Some n /\ nets' = <[nwid := set_memberships n ms]> nets /\
    (forall a', a' <> a -> ms !! a' = _memberships n !! a') /\ default Membership_new (ms !! a) = foldl store (member_of n) cs.

Lemma gave_nil nets n : nets !! nwid = Some n -> gave nets [] nets.
Proof. intros Hn. exists n, (_memberships n). split; [done|]. split; [|done]. rewrite insert_id; [done|]. rewrite Hn. by destruct n. Qed.

Lemma gave_app nets cs nets1 cs' nets2 : gave nets cs nets1 -> gave nets1 cs' nets2 -> gave nets (cs ++ cs') nets2.
Proof.
  intros (n & ms & Hn & -> & Ho & Hm) (n1 & ms1 & Hn1 & -> & Ho1 & Hm1). rewrite lookup_insert_eq in Hn1. injection Hn1 as <-. exists n, ms1. split; [done|]. split; [by rewrite insert_insert_eq|].
  split; [intros a' Ha; rewrite Ho1 by done; cbn; by apply Ho|]. rewrite foldl_app, <- Hm. exact Hm1.
Qed.

Lemma offer_stores (d : Desk (gmap Z)) from c n : nwid_of c = nwid -> owner_of c = a -> d_nets d !! nwid = Some n -> _id n = nwid -> fits (member_of n) c ->
  exists d', offer self d from c = Ok (d', None) /\ gave (d_nets d) [c] (d_nets d') /\ d_sent d' = d_sent d.
Proof.
  intros Hw Ho Hn Hi Hf. unfold offer. rewrite Hw. set (d1 := if _ || _ then _ else d). assert (d_network d1 = Some nwid /\ d_nets d1 = d_nets d /\ d_sent d1 = d_sent d) as (E1 & E2 & E3).
  { unfold d1. destruct (is_com c || negb _) eqn:Eb; [unfold d_look; cbn; rewrite decide_False by (by rewrite Hn); done|]. apply orb_false_iff in Eb as [_ Eb%negb_false_iff%bool_decide_eq_true]. done. }
  clearbody d1. rewrite E1. cbn [mbind option_bind]. rewrite E2, Hn, E3. unfold member_of in Hf. rewrite <- Ho in Hf. destruct (net_add_stores self n (d_sent d) from c) as (r & E & Hr); [congruence|done|].
  rewrite E. cbn [mbind outcome_bind]. assert (gave (d_nets d) [c] (<[nwid := set_memberships n (<[owner_of c := store (default Membership_new (_memberships n !! owner_of c)) c]> (_memberships n))]> (d_nets d))) as Hg.
  { eexists n, _. split; [done|]. split; [done|]. rewrite Ho. split; [intros; by rewrite lookup_insert_ne|]. rewrite lookup_insert_eq. done. }
  destruct Hr as [-> | ->]; eexists; (split; [reflexivity|]); done.
Qed.

Lemma offer_all_stores from cs : forall (d : Desk (gmap Z)) n, Forall (fun c => nwid_of c = nwid /\ owner_of c = a) cs -> NoDup (key_of <$> cs) ->
  d_nets d !! nwid = Some n -> _id n = nwid -> Forall (fits (member_of n)) cs ->
  exists d', offer_all self d from cs = Ok (d', None) /\ gave (d_nets d) cs (d_nets d') /\ d_sent d' = d_sent d.
Proof.
  induction cs as [|c cs IH]; intros d n Hcs Hd Hn Hi Hf; cbn [offer_all].
  { exists d. split; [done|]. split; [by eapply gave_nil|done]. }
  apply list.Forall_cons in Hcs as [[Hw Ho] Hcs]. apply nodup_keys in Hd as (_ & Hk & Hd). apply list.Forall_cons in Hf as [Hf Hfs].
  destruct (offer_stores d from c n Hw Ho Hn Hi Hf) as (d1 & -> & Hg & Hs). cbn [mbind outcome_bind]. pose proof Hg as (n0 & ms & Hn0 & En & _ & Hm). rewrite Hn in Hn0. injection Hn0 as <-.
  destruct (IH d1 (set_memberships n ms)) as (d' & -> & Hg' & Hs'); try done.
  - rewrite En. apply lookup_insert_eq.
  - unfold member_of. cbn [_memberships set_memberships]. rewrite Hm. cbn [foldl]. apply list.Forall_forall. intros c' Hc'.
    apply store_keeps; [exact (proj1 (list.Forall_forall _ _) Hk c' Hc')|exact (proj1 (list.Forall_forall _ _) Hfs c' Hc')].
  - exists d'. split; [done|]. split; [exact (gave_app _ [c] _ cs _ Hg Hg')|congruence].
Qed.
End run.

(** ** Delivery *)

Section delivery.
Context {T : Type -> Type} `{Table T} `{PacketSource} `{PacketCrypto} `{Crypto} `{Env}.
Context (self : Z).

(** Packets that arrive one after the other, with the time. *)
Fixpoint receive_all (nets : gmap Z (Network T)) (ap : sends) (last from : Z) (l : list (Z * Buffer)) : outcome (gmap Z (Network T) * sends * Z) :=
  match l with
  | [] => Ok (nets, ap, last)
  | (now, b) :: l =>
      '(b, _) ← Armor.uncompress b;
      '(nets, ap, last, _) ← _doNETWORK_CREDENTIALS self nets ap last now from b;
      receive_all nets ap last from l
  end.

(** Far enough apart for the rate limit. *)
Fixpoint spaced (last : Z) (ts : list Z) : Prop :=
  match ts with [] => True | t :: ts => ZT_PEER_CREDENTIALS_RATE_LIMIT <= t - last < 2 ^ 63 /\ spaced t ts end.

(** A packet that comes within a second of the one before is not looked at. *)
Lemma credentials_dropped nets ap last now from b : - 2 ^ 63 <= now - last < ZT_PEER_CREDENTIALS_RATE_LIMIT -> _doNETWORK_CREDENTIALS self nets ap last now from b = Ok (nets, ap, last, HDone).
Proof.
  unfold ZT_PEER_CREDENTIALS_RATE_LIMIT. intros Ht. unfold _doNETWORK_CREDENTIALS, rateGateCredentialsReceived, ssub. rewrite bool_decide_eq_true_2 by (unfold srng; lia). cbn [mbind outcome_bind].
  unfold ZT_PEER_CREDENTIALS_RATE_LIMIT. by rewrite (proj2 (Z.leb_gt _ _)) by lia.
Qed.
End delivery.

Definition load_fits (l : Load) : Prop :=
  match l_com l with Some c => COM.COM_bool c = true | None => True end /\ zlen (l_caps l) < 2 ^ 16 /\ zlen (l_tags l) < 2 ^ 16 /\ zlen (l_coos l) < 2 ^ 16.

Lemma parts_creds l parts : load_parts l parts -> creds_of l ≡ₚ concat (creds_of <$> parts).
Proof.
  induction 1 as [l He|l part rest parts _ (E1 & E2 & E3 & E4 & E5) _ IH].
  - destruct l as [[] [] [] []]; done.
  - cbn [fmap list_fmap concat]. change (list_fmap _ _ creds_of parts) with (creds_of <$> parts). rewrite <- IH. unfold creds_of. rewrite E1, E2, E3, E4, E5, !fmap_app. cbn [app]. solve_Permutation.
Qed.

Lemma parts_fit l parts : load_parts l parts -> load_fits l -> Forall load_fits parts.
Proof.
  induction 1 as [l He|l part rest parts _ (E1 & E2 & E3 & E4 & E5) _ IH]; [constructor|]. intros (Hc & L1 & L2 & L3). rewrite E3, zlen_app in L1. rewrite E4, zlen_app in L2. rewrite E5, zlen_app in L3.
  pose proof (zlen_nonneg (l_caps part)). pose proof (zlen_nonneg (l_caps rest)). pose proof (zlen_nonneg (l_tags part)). pose proof (zlen_nonneg (l_tags rest)).
  pose proof (zlen_nonneg (l_coos part)). pose proof (zlen_nonneg (l_coos rest)). apply list.Forall_cons_2; [split; [by rewrite E1|lia]|]. apply IH. split; [by rewrite E2|lia].
Qed.

Section end_to_end.
Context {T : Type -> Type} `{Table T} `{PacketSourceLaws} `{PacketCrypto} `{!Lz4Laws} `{Crypto} `{Env}.
Context (sender peer nwid : Z).

Lemma receive_parts aps parts : Forall2 (fun x part => x.1 = peer /\ carries_part x.2 part) aps parts -> Forall load_ok parts -> Forall load_fits parts ->
  forall ts (nets : gmap Z (Network (gmap Z))) ap last n, length ts = length aps -> spaced last ts ->
  Forall (fun c => nwid_of c = nwid /\ owner_of c = sender) (concat (creds_of <$> parts)) -> NoDup (key_of <$> concat (creds_of <$> parts)) ->
  nets !! nwid = Some n -> _id n = nwid -> Forall (fits (member_of sender n)) (concat (creds_of <$> parts)) ->
  exists nets' last', receive_all peer nets ap last sender (zip ts aps.*2) = Ok (nets', ap, last') /\ gave nwid sender nets (concat (creds_of <$> parts)) nets'.
Proof.
  induction 1 as [|[dst b] part aps parts [_ (r & Eu & Hr & Hrest)] _ IH]; intros Hoks Hfts [|t ts] nets ap last n Hlen Hsp Hcs Hd Hn Hi Hf; try discriminate Hlen.
  { exists nets, last. split; [done|]. by eapply gave_nil. }
  apply list.Forall_cons in Hoks as [Hok Hoks], Hfts as [(Hc & L1 & L2 & L3) Hfts]. destruct Hsp as [Ht Hsp]. injection Hlen as Hlen.
  change (concat (creds_of <$> part :: parts)) with (creds_of part ++ concat (creds_of <$> parts)) in *. rewrite fmap_app in Hd. apply list.NoDup_app in Hd as (Hd & Hdis & Hd').
  apply list.Forall_app in Hcs as [Hcs Hcs'], Hf as [Hf Hf']. cbn [fmap list_fmap zip zip_with snd receive_all]. cbn [snd] in Eu. rewrite Eu. cbn [mbind outcome_bind].
  destruct (offer_all_stores peer nwid sender sender (creds_of part) (mkDesk nets ap None false) n Hcs Hd Hn Hi Hf) as (d & Ho & Hg & Hs).
  unfold _doNETWORK_CREDENTIALS, rateGateCredentialsReceived, ssub. unfold ZT_PEER_CREDENTIALS_RATE_LIMIT in *. rewrite bool_decide_eq_true_2 by (unfold srng; lia). cbn [mbind outcome_bind].
  rewrite (proj2 (Z.leb_le _ _)) by lia. rewrite (read_credentials_part peer nets ap sender r part d Hr Hok L1 L2 L3 Hc Hrest Ho). cbn [mbind outcome_bind]. rewrite Hs. cbn [d_nets d_sent] in *.
  pose proof Hg as (n0 & ms & Hn0 & En & _ & Hm). rewrite Hn in Hn0. injection Hn0 as <-.
  destruct (IH Hoks Hfts ts (d_nets d) ap t (set_memberships n ms) Hlen Hsp Hcs' Hd') as (nets' & last' & E & Hg').
  - rewrite En. apply lookup_insert_eq.
  - done.
  - unfold member_of. cbn [_memberships set_memberships]. rewrite Hm. apply list.Forall_forall. intros c Hin. apply fits_fold; [|exact (proj1 (list.Forall_forall _ _) Hf' c Hin)].
    apply list.Forall_forall. intros c' Hin' Ek. apply (Hdis (key_of c')); [apply list_elem_of_fmap; by exists c'|]. rewrite <- Ek. apply list_elem_of_fmap; by exists c.
  - exists nets', last'. split; [exact E|]. by eapply gave_app.
Qed.

(** C29. What [pushCredentials] sends, in however many packets, gives the other member all the credentials of the configuration: when each of the packets has
    arrived, at least a second after the one before, its membership of the sender holds the certificate of membership and every capability, tag and certificate of
    ownership, provided they verify there, are not revoked and are not older than what it had; and nothing else has changed. *)
Theorem credentials_delivered (m : Membership T) (ap : sends) (now last : Z) (nc : NetworkConfig) (nets : gmap Z (Network (gmap Z))) n (cs := creds_of (load_of nc)) :
  load_ok (load_of nc) -> zlen (capabilities nc) <= ZT_MAX_NETWORK_CAPABILITIES -> zlen (tags nc) <= ZT_MAX_NETWORK_TAGS ->
  zlen (certificatesOfOwnership nc) <= ZT_MAX_CERTIFICATES_OF_OWNERSHIP -> Forall (fun c => nwid_of c = nwid /\ owner_of c = sender) cs -> NoDup (key_of <$> cs) ->
  nets !! nwid = Some n -> _id n = nwid -> Forall (fits (member_of sender n)) cs ->
  exists aps, pushCredentials sender m ap now peer nc = Ok (set_lastPushedCredentials m now, ap ++ aps) /\ Forall (fun x => x.1 = peer) aps /\
    forall ts, length ts = length aps -> spaced last ts ->
      exists nets' last' n', receive_all peer nets [] last sender (zip ts aps.*2) = Ok (nets', [], last') /\ nets' !! nwid = Some n' /\
        Forall (holds (member_of sender n')) cs /\ (forall i, i <> nwid -> nets' !! i = nets !! i) /\ (forall a, a <> sender -> _memberships n' !! a = _memberships n !! a).
Proof.
  intros Hok L1 L2 L3 Hcs Hd Hn Hi Hf. unfold pushCredentials. rewrite !(proj2 (Z.ltb_ge _ _)) by done. cbn [orb].
  destruct (push_loop_spec sender peer (push_fuel (load_of nc)) (load_of nc) ap Hok) as (aps & parts & -> & Hparts & Hoks & Hall).
  { unfold load_size, push_fuel. destruct (l_com _); lia. }
  cbn [mbind outcome_bind]. exists aps. split; [done|]. split.
  { clear -Hall. induction Hall as [|x part aps parts [Hx _] _ IH]; constructor; done. }
  intros ts Hlen Hsp. pose proof (parts_creds _ _ Hparts) as Hperm. fold cs in Hperm.
  assert (load_fits (load_of nc)) as Hfit.
  { unfold load_fits, load_of, ZT_MAX_NETWORK_CAPABILITIES, ZT_MAX_NETWORK_TAGS, ZT_MAX_CERTIFICATES_OF_OWNERSHIP in *. cbn [l_com l_caps l_tags l_coos]. split; [by destruct (COM.COM_bool (com nc)) eqn:?|lia]. }
  destruct (receive_parts aps parts Hall Hoks (parts_fit _ _ Hparts Hfit) ts nets [] last n Hlen Hsp) as (nets' & last' & E & (n0 & ms & Hn0 & En & Hoth & Hm)); try done; [by rewrite <- Hperm..|].
  rewrite Hn in Hn0. injection Hn0 as <-. exists nets', last', (set_memberships n ms). split; [exact E|]. split; [rewrite En; apply lookup_insert_eq|]. split_and!.
  - unfold member_of. cbn [_memberships set_memberships]. rewrite Hm. rewrite Hperm. apply stored_all; by rewrite <- Hperm.
  - intros i Hne. rewrite En. by apply lookup_insert_ne.
  - intros a Ha. by apply Hoth.
Qed.
End end_to_end.

(** ** Witness *)

(** A member with a certificate of membership and two tags. *)
Definition push_nconf : NetworkConfig :=
  mkNetworkConfig example_nwid 1000000 7200000 1 0x1122334455 0 0 0 2800 32 [] [] [] [] [] [signed_tag 5 999000; signed_tag 6 999500] [] ZT_NETWORK_TYPE_PRIVATE []
    (signed_com 1000000) (mkDNS [] []) (mkSSO false 0 [] 0 [] [] [] [] [] []).
Definition push_net : Network (gmap Z) := Network_new 0 8 example_nwid.

Lemma push_load_ok : load_ok (load_of push_nconf).
Proof.
  split.
  - change (match l_com (load_of push_nconf) with Some c => sendable (CCom c) | None => True end) with (sendable (CCom (signed_com 1000000))). split; [|exact I].
    split; [split_and!; by_compute|]. split; [vm_compute; repeat split; discriminate|]. intros E. vm_compute in E. discriminate E.
  - constructor.
  - change (Forall (fun c => sendable (CTag c)) [signed_tag 5 999000; signed_tag 6 999500]).
    apply list.Forall_cons_2; [split; [unfold wf, Tag.ok; split_and!; by_compute|exact I]|]. apply list.Forall_cons_2; [split; [unfold wf, Tag.ok; split_and!; by_compute|exact I]|]. apply list.Forall_nil_2.
  - constructor.
Qed.

Lemma push_fits : Forall (fits (H0 := toy_crypto) (H1 := toy_env) (member_of 0x1122334455 push_net)) (creds_of (load_of push_nconf)).
Proof.
  change (creds_of (load_of push_nconf)) with [CCom (signed_com 1000000); CTag (signed_tag 5 999000); CTag (signed_tag 6 999500)].
  assert (forall t, cred_verify (H := toy_crypto) (H0 := toy_env) t = Ok VOk -> fits (H0 := toy_crypto) (H1 := toy_env) (member_of 0x1122334455 push_net) (CTag t)) as Ht
    by (intros t Hv; split; [exact Hv|]; split; intros x E; vm_compute in E; discriminate E).
  apply list.Forall_cons_2; [split; [vm_compute; reflexivity|split; by_compute]|].
  apply list.Forall_cons_2; [apply Ht; vm_compute; reflexivity|]. apply list.Forall_cons_2; [apply Ht; vm_compute; reflexivity|]. apply list.Forall_nil_2.
Qed.

Lemma credentials_delivered_witness :
  exists aps, pushCredentials 0x1122334455 (Membership_new (T := gmap Z)) [] 1000 8 push_nconf = Ok (set_lastPushedCredentials (T := gmap Z) Membership_new 1000, aps) /\ length aps = 1%nat /\
    exists nets' last' n', receive_all (H2 := toy_crypto) (H3 := toy_env) 8 {[example_nwid := push_net]} [] 0 0x1122334455 (zip [2000] aps.*2) = Ok (nets', [], last') /\
      nets' !! example_nwid = Some n' /\ holds (member_of 0x1122334455 n') (CTag (signed_tag 6 999500)).
Proof.
  destruct (credentials_delivered (T := gmap Z) (H4 := toy_crypto) (H5 := toy_env) 0x1122334455 8 example_nwid Membership_new [] 1000 0 push_nconf {[example_nwid := push_net]} push_net)
    as (aps & E & _ & Hd).
  - exact push_load_ok.
  - by_compute.
  - by_compute.
  - by_compute.
  - apply (bool_decide_unpack _). vm_compute. exact I.
  - apply (bool_decide_unpack _). vm_compute. exact I.
  - apply lookup_insert_eq.
  - reflexivity.
  - exact push_fits.
  - exists aps. assert (length aps = 1%nat) as Hl.
    { assert (match pushCredentials 0x1122334455 (Membership_new (T := gmap Z)) [] 1000 8 push_nconf with Ok (_, l) => length l =? 1 | _ => false end = true)%nat as Hc by (vm_compute; reflexivity).
      rewrite E in Hc. by apply Nat.eqb_eq in Hc. }
    split; [exact E|]. split; [exact Hl|]. destruct (Hd [2000]) as (nets' & last' & n' & Er & Hn & Hh & _); [by rewrite Hl|by_compute|].
    exists nets', last', n'. split; [exact Er|]. split; [exact Hn|]. exact (proj1 (list.Forall_forall _ _) Hh (CTag (signed_tag 6 999500)) ltac:(by_compute)).
Defined.
