(* ===== verification/NetworkGroups.v ===== *)
(** * Multicast groups and housekeeping of a network (node/Network.cpp)

    The groups this node subscribes to or bridges, how they are announced to other nodes (MULTICAST_LIKE), the gate that lets a member in, and [clean].
    What the topology knows of other nodes is the class [Peers]. *)

From stdpp Require Import sorting.
From S2P Require Import Prelude Buffer Serial Address InetAddress Identity Packet Table Credential Credentials Capability CredentialSet NetworkConfig NetconfDict Membership Filter Network CredentialTransfer SortedVector.
Import Network.

Definition ZT_MULTICAST_LIKE_EXPIRE : Z := 600000.
Definition BROADCAST : MulticastGroup := mkMulticastGroup 0xffffffffffff 0.

(** The upstream nodes, and whether there is a peer with an address. *)
Class Peers := { upstreamAddresses : list Z; getPeerNoCache : Z -> bool }.

(** Groups as numbers, in the order of [operator<]. *)
Definition group_key (g : MulticastGroup) : Z := InetAddress._mac g * 2 ^ 32 + _adi g.
Definition key_group (k : Z) : MulticastGroup := mkMulticastGroup (k / 2 ^ 32) (k mod 2 ^ 32).
Definition group_ok (g : MulticastGroup) : Prop := rng 48 (InetAddress._mac g) /\ rng 32 (_adi g).

Section Groups.
Context {T : Type -> Type} `{Table T} `{PacketSource} `{PacketCrypto} `{Crypto} `{Env} `{Peers} `{StdSort}.
Context (self : Z).

Definition subscribedToMulticastGroup (n : Network T) (mg : MulticastGroup) (includeBridgedGroups : bool) : outcome bool :=
  if binary_search group_key (_myMulticastGroups n) (group_key mg) then Ok true
  else if includeBridgedGroups then t ← tab_get (_multicastGroupsBehindMe n) (group_key mg); Ok (if t is Some _ then true else false)
  else Ok false.

Definition _allMulticastGroups (n : Network T) : list MulticastGroup :=
  unique MG.eqb (std_sort group_key
    (_myMulticastGroups n ++ (key_group <$> (tab_entries (_multicastGroupsBehindMe n)).*1) ++
     (if nonnull (_config n) && enableBroadcast (_config n) then [BROADCAST] else []))).

(** One tuple of network, MAC and ADI; [send] leaves anything in the array, which [reset] then starts anew. *)
Definition append_like (b : Buffer) (nwid : Z) (g : MulticastGroup) : outcome Buffer :=
  b ← append_int 8 b nwid; b ← MAC.appendTo b (InetAddress._mac g); append_int 4 b (_adi g).
Fixpoint announce_loop (nwid : Z) (ap : sends) (b : Buffer) (peer : Z) (l : list MulticastGroup) : outcome (sends * Buffer) :=
  match l with
  | [] => Ok (ap, b)
  | g :: l =>
      '(ap, b) ← (if ZT_PROTO_MAX_PACKET_LENGTH <=? size b + 24 then
                    '(b, _) ← Armor.compress b;
                    let ap := ap ++ [(peer, b)] in
                    b ← Packet.reset (mkBuffer (new_mem (length ap)) (size b)) (new_iv (length ap)) peer self Packet.VERB_MULTICAST_LIKE;
                    Ok (ap, b)
                  else Ok (ap, b));
      b ← append_like b nwid g;
      announce_loop nwid ap b peer l
  end.
Definition _announceMulticastGroupsTo (n : Network T) (ap : sends) (peer : Z) (allMulticastGroups : list MulticastGroup) : outcome sends :=
  b ← Packet.Packet (new_mem (length ap)) (new_iv (length ap)) peer self Packet.VERB_MULTICAST_LIKE;
  '(ap, b) ← announce_loop (_id n) ap b peer allMulticastGroups;
  if ZT_PROTO_MIN_PACKET_LENGTH <? size b then '(b, _) ← Armor.compress b; Ok (ap ++ [(peer, b)]) else Ok ap.

(** The nodes that always get the announcements: relays and replicators of the network, its controller, the upstreams. *)
Definition add_new (l : list Z) (a : Z) : list Z := if bool_decide (a ∈ l) then l else l ++ [a].
Definition alwaysAnnounceTo (n : Network T) : list Z :=
  std_sort (fun a : Z => a) (foldl add_new (add_new (alwaysContactAddresses (_config n)) (controller n)) upstreamAddresses).

(** The certificate of this node, for those who are not members. *)
Definition com_packet (k : nat) (a : Z) (com : COM.COM) : outcome Buffer :=
  b ← Packet.Packet (new_mem k) (new_iv k) a self Packet.VERB_NETWORK_CREDENTIALS;
  b ← COM.serialize b com;
  b ← append_int 1 b 0; b ← append_int 2 b 0; b ← append_int 2 b 0; b ← append_int 2 b 0; append_int 2 b 0.
Fixpoint announce_always (n : Network T) (ap : sends) (groups : list MulticastGroup) (l : list Z) : outcome sends :=
  match l with
  | [] => Ok ap
  | a :: l =>
      m ← tab_get (_memberships n) a;
      ap ← (if COM.COM_bool (com (_config n)) && bool_decide (m = None) && negb (a =? self) then
              b ← com_packet (length ap) a (com (_config n)); Ok (ap ++ [(a, b)])
            else Ok ap);
      ap ← _announceMulticastGroupsTo n ap a groups;
      announce_always n ap groups l
  end.

(** Every member in turn, whose identity is known. *)
Fixpoint update_members (n : Network T) (ap : sends) (now : Z) (isNew : bool) (groups : list MulticastGroup) (always : list Z) (l : list (Z * Membership T)) :
  outcome (Network T * sends) :=
  match l with
  | [] => Ok (n, ap)
  | (a, m) :: l =>
      '(n, ap) ← (if identity_bool (getIdentity a) then
                    '(m, g) ← multicastLikeGate m now;
                    n ← put_membership n a m;
                    ap ← (if (g || isNew) && isAllowedOnNetwork m (_config n) (getIdentity a) && negb (binary_search (fun a : Z => a) always a) then
                            _announceMulticastGroupsTo n ap a groups
                          else Ok ap);
                    Ok (n, ap)
                  else Ok (n, ap));
      update_members n ap now isNew groups always l
  end.

Definition _sendUpdatesToMembers (n : Network T) (ap : sends) (now : Z) (newMulticastGroup : option MulticastGroup) : outcome (Network T * sends) :=
  let groups := match newMulticastGroup with Some g => [g] | None => _allMulticastGroups n end in
  let isNew := match newMulticastGroup with Some _ => true | None => false end in
  '(n, ap, always) ← (if isNew || (ZT_MULTICAST_ANNOUNCE_PERIOD <=? u64 (now - _lastAnnouncedMulticastGroupsUpstream n)) then
                        let n := if isNew then n else set_lastAnnounced n (u64 now) in
                        let always := alwaysAnnounceTo n in
                        ap ← announce_always n ap groups always; Ok (n, ap, always)
                      else Ok (n, ap, []));
  update_members n ap now isNew groups always (tab_entries (_memberships n)).
Definition sendUpdatesToMembers (n : Network T) (ap : sends) (now : Z) : outcome (Network T * sends) := _sendUpdatesToMembers n ap now None.

Definition multicastSubscribe (n : Network T) (ap : sends) (now : Z) (mg : MulticastGroup) : outcome (Network T * sends) :=
  let mine := _myMulticastGroups n in
  if negb (binary_search group_key mine (group_key mg)) then
    _sendUpdatesToMembers (set_myMulticastGroups n (vec_insert mine (upper_bound group_key mine (group_key mg)) mg)) ap now (Some mg)
  else Ok (n, ap).
Definition multicastUnsubscribe (n : Network T) (mg : MulticastGroup) : Network T :=
  let mine := _myMulticastGroups n in
  let i := lower_bound group_key mine (group_key mg) in
  match mine !! i with Some g => if MG.eqb g mg then set_myMulticastGroups n (delete i mine) else n | None => n end.

(** A group behind this bridge is announced when it was not known. *)
Definition learnBridgedMulticastGroup (n : Network T) (ap : sends) (now : Z) (mg : MulticastGroup) (seen : Z) : outcome (Network T * sends) :=
  let tmp := zlen (tab_entries (_multicastGroupsBehindMe n)) in
  t ← tab_set (_multicastGroupsBehindMe n) (group_key mg) (u64 seen);
  let n := set_groupsBehindMe n t in
  if negb (tmp =? zlen (tab_entries t)) then _sendUpdatesToMembers n ap now (Some mg) else Ok (n, ap).

(** Whether a peer may take part; members are told the groups now and then. What is thrown inside makes it [false]. *)
Definition gate (n : Network T) (ap : sends) (now peer : Z) (identity : Identity) : outcome (Network T * sends * bool) :=
  if nonnull (_config n) then
    m ← tab_get (_memberships n) peer;
    if isPublic (_config n) || match m with Some m => isAllowedOnNetwork m (_config n) identity | None => false end then
      '(n, m) ← match m with Some m => Ok (n, m) | None => _membership n peer end;
      '(m, g) ← multicastLikeGate m now;
      n ← put_membership n peer m;
      if (g : bool) then
        match _announceMulticastGroupsTo n ap peer (_allMulticastGroups n) with
        | Ok ap => Ok (n, ap, true) | Throw _ => Ok (n, ap, false) | Undef => Undef
        end
      else Ok (n, ap, true)
    else Ok (n, ap, false)
  else Ok (n, ap, false).

(** Bridged groups that were not seen for long, and members that are no peers any more, are dropped. *)
Fixpoint clean_members (n : Network T) (l : list (Z * Membership T)) : outcome (Network T) :=
  match l with
  | [] => Ok n
  | (a, m) :: l => m ← Membership.clean m (_config n); n ← put_membership n a m; clean_members n l
  end.
Definition clean (n : Network T) (now : Z) : outcome (Network T) :=
  if _destroyed n then Ok n
  else
    g ← tab_keep (fun _ ts => negb (ZT_MULTICAST_LIKE_EXPIRE * 2 <? u64 (now - ts))) (_multicastGroupsBehindMe n);
    ms ← tab_keep (fun a _ => getPeerNoCache a) (_memberships n);
    let n := set_memberships (set_groupsBehindMe n g) ms in
    clean_members n (tab_entries ms).
End Groups.

(** ** Groups as numbers *)

Lemma group_key_inv g : group_ok g -> key_group (group_key g) = g.
Proof.
  destruct g as [m a]. intros [_ Ha]. unfold rng in Ha. cbn [InetAddress._mac _adi] in *. unfold group_key, key_group. cbn [InetAddress._mac _adi]. f_equal.
  - rewrite Z.div_add_l by lia. rewrite Z.div_small by lia. lia.
  - rewrite Z.add_comm, Z.mod_add by lia. apply Z.mod_small. lia.
Qed.
Lemma key_group_inv k : group_key (key_group k) = k.
Proof. unfold group_key, key_group. cbn [InetAddress._mac _adi]. rewrite Z.mul_comm. symmetry. by apply Z.div_mod. Qed.
Lemma group_key_ltb a b : group_ok a -> group_ok b -> MG.ltb a b = (group_key a <? group_key b).
Proof.
  destruct a as [m a], b as [m' a']. intros [_ Ha] [_ Hb]. unfold rng in *. cbn [InetAddress._mac _adi] in *. unfold MG.ltb, group_key. cbn [InetAddress._mac _adi]. symmetry.
  destruct (Z.ltb_spec m m'); [apply Z.ltb_lt; lia|]. destruct (Z.eqb_spec m m') as [->|]; [|apply Z.ltb_ge; lia].
  destruct (Z.ltb_spec a a'); [apply Z.ltb_lt|apply Z.ltb_ge]; lia.
Qed.
Lemma eqb_group a b : MG.eqb a b = true <-> a = b.
Proof. destruct a, b. unfold MG.eqb. cbn. rewrite andb_true_iff, !Z.eqb_eq. naive_solver. Qed.

(** ** Announcements *)

Definition like_enc (nwid : Z) (g : MulticastGroup) : list Z := be_bytes 8 nwid ++ MAC.to_bytes (InetAddress._mac g) ++ be_bytes 4 (_adi g).
Definition likes_enc (nwid : Z) (gs : list MulticastGroup) : list Z := concat (like_enc nwid <$> gs).

Lemma zlen_likes nwid gs : zlen (likes_enc nwid gs) = 18 * zlen gs.
Proof.
  induction gs as [|g gs IH]; [done|]. unfold likes_enc in *. cbn [fmap list_fmap concat]. rewrite zlen_app, IH, zlen_cons. change (zlen (like_enc nwid g)) with 18. lia.
Qed.

Lemma append_like_writes nwid g b : buf_ok b -> writes b (like_enc nwid g) (append_like b nwid g).
Proof.
  intros Hb. unfold append_like, like_enc. apply writes_bind; [done|by apply append_int_writes|]. intros b1 Hb1 _ _.
  apply writes_bind; [done|apply append_writes; [done|apply mac_bytes|done]|]. intros b2 Hb2 _ _. by apply append_int_writes.
Qed.

(** [reset] makes a packet like the constructor, whatever the array holds. *)
Lemma reset_new mem l iv dest source v : zlen mem = ZT_PROTO_MAX_PACKET_LENGTH ->
  Packet.reset (mkBuffer mem l) iv dest source v = Packet.Packet mem iv dest source v.
Proof. intros Hl. unfold Packet.reset, Packet.Packet, setSize, Buffer_sized, capacity. cbn [_b]. rewrite Hl. reflexivity. Qed.

Section announce.
Context {T : Type -> Type} `{PacketSourceLaws} `{PacketCrypto} `{!Lz4Laws}.
Context (self nwid peer : Z).

(** A MULTICAST_LIKE that is being written. *)
Definition likes_packet (b : Buffer) (gs : list MulticastGroup) : Prop :=
  buf_ok b /\ capacity b = ZT_PROTO_MAX_PACKET_LENGTH /\ exists iv mac, length iv = 8%nat /\ length mac = 8%nat /\
    data b = header_bytes iv peer self mac Packet.VERB_MULTICAST_LIKE ++ likes_enc nwid gs.

(** A packet as the receiver sees it after decompression. *)
Definition carries_likes (b : Buffer) (gs : list MulticastGroup) : Prop :=
  exists r, Armor.uncompress b = Ok (r, true) /\ buf_ok r /\ rest_at r ZT_PACKET_IDX_PAYLOAD (likes_enc nwid gs).
Definition announced (x : Z * Buffer) (gs : list MulticastGroup) : Prop := x.1 = peer /\ gs <> [] /\ carries_likes x.2 gs.

Lemma likes_size b gs : likes_packet b gs -> size b = 28 + 18 * zlen gs.
Proof.
  intros (Hb & _ & iv & mac & Hiv & Hmac & Hd). unfold size. by rewrite <- zlen_data, Hd, zlen_app, zlen_header_bytes, zlen_likes.
Qed.

Lemma likes_new k : exists b, Packet.Packet (new_mem k) (new_iv k) peer self Packet.VERB_MULTICAST_LIKE = Ok b /\ likes_packet b [].
Proof.
  destruct (new_packet_ok k) as (Hm & Hml & Hiv & Hivl).
  destruct (packet_new _ (new_iv k) peer self Packet.VERB_MULTICAST_LIKE Hm Hml Hiv Hivl) as (b & mac & -> & Hb & Hc & Hd & Hmac); [by_compute|].
  exists b. split; [done|]. split; [done|]. split; [done|]. exists (new_iv k), mac. rewrite app_nil_r. done.
Qed.

Lemma likes_sent b gs : likes_packet b gs -> exists c on, Armor.compress b = Ok (c, on) /\ carries_likes c gs.
Proof.
  intros (Hb & Hc & iv & mac & Hiv & Hmac & Hd). destruct (sent_packet b iv peer self mac Packet.VERB_MULTICAST_LIKE (likes_enc nwid gs)) as (c & on & r & E & Eu & Hr & Hdr); [done..|by_compute|done|done|].
  exists c, on. split; [done|]. exists r. split; [done|]. split; [done|]. exact (packet_payload_at r _ _ _ _ _ _ Hiv Hmac Hdr).
Qed.

Lemma likes_append b gs g : likes_packet b gs -> size b + 18 <= ZT_PROTO_MAX_PACKET_LENGTH -> exists b', append_like b nwid g = Ok b' /\ likes_packet b' (gs ++ [g]).
Proof.
  intros (Hb & Hc & iv & mac & Hiv & Hmac & Hd) Hs. destruct (writes_fits b (like_enc nwid g) (append_like b nwid g)) as (b' & -> & Hb' & Hd' & Hc'); [by apply append_like_writes|by rewrite Hc|].
  exists b'. split; [done|]. split; [done|]. split; [congruence|]. exists iv, mac. split; [done|]. split; [done|]. rewrite Hd', Hd, <- app_assoc. f_equal.
  unfold likes_enc. rewrite fmap_app, concat_app. cbn [fmap list_fmap concat]. by rewrite app_nil_r.
Qed.

Lemma announce_loop_spec l : forall ap b gs, likes_packet b gs -> exists aps parts b' rest, announce_loop self nwid ap b peer l = Ok (ap ++ aps, b') /\
  likes_packet b' rest /\ concat parts ++ rest = gs ++ l /\ Forall2 announced aps parts.
Proof.
  induction l as [|g l IH]; intros ap b gs Hp; cbn [announce_loop]; [exists [], [], b, gs; rewrite !app_nil_r; done|].
  assert (ZT_PROTO_MAX_PACKET_LENGTH = 10024) as Emax by by_compute.
  pose proof (likes_size b gs Hp) as Hsz. destruct (Z.leb_spec ZT_PROTO_MAX_PACKET_LENGTH (size b + 24)) as [Hfull|Hroom].
  - destruct (likes_sent b gs Hp) as (c & on & -> & Hc). cbn [mbind outcome_bind]. destruct (new_packet_ok (length (ap ++ [(peer, c)]))) as (_ & Hml & _). rewrite reset_new by done.
    destruct (likes_new (length (ap ++ [(peer, c)]))) as (b1 & -> & Hb1). cbn [mbind outcome_bind]. pose proof (likes_size b1 [] Hb1) as Hz1. change (zlen (@nil MulticastGroup)) with 0 in Hz1.
    destruct (likes_append b1 [] g Hb1) as (b2 & -> & Hb2); [lia|]. cbn [mbind outcome_bind].
    destruct (IH (ap ++ [(peer, c)]) b2 [g] Hb2) as (aps & parts & b' & rest & -> & Hb' & Hc' & Ha). exists ((peer, c) :: aps), (gs :: parts), b', rest.
    rewrite <- app_assoc. cbn [app concat]. split; [done|]. split; [done|]. split; [by rewrite <- app_assoc, Hc'|]. apply List.Forall2_cons; [|done].
    split; [done|]. split; [|done]. intros ->. change (zlen (@nil MulticastGroup)) with 0 in Hsz. lia.
  - cbn [mbind outcome_bind]. destruct (likes_append b gs g Hp) as (b2 & -> & Hb2); [lia|]. cbn [mbind outcome_bind].
    destruct (IH ap b2 (gs ++ [g]) Hb2) as (aps & parts & b' & rest & -> & Hb' & Hc' & Ha). exists aps, parts, b', rest. split; [done|]. split; [done|]. split; [by rewrite Hc', <- app_assoc|done].
Qed.
End announce.

(** All the groups are announced, in order, in as many packets as they need; none is empty. *)
Lemma announce_spec {T : Type -> Type} `{Table T} `{PacketSourceLaws} `{PacketCrypto} `{!Lz4Laws} self (n : Network T) ap peer gs : exists aps parts,
  _announceMulticastGroupsTo self n ap peer gs = Ok (ap ++ aps) /\ concat parts = gs /\ Forall2 (announced (_id n) peer) aps parts.
Proof.
  unfold _announceMulticastGroupsTo. destruct (likes_new self (_id n) peer (length ap)) as (b & -> & Hb). cbn [mbind outcome_bind].
  destruct (announce_loop_spec self (_id n) peer gs ap b [] Hb) as (aps & parts & b' & rest & -> & Hb' & Hc & Ha). cbn [mbind outcome_bind]. cbn [app] in Hc.
  rewrite (likes_size _ _ _ _ _ Hb'). change ZT_PROTO_MIN_PACKET_LENGTH with 28. destruct rest as [|g rest].
  - change (zlen (@nil MulticastGroup)) with 0. exists aps, parts. rewrite app_nil_r in Hc. done.
  - rewrite zlen_cons. pose proof (zlen_nonneg rest). rewrite (proj2 (Z.ltb_lt _ _)) by lia. destruct (likes_sent self (_id n) peer b' (g :: rest) Hb') as (c & on & -> & Hcc). cbn [mbind outcome_bind].
    exists (aps ++ [(peer, c)]), (parts ++ [g :: rest]). rewrite app_assoc. split; [done|]. split; [rewrite concat_app; cbn [concat]; by rewrite app_nil_r|].
    apply List.Forall2_app; [done|]. by apply List.Forall2_cons.
Qed.

(** ** The groups of a node *)

Definition groups_ok (l : list MulticastGroup) : Prop := ascending group_key l /\ Forall group_ok l.

Section groups.
Context {T : Type -> Type} `{TableLaws T} `{StdSortLaws}.
Implicit Type n : Network T.

(** The groups behind this node are the keys of [behind]. *)
Definition behind_ok n (behind : gmap Z Z) : Prop := tab_rep (_multicastGroupsBehindMe n) behind /\ map_Forall (fun k _ => group_ok (key_group k)) behind.
Definition broadcasts n (g : MulticastGroup) : Prop := g = BROADCAST /\ nonnull (_config n) = true /\ enableBroadcast (_config n) = true.

Lemma group_key_inj a b : group_ok a -> group_ok b -> group_key a = group_key b -> a = b.
Proof. intros Ha Hb E. rewrite <- (group_key_inv a Ha), <- (group_key_inv b Hb). by rewrite E. Qed.

(** They are listed once each, in order. *)
Lemma allMulticastGroups_spec n behind : groups_ok (_myMulticastGroups n) -> behind_ok n behind ->
  groups_ok (_allMulticastGroups n) /\
  forall g, g ∈ _allMulticastGroups n <-> g ∈ _myMulticastGroups n \/ (group_ok g /\ is_Some (behind !! group_key g)) \/ broadcasts n g.
Proof.
  intros [_ Hmy] [Hr Hb]. unfold _allMulticastGroups. set (bc := if nonnull _ && _ then [BROADCAST] else []).
  set (keys := (tab_entries _).*1). assert (forall k, k ∈ keys <-> is_Some (behind !! k)) as Hkeys.
  { intros k. unfold keys. rewrite (tab_entries_rep _ _ Hr). rewrite list_elem_of_fmap. split.
    - intros ([k' v] & -> & Hin%elem_of_map_to_list). by exists v.
    - intros [v Hv]. exists (k, v). split; [done|]. by apply elem_of_map_to_list. }
  set (l := _myMulticastGroups n ++ (key_group <$> keys) ++ bc). assert (Forall group_ok l) as Hl.
  { apply list.Forall_app. split; [done|]. apply list.Forall_app. split.
    - apply list.Forall_fmap, list.Forall_forall. intros k [v Hv]%Hkeys. exact (Hb k v Hv).
    - unfold bc. destruct (nonnull _ && _); [|by apply list.Forall_nil_2]. apply list.Forall_singleton. split; by_compute. }
  assert (forall x, x ∈ std_sort group_key l <-> x ∈ l) as Hs by (intros x; by rewrite (std_sort_perm _ group_key l)).
  destruct (unique_spec group_key MG.eqb (std_sort group_key l)) as [Ha Hin]; [intros; apply eqb_group| |apply std_sort_sorted|].
  { intros x y Hx Hy. apply group_key_inj; by apply (proj1 (list.Forall_forall _ _) Hl), Hs. }
  split; [split; [done|]|].
  - apply list.Forall_forall. intros x Hx. by apply (proj1 (list.Forall_forall _ _) Hl), Hs, Hin.
  - intros g. rewrite Hin, Hs. unfold l. rewrite !elem_of_app, list_elem_of_fmap. unfold broadcasts.
    assert (g ∈ bc <-> g = BROADCAST /\ nonnull (_config n) = true /\ enableBroadcast (_config n) = true) as ->.
    { unfold bc. destruct (nonnull (_config n)), (enableBroadcast (_config n)); cbn [andb]; rewrite ?list_elem_of_singleton, ?elem_of_nil; naive_solver. }
    assert ((exists k, g = key_group k /\ k ∈ keys) <-> group_ok g /\ is_Some (behind !! group_key g)) as ->; [|done]. split.
    + intros (k & -> & [v Hv]%Hkeys). split; [exact (Hb k v Hv)|]. rewrite key_group_inv. by exists v.
    + intros [Hg Hk]. exists (group_key g). split; [by rewrite group_key_inv|]. by apply Hkeys.
Qed.

(** Subscribing and unsubscribing keep the list in order; [subscribedToMulticastGroup] says what it has. *)
Lemma subscribed_spec n behind mg bridged : groups_ok (_myMulticastGroups n) -> behind_ok n behind -> group_ok mg ->
  subscribedToMulticastGroup n mg bridged = Ok (bool_decide (mg ∈ _myMulticastGroups n \/ (bridged = true /\ is_Some (behind !! group_key mg)))).
Proof.
  intros [Ha Hok] [Hr _] Hmg. unfold subscribedToMulticastGroup. pose proof (binary_search_spec group_key _ (group_key mg) (ascending_ordered _ _ Ha)) as Hb.
  assert ((exists x, x ∈ _myMulticastGroups n /\ group_key x = group_key mg) <-> mg ∈ _myMulticastGroups n) as Hin.
  { split; [|by exists mg]. intros (x & Hx & E). apply group_key_inj in E as ->; [done| |done]. by apply (proj1 (list.Forall_forall _ _) Hok). }
  rewrite Hin in Hb. destruct (binary_search _ _ _).
  - f_equal. symmetry. apply bool_decide_eq_true_2. left. by apply Hb.
  - assert (~ mg ∈ _myMulticastGroups n) by (intros Hx; by apply Hb in Hx). destruct bridged.
    + rewrite (tab_get_rep _ _ _ Hr). cbn [mbind outcome_bind]. f_equal. destruct (behind !! group_key mg) eqn:E; symmetry; [apply bool_decide_eq_true_2; right; by split|].
      apply bool_decide_eq_false_2. intros [?|[_ [? ?]]]; done.
    + f_equal. symmetry. apply bool_decide_eq_false_2. intros [?|[? _]]; done.
Qed.
End groups.

(** ** Who is told *)

Section told.
Context `{PacketSourceLaws} `{PacketCrypto} `{!Lz4Laws} `{Crypto} `{Env} `{Peers} `{StdSortLaws}.
Context (self now : Z) (isNew : bool) (gs : list MulticastGroup).
Implicit Type n : Network (gmap Z).

(** The packets [aps] tell [a] all the groups. *)
Definition told (nwid a : Z) (aps : sends) : Prop :=
  exists l1 blk l2 parts, aps = l1 ++ blk ++ l2 /\ concat parts = gs /\ Forall2 (announced nwid a) blk parts.

Lemma told_app nwid a l aps r : told nwid a aps -> told nwid a (l ++ aps ++ r).
Proof. intros (l1 & blk & l2 & parts & -> & Hc & Hf). exists (l ++ l1), blk, (l2 ++ r), parts. by rewrite <- !app_assoc. Qed.

Lemma announced_to nwid a aps parts : Forall2 (announced nwid a) aps parts -> Forall (fun x => x.1 = a) aps.
Proof. induction 1 as [|x part aps parts [Hx _] _ IH]; [by apply list.Forall_nil_2|by apply list.Forall_cons_2]. Qed.

(** A member that is told: its identity is known, it is allowed, it was not told as one of [always], and it is time. *)
Definition due (m : Membership (gmap Z)) : bool := isNew || (ZT_MULTICAST_ANNOUNCE_PERIOD <=? now - _lastUpdatedMulticast m).
Definition wants (nc : NetworkConfig) (always : list Z) (a : Z) (m : Membership (gmap Z)) : Prop :=
  identity_bool (getIdentity a) = true /\ due m = true /\ isAllowedOnNetwork m nc (getIdentity a) = true /\ ~ a ∈ always.
Definition clock_ok (m : Membership (gmap Z)) : Prop := srng 64 (now - _lastUpdatedMulticast m).

Lemma multicastLikeGate_spec (m : Membership (gmap Z)) : clock_ok m -> exists m', multicastLikeGate m now = Ok (m', ZT_MULTICAST_ANNOUNCE_PERIOD <=? now - _lastUpdatedMulticast m) /\
  (forall nc i, isAllowedOnNetwork m' nc i = isAllowedOnNetwork m nc i) /\ clock_ok m'.
Proof.
  intros Hc. unfold multicastLikeGate, ssub. unfold clock_ok in *. rewrite bool_decide_eq_true_2 by done. cbn [mbind outcome_bind].
  destruct (_ <=? _); eexists; (split; [done|]); (split; [done|]); [|done]. cbn [_lastUpdatedMulticast]. rewrite Z.sub_diag. by_compute.
Qed.

Lemma update_members_spec always : ordered (fun a : Z => a) always -> forall l n ap, Forall (fun x => clock_ok x.2) l ->
  exists ms aps, update_members self n ap now isNew gs always l = Ok (set_memberships n ms, ap ++ aps) /\
    Forall (fun x => exists m, (x.1, m) ∈ l /\ wants (_config n) always x.1 m) aps /\
    (forall a m, (a, m) ∈ l -> wants (_config n) always a m -> told (_id n) a aps).
Proof.
  intros Ha. assert (forall a, binary_search (fun a : Z => a) always a = true <-> a ∈ always) as Hs.
  { intros a. rewrite (binary_search_spec _ _ _ Ha). split; [by intros (? & ? & ->)|by exists a]. }
  induction l as [|[a m] l IH]; intros n ap Hc; cbn [update_members].
  { exists (_memberships n), []. rewrite app_nil_r. split; [by destruct n|]. split; [by apply list.Forall_nil_2|]. intros a m Hin. by apply elem_of_nil in Hin. }
  apply list.Forall_cons in Hc as [Hc1 Hc]. cbn [snd] in Hc1.
  assert (exists ms1 aps1, (if identity_bool (getIdentity a) then
        '(m, g) ← multicastLikeGate m now; n ← put_membership n a m;
        ap ← (if (g || isNew) && isAllowedOnNetwork m (_config n) (getIdentity a) && negb (binary_search (fun a : Z => a) always a) then
                _announceMulticastGroupsTo self n ap a gs else Ok ap);
        Ok (n, ap) else Ok (n, ap)) = Ok (set_memberships n ms1, ap ++ aps1) /\
      ((wants (_config n) always a m /\ told (_id n) a aps1 /\ Forall (fun x => x.1 = a) aps1) \/ (~ wants (_config n) always a m /\ aps1 = []))) as (ms1 & aps1 & -> & Hstep).
  { unfold wants. destruct (identity_bool (getIdentity a)).
    2:{ exists (_memberships n), []. rewrite app_nil_r. split; [by destruct n|]. right. split; [|done]. by intros [? _]. }
    destruct (multicastLikeGate_spec m Hc1) as (m' & -> & Hallow & _). cbn [mbind outcome_bind]. unfold put_membership. cbn [tab_set gmap_table mbind outcome_bind]. rewrite Hallow.
    fold (due m). rewrite (orb_comm (_ <=? _)). fold (due m). change (_config (set_memberships n ?x)) with (_config n).
    destruct (due m), (isAllowedOnNetwork m (_config n) (getIdentity a)), (binary_search (fun a : Z => a) always a) eqn:Eb; cbn [andb negb].
    2:{ destruct (announce_spec self (set_memberships n (<[a := m']> (_memberships n))) ap a gs) as (aps & parts & -> & Hp & Hf). cbn [mbind outcome_bind].
        eexists _, aps. split; [reflexivity|]. left. split; [|split; [exists [], aps, [], parts; by rewrite app_nil_r|by eapply announced_to]].
        split; [done|]. split; [done|]. split; [done|]. intros Hx%Hs. congruence. }
    all: eexists _, []; rewrite app_nil_r; split; [reflexivity|]; right; split; [|done]; intros (_ & ? & ? & Hx); try discriminate. apply Hx. by apply Hs. }
  cbn [mbind outcome_bind]. destruct (IH (set_memberships n ms1) (ap ++ aps1) Hc) as (ms & aps & -> & Hdest & Htold). change (_config (set_memberships n ms1)) with (_config n) in *. change (_id (set_memberships n ms1)) with (_id n) in *.
  exists ms, (aps1 ++ aps). rewrite app_assoc. split; [done|]. split.
  - apply list.Forall_app. split.
    + destruct Hstep as [(Hw & _ & Hd)|[_ ->]]; [|by apply list.Forall_nil_2]. eapply list.Forall_impl; [exact Hd|]. cbn. intros x ->. exists m. split; [by left|done].
    + eapply list.Forall_impl; [exact Hdest|]. cbn. intros x (m' & Hin & Hw). exists m'. split; [by right|done].
  - intros a' m' [E|Hin]%elem_of_cons Hw.
    + injection E as -> ->. destruct Hstep as [(_ & Ht & _)|[Hn _]]; [|done]. apply (told_app _ _ [] aps1 aps Ht).
    + pose proof (Htold a' m' Hin Hw) as Ht. apply (told_app _ _ aps1 aps []) in Ht. by rewrite app_nil_r in Ht.
Qed.

(** The nodes that are told whether they are members or not; those who are not get the certificate as well. *)
Lemma com_packet_spec k a c : sendable (CCom c) -> exists b, com_packet self k a c = Ok b.
Proof.
  intros Hc. destruct (new_packet_ok k) as (Hm & Hml & Hiv & Hivl). unfold com_packet.
  destruct (packet_new _ (new_iv k) a self Packet.VERB_NETWORK_CREDENTIALS Hm Hml Hiv Hivl) as (b & mac & -> & Hb & Hcap & Hd & Hmac); [by_compute|]. cbn [mbind outcome_bind].
  destruct (writes_fits b (enc (CCom c) ++ be_bytes 1 0 ++ be_bytes 2 0 ++ be_bytes 2 0 ++ be_bytes 2 0 ++ be_bytes 2 0)
    (b ← COM.serialize b c; b ← append_int 1 b 0; b ← append_int 2 b 0; b ← append_int 2 b 0; b ← append_int 2 b 0; append_int 2 b 0)) as (b' & E & _).
  - apply writes_bind; [done|by apply (sendable_writes (CCom c))|]. intros b1 Hb1 _ _. writes_all.
  - assert (_l b = 28) as -> by (rewrite <- (zlen_data b Hb), Hd; by apply zlen_header_bytes). rewrite Hcap. pose proof (com_enc_small c Hc). rewrite !zlen_app, !zlen_be_bytes. assert (ZT_PROTO_MAX_PACKET_LENGTH = 10024) as -> by by_compute. lia.
  - exists b'. exact E.
Qed.

Lemma announce_always_spec n l : (COM.COM_bool (com (_config n)) = true -> sendable (CCom (com (_config n)))) -> forall ap,
  exists aps, announce_always self n ap gs l = Ok (ap ++ aps) /\ Forall (fun x => x.1 ∈ l) aps /\ (forall a, a ∈ l -> told (_id n) a aps).
Proof.
  intros Hcom. induction l as [|a l IH]; intros ap; cbn [announce_always].
  { exists []. rewrite app_nil_r. split; [done|]. split; [by apply list.Forall_nil_2|]. intros a Hin. by apply elem_of_nil in Hin. }
  cbn [tab_get gmap_table mbind outcome_bind].
  match goal with |- context [(if ?c then ?y else Ok ap) ≫= _] => assert (exists aps0, (if c then y else Ok ap) = Ok (ap ++ aps0) /\ Forall (fun x => x.1 = a) aps0) as (aps0 & -> & H0a) end.
  { destruct (COM.COM_bool (com (_config n))); cbn [andb]; [|exists []; rewrite app_nil_r; by split; [|apply list.Forall_nil_2]].
    destruct (bool_decide _ && negb _); [|exists []; rewrite app_nil_r; by split; [|apply list.Forall_nil_2]].
    destruct (com_packet_spec (length ap) a _ (Hcom eq_refl)) as (b & ->). exists [(a, b)]. split; [done|]. by apply list.Forall_singleton. }
  cbn [mbind outcome_bind]. destruct (announce_spec self n (ap ++ aps0) a gs) as (aps1 & parts & -> & Hp & Hf). cbn [mbind outcome_bind].
  destruct (IH ((ap ++ aps0) ++ aps1)) as (aps & -> & Hd & Ht). exists (aps0 ++ aps1 ++ aps). rewrite <- !app_assoc. split; [done|].
  pose proof (announced_to _ _ _ _ Hf) as H1a. split.
  - apply list.Forall_app. split; [|apply list.Forall_app; split]; (eapply list.Forall_impl; [eassumption|]; cbn; intros x Hx; by (rewrite Hx; left) || by right).
  - intros a' [->|Hin]%elem_of_cons; [exists aps0, aps1, aps, parts; done|].
    pose proof (Ht a' Hin) as Hx. apply (told_app _ _ (aps0 ++ aps1) aps []) in Hx. by rewrite app_nil_r, <- app_assoc in Hx.
Qed.
End told.

Section updates.
Context `{PacketSourceLaws} `{PacketCrypto} `{!Lz4Laws} `{Crypto} `{Env} `{Peers} `{StdSortLaws}.
Context (self now : Z).
Implicit Type n : Network (gmap Z).

Lemma alwaysAnnounceTo_spec n : ordered (fun a : Z => a) (alwaysAnnounceTo n) /\
  forall a, a ∈ alwaysAnnounceTo n <-> a ∈ alwaysContactAddresses (_config n) \/ a = controller n \/ a ∈ upstreamAddresses.
Proof.
  split; [apply sorted_ordered, std_sort_sorted|]. intros a. unfold alwaysAnnounceTo. rewrite (std_sort_perm _ _ _).
  assert (forall l b, a ∈ add_new l b <-> a ∈ l \/ a = b) as Hadd.
  { intros l b. unfold add_new. case_bool_decide; [naive_solver|]. by rewrite elem_of_app, list_elem_of_singleton. }
  assert (forall us l, a ∈ foldl add_new l us <-> a ∈ l \/ a ∈ us) as Hfold.
  { induction us as [|u us IH]; intros l; cbn [foldl]; [rewrite elem_of_nil; tauto|]. rewrite IH, Hadd, elem_of_cons. tauto. }
  rewrite Hfold, Hadd. tauto.
Qed.

Definition groups_of n (new : option MulticastGroup) : list MulticastGroup := match new with Some g => [g] | None => _allMulticastGroups n end.
Definition is_some {A} (o : option A) : bool := match o with Some _ => true | None => false end.

(** The nodes that are told always, when it is time to, and the members that want to be. *)
Definition period n (new : option MulticastGroup) : bool :=
  is_some new || (ZT_MULTICAST_ANNOUNCE_PERIOD <=? u64 (now - _lastAnnouncedMulticastGroupsUpstream n)).
Definition always_of n new : list Z := if period n new then alwaysAnnounceTo n else [].
Definition audience_of n (new : option MulticastGroup) (a : Z) : Prop :=
  a ∈ always_of n new \/ exists m, _memberships n !! a = Some m /\ wants now (is_some new) (_config n) (always_of n new) a m.
Definition clocks_ok n : Prop := map_Forall (fun _ m => clock_ok now m) (_memberships n).
Definition com_ok n : Prop := COM.COM_bool (com (_config n)) = true -> sendable (CCom (com (_config n))).

(** What only looks at other fields. *)
Definition same_groups n n' : Prop :=
  _config n' = _config n /\ _id n' = _id n /\ _myMulticastGroups n' = _myMulticastGroups n /\ _multicastGroupsBehindMe n' = _multicastGroupsBehindMe n.

Lemma updates_sent n ap new : clocks_ok n -> com_ok n ->
  exists n' aps, _sendUpdatesToMembers self n ap now new = Ok (n', ap ++ aps) /\ same_groups n n' /\
    Forall (fun x => audience_of n new x.1) aps /\ (forall a, audience_of n new a -> told (groups_of n new) (_id n) a aps).
Proof.
  intros Hclk Hcom. unfold _sendUpdatesToMembers. cbv zeta. fold (groups_of n new). set (gs := groups_of n new). fold (is_some new). fold (period n new).
  assert (exists n1 aps1, (if period n new then
      ap ← announce_always self (if is_some new then n else set_lastAnnounced n (u64 now)) ap gs (alwaysAnnounceTo (if is_some new then n else set_lastAnnounced n (u64 now)));
      Ok (if is_some new then n else set_lastAnnounced n (u64 now), ap, alwaysAnnounceTo (if is_some new then n else set_lastAnnounced n (u64 now)))
      else Ok (n, ap, [])) = Ok (n1, ap ++ aps1, always_of n new) /\
      (same_groups n n1 /\ _memberships n1 = _memberships n) /\
      Forall (fun x => x.1 ∈ always_of n new) aps1 /\ (forall a, a ∈ always_of n new -> told gs (_id n) a aps1)) as (n1 & aps1 & -> & [Hsame Em] & Hd1 & Ht1).
  { unfold always_of. destruct (period n new).
    2:{ exists n, []. rewrite app_nil_r. split; [done|]. split; [done|]. split; [by apply list.Forall_nil_2|]. intros a Hin. by apply elem_of_nil in Hin. }
    set (n1 := if is_some new then n else set_lastAnnounced n (u64 now)). assert (alwaysAnnounceTo n1 = alwaysAnnounceTo n /\ same_groups n n1 /\ _memberships n1 = _memberships n) as (Ea & Hs & Em)
      by (unfold n1; by destruct (is_some new)).
    pose proof Hs as (Ec & Ei & _).
    destruct (announce_always_spec self gs n1 (alwaysAnnounceTo n1) ltac:(by rewrite Ec) ap) as (aps & E & Hd & Ht). rewrite E. cbn [mbind outcome_bind]. rewrite Ea in *. rewrite Ei in *.
    exists n1, aps. by split_and!. }
  cbn [mbind outcome_bind]. rewrite Em. assert (ordered (fun a : Z => a) (always_of n new)) as Hal.
  { unfold always_of. destruct (period n new); [apply alwaysAnnounceTo_spec|]. intros i j x y _ Hx. by destruct i. }
  assert (forall a m, (a, m) ∈ map_to_list (_memberships n) <-> _memberships n !! a = Some m) as Hm by (intros; apply elem_of_map_to_list).
  cbn [tab_entries gmap_table]. destruct (update_members_spec self now (is_some new) gs _ Hal (map_to_list (_memberships n)) n1 (ap ++ aps1)) as (ms & aps2 & -> & Hd2 & Ht2).
  { apply list.Forall_forall. intros [a m] Hin%Hm. exact (Hclk a m Hin). }
  pose proof Hsame as (Ec & Ei & _). rewrite Ec, Ei in *. exists (set_memberships n1 ms), (aps1 ++ aps2). rewrite app_assoc. split; [done|]. split; [exact Hsame|]. split.
  - apply list.Forall_app. split; [eapply list.Forall_impl; [exact Hd1|]; by left|]. eapply list.Forall_impl; [exact Hd2|]. cbn. intros x (m & Hin%Hm & Hw). right. by exists m.
  - intros a [Hin|(m & Hin%Hm & Hw)].
    + pose proof (Ht1 a Hin) as Hx. by apply (told_app _ _ _ [] aps1 aps2) in Hx.
    + pose proof (Ht2 a m Hin Hw) as Hx. apply (told_app _ _ _ aps1 aps2 []) in Hx. by rewrite app_nil_r in Hx.
Qed.

(** *** Who is told what, in terms of the configuration *)

(** An anchor: a specialist whose flags have NETWORK_RELAY or MULTICAST_REPLICATOR; the address is in the lower 40 bits. *)
Definition anchor (nc : NetworkConfig) (a : Z) : Prop :=
  exists s, s ∈ specialists nc /\ a = s mod 2 ^ 40 /\ (Z.land s 0x100000000000 <> 0 \/ Z.land s 0x80000000000 <> 0).
(** Who does not have to be a member: the anchors, the controller and the upstreams. *)
Definition served n (a : Z) : Prop := anchor (_config n) a \/ a = (_id n / 2 ^ 24) mod 2 ^ 40 \/ a ∈ upstreamAddresses.
(** They are told of a new group at once, of all groups once a minute. *)
Definition their_time n (new : option MulticastGroup) : Prop := new <> None \/ 60000 <= (now - _lastAnnouncedMulticastGroupsUpstream n) mod 2 ^ 64.
(** A member: it is known, its certificate is accepted (or the network is public), and it was not told for a minute or the group is new. *)
Definition member_told n (new : option MulticastGroup) (a : Z) : Prop :=
  exists m, _memberships n !! a = Some m /\ identity_bool (getIdentity a) = true /\
    (new <> None \/ 60000 <= now - _lastUpdatedMulticast m) /\
    (type (_config n) = ZT_NETWORK_TYPE_PUBLIC \/
     (_comRevocationThreshold m < COM.timestamp (_com m) /\ COM.agreesWith (com (_config n)) (_com m) (getIdentity a) = true)).
Definition audience n (new : option MulticastGroup) (a : Z) : Prop := (their_time n new /\ served n a) \/ member_told n new a.

(** The groups of a node: its own, those behind it, and the broadcast group where the network has broadcast. *)
Definition has_group n (g : MulticastGroup) : Prop :=
  g ∈ _myMulticastGroups n \/ (group_ok g /\ is_Some (_multicastGroupsBehindMe n !! group_key g)) \/
  (g = mkMulticastGroup 0xffffffffffff 0 /\ networkId (_config n) <> 0 /\ Z.land (flags (_config n)) 2 <> 0).
Definition to_tell n (new : option MulticastGroup) (gs : list MulticastGroup) : Prop :=
  match new with Some g => gs = [g] | None => NoDup gs /\ forall g, g ∈ gs <-> has_group n g end.

Lemma has_flag_iff v f : has_flag v f = true <-> Z.land v f <> 0.
Proof. unfold has_flag. rewrite negb_true_iff. apply Z.eqb_neq. Qed.

Lemma alwaysContact_iff nc a : a ∈ alwaysContactAddresses nc <-> anchor nc a.
Proof.
  unfold alwaysContactAddresses, with_role, anchor. rewrite list_elem_of_fmap. setoid_rewrite list_elem_of_In. setoid_rewrite List.filter_In. setoid_rewrite has_flag_iff.
  assert (forall s, Z.land s (Z.lor ZT_NETWORKCONFIG_SPECIALIST_TYPE_NETWORK_RELAY ZT_NETWORKCONFIG_SPECIALIST_TYPE_MULTICAST_REPLICATOR) <> 0 <->
    Z.land s 0x100000000000 <> 0 \/ Z.land s 0x80000000000 <> 0) as Hl.
  { intros s. rewrite Z.land_lor_distr_r. unfold ZT_NETWORKCONFIG_SPECIALIST_TYPE_NETWORK_RELAY, ZT_NETWORKCONFIG_SPECIALIST_TYPE_MULTICAST_REPLICATOR. rewrite Z.lor_eq_0_iff. lia. }
  setoid_rewrite Hl. assert (forall s, Address.of_int s = s mod 2 ^ 40) as Ha by (intros s; apply Address.mask40_mod). setoid_rewrite Ha. naive_solver.
Qed.

Lemma served_iff n a : a ∈ alwaysAnnounceTo n <-> served n a.
Proof.
  rewrite (proj2 (alwaysAnnounceTo_spec n)), alwaysContact_iff. unfold served, controller. rewrite Z.shiftr_div_pow2 by lia.
  replace (Address.of_int (_id n / 2 ^ 24)) with ((_id n / 2 ^ 24) mod 2 ^ 40) by (symmetry; apply Address.mask40_mod). done.
Qed.

Lemma their_time_iff n new : period n new = true <-> their_time n new.
Proof.
  unfold period, their_time. rewrite orb_true_iff. unfold ZT_MULTICAST_ANNOUNCE_PERIOD, u64, wrap. rewrite Z.leb_le. by destruct new; naive_solver.
Qed.

Lemma audience_iff n new a : audience_of n new a <-> audience n new a.
Proof.
  assert (a ∈ always_of n new <-> their_time n new /\ served n a) as Hal.
  { unfold always_of. rewrite <- their_time_iff, <- served_iff. destruct (period n new); [tauto|]. rewrite elem_of_nil. naive_solver. }
  assert (forall m, due now (is_some new) m = true <-> new <> None \/ 60000 <= now - _lastUpdatedMulticast m) as Hdue.
  { intros m. unfold due. rewrite orb_true_iff, Z.leb_le. unfold ZT_MULTICAST_ANNOUNCE_PERIOD. by destruct new; naive_solver. }
  assert (forall (m : Membership (gmap Z)) i, isAllowedOnNetwork m (_config n) i = true <-> type (_config n) = ZT_NETWORK_TYPE_PUBLIC \/
    (_comRevocationThreshold m < COM.timestamp (_com m) /\ COM.agreesWith (com (_config n)) (_com m) i = true)) as Hallow.
  { intros m i. unfold isAllowedOnNetwork, isPublic. by rewrite orb_true_iff, andb_true_iff, Z.eqb_eq, Z.ltb_lt. }
  unfold audience_of, audience, member_told, wants. rewrite Hal. setoid_rewrite Hdue. setoid_rewrite Hallow.
  destruct (decide (a ∈ always_of n new)) as [Hd|Hd]; rewrite Hal in Hd; [tauto|]. naive_solver.
Qed.

Lemma groups_to_tell n new : groups_ok (_myMulticastGroups n) -> behind_ok n (_multicastGroupsBehindMe n) -> to_tell n new (groups_of n new).
Proof.
  intros Hmy Hb. destruct new as [g|]; [done|]. cbn [to_tell groups_of]. destruct (allMulticastGroups_spec n _ Hmy Hb) as [[Ha _] Hin]. split.
  - apply ascending_NoDup in Ha. by eapply list.NoDup_fmap_1.
  - intros g. rewrite Hin. unfold has_group, broadcasts, enableBroadcast, nonnull. rewrite has_flag_iff, negb_true_iff, Z.eqb_neq. done.
Qed.

Lemma updates_lemma n ap new : clocks_ok n -> com_ok n ->
  exists n' aps, _sendUpdatesToMembers self n ap now new = Ok (n', ap ++ aps) /\ same_groups n n' /\
    Forall (fun x => audience n new x.1) aps /\ (forall a, audience n new a -> told (groups_of n new) (_id n) a aps).
Proof.
  intros Hclk Hcom. destruct (updates_sent n ap new Hclk Hcom) as (n' & aps & E & Hs & Hd & Ht). exists n', aps. split; [done|]. split; [done|]. split.
  - eapply list.Forall_impl; [exact Hd|]. intros x. apply audience_iff.
  - intros a Ha%audience_iff. by apply Ht.
Qed.

(** C30. What is sent to the members: with a new group that group, otherwise each of the groups of the node, once. Every node of the audience gets all of them, and nothing
    goes to anybody else: the anchors of the network, its controller and the upstream nodes once a minute or when there is a new group, and likewise the known members whose
    certificate this node accepts. *)
Theorem updates_told n ap new : clocks_ok n -> com_ok n -> groups_ok (_myMulticastGroups n) -> behind_ok n (_multicastGroupsBehindMe n) ->
  exists n' aps gs, _sendUpdatesToMembers self n ap now new = Ok (n', ap ++ aps) /\ to_tell n new gs /\
    Forall (fun x => audience n new x.1) aps /\ (forall a, audience n new a -> told gs (_id n) a aps).
Proof.
  intros Hclk Hcom Hmy Hb. destruct (updates_lemma n ap new Hclk Hcom) as (n' & aps & E & _ & Hd & Ht). exists n', aps, (groups_of n new).
  split; [done|]. split; [by apply groups_to_tell|]. done.
Qed.

(** Subscribing adds a group, once and in its place, and tells the audience. *)
Lemma multicastSubscribe_spec n ap mg : clocks_ok n -> com_ok n -> groups_ok (_myMulticastGroups n) -> group_ok mg ->
  exists n' aps, multicastSubscribe self n ap now mg = Ok (n', ap ++ aps) /\ groups_ok (_myMulticastGroups n') /\
    (forall g, g ∈ _myMulticastGroups n' <-> g = mg \/ g ∈ _myMulticastGroups n) /\
    (mg ∉ _myMulticastGroups n -> forall a, audience n (Some mg) a -> told [mg] (_id n) a aps).
Proof.
  intros Hclk Hcom [Ha Hok] Hmg. unfold multicastSubscribe. pose proof (binary_search_spec group_key _ (group_key mg) (ascending_ordered _ _ Ha)) as Hb.
  assert ((exists x, x ∈ _myMulticastGroups n /\ group_key x = group_key mg) <-> mg ∈ _myMulticastGroups n) as Hin.
  { split; [|by exists mg]. intros (x & Hx & E). apply group_key_inj in E as ->; [done| |done]. by apply (proj1 (list.Forall_forall _ _) Hok). }
  rewrite Hin in Hb. destruct (binary_search _ _ _); cbn [negb].
  - assert (mg ∈ _myMulticastGroups n) by (by apply Hb). exists n, []. rewrite app_nil_r. split; [done|]. split; [done|]. split; [naive_solver|done].
  - assert (mg ∉ _myMulticastGroups n) as Hni by (intros Hx; by apply Hb in Hx). destruct (vec_insert_spec group_key _ mg Ha) as (<- & Ha' & Hp); [by rewrite Hin|].
    set (l := vec_insert _ _ mg) in *. destruct (updates_lemma (set_myMulticastGroups n l) ap (Some mg)) as (n' & aps & -> & (_ & _ & Em & _) & _ & Ht); [done..|].
    exists n', aps. split; [done|]. rewrite Em. cbn [_myMulticastGroups set_myMulticastGroups]. split; [split; [done|by rewrite Hp; apply list.Forall_cons_2]|]. split; [|done].
    intros g. rewrite Hp. apply elem_of_cons.
Qed.

Lemma multicastUnsubscribe_spec n mg : groups_ok (_myMulticastGroups n) -> group_ok mg ->
  groups_ok (_myMulticastGroups (multicastUnsubscribe n mg)) /\
  (forall g, g ∈ _myMulticastGroups (multicastUnsubscribe n mg) <-> g <> mg /\ g ∈ _myMulticastGroups n).
Proof.
  intros [Ha Hok] Hmg. unfold multicastUnsubscribe. pose proof (fun x => lower_bound_found group_key (_myMulticastGroups n) (group_key mg) x Ha) as Hf.
  set (i := lower_bound _ _ _) in *. destruct (_myMulticastGroups n !! i) as [g|] eqn:E; [destruct (MG.eqb g mg) eqn:Eg|].
  - apply eqb_group in Eg as ->. cbn [_myMulticastGroups set_myMulticastGroups]. pose proof (delete_Permutation _ _ _ E) as Hp. pose proof (ascending_delete _ _ i Ha) as Hd. set (l := delete i _) in *.
    split; [split; [done|by rewrite Hp in Hok; apply list.Forall_cons in Hok as [_ ?]]|].
    intros g. rewrite Hp, elem_of_cons. apply ascending_NoDup in Ha. rewrite Hp in Ha. cbn [fmap list_fmap] in Ha. apply list.NoDup_cons in Ha as [Hn _].
    split; [|naive_solver]. intros Hg. split; [|by right]. intros ->. apply Hn. apply list_elem_of_fmap. by exists mg.
  - split; [done|]. intros g'. split; [|by intros [_ ?]]. intros Hg. split; [|done]. intros ->. destruct (proj2 (Hf mg) (conj Hg eq_refl)) as [[= ->] _]. by rewrite (proj2 (eqb_group mg mg) eq_refl) in Eg.
  - split; [done|]. intros g'. split; [|by intros [_ ?]]. intros Hg. split; [|done]. intros ->. by destruct (proj2 (Hf mg) (conj Hg eq_refl)) as [[=] _].
Qed.

(** The gate: it never throws, and lets in the peers of a public network and the members whose certificate agrees with that of this node. *)
Definition allowed n (peer : Z) (i : Identity) : bool :=
  nonnull (_config n) && (isPublic (_config n) || match _memberships n !! peer with Some m => isAllowedOnNetwork m (_config n) i | None => false end).

Lemma gate_spec n ap peer i : clocks_ok n -> srng 64 now ->
  exists ms aps, gate self n ap now peer i = Ok (set_memberships n ms, ap ++ aps, allowed n peer i) /\
    (forall a, a <> peer -> ms !! a = _memberships n !! a) /\ (aps = [] \/ told (_allMulticastGroups n) (_id n) peer aps /\ Forall (fun x => x.1 = peer) aps) /\
    clocks_ok (set_memberships n ms) /\ allowed (set_memberships n ms) peer i = allowed n peer i.
Proof.
  intros Hclk Hnow. unfold gate. destruct (nonnull (_config n)) eqn:En; cycle 1.
  { exists (_memberships n), []. rewrite app_nil_r. assert (allowed n peer i = false) as E by (unfold allowed; by rewrite En).
    replace (set_memberships n (_memberships n)) with n by (by destruct n). rewrite E. split_and!; auto. }
  cbn [tab_get gmap_table mbind outcome_bind]. destruct (isPublic (_config n) || _) eqn:Ea; cycle 1.
  { exists (_memberships n), []. rewrite app_nil_r. assert (allowed n peer i = false) as E by (unfold allowed; by rewrite En, Ea).
    replace (set_memberships n (_memberships n)) with n by (by destruct n). rewrite E. split_and!; auto. }
  assert (allowed n peer i = true) as Hal by (unfold allowed; by rewrite En, Ea). rewrite Hal.
  assert (exists ms m, match _memberships n !! peer with Some m => Ok (n, m) | None => _membership n peer end = Ok (set_memberships n ms, m) /\ clock_ok now m /\
    (forall a, a <> peer -> ms !! a = _memberships n !! a) /\ (isPublic (_config n) = true \/ isAllowedOnNetwork m (_config n) i = true)) as (ms & m & -> & Hm & Hms & Hok).
  { destruct (_memberships n !! peer) as [m|] eqn:E.
    { exists (_memberships n), m. split; [by destruct n|]. split; [exact (Hclk _ _ E)|]. split; [done|]. by apply orb_true_iff in Ea. }
    unfold _membership. cbn [tab_index gmap_table mbind outcome_bind]. rewrite E. cbn [default]. eexists _, _. split; [reflexivity|]. split.
    - unfold clock_ok. cbn [_lastUpdatedMulticast Membership_new]. by rewrite Z.sub_0_r.
    - split; [|left; by rewrite orb_false_r in Ea]. intros a Ha. rewrite decide_True by done. by apply lookup_insert_ne. }
  cbn [mbind outcome_bind]. destruct (multicastLikeGate_spec now m Hm) as (m' & -> & Hallow & Hm'). cbn [mbind outcome_bind]. unfold put_membership. cbn [tab_set gmap_table mbind outcome_bind].
  change (set_memberships (set_memberships n ms) ?x) with (set_memberships n x). change (_memberships (set_memberships n ms)) with ms.
  assert (forall a, a <> peer -> <[peer := m']> ms !! a = _memberships n !! a) as Hins by (intros a Ha; rewrite lookup_insert_ne by done; by apply Hms).
  assert (clocks_ok (set_memberships n (<[peer := m']> ms)) /\ allowed (set_memberships n (<[peer := m']> ms)) peer i = true) as Hkeep.
  { split.
    - intros a x. cbn [_memberships set_memberships]. destruct (decide (a = peer)) as [->|Hne]; [rewrite lookup_insert_eq; by intros [= <-]|]. rewrite Hins by done. apply Hclk.
    - unfold allowed. cbn [_config _memberships set_memberships]. rewrite En, lookup_insert_eq, Hallow. cbn [andb]. by apply orb_true_iff. }
  destruct (_ <=? _); [|eexists _, []; rewrite app_nil_r; split; [reflexivity|]; by auto].
  destruct (announce_spec self (set_memberships n (<[peer := m']> ms)) ap peer (_allMulticastGroups (set_memberships n (<[peer := m']> ms)))) as (aps & parts & -> & Hp & Hf).
  eexists _, aps. split; [reflexivity|]. split; [done|]. split; [|done]. right. split; [exists [], aps, [], parts; by rewrite app_nil_r|by eapply announced_to].
Qed.
End updates.

(** ** Housekeeping *)

Section clean.
Context `{Peers} `{StdSortLaws} `{PacketSourceLaws} `{PacketCrypto} `{!Lz4Laws} `{Crypto} `{Env}.
Context (self now : Z).
Implicit Type n : Network (gmap Z).

Definition cleaned (nc : NetworkConfig) (m m' : Membership (gmap Z)) : Prop := Membership.clean m nc = Ok m'.

Lemma clean_members_spec nc l : forall n, _config n = nc -> NoDup l.*1 -> (forall a m, (a, m) ∈ l -> _memberships n !! a = Some m /\ exists m', cleaned nc m m') ->
  exists ms, clean_members n l = Ok (set_memberships n ms) /\ (forall a, a ∉ l.*1 -> ms !! a = _memberships n !! a) /\
    (forall a m, (a, m) ∈ l -> exists m', ms !! a = Some m' /\ cleaned nc m m').
Proof.
  induction l as [|[a m] l IH]; intros n Hn Hnd Hl; cbn [clean_members].
  { exists (_memberships n). split; [by destruct n|]. split; [done|]. intros a m Hin. by apply elem_of_nil in Hin. }
  cbn [fmap list_fmap fst] in Hnd. apply list.NoDup_cons in Hnd as [Hna Hnd]. destruct (Hl a m ltac:(by left)) as (Hm & m' & Hc). unfold cleaned in Hc. rewrite Hn, Hc. cbn [mbind outcome_bind].
  unfold put_membership. cbn [tab_set gmap_table mbind outcome_bind]. assert (forall b x, (b, x) ∈ l -> b <> a) as Hne.
  { intros b x Hin ->. apply Hna. apply list_elem_of_fmap. by exists (a, x). }
  destruct (IH (set_memberships n (<[a := m']> (_memberships n))) Hn Hnd) as (ms & -> & Hout & Hin).
  { intros b x Hb. destruct (Hl b x ltac:(by right)) as [Hx Hc']. split; [|done]. cbn [_memberships set_memberships]. rewrite lookup_insert_ne; [done|]. apply not_eq_sym. by eapply Hne. }
  exists ms. split; [done|]. split.
  - intros b [Hb Hb']%not_elem_of_cons. rewrite Hout by done. cbn [_memberships set_memberships]. by apply lookup_insert_ne.
  - intros b x [E|Hb]%elem_of_cons; [|by apply Hin]. injection E as -> ->. exists m'. split; [|done]. rewrite Hout by done. cbn [_memberships set_memberships]. by apply lookup_insert_eq.
Qed.

(** After [clean] there are the members who are peers, with their outdated credentials removed, and the groups that were seen in the last 20 minutes. *)
Lemma clean_spec n : _destroyed n = false -> (forall a m, _memberships n !! a = Some m -> getPeerNoCache a = true -> exists m', cleaned (_config n) m m') ->
  exists n', clean n now = Ok n' /\ _config n' = _config n /\ _myMulticastGroups n' = _myMulticastGroups n /\
    (forall k, _multicastGroupsBehindMe n' !! k = (ts ← _multicastGroupsBehindMe n !! k; if u64 (now - ts) <=? 1200000 then Some ts else None)) /\
    (forall a, if getPeerNoCache a then match _memberships n !! a with
                                        | Some m => exists m', _memberships n' !! a = Some m' /\ cleaned (_config n) m m'
                                        | None => _memberships n' !! a = None
                                        end
               else _memberships n' !! a = None).
Proof.
  intros Hd Hcl. unfold clean. rewrite Hd. cbn [tab_keep gmap_table mbind outcome_bind tab_entries]. set (ms0 := filter _ (_memberships n)). set (g := filter _ (_multicastGroupsBehindMe n)).
  assert (forall a m, ms0 !! a = Some m <-> _memberships n !! a = Some m /\ getPeerNoCache a = true) as Hms0 by (intros a m; unfold ms0; by rewrite map_lookup_filter_Some).
  destruct (clean_members_spec (_config n) (map_to_list ms0) (set_memberships (set_groupsBehindMe n g) ms0)) as (ms & -> & Hout & Hin); [done|apply NoDup_fst_map_to_list| |].
  { intros a m Hm%elem_of_map_to_list. split; [done|]. apply Hms0 in Hm as [Hm Hp]. by apply (Hcl a). }
  eexists. split; [reflexivity|]. split; [done|]. split; [done|]. split.
  - intros k. cbn. unfold g. rewrite map_lookup_filter. destruct (_multicastGroupsBehindMe n !! k) as [ts|]; [|done]. cbn. unfold ZT_MULTICAST_LIKE_EXPIRE. change (600000 * 2) with 1200000.
    rewrite Z.leb_antisym. by destruct (1200000 <? u64 (now - ts)).
  - intros a. cbn [_memberships set_memberships]. assert (a ∉ (map_to_list ms0).*1 -> ms !! a = ms0 !! a) as Hout' by exact (Hout a).
    destruct (ms0 !! a) as [m|] eqn:E.
    + pose proof (proj1 (Hms0 a m) E) as [Em Hp]. rewrite Hp, Em. apply Hin. by apply elem_of_map_to_list.
    + assert (ms !! a = None) as En.
      { rewrite Hout'; [done|]. intros ([a' m] & -> & Hm%elem_of_map_to_list)%list_elem_of_fmap. cbn in E. congruence. }
      destruct (getPeerNoCache a) eqn:Hp; [|done]. destruct (_memberships n !! a) as [m|] eqn:Em; [|done]. by rewrite (proj2 (Hms0 a m) (conj Em Hp)) in E.
Qed.

End clean.

(** ** Witness *)

#[export] Instance toy_peers : Peers := { upstreamAddresses := [0xaabbccddee]; getPeerNoCache a := a =? 0x1122334455 }.

(** A public network with broadcast and one member. *)
Definition like_nconf : NetworkConfig :=
  mkNetworkConfig example_nwid 1000000 7200000 1 8 0 ZT_NETWORKCONFIG_FLAG_ENABLE_BROADCAST 0 2800 32 [] [] [] [] [] [] [] ZT_NETWORK_TYPE_PUBLIC []
    com_nil (mkDNS [] []) (mkSSO false 0 [] 0 [] [] [] [] [] []).
Definition like_net : Network (gmap Z) := set_memberships (set_config (Network_new 0 8 example_nwid) like_nconf) {[0x1122334455 := Membership_new]}.

Definition like_env : Env := fun a => mkIdentity a (replicate 64 7) None.

(** The same with a relay, a group of its own and one behind it. *)
Definition own_group : MulticastGroup := mkMulticastGroup 0x3333000000fb 0.
Definition far_group : MulticastGroup := mkMulticastGroup 0x01005e000001 7.
Definition told_nconf : NetworkConfig :=
  mkNetworkConfig example_nwid 1000000 7200000 1 8 0 ZT_NETWORKCONFIG_FLAG_ENABLE_BROADCAST 0 2800 32 [0x107777777777] [] [] [] [] [] [] ZT_NETWORK_TYPE_PUBLIC []
    com_nil (mkDNS [] []) (mkSSO false 0 [] 0 [] [] [] [] [] []).
Definition told_net : Network (gmap Z) :=
  set_groupsBehindMe (set_myMulticastGroups (set_memberships (set_config (Network_new 0 8 example_nwid) told_nconf) {[0x1122334455 := Membership_new]}) [own_group])
    {[group_key far_group := 5]}.

(** The relay, the controller, the upstream node and the member get the three groups; nobody else gets anything. *)
Lemma updates_told_witness :
  exists n' aps gs, _sendUpdatesToMembers (H2 := toy_crypto) (H3 := like_env) 8 told_net [] 100000 None = Ok (n', aps) /\
    (NoDup gs /\ forall g, g ∈ gs <-> has_group told_net g) /\ own_group ∈ gs /\ far_group ∈ gs /\ BROADCAST ∈ gs /\
    aps.*1 = [0x7777777777; 0x89e92ceee5; 0xaabbccddee; 0x1122334455] /\
    told gs example_nwid 0x7777777777 aps /\ told gs example_nwid 0x89e92ceee5 aps /\ told gs example_nwid 0xaabbccddee aps /\ told gs example_nwid 0x1122334455 aps.
Proof.
  destruct (updates_told (H3 := toy_crypto) (H4 := like_env) 8 100000 told_net [] None) as (n' & aps & gs & E & Hgs & _ & Ht).
  - apply (map_Forall_singleton (fun _ m => clock_ok 100000 m) 0x1122334455 Membership_new). unfold clock_ok. by_compute.
  - intros Hc. discriminate Hc.
  - split; [|repeat constructor; by_compute]. constructor; constructor.
  - split; [reflexivity|]. apply map_Forall_singleton. rewrite group_key_inv; split; by_compute.
  - assert (their_time 100000 told_net None) as Htime by (right; vm_compute; discriminate).
    exists n', aps, gs. split; [exact E|]. split; [exact Hgs|]. destruct Hgs as [_ Hgs].
    split; [apply Hgs; left; by left|]. split; [apply Hgs; right; left; split; [split; by_compute|exists 5; apply lookup_singleton_eq]|].
    split; [apply Hgs; right; right; split; [reflexivity|split; vm_compute; discriminate]|]. split.
    { assert (match _sendUpdatesToMembers (H2 := toy_crypto) (H3 := like_env) 8 told_net [] 100000 None with
              | Ok (_, l) => bool_decide (l.*1 = [0x7777777777; 0x89e92ceee5; 0xaabbccddee; 0x1122334455]) | _ => false end = true) as Hc by (vm_compute; reflexivity).
      rewrite E in Hc. by apply bool_decide_eq_true in Hc. }
    split; [|split; [|split]]; apply Ht.
    + left. split; [exact Htime|]. left. exists 0x107777777777. split; [by left|]. split; [vm_compute; reflexivity|]. left. vm_compute. discriminate.
    + left. split; [exact Htime|]. right. left. vm_compute. reflexivity.
    + left. split; [exact Htime|]. right. right. by left.
    + right. exists Membership_new. split; [apply lookup_singleton_eq|]. split; [vm_compute; reflexivity|]. split; [right; vm_compute; discriminate|]. left. reflexivity.
Defined.
