(* ===== verification/Runtime.v ===== *)
(** * The state of a node and its handlers (node/RuntimeEnvironment.hpp, node/Node.hpp)

    What the parts of a node share: its networks, the packets that are sent, the generator, the replies that are expected, the authorizations of a local
    controller, the multicast groups. A handler changes that state; what it has changed before an exception stays changed, so the exceptions of handlers carry
    the state: the monad [handler]. *)

From S2P Require Import Prelude Buffer InetAddress Packet Table NetworkConfig NetconfDict Membership Filter Network NetworkUpdate.
Import Network.

(** ** Multicast groups (Multicaster.hpp, OutboundMulticast.hpp) *)

Record OutboundMulticast := mkOutbound {
  _timestamp : Z; _nwid : Z; _macSrc : Z; _macDest : Z; _limit : Z; _frameLen : Z; _etherType : Z; _packet : Buffer;
  _alreadySentTo : list Z; _frameData : list Z }.
Record MulticastGroupMember := mkMember { member_address : Z; member_timestamp : Z }.
Record MulticastGroupStatus := mkStatus { lastExplicitGather : Z; txQueue : list OutboundMulticast; members : list MulticastGroupMember }.
Definition Status_new : MulticastGroupStatus := mkStatus 0 [] [].

(** ** The node *)

Record PutFrame := mkPutFrame { pf_nwid : Z; pf_source : Z; pf_dest : Z; pf_etherType : Z; pf_vlanId : Z; pf_data : list Z }.

(** What the host is called with: frames from the networks, [postEvent], and what networks call it for. *)
Inductive HostCall := HostFrame (f : PutFrame) | HostUserMessage (origin typeId : Z) (bytes : list Z) | HostRemoteTrace (origin : Z) (bytes : list Z)
  | HostIdentityCollision | HostNetwork (c : Call).

(** [sent]: what is given to [Switch::send], or armored and put on a path. [calls]: to the host. *)
Record Node (T : Type -> Type) := mkNode {
  networks : gmap Z (Network T); sent : sends; calls : list HostCall; _prngState : Z * Z;
  _expectingRepliesTo : list (list Z); _expectingRepliesToBucketPtr : list Z; _localControllerAuthorizations : gmap (Z * Z) Z;
  _groups : T MulticastGroupStatus }.
Arguments mkNode {T}.
Arguments networks {T}.
Arguments sent {T}.
Arguments calls {T}.
Arguments _prngState {T}.
Arguments _expectingRepliesTo {T}.
Arguments _expectingRepliesToBucketPtr {T}.
Arguments _localControllerAuthorizations {T}.
Arguments _groups {T}.

Definition handler (T : Type -> Type) (A : Type) : Type := Node T -> result (Node T) A.
#[export] Instance handler_ret T : MRet (handler T) := fun A a s => Done s a.
#[export] Instance handler_bind T : MBind (handler T) := fun A B k m s =>
  match m s with Done s a => k a s | Threw s e => Threw s e | Undefined => Undefined end.

Section Steps.
Context {T : Type -> Type}.

Definition gets {A} (f : Node T -> A) : handler T A := fun s => Done s (f s).
Definition modify (f : Node T -> Node T) : handler T () := fun s => Done (f s) ().
(** A call that does not change the state. *)
Definition lift {A} (m : outcome A) : handler T A := fun s => match m with Ok a => Done s a | Throw e => Threw s e | Undef => Undefined end.
(** [try { m } catch (...) { k }] *)
Definition try_catch {A} (m k : handler T A) : handler T A := fun s => match m s with Threw s _ => k s | r => r end.
Definition when (c : bool) (m : handler T ()) : handler T () := if c then m else mret ().
Fixpoint for_each {X} (l : list X) (f : X -> handler T ()) : handler T () :=
  match l with [] => mret () | x :: l => _ ← f x; for_each l f end.

Definition set_networks (s : Node T) (x : gmap Z (Network T)) : Node T :=
  mkNode x (sent s) (calls s) (_prngState s) (_expectingRepliesTo s) (_expectingRepliesToBucketPtr s) (_localControllerAuthorizations s) (_groups s).
Definition set_sent (s : Node T) (x : sends) : Node T :=
  mkNode (networks s) x (calls s) (_prngState s) (_expectingRepliesTo s) (_expectingRepliesToBucketPtr s) (_localControllerAuthorizations s) (_groups s).
Definition set_calls (s : Node T) (x : list HostCall) : Node T :=
  mkNode (networks s) (sent s) x (_prngState s) (_expectingRepliesTo s) (_expectingRepliesToBucketPtr s) (_localControllerAuthorizations s) (_groups s).
Definition set_prng (s : Node T) (x : Z * Z) : Node T :=
  mkNode (networks s) (sent s) (calls s) x (_expectingRepliesTo s) (_expectingRepliesToBucketPtr s) (_localControllerAuthorizations s) (_groups s).
Definition set_expecting (s : Node T) (x : list (list Z)) (p : list Z) : Node T :=
  mkNode (networks s) (sent s) (calls s) (_prngState s) x p (_localControllerAuthorizations s) (_groups s).
Definition set_groups (s : Node T) (x : T MulticastGroupStatus) : Node T :=
  mkNode (networks s) (sent s) (calls s) (_prngState s) (_expectingRepliesTo s) (_expectingRepliesToBucketPtr s) (_localControllerAuthorizations s) x.

(** [RR->node->network(nwid)] *)
Definition network (nwid : Z) : handler T (option (Network T)) := gets (fun s => networks s !! nwid).
(** A method of the network that has ID [nwid], which may send packets. Of a call that throws only the exception is kept: that loses nothing where it is used, because the methods
    it is used with do not throw ([gate_never_throws] and the lemmas that follow it in Incoming), and pushing credentials does not when they have the sizes the parser allows ([push_fine] in Waiting). *)
Definition on_network {A} (nwid : Z) (f : Network T -> sends -> outcome (Network T * sends * A)) : handler T A := fun s =>
  match networks s !! nwid with
  | None => Undefined
  | Some n => match f n (sent s) with
              | Ok (n, ap, a) => Done (set_sent (set_networks s (<[nwid := n]> (networks s))) ap) a
              | Throw e => Threw s e
              | Undef => Undefined
              end
  end.
Definition transmit (dest : Z) (b : Buffer) : handler T () := modify (fun s => set_sent s (sent s ++ [(dest, b)])).
Definition call (l : list HostCall) : handler T () := modify (fun s => set_calls s (calls s ++ l)).
Definition putFrame (f : PutFrame) : handler T () := call [HostFrame f].
Definition draw : handler T Z := fun s => let '(st, x) := prng (_prngState s) in Done (set_prng s st) x.

(** The memory and random bytes for the next packet, and the new packet. *)
Context `{PacketSource}.
Definition next_source : handler T (list Z * list Z) := gets (fun s => (new_mem (length (sent s)), new_iv (length (sent s)))).
Definition new_packet (dest source v : Z) : handler T Buffer := '(mem, iv) ← next_source; lift (Packet.Packet mem iv dest source v).

(** ** Replies that are expected: rings of 32 upper halves of packet IDs, by their lowest byte *)

Definition ZT_EXPECTING_REPLIES_BUCKET_MASK1 : Z := 255.
Definition ZT_EXPECTING_REPLIES_BUCKET_MASK2 : Z := 31.

Definition expectReplyTo (packetId : Z) : handler T () :=
  let pid2 := u32 (Z.shiftr packetId 32) in
  let bucket := Z.to_nat (Z.land pid2 ZT_EXPECTING_REPLIES_BUCKET_MASK1) in
  fun s =>
    match _expectingRepliesTo s !! bucket, _expectingRepliesToBucketPtr s !! bucket with
    | Some ring, Some p =>
        Done (set_expecting s (<[bucket := <[Z.to_nat (Z.land p ZT_EXPECTING_REPLIES_BUCKET_MASK2) := pid2]> ring]> (_expectingRepliesTo s))
                              (<[bucket := u8 (p + 1)]> (_expectingRepliesToBucketPtr s))) ()
    | _, _ => Undefined
    end.
Definition expectingReplyTo (s : Node T) (packetId : Z) : bool :=
  let pid2 := u32 (Z.shiftr packetId 32) in
  let bucket := Z.to_nat (Z.land pid2 ZT_EXPECTING_REPLIES_BUCKET_MASK1) in
  match _expectingRepliesTo s !! bucket with Some ring => existsb (Z.eqb pid2) ring | None => false end.

Definition ZT_NETWORK_AUTOCONF_DELAY : Z := 60000.
Definition localControllerHasAuthorized (s : Node T) (now nwid addr : Z) : outcome bool :=
  match _localControllerAuthorizations s !! (nwid, addr) with Some at' => d ← ssub now at'; Ok (d <? ZT_NETWORK_AUTOCONF_DELAY * 3) | None => Ok false end.
End Steps.

(** A node without networks. *)
Definition Node_new {T : Type -> Type} `{Table T} (rnd : Z * Z) : Node T :=
  mkNode ∅ [] [] rnd (replicate 256 (replicate 32 0)) (replicate 256 0) ∅ tab_new.

(** The tables of expected replies keep their shape. *)
Definition expecting_ok {T} (s : Node T) : Prop :=
  length (_expectingRepliesTo s) = 256%nat /\ Forall (fun r => length r = 32%nat) (_expectingRepliesTo s) /\ length (_expectingRepliesToBucketPtr s) = 256%nat.

(** ** A reply stays expected *)

Definition bucket_of (packetId : Z) : nat := Z.to_nat (Z.land (u32 (Z.shiftr packetId 32)) 255).

Lemma land_mask k x : 0 <= k -> Z.land x (2 ^ k - 1) = x mod 2 ^ k.
Proof. intros. change (2 ^ k - 1) with (Z.pred (2 ^ k)). rewrite <- Z.ones_equiv. by apply Z.land_ones. Qed.

Lemma reply_bucket_lt p : (bucket_of p < 256)%nat.
Proof. unfold bucket_of. change 255 with (2 ^ 8 - 1). rewrite land_mask by lia. pose proof (Z.mod_pos_bound (u32 (Z.shiftr p 32)) (2 ^ 8)). lia. Qed.

(** The place where a packet ID was noted, and how often the ring was written since. *)
Definition noted {T} (s : Node T) (packetId : Z) (slot k : Z) : Prop :=
  expecting_ok s /\ 0 <= slot < 32 /\
  exists ring p, _expectingRepliesTo s !! bucket_of packetId = Some ring /\ _expectingRepliesToBucketPtr s !! bucket_of packetId = Some p /\
    ring !! Z.to_nat slot = Some (u32 (Z.shiftr packetId 32)) /\ 0 <= p /\ p mod 32 = (slot + 1 + k) mod 32.

Lemma expectReplyTo_notes {T} (s : Node T) q : expecting_ok s -> Forall (fun p => 0 <= p) (_expectingRepliesToBucketPtr s) ->
  exists s' slot, expectReplyTo q s = Done s' () /\ Forall (fun p => 0 <= p) (_expectingRepliesToBucketPtr s') /\ noted s' q slot 0 /\
    (forall p i k, noted s p i k -> 0 <= k < 31 -> exists k', k <= k' <= k + 1 /\ noted s' p i k').
Proof.
  intros (L1 & L2 & L3) Hpos. pose proof (reply_bucket_lt q) as Hb. unfold expectReplyTo. fold (bucket_of q).
  destruct (lookup_lt_is_Some_2 (_expectingRepliesTo s) (bucket_of q)) as [ring Er]; [lia|]. destruct (lookup_lt_is_Some_2 (_expectingRepliesToBucketPtr s) (bucket_of q)) as [p Ep]; [lia|].
  change (Z.to_nat (Z.land (u32 (Z.shiftr q 32)) ZT_EXPECTING_REPLIES_BUCKET_MASK1)) with (bucket_of q). rewrite Er, Ep.
  pose proof (list.Forall_lookup_1 _ _ _ _ L2 Er) as Hring. pose proof (list.Forall_lookup_1 _ _ _ _ Hpos Ep) as Hp. cbn in Hring, Hp.
  unfold ZT_EXPECTING_REPLIES_BUCKET_MASK2. change 31 with (2 ^ 5 - 1). rewrite land_mask by lia. change (2 ^ 5) with 32. pose proof (Z.mod_pos_bound p 32 ltac:(lia)) as Hslot.
  set (s' := set_expecting s _ _). assert (expecting_ok s') as Hok.
  { unfold expecting_ok, s'. cbn. rewrite !length_insert. split; [done|]. split; [|done]. apply list.Forall_insert; [done|]. by rewrite length_insert. }
  assert ((u8 (p + 1)) mod 32 = (p mod 32 + 1) mod 32 /\ 0 <= u8 (p + 1)) as [Hu Hu0] by word.
  exists s', (p mod 32). split; [done|]. split; [apply list.Forall_insert; done|]. split.
  - split; [done|]. split; [done|]. eexists _, _. split; [by apply list_lookup_insert_eq; lia|]. split; [by apply list_lookup_insert_eq; lia|]. split; [by apply list_lookup_insert_eq; lia|]. split; [done|].
    by rewrite Z.add_0_r.
  - intros p' i k (_ & Hi & ring' & ptr & Er' & Ep' & Hin & Hptr & Hmod) Hk. destruct (decide (bucket_of p' = bucket_of q)) as [Eb|Eb].
    + exists (k + 1). split; [lia|]. split; [done|]. split; [done|]. rewrite Eb in *. assert (ring' = ring) as -> by congruence. assert (ptr = p) as -> by congruence.
      eexists _, _. split; [by apply list_lookup_insert_eq; lia|]. split; [by apply list_lookup_insert_eq; lia|]. split; [|split; [done|]].
      * rewrite list_lookup_insert_ne; [done|]. intros E. apply Z2Nat.inj in E; [|lia|lia]. rewrite Hmod in E. clear - E Hi Hk. Z.div_mod_to_equations. lia.
      * rewrite Hu, Hmod. clear - Hi Hk. Z.div_mod_to_equations. lia.
    + exists k. split; [lia|]. split; [done|]. split; [done|]. exists ring', ptr. unfold s'. cbn. rewrite !list_lookup_insert_ne by done. done.
Qed.

Lemma noted_expected {T} (s : Node T) p i k : noted s p i k -> expectingReplyTo s p = true.
Proof.
  intros (_ & Hi & ring & ptr & Er & _ & Hin & _). unfold expectingReplyTo. change (Z.to_nat (Z.land (u32 (Z.shiftr p 32)) ZT_EXPECTING_REPLIES_BUCKET_MASK1)) with (bucket_of p). rewrite Er.
  apply existsb_exists. exists (u32 (Z.shiftr p 32)). split; [|apply Z.eqb_refl]. apply list_elem_of_In. by eapply list_elem_of_lookup_2.
Qed.

(** The reply to a packet is expected for as long as not more than 31 other packets have been noted. *)
Lemma reply_expected {T} (s : Node T) p (l : list Z) : expecting_ok s -> Forall (fun p => 0 <= p) (_expectingRepliesToBucketPtr s) -> zlen l <= 31 ->
  exists s', for_each (p :: l) expectReplyTo s = Done s' () /\ expectingReplyTo s' p = true.
Proof.
  intros Hok Hpos Hl. cbn [for_each]. destruct (expectReplyTo_notes s p Hok Hpos) as (s1 & i & E & Hpos1 & Hn & _). unfold mbind, handler_bind. rewrite E.
  assert (forall l k (s1 : Node T), Forall (fun p => 0 <= p) (_expectingRepliesToBucketPtr s1) -> noted s1 p i k -> 0 <= k -> k + zlen l <= 31 ->
    exists s' : Node T, for_each l expectReplyTo s1 = Done s' () /\ expectingReplyTo s' p = true) as Hrest.
  { clear. induction l as [|q l IH]; intros k s1 Hpos Hn Hk Hl; cbn [for_each]; [exists s1; split; [done|by eapply noted_expected]|].
    rewrite zlen_cons in Hl. pose proof (zlen_nonneg l). destruct (expectReplyTo_notes s1 q) as (s2 & j & E & Hpos2 & _ & Hkeep); [apply Hn|done|].
    unfold mbind, handler_bind. rewrite E. destruct (Hkeep p i k Hn) as (k' & Hk' & Hn'); [lia|]. apply (IH k' s2); [done..|lia|lia]. }
  apply (Hrest l 0 s1); [done|done|lia|lia].
Qed.

(** ** Reasoning about handlers *)

Section wp.
Abbreviation T := (gmap Z).
Implicit Type s : Node T.

(** However [m] ends from [s]: [P] holds when it returns, [Q] when it throws. *)
Definition post {A} (m : handler T A) s (P : Node T -> A -> Prop) (Q : Node T -> Prop) : Prop :=
  match m s with Done s' a => P s' a | Threw s' _ => Q s' | Undefined => True end.

Lemma post_bind {A B} (m : handler T A) (k : A -> handler T B) s P Q : post m s (fun s' a => post (k a) s' P Q) Q -> post (m ≫= k) s P Q.
Proof. unfold post, mbind, handler_bind. by destruct (m s). Qed.
Lemma post_ret {A} (a : A) s (P : Node T -> A -> Prop) Q : P s a -> post (mret a) s P Q.
Proof. done. Qed.
Lemma post_weaken {A} (m : handler T A) s (P P' : Node T -> A -> Prop) (Q Q' : Node T -> Prop) : post m s P Q -> (forall s' a, P s' a -> P' s' a) -> (forall s', Q s' -> Q' s') -> post m s P' Q'.
Proof. unfold post. destruct (m s); auto. Qed.

(** The host is not called, and no network is joined, left or configured; the credentials of members stay as they are. *)
Definition same_creds (m m' : Membership T) : Prop :=
  _com m' = _com m /\ _comRevocationThreshold m' = _comRevocationThreshold m /\ _revocations m' = _revocations m /\ _remoteTags m' = _remoteTags m /\
  _remoteCaps m' = _remoteCaps m /\ _remoteCoos m' = _remoteCoos m.
Definition member (n : Network T) (a : Z) : Membership T := default Membership_new (_memberships n !! a).
Definition same_members (ms ms' : gmap Z (Membership T)) : Prop := forall a, same_creds (default Membership_new (ms !! a)) (default Membership_new (ms' !! a)).
Definition same_network (n n' : Network T) : Prop := _config n' = _config n /\ _mac n' = _mac n /\ _id n' = _id n /\ same_members (_memberships n) (_memberships n').
Definition quiet s s' : Prop :=
  calls s' = calls s /\ forall i, match networks s' !! i with Some n' => exists n, networks s !! i = Some n /\ same_network n n' | None => networks s !! i = None end.
Definition silent {A} (m : handler T A) : Prop := forall s, post m s (fun s' _ => quiet s s') (quiet s).

#[export] Instance same_creds_preorder : PreOrder same_creds.
Proof. split; [done|]. intros m1 m2 m3 (? & ? & ? & ? & ? & ?) (? & ? & ? & ? & ? & ?). unfold same_creds. split_and!; congruence. Qed.
#[export] Instance same_members_preorder : PreOrder same_members.
Proof. split; [intros ms a; reflexivity|]. intros m1 m2 m3 H1 H2 a. etrans; [apply H1|apply H2]. Qed.
#[export] Instance same_network_preorder : PreOrder same_network.
Proof.
  split; [intros n; split_and!; reflexivity|]. intros n1 n2 n3 (? & ? & ? & ?) (? & ? & ? & ?). split; [congruence|]. split; [congruence|]. split; [congruence|]. by etrans.
Qed.

Lemma same_members_insert ms a m : same_creds (default Membership_new (ms !! a)) m -> same_members ms (<[a := m]> ms).
Proof. intros Hm b. destruct (decide (a = b)) as [->|]; [by rewrite lookup_insert_eq|rewrite lookup_insert_ne by done; reflexivity]. Qed.
Lemma membership_same (n n' : Network T) a m : _membership n a = Ok (n', m) -> same_network n n' /\ m = member n a /\ member n' a = m.
Proof.
  unfold _membership, member. cbn [tab_index gmap_table mbind outcome_bind]. intros [= <- <-]. cbn [_memberships set_memberships]. split; [|split; [done|]].
  - split; [done|]. split; [done|]. split; [done|]. case_decide as E; [|reflexivity]. apply same_members_insert. by rewrite E.
  - case_decide as E; [by rewrite lookup_insert_eq, E|done].
Qed.
Lemma put_membership_same (n n' : Network T) a m : put_membership n a m = Ok n' -> same_creds (member n a) m -> same_network n n'.
Proof. unfold put_membership. cbn [tab_set gmap_table mbind outcome_bind]. intros [= <-] Hm. split; [done|]. split; [done|]. split; [done|]. by apply same_members_insert. Qed.

#[export] Instance quiet_preorder : PreOrder quiet.
Proof.
  split; [intros s; split; [done|]; intros i; destruct (networks s !! i); [by eexists|done]|].
  intros s1 s2 s3 [E1 H1] [E2 H2]. split; [congruence|]. intros i. specialize (H1 i). specialize (H2 i). destruct (networks s3 !! i) as [n3|].
  - destruct H2 as (n2 & E & ?). rewrite E in H1. destruct H1 as (n1 & -> & ?). exists n1. split; [done|]. by etrans.
  - by rewrite H2 in H1.
Qed.

Lemma quiet_same s s' : calls s' = calls s -> networks s' = networks s -> quiet s s'.
Proof. intros E1 E2. split; [done|]. rewrite E2. intros i. destruct (networks s !! i); [by eexists|done]. Qed.
Lemma quiet_insert s s' i n n' : calls s' = calls s -> networks s !! i = Some n -> same_network n n' -> networks s' = <[i := n']> (networks s) -> quiet s s'.
Proof.
  intros E1 Hn Hs E2. split; [done|]. rewrite E2. intros j. destruct (decide (i = j)) as [->|Hne]; [rewrite lookup_insert_eq; by exists n|].
  rewrite lookup_insert_ne by done. destruct (networks s !! j); [by eexists|done].
Qed.

Lemma silent_bind {A B} (m : handler T A) (k : A -> handler T B) : silent m -> (forall a, silent (k a)) -> silent (m ≫= k).
Proof.
  intros Hm Hk s. apply post_bind. specialize (Hm s). unfold post in *. destruct (m s) as [s1 a|s1 e|]; [|done|done]. specialize (Hk a s1). unfold post in Hk.
  destruct (k a s1); [by etrans|by etrans|done].
Qed.
Lemma silent_ret {A} (a : A) : silent (mret a).
Proof. intros s. by apply (quiet_same s s). Qed.
Lemma silent_lift {A} (m : outcome A) : silent (lift m).
Proof. intros s. unfold post, lift. by destruct m; try apply quiet_same. Qed.
Lemma silent_gets {A} (f : Node T -> A) : silent (gets f).
Proof. intros s. by apply (quiet_same s s). Qed.
Lemma silent_when (c : bool) m : silent m -> silent (when c m).
Proof. destruct c; [done|]. intros _. apply silent_ret. Qed.
Lemma silent_if {A} (c : bool) (m1 m2 : handler T A) : silent m1 -> silent m2 -> silent (if c then m1 else m2).
Proof. by destruct c. Qed.
Lemma silent_try {A} (m k : handler T A) : silent m -> silent k -> silent (try_catch m k).
Proof.
  intros Hm Hk s. specialize (Hm s). unfold post, try_catch in *. destruct (m s) as [| s1 e|]; [done| |done]. specialize (Hk s1). unfold post in Hk. destruct (k s1); [by etrans|by etrans|done].
Qed.
Lemma silent_for_each {X} (l : list X) f : (forall x, silent (f x)) -> silent (for_each l f).
Proof. intros Hf. induction l as [|x l IH]; cbn [for_each]; [by apply silent_ret|by apply silent_bind]. Qed.
Lemma silent_transmit a b : silent (transmit a b).
Proof. intros s. by apply quiet_same. Qed.
Lemma silent_draw : silent draw.
Proof. intros s. unfold draw, post. destruct (prng _). by apply quiet_same. Qed.
Lemma silent_expect p : silent (expectReplyTo p).
Proof. intros s. unfold expectReplyTo, post. destruct (_expectingRepliesTo s !! _); [|done]. destruct (_ !! _); [|done]. by apply quiet_same. Qed.
Lemma silent_on_network {A} i (f : Network T -> sends -> outcome (Network T * sends * A)) :
  (forall n ap n' ap' a, f n ap = Ok (n', ap', a) -> same_network n n') -> silent (on_network i f).
Proof.
  intros Hf s. unfold on_network, post. destruct (networks s !! i) as [n|] eqn:E; [|done]. destruct (f n (sent s)) as [[[n' ap] a]| |] eqn:Ef; [|done|done].
  eapply quiet_insert; [done|done|by eapply Hf|done].
Qed.
Lemma silent_new_packet `{PacketSource} d v k : silent (new_packet d v k).
Proof. unfold new_packet, next_source. apply silent_bind; [apply silent_gets|]. intros [? ?]. apply silent_lift. Qed.
End wp.

Create HintDb silent discriminated.
#[export] Hint Resolve silent_ret silent_lift silent_gets silent_transmit silent_draw silent_expect silent_new_packet : silent.

(** [silent_steps]: a handler is silent when its steps are. *)
Ltac silent_steps :=
  repeat match goal with
  | |- silent (_ ≫= _) => apply silent_bind; [|intros ?]
  | |- silent (when _ _) => apply silent_when
  | |- silent (try_catch _ _) => apply silent_try
  | |- silent (for_each _ _) => apply silent_for_each; intros ?
  | |- silent (if ?c then _ else _) => apply silent_if
  | |- silent (let '(_, _) := ?x in _) => destruct x
  | |- silent (match ?x with _ => _ end) => destruct x
  | |- silent _ => solve [eauto with silent]
  end.
