(* ===== verification/Multicaster.v ===== *)
(** * Multicast (node/Multicaster.cpp, node/Multicaster.hpp, node/OutboundMulticast.cpp)

    Who is in which multicast group, multicasts that still wait for members, and sending a frame to a group. [_groups] has the pair of network
    and group as key: the number [mc_key]. *)

From S2P Require Import Prelude Buffer Serial Address InetAddress Identity Packet Table Credential Credentials Capability CredentialSet NetworkConfig NetconfDict Membership Filter Network CredentialTransfer NetworkGroups Runtime SortedVector.
Import Network.

Definition ZT_TX_QUEUE_SIZE : Z := 32.
Definition ZT_MULTICAST_EXPLICIT_GATHER_DELAY : Z := ZT_MULTICAST_LIKE_EXPIRE / 10.
Definition ZT_MULTICAST_TRANSMIT_TIMEOUT : Z := 5000.

(** What is asked of the topology and its peers: the best upstream, whether this node is one, the latency of the path to a peer that is alive; and the low
    bandwidth mode. *)
Class Routes := { getUpstreamPeer : option Z; amUpstream : bool; path_latency : Z -> option Z; lowBandwidthModeEnabled : bool }.

Definition mc_key (nwid : Z) (mg : MulticastGroup) : Z := nwid * 2 ^ 80 + group_key mg.

Definition status_index {T} `{Table T} (k : Z) : handler T MulticastGroupStatus := fun s =>
  match tab_index Status_new (_groups s) k with Ok (t, gs) => Done (set_groups s t) gs | Throw e => Threw s e | Undef => Undefined end.
Definition status_get {T} `{Table T} (k : Z) : handler T (option MulticastGroupStatus) := fun s => lift (tab_get (_groups s) k) s.
Definition status_put {T} `{Table T} (k : Z) (gs : MulticastGroupStatus) : handler T () := fun s =>
  match tab_set (_groups s) k gs with Ok t => Done (set_groups s t) () | Throw e => Threw s e | Undef => Undefined end.

Section Multicaster.
Context {T : Type -> Type} `{Table T} `{PacketSource} `{PacketCrypto} `{Crypto} `{Env} `{Peers} `{StdSort} `{Routes}.
Context (self now : Z).

(** ** OutboundMulticast *)

Definition mac_set (m : Z) : bool := negb (m =? 0).
Definition append_payload (b : Buffer) (nwid flags gatherLimit src : Z) (dest : MulticastGroup) (etherType : Z) : outcome Buffer :=
  b ← append_int 8 b nwid;
  b ← append_int 1 b flags;
  b ← (if negb (gatherLimit =? 0) then append_int 4 b gatherLimit else Ok b);
  b ← (if mac_set src then MAC.appendTo b src else Ok b);
  b ← MAC.appendTo b (InetAddress._mac dest);
  b ← append_int 4 b (_adi dest);
  append_int 2 b etherType.

(** [init] of an object whose packet and frame are [mem]. When the frame does not fit the exception leaves what was set before: the copy of the frame is not made. *)
Definition outbound_init (mem iv : list Z) (nwid : Z) (disableCompression : bool) (limit gatherLimit src : Z) (dest : MulticastGroup) (etherType : Z) (payload : list Z) :
  outcome (OutboundMulticast * option exn) :=
  let len := if zlen payload <? ZT_MAX_MTU then zlen payload else ZT_MAX_MTU in
  let flags := Z.lor (if mac_set src then 0x04 else 0) (if negb (gatherLimit =? 0) then 0x02 else 0) in
  let macSrc := if mac_set src then src else MAC.fromAddress self nwid in
  b ← Packet.Packet_default mem iv;
  b ← Packet.setSource b self;
  b ← Packet.setVerb b Packet.VERB_MULTICAST_FRAME;
  b ← append_payload b nwid flags gatherLimit src dest etherType;
  match append b (take (Z.to_nat len) payload) with
  | Ok b =>
      '(b, _) ← (if disableCompression then Ok (b, false) else Armor.compress b);
      Ok (mkOutbound now nwid macSrc (InetAddress._mac dest) limit len etherType b [] (take (Z.to_nat len) payload), None)
  | Throw e => Ok (mkOutbound now nwid macSrc (InetAddress._mac dest) limit len etherType b [] (take (Z.to_nat len) mem), Some e)
  | Undef => Undef
  end.

Definition expired (o : OutboundMulticast) : bool := ZT_MULTICAST_TRANSMIT_TIMEOUT <=? u64 (now - _timestamp o).
Definition atLimit (o : OutboundMulticast) : bool := _limit o <=? zlen (_alreadySentTo o).
Definition set_packet (o : OutboundMulticast) (b : Buffer) : OutboundMulticast :=
  mkOutbound (_timestamp o) (_nwid o) (_macSrc o) (_macDest o) (_limit o) (_frameLen o) (_etherType o) b (_alreadySentTo o) (_frameData o).
Definition logAsSent (o : OutboundMulticast) (a : Z) : OutboundMulticast :=
  mkOutbound (_timestamp o) (_nwid o) (_macSrc o) (_macDest o) (_limit o) (_frameLen o) (_etherType o) (_packet o) (_alreadySentTo o ++ [a]) (_frameData o).

(** The packets of a filter come after those that were sent before. *)
Definition source_from (k : nat) : PacketSource := {| new_mem n := new_mem (k + n); new_iv n := new_iv (k + n) |}.
(** When the filter throws, because the frame is too long for a TEE or REDIRECT packet, the copies that it had sent before are not kept. *)
Definition filter_outgoing (nwid : Z) (f : Frame) (dest : Z) : handler T bool := fun s =>
  match networks s !! nwid with
  | None => Done s false
  | Some n =>
      match filterOutgoingPacket (H0 := source_from (length (sent s))) self n true f dest 255 (_prngState s) with
      | Ok (ap, o, ok) => Done (set_prng (set_sent s (sent s ++ ap)) (Filter.prngState o)) ok
      | Throw e => Threw s e
      | Undef => Undefined
      end
  end.

Definition sendOnly (o : OutboundMulticast) (toAddr : Z) : handler T OutboundMulticast :=
  ok ← filter_outgoing (_nwid o) (mkFrame false self (_macSrc o) (_macDest o) (_frameData o) (_etherType o) 0) toAddr;
  if (ok : bool) then
    _ ← on_network (_nwid o) (fun n ap => '(n, ap) ← pushCredentialsIfNeeded self n ap toAddr now; Ok (n, ap, ()));
    '(_, iv) ← next_source;
    b ← lift (Packet.newInitializationVector (_packet o) iv);
    b ← lift (Packet.setDestination b toAddr);
    pid ← lift (Packet.packetId b);
    _ ← expectReplyTo pid;
    _ ← transmit toAddr b;
    mret (set_packet o b)
  else mret o.
Definition sendAndLog (o : OutboundMulticast) (toAddr : Z) : handler T OutboundMulticast := sendOnly (logAsSent o toAddr) toAddr.

(** ** Members *)

Definition put_queue (k : Z) (gs : MulticastGroupStatus) (q : list OutboundMulticast) : handler T () :=
  status_put k (mkStatus (lastExplicitGather gs) q (members gs)).

(** The multicasts that wait go to the new member ([sendIfNew]); those that have reached their limit are dropped. The status is in the table all the time. *)
Fixpoint serve_queue (k : Z) (gs : MulticastGroupStatus) (before q : list OutboundMulticast) (member : Z) : handler T () :=
  match q with
  | [] => mret ()
  | o :: q =>
      if atLimit o then _ ← put_queue k gs (before ++ q); serve_queue k gs before q member
      else
        o ← (if bool_decide (member ∈ _alreadySentTo o) then mret o
             else _ ← put_queue k gs (before ++ logAsSent o member :: q); sendAndLog o member);
        if atLimit o then _ ← put_queue k gs (before ++ q); serve_queue k gs before q member
        else _ ← put_queue k gs (before ++ o :: q); serve_queue k gs (before ++ [o]) q member
  end.

(** [_add]; [gs] is the status of the group with key [k]. *)
Definition _add (k : Z) (gs : MulticastGroupStatus) (member : Z) : handler T () :=
  if member =? self then mret ()
  else
    let i := lower_bound member_address (members gs) member in
    let insert ms := let gs := mkStatus (lastExplicitGather gs) (txQueue gs) ms in _ ← status_put k gs; serve_queue k gs [] (txQueue gs) member in
    match members gs !! i with
    | Some m =>
        if member_address m =? member then status_put k (mkStatus (lastExplicitGather gs) (txQueue gs) (<[i := mkMember (member_address m) now]> (members gs)))
        else insert (vec_insert (members gs) i (mkMember member now))
    | None => insert (members gs ++ [mkMember member now])
    end.

Definition add (nwid : Z) (mg : MulticastGroup) (member : Z) : handler T () :=
  gs ← status_index (mc_key nwid mg); _add (mc_key nwid mg) gs member.
Definition addMultiple (nwid : Z) (mg : MulticastGroup) (addresses : list Z) : handler T () :=
  _ ← status_index (mc_key nwid mg); for_each addresses (fun a => add nwid mg a).

Definition remove_member (l : list MulticastGroupMember) (a : Z) : list MulticastGroupMember :=
  match list_find (fun m => member_address m = a) l with Some (i, _) => delete i l | None => l end.
Definition remove (nwid : Z) (mg : MulticastGroup) (member : Z) : handler T () :=
  gs ← status_get (mc_key nwid mg);
  match gs with
  | Some gs => status_put (mc_key nwid mg) (mkStatus (lastExplicitGather gs) (txQueue gs) (remove_member (members gs) member))
  | None => mret ()
  end.

Definition getMembers (nwid : Z) (mg : MulticastGroup) (limit : Z) : handler T (list Z) :=
  gs ← status_get (mc_key nwid mg);
  mret match gs with Some gs => take (Z.to_nat (Z.max 1 limit)) (rev (member_address <$> members gs)) | None => [] end.

(** ** Members for somebody who asks *)

(** The first of the members from [rptr] on that was not picked. *)
Fixpoint scan (fuel : nat) (ms : list MulticastGroupMember) (picked : list Z) (rptr : Z) : outcome Z :=
  match fuel with
  | O => Undef
  | S fuel =>
      match ms !! Z.to_nat (rptr mod zlen ms) with
      | Some m => if bool_decide (member_address m ∈ picked) then scan fuel ms picked (u32 (rptr + 1)) else Ok (member_address m)
      | None => Undef
      end
  end.

(** [picked] has room for 2006 addresses. *)
Definition PICKED_ROOM : Z := ZT_PROTO_MAX_PACKET_LENGTH / 5 + 2.
Fixpoint gather_loop (fuel : nat) (ms : list MulticastGroupMember) (queryingPeer limit : Z) (b : Buffer) (picked : list Z) (added : Z) : handler T (Buffer * Z) :=
  if (added <? limit) && (zlen picked <? zlen ms) && (size b + Address.ZT_ADDRESS_LENGTH <=? ZT_PROTO_MAX_PACKET_LENGTH) then
    match fuel with
    | O => lift Undef
    | S fuel =>
        x ← draw;
        a ← lift (scan (2 * length ms) ms picked (u32 x));
        if PICKED_ROOM <=? zlen picked then lift Undef
        else if negb (queryingPeer =? a) then b ← lift (Address.appendTo b a); gather_loop fuel ms queryingPeer limit b (picked ++ [a]) (added + 1)
        else gather_loop fuel ms queryingPeer limit b (picked ++ [a]) added
    end
  else mret (b, added).

(** [gather]; the packet, and how many addresses were appended. *)
Definition gather (queryingPeer nwid : Z) (mg : MulticastGroup) (b : Buffer) (limit : Z) : handler T (Buffer * Z) :=
  if limit =? 0 then mret (b, 0)
  else
    let limit := if 0xffff <? limit then 0xffff else limit in
    let totalAt := size b in
    b ← lift (addSize b 4);
    let addedAt := size b in
    b ← lift (addSize b 2);
    n ← network nwid;
    mine ← lift match n with Some n => subscribedToMulticastGroup n mg true | None => Ok false end;
    b ← lift (if mine then Address.appendTo b self else Ok b);
    let added := if (mine : bool) then 1 else 0 in
    gs ← status_get (mc_key nwid mg);
    let ms := match gs with Some gs => members gs | None => [] end in
    let totalKnown := added + zlen ms in
    '(b, added) ← gather_loop (length ms) ms queryingPeer limit b [] added;
    b ← lift (setAt 4 b totalAt totalKnown);
    b ← lift (setAt 2 b addedAt added);
    mret (b, added).

(** ** Sending to a group *)

(** A random permutation of the members: from the last one on, each is swapped with one before it or itself. *)
Fixpoint shuffle_from (i : nat) (l : list nat) : handler T (list nat) :=
  match i with
  | O => mret l
  | S i' =>
      x ← draw;
      let j := Z.to_nat (u32 x mod Z.of_nat (i + 1)) in
      match l !! i, l !! j with
      | Some a, Some b => shuffle_from i' (<[i := b]> (<[j := a]> l))
      | _, _ => lift Undef
      end
  end.
Definition shuffle (n : nat) : handler T (list nat) := shuffle_from (n - 1) (seq 0 n).

(** The replicator with the shortest path. *)
Definition best_replicator (l : list Z) : option Z :=
  (fold_left (fun best a => match path_latency a with Some x => if x <? best.2 then (Some a, x) else best | None => best end) l (None, 0xffff)).1.

(** The nodes that are asked for members: the upstream, the controller, and the others to contact, in some order, until there are 16. *)
Definition swap_two (x : Z) (n : Z) (l : list nat) : outcome (list nat) :=
  match l !! Z.to_nat (u32 x mod n), l !! Z.to_nat (u32 (Z.shiftr x 32) mod n) with
  | Some x1, Some x2 => match l !! x1, l !! x2 with Some a, Some b => Ok (<[x2 := a]> (<[x1 := b]> l)) | _, _ => Undef end
  | _, _ => Undef
  end.
Fixpoint shuffle_contacts (k : nat) (n : Z) (l : list nat) : handler T (list nat) :=
  match k with O => mret l | S k => x ← draw; l ← lift (swap_two x n l); shuffle_contacts k n l end.
Definition explicitGatherPeers (n : Network T) : handler T (list Z) :=
  let ac := alwaysContactAddresses (_config n) in
  let accnt := length ac in
  l ← shuffle_contacts (Nat.div2 accnt) (Z.of_nat accnt) (seq 0 accnt);
  let first := match getUpstreamPeer with Some a => [a] | None => [] end ++ [controller n] in
  mret (first ++ take (16 - length first) (omap (fun i => ac !! i) l)).

Definition ask_members (n : Network T) (mg : MulticastGroup) (gatherLimit : Z) (a : Z) : handler T () :=
  let hasCom := COM.COM_bool (com (_config n)) in
  b ← new_packet a self Packet.VERB_MULTICAST_GATHER;
  b ← lift (append_int 8 b (_id n));
  b ← lift (append_int 1 b (if hasCom then 0x01 else 0x00));
  b ← lift (MAC.appendTo b (InetAddress._mac mg));
  b ← lift (append_int 4 b (_adi mg));
  b ← lift (append_int 4 b gatherLimit);
  b ← lift (if hasCom then COM.serialize b (com (_config n)) else Ok b);
  pid ← lift (Packet.packetId b);
  _ ← expectReplyTo pid;
  transmit a b.

(** The MULTICAST_FRAME that asks a replicator to do it, armored and put on its path. *)
Definition replicate_frame (n : Network T) (a : Z) (mg : MulticastGroup) (src etherType : Z) (payload : list Z) : handler T () :=
  b ← new_packet a self Packet.VERB_MULTICAST_FRAME;
  b ← lift (append_int 8 b (_id n));
  b ← lift (append_int 1 b 0x0c);
  b ← lift (MAC.appendTo b (if mac_set src then src else MAC.fromAddress self (_id n)));
  b ← lift (MAC.appendTo b (InetAddress._mac mg));
  b ← lift (append_int 4 b (_adi mg));
  b ← lift (append_int 2 b etherType);
  b ← lift (append b payload);
  '(b, _) ← lift (Armor.compress b);
  transmit a b.

(** Enough members: the active bridges, then members, are sent the frame at once; nothing is remembered. *)
Fixpoint send_each (o : OutboundMulticast) (l : list Z) : handler T OutboundMulticast :=
  match l with [] => mret o | a :: l => o ← sendOnly o a; send_each o l end.
(** The multicast is the last of the queue; sending logs the address first. *)
Fixpoint send_logged (k : Z) (gs : MulticastGroupStatus) (o : OutboundMulticast) (l : list Z) : handler T () :=
  match l with
  | [] => mret ()
  | a :: l =>
      _ ← put_queue k gs (txQueue gs ++ [logAsSent o a]);
      o ← sendAndLog o a;
      _ ← put_queue k gs (txQueue gs ++ [o]);
      send_logged k gs o l
  end.

Definition init_outbound (nwid limit gatherLimit src : Z) (mg : MulticastGroup) (etherType : Z) (payload : list Z) : handler T (OutboundMulticast * option exn) :=
  '(mem, iv) ← next_source; lift (outbound_init mem iv nwid false limit gatherLimit src mg etherType payload).
Definition throw {A} (e : option exn) (k : handler T A) : handler T A := match e with Some e => lift (Throw e) | None => k end.

Definition send_now (n : Network T) (gs : MulticastGroupStatus) (indexes : list nat) (origin src : Z) (mg : MulticastGroup) (etherType : Z) (payload : list Z) : handler T () :=
  let bridges := activeBridges (_config n) in
  let limit := multicastLimit (_config n) in
  '(o, e) ← init_outbound (_id n) limit 1 src mg etherType payload;
  throw e (
    o ← send_each o (List.filter (fun a => negb (a =? self) && negb (a =? origin)) bridges);
    let ms := omap (fun i => member_address <$> members gs !! i) indexes in
    _ ← send_each o (take (Z.to_nat limit) (List.filter (fun a => negb (bool_decide (a ∈ bridges)) && negb (a =? origin)) ms));
    mret ()).

(** Too few: members are asked for, at most every minute, and the multicast waits for more of them. *)
Definition send_queued (k : Z) (n : Network T) (gs : MulticastGroupStatus) (indexes : list nat) (origin src : Z) (mg : MulticastGroup) (etherType : Z) (payload : list Z) : handler T () :=
  let bridges := List.filter (fun a => negb (a =? self)) (activeBridges (_config n)) in
  let limit := multicastLimit (_config n) in
  let gs := mkStatus (lastExplicitGather gs) (drop (length (txQueue gs) - (Z.to_nat ZT_TX_QUEUE_SIZE - 1)) (txQueue gs)) (members gs) in
  _ ← status_put k gs;
  let gatherLimit := limit - zlen (members gs) + 1 in
  due ← lift match members gs with
             | [] => Ok true
             | _ => d ← ssub now (lastExplicitGather gs); Ok (ZT_MULTICAST_EXPLICIT_GATHER_DELAY * (if lowBandwidthModeEnabled then 3 else 1) <=? d)
             end;
  let gs := if (due : bool) then mkStatus now (txQueue gs) (members gs) else gs in
  _ ← when due (_ ← status_put k gs; l ← explicitGatherPeers n; for_each l (ask_members n mg gatherLimit));
  '(o, e) ← init_outbound (_id n) limit gatherLimit src mg etherType payload;
  _ ← put_queue k gs (txQueue gs ++ [o]);
  throw e (
    let o := if negb (origin =? 0) then logAsSent o origin else o in
    let bridged := take (Nat.max 1 (Z.to_nat limit)) bridges in
    let ms := omap (fun i => member_address <$> members gs !! i) indexes in
    let others := take (Z.to_nat limit - length bridged) (List.filter (fun a => negb (bool_decide (a ∈ activeBridges (_config n)))) ms) in
    _ ← put_queue k gs (txQueue gs ++ [o]);
    send_logged k gs o (bridged ++ others)).

Definition send (n : Network T) (origin : Z) (mg : MulticastGroup) (src etherType : Z) (payload : list Z) : handler T () :=
  let reps := multicastReplicators (_config n) in
  let replicator := if negb (isActiveBridge (_config n) self) && negb (bool_decide (self ∈ reps)) then best_replicator reps else None in
  match replicator with
  | Some a => replicate_frame n a mg src etherType payload
  | None =>
      let k := mc_key (_id n) mg in
      try_catch
        (gs ← status_index k;
         indexes ← shuffle (length (members gs));
         if multicastLimit (_config n) <=? zlen (members gs) then send_now n gs indexes origin src mg etherType payload
         else send_queued k n gs indexes origin src mg etherType payload)
        (mret ())
  end.

(** ** clean *)

Fixpoint fresh_members (l : list MulticastGroupMember) : outcome (list MulticastGroupMember) :=
  match l with
  | [] => Ok []
  | m :: l => d ← ssub now (member_timestamp m); l ← fresh_members l; Ok (if d <? ZT_MULTICAST_LIKE_EXPIRE then m :: l else l)
  end.
Definition clean_status (gs : MulticastGroupStatus) : outcome MulticastGroupStatus :=
  ms ← fresh_members (members gs);
  Ok (mkStatus (lastExplicitGather gs) (List.filter (fun o => negb (expired o || atLimit o)) (txQueue gs)) ms).
Definition status_empty (gs : MulticastGroupStatus) : bool := match members gs, txQueue gs with [], [] => true | _, _ => false end.
Definition clean : handler T () :=
  l ← gets (fun s => tab_entries (_groups s));
  _ ← for_each l (fun x => gs ← lift (clean_status x.2); status_put x.1 gs);
  t ← gets _groups;
  t ← lift (tab_keep (fun _ gs => negb (status_empty gs)) t);
  modify (fun s => set_groups s t).
End Multicaster.

(** ** The host is not involved in any of this *)

Section silent.
Abbreviation T := (gmap Z).
Context `{PacketSource} `{PacketCrypto} `{Crypto} `{Env} `{Peers} `{StdSort} `{Routes}.
Context (self now : Z).

Lemma silent_status_index k : silent (status_index (T := T) k).
Proof. intros s. unfold status_index, post. destruct (tab_index _ _ _) as [[t gs]| |]; [by apply quiet_same|done|done]. Qed.
Lemma silent_status_get k : silent (status_get (T := T) k).
Proof. intros s. apply silent_lift. Qed.
Lemma silent_status_put k gs : silent (status_put (T := T) k gs).
Proof. intros s. unfold status_put, post. destruct (tab_set _ _ _); [by apply quiet_same|done|done]. Qed.
Hint Resolve silent_status_index silent_status_get silent_status_put : silent.

Lemma silent_filter_outgoing i f d : silent (filter_outgoing (T := T) self i f d).
Proof.
  intros s. unfold filter_outgoing, post. destruct (networks s !! i); [|by apply quiet_same]. destruct (filterOutgoingPacket _ _ _ _ _ _ _) as [[[ap o] ok]| |]; [by apply quiet_same|done|done].
Qed.

Lemma push_after_same interval (n : Network T) ap to t n' ap' : push_after self interval n ap to t = Ok (n', ap') -> same_network n n'.
Proof.
  unfold push_after. destruct (_membership n to) as [[n1 m]| |] eqn:Em; [|done..]. apply membership_same in Em as (Hs & -> & Hm). cbn [mbind outcome_bind].
  match goal with |- context [?x ≫= _] => destruct x as [[]| |] end; cbn [mbind outcome_bind]; [|intros [= <- <-]; done|done|done].
  unfold pushCredentials. destruct (_ || _); [done|]. destruct (push_loop _ _ _ _ _) as [ap1| |]; [|done..]. cbn [mbind outcome_bind].
  destruct (put_membership n1 to _) as [n2| |] eqn:Ep; [|done..]. cbn [mbind outcome_bind]. intros [= <- <-]. etrans; [exact Hs|]. eapply put_membership_same; [exact Ep|]. by rewrite Hm.
Qed.

Lemma silent_sendOnly o a : silent (sendOnly (T := T) self now o a).
Proof.
  unfold sendOnly. pose proof (silent_filter_outgoing (_nwid o)). apply silent_bind; [auto|]. intros []; [|auto with silent]. apply silent_bind.
  - apply silent_on_network. intros n ap n' ap' []. unfold pushCredentialsIfNeeded. destruct (push_after _ _ _ _ _ _) as [[n1 ap1]| |] eqn:E; [|done..].
    cbn [mbind outcome_bind]. intros [= <- <-]. by eapply push_after_same.
  - intros []. unfold next_source. silent_steps.
Qed.
Hint Resolve silent_sendOnly : silent.

Lemma silent_serve k gs q : forall before m, silent (serve_queue (T := T) self now k gs before q m).
Proof. induction q as [|o q IH]; intros before m; cbn [serve_queue]; [auto with silent|]. unfold put_queue, sendAndLog. silent_steps; apply IH. Qed.
Hint Resolve silent_serve : silent.
Lemma silent_add i mg m : silent (add (T := T) self now i mg m).
Proof. unfold add, _add. silent_steps. Qed.
Hint Resolve silent_add : silent.
Lemma silent_addMultiple i mg l : silent (addMultiple (T := T) self now i mg l).
Proof. unfold addMultiple. silent_steps. Qed.

Lemma silent_gather_loop fuel : forall ms q lim b p added, silent (gather_loop (T := T) fuel ms q lim b p added).
Proof. induction fuel as [|fuel IH]; intros ms q lim b p added; cbn [gather_loop]; silent_steps; apply IH. Qed.
Hint Resolve silent_gather_loop : silent.
Lemma silent_gather q i mg b lim : silent (gather (T := T) self q i mg b lim).
Proof. unfold gather, network. silent_steps. Qed.

Lemma silent_shuffle n : silent (shuffle (T := T) n).
Proof.
  unfold shuffle. generalize (seq 0 n) as l. generalize (n - 1)%nat as i. induction i as [|i IH]; intros l; cbn [shuffle_from]; [auto with silent|]. silent_steps; apply IH.
Qed.
Lemma silent_contacts n : silent (explicitGatherPeers (T := T) n).
Proof.
  unfold explicitGatherPeers. apply silent_bind; [|intros; auto with silent]. generalize (seq 0 (length (alwaysContactAddresses (_config n)))) as l.
  induction (Nat.div2 _) as [|k IH]; intros l; cbn [shuffle_contacts]; silent_steps; apply IH.
Qed.
Lemma silent_send_each l : forall o, silent (send_each (T := T) self now o l).
Proof. induction l as [|a l IH]; intros o; cbn [send_each]; silent_steps; apply IH. Qed.
Lemma silent_send_logged k gs l : forall o, silent (send_logged (T := T) self now k gs o l).
Proof. induction l as [|a l IH]; intros o; cbn [send_logged]; unfold put_queue, sendAndLog; silent_steps; apply IH. Qed.
Hint Resolve silent_shuffle silent_contacts silent_send_each silent_send_logged : silent.

Lemma silent_send (n : Network T) origin mg src et bs : silent (send self now n origin mg src et bs).
Proof.
  unfold send, replicate_frame, send_now, send_queued, init_outbound, next_source, throw, put_queue, ask_members. silent_steps.
Qed.
End silent.
#[export] Hint Resolve silent_status_index silent_status_get silent_status_put silent_filter_outgoing silent_sendOnly silent_add silent_addMultiple silent_gather silent_send : silent.

#[export] Instance toy_routes : Routes := { getUpstreamPeer := Some 0xaabbccddee; amUpstream := false; path_latency a := None; lowBandwidthModeEnabled := false }.
