(* ===== verification/MulticastSpec.v ===== *)
(** * What Multicaster promises

    Gathering lists members once each, leaves out who asks, and lists all of them unless the limit or the room in the packet is used up; the members of a group
    are in order, never this node; who announces a group to a node that lets it take part becomes a member. *)

From stdpp Require Import sorting.
From S2P Require Import Prelude Buffer Serial Address InetAddress Identity Packet Table Credential Credentials Capability CredentialSet NetworkConfig NetconfDict Membership Filter Network CredentialTransfer NetworkGroups Runtime Multicaster SortedVector.
Import Network.

Abbreviation T := (gmap Z).

(** ** Picking a member *)

Section scan.
Context (ms : list MulticastGroupMember) (picked : list Z).
Let n := zlen ms.

Definition unpicked (p : Z) : Prop := exists m, ms !! Z.to_nat (p mod n) = Some m /\ member_address m ∉ picked.

(** From [rptr] on the scan meets an unpicked member. *)
Lemma scan_finds (j : nat) : forall fuel rptr, rng 32 rptr -> (j < fuel)%nat -> 0 < n -> unpicked (u32 (rptr + Z.of_nat j)) ->
  exists m, scan fuel ms picked rptr = Ok (member_address m) /\ m ∈ ms /\ member_address m ∉ picked.
Proof.
  induction j as [|j IH]; intros [|fuel] rptr Hr Hj Hn Hu; [lia| |lia|]; cbn [scan]; fold n.
  - rewrite Z.add_0_r in Hu. unfold rng in Hr. rewrite u32_small in Hu by lia. destruct Hu as (m & E & Hm). rewrite E, bool_decide_eq_false_2 by done. exists m. split; [done|]. split; [by eapply list_elem_of_lookup_2|done].
  - destruct (lookup_lt_is_Some_2 ms (Z.to_nat (rptr mod n))) as [m E]; [pose proof (Z.mod_pos_bound rptr n Hn); unfold n, zlen in *; lia|]. rewrite E. case_bool_decide.
    + apply IH; [unfold rng, u32, wrap; apply Z.mod_pos_bound; lia|lia|done|]. replace (u32 (u32 (rptr + 1) + Z.of_nat j)) with (u32 (rptr + Z.of_nat (S j))); [done|].
      unfold u32, wrap. rewrite Zplus_mod_idemp_l. f_equal. lia.
    + exists m. split; [done|]. split; [by eapply list_elem_of_lookup_2|done].
Qed.

Lemma scan_spec rptr m : rng 32 rptr -> n <= 2 ^ 32 -> m ∈ ms -> member_address m ∉ picked ->
  exists m, scan (2 * length ms) ms picked rptr = Ok (member_address m) /\ m ∈ ms /\ member_address m ∉ picked.
Proof.
  intros Hr Hn Hin Hp. apply list_elem_of_lookup in Hin as [t Ht]. pose proof (lookup_lt_Some _ _ _ Ht) as Hlt. assert (n = Z.of_nat (length ms)) as En by done. unfold rng in Hr.
  pose proof (Z.mod_pos_bound (Z.of_nat t - rptr) n ltac:(lia)) as Hd. set (d := (Z.of_nat t - rptr) mod n) in *.
  assert (forall j, Z.of_nat t = u32 (rptr + Z.of_nat j) mod n -> (j < 2 * length ms)%nat -> exists m, scan (2 * length ms) ms picked rptr = Ok (member_address m) /\ m ∈ ms /\ member_address m ∉ picked) as Hgo.
  { intros j Ej Hj. apply (scan_finds j); [done|lia|lia|]. exists m. rewrite <- Ej, Nat2Z.id. done. }
  destruct (Z.lt_ge_cases (rptr + d) (2 ^ 32)).
  - apply (Hgo (Z.to_nat d)); [|lia]. rewrite Z2Nat.id, u32_small by lia. unfold d. rewrite Zplus_mod_idemp_r. replace (rptr + (Z.of_nat t - rptr)) with (Z.of_nat t) by lia. by rewrite Z.mod_small by lia.
  - apply (Hgo (Z.to_nat (2 ^ 32 - rptr + Z.of_nat t))); [|lia]. rewrite Z2Nat.id by lia. replace (rptr + (2 ^ 32 - rptr + Z.of_nat t)) with (Z.of_nat t + 1 * 2 ^ 32) by lia.
    unfold u32, wrap. rewrite Z.mod_add, (Z.mod_small (Z.of_nat t)) by lia. by rewrite Z.mod_small by lia.
Qed.
End scan.

(** ** Gathering *)

Section gather.
Context `{PacketSource}.
Context (self q : Z) (ms : list MulticastGroupMember) (limit : Z).
Hypothesis (Hms : NoDup (member_address <$> ms)) (Hn : zlen ms <= 2 ^ 32).
Implicit Type s : Node T.

Definition addrs_enc (l : list Z) : list Z := concat (be_bytes 5 <$> l).
Lemma zlen_addrs l : zlen (addrs_enc l) = 5 * zlen l.
Proof. induction l as [|a l IH]; [done|]. unfold addrs_enc in *. cbn [fmap list_fmap concat]. rewrite zlen_app, IH, zlen_cons, zlen_be_bytes. lia. Qed.

Definition others (l : list Z) : list Z := List.filter (fun a => negb (q =? a)) l.
Lemma others_length l : NoDup l -> zlen l <= zlen (others l) + 1.
Proof.
  induction l as [|a l IH]; intros Hl; [by_compute|]. apply list.NoDup_cons in Hl as [Ha Hl]. specialize (IH Hl). unfold others in *. cbn [List.filter]. rewrite zlen_cons.
  destruct (Z.eqb_spec q a) as [<-|]; cbn [negb]; [|rewrite zlen_cons; lia]. assert (List.filter (fun a => negb (q =? a)) l = l) as ->; [|lia].
  clear - Ha. induction l as [|b l IH]; [done|]. apply not_elem_of_cons in Ha as [Hb Ha]. cbn [List.filter]. rewrite (proj2 (Z.eqb_neq _ _)) by done. cbn [negb]. by rewrite IH.
Qed.
Lemma others_app l1 l2 : others (l1 ++ l2) = others l1 ++ others l2.
Proof. apply List.filter_app. Qed.

(** A state that differs in the generator only. *)
Definition drew s s' : Prop := exists st, s' = set_prng s st.
Lemma drew_trans s1 s2 s3 : drew s1 s2 -> drew s2 s3 -> drew s1 s3.
Proof. intros [st1 ->] [st2 ->]. by exists st2. Qed.
Lemma draw_ok s : exists s' x, draw s = Done s' x /\ drew s s'.
Proof. unfold draw. destruct (prng _) as [st x]. exists (set_prng s st), x. split; [done|]. by exists st. Qed.

Lemma unpicked_left picked : picked ⊆ member_address <$> ms -> zlen picked < zlen ms -> exists m, m ∈ ms /\ member_address m ∉ picked.
Proof.
  intros Hs Hl. destruct (decide (Exists (fun m => member_address m ∉ picked) ms)) as [He|He]; [apply list.Exists_exists in He as (m & ? & ?); by exists m|].
  exfalso. assert (forall m, m ∈ ms -> member_address m ∈ picked) as Hall by (intros m Hm; apply dec_stable; intros Hp; apply He, list.Exists_exists; by exists m). assert (member_address <$> ms ⊆+ picked) as Hsub.
  { apply NoDup_submseteq; [done|]. intros a (m & -> & Hm)%list_elem_of_fmap. by apply Hall. }
  apply submseteq_length in Hsub. rewrite length_fmap in Hsub. unfold zlen in Hl. lia.
Qed.

Lemma all_picked picked : NoDup picked -> picked ⊆ member_address <$> ms -> zlen ms <= zlen picked -> member_address <$> ms ⊆ picked.
Proof.
  intros Hnd Hs Hl. assert (picked ⊆+ member_address <$> ms) as Hsub by (apply NoDup_submseteq; [done|]; intros a; apply Hs).
  apply submseteq_length_Permutation in Hsub; [|rewrite length_fmap; unfold zlen in Hl; lia]. intros a Ha. by rewrite Hsub.
Qed.

(** What the loop has done when it ends. *)
Definition gathered s b picked added (r : result (Node T) (Buffer * Z)) : Prop :=
  exists s' b' more, r = Done s' (b', added + zlen (others more)) /\ drew s s' /\
    buf_ok b' /\ capacity b' = capacity b /\ data b' = data b ++ addrs_enc (others more) /\ NoDup (picked ++ more) /\ more ⊆ member_address <$> ms /\ added + zlen (others more) <= limit /\
    (added + zlen (others more) = limit \/ ZT_PROTO_MAX_PACKET_LENGTH < size b' + 5 \/ member_address <$> ms ⊆ picked ++ more).
Lemma gathered_stop s b picked added : buf_ok b -> NoDup picked -> added <= limit -> added = limit \/ ZT_PROTO_MAX_PACKET_LENGTH < size b + 5 \/ member_address <$> ms ⊆ picked ->
  gathered s b picked added (Done s (b, added)).
Proof.
  intros Hb Hnd Hl Hr. exists s, b, []. cbn [others List.filter]. change (zlen (@nil Z)) with 0. change (addrs_enc []) with (@nil Z). rewrite Z.add_0_r, !app_nil_r. split; [done|].
  split; [exists (_prngState s); by destruct s|]. split_and!; try done. set_solver.
Qed.

(** The addresses appended are those of distinct members; the loop ends at the limit, when the packet is full, or when all have been picked. *)
Lemma gather_loop_spec fuel : forall s b picked added, buf_ok b -> capacity b = ZT_PROTO_MAX_PACKET_LENGTH -> NoDup picked -> picked ⊆ member_address <$> ms ->
  5 * zlen (others picked) <= size b -> added <= limit -> zlen ms - zlen picked <= Z.of_nat fuel ->
  gathered s b picked added (gather_loop fuel ms q limit b picked added s).
Proof.
  assert (ZT_PROTO_MAX_PACKET_LENGTH = 10024) as Emax by by_compute. assert (PICKED_ROOM = 2006) as Eroom by by_compute.
  induction fuel as [|fuel IH]; intros s b picked added Hb Hc Hnd Hin Hsz Hlim Hfuel; cbn [gather_loop]; change Address.ZT_ADDRESS_LENGTH with 5.
  all: destruct (Z.ltb_spec added limit) as [Hl|Hl]; cbn [andb]; [|apply gathered_stop; [done..|left; lia]].
  all: destruct (Z.ltb_spec (zlen picked) (zlen ms)) as [Hp|Hp]; cbn [andb]; [|apply gathered_stop; [done..|right; right; by apply all_picked]].
  all: destruct (Z.leb_spec (size b + 5) ZT_PROTO_MAX_PACKET_LENGTH) as [Hr|Hr]; [|apply gathered_stop; [done..|by right; left]].
  { lia. }
  destruct (draw_ok s) as (s1 & x & Ed & Hs1). unfold mbind, handler_bind. rewrite Ed. destruct (unpicked_left picked Hin Hp) as (m0 & Hm0 & Hu0).
  destruct (scan_spec ms picked (u32 x) m0) as (m & -> & Hm & Hu); [unfold rng, u32, wrap; apply Z.mod_pos_bound; lia|done..|]. cbn [lift].
  pose proof (others_length picked Hnd). rewrite (proj2 (Z.leb_gt _ _)) by lia. set (a := member_address m) in *.
  assert (NoDup (picked ++ [a])) as Hnd' by (apply list.NoDup_app; split; [done|]; split; [set_solver|apply NoDup_singleton]).
  assert (picked ++ [a] ⊆ member_address <$> ms) as Hin' by (intros y [Hy|Hy]%elem_of_app; [by apply Hin|]; apply list_elem_of_singleton in Hy as ->; apply list_elem_of_fmap; by exists m).
  assert (zlen (picked ++ [a]) = zlen picked + 1) as Hz by (rewrite zlen_app; by_compute || done).
  destruct (Z.eqb_spec q a) as [Eq|Hq]; cbn [negb].
  - destruct (IH s1 b (picked ++ [a]) added) as (s' & b' & more & E & Hs' & Hb' & Hc' & Hd' & Hnd2 & Hin2 & Hl2 & Hend); [done..| |done|lia|].
    { rewrite others_app. unfold others at 2. cbn [List.filter]. rewrite Eq, Z.eqb_refl. cbn [negb]. by rewrite app_nil_r. }
    assert (others (a :: more) = others more) as Eo by (unfold others; cbn [List.filter]; by rewrite Eq, Z.eqb_refl).
    exists s', b', (a :: more). rewrite Eo. rewrite <- app_assoc in Hnd2, Hend. split; [exact E|]. split; [by eapply drew_trans|]. split_and!; try done. set_solver.
  - assert (others (a :: []) = [a]) as Eo by (unfold others; cbn [List.filter]; by rewrite (proj2 (Z.eqb_neq _ _)) by done).
    destruct (writes_fits b (be_bytes 5 a) (Address.appendTo b a)) as (b1 & -> & Hb1 & Hd1 & Hc1); [by apply Address.appendTo_writes|rewrite zlen_be_bytes; unfold size in Hr; lia|]. cbn [lift].
    assert (size b1 = size b + 5) as Hs1z by (unfold size; rewrite <- !zlen_data by done; rewrite Hd1, zlen_app, zlen_be_bytes; lia).
    destruct (IH s1 b1 (picked ++ [a]) (added + 1)) as (s' & b' & more & E & Hs' & Hb' & Hc' & Hd' & Hnd2 & Hin2 & Hl2 & Hend); [done|congruence|done|done| |lia|lia|].
    { rewrite others_app, Eo, zlen_app. change (zlen [a]) with 1. lia. }
    assert (others (a :: more) = a :: others more) as Eo2 by (change (a :: more) with ([a] ++ more); by rewrite others_app, Eo).
    exists s', b', (a :: more). rewrite Eo2, zlen_cons. rewrite <- app_assoc in Hnd2, Hend. replace (added + (1 + zlen (others more))) with (added + 1 + zlen (others more)) by lia.
    replace (added + Z.succ (zlen (others more))) with (added + 1 + zlen (others more)) by lia.
    split; [exact E|]. split; [by eapply drew_trans|]. split; [done|]. split; [congruence|]. split; [|split_and!; try done; set_solver].
    rewrite Hd', Hd1, <- app_assoc. done.
Qed.
End gather.

Section gather_spec.
Context `{PacketSource}.
Context (self : Z).
Implicit Type s : Node T.

Lemma others_in q l a : a ∈ others q l <-> a <> q /\ a ∈ l.
Proof.
  unfold others. rewrite !list_elem_of_In, List.filter_In, negb_true_iff, Z.eqb_neq. naive_solver.
Qed.
Lemma others_NoDup q l : NoDup l -> NoDup (others q l).
Proof. rewrite !NoDup_ListNoDup. apply List.NoDup_filter. Qed.

Definition members_of s nwid mg : list MulticastGroupMember := match _groups s !! mc_key nwid mg with Some gs => members gs | None => [] end.
Definition this_node s nwid mg : outcome bool := match networks s !! nwid with Some n => subscribedToMulticastGroup n mg true | None => Ok false end.

(** C33. What is gathered for a node [q]: the number of members that are known, how many addresses follow, and the addresses: this node's when it is in the group, then
    distinct members without [q], in random order; all of them unless the limit is reached or the packet is full. Only the generator changes. *)
Theorem gather_spec s q nwid mg b limit mine : buf_ok b -> capacity b = ZT_PROTO_MAX_PACKET_LENGTH -> size b + 11 <= ZT_PROTO_MAX_PACKET_LENGTH -> 0 < limit ->
  NoDup (member_address <$> members_of s nwid mg) -> zlen (members_of s nwid mg) <= 2 ^ 32 -> this_node s nwid mg = Ok mine ->
  exists s' b' l, let all := (if mine then [self] else []) ++ l in
    gather self q nwid mg b limit s = Done s' (b', zlen all) /\ drew s s' /\
    data b' = data b ++ be_bytes 4 (Z.b2z mine + zlen (members_of s nwid mg)) ++ be_bytes 2 (zlen all) ++ addrs_enc all /\
    NoDup l /\ (forall a, a ∈ l -> a <> q /\ a ∈ member_address <$> members_of s nwid mg) /\ zlen all <= limit /\
    (zlen all = Z.min limit 0xffff \/ ZT_PROTO_MAX_PACKET_LENGTH < size b' + 5 \/ forall a, a ∈ member_address <$> members_of s nwid mg -> a <> q -> a ∈ l).
Proof.
  assert (ZT_PROTO_MAX_PACKET_LENGTH = 10024) as Emax by by_compute. intros Hb Hc Hsz Hlim Hnd Hn Hmine. unfold size in Hsz. unfold gather. rewrite (proj2 (Z.eqb_neq _ _)) by lia.
  set (lim := if 0xffff <? limit then 0xffff else limit). assert (lim = Z.min limit 0xffff) as Hlm by (unfold lim; destruct (Z.ltb_spec 0xffff limit); lia). rewrite <- Hlm.
  destruct (addSize_data b 4) as (b1 & o4 & -> & Hb1 & Hc1 & Hd1 & Ho4); [done|lia|lia|]. assert (_l b1 = _l b + 4) as Hl1 by (rewrite <- !zlen_data, Hd1, zlen_app by done; lia).
  unfold mbind at 1, handler_bind at 1. cbn [lift]. destruct (addSize_data b1 2) as (b2 & o2 & -> & Hb2 & Hc2 & Hd2 & Ho2); [done|lia|lia|].
  assert (_l b2 = _l b + 6) as Hl2 by (rewrite <- zlen_data, Hd2, zlen_app, zlen_data by done; lia).
  unfold mbind at 1, handler_bind at 1. cbn [lift]. unfold mbind at 1, handler_bind at 1, network, gets. unfold mbind at 1, handler_bind at 1. unfold this_node in Hmine. rewrite Hmine. cbn [lift].
  assert (exists b3, (if mine then Address.appendTo b2 self else Ok b2) = Ok b3 /\ buf_ok b3 /\ data b3 = data b2 ++ addrs_enc (if mine then [self] else []) /\ capacity b3 = capacity b2) as (b3 & E3 & Hb3 & Hd3 & Hc3).
  { destruct mine; [|exists b2; by rewrite app_nil_r]. destruct (writes_fits b2 (be_bytes 5 self) (Address.appendTo b2 self)) as (b3 & E & ? & ? & ?); [by apply Address.appendTo_writes|rewrite zlen_be_bytes; lia|].
    exists b3. split; [exact E|]. split; [done|]. split; [|done]. unfold addrs_enc. cbn [fmap list_fmap concat]. by rewrite app_nil_r. }
  unfold mbind at 1, handler_bind at 1. rewrite E3. cbn [lift]. unfold mbind at 1, handler_bind at 1, status_get. cbn [tab_get gmap_table lift].
  set (ms := match _groups s !! mc_key nwid mg with Some gs => members gs | None => [] end). change (members_of s nwid mg) with ms in *. set (mine_l := if mine then [self] else []) in *.
  set (k := if mine then 1 else 0). assert (k = Z.b2z mine /\ k = zlen mine_l) as [Ek1 Ek2] by (by destruct mine).
  pose proof (gather_loop_spec q ms lim Hnd Hn (length ms) s b3 [] k) as Hg. cbn [app] in Hg.
  unfold mbind at 1, handler_bind at 1.
  destruct Hg as (s' & b4 & more & -> & Hs' & Hb4 & Hc4 & Hd4 & Hndm & Hin & Hl & Hend); [done|congruence|apply NoDup_nil_2|set_solver|change (zlen (others q [])) with 0; unfold size; pose proof (buf_l b3 Hb3); lia|destruct mine; unfold k; lia|change (zlen (@nil Z)) with 0; unfold zlen; lia|].
  set (l := others q more) in *. assert (data b4 = data b ++ o4 ++ o2 ++ addrs_enc (mine_l ++ l)) as Hd.
  { rewrite Hd4, Hd3, Hd2, Hd1, <- !app_assoc. unfold addrs_enc. by rewrite fmap_app, concat_app. }
  unfold mbind at 1, handler_bind at 1. destruct (setAt_data 4 b4 (data b) o4 _ (k + zlen ms) Hb4 Hd) as (b5 & E5 & Hb5 & Hc5 & Hd5); [unfold zlen in Ho4; lia|].
  rewrite (zlen_data b Hb) in E5. unfold size. rewrite E5. cbn [lift]. unfold mbind at 1, handler_bind at 1.
  destruct (setAt_data 2 b5 (data b ++ be_bytes 4 (k + zlen ms)) o2 (addrs_enc (mine_l ++ l)) (k + zlen l) Hb5) as (b6 & E6 & Hb6 & Hc6 & Hd6); [by rewrite Hd5, <- !app_assoc|unfold zlen in Ho2; lia|].
  rewrite zlen_app, (zlen_data b Hb), zlen_be_bytes in E6. change (Z.of_nat 4) with 4 in E6. rewrite Hl1, E6. cbn [lift].
  exists s', b6, l. cbv zeta. replace (zlen (mine_l ++ l)) with (k + zlen l) by (rewrite zlen_app; lia). split; [done|]. split; [done|]. split; [by rewrite Hd6, <- app_assoc, Ek1|].
  split; [by apply others_NoDup|]. split; [intros a [Ha Hm]%others_in; split; [done|by apply Hin]|]. split; [lia|].
  assert (_l b6 = _l b4) as Hl6 by (rewrite <- !zlen_data by done; rewrite Hd6, Hd, !zlen_app, !zlen_be_bytes; lia). unfold size in Hend. rewrite Hl6.
  destruct Hend as [Hend|[Hend|Hend]]; [by left|by right; left|right; right]. intros a Ha Hq. apply others_in. split; [done|]. by apply Hend.
Qed.
End gather_spec.

(** ** Witness *)

(** Three members, one of which asks: the other two are listed. *)
Definition gather_node : Node T := set_groups (Node_new (1, 2)) {[mc_key example_nwid BROADCAST := mkStatus 0 [] [mkMember 5 0; mkMember 6 0; mkMember 7 0]]}.
Definition gather_packet : Buffer := mkBuffer (replicate 10024 0) 28.
Lemma gather_spec_witness : exists s' b' l, gather 8 6 example_nwid BROADCAST gather_packet 10 gather_node = Done s' (b', 2) /\ NoDup l /\ zlen l = 2 /\
  data b' = data gather_packet ++ be_bytes 4 3 ++ be_bytes 2 2 ++ addrs_enc l /\ 5 ∈ l /\ 7 ∈ l.
Proof.
  destruct (gather_spec 8 gather_node 6 example_nwid BROADCAST gather_packet 10 false) as (s' & b' & l & E & _ & Hd & Hnd & Hin & _ & Hend).
  - split; by_compute.
  - by_compute.
  - by_compute.
  - by_compute.
  - unfold members_of, gather_node. cbn [_groups set_groups]. rewrite lookup_singleton_eq. repeat (apply list.NoDup_cons; split; [set_solver by lia|]). apply NoDup_nil_2.
  - by_compute.
  - reflexivity.
  - cbn [app] in *. assert (members_of gather_node example_nwid BROADCAST = [mkMember 5 0; mkMember 6 0; mkMember 7 0]) as Em by (unfold members_of, gather_node; cbn [_groups set_groups]; by rewrite lookup_singleton_eq).
    rewrite Em in *.
    assert (match gather 8 6 example_nwid BROADCAST gather_packet 10 gather_node with Done _ (b, k) => (k =? 2) && (size b <=? 100) | _ => false end = true) as Hc by (vm_compute; reflexivity).
    rewrite E in Hc. apply andb_true_iff in Hc as [Hl%Z.eqb_eq Hsz%Z.leb_le]. exists s', b', l. rewrite <- Hl at 1. split; [exact E|]. split; [exact Hnd|]. split; [exact Hl|].
    change (Z.b2z false + zlen [mkMember 5 0; mkMember 6 0; mkMember 7 0]) with 3 in Hd. rewrite Hl in Hd. split; [exact Hd|]. destruct Hend as [Hx|[Hx|Hall]]; [rewrite Hl in Hx; discriminate Hx|exfalso; change ZT_PROTO_MAX_PACKET_LENGTH with 10024 in Hx; clear - Hx Hsz; lia|].
    cbn [fmap list_fmap member_address] in Hall. clear - Hall. split; apply Hall; first [lia|by left|by right; right; left].
Defined.
