(* ===== verification/Waiting.v ===== *)
(** * Multicasts that wait go out

    A multicast whose group has too few members waits for more. When a node becomes a member it is sent what waits: that succeeds for the multicasts of a node whose
    configuration is in order, and changes nothing but what was sent, the times of memberships and the logs of the multicasts. *)

From stdpp Require Import sorting.
From S2P Require Import Prelude Buffer Serial Address InetAddress Identity Packet Table Credential Credentials Capability CredentialSet NetworkConfig NetconfDict Membership Filter Network CredentialTransfer NetworkGroups Runtime Multicaster MulticastSpec SortedVector.
Import Network.

(** ** What is looked up of a membership does not depend on its times *)

Section same.
Context `{Crypto} `{Env}.

Lemma coo_loop_same (m m' : Membership T) nc owns l : _revocations m' = _revocations m -> coo_loop m' nc owns l = coo_loop m nc owns l.
Proof. intros E. induction l as [|[k v] l IH]; cbn [coo_loop]; [done|]. unfold isCredentialTimestampValid. by rewrite E, IH. Qed.
Lemma credentials_defined_same nc (m m' : Membership T) : same_creds m m' -> credentials_defined nc (Some m) -> credentials_defined nc (Some m').
Proof.
  intros (_ & _ & Er & Et & _ & Eo) (H1 & H2 & H3). split; [|split; [|exact H3]].
  - intros id. specialize (H1 id). cbn [getTag_of] in *. unfold getTag, isCredentialTimestampValid in *. by rewrite Er, Et.
  - intros x ip mac [= <-]. specialize (H2 m ip mac eq_refl). unfold hasCertificateOfOwnershipFor_ip, hasCertificateOfOwnershipFor_mac in *. by rewrite Eo, !(coo_loop_same m m').
Qed.
Lemma credentials_defined_none nc (m : Membership T) : credentials_defined nc (Some m) -> credentials_defined (T := T) nc None.
Proof. intros (_ & _ & H3). split; [|split; [done|exact H3]]. intros id. by eexists. Qed.
Lemma allowed_same (n n' : Network T) a i : same_network n n' -> allowed n a i = true -> allowed n' a i = true.
Proof.
  intros (Ec & _ & _ & Hm). unfold allowed. rewrite Ec, !andb_true_iff, !orb_true_iff. intros [? Ha]. split; [done|]. destruct (isPublic (_config n)) eqn:Ep; [by left|right]. destruct Ha as [|Ha]; [done|].
  specialize (Hm a). destruct (_memberships n !! a) as [m|]; [|done]. cbn [from_option id] in Hm. destruct Hm as (E1 & E2 & _). unfold isAllowedOnNetwork in *. rewrite Ep in *.
  destruct (_memberships n' !! a) as [m'|]; cbn [from_option id] in *; [by rewrite E1, E2|]. change (_com Membership_new) with com_nil in E1. change (_comRevocationThreshold Membership_new) with 0 in E2. by rewrite <- E1, <- E2 in Ha.
Qed.
End same.

#[export] Instance source_from_laws `{PacketSourceLaws} k : @PacketSourceLaws (source_from k).
Proof. intros n. apply (new_packet_ok (k + n)). Qed.

(** ** A network that can send *)

Section sending.
Context `{PacketSourceLaws} `{PacketCrypto} `{!Lz4Laws} `{Crypto} `{Env} `{Peers} `{StdSort} `{Routes}.
Context (self now : Z).
Implicit Type s : Node T.

(** Rules as the parser yields them, credentials that can be looked up and sent, clocks that can be compared. *)
Record sends_fine (n : Network T) : Prop := {
  sf_rules : Forall rule_ok (rules (_config n));
  sf_caps : Forall (fun c => Forall rule_ok (Capability._rules c)) (capabilities (_config n));
  sf_creds : forall a, credentials_defined (_config n) (Some (member n a));
  sf_load : load_ok (load_of (_config n));
  sf_count : zlen (capabilities (_config n)) <= ZT_MAX_NETWORK_CAPABILITIES /\ zlen (tags (_config n)) <= ZT_MAX_NETWORK_TAGS /\ zlen (certificatesOfOwnership (_config n)) <= ZT_MAX_CERTIFICATES_OF_OWNERSHIP;
  sf_clock : forall a, srng 64 (now - _lastPushedCredentials (member n a));
}.
Lemma sends_fine_same n n' : sends_fine n -> same_network n n' -> (forall a, srng 64 (now - _lastPushedCredentials (member n' a))) -> sends_fine n'.
Proof. intros [F1 F2 F3 F4 F5 F6] (Ec & _ & _ & Hm) Hclk. split; rewrite ?Ec; [exact F1|exact F2| |exact F4|exact F5|exact Hclk]. intros a. eapply credentials_defined_same; [apply Hm|apply F3]. Qed.

(** Memberships that were only touched: no new time is later than now. *)
Definition clocks_kept (n n' : Network T) : Prop :=
  (clocks_ok now n -> clocks_ok now n') /\ ((forall a, srng 64 (now - _lastPushedCredentials (member n a))) -> forall a, srng 64 (now - _lastPushedCredentials (member n' a))).

(** The credentials of this node are pushed, when it is time. *)
Lemma push_fine n ap to : sends_fine n -> srng 64 now -> exists n' ap', pushCredentialsIfNeeded self n ap to now = Ok (n', ap') /\ same_network n n' /\ clocks_kept n n'.
Proof.
  intros [_ _ _ Hload (Hc1 & Hc2 & Hc3) Hclk] Hnow. assert (exists n' ap', pushCredentialsIfNeeded self n ap to now = Ok (n', ap') /\ clocks_kept n n') as (n' & ap' & E & Hk).
  2: { exists n', ap'. split; [done|]. split; [by eapply push_after_same|done]. }
  assert (forall ms m, ms !! to = Some m -> (forall a, a <> to -> ms !! a = _memberships n !! a) -> (clocks_ok now n -> clock_ok now m) -> srng 64 (now - _lastPushedCredentials m) -> clocks_kept n (set_memberships n ms)) as Hkept.
  { intros ms m Hto Hne Hm Hp. split.
    - intros Hcl a x. cbn [_memberships set_memberships]. destruct (decide (a = to)) as [->|Ha]; [rewrite Hto; intros [= <-]; auto|rewrite Hne by done; apply Hcl].
    - intros Hall a. unfold member. cbn [_memberships set_memberships]. destruct (decide (a = to)) as [->|Ha]; [by rewrite Hto|]. rewrite Hne by done. apply Hall. }
  set (m := member n to). assert (clocks_ok now n -> clock_ok now m) as Hm.
  { intros Hcl. unfold m, member. destruct (_memberships n !! to) as [x|] eqn:Ex; [exact (Hcl _ _ Ex)|]. unfold clock_ok. cbn [default _lastUpdatedMulticast Membership_new]. by rewrite Z.sub_0_r. }
  unfold pushCredentialsIfNeeded, push_after, _membership. cbn [tab_index gmap_table mbind outcome_bind]. change (default Membership_new (_memberships n !! to)) with m.
  set (ms := if decide _ then _ else _). assert (ms !! to = Some m /\ forall a, a <> to -> ms !! a = _memberships n !! a) as [Hto Hne].
  { unfold ms, m, member. case_decide as Ed; [rewrite Ed, lookup_insert_eq; split; [done|]; intros a Ha; by rewrite lookup_insert_ne|]. by destruct (_memberships n !! to). }
  assert (exists due : bool, (if _lastPushedCredentials m <? _lastConfigUpdate (set_memberships n ms) then Ok true else d ← ssub now (_lastPushedCredentials m); Ok (ZT_PEER_ACTIVITY_TIMEOUT <? d)) = Ok due) as [due ->].
  { case_match; [by eexists|]. unfold ssub. rewrite bool_decide_eq_true_2 by apply Hclk. by eexists. }
  cbn [mbind outcome_bind]. destruct due; cycle 1.
  { eexists _, _. split; [reflexivity|]. eapply Hkept; [exact Hto|exact Hne|exact Hm|apply Hclk]. }
  unfold pushCredentials. cbn [_config set_memberships]. rewrite !(proj2 (Z.ltb_ge _ _)) by done. cbn [orb].
  destruct (push_loop_spec self to (push_fuel (load_of (_config n))) (load_of (_config n)) ap Hload) as (aps & parts & -> & _); [unfold load_size, push_fuel; case_match; lia|]. cbn [mbind outcome_bind].
  unfold put_membership. cbn [tab_set gmap_table mbind outcome_bind]. eexists _, _. split; [reflexivity|]. cbn [_memberships set_memberships]. change (set_memberships (set_memberships n ms) ?x) with (set_memberships n x).
  eapply Hkept; [apply lookup_insert_eq| |exact Hm|by cbn; rewrite Z.sub_diag].
  intros a Ha. rewrite lookup_insert_ne by done. by apply Hne.
Qed.

(** ** A multicast that waits *)

Definition frame_of (o : OutboundMulticast) : Frame := mkFrame false self (_macSrc o) (_macDest o) (_frameData o) (_etherType o) 0.
(** It was made for the network by [outbound_init]: a packet with a header, and a frame that was read in full. *)
Record waits_ok (nwid : Z) (o : OutboundMulticast) : Prop := {
  wo_network : _nwid o = nwid;
  wo_packet : buf_ok (_packet o) /\ ZT_PROTO_MIN_PACKET_LENGTH <= size (_packet o);
  wo_frame : frame_ok (frame_of o) /\ frameLen (frame_of o) <= max_frame /\ tcp_in_frame (frame_of o);
}.

(** The node as it has to be to send multicasts of the network. *)
Definition able (nwid : Z) s : Prop := expecting_ok s /\ forall n, networks s !! nwid = Some n -> clocks_ok now n /\ sends_fine n.
(** From [s] to [s'] something was sent. *)
Definition went_out (nwid : Z) s s' : Prop := quiet s s' /\ _groups s' = _groups s /\ (able nwid s -> able nwid s').
#[export] Instance went_out_preorder nwid : PreOrder (went_out nwid).
Proof. split; [intros s; by split; [reflexivity|]|]. intros s1 s2 s3 (?&?&?) (?&?&?). split_and!; [by etrans|congruence|auto]. Qed.
Lemma went_out_same nwid s s' : calls s' = calls s -> networks s' = networks s -> _groups s' = _groups s -> (expecting_ok s -> expecting_ok s') -> went_out nwid s s'.
Proof. intros E1 E2 E3 E4. split; [by apply quiet_same|]. split; [done|]. intros [He Hn]. split; [auto|]. by rewrite E2. Qed.

Lemma write_field_ok b i bs : buf_ok b -> bytes_ok bs -> 0 <= i -> i + zlen bs <= size b -> exists b', Packet.write_field b i bs = Ok b' /\ buf_ok b' /\ size b' = size b.
Proof.
  intros [Hs Hc Hm] Hbs Hi Hl. unfold Packet.write_field, size, capacity in *. pose proof (zlen_nonneg bs). rewrite bind_throw_if_false by (apply Z.ltb_ge; rewrite u32_small; lia).
  destruct (mem_write_spec (_b b) i bs Hm Hbs Hi ltac:(lia)) as (m & -> & Hm' & Hl' & _). eexists. split; [reflexivity|]. split; [|done]. split; unfold capacity; cbn [_b _l]; [lia|lia|done].
Qed.
Lemma packetId_ok b : buf_ok b -> 8 <= size b -> exists pid, Packet.packetId b = Ok pid.
Proof.
  intros [Hs Hc Hm] Hl. unfold Packet.packetId, at_, size, capacity in *. rewrite bind_throw_if_false by (apply Z.ltb_ge; exact Hl). change Packet.ZT_PACKET_IDX_IV with 0. rewrite mem_read_Ok by lia. by eexists.
Qed.
Lemma expect_went_out nwid pid s : expecting_ok s -> exists s', expectReplyTo pid s = Done s' () /\ went_out nwid s s'.
Proof.
  intros (L1 & L2 & L3). pose proof (reply_bucket_lt pid) as Hb. unfold expectReplyTo. change (Z.to_nat (Z.land (u32 (Z.shiftr pid 32)) ZT_EXPECTING_REPLIES_BUCKET_MASK1)) with (bucket_of pid).
  destruct (lookup_lt_is_Some_2 (_expectingRepliesTo s) (bucket_of pid)) as [ring Er]; [lia|]. destruct (lookup_lt_is_Some_2 (_expectingRepliesToBucketPtr s) (bucket_of pid)) as [p Ep]; [lia|]. rewrite Er, Ep.
  eexists. split; [reflexivity|]. apply went_out_same; [done..|]. intros _. unfold expecting_ok. cbn [_expectingRepliesTo _expectingRepliesToBucketPtr set_expecting]. rewrite !length_insert. split; [done|]. split; [|done].
  apply list.Forall_insert; [done|]. rewrite length_insert. exact (list.Forall_lookup_1 _ _ _ _ L2 Er).
Qed.

(** The filter looks at the frame. *)
Lemma filter_went_out nwid o a s : able nwid s -> waits_ok nwid o -> exists s' ok, filter_outgoing self (_nwid o) (frame_of o) a s = Done s' ok /\ went_out nwid s s' /\ (ok = true -> exists n, networks s' !! nwid = Some n).
Proof.
  intros [He Hn] [-> _ (Hf & Hl & Ht)]. unfold filter_outgoing. destruct (networks s !! nwid) as [n|] eqn:En; [|exists s, false; split; [done|]; split; [reflexivity|done]]. destruct (Hn n eq_refl) as [Hclk [Hr Hcaps Hcr _ _ _]].
  unfold filterOutgoingPacket. assert (exists m, (if a =? 0 then Ok None else tab_get (_memberships n) a) = Ok m /\ credentials_defined (_config n) m) as (m & -> & Hm).
  { destruct (a =? 0); [exists None; split; [done|]; apply (credentials_defined_none _ (member n a)), Hcr|]. cbn [tab_get gmap_table]. eexists. split; [done|]. specialize (Hcr a). unfold member in Hcr. destruct (_memberships n !! a); [exact Hcr|apply (credentials_defined_none _ _ Hcr)]. }
  cbn [mbind outcome_bind]. destruct (filterOutgoing_lemma (H0 := source_from (length (sent s))) self (_id n) (_config n) (frame_of o) true m a 255 (_prngState s) Hf Hl Ht Hm Hr Hcaps) as (_ & _ & ap & o' & ok & _ & -> & _).
  eexists _, ok. split; [reflexivity|]. split; [by apply went_out_same|]. intros _. by exists n.
Qed.

(** A multicast is sent to one node. *)
Lemma sendOnly_went_out nwid o a s : srng 64 now -> able nwid s -> waits_ok nwid o -> exists s' o', sendOnly self now o a s = Done s' o' /\ went_out nwid s s' /\ waits_ok nwid o'.
Proof.
  intros Hnow Hs Ho. unfold sendOnly. fold (frame_of o). destruct (filter_went_out nwid o a s Hs Ho) as (s1 & ok & E1 & W1 & Hn1). unfold mbind at 1, handler_bind at 1. rewrite E1. destruct ok; [|by exists s1, o].
  destruct (Hn1 eq_refl) as [n1 En1]. assert (able nwid s1) as Hs1 by (by apply W1). pose proof Hs1 as [He1 Hf1]. destruct (Hf1 n1 En1) as [Hclk1 Hfine1]. pose proof Ho as [Hnw [Hb Hsz] Hfr]. change ZT_PROTO_MIN_PACKET_LENGTH with 28 in Hsz.
  destruct (push_fine n1 (sent s1) a Hfine1 Hnow) as (n2 & ap2 & E2 & Hsame & Hk1 & Hk2). unfold mbind at 1, handler_bind at 1. unfold on_network. rewrite Hnw, En1, E2. cbn [mbind outcome_bind].
  set (s2 := set_sent _ ap2). assert (went_out nwid s1 s2) as W2.
  { split; [by eapply (quiet_insert s1 s2 nwid)|]. split; [done|]. intros [He Hf]. split; [exact He|]. unfold s2. cbn [networks set_sent set_networks]. intros n. rewrite lookup_insert_eq. intros [= <-].
    split; [auto|]. eapply sends_fine_same; [exact Hfine1|exact Hsame|]. apply Hk2. by destruct Hfine1. }
  unfold mbind at 1, handler_bind at 1, next_source, gets. destruct (new_packet_ok (length (sent s2))) as (_ & _ & Hiv & Hivl).
  destruct (write_field_ok (_packet o) Packet.ZT_PACKET_IDX_IV (new_iv (length (sent s2))) Hb Hiv) as (b1 & E3 & Hb1 & Hz1); [done|unfold zlen; rewrite Hivl; change Packet.ZT_PACKET_IDX_IV with 0; lia|].
  unfold mbind at 1, handler_bind at 1, Packet.newInitializationVector. rewrite E3. cbn [lift].
  destruct (write_field_ok b1 Packet.ZT_PACKET_IDX_DEST (Address.to_bytes a) Hb1 ltac:(rewrite Address.to_bytes_be; apply bytes_ok_be_bytes)) as (b2 & E4 & Hb2 & Hz2); [done|change (Packet.ZT_PACKET_IDX_DEST + zlen (Address.to_bytes a)) with 13; lia|].
  unfold mbind at 1, handler_bind at 1, Packet.setDestination. rewrite E4. cbn [lift]. destruct (packetId_ok b2 Hb2 ltac:(lia)) as [pid E5]. unfold mbind at 1, handler_bind at 1. rewrite E5. cbn [lift].
  destruct (expect_went_out nwid pid s2) as (s3 & E6 & W3); [by apply W2|]. unfold mbind at 1, handler_bind at 1. rewrite E6. unfold mbind at 1, handler_bind at 1. unfold transmit, Runtime.modify.
  eexists _, _. split; [reflexivity|]. split; [etrans; [exact W1|]; etrans; [exact W2|]; etrans; [exact W3|]; by apply went_out_same|].
  split; [done|split; [done|]; cbn [_packet set_packet]; change ZT_PROTO_MIN_PACKET_LENGTH with 28; lia|exact Hfr].
Qed.
Lemma waits_logged nwid o a : waits_ok nwid o -> waits_ok nwid (logAsSent o a).
Proof. intros []. by split. Qed.

(** ** The multicasts of a group *)

Definition group_status s (k : Z) : MulticastGroupStatus := default Status_new (_groups s !! k).
(** A group of the network: the members are in order, and multicasts that wait can be sent. *)
Definition group_fine (nwid : Z) (gs : MulticastGroupStatus) : Prop := ascending member_address (members gs) /\ Forall (waits_ok nwid) (txQueue gs).

(** The group [k] with its queue, in the groups [G]. *)
Definition with_queue (G : gmap Z MulticastGroupStatus) (k : Z) (gs : MulticastGroupStatus) (q : list OutboundMulticast) : gmap Z MulticastGroupStatus := <[k := mkStatus (lastExplicitGather gs) q (members gs)]> G.
(** From [s] to [s'] something was sent, and the queue of the group [k] changed. *)
Definition served (nwid k : Z) (G : gmap Z MulticastGroupStatus) (gs : MulticastGroupStatus) s s' : Prop :=
  quiet s s' /\ able nwid s' /\ exists q, _groups s' = with_queue G k gs q /\ Forall (waits_ok nwid) q.

Lemma put_served nwid k G gs q s s0 : served nwid k G gs s0 s -> Forall (waits_ok nwid) q -> exists s', put_queue k gs q s = Done s' () /\ served nwid k G gs s0 s'.
Proof.
  intros (Hq & Ha & q0 & E & _) Hw. unfold put_queue, status_put. cbn [tab_set gmap_table]. eexists. split; [reflexivity|]. split; [by etrans; [exact Hq|apply quiet_same]|]. split; [exact Ha|]. exists q. split; [|done].
  cbn [_groups set_groups]. rewrite E. unfold with_queue. by rewrite insert_insert_eq.
Qed.
Lemma out_served nwid k G gs s0 s s' : served nwid k G gs s0 s -> went_out nwid s s' -> served nwid k G gs s0 s'.
Proof. intros (Hq & Ha & q & E & Hw) (Hq' & Eg & Ha'). split; [by etrans|]. split; [auto|]. exists q. by rewrite Eg. Qed.

(** What waits is sent to the new member. *)
Lemma serve_queue_served nwid k G gs a s0 : srng 64 now -> forall q before s, served nwid k G gs s0 s -> Forall (waits_ok nwid) before -> Forall (waits_ok nwid) q ->
  exists s', serve_queue self now k gs before q a s = Done s' () /\ served nwid k G gs s0 s'.
Proof.
  intros Hnow. induction q as [|o q IH]; intros before s Hs Hb Hq; cbn [serve_queue]; [by exists s|]. apply list.Forall_cons in Hq as [Ho Hq].
  assert (forall s, served nwid k G gs s0 s -> exists s', (_ ← put_queue k gs (before ++ q); serve_queue self now k gs before q a) s = Done s' () /\ served nwid k G gs s0 s') as Hdrop.
  { intros s1 K1. destruct (put_served nwid k G gs (before ++ q) s1 s0 K1) as (s2 & E2 & K2); [by apply list.Forall_app|]. unfold mbind, handler_bind. rewrite E2. by apply IH. }
  destruct (atLimit o); [by apply Hdrop|]. unfold mbind at 1, handler_bind at 1.
  assert (exists s1 o1, (if bool_decide (a ∈ _alreadySentTo o) then mret o else _ ← put_queue k gs (before ++ logAsSent o a :: q); sendAndLog self now o a) s = Done s1 o1 /\ served nwid k G gs s0 s1 /\ waits_ok nwid o1) as (s1 & o1 & -> & K1 & Ho1).
  { case_bool_decide; [by exists s, o|]. pose proof (waits_logged nwid o a Ho) as Hlog. destruct (put_served nwid k G gs (before ++ logAsSent o a :: q) s s0 Hs) as (s1 & E1 & K1); [by apply list.Forall_app; split; [|apply list.Forall_cons]|].
    unfold mbind, handler_bind. rewrite E1. unfold sendAndLog. destruct (sendOnly_went_out nwid (logAsSent o a) a s1 Hnow) as (s2 & o2 & E2 & W2 & Ho2); [apply K1|done|]. exists s2, o2. split; [done|]. split; [by eapply out_served|done]. }
  destruct (atLimit o1); [by apply Hdrop|]. destruct (put_served nwid k G gs (before ++ o1 :: q) s1 s0 K1) as (s2 & E2 & K2); [by apply list.Forall_app; split; [|apply list.Forall_cons]|].
  unfold mbind, handler_bind. rewrite E2. apply IH; [done|apply list.Forall_app; split; [done|by apply list.Forall_singleton]|done].
Qed.

(** ** Becoming a member *)

Lemma ascending_first (m : MulticastGroupMember) hi a : ascending member_address (m :: hi) -> a < member_address m -> Forall (fun x => a < member_address x) (m :: hi).
Proof.
  intros [_ Hf]%StronglySorted_inv Ha. apply list.Forall_cons_2; [done|]. apply (proj1 (list.Forall_fmap _ _ _)) in Hf. eapply list.Forall_impl; [exact Hf|]. cbn. lia.
Qed.
Lemma ascending_app_r (lo hi : list MulticastGroupMember) : ascending member_address (lo ++ hi) -> ascending member_address hi.
Proof. unfold ascending. rewrite fmap_app. intros Ha. by apply StronglySorted_app_1_r in Ha. Qed.

(** The members with [a] among them. *)
Definition member_put (ms : list MulticastGroupMember) (a : Z) (ms' : list MulticastGroupMember) : Prop :=
  ascending member_address ms' /\ mkMember a now ∈ ms' /\ (forall m, member_address m <> a -> m ∈ ms' <-> m ∈ ms) /\ (forall m, m ∈ ms' -> member_address m = a -> m = mkMember a now).

(** [_add] finds the place of the node in the list, or brings its time up to date. *)
Lemma place_spec ms a (i := lower_bound member_address ms a) : ascending member_address ms ->
  match ms !! i with
  | Some m => if member_address m =? a then member_put ms a (<[i := mkMember (member_address m) now]> ms) else member_put ms a (vec_insert ms i (mkMember a now))
  | None => member_put ms a (ms ++ [mkMember a now])
  end.
Proof.
  intros Ha. unfold i. destruct (ascending_split member_address ms a Ha) as (lo & hi & -> & Hlo & Hhi). rewrite (lower_bound_spec member_address lo hi a Hlo Hhi). rewrite lookup_app_r, Nat.sub_diag by lia.
  assert (forall m, m ∈ lo -> member_address m <> a) as Hne by (intros m Hm; apply (proj1 (list.Forall_forall _ _) Hlo) in Hm; lia).
  destruct hi as [|m hi]; cbn [lookup list_lookup].
  - rewrite app_nil_r in *. split_and!.
    + apply ascending_insert; [by rewrite app_nil_r|done|by apply list.Forall_nil_2].
    + apply elem_of_app. right. by left.
    + intros m Hm. rewrite elem_of_app, list_elem_of_singleton. naive_solver.
    + intros m [Hm| ->%list_elem_of_singleton]%elem_of_app Em; [by apply Hne in Hm|done].
  - pose proof (ascending_app_r lo _ Ha) as Hahi. apply list.Forall_cons in Hhi as [Hm Hhi]. destruct (Z.eqb_spec (member_address m) a) as [Em|Em].
    + assert (forall x, x ∈ hi -> member_address x <> a) as Hne2.
      { intros x Hx. apply StronglySorted_inv in Hahi as [_ Hf]. apply (proj1 (list.Forall_fmap _ _ _)) in Hf. apply (proj1 (list.Forall_forall _ _) Hf) in Hx. cbn in Hx. lia. }
      rewrite insert_app_r_alt, Nat.sub_diag by lia. cbn [list_insert insert]. split_and!.
      * unfold ascending in *. rewrite fmap_app in *. cbn [fmap list_fmap member_address] in *. exact Ha.
      * apply elem_of_app. right. rewrite Em. by left.
      * intros x Hx. rewrite !elem_of_app, !elem_of_cons, Em. split; intros [?|[->|?]]; auto; exfalso; apply Hx; [done|exact Em].
      * intros x. rewrite elem_of_app, elem_of_cons, Em. intros [Hx|[->|Hx]] Ex; [by apply Hne in Hx|done|by apply Hne2 in Hx].
    + assert (a < member_address m) as Hlt by lia. pose proof (ascending_first m hi a Hahi Hlt) as Hf.
      assert (vec_insert (lo ++ m :: hi) (length lo) (mkMember a now) = lo ++ mkMember a now :: m :: hi) as -> by (unfold vec_insert; by rewrite take_app_length, drop_app_length). split_and!.
      * by apply ascending_insert.
      * apply elem_of_app. right. by left.
      * intros x Hx. rewrite !elem_of_app, !elem_of_cons. split; [intros [?|[->|?]]|intros [?|?]]; auto. by destruct Hx.
      * intros x. rewrite elem_of_app, elem_of_cons. intros [Hx|[->|Hx]] Ex; [by apply Hne in Hx|done|]. apply (proj1 (list.Forall_forall _ _) Hf) in Hx. cbn in Hx. lia.
Qed.

(** A node becomes a member, and is sent what waits. *)
Lemma add_spec nwid mg a s : let k := mc_key nwid mg in srng 64 now -> a <> self -> able nwid s -> group_fine nwid (group_status s k) ->
  exists s' gs', add self now nwid mg a s = Done s' () /\ quiet s s' /\ able nwid s' /\ _groups s' = <[k := gs']> (_groups s) /\ group_fine nwid gs' /\ member_put (members (group_status s k)) a (members gs').
Proof.
  cbv zeta. set (k := mc_key nwid mg). intros Hnow Hself Hable [Hasc Hq]. unfold add, mbind, handler_bind, status_index. cbn [tab_index gmap_table]. fold k. fold (group_status s k). set (gs := group_status s k) in *.
  set (s1 := set_groups s _). assert (forall x, <[k := x]> (_groups s1) = <[k := x]> (_groups s)) as Hins by (intros x; unfold s1; cbn [_groups set_groups]; case_decide; [by rewrite insert_insert_eq|done]).
  assert (quiet s s1 /\ able nwid s1) as [Hq1 Ha1] by (split; [by apply quiet_same|exact Hable]).
  unfold _add. rewrite (proj2 (Z.eqb_neq _ _)) by done. pose proof (place_spec (members gs) a Hasc) as Hplace. cbv zeta in Hplace.
  assert (forall ms, member_put (members gs) a ms -> let gs1 := mkStatus (lastExplicitGather gs) (txQueue gs) ms in
    exists s' gs', (_ ← status_put k gs1; serve_queue self now k gs1 [] (txQueue gs1) a) s1 = Done s' () /\ quiet s s' /\ able nwid s' /\ _groups s' = <[k := gs']> (_groups s) /\ group_fine nwid gs' /\ member_put (members gs) a (members gs')) as Hserve.
  { intros ms Hms gs1. unfold status_put, mbind, handler_bind. cbn [tab_set gmap_table]. set (s2 := set_groups s1 _). assert (served nwid k (_groups s) gs1 s s2) as K2.
    { split; [by etrans; [exact Hq1|apply quiet_same]|]. split; [exact Ha1|]. exists (txQueue gs). split; [|done]. unfold s2. cbn [_groups set_groups]. apply Hins. }
    destruct (serve_queue_served nwid k (_groups s) gs1 a s Hnow (txQueue gs1) [] s2 K2) as (s' & E & Hq' & Ha' & q & Eg & Hw); [constructor|exact Hq|]. exists s', (mkStatus (lastExplicitGather gs1) q (members gs1)). split; [exact E|].
    split; [done|]. split; [done|]. split; [exact Eg|]. split; [split; [apply Hms|exact Hw]|exact Hms]. }
  destruct (members gs !! lower_bound member_address (members gs) a) as [m|]; [|by apply Hserve]. destruct (member_address m =? a); [|by apply Hserve].
  unfold status_put. cbn [tab_set gmap_table]. eexists _, _. split; [reflexivity|]. split; [by etrans; [exact Hq1|apply quiet_same]|]. split; [exact Ha1|]. split; [apply Hins|]. split; [|exact Hplace]. split; [apply Hplace|exact Hq].
Qed.
End sending.
