(* ===== verification/Incoming.v ===== *)
(** * Handlers of incoming packets (node/IncomingPacket.cpp)

    What a node does with an authenticated, decompressed packet of the verbs that are about networks: frames, multicast, configurations, errors. What
    happens to the peer itself ([Peer::received], [recordOutgoingPacket]: files Net and Peer) is not composed with it: a handler returns what it gives to [received]. A reply that is armored and put on
    the path the packet came on is listed with the packets that are sent. *)

From S2P Require Import Prelude Buffer Serial Address InetAddress Dictionary Identity Packet Table Credential Credentials Capability CredentialSet NetworkConfig NetconfDict Membership Rule Filter Network NetworkUpdate CredentialTransfer NetworkGroups Runtime Multicaster.
Import Network Packet.

Definition ZT_QOS_NO_FLOW : Z := -1.
Definition ERROR_OBJ_NOT_FOUND : Z := 0x03.
Definition ERROR_IDENTITY_COLLISION : Z := 0x04.
Definition ERROR_UNSUPPORTED_OPERATION : Z := 0x05.
Definition ERROR_NEED_MEMBERSHIP_CERTIFICATE : Z := 0x06.
Definition ERROR_NETWORK_ACCESS_DENIED_ : Z := 0x07.
Definition ERROR_UNWANTED_MULTICAST : Z := 0x08.
Definition ERROR_NETWORK_AUTHENTICATION_REQUIRED : Z := 0x09.

(** Where the fields are. *)
Definition FRAME_IDX_ETHERTYPE : Z := ZT_PACKET_IDX_PAYLOAD + 8.
Definition FRAME_IDX_PAYLOAD : Z := FRAME_IDX_ETHERTYPE + 2.
Definition EXT_FRAME_IDX_FLAGS : Z := ZT_PACKET_IDX_PAYLOAD + 8.
Definition EXT_FRAME_IDX_COM : Z := EXT_FRAME_IDX_FLAGS + 1.
Definition EXT_FRAME_IDX_TO : Z := EXT_FRAME_IDX_FLAGS + 1.
Definition EXT_FRAME_IDX_FROM : Z := EXT_FRAME_IDX_TO + 6.
Definition EXT_FRAME_IDX_ETHERTYPE : Z := EXT_FRAME_IDX_FROM + 6.
Definition EXT_FRAME_IDX_PAYLOAD : Z := EXT_FRAME_IDX_ETHERTYPE + 2.
Definition GATHER_IDX_FLAGS : Z := ZT_PACKET_IDX_PAYLOAD + 8.
Definition GATHER_IDX_MAC : Z := GATHER_IDX_FLAGS + 1.
Definition GATHER_IDX_ADI : Z := GATHER_IDX_MAC + 6.
Definition GATHER_IDX_LIMIT : Z := GATHER_IDX_ADI + 4.
Definition GATHER_IDX_COM : Z := GATHER_IDX_LIMIT + 4.
Definition MULTICAST_FRAME_IDX_FLAGS : Z := ZT_PACKET_IDX_PAYLOAD + 8.
Definition MULTICAST_FRAME_IDX_COM : Z := MULTICAST_FRAME_IDX_FLAGS + 1.
Definition MULTICAST_FRAME_IDX_DEST_MAC : Z := MULTICAST_FRAME_IDX_FLAGS + 1.
Definition MULTICAST_FRAME_IDX_DEST_ADI : Z := MULTICAST_FRAME_IDX_DEST_MAC + 6.
Definition MULTICAST_FRAME_IDX_ETHERTYPE : Z := MULTICAST_FRAME_IDX_DEST_ADI + 4.
Definition MULTICAST_FRAME_IDX_FRAME : Z := MULTICAST_FRAME_IDX_ETHERTYPE + 2.
Definition OK_IDX_PAYLOAD : Z := ZT_PACKET_IDX_PAYLOAD + 9.
Definition GATHER_OK_IDX_MAC : Z := OK_IDX_PAYLOAD + 8.
Definition GATHER_OK_IDX_ADI : Z := GATHER_OK_IDX_MAC + 6.
Definition GATHER_OK_IDX_RESULTS : Z := GATHER_OK_IDX_ADI + 4.
Definition ERROR_IDX_CODE : Z := ZT_PACKET_IDX_PAYLOAD + 9.
Definition ERROR_IDX_PAYLOAD : Z := ERROR_IDX_CODE + 1.

(** The peer a packet is from. *)
Record From := mkFrom { peer_address : Z; peer_identity : Identity; flowHashingSupported : bool }.

(** How a handler ends: with the arguments of [received] that depend on the content; without [received]; or with false, to be called again. *)
Inductive Answer := Received (trustEstablished : bool) (networkId flowId : Z) | Ignored | Again.

(** ** The flow of a frame: its ports and protocol *)

Section Flow.
Context (f : Frame).

Definition port_flow (pos proto : Z) : outcome Z :=
  if bool_decide (proto ∈ [0x06; 0x11; 0x84; 0x88]) && (pos + 4 <? frameLen f) then
    s1 ← byte f pos; s2 ← byte f (pos + 1); d1 ← byte f (pos + 2); d2 ← byte f (pos + 3);
    Ok (Z.lxor (Z.lxor (Z.lor (Z.shiftl d1 8) d2) (Z.lor (Z.shiftl s1 8) s2)) proto)
  else Ok ZT_QOS_NO_FLOW.

(** [pos] and [proto] where [_ipv6GetPayload] stops, whatever it returns. *)
Fixpoint ipv6_stop (fuel : nat) (pos proto : Z) : outcome (Z * Z) :=
  match fuel with
  | O => Undef
  | S fuel =>
      if (pos <=? frameLen f) && bool_decide (proto ∈ [0; 43; 60; 135]) && negb (frameLen f <? u32 (pos + 8)) then
        proto ← byte f pos; len ← byte f (pos + 1); ipv6_stop fuel (u32 (pos + u32 (u32 (len * 8) + 8))) proto
      else Ok (pos, proto)
  end.

Definition frame_flow : outcome Z :=
  v4 ← (if is_ipv4 f then proto ← byte f 9; b0 ← byte f 0; port_flow (4 * Z.land b0 0xf) proto else Ok ZT_QOS_NO_FLOW);
  if is_ipv6 f then proto ← byte f 6; '(pos, proto) ← ipv6_stop (S (Z.to_nat (frameLen f))) 40 proto; port_flow pos proto else Ok v4.
End Flow.

Section Incoming.
Context {T : Type -> Type} `{Table T} `{PacketSource} `{PacketCrypto} `{Crypto} `{Env} `{Peers} `{StdSort} `{Routes} `{Host} `{ConfigMemory}.
Context (self now : Z) (peer : From) (b : Buffer).

Definition mac_at (p : Z) : handler T Z := bs ← lift (field b p 6); lift (MAC.setTo bs 6).
Definition rest_of (p : Z) : handler T (list Z) := lift (field b p (u32 (size b - p))).
Definition no_flow (trust : bool) (nwid : Z) : Answer := Received trust nwid ZT_QOS_NO_FLOW.

(** ** Calls of the network *)

Definition gated (nwid : Z) : handler T bool := on_network nwid (fun n ap => NetworkGroups.gate self n ap now (peer_address peer) (peer_identity peer)).
Definition take_com (nwid p : Z) : handler T Z :=
  '(c, n) ← lift (COM.deserialize com_nil b p);
  _ ← when (COM.COM_bool c) (on_network nwid (fun n ap => '(n, _) ← addCredential_com n c; Ok (n, ap, ())));
  mret n.
(** As with [filter_outgoing], of a filter that throws only the exception is kept: not the membership it looked up nor the copies it had sent. *)
Definition filter_incoming (nwid : Z) (f : Frame) : handler T Z := fun s =>
  match networks s !! nwid with
  | None => Undefined
  | Some n =>
      match filterIncomingPacket (H0 := source_from (length (sent s))) self n f self (_prngState s) with
      | Ok (n, (ap, o, r)) => Done (set_prng (set_sent (set_networks s (<[nwid := n]> (networks s))) (sent s ++ ap)) (Filter.prngState o)) r
      | Throw e => Threw s e
      | Undef => Undefined
      end
  end.
Definition learn_route (nwid mac : Z) : handler T () := on_network nwid (fun n ap => n ← learnBridgeRoute n mac (peer_address peer); Ok (n, ap, ())).
Definition host_call (nwid : Z) (f : Network T -> outcome (Network T * list Call)) : handler T () :=
  calls ← on_network nwid (fun n ap => '(n, c) ← f n; Ok (n, ap, c)); call (HostNetwork <$> calls).
(** A chunk throws while it is read, before anything changes. *)
Definition config_chunk (nwid start : Z) : handler T Z := fun s =>
  match networks s !! nwid with
  | None => Undefined
  | Some n =>
      match Packet.packetId b ≫= (fun pid => Packet.source b ≫= (fun src => handleConfigChunk (H5 := source_from (length (sent s))) self now n pid src b start)) with
      | Ok (n, ap, c, r) => Done (set_calls (set_sent (set_networks s (<[nwid := n]> (networks s))) (sent s ++ ap)) (calls s ++ (HostNetwork <$> c))) r
      | Throw e => Threw s e
      | Undef => Undefined
      end
  end.

(** ERROR(NEED_MEMBERSHIP_CERTIFICATE) *)
Definition _sendErrorNeedCredentials (nwid : Z) : handler T () :=
  src ← lift (Packet.source b);
  o ← new_packet src self VERB_ERROR;
  v ← lift (Packet.verb b);
  o ← lift (append_int 1 o v);
  pid ← lift (Packet.packetId b);
  o ← lift (append_int 8 o pid);
  o ← lift (append_int 1 o ERROR_NEED_MEMBERSHIP_CERTIFICATE);
  o ← lift (append_int 8 o nwid);
  transmit src o.
(** The start of an OK. *)
Definition new_ok (dest inReVerb : Z) : handler T Buffer :=
  o ← new_packet dest self VERB_OK;
  o ← lift (append_int 1 o inReVerb);
  pid ← lift (Packet.packetId b);
  lift (append_int 8 o pid).

(** ** Frames *)

Definition flow_at (etherTypeAt payloadAt : Z) : handler T Z :=
  if flowHashingSupported peer && (payloadAt <? size b) then
    et ← lift (at_ 2 b etherTypeAt); bs ← rest_of payloadAt; lift (frame_flow (mkFrame true (peer_address peer) 0 0 bs et 0))
  else mret ZT_QOS_NO_FLOW.

Definition _doFRAME : handler T Answer :=
  flow ← flow_at FRAME_IDX_ETHERTYPE FRAME_IDX_PAYLOAD;
  nwid ← lift (at_ 8 b ZT_PACKET_IDX_PAYLOAD);
  n ← network nwid;
  match n with
  | None => mret (Received false nwid flow)
  | Some n =>
      ok ← gated nwid;
      if (ok : bool) then
        _ ← when (FRAME_IDX_PAYLOAD <? size b)
              (et ← lift (at_ 2 b FRAME_IDX_ETHERTYPE);
               let sourceMac := MAC.fromAddress (peer_address peer) nwid in
               bs ← rest_of FRAME_IDX_PAYLOAD;
               r ← filter_incoming nwid (mkFrame true (peer_address peer) sourceMac (_mac n) bs et 0);
               when (0 <? r) (putFrame (mkPutFrame nwid sourceMac (_mac n) et 0 bs)));
        mret (Received true nwid flow)
      else _ ← _sendErrorNeedCredentials nwid; mret Again
  end.

(** The switch on what the filter says: whether the frame goes on, after the checks for bridging. *)
Definition ext_frame_allowed (nwid : Z) (n : Network T) (from to r : Z) : handler T bool :=
  if r =? 1 then
    if negb (from =? MAC.fromAddress (peer_address peer) nwid) then
      if permitsBridging (_config n) (peer_address peer) then _ ← learn_route nwid from; mret true else mret false
    else if negb (to =? _mac n) then
      if MAC.isMulticast to then mret (negb (multicastLimit (_config n) =? 0)) else mret (permitsBridging (_config n) self)
    else mret true
  else mret (r =? 2).

Definition ack_ext_frame (nwid : Z) : handler T () :=
  o ← new_ok (peer_address peer) VERB_EXT_FRAME;
  o ← lift (append_int 8 o nwid);
  transmit (peer_address peer) o.

(** Of the frame: [None] when the handler ends there, without an acknowledgement. *)
Definition ext_frame_body (nwid : Z) (n : Network T) (comLen : Z) : handler T (option ()) :=
  if EXT_FRAME_IDX_PAYLOAD <? size b then
    et ← lift (at_ 2 b (comLen + EXT_FRAME_IDX_ETHERTYPE));
    to ← mac_at (comLen + EXT_FRAME_IDX_TO);
    from ← mac_at (comLen + EXT_FRAME_IDX_FROM);
    bs ← rest_of (comLen + EXT_FRAME_IDX_PAYLOAD);
    if (from =? 0) || (from =? _mac n) then mret None
    else
      r ← filter_incoming nwid (mkFrame true (peer_address peer) from to bs et 0);
      ok ← ext_frame_allowed nwid n from to r;
      if (ok : bool) then _ ← putFrame (mkPutFrame nwid from to et 0 bs); mret (Some ())
      else if r =? 1 then mret None else mret (Some ())
  else mret (Some ()).

Definition _doEXT_FRAME : handler T Answer :=
  flow ← flow_at EXT_FRAME_IDX_ETHERTYPE EXT_FRAME_IDX_PAYLOAD;
  nwid ← lift (at_ 8 b ZT_PACKET_IDX_PAYLOAD);
  n ← network nwid;
  match n with
  | None => mret (Received false nwid flow)
  | Some n =>
      fl ← lift (index b EXT_FRAME_IDX_FLAGS);
      comLen ← (if negb (Z.land fl 0x01 =? 0) then take_com nwid EXT_FRAME_IDX_COM else mret 0);
      ok ← gated nwid;
      if (ok : bool) then
        r ← ext_frame_body nwid n comLen;
        _ ← when (match r with Some _ => negb (Z.land fl 0x10 =? 0) | None => false end) (ack_ext_frame nwid);
        mret (Received true nwid flow)
      else _ ← _sendErrorNeedCredentials nwid; mret Again
  end.

(** ** Multicast *)

Definition group_at (macAt adiAt : Z) : handler T MulticastGroup := m ← mac_at macAt; a ← lift (at_ 4 b adiAt); mret (mkMulticastGroup m a).
Definition controller_authorized (nwid : Z) : handler T bool := fun s => lift (localControllerHasAuthorized s now nwid (peer_address peer)) s.

(** The tuples of a MULTICAST_LIKE. [authorized] is what the last network said; it is not reset for a network this node does not know. *)
Fixpoint likes_loop (fuel : nat) (ptr : Z) (authorized : bool) (lastNwid : Z) : handler T () :=
  if ptr <? size b then
    match fuel with
    | O => lift Undef
    | S fuel =>
        nwid ← lift (at_ 8 b ptr);
        authorized ← (if negb (nwid =? lastNwid) then
                        n ← network nwid;
                        authorized ← match n with Some _ => gated nwid | None => mret authorized end;
                        if (authorized : bool) then mret true else if amUpstream then mret true else controller_authorized nwid
                      else mret authorized);
        _ ← when authorized (mg ← group_at (ptr + 8) (ptr + 14); add self now nwid mg (peer_address peer));
        likes_loop fuel (ptr + 18) authorized nwid
    end
  else mret ().
Definition _doMULTICAST_LIKE : handler T Answer :=
  _ ← likes_loop (Z.to_nat (size b)) ZT_PACKET_IDX_PAYLOAD false 0; mret (no_flow false 0).

Definition _doMULTICAST_GATHER : handler T Answer :=
  nwid ← lift (at_ 8 b ZT_PACKET_IDX_PAYLOAD);
  fl ← lift (index b GATHER_IDX_FLAGS);
  mg ← group_at GATHER_IDX_MAC GATHER_IDX_ADI;
  gatherLimit ← lift (at_ 4 b GATHER_IDX_LIMIT);
  n ← network nwid;
  _ ← when (negb (Z.land fl 0x01 =? 0))
        (try_catch
           ('(c, _) ← lift (COM.deserialize com_nil b GATHER_IDX_COM);
            when (COM.COM_bool c) (match n with Some _ => on_network nwid (fun n ap => '(n, _) ← addCredential_com n c; Ok (n, ap, ())) | None => mret () end))
           (mret ()));
  trust ← match n with Some _ => gated nwid | None => mret false end;
  ok ← (if 0 <? gatherLimit then if (trust : bool) then mret true else if amUpstream then mret true else controller_authorized nwid else mret false);
  _ ← when ok
        (o ← new_ok (peer_address peer) VERB_MULTICAST_GATHER;
         o ← lift (append_int 8 o nwid);
         o ← lift (MAC.appendTo o (InetAddress._mac mg));
         o ← lift (append_int 4 o (_adi mg));
         '(o, k) ← gather self (peer_address peer) nwid mg o gatherLimit;
         when (0 <? k) (transmit (peer_address peer) o));
  mret (no_flow trust nwid).

(** What comes after the fields of a MULTICAST_FRAME: [None] when the handler ends there. *)
Definition multicast_frame_body (nwid : Z) (n : Network T) (fl from : Z) (to : MulticastGroup) (et : Z) (bs : list Z) : handler T (option ()) :=
  if (0 <? zlen bs) && (zlen bs <=? ZT_MAX_MTU) then
    if negb (MAC.isMulticast (InetAddress._mac to)) then mret None
    else if (from =? 0) || MAC.isMulticast from || (from =? _mac n) then mret None
    else
      _ ← when (negb (Z.land fl 0x08 =? 0) && isMulticastReplicator (_config n) self)
            (fun s => match networks s !! nwid with Some n => Multicaster.send self now n (peer_address peer) to from et bs s | None => Undefined end);
      ok ← (if negb (from =? MAC.fromAddress (peer_address peer) nwid) then
              if permitsBridging (_config n) (peer_address peer) then _ ← learn_route nwid from; mret true else mret false
            else mret true);
      if (ok : bool) then
        r ← filter_incoming nwid (mkFrame true (peer_address peer) from (InetAddress._mac to) bs et 0);
        _ ← when (0 <? r) (putFrame (mkPutFrame nwid from (InetAddress._mac to) et 0 bs));
        mret (Some ())
      else mret None
  else mret (Some ()).

Definition answer_gather (nwid : Z) (to : MulticastGroup) (gatherLimit : Z) : handler T () :=
  src ← lift (Packet.source b);
  o ← new_ok src VERB_MULTICAST_FRAME;
  o ← lift (append_int 8 o nwid);
  o ← lift (MAC.appendTo o (InetAddress._mac to));
  o ← lift (append_int 4 o (_adi to));
  o ← lift (append_int 1 o 0x02);
  '(o, k) ← gather self (peer_address peer) nwid to o gatherLimit;
  when (negb (k =? 0)) (transmit src o).

Definition _doMULTICAST_FRAME : handler T Answer :=
  nwid ← lift (at_ 8 b ZT_PACKET_IDX_PAYLOAD);
  fl ← lift (index b MULTICAST_FRAME_IDX_FLAGS);
  n ← network nwid;
  match n with
  | None => mret Ignored
  | Some n =>
      offset ← (if negb (Z.land fl 0x01 =? 0) then take_com nwid MULTICAST_FRAME_IDX_COM else mret 0);
      ok ← gated nwid;
      if (ok : bool) then
        '(offset, gatherLimit) ← (if negb (Z.land fl 0x02 =? 0) then g ← lift (at_ 4 b (offset + MULTICAST_FRAME_IDX_FLAGS + 1)); mret (offset + 4, g) else mret (offset, 0));
        '(offset, from) ← (if negb (Z.land fl 0x04 =? 0) then m ← mac_at (offset + MULTICAST_FRAME_IDX_FLAGS + 1); mret (offset + 6, m)
                           else mret (offset, MAC.fromAddress (peer_address peer) nwid));
        to ← group_at (offset + MULTICAST_FRAME_IDX_DEST_MAC) (offset + MULTICAST_FRAME_IDX_DEST_ADI);
        et ← lift (at_ 2 b (offset + MULTICAST_FRAME_IDX_ETHERTYPE));
        if multicastLimit (_config n) =? 0 then mret (no_flow false nwid)
        else
          bs ← rest_of (offset + MULTICAST_FRAME_IDX_FRAME);
          r ← multicast_frame_body nwid n fl from to et bs;
          _ ← when (match r with Some _ => negb (gatherLimit =? 0) | None => false end) (answer_gather nwid to gatherLimit);
          mret (no_flow true nwid)
      else _ ← _sendErrorNeedCredentials nwid; mret Again
  end.

(** ** Configurations and messages *)

Definition _doNETWORK_CONFIG : handler T Answer :=
  nwid ← lift (at_ 8 b ZT_PACKET_IDX_PAYLOAD);
  n ← network nwid;
  match n with
  | None => mret (no_flow false 0)
  | Some n =>
      u ← config_chunk nwid ZT_PACKET_IDX_PAYLOAD;
      _ ← when (negb (u =? 0))
            (o ← new_ok (peer_address peer) VERB_ECHO;
             o ← lift (append_int 8 o (_id n));
             o ← lift (append_int 8 o u);
             transmit (peer_address peer) o);
      mret (no_flow false (_id n))
  end.

(** On a node that is not a controller. *)
Definition _doNETWORK_CONFIG_REQUEST : handler T Answer :=
  nwid ← lift (at_ 8 b ZT_PACKET_IDX_PAYLOAD);
  pid ← lift (Packet.packetId b);
  o ← new_packet (peer_address peer) self VERB_ERROR;
  o ← lift (append_int 1 o VERB_NETWORK_CONFIG_REQUEST);
  o ← lift (append_int 8 o pid);
  o ← lift (append_int 1 o ERROR_UNSUPPORTED_OPERATION);
  o ← lift (append_int 8 o nwid);
  _ ← transmit (peer_address peer) o;
  mret (no_flow false nwid).

Definition _doUSER_MESSAGE : handler T Answer :=
  _ ← when (ZT_PACKET_IDX_PAYLOAD + 8 <=? size b)
        (t ← lift (at_ 8 b ZT_PACKET_IDX_PAYLOAD); bs ← rest_of (ZT_PACKET_IDX_PAYLOAD + 8); call [HostUserMessage (peer_address peer) t bs]);
  mret (no_flow false 0).

(** The strings of a trace, those that are not empty and not too long. *)
Definition ZT_MAX_REMOTE_TRACE_SIZE : Z := 10000.
Fixpoint trace_strings (bs cur : list Z) : list (list Z) :=
  match bs with
  | [] => []
  | c :: bs => if c =? 0 then (if (0 <? zlen cur) && (zlen cur <=? ZT_MAX_REMOTE_TRACE_SIZE) then [cur] else []) ++ trace_strings bs [] else trace_strings bs (cur ++ [c])
  end.
Definition _doREMOTE_TRACE : handler T Answer :=
  bs ← rest_of ZT_PACKET_IDX_PAYLOAD;
  _ ← call (HostRemoteTrace (peer_address peer) <$> trace_strings bs []);
  mret (no_flow false 0).

(** ** OK: what concerns networks *)

(** The addresses of gather results: their number and then 5 bytes each. *)
Fixpoint split_addresses (n : nat) (bs : list Z) : outcome (list Z) :=
  match n with O => Ok [] | S n => a ← Address.setTo (take 5 bs) 5; l ← split_addresses n (drop 5 bs); Ok (a :: l) end.
Definition take_members (nwid : Z) (mg : MulticastGroup) (resultsAt : Z) : handler T () :=
  count ← lift (at_ 2 b (resultsAt + 4));
  bs ← lift (field b (resultsAt + 6) (count * 5));
  _ ← lift (at_ 4 b resultsAt);
  l ← lift (split_addresses (Z.to_nat count) bs);
  addMultiple self now nwid mg l.

Definition ok_network_config : handler T Z :=
  nwid ← lift (at_ 8 b OK_IDX_PAYLOAD);
  n ← network nwid;
  _ ← when (bool_decide (n <> None)) (_ ← config_chunk nwid OK_IDX_PAYLOAD; mret ());
  mret nwid.
Definition ok_multicast_gather : handler T Z :=
  nwid ← lift (at_ 8 b OK_IDX_PAYLOAD);
  n ← network nwid;
  _ ← when (bool_decide (n <> None)) (mg ← group_at GATHER_OK_IDX_MAC GATHER_OK_IDX_ADI; take_members nwid mg GATHER_OK_IDX_RESULTS);
  mret nwid.
Definition ok_multicast_frame : handler T Z :=
  fl ← lift (index b GATHER_OK_IDX_RESULTS);
  nwid ← lift (at_ 8 b OK_IDX_PAYLOAD);
  mg ← group_at GATHER_OK_IDX_MAC GATHER_OK_IDX_ADI;
  n ← network nwid;
  _ ← when (bool_decide (n <> None))
        (offset ← (if negb (Z.land fl 0x01 =? 0) then take_com nwid (GATHER_OK_IDX_RESULTS + 1) else mret 0);
         when (negb (Z.land fl 0x02 =? 0)) (take_members nwid mg (offset + GATHER_OK_IDX_RESULTS + 1)));
  mret nwid.

(** The verbs HELLO and WHOIS are handled by [other], which returns [None] when the handler ends there. *)
Definition _doOK (other : Z -> handler T (option ())) : handler T Answer :=
  v ← lift (index b ZT_PACKET_IDX_PAYLOAD);
  pid ← lift (at_ 8 b (ZT_PACKET_IDX_PAYLOAD + 1));
  expected ← gets (fun s => expectingReplyTo s pid);
  if (expected : bool) then
    r ← (if v =? VERB_NETWORK_CONFIG_REQUEST then n ← ok_network_config; mret (Some n)
         else if v =? VERB_MULTICAST_GATHER then n ← ok_multicast_gather; mret (Some n)
         else if v =? VERB_MULTICAST_FRAME then n ← ok_multicast_frame; mret (Some n)
         else r ← other v; mret ((fun _ => 0) <$> r));
    mret match r with Some nwid => no_flow false nwid | None => Ignored end
  else mret Ignored.

(** ** ERROR *)

Definition from_controller (nwid : Z) (m : handler T ()) : handler T () :=
  n ← network nwid; when (match n with Some n => controller n =? peer_address peer | None => false end) m.
Definition error_text (d : Dictionary) (key : list Z) (n : nat) : outcome (option (list Z)) :=
  '(r, s) ← get_terminated d key [] n; Ok (if 0 <? r then Some s else None).

Definition KEY_AUTHINFO_VERSION : list Z := [97; 86].
Definition KEY_AUTHINFO_URL : list Z := [97; 85].
Definition KEY_AUTHINFO_ISSUER_URL : list Z := [105; 85].
Definition KEY_AUTHINFO_CENTRAL_URL : list Z := [97; 67; 85].
Definition KEY_AUTHINFO_NONCE : list Z := [97; 78].
Definition KEY_AUTHINFO_STATE : list Z := [97; 83].
Definition KEY_AUTHINFO_CLIENT_ID : list Z := [97; 67; 73; 68].
Definition KEY_AUTHINFO_PROVIDER : list Z := [97; 83; 83; 79; 112].

(** What [get] leaves in an array that was cleared. *)
Definition info_text (d : Dictionary) (key : list Z) (n : nat) : outcome (list Z) := '(_, s) ← get_terminated d key [] n; Ok s.
Definition authentication_info (nwid : Z) (bytes : list Z) : handler T () :=
  d ← lift (Dictionary_of 8192 (Some bytes) (zlen bytes));
  ver ← lift (getUI cm_stack d KEY_AUTHINFO_VERSION 0);
  if ver =? 0 then
    url ← lift (error_text d KEY_AUTHINFO_URL 2048);
    match url with Some url => host_call nwid (fun n => setAuthenticationRequired_url self n url) | None => mret () end
  else when (ver =? 1)
    (issuer ← lift (info_text d KEY_AUTHINFO_ISSUER_URL 2048);
     central ← lift (info_text d KEY_AUTHINFO_CENTRAL_URL 2048);
     nonce ← lift (info_text d KEY_AUTHINFO_NONCE 64);
     state ← lift (info_text d KEY_AUTHINFO_STATE 128);
     cid ← lift (info_text d KEY_AUTHINFO_CLIENT_ID 256);
     provider ← lift (error_text d KEY_AUTHINFO_PROVIDER 64);
     host_call nwid (fun n => setAuthenticationRequired self n issuer central cid (default default_provider provider) nonce state)).

Definition authentication_required (nwid : Z) : handler T () :=
  let s := size b - (ERROR_IDX_PAYLOAD + 8) in
  if 2 <? s then
    n ← lift (at_ 2 b (ERROR_IDX_PAYLOAD + 8));
    when (n <=? s - 2) (bytes ← lift (mem_read (_b b) (ERROR_IDX_PAYLOAD + 10) n); authentication_info nwid bytes)
  else host_call nwid (fun n => setAuthenticationRequired_url self n []).

(** [upstream]: the peer is an upstream node. The network it concerns is what is returned. *)
Definition error_body (upstream : bool) (v code : Z) : handler T Z :=
  let nwid_at := lift (at_ 8 b ERROR_IDX_PAYLOAD) in
  if (code =? ERROR_OBJ_NOT_FOUND) || (code =? ERROR_UNSUPPORTED_OPERATION) then
    _ ← when (v =? VERB_NETWORK_CONFIG_REQUEST) (nwid ← nwid_at; from_controller nwid (host_call nwid (fun n => setNotFound self n))); mret 0
  else if code =? ERROR_IDENTITY_COLLISION then _ ← when upstream (call [HostIdentityCollision]); mret 0
  else if code =? ERROR_NEED_MEMBERSHIP_CERTIFICATE then
    nwid ← nwid_at;
    n ← network nwid;
    _ ← when (match n with Some n => COM.COM_bool (com (_config n)) | None => false end)
          (on_network nwid (fun n ap => '(n, ap) ← peerRequestedCredentials self n ap (peer_address peer) now; Ok (n, ap, ())));
    mret nwid
  else if code =? ERROR_NETWORK_ACCESS_DENIED_ then nwid ← nwid_at; _ ← from_controller nwid (host_call nwid (fun n => setAccessDenied self n)); mret 0
  else if code =? ERROR_UNWANTED_MULTICAST then
    nwid ← nwid_at;
    n ← network nwid;
    ok ← match n with Some _ => gated nwid | None => mret false end;
    _ ← when ok (mg ← group_at (ERROR_IDX_PAYLOAD + 8) (ERROR_IDX_PAYLOAD + 14); remove nwid mg (peer_address peer));
    mret nwid
  else if code =? ERROR_NETWORK_AUTHENTICATION_REQUIRED then nwid ← nwid_at; _ ← from_controller nwid (authentication_required nwid); mret 0
  else mret 0.
Definition _doERROR (upstream : bool) : handler T Answer :=
  v ← lift (index b ZT_PACKET_IDX_PAYLOAD);
  _ ← lift (at_ 8 b (ZT_PACKET_IDX_PAYLOAD + 1));
  code ← lift (index b ERROR_IDX_CODE);
  nwid ← error_body upstream v code;
  mret (no_flow false nwid).
End Incoming.

(** ** Frames for the host *)

Section frames.
Abbreviation T := (gmap Z).
Context `{PacketSource} `{PacketCrypto} `{Crypto} `{Env} `{Peers} `{StdSort} `{Routes} `{Host} `{ConfigMemory}.
Context (self now : Z) (peer : From) (b : Buffer).
Implicit Type s : Node T.

Lemma post_silent {A} (m : handler T A) s (P : Node T -> A -> Prop) (Q : Node T -> Prop) : silent m ->
  (forall s1 a, quiet s s1 -> P s1 a) -> (forall s1, quiet s s1 -> Q s1) -> post m s P Q.
Proof. intros Hm HP HQ. eapply post_weaken; [apply Hm|auto..]. Qed.

(** A node lets a peer take part in a network: it is public, or the member's certificate agrees with this node's. *)
Definition admits (n : Network T) : Prop :=
  nonnull (_config n) = true /\ (isPublic (_config n) = true \/
    exists m, _memberships n !! peer_address peer = Some m /\ isAllowedOnNetwork m (_config n) (peer_identity peer) = true).

Lemma multicastLikeGate_creds (m m' : Membership T) t g : multicastLikeGate m t = Ok (m', g) -> same_creds m m'.
Proof. unfold multicastLikeGate. destruct (ssub _ _); [|done..]. cbn [mbind outcome_bind]. destruct (_ <=? _); by intros [= <- _]. Qed.

Lemma gate_result (n : Network T) ap n' ap' ok : NetworkGroups.gate self n ap now (peer_address peer) (peer_identity peer) = Ok (n', ap', ok) ->
  same_network n n' /\ (ok = true -> admits n).
Proof.
  unfold NetworkGroups.gate, admits. destruct (nonnull (_config n)); [|by intros [= <- <- <-]]. cbn [tab_get gmap_table mbind outcome_bind].
  destruct (isPublic (_config n) || _) eqn:Ea; [|intros [= <- <- <-]; split; [reflexivity|done]].
  intros E. split; [|intros _; split; [done|]; apply orb_true_iff in Ea as [?|Ea]; [by left|]; right; destruct (_memberships n !! peer_address peer) as [m|]; [by exists m|done]].
  match type of E with ?x ≫= _ = _ => assert (exists n1 m1, x = Ok (n1, m1) /\ same_network n n1 /\ member n1 (peer_address peer) = m1) as (n1 & m1 & Ex & Hn1 & Hm1) end.
  { destruct (_memberships n !! peer_address peer) as [m|] eqn:Em; [exists n, m; split; [done|]; split; [reflexivity|]; unfold member; by rewrite Em|].
    destruct (_membership n (peer_address peer)) as [[n1 m1]| |] eqn:Ex; [|discriminate E..]. apply membership_same in Ex as (Hs & _ & Hm). by exists n1, m1. }
  rewrite Ex in E. clear Ex. cbn [mbind outcome_bind] in E. destruct (multicastLikeGate m1 now) as [[m2 g]| |] eqn:Eg; [|discriminate E..]. apply multicastLikeGate_creds in Eg. cbn [mbind outcome_bind] in E.
  destruct (put_membership n1 (peer_address peer) m2) as [n2| |] eqn:Ep; [|discriminate E..]. cbn [mbind outcome_bind] in E. rewrite <- Hm1 in Eg. pose proof (put_membership_same _ _ _ _ Ep Eg) as Hn2.
  assert (n' = n2) as ->; [|by etrans]. destruct g; [destruct (_announceMulticastGroupsTo _ _ _ _ _)|]; (discriminate E || by injection E as <- _ _).
Qed.

(** ** Nothing is lost by [on_network]: what it is called for does not throw *)

Definition never_throws {A} (m : outcome A) : Prop := forall e, m <> Throw e.
Lemma never_throws_bind {A B} (m : outcome A) (k : A -> outcome B) : never_throws m -> (forall a, never_throws (k a)) -> never_throws (m ≫= k).
Proof. intros Hm Hk e. destruct m as [a|x|]; cbn [mbind outcome_bind]; [apply Hk|by destruct (Hm x)|done]. Qed.
Lemma never_throws_Ok {A} (a : A) : never_throws (Ok a).
Proof. done. Qed.
Lemma never_throws_ssub x y : never_throws (ssub x y).
Proof. intros e. unfold ssub. by case_bool_decide. Qed.

Lemma gate_never_throws (n : Network T) ap a i : never_throws (NetworkGroups.gate self n ap now a i).
Proof.
  unfold NetworkGroups.gate. destruct (nonnull _); [|done]. cbn [tab_get gmap_table mbind outcome_bind]. destruct (_ || _); [|done].
  apply never_throws_bind; [destruct (_memberships n !! a); done|]. intros [n1 m]. apply never_throws_bind.
  { unfold multicastLikeGate. apply never_throws_bind; [apply never_throws_ssub|]. intros d. by destruct (_ <=? d). }
  intros [m1 g]. apply never_throws_bind; [done|]. intros n2. destruct g; [|done]. by destruct (_announceMulticastGroupsTo _ _ _ _ _).
Qed.
Lemma addCredential_com_never_throws (n : Network T) c : never_throws (addCredential_com n c).
Proof.
  unfold addCredential_com, add_to. destruct (negb _); [done|]. apply never_throws_bind; [done|]. intros [n1 m]. destruct (Membership.addCredential_com m c) as [m1 r]. done.
Qed.
Lemma prune_never_throws fuel : forall t : gmap Z Z, never_throws (prune_routes (T := T) fuel t).
Proof.
  assert (forall l (c : gmap Z Z) a x, never_throws (find_max (T := T) c l a x)) as Hmax.
  { induction l as [|[k v] l IH]; intros c a x; cbn [find_max]; [done|]. cbn [tab_index tab_set gmap_table mbind outcome_bind]. destruct (x <? _); apply IH. }
  induction fuel as [|fuel IH]; intros t; cbn [prune_routes]; destruct (_ <? _); try done. apply never_throws_bind; [apply Hmax|]. intros a. apply never_throws_bind; [done|]. intros t'. apply IH.
Qed.
Lemma learnBridgeRoute_never_throws (n : Network T) mac a : never_throws (learnBridgeRoute n mac a).
Proof. unfold learnBridgeRoute. apply never_throws_bind; [done|]. intros t. apply never_throws_bind; [apply prune_never_throws|done]. Qed.
Lemma update_never_throws (n : Network T) (f : list NetworkUpdate.Call -> Network T * list NetworkUpdate.Call) : never_throws (c ← _sendUpdateEvent self n; Ok (f c)).
Proof. apply never_throws_bind; [|done]. unfold _sendUpdateEvent. apply never_throws_bind; [|done]. unfold _externalConfig. by destruct (_ <? _). Qed.
Lemma setNotFound_never_throws (n : Network T) : never_throws (setNotFound self n).
Proof. apply (update_never_throws _ (fun c => (_, c))). Qed.
Lemma setAccessDenied_never_throws (n : Network T) : never_throws (setAccessDenied self n).
Proof. apply (update_never_throws _ (fun c => (_, c))). Qed.
Lemma setAuthenticationRequired_never_throws (n : Network T) x1 x2 x3 x4 x5 x6 : never_throws (setAuthenticationRequired self n x1 x2 x3 x4 x5 x6).
Proof. apply (update_never_throws _ (fun c => (_, c))). Qed.
Lemma setAuthenticationRequired_url_never_throws (n : Network T) url : never_throws (setAuthenticationRequired_url self n url).
Proof. apply (update_never_throws _ (fun c => (_, c))). Qed.

Lemma gated_post i s : post (gated self now peer i) s (fun s1 ok => quiet s s1 /\ (ok = true -> exists n, networks s !! i = Some n /\ admits n)) (quiet s).
Proof.
  unfold post, gated, on_network. destruct (networks s !! i) as [n|] eqn:E; [|done]. destruct (NetworkGroups.gate _ _ _ _ _ _) as [[[n' ap] ok]| |] eqn:Eg; [|done|done].
  apply gate_result in Eg as [Hs Ha]. split; [by eapply quiet_insert|]. intros Hok. exists n. auto.
Qed.
Lemma silent_gated i : silent (gated self now peer i).
Proof. intros s. eapply post_weaken; [apply gated_post|by intros ? ? [? _]|done]. Qed.

(** The network as it is, or with a certificate from the packet. *)
Definition with_com (n n1 : Network T) : Prop := n1 = n \/ exists c r, addCredential_com n c = Ok (n1, r).
Lemma with_com_same n n1 : with_com n n1 -> _config n1 = _config n /\ _mac n1 = _mac n /\ _id n1 = _id n.
Proof.
  intros [-> | (c & r & E)]; [done|]. unfold addCredential_com, add_to in E. destruct (negb _); [by injection E as -> _|]. destruct (_membership n _) as [[n2 m]| |] eqn:Em; [|discriminate E..].
  apply membership_same in Em as ((E1 & E2 & E3 & _) & _ & _). cbn [mbind outcome_bind] in E. destruct (Membership.addCredential_com m c) as [m' r']. cbn [mbind outcome_bind] in E.
  unfold put_membership in E. cbn [tab_set gmap_table mbind outcome_bind] in E. by injection E as <- _.
Qed.

(** After the certificate in the packet: the networks as before, with this one perhaps changed. *)
Definition com_taken i s s1 : Prop := calls s1 = calls s /\ exists n n1, networks s !! i = Some n /\ networks s1 = <[i := n1]> (networks s) /\ with_com n n1.
Lemma take_com_post i p s n : networks s !! i = Some n -> post (take_com b i p) s (fun s1 _ => com_taken i s s1) (fun s1 => calls s1 = calls s).
Proof.
  intros E. unfold take_com. apply post_bind. unfold post at 1, lift. destruct (COM.deserialize _ _ _) as [[c k]| |]; [|reflexivity|done]. apply post_bind. unfold when.
  destruct (COM.COM_bool c); [|split; [done|]; exists n, n; rewrite insert_id by done; split; [done|]; split; [done|by left]].
  unfold post at 1, on_network. rewrite E. destruct (addCredential_com n c) as [[n1 r]| |] eqn:Ea; [|done|done]. cbn [mbind outcome_bind]. split; [done|]. exists n, n1. split; [done|]. split; [done|]. right. by exists c, r.
Qed.

Lemma filter_incoming_post i f s : post (filter_incoming self i f) s
  (fun s1 r => quiet s s1 /\ exists n rnd ap o, networks s !! i = Some n /\
     filterIncoming (H0 := source_from (length (sent s))) self (_id n) (_config n) (member n (ztSource f)) f self rnd = Ok (ap, o, r)) (quiet s).
Proof.
  unfold post, filter_incoming. destruct (networks s !! i) as [n|] eqn:E; [|done]. unfold filterIncomingPacket. destruct (_membership n _) as [[n1 m]| |] eqn:Em; [|done..].
  apply membership_same in Em as (Hs & -> & _). cbn [mbind outcome_bind]. pose proof Hs as (Ec & _ & Ei & _). rewrite Ec, Ei.
  destruct (filterIncoming _ _ _ _ _ _ _) as [[[ap o] r]| |] eqn:Ef; cbn [mbind outcome_bind]; [|reflexivity|done].
  split; [by apply (quiet_insert s _ i n n1)|]. exists n, (_prngState s), ap, o. by split.
Qed.

Lemma learnBridgeRoute_same (n : Network T) m a n' : learnBridgeRoute n m a = Ok n' -> same_network n n'.
Proof. unfold learnBridgeRoute. destruct (tab_set _ _ _); [|done..]. cbn [mbind outcome_bind]. destruct (prune_routes _ _); [|done..]. intros [= <-]. split_and!; reflexivity. Qed.
Lemma silent_learn i m : silent (learn_route (T := T) peer i m).
Proof.
  apply silent_on_network. intros n ap n' ap' []. destruct (learnBridgeRoute _ _ _) eqn:E; [|done..]. intros [= <- <-]. by eapply learnBridgeRoute_same.
Qed.
Hint Resolve silent_gated silent_learn : silent.

Lemma silent_error i : silent (_sendErrorNeedCredentials (T := T) self b i).
Proof. unfold _sendErrorNeedCredentials. silent_steps. Qed.
Lemma silent_flow x y : silent (flow_at (T := T) peer b x y).
Proof. unfold flow_at, rest_of. silent_steps. Qed.
Lemma silent_group x y : silent (group_at (T := T) b x y).
Proof. unfold group_at, mac_at. silent_steps. Qed.
Lemma silent_mac x : silent (mac_at (T := T) b x).
Proof. unfold mac_at. silent_steps. Qed.
Lemma silent_rest x : silent (rest_of (T := T) b x).
Proof. unfold rest_of. silent_steps. Qed.
Lemma silent_ack i : silent (ack_ext_frame (T := T) self peer b i).
Proof. unfold ack_ext_frame, new_ok. silent_steps. Qed.
Lemma silent_answer i mg lim : silent (answer_gather (T := T) self peer b i mg lim).
Proof. unfold answer_gather, new_ok. silent_steps. Qed.

(** What only reads. *)
Definition steady {A} (m : handler T A) : Prop := forall s, post m s (fun s' _ => s' = s) (fun s' => s' = s).
Lemma steady_lift {A} (m : outcome A) : steady (lift m).
Proof. intros s. unfold post, lift. by destruct m. Qed.
Lemma steady_bind {A B} (m : handler T A) (k : A -> handler T B) : steady m -> (forall a, steady (k a)) -> steady (m ≫= k).
Proof. intros Hm Hk s. apply post_bind. specialize (Hm s). unfold post in *. destruct (m s) as [s1 a|s1 e|]; [|done|done]. subst s1. apply Hk. Qed.
Lemma post_steady {A} (m : handler T A) s (P : Node T -> A -> Prop) (Q : Node T -> Prop) : steady m -> (forall a, P s a) -> Q s -> post m s P Q.
Proof. intros Hm HP HQ. eapply post_weaken; [apply Hm|by intros ? ? ->|by intros ? ->]. Qed.
Lemma steady_flow x y : steady (flow_at (T := T) peer b x y).
Proof. unfold flow_at, rest_of. destruct (_ && _); [|by intros s]. repeat (apply steady_bind; [apply steady_lift|intros ?]). apply steady_lift. Qed.

(** A frame the host may get: the network is joined and lets the peer take part, the filter accepts the frame from what is known of the peer,
    and the source is the peer's own address, or the peer is allowed to bridge, or the rules overrule that. *)
Definition filtered s i (f : Frame) (r : Z) : Prop :=
  exists n n1 m src rnd ap o, networks s !! i = Some n /\ with_com n n1 /\ admits n1 /\ same_creds (member n1 (peer_address peer)) m /\
    filterIncoming (H0 := src) self (_id n) (_config n) m f self rnd = Ok (ap, o, r).
Definition bridging_ok s (f : PutFrame) (r : Z) : Prop :=
  r = 2 \/ pf_source f = MAC.fromAddress (peer_address peer) (pf_nwid f) \/
  exists n, networks s !! pf_nwid f = Some n /\ permitsBridging (_config n) (peer_address peer) = true.
Definition accepted s (f : PutFrame) : Prop :=
  exists r, filtered s (pf_nwid f) (mkFrame true (peer_address peer) (pf_source f) (pf_dest f) (pf_data f) (pf_etherType f) 0) r /\ 0 < r /\ bridging_ok s f r.
Definition frames_ok s s' : Prop := exists l, calls s' = calls s ++ (HostFrame <$> l) /\ (length l <= 1)%nat /\ Forall (accepted s) l.

Definition past_gate s0 i s : Prop :=
  calls s = calls s0 /\ exists n n1 n2, networks s0 !! i = Some n /\ with_com n n1 /\ admits n1 /\ networks s !! i = Some n2 /\ same_network n1 n2.

Lemma same_calls s s' : calls s' = calls s -> frames_ok s s'.
Proof. intros E. exists []. cbn. rewrite app_nil_r. split; [done|]. split; [lia|by apply list.Forall_nil_2]. Qed.
Lemma past_quiet s0 i s s' : past_gate s0 i s -> quiet s s' -> past_gate s0 i s'.
Proof.
  intros (Ec & n & n1 & n2 & H0n & Hw & Ha & Hn2 & Hs) [Ec' Hq]. split; [congruence|]. specialize (Hq i). destruct (networks s' !! i) as [n3|]; [|congruence].
  destruct Hq as (n2' & E & Hs'). rewrite Hn2 in E. injection E as <-. exists n, n1, n3. split_and!; try done. by etrans.
Qed.
(** From past the gate on, a step that is silent leads on. *)
Lemma past_step {A B} (m : handler T A) (k : A -> handler T B) s0 i s : past_gate s0 i s -> silent m ->
  (forall s1 a, past_gate s0 i s1 -> post (k a) s1 (fun s' _ => frames_ok s0 s') (frames_ok s0)) -> post (m ≫= k) s (fun s' _ => frames_ok s0 s') (frames_ok s0).
Proof.
  intros Hp Hm Hk. apply post_bind, post_silent; [done| |]; intros s1; [intros a Hq; by apply Hk, (past_quiet _ _ _ _ Hp)|].
  intros Hq. apply same_calls. by apply (past_quiet _ _ _ _ Hp) in Hq as [? _].
Qed.
Lemma past_done {A} (m : handler T A) s0 i s : past_gate s0 i s -> silent m -> post m s (fun s' _ => frames_ok s0 s') (frames_ok s0).
Proof. intros Hp Hm. apply post_silent; [done| |]; intros s1; [intros a Hq|intros Hq]; apply same_calls; by apply (past_quiet _ _ _ _ Hp) in Hq as [? _]. Qed.

Lemma past_filter {B} i f (k : Z -> handler T B) s0 s : past_gate s0 i s -> ztSource f = peer_address peer ->
  (forall s1 r, past_gate s0 i s1 -> filtered s0 i f r -> post (k r) s1 (fun s' _ => frames_ok s0 s') (frames_ok s0)) ->
  post (filter_incoming self i f ≫= k) s (fun s' _ => frames_ok s0 s') (frames_ok s0).
Proof.
  intros Hp Hf Hk. apply post_bind. eapply post_weaken; [apply filter_incoming_post| |].
  - intros s1 r [Hq (n2 & rnd & ap & o & E2 & Ef)]. apply Hk; [by eapply past_quiet|]. destruct Hp as (_ & n & n1 & n2' & H0n & Hw & Ha & Hn2 & (Ec & _ & Ei & Hm)). assert (n2' = n2) as -> by congruence.
    pose proof (with_com_same n n1 Hw) as (Ec1 & _ & Ei1). exists n, n1, (member n2 (peer_address peer)), (source_from (length (sent s))), rnd, ap, o. split; [done|]. split; [done|]. split; [done|].
    split; [apply Hm|]. rewrite <- Ec1, <- Ei1, <- Ec, <- Ei, <- Hf. done.
  - intros s1 Hq. apply same_calls. by apply (past_quiet _ _ _ _ Hp) in Hq as [? _].
Qed.
Lemma past_put s0 s f r : past_gate s0 (pf_nwid f) s -> filtered s0 (pf_nwid f) (mkFrame true (peer_address peer) (pf_source f) (pf_dest f) (pf_data f) (pf_etherType f) 0) r ->
  0 < r -> bridging_ok s0 f r -> post (putFrame f) s (fun s' _ => frames_ok s0 s') (frames_ok s0).
Proof.
  intros [Ec _] Hf Hr Hb. unfold post, putFrame, call, modify. exists [f]. cbn. rewrite Ec. split; [done|]. split; [lia|]. apply list.Forall_singleton. by exists r.
Qed.

(** The gate, and what comes after it when it is passed; the error that is sent otherwise. *)
Lemma through_gate {B} i (yes no : handler T B) s0 n n1 s : networks s0 !! i = Some n -> networks s !! i = Some n1 -> with_com n n1 -> calls s = calls s0 -> silent no ->
  (forall s1, past_gate s0 i s1 -> post yes s1 (fun s' _ => frames_ok s0 s') (frames_ok s0)) ->
  post (gated self now peer i ≫= (fun ok : bool => if ok then yes else no)) s (fun s' _ => frames_ok s0 s') (frames_ok s0).
Proof.
  intros H0n Hn Hw Ec Hno Hyes. apply post_bind. eapply post_weaken; [apply gated_post| |].
  - intros s1 ok [Hq Hadm]. destruct ok.
    + apply Hyes. destruct (Hadm eq_refl) as (n1' & E & Ha). assert (n1' = n1) as -> by congruence. destruct Hq as [Ec1 Hq]. split; [congruence|]. specialize (Hq i).
      destruct (networks s1 !! i) as [n2|]; [|congruence]. destruct Hq as (n1' & E' & Hs). assert (n1' = n1) as -> by congruence. by exists n, n1, n2.
    + apply post_silent; [done| |]; intros s2; [intros a [E _]|intros [E _]]; apply same_calls; destruct Hq as [E1 _]; congruence.
  - intros s1 [E _]. apply same_calls. congruence.
Qed.

(** Before the gate the packet is read; the certificate in it may be filed. *)
Abbreviation frames s0 m s := (post m s (fun s' _ => frames_ok s0 s') (frames_ok s0)).
Lemma frames_read {A B} (m : handler T A) (k : A -> handler T B) s : steady m -> (forall a, frames s (k a) s) -> frames s (m ≫= k) s.
Proof. intros Hm Hk. apply post_bind, post_steady; [done|done|]. by apply same_calls. Qed.
Lemma frames_silent {A} (m : handler T A) s : silent m -> frames s m s.
Proof. intros Hm. apply post_silent; [done| |]; intros s1; [intros a [E _]|intros [E _]]; by apply same_calls. Qed.
Lemma frames_com {B} i (c : bool) p (k : Z -> handler T B) s n : networks s !! i = Some n ->
  (forall l s1 n1, networks s1 !! i = Some n1 -> with_com n n1 -> calls s1 = calls s -> frames s (k l) s1) ->
  frames s ((if c then take_com b i p else mret 0) ≫= k) s.
Proof.
  intros Hn Hk. apply post_bind. destruct c; [|apply (Hk 0 s n); [done|by left|done]]. eapply post_weaken; [by eapply take_com_post| |].
  - intros s1 l (Ec & n' & n1 & E & En & Hw). assert (n' = n) as -> by congruence. apply (Hk l s1 n1); [by rewrite En, lookup_insert_eq|done|done].
  - intros s1 E. by apply same_calls.
Qed.
Lemma steady_gets {A} (f : Node T -> A) : steady (gets f).
Proof. by intros s. Qed.
Lemma frames_network {B} i (k : option (Network T) -> handler T B) s : frames s (k (networks s !! i)) s -> frames s (network i ≫= k) s.
Proof. intros Hk. by apply post_bind. Qed.

(** What comes after the frame is silent. *)
Lemma frames_then {A B} s0 (m : handler T A) (k : A -> handler T B) s : frames s0 m s -> (forall a, silent (k a)) -> frames s0 (m ≫= k) s.
Proof.
  intros Hm Hk. assert (forall s1 s2, frames_ok s0 s1 -> quiet s1 s2 -> frames_ok s0 s2) as Hq by (intros s1 s2 (l & E & Hl) [E' _]; exists l; split; [congruence|done]).
  apply post_bind. eapply post_weaken; [exact Hm| |done]. intros s1 a Hs1. apply post_silent; [done| |]; intros s2; [intros _|]; by apply Hq.
Qed.

Hint Resolve silent_error silent_flow silent_group silent_mac silent_rest silent_ack silent_answer : silent.

Lemma frame_ok s : frames s (_doFRAME self now peer b) s.
Proof.
  unfold _doFRAME. apply frames_read; [apply steady_flow|intros flow]. apply frames_read; [apply steady_lift|intros i]. apply frames_network.
  destruct (networks s !! i) as [n|] eqn:En; [|apply frames_silent, silent_ret].
  eapply through_gate; [done|done|by left|done|silent_steps|]. intros s1 Hp. destruct (FRAME_IDX_PAYLOAD <? size b); cbn [when]; [|by eapply past_step; [done|silent_steps|intros; by eapply past_done; [|silent_steps]]].
  apply frames_then; [|intros; silent_steps]. eapply past_step; [done|silent_steps|]. intros s2 et Hp2. eapply past_step; [done|silent_steps|]. intros s3 bs Hp3. eapply past_filter; [done|done|]. intros s4 r Hp4 Hf.
  destruct (Z.ltb_spec 0 r); cbn [when]; [|by eapply past_done; [|silent_steps]].
  apply (past_put _ _ (mkPutFrame i (MAC.fromAddress (peer_address peer) i) (_mac n) et 0 bs) r Hp4 Hf); [done|]. by right; left.
Qed.

(** The checks for bridging: what they let through may go to the host. *)
Lemma learn_allowed i (n : Network T) from s0 s : past_gate s0 i s ->
  post (if permitsBridging (_config n) (peer_address peer) then _ ← learn_route peer i from; mret true else mret false) s
    (fun s1 (ok : bool) => past_gate s0 i s1 /\ (ok = true -> permitsBridging (_config n) (peer_address peer) = true)) (past_gate s0 i).
Proof.
  intros Hp. destruct (permitsBridging _ _); [|by apply post_ret]. apply post_bind, post_silent; [apply silent_learn| |]; intros s1; [intros [] Hq; apply post_ret; split; [|done]|intros Hq]; by eapply past_quiet.
Qed.
Lemma ext_allowed i (n : Network T) from to r et bs s0 s : networks s0 !! i = Some n -> past_gate s0 i s ->
  post (ext_frame_allowed self peer i n from to r) s
    (fun s1 ok => past_gate s0 i s1 /\ (ok = true -> 0 < r /\ bridging_ok s0 (mkPutFrame i from to et 0 bs) r)) (past_gate s0 i).
Proof.
  intros Hn Hp. unfold ext_frame_allowed, bridging_ok. cbn [pf_source pf_nwid]. destruct (Z.eqb_spec r 1) as [->|]; [|apply post_ret; split; [done|]; intros ->%Z.eqb_eq; split; [lia|by left]].
  destruct (Z.eqb_spec from (MAC.fromAddress (peer_address peer) i)) as [->|]; cbn [negb].
  - destruct (negb _); [destruct (MAC.isMulticast to)|]; apply post_ret; (split; [done|]); intros _; (split; [lia|]); by right; left.
  - eapply post_weaken; [by apply learn_allowed| |done]. intros s1 ok [Hp1 Hok]. split; [done|]. intros E%Hok. split; [lia|]. right; right. by exists n.
Qed.

Lemma ext_body_ok i n comLen s0 s : networks s0 !! i = Some n -> past_gate s0 i s -> frames s0 (ext_frame_body self peer b i n comLen) s.
Proof.
  intros Hn Hp. unfold ext_frame_body. destruct (EXT_FRAME_IDX_PAYLOAD <? size b); [|by eapply past_done; [|silent_steps]].
  eapply past_step; [done|silent_steps|]. intros s2 et Hp2. eapply past_step; [done|silent_steps|]. intros s3 to Hp3. eapply past_step; [done|silent_steps|]. intros s4 from Hp4.
  eapply past_step; [done|silent_steps|]. intros s5 bs Hp5. destruct (_ || _); [by eapply past_done; [|silent_steps]|]. eapply past_filter; [done|done|]. intros s6 r Hp6 Hf.
  apply post_bind. eapply post_weaken; [by apply (ext_allowed i n from to r et bs s0)| |intros s7 [E _]; by apply same_calls]. intros s7 [] [Hp7 Hok].
  - destruct (Hok eq_refl) as [Hr Hb]. apply frames_then; [|intros; silent_steps]. by eapply (past_put _ _ (mkPutFrame i from to et 0 bs)).
  - destruct (r =? 1); (eapply past_done; [done|silent_steps]).
Qed.

Lemma ext_frame_ok s : frames s (_doEXT_FRAME self now peer b) s.
Proof.
  unfold _doEXT_FRAME. apply frames_read; [apply steady_flow|intros flow]. apply frames_read; [apply steady_lift|intros i]. apply frames_network.
  destruct (networks s !! i) as [n|] eqn:En; [|apply frames_silent, silent_ret]. apply frames_read; [apply steady_lift|intros fl].
  eapply frames_com; [exact En|]. intros comLen s1 n1 En1 Hw Ec. eapply through_gate; [done|exact En1|done|done|silent_steps|]. clear s1 n1 En1 Hw Ec. intros s1 Hp.
  apply frames_then; [by apply ext_body_ok|]. intros; silent_steps.
Qed.

Lemma multicast_body_ok i n fl from to et bs s0 s : networks s0 !! i = Some n -> past_gate s0 i s -> frames s0 (multicast_frame_body self now peer i n fl from to et bs) s.
Proof.
  intros Hn Hp. unfold multicast_frame_body. destruct (_ && _); [|by eapply past_done; [|silent_steps]]. destruct (negb _); [by eapply past_done; [|silent_steps]|].
  destruct (_ || _); [by eapply past_done; [|silent_steps]|]. eapply past_step; [done| |].
  { apply silent_when. intros s'. destruct (networks s' !! i) eqn:E; unfold post; rewrite E; [|done]. apply silent_send. }
  intros s2 [] Hp2. apply post_bind.
  eapply (post_weaken _ _ (fun s3 (ok : bool) => past_gate s0 i s3 /\ (ok = true -> forall r, bridging_ok s0 (mkPutFrame i from (InetAddress._mac to) et 0 bs) r)) _ (past_gate s0 i)).
  - destruct (Z.eqb_spec from (MAC.fromAddress (peer_address peer) i)) as [->|]; cbn [negb]; [apply post_ret; split; [done|]; intros _ r; by right; left|].
    eapply post_weaken; [by apply learn_allowed| |done]. intros s3 ok [Hp3 Hok]. split; [done|]. intros E%Hok r. right; right. by exists n.
  - intros s3 [] [Hp3 Hok]; [|by eapply past_done; [|silent_steps]]. eapply past_filter; [done|done|]. intros s4 r Hp4 Hf. apply frames_then; [|intros; silent_steps].
    destruct (Z.ltb_spec 0 r); cbn [when]; [|by eapply past_done; [|silent_steps]]. eapply (past_put _ _ (mkPutFrame i from (InetAddress._mac to) et 0 bs)); [done|exact Hf|done|by apply Hok].
  - intros s3 [E _]. by apply same_calls.
Qed.

Lemma multicast_frame_ok s : frames s (_doMULTICAST_FRAME self now peer b) s.
Proof.
  unfold _doMULTICAST_FRAME. apply frames_read; [apply steady_lift|intros i]. apply frames_read; [apply steady_lift|intros fl]. apply frames_network.
  destruct (networks s !! i) as [n|] eqn:En; [|apply frames_silent, silent_ret].
  eapply frames_com; [exact En|]. intros offset s1 n1 En1 Hw Ec. eapply through_gate; [done|exact En1|done|done|silent_steps|]. clear s1 n1 En1 Hw Ec. intros s1 Hp.
  eapply past_step; [done|silent_steps|]. intros s2 [offset2 gl] Hp2. eapply past_step; [done|silent_steps|]. intros s3 [offset3 from] Hp3. eapply past_step; [done|silent_steps|]. intros s4 to Hp4.
  eapply past_step; [done|silent_steps|]. intros s5 et Hp5. destruct (_ =? 0); [by eapply past_done; [|silent_steps]|]. eapply past_step; [done|silent_steps|]. intros s6 bs Hp6.
  apply frames_then; [by apply multicast_body_ok|]. intros; silent_steps.
Qed.

(** C31. Whatever a packet with a frame contains, and however its handler ends: at most one frame goes to the host, on a network that is joined and lets the peer
    take part; the filter has accepted it from what is known of the peer, and its source is the peer, or the peer may bridge, or a rule accepts it regardless. *)
Theorem frames_accepted (m : handler T Answer) s s' : m = _doFRAME self now peer b \/ m = _doEXT_FRAME self now peer b \/ m = _doMULTICAST_FRAME self now peer b ->
  (exists a, m s = Done s' a) \/ (exists e, m s = Threw s' e) -> frames_ok s s'.
Proof.
  intros Hm Hs. assert (post m s (fun s' _ => frames_ok s s') (frames_ok s)) as Hp by (destruct Hm as [-> | [-> | ->]]; [apply frame_ok|apply ext_frame_ok|apply multicast_frame_ok]).
  unfold post in Hp. by destruct Hs as [[a E]|[e E]]; rewrite E in Hp.
Qed.
End frames.
#[export] Hint Resolve silent_gated silent_learn silent_error silent_flow silent_group silent_mac silent_rest silent_ack silent_answer : silent.

(** ** Witnesses *)

(** The public network again, with a rule that accepts everything. *)
Definition open_nconf : NetworkConfig :=
  mkNetworkConfig example_nwid 1000000 7200000 1 8 0 ZT_NETWORKCONFIG_FLAG_ENABLE_BROADCAST 0 2800 32 [] [] [] [toy_rule ACTION_ACCEPT VNone] [] [] [] ZT_NETWORK_TYPE_PUBLIC []
    com_nil (mkDNS [] []) (mkSSO false 0 [] 0 [] [] [] [] [] []).
Definition open_node : Node (gmap Z) := set_networks (Node_new (1, 2)) {[example_nwid := set_memberships (set_config (Network_new 0 8 example_nwid) open_nconf) {[0x1122334455 := Membership_new]}]}.
Definition toy_peer : From := mkFrom 0x1122334455 (like_env 0x1122334455) true.
(** A packet from that peer with verb [v] and payload [l]. *)
Definition packet_from (v : Z) (l : list Z) : Buffer :=
  let bs := replicate 8 7 ++ be_bytes 5 8 ++ be_bytes 5 0x1122334455 ++ replicate 9 0 ++ [v] ++ l in mkBuffer (bs ++ replicate 1000 0) (zlen bs).
Definition toy_frame_packet : Buffer := packet_from 6 (be_bytes 8 example_nwid ++ be_bytes 2 0x0800 ++ [1; 2; 3]).
Lemma frames_accepted_witness :
  exists s' f, _doFRAME (H2 := toy_crypto) 8 100000 toy_peer toy_frame_packet open_node = Done s' (Received true example_nwid ZT_QOS_NO_FLOW) /\
    calls s' = [HostFrame f] /\ pf_data f = [1; 2; 3] /\ frames_ok (H1 := toy_crypto) (H2 := like_env) 8 toy_peer open_node s'.
Proof.
  assert (match _doFRAME (H2 := toy_crypto) 8 100000 toy_peer toy_frame_packet open_node with
          | Done s' a => match a with Received true i f => (i =? example_nwid) && (f =? ZT_QOS_NO_FLOW) | _ => false end && match calls s' with [HostFrame f] => bool_decide (pf_data f = [1; 2; 3]) | _ => false end
          | _ => false end = true) as Hc by (vm_compute; reflexivity).
  destruct (_doFRAME _ _ _ _ _) as [s' a| |] eqn:E; [|discriminate Hc..]. destruct a as [[] i fl| |]; [|discriminate Hc..].
  apply andb_true_iff in Hc as [Hi Hc]. apply andb_true_iff in Hi as [->%Z.eqb_eq ->%Z.eqb_eq]. destruct (calls s') as [|[f| | | |] [|? ?]] eqn:Ec; try discriminate Hc.
  exists s', f. split; [done|]. split; [exact Ec|]. split; [by apply bool_decide_eq_true in Hc|].
  apply (frames_accepted (H1 := toy_crypto) (H2 := like_env) 8 100000 toy_peer toy_frame_packet (_doFRAME (H2 := toy_crypto) 8 100000 toy_peer toy_frame_packet)); [by left|left; by exists (Received true example_nwid ZT_QOS_NO_FLOW)].
Defined.
