(* ===== verification/GroupsDelivery.v ===== *)
(** * Announced groups arrive

    The packets in which a member announces its multicast groups (MULTICAST_LIKE), handled by a node that lets the member take part: afterwards the member is in
    every one of the groups. *)

From stdpp Require Import sorting.
From S2P Require Import Prelude Buffer Serial Address InetAddress Identity Packet Table Credential Credentials Capability CredentialSet NetworkConfig NetconfDict Membership Filter Network CredentialTransfer NetworkGroups Runtime Multicaster MulticastSpec Waiting Incoming SortedVector.
Import Network.

Lemma mac_be m : MAC.to_bytes m = be_bytes 6 m.
Proof. unfold MAC.to_bytes; cbn [be_bytes]. rewrite !Address.land_ff. reflexivity. Qed.

Lemma mac_setTo_be bits : bytes_ok bits -> length bits = 6%nat -> MAC.setTo bits 6 = Ok (be_int bits).
Proof.
  intros Hok Hlen. destruct bits as [|b0 [|b1 [|b2 [|b3 [|b4 [|b5 [|]]]]]]]; try discriminate Hlen. unfold MAC.setTo. cbn [Z.ltb Z.compare Pos.compare Pos.compare_cont]. f_equal.
  unfold bytes_ok in Hok. repeat (apply list.Forall_cons in Hok as [? Hok]). unfold byte_ok in *. change 256 with (2 ^ 8) in *.
  unfold MAC.of_octets. change 0xff with (Z.ones 8). rewrite !Z.land_ones, !Z.mod_small by lia.
  unfold be_int; cbn [fold_left]. rewrite !Z.shiftl_lor, !Z.shiftl_shiftl, Z.shiftl_0_l by lia. reflexivity.
Qed.
Lemma mac_setTo m : rng 48 m -> MAC.setTo (MAC.to_bytes m) 6 = Ok m.
Proof. intros Hm. rewrite mac_be, mac_setTo_be by (auto using length_be_bytes with bytes). rewrite be_int_be_bytes, Z.mod_small by exact Hm. done. Qed.

Section likes.
Context `{PacketSourceLaws} `{PacketCrypto} `{!Lz4Laws} `{Crypto} `{Env} `{Peers} `{StdSort} `{Routes}.
Context (self now : Z) (peer : From).
Implicit Type s : Node T.

Definition likes_handler (b : Buffer) : handler T Answer := _doMULTICAST_LIKE self now peer b.

(** The group at a position of the packet. *)
Lemma group_at_spec b p g rest s : buf_ok b -> group_ok g -> rest_at b p (MAC.to_bytes (InetAddress._mac g) ++ be_bytes 4 (_adi g) ++ rest) ->
  group_at b p (p + 6) s = Done s g /\ rest_at b (p + 10) rest.
Proof.
  intros Hb [Hm Ha] Hr. unfold group_at, mac_at, mbind, handler_bind. destruct (field_rest b Hb p 6 _ _ Hr eq_refl) as [E1 Hr1]. rewrite E1. cbn [lift].
  rewrite mac_setTo by done. cbn [lift]. destruct (at_rest b Hb (p + 6) 4 (_adi g) rest Hr1) as [E2 Hr2]. rewrite E2. cbn [lift]. rewrite Z.mod_small by exact Ha. change (Z.of_nat 4) with 4 in Hr2.
  split; [by destruct g|]. by replace (p + 10) with (p + 6 + 4) by lia.
Qed.

(** This node can send multicasts of the network, and lets the peer take part in it. *)
Definition ready (nwid : Z) s : Prop := able now nwid s /\ exists n, networks s !! nwid = Some n /\ allowed n (peer_address peer) (peer_identity peer) = true.
Definition registered (nwid : Z) s (g : MulticastGroup) : Prop := mkMember (peer_address peer) now ∈ members (group_status s (mc_key nwid g)).
(** The members of the group are in order, and what waits for more of them can be sent. *)
Definition fine (nwid : Z) s (g : MulticastGroup) : Prop := group_fine self nwid (group_status s (mc_key nwid g)).

(** From [s] to [s'] nothing that was reached is lost. *)
Definition keeps (nwid : Z) s s' : Prop :=
  (ready nwid s -> ready nwid s') /\ (forall g, registered nwid s g -> registered nwid s' g) /\ (forall g, fine nwid s g -> fine nwid s' g).
#[local] Instance keeps_preorder nwid : PreOrder (keeps nwid).
Proof. split; [by intros s; split_and!|]. intros s1 s2 s3 (?&?&?) (?&?&?). split_and!; auto. Qed.

Lemma ready_quiet nwid s s' : quiet s s' -> able now nwid s' -> ready nwid s -> ready nwid s'.
Proof.
  intros [_ Hq] Ha [_ (n & En & Hal)]. split; [done|]. specialize (Hq nwid). destruct (networks s' !! nwid) as [n'|]; [|congruence]. destruct Hq as (n0 & En0 & Hs). rewrite En in En0. injection En0 as <-.
  exists n'. split; [done|]. by eapply allowed_same.
Qed.

(** The gate does not count as pushing credentials. *)
Lemma gate_pushed n ap n' ap' p i ok : NetworkGroups.gate self n ap now p i = Ok (n', ap', ok) -> forall a, _lastPushedCredentials (member n' a) = _lastPushedCredentials (member n a).
Proof.
  unfold NetworkGroups.gate. destruct (nonnull _); [|by intros [= <- _ _]]. cbn [tab_get gmap_table mbind outcome_bind]. destruct (_ || _); [|by intros [= <- _ _]].
  assert (exists n1 m, match _memberships n !! p with Some m => Ok (n, m) | None => _membership n p end = Ok (n1, m) /\ _lastPushedCredentials m = _lastPushedCredentials (member n p) /\ forall a, a <> p -> _memberships n1 !! a = _memberships n !! a) as (n1 & m & -> & Hm & Hne).
  { unfold member. destruct (_memberships n !! p) as [m|] eqn:E; [by exists n, m|]. unfold _membership. cbn [tab_index gmap_table mbind outcome_bind]. rewrite E. eexists _, _. split; [reflexivity|]. split; [done|].
    intros a Ha. cbn [_memberships set_memberships]. rewrite decide_True by done. by apply lookup_insert_ne. }
  cbn [mbind outcome_bind]. destruct (multicastLikeGate m now) as [[m1 g]| |] eqn:Eg; [|done..]. cbn [mbind outcome_bind]. unfold put_membership. cbn [tab_set gmap_table mbind outcome_bind].
  assert (_lastPushedCredentials m1 = _lastPushedCredentials m) as Hm1. { unfold multicastLikeGate in Eg. destruct (ssub _ _); [|done..]. cbn [mbind outcome_bind] in Eg. destruct (_ <=? _); by injection Eg as <- _. }
  intros E a. assert (n' = set_memberships n1 (<[p := m1]> (_memberships n1))) as ->. { destruct g; [|by injection E as <- _ _]. destruct (_announceMulticastGroupsTo _ _ _ _ _); [by injection E as <- _ _|by injection E as <- _ _|done]. }
  unfold member. cbn [_memberships set_memberships]. destruct (decide (a = p)) as [->|Ha]; [rewrite lookup_insert_eq; cbn [from_option id]; by rewrite Hm1, Hm|]. by rewrite lookup_insert_ne, Hne by done.
Qed.
Lemma gated_ready nwid s : srng 64 now -> ready nwid s -> exists s', gated self now peer nwid s = Done s' true /\ keeps nwid s s'.
Proof.
  intros Hnow [[He Hn] (n & En & Hal)]. destruct (Hn n En) as [Hclk Hfine]. pose proof (silent_gated self now peer nwid s) as Hquiet. unfold post, gated, on_network in *. rewrite En in *.
  destruct (gate_spec self now n (sent s) (peer_address peer) (peer_identity peer) Hclk Hnow) as (ms & aps & Eg & _ & _ & Hclk' & _). rewrite Eg in *. rewrite Hal in *.
  eexists. split; [reflexivity|]. set (s' := set_sent _ _) in *. assert (able now nwid s') as Ha.
  { split; [exact He|]. intros n' En'. pose proof Hquiet as [_ Hq]. specialize (Hq nwid). rewrite En' in Hq. destruct Hq as (n0 & En0 & Hs). rewrite En in En0. injection En0 as <-.
    unfold s' in En'. cbn [networks set_sent set_networks] in En'. rewrite lookup_insert_eq in En'. injection En' as <-. split; [done|]. eapply sends_fine_same; [exact Hfine|exact Hs|]. intros a. rewrite (gate_pushed _ _ _ _ _ _ _ Eg a). apply Hfine. }
  split; [|by split]. by apply ready_quiet.
Qed.
Lemma add_registers nwid g s : srng 64 now -> peer_address peer <> self -> able now nwid s -> fine nwid s g -> exists s', add self now nwid g (peer_address peer) s = Done s' () /\ keeps nwid s s' /\ able now nwid s' /\ registered nwid s' g.
Proof.
  intros Hnow Hself Ha Hc. destruct (add_spec self now nwid g (peer_address peer) s Hnow Hself Ha Hc) as (s' & gs' & E & Hq & Ha' & Eg & Hok & _ & Hin & _). exists s'. split; [done|].
  assert (forall g', group_status s' (mc_key nwid g') = if decide (mc_key nwid g = mc_key nwid g') then gs' else group_status s (mc_key nwid g')) as Hst.
  { intros g'. unfold group_status. rewrite Eg. case_decide as Ek; [by rewrite Ek, lookup_insert_eq|by rewrite lookup_insert_ne]. }
  split; [split; [by apply ready_quiet|]|split; [done|]]; unfold registered, fine in *.
  - split; intros g'; rewrite Hst; case_decide as Ek; done.
  - rewrite Hst. by rewrite decide_True.
Qed.

Lemma likes_loop_spec nwid b : buf_ok b -> rng 64 nwid -> srng 64 now -> peer_address peer <> self ->
  forall gs fuel ptr auth last s, (length gs <= fuel)%nat -> Forall group_ok gs -> rest_at b ptr (likes_enc nwid gs) -> (forall g, g ∈ gs -> fine nwid s g) ->
  (last = nwid /\ auth = true) \/ last <> nwid -> ready nwid s ->
  exists s', likes_loop self now peer b fuel ptr auth last s = Done s' () /\ keeps nwid s s' /\ forall g, g ∈ gs -> registered nwid s' g.
Proof.
  intros Hb Hnw Hnow Hself. induction gs as [|g gs IH]; intros fuel ptr auth last s Hfuel Hok Hr Hfine Hstart Hrd.
  { destruct (rest_at_bound b Hb _ _ Hr) as [_ He]. change (zlen (likes_enc nwid [])) with 0 in He. exists s. unfold size.
    destruct fuel; cbn [likes_loop]; (rewrite (proj2 (Z.ltb_ge _ _)) by (unfold size; lia)); (split; [done|]; split; [reflexivity|]; intros g Hg; by apply elem_of_nil in Hg). }
  destruct fuel as [|fuel]; [cbn in Hfuel; lia|]. apply list.Forall_cons in Hok as [Hg Hok]. cbn [likes_loop].
  destruct (rest_at_bound b Hb _ _ Hr) as [_ He]. rewrite zlen_likes, zlen_cons in He. pose proof (zlen_nonneg gs). rewrite (proj2 (Z.ltb_lt _ _)) by (unfold size; lia).
  unfold likes_enc in Hr. cbn [fmap list_fmap concat] in Hr. fold (likes_enc nwid gs) in Hr. unfold like_enc in Hr. rewrite <- !app_assoc in Hr.
  destruct (at_rest b Hb ptr 8 nwid _ Hr) as [E1 Hr1]. change (Z.of_nat 8) with 8 in *. change (8 * 8) with 64 in E1. rewrite Z.mod_small in E1 by exact Hnw.
  unfold mbind at 1, handler_bind at 1. rewrite E1. cbn [lift].
  match goal with |- context [?m ≫= _] => assert (exists s1, m s = Done s1 true /\ keeps nwid s s1) as (s1 & Ea & Hk1) end.
  { destruct Hstart as [[-> ->]|Hne]; [exists s; rewrite Z.eqb_refl; by split; [|reflexivity]|]. rewrite (proj2 (Z.eqb_neq _ _)) by auto. cbn [negb].
    destruct (gated_ready nwid s Hnow Hrd) as (s1 & Eg & Hk). exists s1. split; [|done]. unfold mbind, handler_bind, network, gets. destruct Hrd as (_ & n & En & _). by rewrite En, Eg. }
  unfold mbind at 1, handler_bind at 1. rewrite Ea. cbn [when]. destruct (group_at_spec b (ptr + 8) g _ s1 Hb Hg Hr1) as [E2 Hr2]. replace (ptr + 8 + 6) with (ptr + 14) in E2 by lia.
  unfold mbind at 1, handler_bind at 1. unfold mbind at 1, handler_bind at 1. rewrite E2. destruct (add_registers nwid g s1 Hnow Hself) as (s2 & -> & Hk2 & _ & Hreg); [by apply Hk1|by apply Hk1, Hfine; left|].
  destruct (IH fuel (ptr + 18) true nwid s2) as (s' & E' & Hk' & Hreg'); [cbn in Hfuel; lia|done|by replace (ptr + 18) with (ptr + 8 + 10) by lia|intros g' Hg'; by apply Hk2, Hk1, Hfine; right|by left|by apply Hk2, Hk1|].
  exists s'. split; [exact E'|]. split; [by do 2 (etrans; [eassumption|])|]. intros g' [->|Hg']%elem_of_cons; [by apply Hk'|by apply Hreg'].
Qed.

(** One packet of an announcement, as it is received. *)
Definition receive_likes (x : Z * Buffer) : handler T () := '(r, _) ← lift (Armor.uncompress x.2); _ ← _doMULTICAST_LIKE self now peer r; mret ().
Lemma receive_likes_spec nwid x gs s : rng 64 nwid -> 0 < nwid -> srng 64 now -> peer_address peer <> self -> announced nwid self x gs -> Forall group_ok gs -> ready nwid s -> (forall g, g ∈ gs -> fine nwid s g) ->
  exists s', receive_likes x s = Done s' () /\ keeps nwid s s' /\ forall g, g ∈ gs -> registered nwid s' g.
Proof.
  intros Hnw Hpos Hnow Hself (_ & _ & r & Eu & Hr & Hrest) Hok Hrd Hfine. unfold receive_likes, mbind, handler_bind. rewrite Eu. cbn [lift]. unfold _doMULTICAST_LIKE, mbind, handler_bind.
  destruct (rest_at_bound r Hr _ _ Hrest) as [_ He]. rewrite zlen_likes in He. change ZT_PACKET_IDX_PAYLOAD with 28 in *.
  destruct (likes_loop_spec nwid r Hr Hnw Hnow Hself gs (Z.to_nat (size r)) 28 false 0 s) as (s' & E & Hk & Hreg); [unfold size, zlen in *; lia|done|exact Hrest|done|right; lia|done|].
  change ZT_PACKET_IDX_PAYLOAD with 28. rewrite E. exists s'. by split_and!.
Qed.

End likes.

(** ** Witness *)

(** A multicast of an ARP frame that waits for members of the group. *)
Definition toy_waiting : OutboundMulticast :=
  match outbound_init 8 99000 (replicate 10024 0) (replicate 8 1) example_nwid true 32 1 0 BROADCAST 0x0806 (seqZ 0 28) with
  | Ok (o, None) => o
  | _ => mkOutbound 0 0 0 0 0 0 0 (mkBuffer [] 0) [] []
  end.
Definition waiting_node : Node T := set_groups open_node {[mc_key example_nwid BROADCAST := mkStatus 0 [toy_waiting] []]}.

Lemma toy_waits : waits_ok 8 example_nwid toy_waiting.
Proof.
  split; [vm_compute; reflexivity|split; [split; by_compute|by_compute]|split; [split; by_compute|split; [by_compute|]]].
  intros b Hb. vm_compute in Hb. discriminate Hb.
Qed.
Lemma waiting_ready : ready (H3 := toy_crypto) 100000 toy_peer example_nwid waiting_node.
Proof.
  split; [split|].
  - split; [reflexivity|]. split; [by apply list.Forall_replicate|reflexivity].
  - intros n En. change (networks waiting_node) with ({[example_nwid := set_memberships (set_config (Network_new 0 8 example_nwid) open_nconf) {[0x1122334455 := Membership_new]}]} : gmap Z (Network T)) in En. apply lookup_singleton_Some in En as [_ <-]. set (n := set_memberships _ _).
    assert (forall a, member n a = Membership_new) as Hmem by (intros a; unfold member, n; cbn [_memberships set_memberships]; destruct (decide (a = 0x1122334455)) as [->|]; [by rewrite lookup_singleton_eq|by rewrite lookup_singleton_ne]).
    split; [apply (map_Forall_singleton (fun _ m => clock_ok 100000 m) 0x1122334455 Membership_new); split; by_compute|]. split.
    + apply toy_rules_wf. right. by right.
    + constructor.
    + intros a. rewrite Hmem. split; [intros id; by eexists|]. split; [|constructor]. intros m ip mac [= <-]. split; by eexists.
    + split; [exact I|constructor..].
    + split_and!; by_compute.
    + intros a. rewrite Hmem. split; by_compute.
  - eexists. split; [apply lookup_singleton_eq|]. vm_compute. reflexivity.
Qed.

