(* ===== verification/Switch.v ===== *)
(** * Switching packets (node/Switch.hpp, node/Switch.cpp)

    What comes from the physical network: fragments are put together, packets for other nodes are relayed, packets for this node are decoded. What is sent: along
    which path, in how many fragments, and what waits for the identity of its recipient. *)

From S2P Require Import Prelude Buffer Address Identity Packet.
Import Packet.

Definition ZT_MAX_PACKET_FRAGMENTS : Z := 7.
Definition ZT_RX_QUEUE_SIZE : Z := 32.
Definition ZT_TX_QUEUE_SIZE : Z := 32.
Definition ZT_WHOIS_RETRY_DELAY : Z := 500.
Definition ZT_TRANSMIT_QUEUE_TIMEOUT : Z := 5000.
Definition ZT_RECEIVE_QUEUE_TIMEOUT : Z := 5000.
Definition ZT_RELAY_MAX_HOPS : Z := 3.
Definition ZT_MIN_UNITE_INTERVAL : Z := 30000.
Definition ZT_DEFAULT_PHYSMTU : Z := 1432.
Definition NO_FLOW : Z := -1.

(** [Utils::countBits] of 32 bits *)
Definition countBits (v : Z) : Z :=
  let v := u32 (v - Z.land (Z.shiftr v 1) 0x55555555) in
  let v := u32 (Z.land v 0x33333333 + Z.land (Z.shiftr v 2) 0x33333333) in
  Z.shiftr (u32 (Z.land (u32 (v + Z.shiftr v 4)) 0x0f0f0f0f * 0x01010101)) 24.

(** ** Data *)

(** IncomingPacket: a packet, when and along which path it arrived. *)
Record IncomingPacket := mkIncoming { _buffer : Buffer; _receiveTime : Z; _path : Z; _authenticated : bool }.

(** [lock] is taken: a thread that takes it again waits for ever. *)
Record RXQueueEntry := mkEntry {
  timestamp : Z; entry_id : Z; frag0 : IncomingPacket; frags : list Buffer; total : Z; have : Z; complete : bool; flow : Z; locked : bool }.
Record TXQueueEntry := mkTX { tx_dest : Z; tx_nwid : Z; tx_creationTime : Z; tx_packet : Buffer; tx_encrypt : bool; tx_flowId : Z }.

Record Switch := mkSwitch {
  _rxQueue : list RXQueueEntry; _rxQueuePtr : Z; _txQueue : list TXQueueEntry; _lastSentWhoisRequest : gmap Z Z; _lastUniteAttempt : gmap (Z * Z) Z;
  _lastCheckedQueues : Z }.

Definition set_rx (s : Switch) (q : list RXQueueEntry) (p : Z) : Switch := mkSwitch q p (_txQueue s) (_lastSentWhoisRequest s) (_lastUniteAttempt s) (_lastCheckedQueues s).
Definition set_tx (s : Switch) (q : list TXQueueEntry) : Switch := mkSwitch (_rxQueue s) (_rxQueuePtr s) q (_lastSentWhoisRequest s) (_lastUniteAttempt s) (_lastCheckedQueues s).
Definition set_whois (s : Switch) (m : gmap Z Z) : Switch := mkSwitch (_rxQueue s) (_rxQueuePtr s) (_txQueue s) m (_lastUniteAttempt s) (_lastCheckedQueues s).
Definition set_unite (s : Switch) (m : gmap (Z * Z) Z) : Switch := mkSwitch (_rxQueue s) (_rxQueuePtr s) (_txQueue s) (_lastSentWhoisRequest s) m (_lastCheckedQueues s).
Definition set_checked (s : Switch) (t : Z) : Switch := mkSwitch (_rxQueue s) (_rxQueuePtr s) (_txQueue s) (_lastSentWhoisRequest s) (_lastUniteAttempt s) t.

Definition set_frag0 (e : RXQueueEntry) (p : IncomingPacket) : RXQueueEntry := mkEntry (timestamp e) (entry_id e) p (frags e) (total e) (have e) (complete e) (flow e) (locked e).
(** [frags[fragmentNumber - 1] = fragment], with the index as it is computed *)
Definition put_frag (fs : list Buffer) (no : Z) (f : Buffer) : outcome (list Buffer) :=
  let i := u32 (no - 1) in if i <? zlen fs then Ok (<[Z.to_nat i := f]> fs) else Undef.
Definition set_frags (e : RXQueueEntry) (fs : list Buffer) (t : Z) : RXQueueEntry :=
  mkEntry (timestamp e) (entry_id e) (frag0 e) fs t (have e) (complete e) (flow e) (locked e).
Definition set_have (e : RXQueueEntry) (h : Z) : RXQueueEntry := mkEntry (timestamp e) (entry_id e) (frag0 e) (frags e) (total e) h (complete e) (flow e) (locked e).
Definition set_complete (e : RXQueueEntry) : RXQueueEntry := mkEntry (timestamp e) (entry_id e) (frag0 e) (frags e) (total e) (have e) true (flow e) (locked e).
Definition set_free (e : RXQueueEntry) : RXQueueEntry := mkEntry 0 (entry_id e) (frag0 e) (frags e) (total e) (have e) (complete e) (flow e) (locked e).
Definition set_locked (e : RXQueueEntry) (l : bool) : RXQueueEntry := mkEntry (timestamp e) (entry_id e) (frag0 e) (frags e) (total e) (have e) (complete e) (flow e) l.

(** ** The rest of the node

    What the switch calls of Topology, Peer, Path and Node; a peer is its address, a path a number. [W] is their state. [introduce] may wait for ever, for a lock the thread itself holds: [None]. *)
Record Keys := mkKeys { key : list Z; aesKeysIfSupported : option (list Z * list Z); eph : list Z * list Z; public_key : list Z }.
Class Surroundings (W : Type) := {
  path_received : W -> Z -> Z -> W;
  amUpstream : W -> bool;
  trustEstablished : W -> Z -> Z -> bool;
  getPeer : W -> Z -> W * bool;
  getUpstreamPeer : W -> Z -> option Z;
  sendDirect : W -> Z -> list Z -> Z -> bool -> W * bool;
  introduce : W -> Z -> Z -> Z -> option W;
  broadcasts : W -> Z -> bool;
  alive_paths : W -> Z -> Z -> list Z;
  getAppropriatePath : W -> Z -> Z -> bool -> Z -> option Z;
  tryMemorizedPath : W -> Z -> Z -> W;
  path_mtu : W -> Z -> Z;
  getOutboundPathInfo : W -> Z -> option (Z * Z);
  peer_keys : W -> Z -> Keys;
  expectReply : W -> Z -> W;
  recordOutgoingPacket : W -> Z -> Z -> Buffer -> Z -> Z -> W;
  path_send : W -> Z -> list Z -> Z -> W * bool;
  fresh : W -> W * (list Z * list Z);
}.

Record State (W : Type) := mkState { sw : Switch; world : W }.
Arguments mkState {W}.
Arguments sw {W}.
Arguments world {W}.

(** ** Steps: what was changed before an exception stays changed *)

Definition step (W A : Type) : Type := State W -> result (State W) A.
#[export] Instance step_ret W : MRet (step W) := fun A a s => Done s a.
#[export] Instance step_bind W : MBind (step W) := fun A B k m s => match m s with Done s a => k a s | Threw s e => Threw s e | Undefined => Undefined end.

Section Steps.
Context {W : Type}.
Definition lift {A} (m : outcome A) : step W A := fun s => match m with Ok a => Done s a | Throw e => Threw s e | Undef => Undefined end.
Definition gets {A} (f : Switch -> A) : step W A := fun s => Done s (f (sw s)).
Definition modify (f : Switch -> Switch) : step W () := fun s => Done (mkState (f (sw s)) (world s)) ().
Definition ask {A} (f : W -> A) : step W A := fun s => Done s (f (world s)).
Definition tell (f : W -> W) : step W () := fun s => Done (mkState (sw s) (f (world s))) ().
Definition run {A} (f : W -> W * A) : step W A := fun s => let '(w, a) := f (world s) in Done (mkState (sw s) w) a.
Definition when (c : bool) (m : step W ()) : step W () := if c then m else mret ().
Fixpoint for_each {X} (l : list X) (f : X -> step W ()) : step W () :=
  match l with [] => mret () | x :: l => _ ← f x; for_each l f end.

Definition entry (i : nat) : step W RXQueueEntry := fun s => match _rxQueue (sw s) !! i with Some e => Done s e | None => Undefined end.
Definition update (i : nat) (f : RXQueueEntry -> RXQueueEntry) : step W () := modify (fun s => set_rx s (alter f i (_rxQueue s)) (_rxQueuePtr s)).
(** [Mutex::Lock rql(rq->lock)] *)
Definition blocked {A} : step W A := fun _ => Undefined.
Definition unlocking (i : nat) (m : step W ()) : step W () := fun s =>
  match m s with
  | Done s a => update i (fun e => set_locked e false) s
  | Threw s x => match update i (fun e => set_locked e false) s with Done s _ => Threw s x | r => r end
  | Undefined => Undefined
  end.
Definition with_lock (i : nat) (m : step W ()) : step W () :=
  e ← entry i;
  if locked e then blocked else _ ← update i (fun e => set_locked e true); unlocking i m.
End Steps.

(** [IncomingPacket::tryDecode]: with the packet as it is afterwards, and whether it is done. It may call back the switch. *)
Class Decoder (W : Type) := tryDecode : IncomingPacket -> Z -> step W (IncomingPacket * bool).

(** ** The receive queue *)

Section Switch.
Context {W : Type} `{Surroundings W} `{!Decoder W} `{PacketCrypto}.
(** [mem]: the uninitialised array of a packet on the stack; [tmp], [pbuf]: the scratch arrays of [armor]. *)
Context (self now : Z) (mem tmp pbuf : list Z).

(** The slots before the pointer, the last one first. *)
Fixpoint find_slot (q : list RXQueueEntry) (packetId : Z) (current : Z) (k : nat) (n : nat) : option nat :=
  match n with
  | O => None
  | S n =>
      let i := Z.to_nat (u32 (current - Z.of_nat k) mod ZT_RX_QUEUE_SIZE) in
      match q !! i with
      | Some e => if (entry_id e =? packetId) && negb (timestamp e =? 0) then Some i else find_slot q packetId current (S k) n
      | None => None
      end
  end.
Definition _nextRXQueueEntry : step W nat := fun s =>
  let p := _rxQueuePtr (sw s) in Done (mkState (set_rx (sw s) (_rxQueue (sw s)) (s32 (p + 1))) (world s)) (Z.to_nat (u32 p mod ZT_RX_QUEUE_SIZE)).
Definition _findRXQueueEntry (packetId : Z) : step W nat := fun s =>
  match find_slot (_rxQueue (sw s)) packetId (u32 (_rxQueuePtr (sw s))) 1 (Z.to_nat ZT_RX_QUEUE_SIZE) with
  | Some i => Done s i
  | None => _nextRXQueueEntry s
  end.

(** [payload()] and [payloadLength()] of a fragment, as [append] reads them. *)
Definition fragment_payload (f : Buffer) : outcome (list Z) :=
  _ ← throw_if (size f <? u32 (ZT_PACKET_FRAGMENT_IDX_PAYLOAD + u32 (size f - ZT_PACKET_FRAGMENT_IDX_PAYLOAD))) OutOfBounds;
  mem_read (_b f) ZT_PACKET_FRAGMENT_IDX_PAYLOAD (Fragment.payloadLength f).
Fixpoint append_frags (i : nat) (f : nat) (n : nat) : step W () :=
  match n with
  | O => mret ()
  | S n =>
      e ← entry i;
      bs ← lift match frags e !! (f - 1)%nat with Some fr => fragment_payload fr | None => Undef end;
      b ← lift (append (_buffer (frag0 e)) bs);
      _ ← update i (fun e => set_frag0 e (mkIncoming b (_receiveTime (frag0 e)) (_path (frag0 e)) (_authenticated (frag0 e))));
      append_frags i (S f) n
  end.
(** The packet is assembled and decoded; the entry is freed, or waits. *)
Definition assemble (i : nat) (totalFragments : Z) : step W () :=
  _ ← append_frags i 1 (Z.to_nat (totalFragments - 1));
  e ← entry i;
  '(p, done) ← tryDecode (frag0 e) NO_FLOW;
  _ ← update i (fun e => set_frag0 e p);
  update i (if (done : bool) then set_free else set_complete).

(** What is done with a fragment under the lock of its entry. *)
Definition store_fragment (fragment : Buffer) (fragmentPacketId fragmentNumber totalFragments : Z) (i : nat) : step W () :=
  e ← entry i;
  if negb (entry_id e =? fragmentPacketId) then
    fs ← lift (put_frag (frags e) fragmentNumber fragment);
    update i (fun e => mkEntry now fragmentPacketId (frag0 e) fs totalFragments (Z.shiftl 1 fragmentNumber) false NO_FLOW (locked e))
  else if Z.land (have e) (Z.shiftl 1 fragmentNumber) =? 0 then
    let h := u32 (Z.lor (have e) (Z.shiftl 1 fragmentNumber)) in
    fs ← lift (put_frag (frags e) fragmentNumber fragment);
    _ ← update i (fun e => set_frags e fs totalFragments);
    _ ← update i (fun e => set_have e h);
    when (countBits h =? totalFragments) (assemble i totalFragments)
  else mret ().
Definition receive_fragment (fragment : Buffer) : step W () :=
  fragmentPacketId ← lift (Fragment.packetId fragment);
  fragmentNumber ← lift (Fragment.fragmentNumber fragment);
  totalFragments ← lift (Fragment.totalFragments fragment);
  if (totalFragments <=? ZT_MAX_PACKET_FRAGMENTS) && (fragmentNumber <? ZT_MAX_PACKET_FRAGMENTS) && (0 <? fragmentNumber) && (1 <? totalFragments) then
    i ← _findRXQueueEntry fragmentPacketId;
    with_lock i (store_fragment fragment fragmentPacketId fragmentNumber totalFragments i)
  else mret ().

(** [frag0.init(data, len, path, now)] *)
Definition init_head (i : nat) (d : list Z) (path : Z) : step W () :=
  e ← entry i;
  b ← lift (copyFrom (_buffer (frag0 e)) d);
  update i (fun e => set_frag0 e (mkIncoming b now path false)).

Definition store_head (path : Z) (d : list Z) (packetId : Z) (i : nat) : step W () :=
  e ← entry i;
  if negb (entry_id e =? packetId) then
    _ ← update i (fun e => mkEntry now packetId (frag0 e) (frags e) (total e) (have e) (complete e) NO_FLOW (locked e));
    _ ← init_head i d path;
    update i (fun e => mkEntry (timestamp e) (entry_id e) (frag0 e) (frags e) 0 1 false (flow e) (locked e))
  else if Z.land (have e) 1 =? 0 then
    let h := Z.lor (have e) 1 in
    _ ← when (1 <? total e) (update i (fun e => set_have e h));
    if (1 <? total e) && (countBits h =? total e) then _ ← init_head i d path; assemble i (total e)
    else init_head i d path
  else mret ().
Definition receive_head (path : Z) (d : list Z) : step W () :=
  let packetId := be_int (take 8 d) in
  i ← _findRXQueueEntry packetId;
  with_lock i (store_head path d packetId i).

Definition receive_whole (path : Z) (d : list Z) : step W () :=
  b ← lift (copyFrom (mkBuffer mem 0) d);
  '(p, done) ← tryDecode (mkIncoming b now path false) NO_FLOW;
  if (done : bool) then mret ()
  else
    i ← _nextRXQueueEntry;
    with_lock i
      (pid ← lift (packetId (_buffer p));
       update i (fun e => mkEntry now pid p (frags e) 1 1 true NO_FLOW (locked e))).

(** ** Relaying *)

Definition _shouldUnite (source destination : Z) : step W bool := fun s =>
  let k := if destination <? source then (destination, source) else (source, destination) in
  let ts := default 0 (_lastUniteAttempt (sw s) !! k) in
  if ZT_MIN_UNITE_INTERVAL <=? u64 (now - ts) then Done (mkState (set_unite (sw s) (<[k := now]> (_lastUniteAttempt (sw s)))) (world s)) true
  else Done (mkState (set_unite (sw s) (<[k := ts]> (_lastUniteAttempt (sw s)))) (world s)) false.

Definition relay_fragment (path : Z) (fragment : Buffer) (destination : Z) : step W () :=
  up ← ask amUpstream;
  trust ← ask (fun w => trustEstablished w path now);
  if negb up && negb trust then mret ()
  else
    h ← lift (Fragment.hops fragment);
    if h <? ZT_RELAY_MAX_HOPS then
      fragment ← lift (Fragment.incrementHops fragment);
      known ← run (fun w => getPeer w destination);
      sent ← (if (known : bool) then run (fun w => sendDirect w destination (data fragment) now false) else mret false);
      if (sent : bool) then mret ()
      else
        relayTo ← ask (fun w => getUpstreamPeer w 0);
        match relayTo with Some u => _ ← run (fun w => sendDirect w u (data fragment) now true); mret () | None => mret () end
    else mret ().

Definition introduce_source (relayTo source : Z) : step W () :=
  known ← run (fun w => getPeer w source);
  when known (fun s => match introduce (world s) relayTo now source with Some w => Done (mkState (sw s) w) () | None => Undefined end).

Definition relay_head (path : Z) (d : list Z) (source destination : Z) : step W () :=
  up ← ask amUpstream;
  trust ← ask (fun w => trustEstablished w path now);
  if negb up && negb trust && negb (source =? self) then mret ()
  else
    packet ← lift (copyFrom (mkBuffer mem 0) d);
    h ← lift (hops packet);
    if h <? ZT_RELAY_MAX_HOPS then
      packet ← lift (incrementHops packet);
      known ← run (fun w => getPeer w destination);
      sent ← (if (known : bool) then run (fun w => sendDirect w destination (data packet) now false) else mret false);
      if (sent : bool) then
        unite ← (if negb (source =? self) then _shouldUnite source destination else mret false);
        when unite (introduce_source destination source)
      else
        relayTo ← ask (fun w => getUpstreamPeer w 0);
        match relayTo with
        | Some u =>
            if negb (u =? source) then
              sent ← run (fun w => sendDirect w u (data packet) now true);
              when sent (introduce_source u source)
            else mret ()
        | None => mret ()
        end
    else mret ().

(** ** A datagram arrives *)

Definition byte_at (d : list Z) (i : Z) : outcome Z := bs ← mem_read d i 1; Ok (be_int bs).
Definition addr_at (d : list Z) (i : Z) : outcome Z := bs ← mem_read d i Address.ZT_ADDRESS_LENGTH; Address.setTo bs Address.ZT_ADDRESS_LENGTH.
Definition on_fragment (path : Z) (d : list Z) : step W () :=
  fragment ← lift (copyFrom (mkBuffer mem 0) d);
  destination ← lift (Fragment.destination fragment);
  if negb (destination =? self) then relay_fragment path fragment destination else receive_fragment fragment.
Definition on_head (path : Z) (d : list Z) : step W () :=
  destination ← lift (addr_at d 8);
  source ← lift (addr_at d 13);
  if source =? self then mret ()
  else if negb (destination =? self) then relay_head path d source destination
  else
    fl ← lift (byte_at d ZT_PACKET_IDX_FLAGS);
    if negb (Z.land fl ZT_PROTO_FLAG_FRAGMENTED =? 0) then receive_head path d else receive_whole path d.

Definition onRemotePacket (path : Z) (d : list Z) : step W () := fun s =>
  match (_ ← tell (fun w => path_received w path now);
         if ZT_PROTO_MIN_FRAGMENT_LENGTH <? zlen d then
           indicator ← lift (byte_at d ZT_PACKET_FRAGMENT_IDX_FRAGMENT_INDICATOR);
           if indicator =? ZT_PACKET_FRAGMENT_INDICATOR then on_fragment path d
           else if ZT_PROTO_MIN_PACKET_LENGTH <=? zlen d then on_head path d else mret ()
         else mret ()) s with
  | Threw s _ => Done s ()
  | r => r
  end.

(** ** Sending *)

(** The rest of a packet from [start] on, in [n] fragments from number [fno] on. *)
Fixpoint send_fragments (path : Z) (packet : Buffer) (mtu : Z) (n : nat) (fno totalFragments fragStart remaining : Z) : step W () :=
  match n with
  | O => mret ()
  | S n =>
      let chunkSize := Z.min remaining (u32 (mtu - ZT_PROTO_MIN_FRAGMENT_LENGTH)) in
      frag ← lift (Fragment.init (mkBuffer mem 0) packet fragStart chunkSize fno totalFragments);
      _ ← run (fun w => path_send w path (data frag) now);
      send_fragments path packet mtu n (fno + 1) totalFragments (u32 (fragStart + chunkSize)) (u32 (remaining - chunkSize))
  end.

(** The packet as it is afterwards: armored, or marked as trusted. *)
Definition prepare (k : Keys) (trustedPathId : Z) (packet : Buffer) (encrypt : bool) : outcome (Buffer * bool) :=
  if negb (trustedPathId =? 0) then b ← setTrusted packet trustedPathId; Ok (b, false)
  else
    enc ← isEncrypted packet;
    b ← (if (enc : bool) then Ok packet else Armor.armor tmp pbuf packet (key k) encrypt false (aesKeysIfSupported k) (eph k) (public_key k));
    Ok (b, true).

Definition _sendViaSpecificPath (peer viaPath userSpecifiedMtu : Z) (packet : Buffer) (encrypt : bool) (flowId : Z) : step W Buffer :=
  info ← ask (fun w => getOutboundPathInfo w viaPath);
  let '(mtu, trustedPathId) := default (ZT_DEFAULT_PHYSMTU, 0) info in
  let mtu := if 0 <? userSpecifiedMtu then userSpecifiedMtu else mtu in
  let chunkSize := Z.min (size packet) mtu in
  packet ← lift (setFragmented packet (chunkSize <? size packet));
  k ← ask (fun w => peer_keys w peer);
  '(packet, armored) ← lift (prepare k trustedPathId packet encrypt);
  pid ← lift (packetId packet);
  _ ← when armored (tell (fun w => expectReply w pid));
  _ ← tell (fun w => recordOutgoingPacket w peer viaPath packet flowId now);
  sent ← run (fun w => path_send w viaPath (take (Z.to_nat chunkSize) (data packet)) now);
  _ ← when (sent && (chunkSize <? size packet))
        (let remaining := size packet - chunkSize in
         let room := u32 (mtu - ZT_PROTO_MIN_FRAGMENT_LENGTH) in
         if room =? 0 then blocked
         else
           let fragsRemaining := remaining / room in
           let fragsRemaining := if u32 (fragsRemaining * room) <? remaining then fragsRemaining + 1 else fragsRemaining in
           send_fragments viaPath packet mtu (Z.to_nat fragsRemaining) 1 (fragsRemaining + 1) chunkSize remaining);
  mret packet.

Fixpoint send_via_all (peer : Z) (paths : list Z) (packet : Buffer) (encrypt : bool) (flowId : Z) : step W Buffer :=
  match paths with
  | [] => mret packet
  | p :: paths =>
      mtu ← ask (fun w => path_mtu w p);
      packet ← _sendViaSpecificPath peer p mtu packet encrypt flowId;
      send_via_all peer paths packet encrypt flowId
  end.

(** Along the best path to the peer, to a relay, or the best one that expired. *)
Definition choose_path (destination nwid flowId : Z) : step W (option Z) :=
  p ← ask (fun w => getAppropriatePath w destination now false flowId);
  match p with
  | Some p => mret (Some p)
  | None =>
      _ ← tell (fun w => tryMemorizedPath w destination now);
      relay ← ask (fun w => match getUpstreamPeer w nwid with Some u => getAppropriatePath w u now false flowId | None => None end);
      match relay with Some p => mret (Some p) | None => ask (fun w => getAppropriatePath w destination now true flowId) end
  end.

(** The packet afterwards when it was sent. *)
Definition _trySend (packet : Buffer) (encrypt : bool) (nwid flowId : Z) : step W (option Buffer) :=
  destination ← lift (Packet.destination packet);
  known ← run (fun w => getPeer w destination);
  if (known : bool) then
    v ← lift (verb packet);
    bc ← ask (fun w => broadcasts w destination);
    if bc && ((v =? VERB_FRAME) || (v =? VERB_EXT_FRAME)) then
      paths ← ask (fun w => alive_paths w destination now);
      p ← send_via_all destination paths packet encrypt flowId;
      mret (Some p)
    else
      viaPath ← choose_path destination nwid flowId;
      match viaPath with
      | Some p =>
          mtu ← ask (fun w => path_mtu w p);
          packet ← _sendViaSpecificPath destination p mtu packet encrypt flowId;
          mret (Some packet)
      | None => mret None
      end
  else mret None.

Definition enqueue (e : TXQueueEntry) : step W () :=
  modify (fun s => set_tx s ((if ZT_TX_QUEUE_SIZE <=? zlen (_txQueue s) then tail (_txQueue s) else _txQueue s) ++ [e])).

(** Whether it is time to ask for the address again; if so that is noted. *)
Definition whois_due (addr : Z) : step W bool := fun s =>
  let last := default 0 (_lastSentWhoisRequest (sw s) !! addr) in
  if now - last <? ZT_WHOIS_RETRY_DELAY then Done (mkState (set_whois (sw s) (<[addr := last]> (_lastSentWhoisRequest (sw s)))) (world s)) false
  else Done (mkState (set_whois (sw s) (<[addr := now]> (_lastSentWhoisRequest (sw s)))) (world s)) true.

(** [requestWhois], with [send_] for the packet to an upstream. *)
Definition request_whois (send_ : Buffer -> bool -> Z -> Z -> step W ()) (addr : Z) : step W () :=
  if addr =? self then mret ()
  else
    due ← whois_due addr;
    if (due : bool) then
      upstream ← ask (fun w => getUpstreamPeer w 0);
      match upstream with
      | Some u =>
          '(m, iv) ← run fresh;
          outp ← lift (Packet m iv u self VERB_WHOIS);
          outp ← lift (Address.appendTo outp addr);
          send_ outp true 0 NO_FLOW
      | None => mret ()
      end
    else mret ().

(** [send] asks for the identity of a recipient it does not know, with a packet to an upstream that is sent in the same way: [fuel] bounds how often. *)
Fixpoint send (fuel : nat) (packet : Buffer) (encrypt : bool) (nwid flowId : Z) : step W () :=
  match fuel with
  | O => blocked
  | S fuel =>
      dest ← lift (Packet.destination packet);
      if dest =? self then mret ()
      else
        sent ← _trySend packet encrypt nwid flowId;
        match sent with
        | Some _ => mret ()
        | None =>
            _ ← enqueue (mkTX dest nwid now packet encrypt flowId);
            known ← run (fun w => getPeer w dest);
            if (known : bool) then mret () else request_whois (send fuel) dest
        end
  end.
(** Two levels are enough: an upstream is known ([send_level]). *)
Definition send_packet := send 2.
Definition requestWhois (addr : Z) : step W () := request_whois (send 2) addr.

(** ** Waiting packets *)

(** Decodes an entry again; whether it is still waiting. *)
Definition retry (i : nat) : step W bool :=
  e ← entry i;
  '(p, done) ← tryDecode (frag0 e) (flow e);
  _ ← update i (fun e => set_frag0 e p);
  if (done : bool) || (ZT_RECEIVE_QUEUE_TIMEOUT <? now - timestamp e) then _ ← update i set_free; mret false
  else mret true.

Definition try_entry (waiting : nat -> step W ()) (i : nat) : step W () :=
  with_lock i
    (e ← entry i;
     if negb (timestamp e =? 0) && complete e then w ← retry i; when w (waiting i) else mret ()).

(** Goes through the transmit queue from position [i] on: tries what [tries] says; [stay] says of what was not sent whether it stays, and for whom to ask. *)
Fixpoint try_queue (tries : TXQueueEntry -> bool) (nwid_of : TXQueueEntry -> Z) (stay : TXQueueEntry -> step W (bool * list Z)) (n i : nat) : step W (list Z) :=
  match n with
  | O => mret []
  | S n =>
      q ← gets _txQueue;
      match q !! i with
      | None => mret []
      | Some e =>
          sent ← (if tries e then _trySend (tx_packet e) (tx_encrypt e) (nwid_of e) (tx_flowId e) else mret None);
          '(keep, needWhois) ← (match sent with Some _ => mret (false, []) | None => stay e end);
          _ ← when (negb keep) (modify (fun s => set_tx s (delete i (_txQueue s))));
          more ← try_queue tries nwid_of stay n (if (keep : bool) then S i else i);
          mret (needWhois ++ more)
      end
  end.

Definition doAnythingWaitingForPeer (peer : Z) : step W () :=
  _ ← modify (fun s => set_whois s (delete peer (_lastSentWhoisRequest s)));
  _ ← for_each (seq 0 (Z.to_nat ZT_RX_QUEUE_SIZE)) (try_entry (fun _ => mret ()));
  q ← gets _txQueue;
  _ ← try_queue (fun e => tx_dest e =? peer) tx_nwid (fun _ => mret (true, [])) (length q) 0;
  mret ().

(** A packet stays for five seconds; while its recipient is unknown, it is asked for. *)
Definition timer_stay (e : TXQueueEntry) : step W (bool * list Z) :=
  if ZT_TRANSMIT_QUEUE_TIMEOUT <? u64 (now - tx_creationTime e) then mret (false, [])
  else known ← run (fun w => getPeer w (tx_dest e)); mret (true, if (known : bool) then [] else [tx_dest e]).
Definition ask_source (i : nat) : step W () :=
  e ← entry i;
  src ← lift (source (_buffer (frag0 e)));
  known ← run (fun w => getPeer w src);
  when (negb known) (requestWhois src).

(** The retries; how long until the next ones. *)
Definition doTimerTasks : step W Z :=
  last ← gets _lastCheckedQueues;
  let timeSinceLastCheck := u64 (now - last) in
  if timeSinceLastCheck <? ZT_WHOIS_RETRY_DELAY then mret (ZT_WHOIS_RETRY_DELAY - timeSinceLastCheck)
  else
    _ ← modify (fun s => set_checked s now);
    q ← gets _txQueue;
    needWhois ← try_queue (fun _ => true) (fun _ => 0) timer_stay (length q) 0;
    _ ← for_each needWhois requestWhois;
    _ ← for_each (seq 0 (Z.to_nat ZT_RX_QUEUE_SIZE)) (try_entry ask_source);
    _ ← modify (fun s => set_unite s (filter (fun kv => u64 (now - kv.2) < ZT_MIN_UNITE_INTERVAL * 8) (_lastUniteAttempt s)));
    _ ← modify (fun s => set_whois s (filter (fun kv => now - kv.2 <= ZT_WHOIS_RETRY_DELAY * 2) (_lastSentWhoisRequest s)));
    mret ZT_WHOIS_RETRY_DELAY.
End Switch.
