(* ===== verification/SwitchInv.v ===== *)
(** * The receive queue of the switch stays well-formed

    Whatever arrives and whatever is decoded: the queue has its 32 entries with buffers of their capacity, no lock stays taken, and what arrives touches one entry. *)

From S2P Require Import Prelude Buffer Address Identity Packet Switch.
Import Packet.

Definition packet_ok (b : Buffer) : Prop := buf_ok b /\ capacity b = ZT_PROTO_MAX_PACKET_LENGTH.
Record entry_ok (e : RXQueueEntry) : Prop := {
  eo_head : packet_ok (_buffer (frag0 e));
  eo_length : length (frags e) = 6%nat;
  eo_frags : Forall packet_ok (frags e);
  eo_total : 0 <= total e <= 7;
}.
(** [except]: the entry whose lock is held. *)
Definition queue_ok (except : option nat) (q : list RXQueueEntry) : Prop :=
  length q = 32%nat /\ forall i e, q !! i = Some e -> entry_ok e /\ (Some i <> except -> locked e = false).
Definition rx_ok (except : option nat) (s : Switch) : Prop := queue_ok except (_rxQueue s).

(** The position the pointer stands for. *)
Definition rx_pos (s : Switch) : Z := u32 (_rxQueuePtr s) mod 32.

(** What decoding may do to an entry: complete ones are tried and freed. *)
Definition entry_calls (e e' : RXQueueEntry) : Prop :=
  e' = e \/ (complete e = true /\ complete e' = true /\ entry_id e' = entry_id e /\ locked e' = locked e).
(** What may happen to the entry [i] while its lock is held: [pid] does not come up. *)
Definition entry_touched (pid : Z) (e e' : RXQueueEntry) : Prop := locked e' = locked e /\ (entry_id e' = pid -> entry_id e = pid).
Record touched (pid : Z) (i : option nat) (s s' : Switch) : Prop := {
  to_ptr : _rxQueuePtr s' = _rxQueuePtr s;
  to_entry : forall j e', _rxQueue s' !! j = Some e' -> exists e, _rxQueue s !! j = Some e /\ if decide (Some j = i) then entry_touched pid e e' else entry_calls e e';
}.

#[export] Instance entry_calls_preorder : PreOrder entry_calls.
Proof. split; [by left|]. intros e1 e2 e3 [->|(?&?&?&?)] [->|(?&?&?&?)]; [by left|right..]; split_and!; congruence. Qed.
#[export] Instance entry_touched_preorder pid : PreOrder (entry_touched pid).
Proof. split; [by split|]. intros e1 e2 e3 [? ?] [? ?]. split; [congruence|auto]. Qed.
#[export] Instance touched_preorder pid i : PreOrder (touched pid i).
Proof.
  split.
  - intros s. split; [done|]. intros j e' ->. exists e'. split; [done|]. case_decide; reflexivity.
  - intros s1 s2 s3 [P1 E1] [P2 E2]. split; [congruence|]. intros j e3 H3. destruct (E2 j e3 H3) as (e2 & H2 & R2). destruct (E1 j e2 H2) as (e1 & H1 & R1). exists e1. split; [done|].
    case_decide; by etrans.
Qed.

(** ** Steps that end well

    [U] says whether a step may block for ever. *)
Section wp.
Context {W : Type} (U : Prop).

Definition post {A} (m : step W A) (s : State W) (P : State W -> A -> Prop) (Q : State W -> Prop) : Prop :=
  match m s with Done s' a => P s' a | Threw s' _ => Q s' | Undefined => U end.

(** [m] keeps the queue well-formed and touches at most the entry [i], whose lock is held when there is one. *)
Definition sound {A} (pid : Z) (i : option nat) (m : step W A) (V : A -> Prop) : Prop :=
  forall s, rx_ok i (sw s) -> post m s (fun s' a => rx_ok i (sw s') /\ touched pid i (sw s) (sw s') /\ V a) (fun s' => rx_ok i (sw s') /\ touched pid i (sw s) (sw s')).

Context (pid : Z) (i : option nat).

Lemma sound_bind {A B} (m : step W A) (f : A -> step W B) V V' : sound pid i m V -> (forall a, V a -> sound pid i (f a) V') -> sound pid i (m ≫= f) V'.
Proof.
  intros Hm Hf s Hs. specialize (Hm s Hs). unfold post, mbind, step_bind in *. destruct (m s) as [s1 a|s1 e|]; [|done|done]. destruct Hm as (Hs1 & Ht1 & Hv).
  specialize (Hf a Hv s1 Hs1). unfold post in Hf. destruct (f a s1) as [s2 b|s2 e|]; [|destruct Hf; split; [done|by etrans]|done]. destruct Hf as (? & ? & ?). split_and!; [done|by etrans|done].
Qed.
Lemma sound_ret {A} (a : A) (V : A -> Prop) : V a -> sound pid i (mret a) V.
Proof. intros Hv s Hs. by split_and!. Qed.
Lemma sound_weaken {A} (m : step W A) (V V' : A -> Prop) : sound pid i m V -> (forall a, V a -> V' a) -> sound pid i m V'.
Proof. intros Hm Hv s Hs. specialize (Hm s Hs). unfold post in *. destruct (m s); [|done|done]. destruct Hm as (? & ? & ?). split_and!; auto. Qed.
Lemma sound_lift {A} (m : outcome A) (V : A -> Prop) : returns V m -> sound pid i (lift m) V.
Proof. intros Hm s Hs. unfold post, lift. destruct m; [by split_and!|done|done]. Qed.
Lemma sound_gets {A} (f : Switch -> A) (V : A -> Prop) : (forall s, V (f s)) -> sound pid i (gets f) V.
Proof. intros Hv s Hs. by split_and!. Qed.
Lemma sound_ask {A} (f : W -> A) : sound pid i (ask f) (fun _ => True).
Proof. intros s Hs. by split_and!. Qed.
Lemma sound_tell (f : W -> W) : sound pid i (tell f) (fun _ => True).
Proof. intros s Hs. by split_and!. Qed.
Lemma sound_run {A} (f : W -> W * A) : sound pid i (run f) (fun _ => True).
Proof. intros s Hs. unfold post, run. destruct (f _). by split_and!. Qed.
Lemma sound_when (c : bool) (m : step W ()) (V : () -> Prop) : V () -> (c = true -> sound pid i m V) -> sound pid i (when c m) V.
Proof. destruct c; [auto|]. intros ? _. by apply sound_ret. Qed.
Lemma sound_if {A} (c : bool) (m1 m2 : step W A) V : (c = true -> sound pid i m1 V) -> (c = false -> sound pid i m2 V) -> sound pid i (if c then m1 else m2) V.
Proof. destruct c; auto. Qed.
Lemma sound_for_each {X} (l : list X) (f : X -> step W ()) : (forall x, x ∈ l -> sound pid i (f x) (fun _ => True)) -> sound pid i (for_each l f) (fun _ => True).
Proof.
  intros Hf. induction l as [|x l IH]; cbn [for_each]; [by apply sound_ret|]. eapply sound_bind; [apply Hf; by left|]. intros _ _. apply IH. intros y Hy. apply Hf. by right.
Qed.
(** Changes of the switch outside the queue. *)
Lemma sound_modify (f : Switch -> Switch) : (forall s, _rxQueue (f s) = _rxQueue s /\ _rxQueuePtr (f s) = _rxQueuePtr s) -> sound pid i (modify f) (fun _ => True).
Proof.
  intros Hf s Hs. unfold post, modify. cbn [sw]. destruct (Hf (sw s)) as [E1 E2]. unfold rx_ok. rewrite E1. split_and!; [done| |done]. split; [done|]. rewrite E1. intros j e' ->. exists e'. split; [done|]. case_decide; reflexivity.
Qed.
Lemma sound_entry (j : nat) : (j < 32)%nat -> sound pid i (entry j) entry_ok.
Proof.
  intros Hj s [Hl Hs]. unfold post, entry. destruct (lookup_lt_is_Some_2 (_rxQueue (sw s)) j) as [e E]; [lia|]. rewrite E. split_and!; [by split|reflexivity|by apply (Hs j)].
Qed.

(** While the lock of [i] is held. *)
Lemma sound_update (j : nat) (f : RXQueueEntry -> RXQueueEntry) : i = Some j -> (forall e, entry_ok e -> entry_ok (f e) /\ entry_touched pid e (f e)) -> sound pid i (update j f) (fun _ => True).
Proof.
  intros Hi Hf s [Hl Hs]. unfold post, update, modify. cbn [sw]. split; [|split; [|done]].
  - split; cbn [_rxQueue set_rx]; [by rewrite length_alter|]. intros k e Hk. destruct (decide (k = j)) as [->|Hne].
    + rewrite list_lookup_alter_eq in Hk. apply fmap_Some in Hk as (e0 & E0 & ->). destruct (Hs j e0 E0) as [Ho _]. split; [by apply Hf|]. by rewrite Hi.
    + rewrite list_lookup_alter_ne in Hk by done. by apply Hs.
  - split; cbn [_rxQueue set_rx _rxQueuePtr]; [done|]. intros k e Hk. destruct (decide (k = j)) as [->|Hne].
    + rewrite list_lookup_alter_eq in Hk. apply fmap_Some in Hk as (e0 & E0 & ->). exists e0. split; [done|]. rewrite decide_True by done. apply Hf. by apply (Hs j).
    + rewrite list_lookup_alter_ne in Hk by done. exists e. split; [done|]. rewrite decide_False by (rewrite Hi; congruence). reflexivity.
Qed.

(** Afterwards only the entry of the lock was touched. *)
Lemma sound_with_lock (j : nat) (m : step W ()) : (j < 32)%nat -> sound pid (Some j) m (fun _ => True) ->
  forall s, rx_ok None (sw s) -> post (with_lock j m) s (fun s' _ => rx_ok None (sw s') /\ touched pid (Some j) (sw s) (sw s')) (fun s' => rx_ok None (sw s') /\ touched pid (Some j) (sw s) (sw s')).
Proof.
  intros Hj Hm s [Hl Hs]. unfold post, with_lock. unfold mbind, step_bind, entry. destruct (lookup_lt_is_Some_2 (_rxQueue (sw s)) j) as [e E]; [lia|]. rewrite E.
  destruct (Hs j e E) as [He Hlk]. rewrite Hlk by done. unfold update at 1, modify at 1. set (s1 := mkState _ (world s)).
  assert (rx_ok (Some j) (sw s1)) as H1.
  { split; cbn [_rxQueue set_rx sw s1]; [by rewrite length_alter|]. intros k e' Hk. destruct (decide (k = j)) as [->|Hne].
    - rewrite list_lookup_alter_eq in Hk. apply fmap_Some in Hk as (e0 & E0 & ->). rewrite E in E0. injection E0 as <-. split; [|done]. by destruct He.
    - rewrite list_lookup_alter_ne in Hk by done. destruct (Hs k e' Hk). split; [done|auto]. }
  specialize (Hm s1 H1). unfold post in Hm. unfold unlocking.
  assert (forall s2 : State W, rx_ok (Some j) (sw s2) /\ touched pid (Some j) (sw s1) (sw s2) ->
    let s3 := set_rx (sw s2) (alter (fun e => set_locked e false) j (_rxQueue (sw s2))) (_rxQueuePtr (sw s2)) in rx_ok None s3 /\ touched pid (Some j) (sw s) s3) as Hend.
  { intros s2 [[Hl2 Hs2] [Hp Ht]]. cbn zeta. split.
    - split; cbn [_rxQueue set_rx]; [by rewrite length_alter|]. intros k e' Hk. destruct (decide (k = j)) as [->|Hne].
      + rewrite list_lookup_alter_eq in Hk. apply fmap_Some in Hk as (e0 & E0 & ->). destruct (Hs2 j e0 E0) as [[] _]. split; [by split|done].
      + rewrite list_lookup_alter_ne in Hk by done. destruct (Hs2 k e' Hk). split; [done|]. intros _. auto with congruence.
    - split; cbn [_rxQueue set_rx _rxQueuePtr]; [by rewrite Hp|]. intros k e' Hk. destruct (decide (k = j)) as [->|Hne].
      + rewrite list_lookup_alter_eq in Hk. apply fmap_Some in Hk as (e0 & E0 & ->). destruct (Ht j e0 E0) as (e1 & E1 & R1). rewrite decide_True in R1 by done. cbn [sw s1 _rxQueue set_rx] in E1.
        rewrite list_lookup_alter_eq, E in E1. injection E1 as <-. exists e. split; [done|]. rewrite decide_True by done. destruct R1 as [_ R1]. split; [cbn; by rewrite Hlk|exact R1].
      + rewrite list_lookup_alter_ne in Hk by done. destruct (Ht k e' Hk) as (e1 & E1 & R1). cbn [sw s1 _rxQueue set_rx] in E1. rewrite list_lookup_alter_ne in E1 by done. by exists e1. }
  destruct (m s1) as [s2 a|s2 x|]; [| |done]; unfold update, modify; cbn [sw]; apply Hend; [easy|done].
Qed.
End wp.

(** ** What decoding promises *)

(** Decoding touches complete entries only; a packet that has to wait keeps its ID. [U]: whether it may block. *)
Class DecoderLaws (U : Prop) (W : Type) `{!Decoder W} : Prop :=
  decode_sound : forall pid i p fl, packet_ok (_buffer p) ->
    sound U pid i (tryDecode p fl) (fun r => packet_ok (_buffer r.1) /\ (r.2 = false -> take 8 (data (_buffer r.1)) = take 8 (data (_buffer p)))).

(** From [s] to [s'] at most [n] entries were taken, none for [pid], and what is incomplete of [pid] is still there unless its entry was taken. *)
Definition keeps (pid n : Z) (s s' : Switch) : Prop :=
  exists k, 0 <= k <= n /\ rx_pos s' = (rx_pos s + k) mod 32 /\
    (forall j e, _rxQueue s !! j = Some e -> entry_id e = pid -> complete e = false -> (forall m, 0 <= m < k -> Z.of_nat j <> (rx_pos s + m) mod 32) -> _rxQueue s' !! j = Some e) /\
    (forall j e', _rxQueue s' !! j = Some e' -> entry_id e' = pid -> exists e, _rxQueue s !! j = Some e /\ entry_id e = pid).

Lemma rx_pos_range s : 0 <= rx_pos s < 32.
Proof. apply Z.mod_pos_bound. lia. Qed.

Lemma keeps_trans pid n1 n2 s1 s2 s3 : keeps pid n1 s1 s2 -> keeps pid n2 s2 s3 -> keeps pid (n1 + n2) s1 s3.
Proof.
  intros (k1 & Hk1 & P1 & M1 & N1) (k2 & Hk2 & P2 & M2 & N2). exists (k1 + k2). split; [lia|]. split; [rewrite P2, P1, Zplus_mod_idemp_l; f_equal; lia|]. split.
  - intros j e He Hid Hc Hm. apply (M2 j e); [apply (M1 j e); [done..|]; intros m Hm1; apply Hm; lia|done|done|]. intros m Hm2. rewrite P1, Zplus_mod_idemp_l. replace (rx_pos s1 + k1 + m) with (rx_pos s1 + (k1 + m)) by lia. apply Hm. lia.
  - intros j e3 H3 Hid. destruct (N2 j e3 H3 Hid) as (e2 & H2 & Hid2). by apply (N1 j e2).
Qed.
Lemma keeps_le pid n n' s s' : n <= n' -> keeps pid n s s' -> keeps pid n' s s'.
Proof. intros Hn (k & Hk & ?). exists k. split; [lia|done]. Qed.
Lemma keeps_refl pid n s : 0 <= n -> keeps pid n s s.
Proof. intros Hn. exists 0. split; [lia|]. split; [pose proof (rx_pos_range s); rewrite Z.add_0_r, Z.mod_small by lia; done|]. split; [done|]. intros j e' He Hid. by exists e'. Qed.

Lemma rx_pos_next s q : rx_pos (set_rx s q (s32 (_rxQueuePtr s + 1))) = (rx_pos s + 1) mod 32.
Proof. unfold rx_pos. cbn [_rxQueuePtr set_rx]. unfold_words. Z.div_mod_to_equations. lia. Qed.

(** What touched one entry kept the others; an entry that was taken counts, one of another packet does not. *)
Lemma touched_keeps pid (i : option nat) s s' : touched pid i s s' -> (forall j e, i = Some j -> _rxQueue s !! j = Some e -> entry_id e <> pid) -> length (_rxQueue s') = length (_rxQueue s) -> keeps pid 0 s s'.
Proof.
  intros [Hp Ht] Hi Hl. exists 0. split; [lia|]. split; [unfold rx_pos; rewrite Hp, Z.add_0_r, Zmod_mod; done|]. split.
  - intros j e He Hid Hc _. destruct (lookup_lt_is_Some_2 (_rxQueue s') j) as [e' He']; [rewrite Hl; by eapply lookup_lt_Some|]. destruct (Ht j e' He') as (e0 & E0 & R). rewrite He in E0. injection E0 as <-.
    case_decide as Ej; [exfalso; by eapply Hi|]. destruct R as [->|(Hc' & _)]; [done|congruence].
  - intros j e' He' Hid. destruct (Ht j e' He') as (e & E & R). exists e. split; [done|]. case_decide; [by apply R|]. destruct R as [->|(_ & _ & Hid' & _)]; congruence.
Qed.
Lemma taken_keeps pid s s' (s1 := set_rx s (_rxQueue s) (s32 (_rxQueuePtr s + 1))) : length (_rxQueue s') = length (_rxQueue s) -> touched pid (Some (Z.to_nat (rx_pos s))) s1 s' -> keeps pid 1 s s'.
Proof.
  intros Hl [Hp Ht]. exists 1. split; [lia|]. split; [transitivity (rx_pos s1); [unfold rx_pos; by rewrite Hp|apply rx_pos_next]|]. pose proof (rx_pos_range s). split.
  - intros j e He Hid Hc Hm. specialize (Hm 0 ltac:(lia)). rewrite Z.add_0_r, Z.mod_small in Hm by lia. destruct (lookup_lt_is_Some_2 (_rxQueue s') j) as [e' He']; [rewrite Hl; by eapply lookup_lt_Some|].
    destruct (Ht j e' He') as (e0 & E0 & R). cbn in E0. rewrite He in E0. injection E0 as <-. rewrite decide_False in R by (intros [= E]; lia). destruct R as [->|(Hc' & _)]; [done|congruence].
  - intros j e' He' Hid. destruct (Ht j e' He') as (e & E & R). exists e. split; [done|]. case_decide; [by apply R|]. destruct R as [->|(_ & _ & Hid' & _)]; congruence.
Qed.

(** What the rest of the node promises: a peer can be introduced to any other. *)
Class Introductions (W : Type) `{Surroundings W} : Prop := introduce_returns w a t b : a <> b -> is_Some (introduce w a t b).

(** A datagram that names one other node as its source and its destination. *)
Definition loops (self : Z) (d : list Z) : Prop := exists a, a <> self /\ addr_at d 8 = Ok a /\ addr_at d 13 = Ok a.

(** ** Finding an entry *)

Definition matches (pid : Z) (e : RXQueueEntry) : bool := (entry_id e =? pid) && negb (timestamp e =? 0).

Lemma find_slot_spec q pid cur : length q = 32%nat -> forall n k, match find_slot q pid cur k n with
  | Some i => (i < 32)%nat /\ exists e, q !! i = Some e /\ matches pid e = true
  | None => forall m e, (k <= m < k + n)%nat -> q !! Z.to_nat (u32 (cur - Z.of_nat m) mod 32) = Some e -> matches pid e = false
  end.
Proof.
  intros Hl. induction n as [|n IH]; intros k; cbn [find_slot]; [intros; lia|]. change ZT_RX_QUEUE_SIZE with 32. set (i := Z.to_nat (u32 (cur - Z.of_nat k) mod 32)).
  assert (i < 32)%nat as Hi by (unfold i; pose proof (Z.mod_pos_bound (u32 (cur - Z.of_nat k)) 32 ltac:(lia)); lia). destruct (lookup_lt_is_Some_2 q i) as [e E]; [lia|]. rewrite E. fold (matches pid e).
  destruct (matches pid e) eqn:Em; [by eauto|]. specialize (IH (S k)). destruct (find_slot _ _ _ _ n) as [j|]; [done|]. intros m e' Hm Ee. destruct (decide (m = k)) as [->|]; [fold i in Ee; congruence|].
  apply (IH m e'); [lia|done].
Qed.

(** All entries are looked at. *)
Lemma slot_reached (p : Z) (j : nat) : (j < 32)%nat -> exists m, (1 <= m < 33)%nat /\ j = Z.to_nat (u32 (u32 p - Z.of_nat m) mod 32).
Proof.
  intros Hj. exists (Z.to_nat ((p - Z.of_nat j - 1) mod 32 + 1)). pose proof (Z.mod_pos_bound (p - Z.of_nat j - 1) 32 ltac:(lia)). split; [lia|]. rewrite Z2Nat.id by lia. unfold_words. apply Nat2Z.inj. rewrite Z2Nat.id by (apply Z.mod_pos_bound; lia). Z.div_mod_to_equations. lia.
Qed.

Lemma find_entry {W} pid (s : State W) : length (_rxQueue (sw s)) = 32%nat ->
  (exists i e, _findRXQueueEntry pid s = Done s i /\ (i < 32)%nat /\ _rxQueue (sw s) !! i = Some e /\ matches pid e = true) \/
  (_findRXQueueEntry pid s = Done (mkState (set_rx (sw s) (_rxQueue (sw s)) (s32 (_rxQueuePtr (sw s) + 1))) (world s)) (Z.to_nat (rx_pos (sw s))) /\
   forall j e, _rxQueue (sw s) !! j = Some e -> matches pid e = false).
Proof.
  intros Hl. unfold _findRXQueueEntry. pose proof (find_slot_spec (_rxQueue (sw s)) pid (u32 (_rxQueuePtr (sw s))) Hl (Z.to_nat ZT_RX_QUEUE_SIZE) 1) as Hf. destruct (find_slot _ _ _ _ _) as [i|].
  - left. destruct Hf as (Hi & e & E & Em). exists i, e. by split_and!.
  - right. split; [done|]. intros j e E. destruct (slot_reached (_rxQueuePtr (sw s)) j) as (m & Hm & ->); [rewrite <- Hl; by eapply lookup_lt_Some|]. by apply (Hf m e).
Qed.

Lemma copy_ok b d : packet_ok b -> bytes_ok d -> returns (fun r => packet_ok r /\ data r = d) (copyFrom b d).
Proof.
  intros [[Hs Hc Hb] Hcap] Hd. unfold copyFrom. eapply returns_bind; [apply returns_throw_if|]. intros _ Hle%Z.ltb_ge. destruct (mem_write_spec (_b b) 0 d) as (m & -> & Hok & Hl & Htake); [done|done|lia|unfold capacity in *; lia|].
  cbn. split; [|unfold data; cbn [_b _l]; rewrite Z.add_0_l in Htake; exact Htake]. pose proof (zlen_nonneg d). unfold packet_ok, capacity in *. cbn [_b]. split; [|lia]. split; unfold capacity; cbn [_b _l]; try done; lia.
Qed.
Lemma copy_Ok b x : packet_ok b -> bytes_ok x -> zlen x <= ZT_PROTO_MAX_PACKET_LENGTH -> exists r, copyFrom b x = Ok r /\ packet_ok r /\ data r = x.
Proof.
  intros Hb Hx Hz. pose proof (copy_ok b x Hb Hx) as Hr. unfold copyFrom in *. destruct Hb as [_ Hc].
  rewrite bind_throw_if_false in Hr |- * by (apply Z.ltb_ge; lia). unfold capacity in Hc. rewrite mem_write_Ok in Hr |- * by lia. by eexists.
Qed.

(** ** What arrives keeps what it does not belong to *)

Section arrival.
Context {W : Type} `{Surroundings W} `{!Decoder W} `{PacketCrypto} (U : Prop) `{!DecoderLaws U W}.
Context (self now : Z) (mem tmp pbuf : list Z) (Hmem : packet_ok (mkBuffer mem 0)).

Lemma touched_length (s s' : State W) k : rx_ok k (sw s) -> rx_ok k (sw s') -> length (_rxQueue (sw s')) = length (_rxQueue (sw s)).
Proof. intros [-> _] [-> _]. done. Qed.

(** A step on the entry of a packet. *)
Lemma keep_found pid id (m : nat -> step W ()) s : id <> pid -> rx_ok None (sw s) -> (forall i, (i < 32)%nat -> sound U pid (Some i) (m i) (fun _ => True)) ->
  post U (i ← _findRXQueueEntry id; with_lock i (m i)) s (fun s' _ => rx_ok None (sw s') /\ keeps pid 1 (sw s) (sw s')) (fun s' => rx_ok None (sw s') /\ keeps pid 1 (sw s) (sw s')).
Proof.
  intros Hne Hok Hm. unfold post, mbind, step_bind. destruct (find_entry id s) as [(i & e & -> & Hi & E & Em)|[-> _]]; [by destruct Hok|..].
  - pose proof (sound_with_lock U pid i (m i) Hi (Hm i Hi) s Hok) as Hp. unfold post in *. apply andb_true_iff in Em as [Em _]. apply Z.eqb_eq in Em.
    assert (forall s' : State W, rx_ok None (sw s') /\ touched pid (Some i) (sw s) (sw s') -> rx_ok None (sw s') /\ keeps pid 1 (sw s) (sw s')) as Hend.
    { intros s' [Hs' Ht]. split; [done|]. apply (keeps_le _ 0); [lia|]. eapply touched_keeps; [done| |by eapply touched_length]. intros j e' [= <-] E'. rewrite E in E'. injection E' as <-. congruence. }
    destruct (with_lock i (m i) s); auto.
  - set (s1 := mkState _ _). assert (Z.to_nat (rx_pos (sw s)) < 32)%nat as Hi by (pose proof (rx_pos_range (sw s)); lia).
    pose proof (sound_with_lock U pid _ (m _) Hi (Hm _ Hi) s1 Hok) as Hp. unfold post in *.
    assert (forall s' : State W, rx_ok None (sw s') /\ touched pid (Some (Z.to_nat (rx_pos (sw s)))) (sw s1) (sw s') -> rx_ok None (sw s') /\ keeps pid 1 (sw s) (sw s')) as Hend.
    { intros s' [Hs' Ht]. split; [done|]. apply taken_keeps; [by eapply touched_length|exact Ht]. }
    destruct (with_lock _ (m _) s1); auto.
Qed.

Lemma payload_ok f : packet_ok f -> returns (fun bs => bytes_ok bs /\ zlen bs < 2 ^ 31) (fragment_payload f).
Proof.
  intros [[Hs Hc Hb] Hcap]. unfold fragment_payload. eapply returns_bind; [apply returns_throw_if|]. intros _ _. change ZT_PROTO_MAX_PACKET_LENGTH with 10024 in Hcap. unfold Fragment.payloadLength, size, capacity in *.
  change ZT_PACKET_FRAGMENT_IDX_PAYLOAD with 16. destruct (mem_read_spec (_b f) 16 (if 16 <? _l f then _l f - 16 else 0)) as (bs & -> & ? & Hz); [done|lia|case_match; lia|destruct (Z.ltb_spec 16 (_l f)); lia|]. cbn. split; [done|]. rewrite Hz. case_match; lia.
Qed.
Lemma append_ok b bs : packet_ok b -> bytes_ok bs -> zlen bs < 2 ^ 31 -> returns packet_ok (append b bs).
Proof.
  intros [Hb Hcap] Hbs Hz. pose proof (append_writes b bs Hb Hbs Hz) as Hw. unfold writes in Hw. case_decide; [|by rewrite Hw]. destruct Hw as (b' & -> & ? & _ & Hc). cbn. split; [done|congruence].
Qed.

Lemma touched_refl_id pid e e' : entry_id e' = entry_id e -> locked e' = locked e -> entry_touched pid e e'.
Proof. intros E1 E2. split; [done|congruence]. Qed.
Lemma entry_ok_head e p : entry_ok e -> packet_ok (_buffer p) -> entry_ok (set_frag0 e p).
Proof. intros [] ?. by split. Qed.
Lemma put_frag_at e k f : entry_ok e -> (1 <= k <= 6)%nat -> put_frag (frags e) (Z.of_nat k) f = Ok (<[(k - 1)%nat := f]> (frags e)).
Proof.
  intros [_ Hl _ _] Hk. unfold put_frag. cbn zeta. rewrite (u32_small (Z.of_nat k - 1)) by lia. unfold zlen. rewrite (proj2 (Z.ltb_lt _ _)) by lia. do 2 f_equal. lia.
Qed.
(** A fragment whose number is in range is stored inside the array. *)
Lemma put_frag_ok e no f : entry_ok e -> packet_ok f -> 1 <= no <= 6 -> returns (fun fs => length fs = 6%nat /\ Forall packet_ok fs) (put_frag (frags e) no f).
Proof.
  intros He Hf Hno. pose proof (put_frag_at e (Z.to_nat no) f He ltac:(lia)) as E. rewrite Z2Nat.id in E by lia. rewrite E. destruct He as [_ Hl Hfr _]. split; [by rewrite length_insert|by apply list.Forall_insert].
Qed.
Lemma entry_ok_frags e fs t : entry_ok e -> length fs = 6%nat -> Forall packet_ok fs -> 0 <= t <= 7 -> entry_ok (set_frags e fs t).
Proof. intros [] ? ? ?. by split. Qed.

Lemma sound_append_frags pid i (n : nat) : (i < 32)%nat -> forall f, (1 <= f)%nat -> (f + n <= 7)%nat -> sound U pid (Some i) (append_frags (W := W) i f n) (fun _ => True).
Proof.
  intros Hi. induction n as [|n IH]; intros f Hf Hn; cbn [append_frags]; [by apply sound_ret|].
  eapply sound_bind; [by apply sound_entry|]. intros e [Hh Hl Hfr Ht]. eapply sound_bind.
  { apply sound_lift. destruct (lookup_lt_is_Some_2 (frags e) (f - 1)%nat) as [fr E]; [lia|]. rewrite E. apply payload_ok. by apply (list.Forall_lookup_1 _ _ _ _ Hfr E). }
  intros bs [Hbs Hz]. eapply sound_bind; [by apply sound_lift, append_ok|]. intros b Hb. eapply sound_bind; [|intros _ _; apply IH; lia].
  apply sound_update; [done|]. intros e' He'. split; [by apply entry_ok_head|by apply touched_refl_id].
Qed.

Lemma sound_assemble pid i t : (i < 32)%nat -> t <= 7 -> sound U pid (Some i) (assemble (W := W) i t) (fun _ => True).
Proof.
  intros Hi Ht. unfold assemble. eapply sound_bind; [apply sound_append_frags; [done|lia|lia]|]. intros _ _. eapply sound_bind; [by apply sound_entry|]. intros e He. eapply sound_bind; [apply decode_sound, He|].
  intros [p d] [Hp _]. eapply sound_bind; [apply sound_update; [done|]; intros e' He'; split; [by apply entry_ok_head|by apply touched_refl_id]|]. intros _ _.
  apply sound_update; [done|]. intros e' []. destruct d; (split; [by split|by apply touched_refl_id]).
Qed.

Lemma sound_init_head pid i d path : (i < 32)%nat -> bytes_ok d -> sound U pid (Some i) (init_head (W := W) now i d path) (fun _ => True).
Proof.
  intros Hi Hd. unfold init_head. eapply sound_bind; [by apply sound_entry|]. intros e [He _ _ _]. eapply sound_bind; [apply sound_lift, copy_ok; done|]. intros b [Hb _].
  apply sound_update; [done|]. intros e' He'. split; [by apply entry_ok_head|by apply touched_refl_id].
Qed.

(** What is read from a fragment. *)
Lemma nibble_range fr : packet_ok fr -> returns (fun no => 0 <= no < 16) (Fragment.fragmentNumber fr) /\ returns (fun t => 0 <= t < 16) (Fragment.totalFragments fr).
Proof.
  intros [Hf _]. unfold Fragment.fragmentNumber, Fragment.totalFragments. split; (eapply returns_bind; [by apply index_returns|]; intros c [Hc _]; cbn; change 0xf with (Z.ones 4); apply land_ones_range; lia).
Qed.

(** [m] takes at most one entry, and none for [pid]. *)
Definition keeping {A} (pid : Z) (m : step W A) : Prop :=
  forall s, rx_ok None (sw s) -> post U m s (fun s' _ => rx_ok None (sw s') /\ keeps pid 1 (sw s) (sw s')) (fun s' => rx_ok None (sw s') /\ keeps pid 1 (sw s) (sw s')).

Lemma sound_keeps {A} pid (m : step W A) V s : sound U pid None m V -> rx_ok None (sw s) ->
  post U m s (fun s' a => rx_ok None (sw s') /\ keeps pid 0 (sw s) (sw s') /\ V a) (fun s' => rx_ok None (sw s') /\ keeps pid 0 (sw s) (sw s')).
Proof.
  intros Hm Hs. specialize (Hm s Hs). unfold post in *.
  assert (forall s' : State W, rx_ok None (sw s') -> touched pid None (sw s) (sw s') -> keeps pid 0 (sw s) (sw s')) as Hk by (intros s' H1 H2; eapply touched_keeps; [exact H2|done|by eapply touched_length]).
  destruct (m s); [|destruct Hm; auto|done]. destruct Hm as (? & ? & ?). auto.
Qed.
Lemma keep_bind {A B} pid (m : step W A) (f : A -> step W B) V : sound U pid None m V -> (forall a, V a -> keeping pid (f a)) -> keeping pid (m ≫= f).
Proof.
  intros Hm Hf s Hs. pose proof (sound_keeps pid m V s Hm Hs) as Hp. unfold post, mbind, step_bind in *. destruct (m s) as [s1 a|s1 e|]; [|destruct Hp; split; [done|by apply (keeps_le _ 0)]|done].
  destruct Hp as (Hs1 & Hk1 & Hv). specialize (Hf a Hv s1 Hs1). unfold post in Hf. destruct (f a s1) as [s2 b|s2 e|]; [| |done]; destruct Hf as [Hs2 Hk2]; (split; [done|]; exact (keeps_trans pid 0 1 _ _ _ Hk1 Hk2)).
Qed.
Lemma keep_sound {A} pid (m : step W A) V : sound U pid None m V -> keeping pid m.
Proof.
  intros Hm s Hs. pose proof (sound_keeps pid m V s Hm Hs) as Hp. unfold post in *. destruct (m s); [| |done]; destruct Hp as [? Hp]; (split; [done|]); apply (keeps_le _ 0); [lia|by destruct Hp|lia|done].
Qed.

Lemma keep_fragment pid fr : packet_ok fr -> Fragment.packetId fr <> Ok pid -> keeping pid (receive_fragment (W := W) now fr).
Proof.
  intros Hfr Hne. unfold receive_fragment. destruct (nibble_range fr Hfr) as [Hno Htot]. pose proof Hfr as [Hb _].
  eapply keep_bind; [apply sound_lift with (V := fun id => Fragment.packetId fr = Ok id)|].
  { unfold Fragment.packetId in *. pose proof (at_returns fr Hb 8 ZT_PACKET_FRAGMENT_IDX_PACKET_ID ltac:(done) ltac:(done)) as Hr. by destruct (at_ _ _ _). }
  intros id Eid. eapply keep_bind; [by apply sound_lift|]. intros no Hn. eapply keep_bind; [by apply sound_lift|]. intros t Ht. cbn beta in *.
  case_match eqn:Ec; [|by eapply keep_sound, sound_ret with (V := fun _ => True)]. rewrite !andb_true_iff in Ec. destruct Ec as (((E1%Z.leb_le & E2%Z.ltb_lt) & E3%Z.ltb_lt) & E4%Z.ltb_lt).
  change ZT_MAX_PACKET_FRAGMENTS with 7 in *. intros s Hs. apply keep_found; [congruence|done|]. intros i Hi. unfold store_fragment. eapply sound_bind; [by apply sound_entry|]. intros e He. apply sound_if; intros Ee.
  - eapply sound_bind; [apply sound_lift, put_frag_ok; [done|done|lia]|]. intros fs [Hl6 Hfs]. apply sound_update; [done|]. intros e' [Hh Hl Hf' Ht']. split.
    + split; cbn; [done|done|done|lia].
    + split; [done|]. cbn. congruence.
  - apply sound_if; intros Eh; [|by apply sound_ret]. eapply sound_bind; [apply sound_lift, put_frag_ok; [done|done|lia]|]. intros fs [Hl6 Hfs].
    eapply sound_bind; [apply sound_update; [done|]; intros e' He'; split; [apply entry_ok_frags; [done|done|done|lia]|by apply touched_refl_id]|]. intros _ _.
    eapply sound_bind; [apply sound_update; [done|]; intros e' []; split; [by split|by apply touched_refl_id]|]. intros _ _. apply sound_when; [done|]. intros _. by apply sound_assemble.
Qed.

Lemma keep_head pid path d : bytes_ok d -> be_int (take 8 d) <> pid -> keeping pid (receive_head (W := W) now path d).
Proof.
  intros Hd Hne s Hs. unfold receive_head. apply keep_found; [done|done|]. intros i Hi. unfold store_head. eapply sound_bind; [by apply sound_entry|]. intros e He. apply sound_if; intros Ee.
  - eapply sound_bind; [apply sound_update; [done|]; intros e' []; split; [by split|split; [done|cbn; congruence]]|]. intros _ _. eapply sound_bind; [by apply sound_init_head|]. intros _ _.
    apply sound_update; [done|]. intros e' []. split; [split; cbn; (done || lia)|by apply touched_refl_id].
  - apply sound_if; intros Eh; [|by apply sound_ret]. eapply sound_bind with (V := fun _ => True); [apply sound_when; [done|]; intros _; apply sound_update; [done|]; intros e' []; split; [by split|by apply touched_refl_id]|]. intros _ _.
    apply sound_if; intros Et; [|by apply sound_init_head]. eapply sound_bind; [by apply sound_init_head|]. intros _ _. apply sound_assemble; [done|]. apply He.
Qed.

(** The next entry is taken. *)
Lemma keep_next pid (m : nat -> step W ()) : (forall i, (i < 32)%nat -> sound U pid (Some i) (m i) (fun _ => True)) -> keeping pid (i ← _nextRXQueueEntry; with_lock i (m i)).
Proof.
  intros Hm s Hok. unfold post, mbind, step_bind, _nextRXQueueEntry. set (s1 := mkState _ _). change (Z.to_nat (u32 _ mod _)) with (Z.to_nat (rx_pos (sw s))).
  assert (Z.to_nat (rx_pos (sw s)) < 32)%nat as Hi by (pose proof (rx_pos_range (sw s)); lia).
  pose proof (sound_with_lock U pid _ (m _) Hi (Hm _ Hi) s1 Hok) as Hp. unfold post in *.
  assert (forall s' : State W, rx_ok None (sw s') /\ touched pid (Some (Z.to_nat (rx_pos (sw s)))) (sw s1) (sw s') -> rx_ok None (sw s') /\ keeps pid 1 (sw s) (sw s')) as Hend.
  { intros s' [Hs' Ht]. split; [done|]. apply taken_keeps; [by eapply touched_length|exact Ht]. }
  destruct (with_lock _ (m _) s1); auto.
Qed.
Lemma keep_whole pid path d : bytes_ok d -> be_int (take 8 d) <> pid -> keeping pid (receive_whole (W := W) now mem path d).
Proof.
  intros Hd Hne. unfold receive_whole. eapply keep_bind; [by apply sound_lift, copy_ok|]. intros b [Hb Ed]. eapply keep_bind; [by apply decode_sound|]. intros [p dn] [Hp Hid]. cbn [fst snd _buffer] in *.
  destruct dn; [by eapply keep_sound, sound_ret with (V := fun _ => True)|]. specialize (Hid eq_refl). apply keep_next. intros i Hi. pose proof Hp as [Hbp _].
  eapply sound_bind; [apply sound_lift with (V := fun id => id <> pid)|].
  - unfold packetId, at_. eapply returns_bind; [apply returns_throw_if|]. intros _ Hl%Z.ltb_ge. change ZT_PACKET_IDX_IV with 0 in *. change (u32 (0 + Z.of_nat 8)) with 8 in Hl. pose proof Hbp as [Hs Hc Hm]. unfold capacity in *.
    rewrite mem_read_Ok by lia. cbn. change (Z.to_nat 0) with 0%nat. change (Z.to_nat (Z.of_nat 8)) with 8%nat. rewrite drop_0. revert Hne. rewrite <- Ed, <- Hid. unfold data. rewrite take_take. replace (8 `min` _)%nat with 8%nat by lia. done.
  - intros id Hidn. apply sound_update; [done|]. intros e []. split; [split; cbn; (done || lia)|]. split; [done|]. cbn. congruence.
Qed.

Lemma sound_run_ {A B} pid i (f : W -> W * A) (k : A -> step W B) V : (forall a, sound U pid i (k a) V) -> sound U pid i (run f ≫= k) V.
Proof. intros Hk. eapply sound_bind; [apply sound_run|auto]. Qed.
Lemma sound_ask_ {A B} pid i (f : W -> A) (k : A -> step W B) V : (forall a, sound U pid i (k a) V) -> sound U pid i (ask f ≫= k) V.
Proof. intros Hk. eapply sound_bind; [apply sound_ask|auto]. Qed.
Lemma sound_lift_ {A B} pid i (m : outcome A) (k : A -> step W B) V : m <> Undef -> (forall a, m = Ok a -> sound U pid i (k a) V) -> sound U pid i (lift m ≫= k) V.
Proof. intros Hm Hk. eapply sound_bind; [apply sound_lift with (V := fun a => m = Ok a); by destruct m|auto]. Qed.

Lemma sound_relay_fragment pid i path fr dest : packet_ok fr -> sound U pid i (relay_fragment (W := W) now path fr dest) (fun _ => True).
Proof.
  intros [Hb _]. unfold relay_fragment. apply sound_ask_; intros up. apply sound_ask_; intros tr. apply sound_if; intros _; [by apply sound_ret|].
  apply sound_lift_; [unfold Fragment.hops; pose proof (index_returns fr Hb ZT_PACKET_FRAGMENT_IDX_HOPS ltac:(done)); by destruct (index _ _)|]. intros h Eh. apply sound_if; intros _; [|by apply sound_ret].
  apply sound_lift_.
  { unfold Fragment.incrementHops. change (index fr ZT_PACKET_FRAGMENT_IDX_HOPS) with (Fragment.hops fr). rewrite Eh. cbn [mbind outcome_bind]. unfold setIndex. destruct (throw_if _ _) as [[]| |] eqn:Et; [|done|by destruct (_l fr <=? _)].
    destruct (Z.leb_spec (_l fr) ZT_PACKET_FRAGMENT_IDX_HOPS) as [|Hlt]; [done|]. change ZT_PACKET_FRAGMENT_IDX_HOPS with 15 in *. pose proof Hb as [Hs Hc Hm]. unfold capacity in *. cbn [mbind outcome_bind].
    rewrite mem_write1 by lia. done. }
  intros fr' _. apply sound_run_; intros known. eapply sound_bind with (V := fun _ => True); [destruct known; [apply sound_run|by apply sound_ret]|]. intros sent _. apply sound_if; intros _; [by apply sound_ret|].
  apply sound_ask_; intros [u|]; [|by apply sound_ret]. apply sound_run_; intros _. by apply sound_ret.
Qed.

Lemma sound_introduce pid i r a : (forall w, introduce w r now a = None -> U) -> sound U pid i (introduce_source (W := W) now r a) (fun _ => True).
Proof.
  intros Hu. unfold introduce_source. apply sound_run_; intros known. apply sound_when; [done|]. intros _ s Hs. unfold post. pose proof (Hu (world s)). destruct (introduce _ _ _ _); [by split_and!|auto].
Qed.
Lemma sound_unite pid i a b : sound U pid i (_shouldUnite (W := W) now a b) (fun _ => True).
Proof.
  unfold _shouldUnite. intros s Hs. unfold post. cbn zeta. destruct (ZT_MIN_UNITE_INTERVAL <=? _); cbn [sw]; (split; [exact Hs|]; split; [|done]; split; [done|]; intros j e' E; exists e'; split; [exact E|]; case_decide; reflexivity).
Qed.
Lemma sound_relay_head pid i path d src dest : bytes_ok d -> (forall r w, r = dest \/ r <> src -> introduce w r now src = None -> U) -> sound U pid i (relay_head (W := W) self now mem path d src dest) (fun _ => True).
Proof.
  intros Hd Hu. unfold relay_head. apply sound_ask_; intros up. apply sound_ask_; intros tr. apply sound_if; intros _; [by apply sound_ret|].
  eapply sound_bind; [apply sound_lift, copy_ok; done|]. intros p [[Hb _] _]. apply sound_lift_; [unfold hops; pose proof (index_returns p Hb ZT_PACKET_IDX_FLAGS ltac:(done)) as Hr; by destruct (index _ _)|]. intros h Eh.
  apply sound_if; intros _; [|by apply sound_ret]. apply sound_lift_.
  { unfold incrementHops, hops in *. destruct (index p ZT_PACKET_IDX_FLAGS) as [c| |] eqn:Ei; [|done|done]. cbn [mbind outcome_bind] in *. unfold setIndex.
    destruct (Z.leb_spec (_l p) ZT_PACKET_IDX_FLAGS) as [|Hlt]; [done|]. change ZT_PACKET_IDX_FLAGS with 18 in *. pose proof Hb as [Hs Hc Hm]. unfold capacity in *. cbn [throw_if mbind outcome_bind].
    rewrite mem_write1 by lia. done. }
  intros p' _. apply sound_run_; intros known. eapply sound_bind with (V := fun _ => True); [destruct known; [apply sound_run|by apply sound_ret]|]. intros sent _. apply sound_if; intros _.
  - eapply sound_bind with (V := fun _ => True); [destruct (negb _); [apply sound_unite|by apply sound_ret]|]. intros u _. apply sound_when; [done|]. intros _. apply sound_introduce. intros w. apply Hu. by left.
  - apply sound_ask_; intros [u|]; [|by apply sound_ret]. apply sound_if; intros Eu; [|by apply sound_ret]. apply negb_true_iff, Z.eqb_neq in Eu.
    apply sound_run_; intros st. apply sound_when; [done|]. intros _. apply sound_introduce. intros w. apply Hu. by right.
Qed.

(** A datagram that is not part of the packet [pid]. *)
Lemma keep_datagram pid path d : bytes_ok d -> zlen d < 2 ^ 31 -> be_int (take 8 d) <> pid ->
  (forall src dest r w, addr_at d 8 = Ok dest -> addr_at d 13 = Ok src -> dest <> self -> r = dest \/ r <> src -> introduce w r now src = None -> U) ->
  forall s, rx_ok None (sw s) -> post U (onRemotePacket self now mem path d) s (fun s' _ => rx_ok None (sw s') /\ keeps pid 1 (sw s) (sw s')) (fun _ => False).
Proof.
  intros Hd Hz Hne Hu s Hs. unfold post, onRemotePacket. match goal with |- context [match ?m s with _ => _ end] => assert (keeping pid m) as Hk end.
  - eapply keep_bind; [apply sound_tell|]. intros _ _. assert (forall A (V : A -> Prop) a, V a -> keeping pid (mret (M := step W) a)) as Hret by (intros A V a Ha; eapply keep_sound, sound_ret with (V := V); done).
    destruct (Z.ltb_spec ZT_PROTO_MIN_FRAGMENT_LENGTH (zlen d)) as [Hl|]; [|by apply (Hret _ (fun _ => True))]. change ZT_PROTO_MIN_FRAGMENT_LENGTH with 16 in Hl.
    assert (forall i n, 0 <= i -> 0 <= n -> i + n <= zlen d -> mem_read d i n <> Undef) as Hrd by (intros; by rewrite mem_read_Ok).
    eapply keep_bind with (V := fun _ => True); [apply sound_lift; unfold byte_at; destruct (mem_read_spec d ZT_PACKET_FRAGMENT_IDX_FRAGMENT_INDICATOR 1) as (? & -> & _); [done|done|done|change ZT_PACKET_FRAGMENT_IDX_FRAGMENT_INDICATOR with 13; lia|done]|].
    intros ind _. case_match.
    + unfold on_fragment. eapply keep_bind; [by apply sound_lift, copy_ok|]. intros fr [Hfr Ed]. pose proof Hfr as [Hb _]. pose proof (zlen_data fr Hb) as Hlf. rewrite Ed in Hlf.
      eapply keep_bind with (V := fun _ => True); [apply sound_lift; unfold Fragment.destination, address_at; rewrite field_slice by (done || (change ZT_PACKET_FRAGMENT_IDX_DEST with 8; change Address.ZT_ADDRESS_LENGTH with 5; lia))|].
      * cbn [mbind outcome_bind]. rewrite Ed. unfold Address.setTo. cbn. assert (length (take 5 (drop 8 d)) = 5%nat) as Hl5 by (rewrite length_take, length_drop; unfold zlen in *; lia).
        change (Z.to_nat Address.ZT_ADDRESS_LENGTH) with 5%nat. change (Z.to_nat ZT_PACKET_FRAGMENT_IDX_DEST) with 8%nat. by destruct (take 5 (drop 8 d)) as [|? [|? [|? [|? [|? []]]]]].
      * intros dest _. case_match; [by eapply keep_sound, sound_relay_fragment|]. apply keep_fragment; [done|]. unfold Fragment.packetId.
        assert (data fr = [] ++ take 8 d ++ drop 8 d) as Hsplit by (rewrite Ed; cbn; by rewrite take_drop).
        change ZT_PACKET_FRAGMENT_IDX_PACKET_ID with (zlen (@nil Z)). rewrite (at_data fr Hb _ _ _ 8 Hsplit) by (rewrite length_take; unfold zlen in *; lia). congruence.
    + destruct (Z.leb_spec ZT_PROTO_MIN_PACKET_LENGTH (zlen d)) as [Hl28|]; [|by apply (Hret _ (fun _ => True))]. change ZT_PROTO_MIN_PACKET_LENGTH with 28 in Hl28. unfold on_head.
      assert (forall i, 0 <= i -> i + 5 <= zlen d -> returns (fun a => addr_at d i = Ok a) (addr_at d i)) as Hadd.
      { intros i Hi1 Hi2. unfold addr_at. destruct (mem_read_spec d i 5) as (bs & E & Hbs & Hzb); [done|lia|lia|lia|]. change Address.ZT_ADDRESS_LENGTH with 5. rewrite E. cbn. unfold Address.setTo. cbn.
        assert (length bs = 5%nat) by (unfold zlen in *; lia). by destruct bs as [|? [|? [|? [|? [|? []]]]]]. }
      eapply keep_bind; [apply sound_lift, Hadd; lia|]. intros dest Edest. eapply keep_bind; [apply sound_lift, Hadd; lia|]. intros src Esrc.
      case_match; [by apply (Hret _ (fun _ => True))|]. case_match eqn:Edself; [eapply keep_sound, sound_relay_head; [done|]; apply negb_true_iff, Z.eqb_neq in Edself; intros r w; by apply Hu|].
      eapply keep_bind with (V := fun _ => True); [apply sound_lift; unfold byte_at; destruct (mem_read_spec d ZT_PACKET_IDX_FLAGS 1) as (? & -> & _); [done|done|done|change ZT_PACKET_IDX_FLAGS with 18; lia|done]|].
      intros fl _. case_match; [by apply keep_head|by apply keep_whole].
  - specialize (Hk s Hs). unfold post in *. match goal with |- context [match ?m s with _ => _ end] => destruct (m s) as [s' []| |] end; done.
Qed.
End arrival.

(** ** All operations of the switch *)

Create HintDb quiet discriminated.

Section operations.
Context {W : Type} `{Surroundings W} `{!Decoder W} `{PacketCrypto} (U : Prop) `{!DecoderLaws U W} `{!Introductions W}.
Context (self now : Z) (mem tmp pbuf : list Z) (Hmem : packet_ok (mkBuffer mem 0)).
Lemma decoder_laws_weaken (U' : Prop) : (U -> U') -> DecoderLaws U' W.
Proof. intros Hu pid i p fl Hp s Hs. pose proof (decode_sound pid i p fl Hp s Hs) as Hd. unfold post in *. destruct (tryDecode p fl s); auto. Qed.
#[local] Instance decoder_laws_any : DecoderLaws True W.
Proof. by apply decoder_laws_weaken. Qed.
Abbreviation quiet pid i m := (sound (W := W) True pid i m (fun _ => True)).

Lemma quiet_lift {A B} pid i (m : outcome A) (k : A -> step W B) : (forall a, quiet pid i (k a)) -> quiet pid i (lift m ≫= k).
Proof. intros Hk s Hs. unfold post, mbind, step_bind, lift. destruct m as [a|e|]; [apply (Hk a s Hs)|by split|done]. Qed.
Lemma quiet_bind {A B} pid i (m : step W A) (k : A -> step W B) : quiet pid i m -> (forall a, quiet pid i (k a)) -> quiet pid i (m ≫= k).
Proof. intros Hm Hk. eapply sound_bind; [exact Hm|auto]. Qed.
Lemma quiet_ret {A} pid i (a : A) : quiet pid i (mret a).
Proof. by apply sound_ret. Qed.
Lemma quiet_run {A} pid i (f : W -> W * A) : quiet pid i (run f).
Proof. apply sound_run. Qed.
Lemma quiet_ask {A} pid i (f : W -> A) : quiet pid i (ask f).
Proof. apply sound_ask. Qed.
Lemma quiet_tell pid i (f : W -> W) : quiet pid i (tell f).
Proof. apply sound_tell. Qed.
Lemma quiet_gets {A} pid i (f : Switch -> A) : quiet pid i (gets f).
Proof. by apply sound_gets. Qed.
Lemma quiet_tx pid i (f : Switch -> list TXQueueEntry) : quiet pid i (modify (fun s => set_tx s (f s))).
Proof. by apply sound_modify. Qed.
Hint Resolve quiet_ret quiet_run quiet_ask quiet_tell quiet_gets quiet_tx : quiet.

Ltac quiet_steps :=
  repeat match goal with
  | |- sound _ _ _ (lift _ ≫= _) _ => apply quiet_lift; intros ?
  | |- sound _ _ _ (_ ≫= _) _ => apply quiet_bind; [|intros ?]
  | |- sound _ _ _ (when _ _) _ => apply sound_when; [done|intros _]
  | |- sound _ _ _ (if ?c then _ else _) _ => apply sound_if; intros _
  | |- sound _ _ _ (let '(_, _) := ?x in _) _ => destruct x
  | |- sound _ _ _ (match ?x with _ => _ end) _ => destruct x
  | |- sound _ _ _ blocked _ => intros ? ?; exact I
  | |- sound _ _ _ _ _ => solve [eauto with quiet]
  end.

Lemma quiet_fragments pid i path p mtu n : forall no t st r, quiet pid i (send_fragments now mem path p mtu n no t st r).
Proof. induction n as [|n IH]; intros no t st r; cbn [send_fragments]; quiet_steps. Qed.
Hint Resolve quiet_fragments : quiet.
Lemma quiet_via pid i peer path u p e f : quiet pid i (_sendViaSpecificPath now mem tmp pbuf peer path u p e f).
Proof. unfold _sendViaSpecificPath. cbn zeta. quiet_steps. Qed.
Hint Resolve quiet_via : quiet.
Lemma quiet_via_all pid i peer l : forall p e f, quiet pid i (send_via_all now mem tmp pbuf peer l p e f).
Proof. induction l as [|x l IH]; intros p e f; cbn [send_via_all]; quiet_steps. Qed.
Hint Resolve quiet_via_all : quiet.
Lemma quiet_trySend pid i p e n f : quiet pid i (_trySend now mem tmp pbuf p e n f).
Proof. unfold _trySend, choose_path. quiet_steps. Qed.
Hint Resolve quiet_trySend : quiet.
Lemma quiet_due pid i a : quiet pid i (whois_due now a).
Proof. intros s Hs. unfold post, whois_due. cbn zeta. destruct (_ <? _); cbn [sw]; (split; [exact Hs|split; [|done]]; split; [done|]; intros j e' E; exists e'; split; [exact E|]; case_decide; reflexivity). Qed.
Hint Resolve quiet_due : quiet.
Lemma quiet_send pid i fuel : forall p e n f, quiet pid i (send self now mem tmp pbuf fuel p e n f).
Proof. induction fuel as [|fuel IH]; intros p e n f; cbn [send]; [intros ? ?; exact I|]. unfold enqueue, request_whois. quiet_steps. Qed.
Hint Resolve quiet_send : quiet.
Lemma quiet_whois pid i a : quiet pid i (requestWhois self now mem tmp pbuf a).
Proof. unfold requestWhois, request_whois. quiet_steps. Qed.
Hint Resolve quiet_whois : quiet.

Lemma quiet_retry pid i : (i < 32)%nat -> quiet pid (Some i) (retry now i).
Proof.
  intros Hi. unfold retry. eapply sound_bind; [by apply sound_entry|]. intros e He. eapply sound_bind; [apply decode_sound, He|]. intros [p d] [Hp _].
  apply quiet_bind; [apply sound_update; [done|]; intros e' He'; split; [by apply entry_ok_head|by apply touched_refl_id]|]. intros _. apply sound_if; intros _; [|apply quiet_ret].
  apply quiet_bind; [apply sound_update; [done|]; intros e' []; split; [by split|by apply touched_refl_id]|]. intros _. apply quiet_ret.
Qed.

(** The queue is well-formed afterwards. *)
Definition stays {A} (m : step W A) : Prop := forall s, rx_ok None (sw s) -> post True m s (fun s' _ => rx_ok None (sw s')) (fun s' => rx_ok None (sw s')).
Lemma stays_bind {A B} (m : step W A) (k : A -> step W B) : stays m -> (forall a, stays (k a)) -> stays (m ≫= k).
Proof. intros Hm Hk s Hs. specialize (Hm s Hs). unfold post, mbind, step_bind in *. destruct (m s) as [s1 a|s1 e|]; [|done|done]. apply (Hk a s1 Hm). Qed.
Lemma quiet_stays {A} (m : step W A) : quiet 0 None m -> stays m.
Proof. intros Hm s Hs. specialize (Hm s Hs). unfold post in *. destruct (m s); [apply Hm|apply Hm|done]. Qed.
Lemma stays_for_each {X} (l : list X) (f : X -> step W ()) : (forall x, x ∈ l -> stays (f x)) -> stays (for_each l f).
Proof.
  intros Hf. induction l as [|x l IH]; cbn [for_each]; [apply quiet_stays, quiet_ret|]. apply stays_bind; [apply Hf; by left|]. intros _. apply IH. intros y Hy. apply Hf. by right.
Qed.
Lemma stays_entry waiting i : (i < 32)%nat -> quiet 0 (Some i) (waiting i) -> stays (try_entry now waiting i).
Proof.
  intros Hi Hw s Hs. unfold try_entry. assert (sound True 0 (Some i) (e ← entry i; if negb (timestamp e =? 0) && complete e then w ← retry now i; when w (waiting i) else mret ()) (fun _ => True)) as Hm.
  { eapply sound_bind; [by apply sound_entry|]. intros e He. apply sound_if; intros _; [|apply quiet_ret]. apply quiet_bind; [by apply quiet_retry|]. intros w. apply sound_when; [done|auto]. }
  pose proof (sound_with_lock True 0 i _ Hi Hm s Hs) as Hp. unfold post in *. destruct (with_lock _ _ s); [apply Hp|apply Hp|done].
Qed.
Lemma stays_try_queue tries nw stay n : (forall e, quiet 0 None (stay e)) -> forall i, stays (try_queue now mem tmp pbuf tries nw stay n i).
Proof.
  intros Hst. induction n as [|n IH]; intros i; cbn [try_queue]; [apply quiet_stays, quiet_ret|]. apply stays_bind; [apply quiet_stays, quiet_gets|]. intros q. destruct (q !! i) as [e|]; [|apply quiet_stays, quiet_ret].
  apply stays_bind; [apply quiet_stays; destruct (tries e); eauto with quiet|]. intros sent. apply stays_bind; [apply quiet_stays; destruct sent; [apply quiet_ret|apply Hst]|]. intros [keep more].
  apply stays_bind; [apply quiet_stays; quiet_steps|]. intros _. apply stays_bind; [apply IH|]. intros ?. apply quiet_stays, quiet_ret.
Qed.
Lemma stays_modify (f : Switch -> Switch) : (forall s, _rxQueue (f s) = _rxQueue s /\ _rxQueuePtr (f s) = _rxQueuePtr s) -> stays (modify f).
Proof. intros Hf. apply quiet_stays. by apply sound_modify. Qed.

(** What the switch is called for. *)
Inductive Call := CallDatagram (path : Z) (d : list Z) | CallSend (p : Buffer) (encrypt : bool) (nwid fl : Z) | CallWhois (a : Z) | CallPeer (a : Z) | CallTimer.
Definition run_call (c : Call) : step W () :=
  match c with
  | CallDatagram path d => onRemotePacket self now mem path d
  | CallSend p e n f => send_packet self now mem tmp pbuf p e n f
  | CallWhois a => requestWhois self now mem tmp pbuf a
  | CallPeer a => doAnythingWaitingForPeer now mem tmp pbuf a
  | CallTimer => _ ← doTimerTasks self now mem tmp pbuf; mret ()
  end.
Definition call_ok (c : Call) : Prop := match c with CallDatagram _ d => bytes_ok d /\ zlen d < 2 ^ 31 | _ => True end.

(** C37. Whatever the switch is called for, the receive queue keeps its 32 entries, each with its buffers, at most seven fragments and a free lock;
    an arriving datagram is handled to the end, with every exception caught, unless decoding blocks or it names one other node as source and destination - then
    introducing that node to itself may block. *)
Theorem switch_wellformed c s : call_ok c -> rx_ok None (sw s) ->
  match run_call c s with
  | Done s' _ => rx_ok None (sw s')
  | Threw s' _ => rx_ok None (sw s') /\ (forall path d, c <> CallDatagram path d)
  | Undefined => forall path d, c = CallDatagram path d -> U \/ loops self d
  end.
Proof.
  intros Hc Hs. assert (forall m : step W (), stays m -> run_call c = m -> (forall path d, c <> CallDatagram path d) -> match run_call c s with
    | Done s' _ => rx_ok None (sw s') | Threw s' _ => rx_ok None (sw s') /\ (forall path d, c <> CallDatagram path d) | Undefined => forall path d, c = CallDatagram path d -> U \/ loops self d end) as Hst.
  { intros m Hm -> Hne. specialize (Hm s Hs). unfold post in Hm. destruct (m s); [done|by split|]. intros path d ->. by destruct (Hne path d). }
  destruct c as [path d|p e n f|a|a|]; cbn [run_call call_ok] in *.
  - destruct Hc as [Hd Hz]. pose proof (decoder_laws_weaken (U \/ loops self d) ltac:(auto)) as Hlaws. assert (forall r src dest w, addr_at d 8 = Ok dest -> addr_at d 13 = Ok src -> dest <> self -> r = dest \/ r <> src -> introduce w r now src = None -> U \/ loops self d) as Hloop.
    { intros r src dest w E8 E13 Hne Hr E. right. destruct (decide (r = src)) as [->|Hrs]; [destruct Hr as [->|]; [by exists dest|done]|]. destruct (introduce_returns w r now src Hrs). congruence. }
    pose proof (keep_datagram (U \/ loops self d) self now mem Hmem (be_int (take 8 d) + 1) path d Hd Hz ltac:(lia) ltac:(eauto) s Hs) as Hk. unfold post in Hk. destruct (onRemotePacket _ _ _ _ _ s); [apply Hk|done|]. intros path' d' [= <- <-]. exact Hk.
  - eapply Hst; [|reflexivity|done]. apply quiet_stays, quiet_send.
  - eapply Hst; [|reflexivity|done]. apply quiet_stays, quiet_whois.
  - eapply Hst; [|reflexivity|done]. unfold doAnythingWaitingForPeer. apply stays_bind; [by apply stays_modify|]. intros _. apply stays_bind.
    { apply stays_for_each. intros i Hi%elem_of_seq. apply stays_entry; [change (Z.to_nat ZT_RX_QUEUE_SIZE) with 32%nat in Hi; lia|apply quiet_ret]. }
    intros _. apply stays_bind; [apply quiet_stays, quiet_gets|]. intros q. apply stays_bind; [apply stays_try_queue; intros; apply quiet_ret|]. intros _. apply quiet_stays, quiet_ret.
  - eapply Hst; [|reflexivity|done]. unfold doTimerTasks. apply stays_bind; [|intros _; apply quiet_stays, quiet_ret]. apply stays_bind; [apply quiet_stays, quiet_gets|]. intros last. cbn zeta. destruct (_ <? _); [apply quiet_stays, quiet_ret|].
    apply stays_bind; [by apply stays_modify|]. intros _. apply stays_bind; [apply quiet_stays, quiet_gets|]. intros q.
    apply stays_bind; [apply stays_try_queue; intros e; unfold timer_stay; quiet_steps|]. intros need. apply stays_bind; [apply stays_for_each; intros; apply quiet_stays, quiet_whois|]. intros _.
    apply stays_bind. { apply stays_for_each. intros i Hi%elem_of_seq. change (Z.to_nat ZT_RX_QUEUE_SIZE) with 32%nat in Hi. apply stays_entry; [lia|]. unfold ask_source. eapply sound_bind; [apply sound_entry; lia|]. intros; quiet_steps. }
    intros _. apply stays_bind; [by apply stays_modify|]. intros _. apply stays_bind; [by apply stays_modify|]. intros _. apply quiet_stays, quiet_ret.
Qed.
End operations.
