(* ===== verification/Reassembly.v ===== *)
(** * A packet that is sent in fragments arrives

    The datagrams that make up a packet, and what the receiver does with them: whatever their order, repeated or mixed with other traffic, the packet is decoded when
    the last missing one has come, and it is the packet that was sent. *)

From S2P Require Import Prelude Buffer Address Identity Packet Switch SwitchInv.
Import Packet.

(** ** The datagrams of a packet *)

(** How many datagrams of at most [m] bytes [n] bytes take. *)
Definition datagram_count (m n : Z) : Z := 1 + (n - m + (m - 16) - 1) / (m - 16).
Definition piece_start (m : Z) (k : nat) : Z := m + (Z.of_nat k - 1) * (m - 16).
Definition piece_len (m n : Z) (k : nat) : Z := Z.min (m - 16) (n - piece_start m k).
(** Number 0 is the head, the others are fragments. *)
Definition datagram (m : Z) (d : list Z) (k : nat) : list Z :=
  match k with
  | O => take (Z.to_nat m) d
  | S _ => fragment_bytes d (piece_start m k) (piece_len m (zlen d) k) (Z.of_nat k) (datagram_count m (zlen d))
  end.
(** What number [k] contributes to the packet. *)
Definition piece (m : Z) (d : list Z) (k : nat) : list Z := take (Z.to_nat (piece_len m (zlen d) k)) (drop (Z.to_nat (piece_start m k)) d).

Section pieces.
Context (m : Z) (d : list Z) (Hm : 28 <= m) (Hd : m < zlen d).
Let N := datagram_count m (zlen d).

Lemma count_min : 2 <= N.
Proof. unfold N, datagram_count. assert (1 <= (zlen d - m + (m - 16) - 1) / (m - 16)); [apply Z.div_le_lower_bound; lia|lia]. Qed.

(** Every piece but the last is full, the last is not empty. *)
Lemma piece_bounds k : (1 <= k)%nat -> Z.of_nat k < N -> 0 < piece_len m (zlen d) k <= m - 16 /\ piece_start m k + piece_len m (zlen d) k <= zlen d /\ 28 <= piece_start m k.
Proof.
  intros Hk HkN. unfold N, datagram_count, piece_len, piece_start in *. set (r := m - 16) in *. assert (0 < r) by lia. set (x := zlen d - m) in *.
  pose proof (Z.div_mod (x + r - 1) r ltac:(lia)) as E. pose proof (Z.mod_pos_bound (x + r - 1) r ltac:(lia)) as Hmod. set (q := (x + r - 1) / r) in *. assert (Z.of_nat k <= q) by lia.
  assert ((Z.of_nat k - 1) * r < x) by nia. assert (0 <= (Z.of_nat k - 1) * r) by nia. lia.
Qed.
Lemma piece_next k : (1 <= k)%nat -> Z.of_nat k + 1 < N -> piece_start m (S k) = piece_start m k + piece_len m (zlen d) k.
Proof.
  intros Hk HkN. destruct (piece_bounds (S k)) as (H1 & _); [lia|lia|]. unfold piece_len, piece_start in *. lia.
Qed.
Lemma piece_last k : (1 <= k)%nat -> Z.of_nat k + 1 = N -> piece_start m k + piece_len m (zlen d) k = zlen d.
Proof.
  intros Hk HkN. unfold N, datagram_count, piece_len, piece_start in *. set (r := m - 16) in *. set (x := zlen d - m) in *.
  pose proof (Z.div_mod (x + r - 1) r ltac:(lia)) as E. pose proof (Z.mod_pos_bound (x + r - 1) r ltac:(lia)) as Hmod. nia.
Qed.

(** The head and the pieces before number [k], followed by the ones from [k] on. *)
Lemma take_piece k : (1 <= k)%nat -> Z.of_nat k < N -> take (Z.to_nat (piece_start m k)) d ++ piece m d k = take (Z.to_nat (piece_start m k + piece_len m (zlen d) k)) d.
Proof.
  intros Hk HkN. destruct (piece_bounds k Hk HkN) as (? & ? & ?). unfold piece. rewrite Z2Nat.inj_add by lia. by rewrite take_take_drop.
Qed.

Lemma length_datagram k : Z.of_nat k < N -> 16 < zlen (datagram m d k) <= m /\ take 8 (datagram m d k) = take 8 d.
Proof.
  intros HkN. destruct k as [|k].
  - cbn [datagram]. rewrite zlen_take by lia. split; [lia|]. rewrite take_take. f_equal. lia.
  - destruct (piece_bounds (S k)) as (? & ? & ?); [lia|done|]. cbn [datagram]. unfold fragment_bytes. rewrite !zlen_app. change (zlen [255]) with 1. change (zlen [0]) with 1.
    match goal with |- context [zlen [?x]] => change (zlen [x]) with 1 end. rewrite zlen_take by (rewrite zlen_drop by lia; lia).
    assert (zlen (take 13 d) = 13) as -> by (unfold zlen in *; rewrite length_take; lia). split; [lia|].
    rewrite take_app_le by (rewrite length_take; unfold zlen in *; lia). rewrite take_take. f_equal.
Qed.
Lemma datagram_bytes k : bytes_ok d -> bytes_ok (datagram m d k).
Proof.
  intros Hb. destruct k; cbn [datagram]; [by apply list.Forall_take|]. unfold fragment_bytes. rewrite !bytes_ok_app. split_and!; [by apply list.Forall_take|by_compute|apply list.Forall_singleton, nibbles_byte|by_compute|by apply list.Forall_take, list.Forall_drop].
Qed.
End pieces.

(** ** Sets of numbers as bits *)

Definition with_bit (h : Z) (k : nat) : Z := Z.lor h (Z.shiftl 1 (Z.of_nat k)).
Lemma one_bit k : Z.shiftl 1 (Z.of_nat k) = 2 ^ Z.of_nat k.
Proof. rewrite Z.shiftl_mul_pow2 by lia. lia. Qed.
Lemma bit_clear h k : (Z.land h (Z.shiftl 1 (Z.of_nat k)) =? 0) = negb (Z.testbit h (Z.of_nat k)).
Proof.
  rewrite one_bit. destruct (Z.testbit h (Z.of_nat k)) eqn:E; cbn [negb].
  - apply Z.eqb_neq. intros E0. apply (f_equal (fun x => Z.testbit x (Z.of_nat k))) in E0. rewrite Z.land_spec, E, Z.pow2_bits_true, Z.bits_0 in E0 by lia. done.
  - apply Z.eqb_eq, Z.bits_inj'. intros i Hi. rewrite Z.land_spec, Z.bits_0, Z.pow2_bits_eqb by lia. destruct (Z.eqb_spec (Z.of_nat k) i) as [<-|]; [by rewrite E|by rewrite andb_false_r].
Qed.
Lemma with_bit_spec h k i : Z.testbit (with_bit h k) (Z.of_nat i) = Z.testbit h (Z.of_nat i) || (k =? i)%nat.
Proof. unfold with_bit. rewrite Z.lor_spec, one_bit, Z.pow2_bits_eqb by lia. f_equal. destruct (Z.eqb_spec (Z.of_nat k) (Z.of_nat i)), (Nat.eqb_spec k i); lia || done. Qed.
Lemma with_bit_same h k : Z.testbit h (Z.of_nat k) = true -> with_bit h k = h.
Proof.
  intros E. unfold with_bit. rewrite one_bit. apply Z.bits_inj'. intros i Hi. rewrite Z.lor_spec, Z.pow2_bits_eqb by lia. destruct (Z.eqb_spec (Z.of_nat k) i) as [<-|]; [by rewrite E|by rewrite orb_false_r].
Qed.
Lemma with_bit_head h k : (1 <= k)%nat -> Z.testbit (with_bit h k) 0 = Z.testbit h 0.
Proof. intros Hk. pose proof (with_bit_spec h k 0) as E. change (Z.of_nat 0) with 0 in E. rewrite E. destruct k; [lia|]. by rewrite orb_false_r. Qed.

(** ** Steps on a known entry *)

Section known.
Context {W : Type}.
Definition on_entry (s0 : Switch) (p : Z) (w : W) (i : nat) (e : RXQueueEntry) : State W := mkState (set_rx s0 (<[i := e]> (_rxQueue s0)) p) w.

Lemma on_entry_intro (s : State W) i e : _rxQueue (sw s) !! i = Some e -> s = on_entry (sw s) (_rxQueuePtr (sw s)) (world s) i e.
Proof. intros E. unfold on_entry. rewrite list_insert_id by done. by destruct s as [[] ?]. Qed.
Lemma entry_at s0 p (w : W) i e : (i < length (_rxQueue s0))%nat -> entry i (on_entry s0 p w i e) = Done (on_entry s0 p w i e) e.
Proof. intros Hi. unfold entry, on_entry. cbn [sw _rxQueue set_rx]. by rewrite list_lookup_insert_eq. Qed.
Lemma update_at s0 p (w : W) i e f : (i < length (_rxQueue s0))%nat -> update i f (on_entry s0 p w i e) = Done (on_entry s0 p w i (f e)) ().
Proof.
  intros Hi. unfold update, modify, on_entry. cbn [sw world]. do 2 f_equal. unfold set_rx. cbn [_rxQueue _rxQueuePtr _txQueue _lastSentWhoisRequest _lastUniteAttempt _lastCheckedQueues]. f_equal.
  apply list_eq. intros j. destruct (decide (j = i)) as [->|]; [rewrite list_lookup_alter_eq, !list_lookup_insert_eq by done; done|]. by rewrite list_lookup_alter_ne, !list_lookup_insert_ne by done.
Qed.
Lemma lock_at s0 p (w : W) i e m s' : (i < length (_rxQueue s0))%nat -> locked e = false ->
  m (on_entry s0 p w i (set_locked e true)) = s' -> with_lock i m (on_entry s0 p w i e) = unlocking i (fun _ => s') (on_entry s0 p w i e).
Proof. intros Hi Hl <-. unfold with_lock, mbind, step_bind. rewrite entry_at, Hl by done. rewrite update_at by done. done. Qed.
Lemma unlock_at s0 p (w : W) i e s : (i < length (_rxQueue s0))%nat -> unlocking i (fun _ => Done (on_entry s0 p w i e) ()) s = Done (on_entry s0 p w i (set_locked e false)) ().
Proof. intros Hi. unfold unlocking. by rewrite update_at. Qed.
Lemma set_locked_back e : locked e = false -> set_locked (set_locked e true) false = e.
Proof. destruct e; cbn. by intros ->. Qed.
End known.

(** ** What the receiver makes of them *)

(** A packet for this node that is sent in at most seven datagrams of at most [m] bytes. *)
Record fits (self m : Z) (d : list Z) : Prop := {
  fi_bytes : bytes_ok d;
  fi_mtu : 28 <= m;
  fi_len : m < zlen d <= ZT_PROTO_MAX_PACKET_LENGTH;
  fi_count : datagram_count m (zlen d) <= ZT_MAX_PACKET_FRAGMENTS;
  fi_dest : addr_at d 8 = Ok self;
  fi_source : exists src, addr_at d 13 = Ok src /\ src <> self;
  fi_first : byte_at d 13 <> Ok ZT_PACKET_FRAGMENT_INDICATOR;
  fi_flag : exists fl, byte_at d ZT_PACKET_IDX_FLAGS = Ok fl /\ Z.land fl ZT_PROTO_FLAG_FRAGMENTED <> 0;
}.

Section own.
Context {W : Type} `{Surroundings W} `{!Decoder W}.
Context (self m : Z) (d mem : list Z) (Hmem : packet_ok (mkBuffer mem 0)).
Let N := datagram_count m (zlen d).
Let pid := be_int (take 8 d).

Definition arrived (now path : Z) (s : State W) : State W := mkState (sw s) (path_received (world s) path now).
Definition caught (r : result (State W) ()) : result (State W) () := match r with Threw s _ => Done s () | r => r end.

Lemma fragment_arrives now path s k : bytes_ok d -> 28 <= m -> m < zlen d <= ZT_PROTO_MAX_PACKET_LENGTH -> N <= 15 -> addr_at d 8 = Ok self -> (1 <= k)%nat -> Z.of_nat k < N -> exists fr,
  packet_ok fr /\ data fr = datagram m d k /\ fragment_payload fr = Ok (piece m d k) /\
  Fragment.packetId fr = Ok pid /\ Fragment.fragmentNumber fr = Ok (Z.of_nat k) /\ Fragment.totalFragments fr = Ok N /\
  onRemotePacket self now mem path (datagram m d k) s = caught (receive_fragment now fr (arrived now path s)).
Proof.
  intros Hb Hm [Hl1 Hl2] Hc Hdst Hk HkN. change ZT_PROTO_MAX_PACKET_LENGTH with 10024 in *. pose proof (count_min m d Hm Hl1) as Hmin. fold N in Hmin.
  destruct (piece_bounds m d Hm k Hk HkN) as (Hp1 & Hp2 & Hp3). destruct (length_datagram m d Hm Hl1 k HkN) as [Hlen _].
  destruct (copy_Ok (mkBuffer mem 0) (datagram m d k)) as (fr & Ec & Hfr & Ed); [done|by apply datagram_bytes|change ZT_PROTO_MAX_PACKET_LENGTH with 10024; lia|].
  pose proof Hfr as [Hbf Hcf]. destruct k as [|k]; [lia|]. cbn [datagram] in *.
  destruct (fragment_fields fr d _ _ _ _ Hbf Ed) as (E1 & E2 & E3 & E4 & E5 & E6 & E7); [unfold zlen in *; lia|lia|lia|lia|].
  assert (Address.setTo (take 5 (drop 8 d)) Address.ZT_ADDRESS_LENGTH = Ok self) as Eself.
  { rewrite <- Hdst. unfold addr_at. change Address.ZT_ADDRESS_LENGTH with 5. rewrite mem_read_Ok by lia. done. }
  exists fr. split; [done|]. split; [done|]. split.
  { unfold fragment_payload. unfold Fragment.payload, field in E7. change ZT_PACKET_FRAGMENT_IDX_PAYLOAD with 16 in *. rewrite E6 in *. replace (u32 (16 + piece_len m (zlen d) (S k) - 16)) with (piece_len m (zlen d) (S k)) in * by (rewrite u32_small; lia).
    unfold size in E6. rewrite E6 in E7. destruct (throw_if _ _); [|done|done]. cbn [mbind outcome_bind] in *. unfold Fragment.payloadLength, size. rewrite E6. change ZT_PACKET_FRAGMENT_IDX_PAYLOAD with 16. rewrite (proj2 (Z.ltb_lt _ _)) by lia.
    replace (16 + piece_len m (zlen d) (S k) - 16) with (piece_len m (zlen d) (S k)) by lia. exact E7. }
  split; [exact E4|]. split; [by rewrite E1, Z.mod_small by lia|]. split; [fold N in E2; by rewrite E2, Z.mod_small by lia|].
  unfold onRemotePacket. unfold mbind at 1, step_bind at 1. unfold tell at 1. fold (arrived now path s). change ZT_PROTO_MIN_FRAGMENT_LENGTH with 16. rewrite (proj2 (Z.ltb_lt 16 _)) by (unfold datagram; lia).
  assert (byte_at (fragment_bytes d (piece_start m (S k)) (piece_len m (zlen d) (S k)) (Z.of_nat (S k)) (datagram_count m (zlen d))) ZT_PACKET_FRAGMENT_IDX_FRAGMENT_INDICATOR = Ok 0xff) as ->.
  { unfold byte_at, fragment_bytes. assert (zlen (take 13 d) = 13) as Hz by (unfold zlen in *; rewrite length_take; lia). change ZT_PACKET_FRAGMENT_IDX_FRAGMENT_INDICATOR with 13. rewrite <- Hz. change 1 with (zlen [0xff]). rewrite mem_read_app. done. }
  unfold mbind at 1, step_bind at 1. cbn [lift]. rewrite Z.eqb_refl. unfold on_fragment. unfold mbind at 1, step_bind at 1. rewrite Ec. cbn [lift]. unfold mbind at 1, step_bind at 1. rewrite E5, Eself. cbn [lift]. rewrite Z.eqb_refl. cbn [negb]. by destruct (receive_fragment _ _ _).
Qed.

(** A packet that takes more datagrams than there may be: its fragments are ignored. *)
Lemma oversized_ignored now path s k : bytes_ok d -> 28 <= m -> m < zlen d <= ZT_PROTO_MAX_PACKET_LENGTH -> ZT_MAX_PACKET_FRAGMENTS < N <= 15 -> addr_at d 8 = Ok self -> (1 <= k)%nat -> Z.of_nat k < N ->
  onRemotePacket self now mem path (datagram m d k) s = Done (arrived now path s) ().
Proof.
  intros Hb Hm Hl [Hc1 Hc2] Hdst Hk HkN. destruct (fragment_arrives now path s k) as (fr & _ & _ & _ & E1 & E2 & E3 & ->); try done. unfold receive_fragment. unfold mbind at 1, step_bind at 1. rewrite E1. cbn [lift].
  unfold mbind at 1, step_bind at 1. rewrite E2. cbn [lift]. unfold mbind at 1, step_bind at 1. rewrite E3. cbn [lift]. by rewrite (proj2 (Z.leb_gt N _)).
Qed.

Context (Hfit : fits self m d).

Lemma read_prefix n i l : 0 <= i -> 0 <= l -> i + l <= n -> n <= zlen d -> mem_read (take (Z.to_nat n) d) i l = mem_read d i l.
Proof.
  intros. rewrite !mem_read_Ok by (rewrite ?zlen_take; lia). f_equal. rewrite skipn_firstn_comm, take_take. f_equal. lia.
Qed.

Lemma own_head now path s : onRemotePacket self now mem path (datagram m d 0) s = caught (receive_head now path (take (Z.to_nat m) d) (arrived now path s)).
Proof.
  destruct Hfit as [Hb Hm Hl _ Hdst (src & Es & Hsrc) Hfst (fl & Ef & Hfl)]. unfold onRemotePacket. cbn [datagram]. unfold mbind at 1, step_bind at 1. unfold tell at 1. fold (arrived now path s).
  rewrite zlen_take by lia. change ZT_PROTO_MIN_FRAGMENT_LENGTH with 16. rewrite (proj2 (Z.ltb_lt 16 m)) by lia.
  assert (byte_at (take (Z.to_nat m) d) 13 = byte_at d 13 /\ byte_at (take (Z.to_nat m) d) 18 = byte_at d 18) as [E13 E18] by (unfold byte_at; rewrite !read_prefix by lia; done).
  assert (addr_at (take (Z.to_nat m) d) 8 = addr_at d 8 /\ addr_at (take (Z.to_nat m) d) 13 = addr_at d 13) as [A8 A13] by (unfold addr_at; change Address.ZT_ADDRESS_LENGTH with 5; rewrite !read_prefix by lia; done).
  change ZT_PACKET_FRAGMENT_IDX_FRAGMENT_INDICATOR with 13. destruct (byte_at d 13) as [x| |] eqn:Ex.
  2: { unfold byte_at in Ex. destruct (mem_read_spec d 13 1) as (? & Er & _); [done|lia|lia|lia|]. rewrite Er in Ex. discriminate Ex. }
  2: { unfold byte_at in Ex. destruct (mem_read_spec d 13 1) as (? & Er & _); [done|lia|lia|lia|]. rewrite Er in Ex. discriminate Ex. }
  unfold mbind at 1, step_bind at 1. rewrite E13. cbn [lift]. rewrite (proj2 (Z.eqb_neq _ _)) by congruence. change ZT_PROTO_MIN_PACKET_LENGTH with 28. rewrite (proj2 (Z.leb_le 28 m)) by lia.
  unfold on_head. unfold mbind at 1, step_bind at 1. rewrite A8, Hdst. cbn [lift]. unfold mbind at 1, step_bind at 1. rewrite A13, Es. cbn [lift]. rewrite (proj2 (Z.eqb_neq src self)) by done.
  rewrite Z.eqb_refl. cbn [negb]. change ZT_PACKET_IDX_FLAGS with 18 in *. unfold mbind at 1, step_bind at 1. rewrite E18, Ef. cbn [lift]. rewrite (proj2 (Z.eqb_neq _ _)) by exact Hfl. cbn [negb]. by destruct (receive_head _ _ _ _).
Qed.

Lemma own_fragment now path s k : (1 <= k)%nat -> Z.of_nat k < N -> exists fr,
  packet_ok fr /\ data fr = datagram m d k /\ fragment_payload fr = Ok (piece m d k) /\
  Fragment.packetId fr = Ok pid /\ Fragment.fragmentNumber fr = Ok (Z.of_nat k) /\ Fragment.totalFragments fr = Ok N /\
  onRemotePacket self now mem path (datagram m d k) s = caught (receive_fragment now fr (arrived now path s)).
Proof. destruct Hfit as [Hb Hm Hl Hc Hdst _ _ _]. apply fragment_arrives; try done. fold N in Hc. change ZT_MAX_PACKET_FRAGMENTS with 7 in Hc. lia. Qed.

(** ** The entry of the packet *)

(** A head that arrived then, along that path. *)
Context (seen : Z -> Z -> Prop).

(** The entry [e] has the datagrams whose numbers are the bits of [h]. *)
Record gathers (h : Z) (e : RXQueueEntry) : Prop := {
  ga_id : entry_id e = pid;
  ga_time : timestamp e <> 0;
  ga_complete : complete e = false;
  ga_have : have e = h;
  ga_total : total e = if h =? 1 then 0 else N;
  ga_head : Z.testbit h 0 = true -> data (_buffer (frag0 e)) = take (Z.to_nat m) d /\ _authenticated (frag0 e) = false /\ seen (_receiveTime (frag0 e)) (_path (frag0 e));
  ga_frags : forall k, (1 <= k)%nat -> Z.testbit h (Z.of_nat k) = true -> exists fr, frags e !! (k - 1)%nat = Some fr /\ fragment_payload fr = Ok (piece m d k);
}.
(** There is one such entry when [h] is not 0, none otherwise; [age] others were taken since. *)
Definition collects (h age : Z) (s : Switch) : Prop :=
  0 <= h < 2 ^ N /\
  if h =? 0 then forall j e, _rxQueue s !! j = Some e -> entry_id e <> pid
  else exists i e, _rxQueue s !! i = Some e /\ gathers h e /\ (forall j e', _rxQueue s !! j = Some e' -> entry_id e' = pid -> j = i) /\
       0 <= age < 32 /\ Z.of_nat i = (rx_pos s - 1 - age) mod 32.

(** Other traffic does not touch it before 31 more entries are taken. *)
Lemma collects_keeps h age s s' : collects h age s -> keeps pid 1 s s' -> 0 <= age < 31 -> exists age', 0 <= age' <= age + 1 /\ collects h age' s'.
Proof.
  intros [Hh Hc] (k & Hk & Hp & Hmine & Hnew) Hage. exists (age + k). split; [lia|]. split; [done|]. destruct (h =? 0).
  - intros j e' He' Hid. destruct (Hnew j e' He' Hid) as (e & He & Hid'). by apply (Hc j e).
  - destruct Hc as (i & e & He & Hg & Hu & Ha & Hi). pose proof (rx_pos_range s). exists i, e. split; [|split; [done|split; [|split; [lia|]]]].
    + apply Hmine; [done|apply Hg|apply Hg|]. intros x Hx. rewrite Hi. assert (x = 0) as -> by lia. rewrite Z.add_0_r. intros E. Z.div_mod_to_equations. lia.
    + intros j e' He' Hid. destruct (Hnew j e' He' Hid) as (e0 & He0 & Hid0). by apply (Hu j e0).
    + rewrite Hi, Hp. Z.div_mod_to_equations. lia.
Qed.

Lemma gathers_lock h e l : gathers h e -> gathers h (set_locked e l).
Proof. intros []. by split. Qed.

(** Putting an entry in its place. *)
Lemma collects_put h age (s0 : Switch) p (w : W) i e : 0 < h < 2 ^ N -> (i < length (_rxQueue s0))%nat -> gathers h e ->
  (forall j e', _rxQueue s0 !! j = Some e' -> entry_id e' = pid -> j = i) -> 0 <= age < 32 -> Z.of_nat i = (u32 p mod 32 - 1 - age) mod 32 -> collects h age (sw (on_entry s0 p w i e)).
Proof.
  intros Hh Hi Hg Hu Ha Hp. split; [lia|]. rewrite (proj2 (Z.eqb_neq h 0)) by lia. exists i, e. cbn [sw on_entry _rxQueue set_rx]. split; [by apply list_lookup_insert_eq|]. split; [done|]. split; [|done].
  intros j e' He' Hid. destruct (decide (j = i)) as [|Hne]; [done|]. rewrite list_lookup_insert_ne in He' by done. by apply (Hu j e').
Qed.
Lemma rx_ok_put (s0 : Switch) p (w : W) i e : rx_ok None s0 -> entry_ok e -> locked e = false -> rx_ok None (sw (on_entry s0 p w i e)).
Proof.
  intros [Hl Hs] He Hk. split; cbn [sw on_entry _rxQueue set_rx]; [by rewrite length_insert|]. intros j e' He'. destruct (decide (j = i)) as [->|Hne].
  - destruct (decide (i < length (_rxQueue s0))%nat); [rewrite list_lookup_insert_eq in He' by done; by injection He' as <-|]. rewrite list_insert_ge in He' by lia. by apply Hs in He'.
  - rewrite list_lookup_insert_ne in He' by done. by apply Hs in He'.
Qed.

(** The entry that is found for the packet: the one that collects, or a new one. *)
Lemma find_own h age (s : State W) : rx_ok None (sw s) -> collects h age (sw s) -> exists p i e age',
  _findRXQueueEntry pid s = Done (on_entry (sw s) p (world s) i e) i /\ (i < length (_rxQueue (sw s)))%nat /\ _rxQueue (sw s) !! i = Some e /\ entry_ok e /\ locked e = false /\
  0 <= age' < 32 /\ Z.of_nat i = (u32 p mod 32 - 1 - age') mod 32 /\ (forall j e', _rxQueue (sw s) !! j = Some e' -> entry_id e' = pid -> j = i) /\
  if h =? 0 then entry_id e <> pid /\ age' = 0 else gathers h e /\ age' = age.
Proof.
  intros [Hl Hs] [Hh Hc]. pose proof (rx_pos_range (sw s)) as Hr. destruct (find_entry pid s Hl) as [(i & e & Ef & Hi & E & Em)|[Ef Hno]].
  - apply andb_true_iff in Em as [Eid%Z.eqb_eq _]. destruct (h =? 0); [by destruct (Hc i e E)|]. destruct Hc as (i' & e' & He & Hg & Hu & Ha & Hp). assert (i = i') as -> by (by apply (Hu i e)). rewrite E in He. injection He as <-.
    exists (_rxQueuePtr (sw s)), i', e, age. rewrite Ef. destruct (Hs i' e E) as [? ?]. split; [f_equal; by apply on_entry_intro|]. split; [lia|]. split_and!; auto; lia.
  - destruct (h =? 0).
    + set (i := Z.to_nat (rx_pos (sw s))). destruct (lookup_lt_is_Some_2 (_rxQueue (sw s)) i) as [e E]; [unfold i; lia|]. exists (s32 (_rxQueuePtr (sw s) + 1)), i, e, 0. rewrite Ef. destruct (Hs i e E) as [? ?].
      split; [f_equal; unfold on_entry; by rewrite list_insert_id by done|]. split; [unfold i; lia|]. split; [done|]. split; [done|]. split; [auto|]. split; [lia|]. split.
      { pose proof (rx_pos_next (sw s) (_rxQueue (sw s))) as Hn. unfold rx_pos in Hn at 1. cbn [_rxQueuePtr set_rx] in Hn. rewrite Hn. unfold i. rewrite Z2Nat.id by lia. Z.div_mod_to_equations. lia. }
      split; [|split; [by apply (Hc i)|done]]. intros j e' He' Hid. by destruct (Hc j e' He').
    + destruct Hc as (i & e & He & [] & _). exfalso. specialize (Hno i e He). unfold matches in Hno. rewrite (proj2 (Z.eqb_eq _ _)) in Hno by done. rewrite (proj2 (Z.eqb_neq _ _)) in Hno by done. done.
Qed.

(** ** One more datagram *)

Definition full : Z := 2 ^ N - 1.

Lemma with_bit_range h k : 0 <= h < 2 ^ N -> Z.of_nat k < N -> 0 < with_bit h k < 2 ^ N.
Proof.
  intros Hh Hk. assert (2 ^ Z.of_nat k < 2 ^ N) by (apply Z.pow_lt_mono_r; lia). pose proof (Z.pow_pos_nonneg 2 (Z.of_nat k)). pose proof (lor_range h (2 ^ Z.of_nat k) N). unfold with_bit. rewrite one_bit.
  assert (0 <= Z.lor h (2 ^ Z.of_nat k) < 2 ^ N) by lia. destruct (Z.eq_dec (Z.lor h (2 ^ Z.of_nat k)) 0) as [E|]; [|lia]. apply Z.lor_eq_0_iff in E. lia.
Qed.
Lemma count_full h : 0 <= h < 2 ^ N -> (countBits h =? N) = (h =? full).
Proof.
  intros Hh. destruct Hfit as [_ Hm [Hl _] Hc _ _ _ _]. pose proof (count_min m d Hm Hl) as Hmin. unfold full. fold N in Hc, Hmin. change ZT_MAX_PACKET_FRAGMENTS with 7 in Hc. clearbody N pid.
  assert (N = 2 \/ N = 3 \/ N = 4 \/ N = 5 \/ N = 6 \/ N = 7) as HN by lia.
  assert (forall n, forallb (fun x => Bool.eqb (countBits x =? n) (x =? 2 ^ n - 1)) (seqZ 0 (2 ^ n)) = true -> 0 <= h < 2 ^ n -> (countBits h =? n) = (h =? 2 ^ n - 1)) as Hall.
  { intros n Hf Hn. rewrite forallb_forall in Hf. apply eqb_prop, Hf, list_elem_of_In, elem_of_seqZ. lia. }
  by repeat destruct HN as [HN|HN]; subst; (apply Hall; [vm_compute; reflexivity|exact Hh]).
Qed.

(** The pieces that are left are appended. *)
Lemma append_all_frags s0 p (w : W) i (n : nat) : (i < length (_rxQueue s0))%nat -> forall f e, (1 <= f)%nat -> Z.of_nat f + Z.of_nat n = N ->
  packet_ok (_buffer (frag0 e)) -> data (_buffer (frag0 e)) = take (Z.to_nat (match n with O => zlen d | S _ => piece_start m f end)) d ->
  (forall k, (f <= k)%nat -> Z.of_nat k < N -> exists fr, frags e !! (k - 1)%nat = Some fr /\ fragment_payload fr = Ok (piece m d k)) ->
  exists b, packet_ok b /\ data b = d /\ append_frags i f n (on_entry s0 p w i e) = Done (on_entry s0 p w i (set_frag0 e (mkIncoming b (_receiveTime (frag0 e)) (_path (frag0 e)) (_authenticated (frag0 e))))) ().
Proof.
  intros Hi. destruct Hfit as [Hb Hm [Hl1 Hl2] _ _ _ _ _]. induction n as [|n IH]; intros f e Hf Hn Hp Hd Hfr; cbn [append_frags].
  - exists (_buffer (frag0 e)). split; [done|]. split; [rewrite Hd; unfold zlen; rewrite Nat2Z.id; by apply take_ge|]. by destruct e as [? ? []].
  - unfold mbind at 1, step_bind at 1. rewrite entry_at by done. destruct (Hfr f) as (fr & Efr & Epl); [lia|lia|]. rewrite Efr, Epl. unfold mbind at 1, step_bind at 1. cbn [lift].
    destruct (piece_bounds m d Hm f) as (? & ? & ?); [lia|fold N; lia|]. assert (bytes_ok (piece m d f) /\ zlen (piece m d f) = piece_len m (zlen d) f) as [Hbp Hzp].
    { unfold piece. split; [by apply list.Forall_take, list.Forall_drop|]. rewrite zlen_take; [done|]. rewrite zlen_drop by lia. lia. }
    destruct Hp as [Hbuf Hcap]. pose proof (zlen_data _ Hbuf) as Hz. rewrite Hd, zlen_take in Hz by lia.
    destruct (writes_fits _ _ _ (append_writes _ (piece m d f) Hbuf Hbp ltac:(change ZT_PROTO_MAX_PACKET_LENGTH with 10024 in *; lia))) as (b & Eb & Hbok & Hdb & Hcb); [rewrite Hcap; lia|].
    unfold mbind at 1, step_bind at 1. rewrite Eb. cbn [lift]. unfold mbind at 1, step_bind at 1. rewrite update_at by done.
    destruct (IH (S f) (set_frag0 e (mkIncoming b (_receiveTime (frag0 e)) (_path (frag0 e)) (_authenticated (frag0 e))))) as (b' & Hb' & Hd' & E'); [lia|lia|split; [done|cbn; congruence]| |intros k Hk1 Hk2; apply Hfr; lia|].
    + cbn [frag0 set_frag0 _buffer]. rewrite Hdb, Hd, take_piece by (fold N; lia). do 2 f_equal. destruct n; [apply (piece_last m d Hm Hl1 f); [lia|fold N; lia]|]. symmetry. apply piece_next; [lia|lia|fold N; lia].
    + exists b'. split; [done|]. split; [done|]. by rewrite E'.
Qed.

(** How the step [R] ends that decodes the packet: as [tryDecode] says the entry is freed or waits; nothing else happens. *)
Definition decoded (i : nat) (r : result (State W) (IncomingPacket * bool)) (R : result (State W) ()) : Prop :=
  match r with
  | Done s3 (p, dn) => exists s4 e, R = Done s4 () /\ world s4 = world s3 /\ _rxQueue (sw s4) !! i = Some e /\ frag0 e = p /\ (if (dn : bool) then timestamp e = 0 else complete e = true)
  | Threw s3 _ => exists s4, R = Done s4 () /\ world s4 = world s3
  | Undefined => R = Undefined
  end.

Context (U : Prop) `{!DecoderLaws U W}.

Lemma assemble_decodes s0 p (w : W) i e : rx_ok None s0 -> (i < length (_rxQueue s0))%nat -> entry_ok e ->
  data (_buffer (frag0 e)) = take (Z.to_nat m) d -> _authenticated (frag0 e) = false ->
  (forall k, (1 <= k)%nat -> Z.of_nat k < N -> exists fr, frags e !! (k - 1)%nat = Some fr /\ fragment_payload fr = Ok (piece m d k)) ->
  exists b st, packet_ok b /\ data b = d /\ world st = w /\
    decoded i (tryDecode (mkIncoming b (_receiveTime (frag0 e)) (_path (frag0 e)) false) NO_FLOW st) (caught (unlocking i (assemble i N) (on_entry s0 p w i e))).
Proof.
  intros Hok Hi He Hd Ha Hfr. destruct Hfit as [_ Hm [Hl1 _] _ _ _ _ _]. pose proof (count_min m d Hm Hl1) as Hmin. fold N in Hmin.
  destruct (append_all_frags s0 p w i (Z.to_nat (N - 1)) Hi 1 e) as (b & Hb & Hdb & Ea); [lia|lia|apply He| |auto|].
  { rewrite Hd. do 2 f_equal. destruct (Z.to_nat (N - 1)) eqn:E; [lia|]. unfold piece_start. lia. }
  rewrite Ha in Ea. set (ip := mkIncoming _ _ _ _) in Ea. set (st := on_entry s0 p w i (set_frag0 e ip)) in Ea. exists b, st. split; [done|]. split; [done|]. split; [done|]. fold ip.
  assert (rx_ok (Some i) (sw st)) as Hst.
  { destruct Hok as [Hl Hs]. split; cbn [sw st on_entry _rxQueue set_rx]; [by rewrite length_insert|]. intros j e' He'. destruct (decide (j = i)) as [->|Hne].
    - rewrite list_lookup_insert_eq in He' by done. injection He' as <-. split; [by apply entry_ok_head|done].
    - rewrite list_lookup_insert_ne in He' by done. destruct (Hs j e' He'). split; [done|auto]. }
  unfold unlocking, assemble. unfold mbind at 1, step_bind at 1. rewrite Ea. unfold mbind at 1, step_bind at 1. unfold st at 2. rewrite entry_at by done. fold st. cbn [frag0 set_frag0].
  pose proof (decode_sound 0 (Some i) ip NO_FLOW Hb st Hst) as Hdec. unfold post in Hdec. unfold mbind at 1, step_bind at 1. destruct (tryDecode ip NO_FLOW st) as [s3 [p' dn]|s3 x|]; cbn [decoded caught].
  - destruct Hdec as ([Hl3 Hs3] & _ & _). unfold update, modify, mbind, step_bind. cbn [sw world set_rx _rxQueue _rxQueuePtr].
    destruct (lookup_lt_is_Some_2 (_rxQueue (sw s3)) i) as [e3 E3]; [destruct Hok as [Hl _]; lia|]. eexists _, _. split; [reflexivity|]. split; [done|]. cbn [sw _rxQueue set_rx].
    split; [rewrite !list_lookup_alter_eq, E3; reflexivity|]. by destruct dn.
  - destruct Hdec as [[Hl3 Hs3] _]. eexists. split; [reflexivity|done].
  - done.
Qed.

Lemma full_bits k : Z.of_nat k < N -> Z.testbit full (Z.of_nat k) = true.
Proof. intros. unfold full. replace (2 ^ N - 1) with (Z.ones N) by (rewrite Z.ones_equiv; lia). apply Z.ones_spec_low. lia. Qed.
Lemma single_not_full k : with_bit 0 k <> full.
Proof.
  destruct Hfit as [_ Hm [Hl1 _] _ _ _ _ _]. pose proof (count_min m d Hm Hl1) as Hmin. fold N in Hmin. intros E. pose proof (full_bits 0 ltac:(lia)) as H0. pose proof (full_bits 1 ltac:(lia)) as H1. rewrite <- E in H0, H1.
  rewrite with_bit_spec, Z.bits_0 in H0, H1. destruct k as [|[|]]; done.
Qed.

(** What one datagram of the packet does. *)
Definition progress (h age : Z) (k : nat) (now path : Z) (s : State W) (R : result (State W) ()) : Prop :=
  (with_bit h k <> full -> exists s', R = Done s' () /\ world s' = path_received (world s) path now /\ rx_ok None (sw s') /\ exists age', 0 <= age' <= age /\ collects (with_bit h k) age' (sw s')) /\
  (with_bit h k = full -> h <> full -> exists t π i b st, seen t π /\ packet_ok b /\ data b = d /\ world st = path_received (world s) path now /\ decoded i (tryDecode (mkIncoming b t π false) NO_FLOW st) R).

(** The entry was not changed. *)
Lemma unlock_same s0 p (w : W) i e : (i < length (_rxQueue s0))%nat -> locked e = false ->
  unlocking i (fun _ => Done (on_entry s0 p w i (set_locked e true)) ()) (on_entry s0 p w i e) = Done (on_entry s0 p w i e) ().
Proof. intros Hi Hl. rewrite unlock_at by done. by rewrite set_locked_back. Qed.

Lemma with_bit_low h k : 0 <= h < 2 ^ N -> Z.of_nat k < N -> u32 (Z.lor h (Z.shiftl 1 (Z.of_nat k))) = with_bit h k.
Proof.
  intros Hh Hk. pose proof (with_bit_range h k Hh Hk) as Hr. destruct Hfit as [_ Hm [Hl1 _] Hc _ _ _ _]. fold N in Hc. change ZT_MAX_PACKET_FRAGMENTS with 7 in Hc. pose proof (count_min m d Hm Hl1) as Hmin. fold N in Hmin.
  assert (2 ^ N <= 2 ^ 7) by (apply Z.pow_le_mono_r; lia). change (2 ^ 7) with 128 in *. apply u32_small. unfold with_bit in *. lia.
Qed.

Lemma fragment_progress k now path s h age fr : (1 <= k)%nat -> Z.of_nat k < N -> now <> 0 -> 0 <= age -> rx_ok None (sw s) -> collects h age (sw s) ->
  packet_ok fr -> fragment_payload fr = Ok (piece m d k) -> Fragment.packetId fr = Ok pid -> Fragment.fragmentNumber fr = Ok (Z.of_nat k) -> Fragment.totalFragments fr = Ok N ->
  progress h age k now path s (caught (receive_fragment now fr (arrived now path s))).
Proof.
  intros Hk HkN Hnow Hage Hok Hc Hfr Hpl Eid Eno Etot. pose proof Hfit as [_ Hm [Hl1 _] Hcnt _ _ _ _]. fold N in Hcnt. change ZT_MAX_PACKET_FRAGMENTS with 7 in *. pose proof (count_min m d Hm Hl1) as Hmin. fold N in Hmin.
  unfold receive_fragment. unfold mbind at 1, step_bind at 1. rewrite Eid. cbn [lift]. unfold mbind at 1, step_bind at 1. rewrite Eno. cbn [lift]. unfold mbind at 1, step_bind at 1. rewrite Etot. cbn [lift].
  change ZT_MAX_PACKET_FRAGMENTS with 7. rewrite (proj2 (Z.leb_le N 7)), (proj2 (Z.ltb_lt _ 7)), (proj2 (Z.ltb_lt 0 _)), (proj2 (Z.ltb_lt 1 N)) by lia. cbn [andb].
  destruct (find_own h age (arrived now path s) Hok Hc) as (p & i & e & age' & Ef & Hi & E & He & Hlk & Ha & Hpos & Hu & Hcase). unfold mbind at 1, step_bind at 1. fold pid. rewrite Ef. cbn [sw world arrived] in *. set (w := path_received _ _ _) in *.
  pose proof (with_bit_range h k) as Hrange. assert (0 <= h < 2 ^ N) as Hh by apply Hc. specialize (Hrange Hh HkN).
  assert (with_bit h k <> 1) as Hne1 by (intros E1; apply (f_equal (fun x => Z.testbit x (Z.of_nat k))) in E1; rewrite with_bit_spec, Nat.eqb_refl, orb_true_r in E1; change 1 with (2 ^ 0) in E1; rewrite Z.pow2_bits_false in E1 by lia; done).
  assert (forall x, put_frag (frags e) (Z.of_nat k) x = Ok (<[(k - 1)%nat := x]> (frags e))) as Eput by (intros x; by apply put_frag_at; [|lia]).
  erewrite lock_at by (reflexivity || done). unfold store_fragment. unfold mbind at 1, step_bind at 1. rewrite entry_at by done. cbn [entry_id set_locked have].
  destruct (Z.eqb_spec h 0) as [->|Hh0].
  - destruct Hcase as [Hne ->]. rewrite (proj2 (Z.eqb_neq _ _)) by done. cbn [negb frags set_locked]. rewrite Eput. unfold mbind at 1, step_bind at 1. cbn [lift]. rewrite update_at by done. cbn [frag0 set_locked locked]. split; [|intros E1; by destruct (single_not_full k)]. intros _. rewrite unlock_at by done. cbn [caught].
    eexists. split; [reflexivity|]. split; [done|]. split; [apply rx_ok_put; [done| |done]|].
    { destruct He as [H1 H2 H3 H4]. split; cbn; [done|by rewrite length_insert|by apply list.Forall_insert|lia]. }
    exists 0. split; [lia|]. apply collects_put; [done|done| |done|lia|exact Hpos]. split; cbn [entry_id timestamp complete have total frag0 frags set_locked set_have set_frags]; try done.
    + by rewrite (proj2 (Z.eqb_neq _ _)).
    + intros Hb. rewrite with_bit_head, Z.bits_0 in Hb by done. done.
    + intros j Hj Hb. rewrite with_bit_spec, Z.bits_0 in Hb. apply Nat.eqb_eq in Hb as <-. exists fr. split; [|done]. apply list_lookup_insert_eq. destruct He as [_ -> _ _]. lia.
  - destruct Hcase as [Hg ->]. pose proof Hg as [G1 G2 G3 G4 G5 G6 G7]. rewrite G1, Z.eqb_refl. cbn [negb]. rewrite G4, bit_clear. destruct (Z.testbit h (Z.of_nat k)) eqn:Eb; cbn [negb].
    + unfold progress. rewrite (with_bit_same h k Eb). split; [|done]. intros _. change (mret ()) with (fun s : State W => Done s ()). cbn beta. rewrite unlock_same by done. cbn [caught]. eexists. split; [reflexivity|]. split; [done|].
      split; [by apply rx_ok_put|]. exists age. split; [lia|]. by apply collects_put; [lia|done| |done..].
    + cbn [frags set_locked]. rewrite Eput. unfold mbind at 1, step_bind at 1. cbn [lift]. unfold mbind at 1, step_bind at 1. rewrite update_at by done. unfold mbind at 1, step_bind at 1. rewrite update_at by done. rewrite with_bit_low by done. set (e2 := set_have _ _).
      assert (Hcnt2 : (countBits (with_bit h k) =? N) = (with_bit h k =? full)) by (apply count_full; lia). rewrite Hcnt2.
      assert (entry_ok e2) as He2. { destruct He as [H1 H2 H3 H4]. split; cbn; [done|by rewrite length_insert|by apply list.Forall_insert|lia]. }
      assert (gathers (with_bit h k) e2) as Hg2.
      { split; cbn [entry_id timestamp complete have total frag0 frags set_locked set_have set_frags]; try done; [by rewrite (proj2 (Z.eqb_neq _ _))|intros Hb; apply G6; by rewrite with_bit_head in Hb|].
        intros j Hj Hb. unfold e2. cbn [frags set_have set_frags set_locked]. destruct (decide (j = k)) as [->|Hjk].
        - exists fr. split; [|done]. apply list_lookup_insert_eq. destruct He as [_ -> _ _]. lia.
        - rewrite with_bit_spec in Hb. rewrite (proj2 (Nat.eqb_neq k j)), orb_false_r in Hb by lia. rewrite list_lookup_insert_ne by lia. by apply G7. }
      destruct (Z.eqb_spec (with_bit h k) full) as [Efull|Hnf]; cbn [when].
      * split; [done|]. intros _ _. rewrite Efull in Hg2. destruct Hg2 as [_ _ _ _ _ K6 K7]. destruct (K6 (full_bits 0 ltac:(lia))) as (Kd & Ka & Ks).
        destruct (assemble_decodes (sw s) p w i e2) as (b & st & Hb & Hdb & Hw & Hdec); [done|done|done|done|done|intros j Hj HjN; apply K7; [done|by apply full_bits]|].
        eexists _, _, i, b, st. split; [exact Ks|]. split; [done|]. split; [done|]. split; [done|]. exact Hdec.
      * split; [|done]. intros _. change (mret ()) with (fun s : State W => Done s ()). cbn beta. rewrite unlock_at by done. cbn [caught]. eexists. split; [reflexivity|]. split; [done|]. split; [apply rx_ok_put; [done| |done]; by destruct He2|].
        exists age. split; [lia|]. apply collects_put; [done|done|by apply gathers_lock|done|done|done].
Qed.

(** The head is copied into the entry. *)
Lemma init_at s0 p (w : W) i e now path : (i < length (_rxQueue s0))%nat -> entry_ok e -> exists b, packet_ok b /\ data b = take (Z.to_nat m) d /\
  init_head now i (take (Z.to_nat m) d) path (on_entry s0 p w i e) = Done (on_entry s0 p w i (set_frag0 e (mkIncoming b now path false))) ().
Proof.
  intros Hi He. destruct Hfit as [Hb Hm [Hl1 Hl2] _ _ _ _ _]. destruct (copy_Ok (_buffer (frag0 e)) (take (Z.to_nat m) d)) as (b & Ec & Hbk & Ed); [apply He|by apply list.Forall_take|rewrite zlen_take; lia|].
  exists b. split; [done|]. split; [done|]. unfold init_head. unfold mbind at 1, step_bind at 1. rewrite entry_at by done. unfold mbind at 1, step_bind at 1. rewrite Ec. cbn [lift]. by rewrite update_at.
Qed.

Lemma take_id : be_int (take 8 (take (Z.to_nat m) d)) = pid.
Proof. destruct Hfit as [_ Hm _ _ _ _ _ _]. rewrite take_take. unfold pid. do 2 f_equal. lia. Qed.

Lemma head_progress now path s h age : now <> 0 -> seen now path -> 0 <= age -> rx_ok None (sw s) -> collects h age (sw s) ->
  progress h age 0 now path s (caught (receive_head now path (take (Z.to_nat m) d) (arrived now path s))).
Proof.
  intros Hnow Hseen Hage Hok Hc. pose proof Hfit as [_ Hm [Hl1 _] Hcnt _ _ _ _]. fold N in Hcnt. change ZT_MAX_PACKET_FRAGMENTS with 7 in *. pose proof (count_min m d Hm Hl1) as Hmin. fold N in Hmin.
  unfold receive_head. cbn zeta. rewrite take_id.
  destruct (find_own h age (arrived now path s) Hok Hc) as (p & i & e & age' & Ef & Hi & E & He & Hlk & Ha & Hpos & Hu & Hcase). unfold mbind at 1, step_bind at 1. rewrite Ef. cbn [sw world arrived] in *. set (w := path_received _ _ _) in *.
  assert (0 <= h < 2 ^ N) as Hh by apply Hc. pose proof (with_bit_range h 0 Hh ltac:(lia)) as Hrange.
  assert (entry_ok (set_locked e true)) as Hel by (by destruct He).
  erewrite lock_at by (reflexivity || done). unfold store_head. unfold mbind at 1, step_bind at 1. rewrite entry_at by done. cbn [entry_id set_locked have total].
  destruct (Z.eqb_spec h 0) as [->|Hh0].
  - destruct Hcase as [Hne ->]. rewrite (proj2 (Z.eqb_neq _ _)) by done. cbn [negb]. unfold mbind at 1, step_bind at 1. rewrite update_at by done. set (e1 := mkEntry _ _ _ _ _ _ _ _ _).
    assert (entry_ok e1) as He1 by (destruct He; by split). destruct (init_at (sw s) p w i e1 now path Hi He1) as (b & Hb & Hdb & Ei). unfold mbind at 1, step_bind at 1. rewrite Ei. rewrite update_at by done.
    split; [|intros E1; by destruct (single_not_full 0)]. intros _. rewrite unlock_at by done. cbn [caught]. eexists. split; [reflexivity|]. split; [done|]. split; [apply rx_ok_put; [done| |done]|].
    { destruct He1 as [H1 H2 H3 H4]. split; cbn; done || lia. }
    exists 0. split; [lia|]. apply collects_put; [done|done| |done|lia|exact Hpos]. split; cbn; try done.
    intros j Hj Hbit. rewrite with_bit_spec, Z.bits_0 in Hbit. destruct j; [lia|done].
  - destruct Hcase as [Hg ->]. pose proof Hg as [G1 G2 G3 G4 G5 G6 G7]. rewrite G1, Z.eqb_refl. cbn [negb]. rewrite G4. pose proof (bit_clear h 0) as Ebc. change (Z.shiftl 1 (Z.of_nat 0)) with 1 in Ebc. change (Z.of_nat 0) with 0 in Ebc. rewrite Ebc.
    destruct (Z.testbit h 0) eqn:Eb; cbn [negb].
    + unfold progress. rewrite (with_bit_same h 0 Eb). split; [|done]. intros _. change (mret ()) with (fun s : State W => Done s ()). cbn beta. rewrite unlock_same by done. cbn [caught]. eexists. split; [reflexivity|]. split; [done|].
      split; [by apply rx_ok_put|]. exists age. split; [lia|]. by apply collects_put; [lia|done| |done..].
    + assert (h <> 1) as Hn1 by (intros ->; done). rewrite (proj2 (Z.eqb_neq h 1)) in G5 by done. rewrite G5. rewrite (proj2 (Z.ltb_lt 1 N)) by lia. cbn [andb when]. change (Z.lor h 1) with (with_bit h 0).
      unfold mbind at 1, step_bind at 1. rewrite update_at by done. set (e1 := set_have _ _). assert (entry_ok e1) as He1 by (destruct He; by split). destruct (init_at (sw s) p w i e1 now path Hi He1) as (b & Hb & Hdb & Ei).
      assert ((countBits (with_bit h 0) =? N) = (with_bit h 0 =? full)) as Hcnt2 by (apply count_full; lia). rewrite Hcnt2. set (e2 := set_frag0 e1 _) in Ei.
      assert (entry_ok e2) as He2 by (by apply entry_ok_head).
      assert (gathers (with_bit h 0) e2) as Hg2.
      { assert (with_bit h 0 <> 1) as Hw1.
        { intros E1. apply Hh0, Z.bits_inj'. intros x Hx. rewrite Z.bits_0. destruct (decide (x = 0)) as [->|Hx0]; [done|]. apply (f_equal (fun y => Z.testbit y x)) in E1. unfold with_bit in E1. rewrite one_bit, Z.lor_spec in E1.
          change (Z.testbit 1 x) with (Z.testbit (2 ^ 0) x) in E1. change (Z.of_nat 0) with 0 in E1. rewrite !Z.pow2_bits_false in E1 by lia. by rewrite orb_false_r in E1. }
        split; cbn [entry_id timestamp complete have total frag0 frags set_locked set_have set_frag0 e1 e2 _buffer _authenticated _receiveTime _path]; try done; [by rewrite (proj2 (Z.eqb_neq _ _))|].
        intros j Hj Hbit. rewrite with_bit_spec in Hbit. destruct j as [|j]; [lia|]. rewrite orb_false_r in Hbit. by apply G7. }
      destruct (Z.eqb_spec (with_bit h 0) full) as [Efull|Hnf].
      * split; [done|]. intros _ _. rewrite Efull in Hg2. destruct Hg2 as [_ _ _ _ _ K6 K7]. destruct (K6 (full_bits 0 ltac:(lia))) as (Kd & Ka & Ks).
        destruct (assemble_decodes (sw s) p w i e2) as (b' & st & Hb' & Hdb' & Hw & Hdec); [done|done|done|done|done|intros j Hj HjN; apply K7; [done|by apply full_bits]|].
        eexists _, _, i, b', st. split; [exact Ks|]. split; [done|]. split; [done|]. split; [done|]. unfold unlocking in *. unfold mbind at 1, step_bind at 1. rewrite Ei. exact Hdec.
      * split; [|done]. intros _. rewrite Ei. rewrite unlock_at by done. cbn [caught]. eexists. split; [reflexivity|]. split; [done|]. split; [apply rx_ok_put; [done| |done]; by destruct He2|].
        exists age. split; [lia|]. apply collects_put; [done|done|by apply gathers_lock|done|done|done].
Qed.

Lemma datagram_progress k now path s h age : Z.of_nat k < N -> now <> 0 -> (k = 0%nat -> seen now path) -> 0 <= age -> rx_ok None (sw s) -> collects h age (sw s) ->
  progress h age k now path s (onRemotePacket self now mem path (datagram m d k) s).
Proof.
  intros Hk Hnow Hseen Hage Hok Hc. destruct k as [|k].
  - rewrite own_head. apply head_progress; auto.
  - destruct (own_fragment now path s (S k)) as (fr & Hfr & Ed & Epl & E1 & E2 & E3 & ->); [lia|done|]. apply fragment_progress; auto. lia.
Qed.
End own.

Section delivery.
Context {W : Type} `{Surroundings W} `{!Decoder W} (U : Prop) `{!DecoderLaws U W}.
Context (self m : Z) (d mem : list Z) (Hmem : packet_ok (mkBuffer mem 0)) (Hfit : fits self m d).

(** What arrives: datagram [k] of the packet, or something else. *)
Inductive Arrival := Own (k : nat) (now path : Z) | Other (x : list Z) (now path : Z).
Definition arrive (a : Arrival) : step W () :=
  match a with
  | Own k now path => onRemotePacket self now mem path (datagram m d k)
  | Other x now path => onRemotePacket self now mem path x
  end.
(** Something else does not have the packet's ID. *)
Definition arrival_ok (a : Arrival) : Prop :=
  match a with
  | Own k now _ => Z.of_nat k < datagram_count m (zlen d) /\ now <> 0
  | Other x _ _ => bytes_ok x /\ zlen x < 2 ^ 31 /\ be_int (take 8 x) <> be_int (take 8 d)
  end.
Definition is_own (a : Arrival) : bool := match a with Own _ _ _ => true | Other _ _ _ => false end.
Definition others (l : list Arrival) : Z := zlen (filter (fun a => is_own a = false) l).
Definition has (l : list Arrival) (k : nat) : Prop := exists now path, Own k now path ∈ l.
(** All datagrams of the packet have arrived. *)
Definition all_here (l : list Arrival) : Prop := forall k, Z.of_nat k < datagram_count m (zlen d) -> has l k.

#[local] Instance has_dec l k : Decision (has l k).
Proof.
  destruct (existsb (fun a => match a with Own j _ _ => (j =? k)%nat | Other _ _ _ => false end) l) eqn:E; [left|right].
  - apply existsb_exists in E as ([j t p|] & Hin & E); [|done]. apply Nat.eqb_eq in E as ->. exists t, p. by apply list_elem_of_In.
  - intros (t & p & Hin). apply not_true_iff_false in E. apply E, existsb_exists. exists (Own k t p). split; [by apply list_elem_of_In|apply Nat.eqb_refl].
Defined.

Let N := datagram_count m (zlen d).

Lemma is_full h : 0 <= h < 2 ^ N -> h = full m d <-> forall k, Z.of_nat k < N -> Z.testbit h (Z.of_nat k) = true.
Proof.
  intros Hh. split; [intros -> k Hk; by apply full_bits|]. intros Hb. apply Z.bits_inj'. intros i Hi. unfold full. fold N. replace (2 ^ N - 1) with (Z.ones N) by (rewrite Z.ones_equiv; lia).
  destruct (decide (i < N)).
  - rewrite Z.ones_spec_low by lia. rewrite <- (Z2Nat.id i) by lia. apply Hb. lia.
  - destruct Hfit as [_ Hm [Hl _] _ _ _ _ _]. pose proof (count_min m d Hm Hl) as Hmin. fold N in Hmin. rewrite Z.ones_spec_high by lia. apply (testbit_above h N); lia.
Qed.

(** Up to the last missing datagram the entry gathers what arrives. *)
Lemma gathering (L l : list Arrival) : (forall a, a ∈ l -> a ∈ L) -> forall s h age, rx_ok None (sw s) -> collects m d (fun t p => Own 0 t p ∈ L) h age (sw s) -> 0 <= age -> age + others l <= 31 -> Forall arrival_ok l ->
  (exists j, Z.of_nat j < N /\ Z.testbit h (Z.of_nat j) = false /\ ~ has l j) ->
  (others l = 0 -> exists s1, for_each l arrive s = Done s1 ()) /\
  forall s1, for_each l arrive s = Done s1 () -> exists h' age', rx_ok None (sw s1) /\ collects m d (fun t p => Own 0 t p ∈ L) h' age' (sw s1) /\ 0 <= age' /\
    forall j, Z.testbit h' (Z.of_nat j) = true <-> Z.testbit h (Z.of_nat j) = true \/ has l j.
Proof.
  induction l as [|a l IH]; intros HL s h age Hok Hc Hage Hoth Hal Hmiss; cbn [for_each].
  { split; [by eexists|]. intros s1 [= <-]. exists h, age. split_and!; try done. intros j. split; [by left|]. intros [?|(? & ? & Hin)]; [done|by apply elem_of_nil in Hin]. }
  apply list.Forall_cons in Hal as [Ha Hal]. destruct Hmiss as (j & Hj & Hbj & Hnj). assert (forall k t p, a = Own k t p -> k <> j) as Hneq by (intros k t p -> ->; apply Hnj; exists t, p; by left).
  assert (~ has l j) as Hnj' by (intros (t & p & Hin); apply Hnj; exists t, p; by right). unfold mbind, step_bind. destruct a as [k t p|x t p]; cbn [arrive arrival_ok] in *.
  - destruct Ha as [Hk Ht]. assert (0 <= h < 2 ^ N) as Hh by apply Hc. assert (others (Own k t p :: l) = others l) as Eo by (unfold others; by rewrite filter_cons_False).
    destruct (datagram_progress self m d mem Hmem Hfit (fun t p => Own 0 t p ∈ L) U k t p s h age) as [Hstep _]; [done|done|intros ->; apply HL; by left|done|done|done|].
    assert (Z.testbit (with_bit h k) (Z.of_nat j) = false) as Hbj'. { rewrite with_bit_spec, Hbj. cbn [orb]. apply Nat.eqb_neq. by eapply Hneq. }
    destruct Hstep as (s' & -> & _ & Hok' & age' & Hage' & Hc'); [intros E; rewrite E, full_bits in Hbj' by done; done|].
    destruct (IH ltac:(set_solver) s' _ age' Hok' Hc') as [IH1 IH2]; [lia|lia|done|by exists j|]. split; [intros E0; apply IH1; congruence|].
    intros s1 E1. destruct (IH2 s1 E1) as (h' & age'' & H1 & H2 & H3 & H4). exists h', age''. split_and!; try done. intros i. rewrite H4, with_bit_spec, orb_true_iff, Nat.eqb_eq. split.
    + intros [[?| ->]|(t' & p' & Hin)]; [by left|right; exists t, p; by left|right; exists t', p'; by right].
    + intros [?|(t' & p' & [E|Hin]%elem_of_cons)]; [by left; left|injection E as -> _ _; by left; right|right; by exists t', p'].
  - destruct Ha as (Hx & Hz & Hid). assert (others (Other x t p :: l) = others l + 1) as Eo by (unfold others; rewrite filter_cons_True by done; rewrite zlen_cons; lia). pose proof (zlen_nonneg (filter (fun a => is_own a = false) l)) as Hnn. fold (others l) in Hnn.
    split; [lia|]. intros s1 E1. pose proof (decoder_laws_weaken U True ltac:(done)) as Hlaws. pose proof (keep_datagram True self t mem Hmem (be_int (take 8 d)) p x Hx Hz Hid ltac:(done) s Hok) as Hkeep. unfold post in Hkeep.
    destruct (onRemotePacket self t mem p x s) as [s' []| |]; [|done|done]. destruct Hkeep as [Hok' Hk]. destruct (collects_keeps m d _ h age _ _ Hc Hk) as (age' & Hage' & Hc'); [lia|].
    destruct (IH ltac:(set_solver) s' h age' Hok' Hc') as [_ IH2]; [lia|lia|done|by exists j|]. destruct (IH2 s1 E1) as (h' & age'' & H1 & H2 & H3 & H4). exists h', age''. split_and!; try done.
    intros i. rewrite H4. split; [intros [?|(t' & p' & Hin)]; [by left|right; exists t', p'; by right]|]. intros [?|(t' & p' & [E|Hin]%elem_of_cons)]; [by left|done|right; by exists t', p'].
Qed.

(** C34. The datagrams of a packet arrive in any order, repeated, and mixed with at most 31 others. As long as one is missing nothing is decoded; when the last one comes the
    packet is given to [tryDecode], with the bytes that were sent, and its entry is freed or waits as that says. *)
Theorem packet_reassembled s l k now path : rx_ok None (sw s) -> (forall i e, _rxQueue (sw s) !! i = Some e -> entry_id e <> be_int (take 8 d)) ->
  Forall arrival_ok (l ++ [Own k now path]) -> others l <= 31 -> ~ all_here l ->
  (others l = 0 -> exists s1, for_each l arrive s = Done s1 ()) /\
  forall s1, for_each l arrive s = Done s1 () ->
    (~ all_here (l ++ [Own k now path]) -> exists s2, arrive (Own k now path) s1 = Done s2 () /\ world s2 = path_received (world s1) path now) /\
    (all_here (l ++ [Own k now path]) -> exists t p i b st, Own 0 t p ∈ l ++ [Own k now path] /\ packet_ok b /\ data b = d /\ world st = path_received (world s1) path now /\
      decoded i (tryDecode (mkIncoming b t p false) NO_FLOW st) (arrive (Own k now path) s1)).
Proof.
  intros Hok Hnew Hal Hoth Hmiss. apply list.Forall_app in Hal as [Hal [[Hk Hnow] _]%list.Forall_cons]. set (L := l ++ [Own k now path]).
  destruct Hfit as [_ Hm [Hl1 _] _ _ _ _ _]. pose proof (count_min m d Hm Hl1) as Hmin. fold N in Hmin.
  assert (collects m d (fun t p => Own 0 t p ∈ L) 0 0 (sw s)) as Hc by (split; [split; [done|apply Z.pow_pos_nonneg; fold N; lia]|exact Hnew]).
  assert (exists j, Z.of_nat j < N /\ ~ has l j) as (j & Hj & Hnj).
  { destruct (decide (Exists (fun j => ~ has l j) (seq 0 (Z.to_nat N)))) as [Hex|Hno].
    - apply list.Exists_exists in Hex as (j & Hin & Hnj). apply elem_of_seq in Hin. exists j. split; [lia|done].
    - exfalso. apply Hmiss. intros j Hj. destruct (decide (has l j)) as [|Hn]; [done|]. exfalso. apply Hno, list.Exists_exists. exists j. split; [apply elem_of_seq; fold N in Hj; lia|done]. }
  destruct (gathering L l ltac:(set_solver) s 0 0 Hok Hc) as [H1 H2]; [lia|lia|done|exists j; by rewrite Z.bits_0|]. split; [done|]. intros s1 E1. destruct (H2 s1 E1) as (h & age & Hok1 & Hc1 & Hage & Hbits).
  assert (0 <= h < 2 ^ N) as Hh by apply Hc1. destruct (datagram_progress self m d mem Hmem Hfit (fun t p => Own 0 t p ∈ L) U k now path s1 h age) as [Hp1 Hp2]; [done|done|intros ->; set_solver|done|done|done|].
  assert (with_bit h k = full m d <-> all_here L) as Hfull.
  { pose proof (with_bit_range m d h k Hh Hk) as Hr. fold N in Hr. rewrite is_full by lia. split.
    - intros Hb i Hi. specialize (Hb i Hi). rewrite with_bit_spec, orb_true_iff, Nat.eqb_eq, Hbits, Z.bits_0 in Hb. destruct Hb as [[?|(t & p & Hin)]| ->]; [done|exists t, p; set_solver|exists now, path; set_solver].
    - intros Hall i Hi. rewrite with_bit_spec, orb_true_iff, Nat.eqb_eq, Hbits. destruct (Hall i Hi) as (t & p & [Hin|E%list_elem_of_singleton]%elem_of_app); [left; right; by exists t, p|injection E as -> _ _; by right]. }
  split; intros Hall; cbn [arrive].
  - destruct Hp1 as (s2 & -> & Hw & _); [by rewrite Hfull|]. by exists s2.
  - destruct Hp2 as (t & p & i & b & st & Hs & Hb & Hd & Hw & Hde); [by apply Hfull| |by exists t, p, i, b, st]. intros ->. apply Hnj. destruct (Hbits j) as [Hb' _]. rewrite full_bits, Z.bits_0 in Hb' by done. by destruct Hb'.
Qed.
End delivery.

(** With the default limit of 1432 bytes that is a packet of more than 9928 bytes, which [Packet] has room for. *)
Example nine_thousand_nine_hundred_twenty_eight : datagram_count 1432 9928 = 7 /\ datagram_count 1432 9929 = 8 /\ datagram_count 1432 ZT_PROTO_MAX_PACKET_LENGTH = 8.
Proof. by split_and!. Qed.

(** ** Witness *)

(** An upstream that notes what it decodes, what it sends along a path and what it relays, and knows one peer. Path 2 is trusted, with the ID 77. *)
Record ToyWorld := mkToy { toy_decoded : list IncomingPacket; toy_wire : list (Z * list Z); toy_relayed : list (Z * list Z) }.
#[export] Instance toy_surroundings : Surroundings ToyWorld := {|
  path_received w _ _ := w; amUpstream _ := true; trustEstablished _ _ _ := false; getPeer w a := (w, a =? 0x1122334455); getUpstreamPeer _ _ := Some 0x1122334455;
  sendDirect w a b _ _ := (mkToy (toy_decoded w) (toy_wire w) (toy_relayed w ++ [(a, b)]), true); introduce w a _ b := if a =? b then None else Some w; broadcasts _ _ := false; alive_paths _ _ _ := []; getAppropriatePath _ _ _ _ _ := Some 1; tryMemorizedPath w _ _ := w;
  path_mtu _ _ := 0; getOutboundPathInfo _ p := Some (40, if p =? 2 then 77 else 0); peer_keys _ _ := mkKeys toy_key None ([], []) []; expectReply w _ := w; recordOutgoingPacket w _ _ _ _ _ := w;
  path_send w p b _ := (mkToy (toy_decoded w) (toy_wire w ++ [(p, b)]) (toy_relayed w), true); fresh w := (w, (replicate 10024 0, replicate 8 1)) |}.
#[export] Instance toy_introductions : Introductions ToyWorld.
Proof. intros w a t b Hne. cbn. rewrite (proj2 (Z.eqb_neq a b)) by done. by eexists. Qed.
#[export] Instance toy_decoder : Decoder ToyWorld := fun p _ s => Done (mkState (sw s) (mkToy (toy_decoded (world s) ++ [p]) (toy_wire (world s)) (toy_relayed (world s)))) (p, true).
#[export] Instance toy_decoder_laws U : DecoderLaws U ToyWorld.
Proof. intros pid i p fl Hp s Hs. unfold post, tryDecode, toy_decoder. cbn [sw]. split; [done|]. split; [reflexivity|]. by split. Qed.

Definition toy_mem : list Z := replicate 10024 0.
Definition toy_entry : RXQueueEntry := mkEntry 0 0 (mkIncoming (mkBuffer toy_mem 0) 0 0 false) (replicate 6 (mkBuffer toy_mem 0)) 0 0 false NO_FLOW false.
Definition toy_switch : Switch := mkSwitch (replicate 32 toy_entry) 0 [] ∅ ∅ 0.
Definition toy_node : State ToyWorld := mkState toy_switch (mkToy [] [] []).

Lemma toy_mem_ok : packet_ok (mkBuffer toy_mem 0).
Proof. split; [|vm_compute; reflexivity]. split; [split; vm_compute; congruence|vm_compute; reflexivity|by apply list.Forall_replicate]. Qed.
Lemma toy_switch_ok : rx_ok None toy_switch.
Proof.
  split; [done|]. intros i e He. apply lookup_replicate in He as [-> _]. split; [|done]. split; cbn [frag0 frags total toy_entry _buffer]; [apply toy_mem_ok|done|apply list.Forall_replicate, toy_mem_ok|done].
Qed.

(** A packet of 60 bytes from 0x1122334455 to 8, in four datagrams of at most 30 bytes. *)
Definition toy_sent : list Z := seqZ 1 8 ++ Address.to_bytes 8 ++ Address.to_bytes 0x1122334455 ++ [0x40] ++ replicate 8 7 ++ seqZ 100 33.
Lemma toy_fits : fits 8 30 toy_sent.
Proof.
  split.
  - by_compute.
  - done.
  - vm_compute. split; congruence.
  - vm_compute. congruence.
  - vm_compute. reflexivity.
  - exists 0x1122334455. split; [vm_compute; reflexivity|done].
  - vm_compute. congruence.
  - exists 0x40. split; [vm_compute; reflexivity|done].
Qed.

(** The second fragment, the head, the second fragment again and the third have arrived; then the first comes. *)
Lemma packet_reassembled_witness : exists s1 t p i b st, for_each [Own 2 5 1; Own 0 6 1; Own 2 7 1; Own 3 8 1] (arrive 8 30 toy_sent toy_mem) toy_node = Done s1 () /\
  data b = toy_sent /\ decoded i (tryDecode (mkIncoming b t p false) NO_FLOW st) (arrive 8 30 toy_sent toy_mem (Own 1 9 1) s1).
Proof.
  assert (forall k, Z.of_nat k < datagram_count 30 (zlen toy_sent) -> k = 0%nat \/ k = 1%nat \/ k = 2%nat \/ k = 3%nat) as Hk by (intros k Hk; change (datagram_count 30 (zlen toy_sent)) with 4 in Hk; lia).
  destruct (packet_reassembled True 8 30 toy_sent toy_mem toy_mem_ok toy_fits toy_node [Own 2 5 1; Own 0 6 1; Own 2 7 1; Own 3 8 1] 1 9 1) as [H1 H2].
  - apply toy_switch_ok.
  - intros i e He. apply lookup_replicate in He as [-> _]. vm_compute. congruence.
  - repeat (apply list.Forall_cons; split; [split; [vm_compute; reflexivity|done]|]). apply list.Forall_nil_2.
  - vm_compute. congruence.
  - intros Hall. destruct (Hall 1%nat) as (t & p & Hin); [vm_compute; reflexivity|]. repeat (apply elem_of_cons in Hin as [Hin|Hin]; [discriminate Hin|]). by apply elem_of_nil in Hin.
  - destruct H1 as [s1 E1]; [reflexivity|]. destruct (H2 s1 E1) as [_ H3]. destruct H3 as (t & p & i & b & st & _ & _ & Hd & _ & Hde).
    + intros k Hlt. destruct (Hk k Hlt) as [->|[->|[->| ->]]]; unfold has; cbn [app].
      * exists 6, 1. right. by left.
      * exists 9, 1. right. right. right. right. by left.
      * exists 5, 1. by left.
      * exists 8, 1. right. right. right. by left.
    + exists s1, t, p, i, b, st. split; [exact E1|]. split; [exact Hd|exact Hde].
Defined.

(** A packet to pass on that names one node as source and destination: the node that relays it waits for ever. *)
Definition toy_loop : list Z := seqZ 1 8 ++ Address.to_bytes 0x1122334455 ++ Address.to_bytes 0x1122334455 ++ [0] ++ replicate 8 7 ++ seqZ 100 33.
Example toy_loop_blocks : onRemotePacket 8 30000 toy_mem 1 toy_loop toy_node = Undefined.
Proof. vm_compute. reflexivity. Qed.

(** A fragment arrives at the node. *)
Lemma switch_wellformed_witness : exists s', run_call (H0 := toy_packet_crypto) 8 5 toy_mem toy_scratch (replicate 16 3) (CallDatagram 1 (datagram 30 toy_sent 2)) toy_node = Done s' () /\ rx_ok None (sw s').
Proof.
  pose proof (switch_wellformed (H0 := toy_packet_crypto) False 8 5 toy_mem toy_scratch (replicate 16 3) toy_mem_ok (CallDatagram 1 (datagram 30 toy_sent 2)) toy_node) as Hw.
  destruct (run_call _ _ _ _ _ _ _) as [s' []|s' e|].
  - exists s'. split; [done|]. apply Hw; [split; by_compute|apply toy_switch_ok].
  - destruct Hw as [_ Hw]; [split; by_compute|apply toy_switch_ok|]. by destruct (Hw 1 (datagram 30 toy_sent 2)).
  - destruct (Hw ltac:(split; by_compute) toy_switch_ok 1 (datagram 30 toy_sent 2) eq_refl) as [[]|(a & Hne & E8 & _)]. vm_compute in E8. congruence.
Defined.
