(* ===== verification/Sending.v ===== *)
(** * A packet is sent in datagrams

    What [_sendViaSpecificPath] puts on a path: the datagrams of the armored packet, as the receiver of Reassembly expects them; the packet that is put together there is
    recovered by [dearmor]. *)

From S2P Require Import Prelude Buffer Address Salsa20 Poly1305 Identity Packet Switch SwitchInv Reassembly.
Import Packet.

(** Everything that is given to a path, in order. *)
Class Wire (W : Type) `{Surroundings W} := {
  wire : W -> list (Z * list Z);
  wire_send w p b t : wire (path_send w p b t).1 = wire w ++ [(p, b)];
  wire_expect w p : wire (expectReply w p) = wire w;
  wire_record w peer p b f t : wire (recordOutgoingPacket w peer p b f t) = wire w;
}.

Definition datagrams (m : Z) (d : list Z) : list (list Z) :=
  if zlen d <=? m then [d] else datagram m d <$> seq 0 (Z.to_nat (datagram_count m (zlen d))).

(** ** Armor of a packet that fits *)

(** Flags with the one for fragments as it is set, whatever the cipher and the extended armor. *)
Definition with_fragmented (fl : Z) (on : bool) : Z := u8 (if on then Z.lor fl 0x40 else Z.land fl (u8 (Z.lnot 0x40))).
Lemma flagged fl on : byte_ok fl -> (Z.land (with_fragmented fl on) 0x40 =? 0) = negb on /\ Z.land (with_fragmented fl on) 0xbf = Z.land fl 0xbf.
Proof.
  intros Hf. assert (Bool.eqb (Z.land (with_fragmented fl on) 0x40 =? 0) (negb on) && (Z.land (with_fragmented fl on) 0xbf =? Z.land fl 0xbf) = true) as E.
  { revert fl Hf. apply (byte_cases (fun fl => Bool.eqb (Z.land (with_fragmented fl on) 0x40 =? 0) (negb on) && (Z.land (with_fragmented fl on) 0xbf =? Z.land fl 0xbf))). destruct on; vm_compute; reflexivity. }
  by rewrite andb_true_iff, eqb_true_iff, Z.eqb_eq in E.
Qed.
Lemma with_cipher_flag fl c : 0 <= c < 4 -> byte_ok fl -> Z.land (with_cipher fl c) 0x40 = Z.land fl 0x40.
Proof.
  intros Hc Hf. apply Z.eqb_eq. assert (c = 0 \/ c = 1 \/ c = 2 \/ c = 3) as D by lia. revert fl Hf.
  destruct D as [->|[->|[->| ->]]]; (refine (byte_cases (fun fl => Z.land (with_cipher fl _) 0x40 =? Z.land fl 0x40) _); vm_compute; reflexivity).
Qed.
Lemma with_ext_flag fl : byte_ok fl -> Z.land (with_ext fl false) 0x40 = Z.land fl 0x40.
Proof. intros Hf. apply Z.eqb_eq. revert fl Hf. apply (byte_cases (fun fl => Z.land (with_ext fl false) 0x40 =? Z.land fl 0x40)). vm_compute. reflexivity. Qed.
Lemma fragmented_hops fl on : byte_ok fl -> Z.land (with_fragmented fl on) 7 = Z.land fl 7.
Proof.
  intros Hf. apply Z.eqb_eq. revert fl Hf. apply (byte_cases (fun fl => Z.land (with_fragmented fl on) 7 =? Z.land fl 7)). destruct on; vm_compute; reflexivity.
Qed.

(** Two packets with the same data differ in the array behind it. *)
Lemma same_data_form b hdr fl mac body tail : packet_ok b -> form_ok hdr fl mac body tail -> data b = data (form hdr fl mac body tail) ->
  exists tail2, b = form hdr fl mac body tail2 /\ form_ok hdr fl mac body tail2.
Proof.
  intros [Hb _] Hok E. destruct (packet_form b Hb) as (hdr2 & fl2 & mac2 & body2 & tail2 & -> & Hok2).
  { rewrite <- (zlen_data b Hb), E, zlen_data by (by apply form_buf_ok). cbn [_l form]. pose proof (zlen_nonneg body). lia. }
  rewrite !form_data in E by done. destruct Hok as (_ & L1 & _ & _ & L2 & _), Hok2 as (? & L3 & ? & ? & L4 & ? & ? & ?).
  apply app_inj_1 in E as [-> E]; [|congruence]. apply app_inj_1 in E as [[= ->] E]; [|done]. apply app_inj_1 in E as [-> ->]; [|congruence]. exists tail2. by split_and!.
Qed.

Section sending.
Context {W : Type} `{Surroundings W} `{!Wire W} `{PacketCryptoLaws}.
Context (now : Z) (mem tmp pbuf : list Z) (Hmem : packet_ok (mkBuffer mem 0)) (Hscratch : scratch_ok tmp pbuf).

(** The fragments from number [k] on. *)
Lemma send_fragments_spec path q m : packet_ok q -> 28 <= m < size q -> (forall w b t, (path_send w path b t).2 = true) -> forall n k (s : State W), (1 <= k)%nat -> Z.of_nat k + Z.of_nat n = datagram_count m (size q) ->
  exists s', send_fragments now mem path q m n (Z.of_nat k) (datagram_count m (size q)) (if n is O then size q else piece_start m k) (if n is O then 0 else size q - piece_start m k) s = Done s' () /\
    sw s' = sw s /\ wire (world s') = wire (world s) ++ ((fun i => (path, datagram m (data q) i)) <$> seq k n).
Proof.
  intros [Hq Hcap] Hm Hacc. pose proof (zlen_data q Hq) as Hz. change ZT_PROTO_MAX_PACKET_LENGTH with 10024 in Hcap. pose proof Hq as [Hqs _ _]. unfold size in *.
  induction n as [|n IH]; intros k s Hk Hn; cbn [send_fragments]; [exists s; split; [done|]; split; [done|]; by rewrite app_nil_r|].
  assert (Z.of_nat k < datagram_count m (zlen (data q))) as HkN by (rewrite Hz; lia). destruct (piece_bounds m (data q) ltac:(lia) k Hk HkN) as (P1 & P2 & P3). rewrite Hz in *.
  change ZT_PROTO_MIN_FRAGMENT_LENGTH with 16. rewrite (u32_small (m - 16)) by lia. replace (Z.min (_l q - piece_start m k) (m - 16)) with (piece_len m (_l q) k) by (unfold piece_len; lia).
  destruct (fragment_init_data (mkBuffer mem 0) q (piece_start m k) (piece_len m (_l q) k) (Z.of_nat k) (datagram_count m (_l q))) as (f & Ef & Hf & Hdf); [apply Hmem|done|unfold size; lia|lia|lia|destruct Hmem as [_ ->]; change ZT_PROTO_MAX_PACKET_LENGTH with 10024; lia|done|].
  unfold mbind at 1, step_bind at 1. rewrite Ef. cbn [lift]. unfold mbind at 1, step_bind at 1. unfold run at 1. pose proof (wire_send (world s) path (data f) now) as Hw. pose proof (Hacc (world s) (data f) now) as Ha.
  destruct (path_send (world s) path (data f) now) as [w' ok]. cbn [fst snd] in *. subst ok. destruct (IH (S k) (mkState (sw s) w')) as (s' & E' & Hsw & Hw'); [lia|lia|].
  assert (match n with O => _l q | S _ => piece_start m (S k) end = piece_start m k + piece_len m (_l q) k) as Enext.
  { rewrite <- Hz. destruct n; [symmetry; apply piece_last; rewrite ?Hz; lia|apply piece_next; rewrite ?Hz; lia]. }
  assert (match n with O => 0 | S _ => _l q - piece_start m (S k) end = _l q - piece_start m k - piece_len m (_l q) k) as Erest by (destruct n; lia).
  rewrite Enext, Erest in E'. exists s'. split; [|split; [by rewrite Hsw|]].
  - rewrite <- E'. replace (Z.of_nat (S k)) with (Z.of_nat k + 1) by lia. by rewrite !u32_small by lia.
  - rewrite Hw'. cbn [world]. rewrite Hw, Hdf, <- app_assoc. cbn [seq fmap list_fmap app]. destruct k; [lia|]. by rewrite <- Hz.
Qed.

(** The number of fragments as the code computes it. *)
Lemma count_code m n (room := m - 16) (r := (n - m) / room) : 28 <= m < n -> (if r * room <? n - m then r + 1 else r) + 1 = datagram_count m n.
Proof.
  intros Hm. unfold datagram_count. fold room. assert (0 < room) by (unfold room; lia). pose proof (Z.div_mod (n - m) room ltac:(lia)) as E. pose proof (Z.mod_pos_bound (n - m) room ltac:(lia)) as Hr. fold r in E.
  assert ((n - m + room - 1) / room = if r * room <? n - m then r + 1 else r) as ->; [|lia]. symmetry. destruct (Z.ltb_spec (r * room) (n - m)).
  - apply (Z.div_unique _ _ _ ((n - m) mod room - 1)); [lia|lia].
  - apply (Z.div_unique _ _ _ (room - 1)); [lia|nia].
Qed.

(** What goes out for [p]: a packet of its size, with its addresses, flagged when it is in pieces. *)
Record goes_out (p : Buffer) (big : bool) (q : Buffer) : Prop := {
  go_ok : packet_ok q;
  go_size : size q = size p;
  go_id : exists pid, packetId q = Ok pid;
  go_addresses : take 10 (drop 8 (data q)) = take 10 (drop 8 (data p));
  go_flag : exists fl, byte_at (data q) ZT_PACKET_IDX_FLAGS = Ok fl /\ (Z.land fl ZT_PROTO_FLAG_FRAGMENTED =? 0) = negb big;
}.

(** And what it is: on a trusted path the packet itself, marked with the path's ID; a packet that is encrypted already, with nothing but its flag for fragments set; any other, armored for the peer. *)
Definition sent_as (tmp' pbuf' : list Z) (k : Keys) (tpid : Z) (p q : Buffer) : Prop :=
  (tpid <> 0 -> cipher q = Ok ZT_PROTO_CIPHER_SUITE__NO_CRYPTO_TRUSTED_PATH /\ trustedPathId q = Ok (tpid mod 2 ^ 64) /\ recovered p q) /\
  (tpid = 0 -> isEncrypted p = Ok true -> take 18 (data q) = take 18 (data p) /\ drop 19 (data q) = drop 19 (data p) /\ exists fl fl', byte_at (data p) 18 = Ok fl /\ byte_at (data q) 18 = Ok fl' /\ Z.land fl' 0xbf = Z.land fl 0xbf) /\
  (tpid = 0 -> isEncrypted p = Ok false -> forall b id, packet_ok b -> data b = data q ->
     exists r, Armor.dearmor tmp' pbuf' b (key k) (aesKeysIfSupported k) id = Ok (r, true) /\ recovered p r).

Lemma byte_at_flags hdr fl mac body tail : form_ok hdr fl mac body tail -> byte_at (data (form hdr fl mac body tail)) 18 = Ok fl.
Proof.
  intros Hok. pose proof Hok as (_ & Hl & _). unfold byte_at. rewrite form_data by done. replace 18 with (zlen hdr) by (unfold zlen; by rewrite Hl). change 1 with (zlen [fl]). by rewrite mem_read_app.
Qed.
Lemma form_goes_out hdr fl mac body tail hdr' fl' mac' body' big : packet_ok (form hdr fl mac body tail) -> form_ok hdr fl mac body tail -> form_ok hdr' fl' mac' body' tail -> drop 8 hdr' = drop 8 hdr -> zlen body' = zlen body ->
  (Z.land fl' 0x40 =? 0) = negb big -> goes_out (form hdr fl mac body tail) big (form hdr' fl' mac' body' tail).
Proof.
  intros [Hp Hcap] Hok Hok' Hh Hb Hf. pose proof Hok as (_ & Hlh & _). pose proof Hok' as (_ & Hlh' & _). rewrite form_cap in Hcap by done. split.
  - split; [by apply form_buf_ok|rewrite form_cap by done; lia].
  - unfold size. cbn [_l form]. lia.
  - exists (be_int (take 8 hdr')). unfold packetId. change ZT_PACKET_IDX_IV with (zlen (@nil Z)). rewrite (at_data _ (form_buf_ok _ _ _ _ _ Hok') [] (take 8 hdr') (drop 8 hdr' ++ [fl'] ++ mac' ++ body') 8); [done| |rewrite length_take; lia].
    rewrite form_data by done. cbn [app]. by rewrite (app_assoc (take 8 hdr')), take_drop.
  - rewrite !form_data by done. rewrite !drop_app_le by lia. rewrite !take_app_le by (rewrite length_drop; lia). by rewrite Hh.
  - exists fl'. split; [by apply byte_at_flags|exact Hf].
Qed.

Lemma isEncrypted_form hdr fl mac body tail : form_ok hdr fl mac body tail -> exists e, isEncrypted (form hdr fl mac body tail) = Ok e.
Proof. intros Hok. unfold isEncrypted. rewrite cipher_form by done. by eexists. Qed.

(** A trusted path: the suite is set, and the ID of the path is put in the place of the MAC. *)
Lemma setTrusted_form hdr fl mac body tail tpid : form_ok hdr fl mac body tail ->
  setTrusted (form hdr fl mac body tail) tpid = Ok (form hdr (with_cipher fl 2) (be_bytes 8 tpid) body tail).
Proof.
  intros Hok. unfold setTrusted. change ZT_PROTO_CIPHER_SUITE__NO_CRYPTO_TRUSTED_PATH with 2. rewrite setCipher_form by done. cbn [mbind outcome_bind].
  assert (form_ok hdr (with_cipher fl 2) mac body tail) as Hok1 by (eapply form_ok_flags; [done|apply u8_ok]). pose proof (form_zlens _ _ _ _ _ Hok) as (_ & _ & ? & ? & ?).
  unfold setAt. rewrite bind_throw_if_false by (apply Z.ltb_ge; change ZT_PACKET_IDX_MAC with 19; change (u32 (19 + Z.of_nat 8)) with 27; cbn [_l form]; lia).
  pose proof (form_set_mac _ _ _ _ _ Hok1 (be_bytes 8 tpid) (length_be_bytes _ _)) as Hw. unfold raw_write in Hw. destruct (mem_write (_b (form hdr (with_cipher fl 2) mac body tail)) ZT_PACKET_IDX_MAC (be_bytes 8 tpid)); [exact Hw|done..].
Qed.

(** The packet as it goes out. *)
Lemma prepare_spec tmp' pbuf' k tpid p encrypt big : scratch_ok tmp' pbuf' -> packet_ok p -> ZT_PROTO_MIN_PACKET_LENGTH <= size p -> (tpid = 0 -> isEncrypted p = Ok false -> hops p = Ok 0 /\ key_ok (key k)) ->
  exists p1 q armored, setFragmented p big = Ok p1 /\ prepare tmp pbuf k tpid p1 encrypt = Ok (q, armored) /\ goes_out p big q /\ sent_as tmp' pbuf' k tpid p q.
Proof.
  intros Hs' Hp Hsz Hclear. change ZT_PROTO_MIN_PACKET_LENGTH with 28 in Hsz. destruct (packet_form p (proj1 Hp)) as (hdr & fl & mac & body & tail & -> & Hok); [unfold size in Hsz; lia|].
  pose proof Hok as (_ & _ & Hf & _). set (fl1 := with_fragmented fl big). destruct (flagged fl big Hf) as [Hbit Hrest]. fold fl1 in Hbit, Hrest. assert (byte_ok fl1) as Hf1 by apply u8_ok.
  assert (form_ok hdr fl1 mac body tail) as Hok1 by (eapply form_ok_flags; [exact Hok|done]).
  exists (form hdr fl1 mac body tail). unfold setFragmented, setFlag. rewrite form_flags by done. cbn [mbind outcome_bind]. change ZT_PROTO_FLAG_FRAGMENTED with 0x40. rewrite form_set_flags by done. change (u8 (if big then _ else _)) with fl1.
  assert (isEncrypted (form hdr fl1 mac body tail) = isEncrypted (form hdr fl mac body tail)) as Henc.
  { unfold isEncrypted. rewrite !cipher_form by done. cbn [mbind outcome_bind]. replace (cipher_of fl1) with (cipher_of fl); [done|]. unfold cipher_of. apply (f_equal (fun x => Z.shiftr (Z.land x 0x38) 3)) in Hrest.
    rewrite <- !Z.land_assoc in Hrest. by symmetry. }
  unfold prepare. destruct (Z.eqb_spec tpid 0) as [->|Hne]; cbn [negb].
  2: { rewrite setTrusted_form by done. cbn [mbind outcome_bind]. assert (form_ok hdr (with_cipher fl1 2) (be_bytes 8 tpid) body tail) as Hok2 by (apply (form_ok_change _ _ _ _ _ Hok1); [apply u8_ok|apply bytes_ok_be_bytes|apply length_be_bytes|apply Hok|done]).
    eexists _, false. split; [done|]. split; [done|]. split; [apply form_goes_out; [done..|by rewrite with_cipher_flag by done]|]. split; [|done]. intros _.
    destruct (with_cipher_ok fl1 2 ltac:(done) Hf1) as (Hc & _). split; [by rewrite cipher_form, Hc by done|]. split; [|by apply recovered_form].
    unfold trustedPathId, at_. pose proof (form_zlens _ _ _ _ _ Hok) as (_ & _ & ? & ? & ?). rewrite bind_throw_if_false by (apply Z.ltb_ge; change ZT_PACKET_IDX_MAC with 19; change (u32 (19 + Z.of_nat 8)) with 27; cbn [_l form]; lia).
    pose proof (form_mac _ _ _ _ _ Hok2) as Hr. unfold raw_read in Hr. change (Z.of_nat 8) with 8. rewrite Hr. cbn [mbind outcome_bind]. by rewrite be_int_be_bytes. }
  rewrite Henc. destruct (isEncrypted_form hdr fl mac body tail Hok) as [[|] Ee]; rewrite Ee; cbn [mbind outcome_bind].
  { eexists _, true. split; [done|]. split; [done|]. split; [by apply form_goes_out|]. split; [done|]. split; [intros _ _|by rewrite Ee].
    destruct (form_data_parts _ _ _ _ _ Hok) as (-> & _ & _ & _). destruct (form_data_parts _ _ _ _ _ Hok1) as (-> & _ & _ & _). split; [done|]. split; [|by exists fl, fl1; rewrite !byte_at_flags by done].
    rewrite !form_data by done. pose proof Hok as (_ & Hlh & _). by rewrite !(drop_app_ge hdr), Hlh by lia. }
  destruct (Hclear eq_refl Ee) as [Hhops Hk]. assert (Z.land fl 7 = 0) as H7. { unfold hops in Hhops. rewrite form_flags in Hhops by done. cbn in Hhops. by injection Hhops. }
  rewrite armor_layers by done. destruct (armor_suite_form tmp pbuf tmp' pbuf' hdr (with_ext fl1 false) mac body tail (key k) encrypt (aesKeysIfSupported k)) as (hdr' & mac' & body' & E & Hok' & Hd & Hlb & Hde); [done|done|eapply form_ok_flags; [exact Hok1|apply u8_ok]|done| |].
  { intros _ _. destruct (with_ext_ok fl1 false Hf1) as [_ ->]. unfold fl1. by rewrite fragmented_hops. }
  set (fl' := with_cipher _ _) in *. rewrite E. cbn [mbind outcome_bind]. exists (form hdr' fl' mac' body' tail), true. split; [done|]. split; [done|]. assert (zlen body' = zlen body) as Hzb by (unfold zlen; by rewrite Hlb).
  split. { apply form_goes_out; [done..|]. unfold fl'. rewrite with_cipher_flag, with_ext_flag by (apply suite_bound || apply u8_ok). exact Hbit. }
  split; [done|]. split; [by rewrite Ee|]. intros _ _ b id Hb Hdb. destruct (same_data_form b _ _ _ _ _ Hb Hok' Hdb) as (tail2 & -> & Hok2). exists (form hdr' fl' mac' body tail2). rewrite dearmor_layers by done.
  destruct (with_cipher_ok (with_ext fl1 false) (suite encrypt (aesKeysIfSupported k))) as (Hc & Hext & _); [apply suite_bound|apply u8_ok|]. fold fl' in Hc, Hext. destruct (with_ext_ok fl1 false Hf1) as [He _].
  split.
  - rewrite Hext, He. cbn [andb mbind outcome_bind negb]. rewrite Hc. by apply Hde.
  - apply recovered_form; [done| |done]. eapply form_ok_body; [exact Hok2|done|apply Hok].
Qed.

(** The limit for a datagram on a path, and whether the path is trusted. *)
Definition path_info (w : W) (viaPath userSpecifiedMtu : Z) : Z * Z :=
  let '(mtu, tpid) := default (ZT_DEFAULT_PHYSMTU, 0) (getOutboundPathInfo w viaPath) in (if 0 <? userSpecifiedMtu then userSpecifiedMtu else mtu, tpid).

(** The reply to an armored packet is expected. *)
Lemma expect_step (armored : bool) pid (s : State W) : exists w, when armored (tell (fun w => expectReply w pid)) s = Done (mkState (sw s) w) () /\ wire w = wire (world s).
Proof. destruct armored; [eexists; split; [reflexivity|apply wire_expect]|exists (world s); by destruct s]. Qed.

(** C35. On a path that accepts what it is given a packet goes out as the datagrams of one packet of its size, with its addresses, flagged exactly when it is in pieces: on a trusted path the packet itself
    with the path's ID in the place of the MAC, a packet that is encrypted already as it is, and any other (which has no hops yet) armored, so that [dearmor] recovers its content from the bytes.
    In two to seven pieces, from one node to another, they are what Reassembly expects. *)
Theorem sent_in_datagrams peer path umtu p encrypt fl s tmp' pbuf' (k := peer_keys (world s) peer) (mtu := (path_info (world s) path umtu).1) (tpid := (path_info (world s) path umtu).2) :
  scratch_ok tmp' pbuf' -> packet_ok p -> ZT_PROTO_MIN_PACKET_LENGTH <= size p -> (tpid = 0 -> isEncrypted p = Ok false -> hops p = Ok 0 /\ key_ok (key k)) -> 28 <= mtu -> (forall w b t, (path_send w path b t).2 = true) ->
  exists s' q, _sendViaSpecificPath now mem tmp pbuf peer path umtu p encrypt fl s = Done s' q /\ sw s' = sw s /\
    wire (world s') = wire (world s) ++ ((fun x => (path, x)) <$> datagrams mtu (data q)) /\ goes_out p (mtu <? size p) q /\ sent_as tmp' pbuf' k tpid p q /\
    (forall dest src, mtu < size p -> datagram_count mtu (size p) <= ZT_MAX_PACKET_FRAGMENTS -> addr_at (data p) 8 = Ok dest -> addr_at (data p) 13 = Ok src -> src <> dest ->
       byte_at (data p) 13 <> Ok ZT_PACKET_FRAGMENT_INDICATOR -> fits dest mtu (data q)).
Proof.
  intros Hs' Hp Hsz Hclear Hmtu Hacc. destruct (prepare_spec tmp' pbuf' k tpid p encrypt (Z.min (size p) mtu <? size p) Hs' Hp Hsz Hclear) as (p1 & q & armored & E1 & E2 & Hgo & Hde).
  assert (goes_out p (mtu <? size p) q) as Hout. { replace (Z.min (size p) mtu <? size p) with (mtu <? size p) in Hgo; [done|]. apply eq_true_iff_eq. rewrite !Z.ltb_lt. lia. }
  pose proof Hgo as [Hq Hqs (pid & Epid) Haddr Hflag].
  pose proof Hq as [Hqb Hqc]. pose proof (zlen_data q Hqb) as Hzq. pose proof Hqb as [Hqr _ _]. change ZT_PROTO_MAX_PACKET_LENGTH with 10024 in *. unfold size in Hqs. 
  unfold _sendViaSpecificPath. unfold mbind at 1, step_bind at 1, ask at 1. unfold path_info in *. destruct (default _ (getOutboundPathInfo (world s) path)) as [m0 tp]. cbn [fst snd] in *. fold mtu. change tp with tpid.
  unfold mbind at 1, step_bind at 1. rewrite E1. cbn [lift]. unfold mbind at 1, step_bind at 1, ask at 1. fold k. unfold mbind at 1, step_bind at 1. rewrite E2. cbn [lift]. unfold mbind at 1, step_bind at 1. rewrite Epid. cbn [lift].
  unfold mbind at 1, step_bind at 1. destruct (expect_step armored pid s) as (w0 & -> & Hw0). unfold mbind at 1, step_bind at 1, tell at 1. cbn [sw world]. set (w1 := recordOutgoingPacket _ _ _ _ _ _).
  assert (wire w1 = wire (world s)) as Hw1 by (unfold w1; by rewrite wire_record).
  unfold mbind at 1, step_bind at 1, run at 1. cbn [world sw]. pose proof (wire_send w1 path (take (Z.to_nat (Z.min (size p) mtu)) (data q)) now) as Hw2. pose proof (Hacc w1 (take (Z.to_nat (Z.min (size p) mtu)) (data q)) now) as Ha.
  destruct (path_send w1 path _ now) as [w2 ok]. cbn [fst snd] in Hw2, Ha. subst ok. cbn [andb]. rewrite Hw1 in Hw2.
  assert (size q = size p) as Hqs' by exact Hqs. rewrite Hqs'.
  assert (datagrams mtu (data q) = if size p <=? mtu then [data q] else datagram mtu (data q) <$> seq 0 (Z.to_nat (datagram_count mtu (size p)))) as Edg by (unfold datagrams; by rewrite Hzq, Hqs).
  assert (forall dest src, mtu < size p -> datagram_count mtu (size p) <= ZT_MAX_PACKET_FRAGMENTS -> addr_at (data p) 8 = Ok dest -> addr_at (data p) 13 = Ok src -> src <> dest ->
       byte_at (data p) 13 <> Ok ZT_PACKET_FRAGMENT_INDICATOR -> fits dest mtu (data q)) as Hfits.
  { intros dest src Hlt Hcnt Hdst Hsrc Hne Hfst. assert (28 <= zlen (data p)) as Hzp by (rewrite zlen_data by apply Hp; exact Hsz).
    assert (forall i n, 8 <= i -> 0 <= n -> i + n <= 18 -> mem_read (data q) i n = mem_read (data p) i n) as Hrd.
    { intros i n ? ? ?. assert (28 <= zlen (data q)) by (rewrite Hzq; change ZT_PROTO_MIN_PACKET_LENGTH with 28 in Hsz; unfold size in Hsz; lia). rewrite !mem_read_Ok by lia. f_equal.
      replace (Z.to_nat i) with (8 + Z.to_nat (i - 8))%nat by lia. rewrite <- !drop_drop. apply (f_equal (fun l => take (Z.to_nat n) (drop (Z.to_nat (i - 8)) l))) in Haddr. rewrite !skipn_firstn_comm, !take_take in Haddr.
      by rewrite !(Nat.min_l (Z.to_nat n)) in Haddr by lia. }
    split.
    - by apply data_ok.
    - done.
    - rewrite Hzq. unfold size in Hlt. change ZT_PROTO_MAX_PACKET_LENGTH with 10024. lia.
    - rewrite Hzq, Hqs. exact Hcnt.
    - unfold addr_at in *. change Address.ZT_ADDRESS_LENGTH with 5 in *. rewrite Hrd by lia. exact Hdst.
    - exists src. split; [|done]. unfold addr_at in *. change Address.ZT_ADDRESS_LENGTH with 5 in *. rewrite Hrd by lia. exact Hsrc.
    - unfold byte_at in *. rewrite Hrd by lia. exact Hfst.
    - destruct Hflag as (f & Ef & Hf). exists f. split; [exact Ef|]. apply Z.eqb_neq. rewrite Hf. apply negb_false_iff, Z.ltb_lt. lia. }
  revert Edg. destruct (Z.leb_spec (size p) mtu) as [Hle|Hgt]; intros Edg.
  - rewrite Z.min_l by lia. rewrite Z.ltb_irrefl. cbn [when]. exists (mkState (sw s) w2), q. split; [done|]. split; [done|]. split; [|split; [exact Hout|split; [exact Hde|exact Hfits]]].
    rewrite Z.min_l in Hw2 by lia. rewrite Edg. cbn [world fmap list_fmap]. rewrite Hw2. do 3 f_equal. apply take_ge. unfold zlen, size in *. lia.
  - rewrite Z.min_r in * by lia. rewrite (proj2 (Z.ltb_lt mtu (size p))) in Hout |- * by lia. cbn [when]. unfold size in *. change ZT_PROTO_MIN_FRAGMENT_LENGTH with 16. rewrite (u32_small (mtu - 16)) by lia. rewrite (proj2 (Z.eqb_neq (mtu - 16) 0)) by lia.
    set (r := (_l p - mtu) / (mtu - 16)). assert (0 <= r * (mtu - 16) <= _l p - mtu /\ 0 <= r) as Hr.
    { assert (0 <= r) by (apply Z.div_pos; lia). split; [|done]. split; [nia|]. unfold r. rewrite Z.mul_comm. apply Z.mul_div_le. lia. }
    rewrite (u32_small (r * _)) by lia. pose proof (count_code mtu (_l p) ltac:(lia)) as Hc. cbn zeta in Hc. fold r in Hc. set (fr := if r * (mtu - 16) <? _l p - mtu then r + 1 else r) in *. rewrite Hc.
    assert (1 <= fr) as Hfr. { pose proof (count_min mtu (data q) Hmtu) as Hm2. rewrite Hzq, Hqs in Hm2. lia. }
    destruct (send_fragments_spec path q mtu Hq) with (n := Z.to_nat fr) (k := 1%nat) (s := mkState (sw s) w2) as (s' & E' & Hsw & Hw'); [unfold size; lia|done|lia|unfold size; rewrite Hqs; lia|].
    destruct (Z.to_nat fr) eqn:En; [lia|]. unfold size in E'. rewrite Hqs in E'. change (Z.of_nat 1) with 1 in E'. replace (piece_start mtu 1) with mtu in E' by (unfold piece_start; lia).
    unfold mbind at 1, step_bind at 1. rewrite E'. exists s', q. split; [done|]. split; [by rewrite Hsw|]. split; [|split; [exact Hout|split; [exact Hde|exact Hfits]]].
    rewrite Edg, Hw'. cbn [world]. rewrite Hw2. replace (Z.to_nat (datagram_count mtu (_l p))) with (S (S n)) by lia. rewrite <- app_assoc. f_equal. rewrite <- list_fmap_compose. done.
Qed.
End sending.

(** ** Witness *)

#[export] Instance toy_wire_laws : Wire ToyWorld.
Proof. by refine (Build_Wire _ _ toy_wire _ _ _). Defined.

Lemma toy_packet_whole : packet_ok toy_packet.
Proof. split; [apply toy_packet_ok|vm_compute; reflexivity]. Qed.

(** A packet of 100 bytes on a path for datagrams of 40: four of them. The same packet on a trusted path. *)
Lemma sent_in_datagrams_witness :
  (exists s' q, _sendViaSpecificPath (H0 := toy_packet_crypto) 5 toy_mem toy_scratch (replicate 16 3) 0x1122334455 1 0 toy_packet true NO_FLOW toy_node = Done s' q /\
    toy_wire (world s') = (fun x => (1, x)) <$> datagrams 40 (data q) /\ size q = 100) /\
  (exists s' q, _sendViaSpecificPath (H0 := toy_packet_crypto) 5 toy_mem toy_scratch (replicate 16 3) 0x1122334455 2 0 toy_packet true NO_FLOW toy_node = Done s' q /\
    toy_wire (world s') = (fun x => (2, x)) <$> datagrams 40 (data q) /\ trustedPathId q = Ok 77).
Proof.
  split.
  - destruct (sent_in_datagrams (W := ToyWorld) (H0 := toy_packet_crypto) 5 toy_mem toy_scratch (replicate 16 3) toy_mem_ok toy_scratch_ok 0x1122334455 1 0 toy_packet true NO_FLOW toy_node toy_scratch (replicate 16 3)) as (s' & q & E & _ & Hw & [_ Hs _ _ _] & _).
    + apply toy_scratch_ok.
    + apply toy_packet_whole.
    + by_compute.
    + intros _ _. split; [vm_compute; reflexivity|apply toy_key_ok].
    + by_compute.
    + reflexivity.
    + exists s', q. split; [exact E|]. split; [exact Hw|]. exact Hs.
  - destruct (sent_in_datagrams (W := ToyWorld) (H0 := toy_packet_crypto) 5 toy_mem toy_scratch (replicate 16 3) toy_mem_ok toy_scratch_ok 0x1122334455 2 0 toy_packet true NO_FLOW toy_node toy_scratch (replicate 16 3)) as (s' & q & E & _ & Hw & _ & [Ht _] & _).
    + apply toy_scratch_ok.
    + apply toy_packet_whole.
    + by_compute.
    + discriminate.
    + by_compute.
    + reflexivity.
    + exists s', q. split; [exact E|]. split; [exact Hw|]. apply Ht. discriminate.
Defined.
