(* ===== verification/Relay.v ===== *)
(** * Relaying

    A datagram for another node is passed on at most once, with one more hop, and leaves the receive queue alone. *)

From S2P Require Import Prelude Buffer Address Identity Packet Switch SwitchInv Reassembly.
Import Packet.

(** What [sendDirect] sent, to whom. *)
Class Relays (W : Type) `{Surroundings W} := {
  relayed : W -> list (Z * list Z);
  relayed_direct w a b t force : relayed (sendDirect w a b t force).1 = relayed w ++ (if (sendDirect w a b t force).2 then [(a, b)] else []);
  relayed_received w p t : relayed (path_received w p t) = relayed w;
  relayed_peer w a : relayed (getPeer w a).1 = relayed w;
  relayed_introduce w a t b w' : introduce w a t b = Some w' -> relayed w' = relayed w;
}.

Definition is_fragment (d : list Z) : bool := nth 13 d 0 =? ZT_PACKET_FRAGMENT_INDICATOR.
Definition hops_of (d : list Z) : Z := if is_fragment d then nth 15 d 0 else Z.land (nth 18 d 0) 7.
(** The datagram with one more hop. *)
Definition next_hop (d : list Z) : list Z :=
  if is_fragment d then <[15%nat := Z.land (nth 15 d 0 + 1) 7]> d else <[18%nat := Z.lor (Z.land (nth 18 d 0) 0xf8) (Z.land (nth 18 d 0 + 1) 7)]> d.

Lemma index_nth b i : buf_ok b -> 0 <= i < size b -> index b i = Ok (nth (Z.to_nat i) (data b) 0).
Proof.
  intros Hb Hi. pose proof (zlen_data b Hb) as Hz. unfold size in *. destruct (nth_lookup_or_length (data b) (Z.to_nat i) 0) as [E|]; [|unfold zlen in *; lia].
  pose proof (take_drop_middle _ _ _ E) as Es. assert (zlen (take (Z.to_nat i) (data b)) = i) as Hi' by (apply zlen_take; lia).
  rewrite <- (index_data b Hb (take (Z.to_nat i) (data b)) (nth (Z.to_nat i) (data b) 0) (drop (S (Z.to_nat i)) (data b))) by (symmetry; exact Es). by rewrite Hi'.
Qed.
Lemma setIndex_insert b i v : buf_ok b -> 0 <= i < size b -> exists b', setIndex b i v = Ok b' /\ data b' = <[Z.to_nat i := u8 v]> (data b).
Proof.
  intros [Hs Hc Hm] Hi. unfold setIndex, size, capacity in *. rewrite bind_throw_if_false by (apply Z.leb_gt; lia). rewrite mem_write1 by lia. eexists. split; [reflexivity|]. unfold data. cbn [_b _l]. by rewrite take_insert_lt by lia.
Qed.
Lemma byte_at_nth d i : 0 <= i < zlen d -> byte_at d i = Ok (nth (Z.to_nat i) d 0).
Proof.
  intros Hi. unfold byte_at. destruct (nth_lookup_or_length d (Z.to_nat i) 0) as [E|]; [|unfold zlen in *; lia]. rewrite mem_read_Ok by lia. cbn [mbind outcome_bind]. rewrite (drop_S _ _ _ E). done.
Qed.

Lemma fragment_hops b : buf_ok b -> 16 < size b -> is_fragment (data b) = true -> Fragment.hops b = Ok (hops_of (data b)) /\ exists b', Fragment.incrementHops b = Ok b' /\ data b' = next_hop (data b).
Proof.
  intros Hb Hs Hf. unfold Fragment.hops, Fragment.incrementHops, hops_of, next_hop. rewrite Hf. change ZT_PACKET_FRAGMENT_IDX_HOPS with 15. rewrite index_nth by (done || lia). split; [done|]. cbn [mbind outcome_bind].
  destruct (setIndex_insert b 15 (Z.land (nth (Z.to_nat 15) (data b) 0 + 1) ZT_PROTO_MAX_HOPS) Hb ltac:(lia)) as (b' & E & Ed). exists b'. split; [exact E|]. rewrite Ed. f_equal. apply u8_small. change ZT_PROTO_MAX_HOPS with (Z.ones 3).
  pose proof (land_ones_range (nth (Z.to_nat 15) (data b) 0 + 1) 3 ltac:(lia)) as Hr. destruct Hr as [Hr1 Hr2]. split; [exact Hr1|eapply Z.lt_le_trans; [exact Hr2|done]].
Qed.
Lemma head_hops b : buf_ok b -> 28 <= size b -> is_fragment (data b) = false -> hops b = Ok (hops_of (data b)) /\ exists b', incrementHops b = Ok b' /\ data b' = next_hop (data b).
Proof.
  intros Hb Hs Hf. unfold hops, incrementHops, hops_of, next_hop. rewrite Hf. change ZT_PACKET_IDX_FLAGS with 18. rewrite index_nth by (done || lia). change (Z.to_nat 18) with 18%nat. split; [done|]. cbn [mbind outcome_bind].
  set (c := nth 18 (data b) 0). assert (byte_ok c) as Hc. { unfold c. destruct (nth_lookup_or_length (data b) 18 0) as [E|E]; [eapply bytes_ok_lookup; [by apply data_ok|exact E]|rewrite nth_overflow by done; done]. }
  destruct (setIndex_insert b 18 (Z.lor (Z.land c 0xf8) (Z.land (c + 1) 0x07)) Hb ltac:(lia)) as (b' & E & Ed). exists b'. split; [exact E|]. rewrite Ed. change (Z.to_nat 18) with 18%nat. f_equal. apply u8_small.
  assert (0 <= Z.lor (Z.land c 248) (Z.land (c + 1) 7) < 2 ^ 8) as Hr; [|exact Hr]. apply lor_range; [lia| |].
  - pose proof (byte_ok_land c 248 Hc ltac:(done)). unfold byte_ok in *. lia.
  - change 7 with (Z.ones 3). pose proof (land_ones_range (c + 1) 3 ltac:(lia)) as Hr. change (2 ^ 3) with 8 in Hr. lia.
Qed.

Section relay.
Context {W : Type} `{Relays W} `{!Decoder W} `{!Introductions W}.
Context (self now : Z) (mem : list Z) (Hmem : packet_ok (mkBuffer mem 0)).

(** [w'] is [w] after [d] was passed on, with one more hop, to its destination or to an upstream, or was not. *)
Definition passed_on (d : list Z) (dest : Z) (w w' : W) : Prop :=
  relayed w' = relayed w \/
  (hops_of d < ZT_RELAY_MAX_HOPS /\ exists to, relayed w' = relayed w ++ [(to, next_hop d)] /\ (to = dest \/ exists w1, getUpstreamPeer w1 0 = Some to)).

(** Sending directly to the destination, when that is known. *)
Lemma direct_step {A} dest b (k : bool -> step W A) (s : State W) : exists w2 ok,
  (known ← run (fun w => getPeer w dest); sent ← (if (known : bool) then run (fun w => sendDirect w dest b now false) else mret false); k sent) s = k ok (mkState (sw s) w2) /\
  relayed w2 = relayed (world s) ++ (if (ok : bool) then [(dest, b)] else []).
Proof.
  unfold mbind, step_bind, run. pose proof (relayed_peer (world s) dest) as Hp. destruct (getPeer (world s) dest) as [w1 [|]]; cbn [fst world sw] in *; [|exists w1, false; split; [done|by rewrite app_nil_r]].
  pose proof (relayed_direct w1 dest b now false) as Hr. destruct (sendDirect w1 dest b now false) as [w2 ok]. cbn [fst snd] in Hr. exists w2, ok. split; [done|]. by rewrite Hr, Hp.
Qed.
(** Sending by way of an upstream. *)
Lemma upstream_step {A} u b (k : bool -> step W A) (s : State W) : exists w2 ok, (sent ← run (fun w => sendDirect w u b now true); k sent) s = k ok (mkState (sw s) w2) /\ relayed w2 = relayed (world s) ++ (if (ok : bool) then [(u, b)] else []).
Proof. unfold mbind, step_bind, run. pose proof (relayed_direct (world s) u b now true) as Hr. destruct (sendDirect (world s) u b now true) as [w2 ok]. by exists w2, ok. Qed.

Lemma unite_same (s : State W) a b : exists s' u, _shouldUnite now a b s = Done s' u /\ _rxQueue (sw s') = _rxQueue (sw s) /\ _rxQueuePtr (sw s') = _rxQueuePtr (sw s) /\ _txQueue (sw s') = _txQueue (sw s) /\ world s' = world s.
Proof. unfold _shouldUnite. cbn zeta. destruct (ZT_MIN_UNITE_INTERVAL <=? _); by eexists _, _. Qed.
(** The source is introduced, or the node would be introduced to itself. *)
Lemma when_introduced u a b (s : State W) : (exists s', when u (introduce_source now a b) s = Done s' () /\ sw s' = sw s /\ relayed (world s') = relayed (world s)) \/ (a = b /\ when u (introduce_source now a b) s = Undefined).
Proof.
  destruct u; [|left; by exists s]. unfold when, introduce_source. unfold mbind, step_bind, run. pose proof (relayed_peer (world s) b) as Hp. destruct (getPeer (world s) b) as [w1 [|]]; cbn [fst] in Hp; cbn [when sw world].
  - destruct (introduce w1 a now b) as [w2|] eqn:E.
    + left. eexists. split; [reflexivity|]. split; [done|]. cbn [world]. by rewrite (relayed_introduce _ _ _ _ _ E), Hp.
    + right. split; [|done]. destruct (decide (a = b)) as [|Hne]; [done|]. destruct (introduce_returns w1 a now b Hne). congruence.
  - left. eexists. split; [reflexivity|]. by split.
Qed.

(** A run that is [Done]. *)
Ltac ended := eexists; split; [reflexivity|]; left; eexists; split; [reflexivity|].

(** C36. A datagram for another node, up to the size of a packet: nothing of the switch's queue changes; it is passed on at most once, only from less than three hops, with one more, and only by a node that is an upstream or
    along a path whose trust is established. It is handled to the end, except that a packet whose source is also its destination may block the node that introduces that node to itself. *)
Theorem relayed_once path d dest src s (w0 := path_received (world s) path now) : bytes_ok d -> 16 < zlen d <= ZT_PROTO_MAX_PACKET_LENGTH -> (is_fragment d = false -> 28 <= zlen d) ->
  addr_at d 8 = Ok dest -> dest <> self -> (is_fragment d = false -> addr_at d 13 = Ok src) ->
  (exists s', onRemotePacket self now mem path d s = Done s' () /\ _rxQueue (sw s') = _rxQueue (sw s) /\ _rxQueuePtr (sw s') = _rxQueuePtr (sw s) /\ _txQueue (sw s') = _txQueue (sw s) /\
    passed_on d dest (world s) (world s') /\ (amUpstream w0 = false -> trustEstablished w0 path now = false -> src <> self -> relayed (world s') = relayed (world s))) \/
  (is_fragment d = false /\ src = dest /\ onRemotePacket self now mem path d s = Undefined).
Proof.
  intros Hd Hz H28 Hdst Hne Hsrc. enough (exists r, onRemotePacket self now mem path d s = r /\ ((exists s', r = Done s' () /\ _rxQueue (sw s') = _rxQueue (sw s) /\ _rxQueuePtr (sw s') = _rxQueuePtr (sw s) /\ _txQueue (sw s') = _txQueue (sw s) /\ passed_on d dest (world s) (world s') /\
    (amUpstream w0 = false -> trustEstablished w0 path now = false -> src <> self -> relayed (world s') = relayed (world s))) \/ (is_fragment d = false /\ src = dest /\ r = Undefined))) as (r & -> & H3) by exact H3.
  unfold onRemotePacket. unfold mbind at 1, step_bind at 1, tell at 1. fold w0. assert (relayed w0 = relayed (world s)) as Hw0 by apply relayed_received.
  change ZT_PROTO_MIN_FRAGMENT_LENGTH with 16. rewrite (proj2 (Z.ltb_lt 16 _)) by lia. change ZT_PACKET_FRAGMENT_IDX_FRAGMENT_INDICATOR with 13. rewrite byte_at_nth by lia. unfold mbind at 1, step_bind at 1. cbn [lift].
  change (Z.to_nat 13) with 13%nat. fold (is_fragment d). change ZT_PROTO_MAX_PACKET_LENGTH with 10024 in Hz. destruct (copy_Ok (mkBuffer mem 0) d Hmem Hd) as (b & Ec & [Hb Hcap] & Edb); [change ZT_PROTO_MAX_PACKET_LENGTH with 10024; lia|].
  pose proof (zlen_data b Hb) as Hzb. rewrite Edb in Hzb. unfold passed_on.
  destruct (is_fragment d) eqn:Ef.
  - unfold on_fragment. unfold mbind at 1, step_bind at 1. rewrite Ec. cbn [lift]. assert (Fragment.destination b = Ok dest) as Ed.
    { unfold Fragment.destination, address_at. change ZT_PACKET_FRAGMENT_IDX_DEST with 8. unfold addr_at in Hdst. change Address.ZT_ADDRESS_LENGTH with 5 in *. rewrite mem_read_Ok in Hdst by lia. rewrite field_slice by (done || lia). by rewrite Edb. }
    unfold mbind at 1, step_bind at 1. rewrite Ed. cbn [lift]. rewrite (proj2 (Z.eqb_neq dest self)) by done. cbn [negb]. destruct (fragment_hops b Hb) as (Eh & b' & Ei & Eb'); [unfold size; lia|by rewrite Edb|]. rewrite Edb in Eh, Eb'.
    unfold relay_fragment. unfold mbind at 1, step_bind at 1, ask at 1. cbn [world]. unfold mbind at 1, step_bind at 1, ask at 1. cbn [world].
    destruct (negb (amUpstream w0) && negb (trustEstablished w0 path now)) eqn:Et; [ended; cbn [sw world]; by split_and!; auto|].
    assert (amUpstream w0 = false -> trustEstablished w0 path now = false -> False) as Htr by (intros E1 E2; by rewrite E1, E2 in Et).
    unfold mbind at 1, step_bind at 1. rewrite Eh. cbn [lift]. change ZT_RELAY_MAX_HOPS with 3. destruct (Z.ltb_spec (hops_of d) 3) as [Hh|]; [|ended; cbn [sw world]; by split_and!; auto].
    unfold mbind at 1, step_bind at 1. rewrite Ei. cbn [lift]. rewrite Eb'. edestruct (direct_step (A := ()) dest (next_hop d)) as (w2 & ok & E2 & Hw2). rewrite E2. clear E2. cbn [sw world] in *. rewrite Hw0 in Hw2.
    destruct ok; [ended; cbn [sw world]; split_and!; try done; [right; split; [done|]; exists dest; by split; [|left]|intros A B; by destruct Htr]|]. rewrite app_nil_r in Hw2.
    unfold mbind at 1, step_bind at 1, ask at 1. cbn [world]. destruct (getUpstreamPeer w2 0) as [u|] eqn:Eu; [|ended; cbn [sw world]; by split_and!; auto].
    edestruct (upstream_step (A := ()) u (next_hop d)) as (w3 & ok & E3 & Hr). rewrite E3. cbn [world sw] in Hr. ended. cbn [sw world].
    split_and!; try done; [|intros A B; by destruct Htr]. rewrite Hr, Hw2. destruct ok; [right; split; [done|]; exists u; split; [done|right; by exists w2]|left; by rewrite app_nil_r].
  - specialize (H28 eq_refl). specialize (Hsrc eq_refl). change ZT_PROTO_MIN_PACKET_LENGTH with 28. rewrite (proj2 (Z.leb_le 28 _)) by lia. unfold on_head. unfold mbind at 1, step_bind at 1. rewrite Hdst. cbn [lift]. unfold mbind at 1, step_bind at 1. rewrite Hsrc. cbn [lift].
    destruct (Z.eqb_spec src self) as [->|Hns]; [ended; cbn [sw world]; by split_and!; auto|]. rewrite (proj2 (Z.eqb_neq dest self)) by done. cbn [negb].
    destruct (head_hops b Hb) as (Eh & b' & Ei & Eb'); [unfold size; lia|by rewrite Edb|]. rewrite Edb in Eh, Eb'.
    unfold relay_head. unfold mbind at 1, step_bind at 1, ask at 1. cbn [world]. unfold mbind at 1, step_bind at 1, ask at 1. cbn [world].
    rewrite (proj2 (Z.eqb_neq src self)) by done. cbn [negb]. rewrite andb_true_r.
    destruct (negb (amUpstream w0) && negb (trustEstablished w0 path now)) eqn:Et; [ended; cbn [sw world]; by split_and!; auto|].
    assert (amUpstream w0 = false -> trustEstablished w0 path now = false -> False) as Htr by (intros E1 E2; by rewrite E1, E2 in Et).
    unfold mbind at 1, step_bind at 1. rewrite Ec. cbn [lift]. unfold mbind at 1, step_bind at 1. rewrite Eh. cbn [lift]. change ZT_RELAY_MAX_HOPS with 3. destruct (Z.ltb_spec (hops_of d) 3) as [Hh|]; [|ended; cbn [sw world]; by split_and!; auto].
    unfold mbind at 1, step_bind at 1. rewrite Ei. cbn [lift]. rewrite Eb'. edestruct (direct_step (A := ()) dest (next_hop d)) as (w2 & ok & E2 & Hw2). rewrite E2. clear E2. cbn [sw world] in *. rewrite Hw0 in Hw2.
    destruct ok.
    + unfold mbind at 1, step_bind at 1. destruct (unite_same (mkState (sw s) w2) src dest) as (s2 & u & -> & Hq & Hp & Ht & Hw). destruct (when_introduced u dest src s2) as [(s3 & -> & Hq3 & Hw3)|[-> ->]]; [ended|eexists; split; [reflexivity|right; by split_and!]]. rewrite Hq3, Hw3, Hq, Hp, Ht, Hw. cbn [sw world].
      split_and!; try done; [right; split; [done|]; exists dest; by split; [|left]|intros A B; by destruct Htr].
    + rewrite app_nil_r in Hw2. unfold mbind at 1, step_bind at 1, ask at 1. cbn [world]. destruct (getUpstreamPeer w2 0) as [u|] eqn:Eu; [|ended; cbn [sw world]; by split_and!; auto].
      destruct (Z.eqb_spec u src) as [|Hus]; cbn [negb]; [ended; cbn [sw world]; by split_and!; auto|].
      edestruct (upstream_step (A := ()) u (next_hop d)) as (w3 & ok & E3 & Hr). rewrite E3. cbn [world sw] in Hr |- *.
      destruct (when_introduced ok u src (mkState (sw s) w3)) as [(s3 & -> & Hq3 & Hw3)|[? _]]; [ended|done]. rewrite Hq3, Hw3. cbn [sw world].
      split_and!; try done; [|intros A B; by destruct Htr]. rewrite Hr, Hw2. destruct ok; [right; split; [done|]; exists u; split; [done|right; by exists w2]|left; by rewrite app_nil_r].
Qed.
End relay.

(** ** Witness *)

#[export] Instance toy_relays : Relays ToyWorld.
Proof. refine (Build_Relays _ _ toy_relayed _ _ _ _); [done..|]. cbn. intros w a _ b w'. destruct (a =? b); [done|by intros [= ->]]. Defined.

(** A packet from 7 to 0x1122334455 that has one hop, received by 9. *)
Definition toy_passing : list Z := seqZ 1 8 ++ Address.to_bytes 0x1122334455 ++ Address.to_bytes 7 ++ [0x09] ++ replicate 8 7 ++ seqZ 100 33.
Lemma relayed_once_witness : exists s', onRemotePacket 9 5 toy_mem 1 toy_passing toy_node = Done s' () /\ _rxQueue (sw s') = _rxQueue toy_switch /\ passed_on toy_passing 0x1122334455 (mkToy [] [] []) (world s') /\
  toy_relayed (world s') = [(0x1122334455, next_hop toy_passing)].
Proof.
  destruct (relayed_once 9 5 toy_mem toy_mem_ok 1 toy_passing 0x1122334455 7 toy_node) as [(s' & E & Hq & _ & _ & Hp & _)|(_ & ? & _)].
  - by_compute.
  - vm_compute. split; congruence.
  - intros _. vm_compute. congruence.
  - vm_compute. reflexivity.
  - done.
  - intros _. vm_compute. reflexivity.
  - exists s'. split; [exact E|]. split; [exact Hq|]. split; [exact Hp|]. clear - E.
    assert (match onRemotePacket 9 5 toy_mem 1 toy_passing toy_node with Done s _ => toy_relayed (world s) | _ => [] end = [(0x1122334455, next_hop toy_passing)]) as Hc by (vm_compute; reflexivity).
    rewrite E in Hc. exact Hc.
  - discriminate.
Defined.
