(* ===== verification/World.v ===== *)
(** * Worlds: the roots of a planet or a moon (node/World.hpp)

    A world names its root servers, says which key must sign the next revision of it, and is signed. Its wire form, and when a world replaces another one. *)

From S2P Require Import Prelude Buffer Serial Address InetAddress Identity Credential.

Module World.
Definition ZT_WORLD_MAX_ROOTS : Z := 4.
Definition ZT_WORLD_MAX_STABLE_ENDPOINTS_PER_ROOT : Z := 32.
Definition ZT_WORLD_MAX_SERIALIZED_LENGTH : Z := (1024 + 32 * ZT_WORLD_MAX_STABLE_ENDPOINTS_PER_ROOT) * ZT_WORLD_MAX_ROOTS + ZT_ECC_PUBLIC_KEY_SET_LEN + ZT_ECC_SIGNATURE_LEN + 128.

Inductive Type_ := TYPE_NULL | TYPE_PLANET | TYPE_MOON.
#[global] Instance Type_eq_dec : EqDecision Type_.
Proof. solve_decision. Defined.
Definition Type_int (t : Type_) : Z := match t with TYPE_NULL => 0 | TYPE_PLANET => 1 | TYPE_MOON => 127 end.

Record Root := mkRoot { identity : Identity; stableEndpoints : list InetAddress }.
#[global] Instance Root_eq_dec : EqDecision Root.
Proof. solve_decision. Defined.

(** The constructor leaves the key and the signature of a null world as they are in memory; they are not read. *)
Record World := mkWorld { _id : Z; _ts : Z; _type : Type_; _updatesMustBeSignedBy : list Z; _signature : list Z; _roots : list Root }.
#[global] Instance World_eq_dec : EqDecision World.
Proof. solve_decision. Defined.
Definition World_nil : World := mkWorld 0 0 TYPE_NULL [] [] [].
Definition world_bool (w : World) : bool := negb (bool_decide (_type w = TYPE_NULL)).

(** ** Wire form *)

Definition root_serialize (b : Buffer) (r : Root) : outcome Buffer :=
  b ← identity_serialize b (identity r) false;
  b ← append_int 1 b (zlen (stableEndpoints r));
  append_all inet_serialize b (stableEndpoints r).

Definition world_serialize (b : Buffer) (w : World) (forSign : bool) : outcome Buffer :=
  b ← (if forSign then append_int 8 b 0x7f7f7f7f7f7f7f7f else Ok b);
  b ← append_int 1 b (Type_int (_type w));
  b ← append_int 8 b (_id w);
  b ← append_int 8 b (_ts w);
  b ← append b (_updatesMustBeSignedBy w);
  b ← (if forSign then Ok b else append b (_signature w));
  b ← append_int 1 b (zlen (_roots w));
  b ← append_all root_serialize b (_roots w);
  b ← (if bool_decide (_type w = TYPE_MOON) then append_int 2 b 0 else Ok b);
  if forSign then append_int 8 b 0xf7f7f7f7f7f7f7f7 else Ok b.

(** [n] objects one after the other; with the position behind them *)
Fixpoint read_list {A} (deser : Buffer -> Z -> outcome (A * Z)) (b : Buffer) (p : Z) (n : nat) : outcome (list A * Z) :=
  match n with
  | O => Ok ([], p)
  | S n => '(a, k) ← deser b p; '(l, p) ← read_list deser b (p + k) n; Ok (a :: l, p)
  end.

Definition root_deserialize (b : Buffer) (p : Z) : outcome (Root * Z) :=
  '(id, k) ← identity_deserialize b p;
  let q := p + k in
  numStableEndpoints ← index b q; let q := q + 1 in
  if ZT_WORLD_MAX_STABLE_ENDPOINTS_PER_ROOT <? numStableEndpoints then Throw Overflow
  else
    '(eps, q) ← read_list inet_deserialize b q (Z.to_nat numStableEndpoints);
    Ok (mkRoot id eps, q - p).

Definition read_type (v : Z) : outcome Type_ :=
  if v =? 0 then Ok TYPE_NULL else if v =? 1 then Ok TYPE_PLANET else if v =? 127 then Ok TYPE_MOON else Throw InvalidType.

Definition world_deserialize (b : Buffer) (startAt : Z) : outcome (World * Z) :=
  let p := startAt in
  t ← index b p; let p := p + 1 in
  ty ← read_type t;
  id ← at_ 8 b p; let p := p + 8 in
  ts ← at_ 8 b p; let p := p + 8 in
  key ← field b p ZT_ECC_PUBLIC_KEY_SET_LEN; let p := p + ZT_ECC_PUBLIC_KEY_SET_LEN in
  sig ← field b p ZT_ECC_SIGNATURE_LEN; let p := p + ZT_ECC_SIGNATURE_LEN in
  numRoots ← index b p; let p := p + 1 in
  if ZT_WORLD_MAX_ROOTS <? numRoots then Throw Overflow
  else
    '(roots, p) ← read_list root_deserialize b p (Z.to_nat numRoots);
    p ← (if bool_decide (ty = TYPE_MOON) then l ← at_ 2 b p; Ok (p + l + 2) else Ok p);
    Ok (mkWorld id ts ty key sig roots, p - startAt).

Section Crypto.
Context `{Crypto}.

(** What is signed: into a buffer of its own. *)
Definition tbs (w : World) : outcome (list Z) := b ← world_serialize (tmp_buffer (Z.to_nat ZT_WORLD_MAX_SERIALIZED_LENGTH)) w true; Ok (data b).

Definition shouldBeReplacedBy (w update : World) : outcome bool :=
  if (_id w =? 0) || bool_decide (_type w = TYPE_NULL) then Ok true
  else if (_id w =? _id update) && (_ts w <? _ts update) && bool_decide (_type w = _type update) then
    msg ← tbs update; Ok (ecc_verify (_updatesMustBeSignedBy w) msg (_signature update))
  else Ok false.

Definition make (t : Type_) (id ts : Z) (sk : list Z) (roots : list Root) (signWith_priv signWith_pub : list Z) : outcome World :=
  let w := mkWorld id ts t sk [] roots in
  msg ← tbs w; Ok (mkWorld id ts t sk (ecc_sign signWith_priv signWith_pub msg) roots).
End Crypto.
End World.

(** ** The wire form as a list of bytes *)

Import World.

Definition root_enc (r : Root) : list Z := identity_enc (identity r) false ++ be_bytes 1 (zlen (stableEndpoints r)) ++ concat (inet_enc <$> stableEndpoints r).
Definition world_head (w : World) : list Z := be_bytes 1 (Type_int (_type w)) ++ be_bytes 8 (_id w) ++ be_bytes 8 (_ts w) ++ _updatesMustBeSignedBy w.
Definition world_tail (w : World) : list Z :=
  be_bytes 1 (zlen (_roots w)) ++ concat (root_enc <$> _roots w) ++ (if bool_decide (_type w = TYPE_MOON) then be_bytes 2 0 else []).
Definition world_enc (w : World) : list Z := world_head w ++ _signature w ++ world_tail w.
Definition tbs_enc (w : World) : list Z := be_bytes 8 0x7f7f7f7f7f7f7f7f ++ world_head w ++ world_tail w ++ be_bytes 8 0xf7f7f7f7f7f7f7f7.

(** What a parser accepts; private keys of roots are not written. *)
Definition root_ok (r : Root) : Prop := identity_ok (identity r) /\ zlen (stableEndpoints r) <= 32 /\ Forall inet_wf (stableEndpoints r).
Definition world_ok (w : World) : Prop :=
  rng 64 (_id w) /\ rng 64 (_ts w) /\ key_ok 64 (_updatesMustBeSignedBy w) /\ key_ok 96 (_signature w) /\ zlen (_roots w) <= 4 /\ Forall root_ok (_roots w).
Definition root_published (r : Root) : Root := mkRoot (published false (identity r)) (stableEndpoints r).
Definition world_published (w : World) : World := mkWorld (_id w) (_ts w) (_type w) (_updatesMustBeSignedBy w) (_signature w) (root_published <$> _roots w).

Lemma root_writes r b : root_ok r -> buf_ok b -> writes b (root_enc r) (root_serialize b r).
Proof.
  intros (Hid & _ & He) Hb. unfold root_enc, root_serialize. apply writes_bind; [done|by apply identity_writes|]. intros ? ? _ _.
  apply writes_bind; [done|by apply append_int_writes|]. intros b2 Hb2 _ _. apply append_all_writes; [|done].
  intros a b3 Ha Hb3. apply inet_writes; [|done]. by eapply list.Forall_forall in Ha.
Qed.

Lemma concat_bytes {A} (enc : A -> list Z) l : (forall a, a ∈ l -> bytes_ok (enc a)) -> bytes_ok (concat (enc <$> l)).
Proof.
  induction l as [|a l IH]; intros Hl; [by apply list.Forall_nil_2|]. cbn. apply bytes_ok_app. split; [apply Hl; by left|]. apply IH. intros x Hx. apply Hl. by right.
Qed.
Lemma root_bytes r : root_ok r -> bytes_ok (root_enc r).
Proof.
  intros (Hid & _ & He). unfold root_enc. rewrite !bytes_ok_app. split; [by apply identity_bytes|]. split; [auto with bytes|].
  apply concat_bytes. intros a Ha. apply inet_bytes. by eapply list.Forall_forall in Ha.
Qed.
Lemma world_head_bytes w : world_ok w -> bytes_ok (world_head w).
Proof. intros (_ & _ & [Hk _] & _). unfold world_head. rewrite !bytes_ok_app. auto with bytes. Qed.
Lemma world_tail_bytes w : world_ok w -> bytes_ok (world_tail w).
Proof.
  intros (_ & _ & _ & _ & _ & Hr). unfold world_tail. rewrite !bytes_ok_app. split; [auto with bytes|]. split; [|case_bool_decide; [auto with bytes|by apply list.Forall_nil_2]].
  apply concat_bytes. intros r Hin. apply root_bytes. by eapply list.Forall_forall in Hin.
Qed.
Lemma world_bytes w : world_ok w -> bytes_ok (world_enc w).
Proof.
  intros Hw. unfold world_enc. rewrite !bytes_ok_app. split; [by apply world_head_bytes|]. split; [apply Hw|by apply world_tail_bytes].
Qed.

Lemma writes_if (c : bool) b bs (f : Buffer -> outcome Buffer) : buf_ok b -> writes b bs (f b) -> writes b (if c then bs else [] : list Z) (if c then f b else Ok b).
Proof. intros Hb Hw. destruct c; [done|by apply writes_nil]. Qed.

Lemma world_writes w (forSign : bool) b : world_ok w -> buf_ok b -> writes b (if forSign then tbs_enc w else world_enc w) (world_serialize b w forSign).
Proof.
  intros (_ & _ & [Hk Hkl] & [Hs Hsl] & _ & Hr) Hb.
  replace (if forSign then tbs_enc w else world_enc w) with
    ((if forSign then be_bytes 8 0x7f7f7f7f7f7f7f7f else []) ++ be_bytes 1 (Type_int (_type w)) ++ be_bytes 8 (_id w) ++ be_bytes 8 (_ts w) ++ _updatesMustBeSignedBy w ++
     (if forSign then [] else _signature w) ++ be_bytes 1 (zlen (_roots w)) ++ concat (root_enc <$> _roots w) ++ (if bool_decide (_type w = TYPE_MOON) then be_bytes 2 0 else []) ++
     (if forSign then be_bytes 8 0xf7f7f7f7f7f7f7f7 else []))
    by (unfold tbs_enc, world_enc, world_head, world_tail; destruct forSign; rewrite <- !app_assoc, ?app_nil_r; done).
  unfold world_serialize.
  apply writes_bind; [done|apply (writes_if forSign b _ (fun b => append_int 8 b 0x7f7f7f7f7f7f7f7f)); [done|by apply append_int_writes]|]. intros ? ? _ _.
  do 3 (apply writes_bind; [done|by apply append_int_writes|]; intros ? ? _ _).
  apply writes_bind; [done|apply append_writes; [done|done|lia]|]. intros ? ? _ _.
  apply writes_bind; [done|destruct forSign; [by apply writes_nil|apply append_writes; [done|done|lia]]|]. intros ? ? _ _.
  apply writes_bind; [done|by apply append_int_writes|]. intros ? ? _ _.
  apply writes_bind; [done|apply append_all_writes; [|done]; intros r bb Hin Hbb; apply root_writes; [by eapply list.Forall_forall in Hin|done]|].
  intros ? ? _ _.
  apply writes_bind; [done|apply (writes_if _ _ _ (fun b => append_int 2 b 0)); [done|by apply append_int_writes]|]. intros ? ? _ _.
  apply (writes_if forSign _ _ (fun b => append_int 8 b 0xf7f7f7f7f7f7f7f7)); [done|by apply append_int_writes].
Qed.

(** ** Reading *)

Lemma read_list_rest {A B} (enc : A -> list Z) (f : A -> B) (deser : Buffer -> Z -> outcome (B * Z)) (b : Buffer) l :
  (forall a p rest, a ∈ l -> rest_at b p (enc a ++ rest) -> deser b p = Ok (f a, zlen (enc a))) ->
  forall p rest, rest_at b p (concat (enc <$> l) ++ rest) ->
    read_list deser b p (length l) = Ok (f <$> l, p + zlen (concat (enc <$> l))) /\ rest_at b (p + zlen (concat (enc <$> l))) rest.
Proof.
  induction l as [|a l IH]; intros Hd p rest Hr; cbn in *.
  - rewrite zlen_nil, Z.add_0_r. done.
  - rewrite <- app_assoc in Hr. rewrite (Hd a p _ ltac:(by left) Hr). cbn [mbind outcome_bind]. pose proof (rest_at_next _ _ _ _ Hr) as Hr1. clear Hr.
    destruct (IH ltac:(intros; eapply Hd; [by right|done]) _ _ Hr1) as [-> Hr']. cbn [mbind outcome_bind]. rewrite zlen_app, Z.add_assoc. done.
Qed.

Lemma zlen_to_nat {A} (l : list A) : Z.to_nat (zlen l) = length l.
Proof. unfold zlen. lia. Qed.

Lemma root_reads r b p rest : root_ok r -> buf_ok b -> rest_at b p (root_enc r ++ rest) -> root_deserialize b p = Ok (root_published r, zlen (root_enc r)).
Proof.
  intros (Hid & Hn & He) Hb Hr. pose proof (zlen_nonneg (stableEndpoints r)). unfold root_enc, root_deserialize in *. rewrite <- !app_assoc in Hr.
  rewrite (identity_reads (identity r) false b p _ Hid Hb Hr). cbn [mbind outcome_bind]. apply rest_at_next in Hr. cbv zeta. read_step Hb Hr.
  rewrite u8_small by (unfold byte_ok; lia). unfold ZT_WORLD_MAX_STABLE_ENDPOINTS_PER_ROOT. rewrite (proj2 (Z.ltb_ge 32 _)) by lia. rewrite (zlen_to_nat (stableEndpoints r)).
  destruct (read_list_rest inet_enc id inet_deserialize b (stableEndpoints r)) with (p := p + zlen (identity_enc (identity r) false) + 1) (rest := rest) as [-> _];
    [|done|]; [intros a q rest' Ha Hr'; apply inet_reads with (rest := rest'); [by eapply list.Forall_forall in Ha|done|done]|].
  cbn [mbind outcome_bind]. rewrite list_fmap_id. unfold root_published. do 2 f_equal. autorewrite with zlen. rewrite ?zlen_be_bytes. lia.
Qed.

Lemma read_type_int t : read_type (u8 (Type_int t)) = Ok t.
Proof. by destruct t. Qed.

Lemma world_reads w b p rest : world_ok w -> buf_ok b -> rest_at b p (world_enc w ++ rest) -> world_deserialize b p = Ok (world_published w, zlen (world_enc w)).
Proof.
  intros (Hi & Ht & [Hk Hkl] & [Hs Hsl] & Hn & Hroots) Hb Hr. pose proof (zlen_nonneg (_roots w)). unfold world_deserialize, ZT_ECC_PUBLIC_KEY_SET_LEN, ZT_ECC_SIGNATURE_LEN.
  assert (zlen (world_enc w) = 1 + 8 + 8 + 64 + 96 + 1 + zlen (concat (root_enc <$> _roots w)) + (if bool_decide (_type w = TYPE_MOON) then 2 else 0)) as Hlen.
  { unfold world_enc, world_head, world_tail. autorewrite with zlen. rewrite ?zlen_be_bytes, Hkl, Hsl. case_bool_decide; rewrite ?zlen_be_bytes, ?zlen_nil; lia. }
  unfold world_enc, world_head, world_tail in Hr. rewrite <- !app_assoc in Hr. cbv zeta.
  read_step Hb Hr. rewrite read_type_int. cbn [mbind outcome_bind]. do 5 read_pos Hb Hr.
  change (8 * Z.of_nat 8) with 64 in *. change (Z.of_nat 8) with 8 in *. unfold rng in *.
  rewrite u8_small by (unfold byte_ok; lia). unfold ZT_WORLD_MAX_ROOTS. rewrite (proj2 (Z.ltb_ge 4 _)) by lia. rewrite (zlen_to_nat (_roots w)).
  destruct (read_list_rest root_enc root_published root_deserialize b (_roots w)) with (p := p + 1 + 8 + 8 + 64 + 96 + 1)
    (rest := (if bool_decide (_type w = TYPE_MOON) then be_bytes 2 0 else []) ++ rest) as [E Hr']; [|done|].
  { intros a q rest' Ha Hr'. apply root_reads with (rest := rest'); [by eapply list.Forall_forall in Ha|done|done]. }
  rewrite E. cbn [mbind outcome_bind]. rewrite !Z.mod_small by done. rewrite Hlen.
  destruct (bool_decide _) eqn:Em.
  - read_step Hb Hr'. change (0 mod _) with 0. unfold world_published. do 2 f_equal. lia.
  - cbn [mbind outcome_bind]. unfold world_published. do 2 f_equal. lia.
Qed.

(** ** What is signed determines the world, except for its signature *)

Lemma world_head_len w : world_ok w -> zlen (world_head w) = 81.
Proof. intros (_ & _ & [_ Hk] & _). unfold world_head. autorewrite with zlen. rewrite ?zlen_be_bytes, Hk. lia. Qed.

Lemma inet_enc_len a : inet_wf a -> 1 <= zlen (inet_enc a) <= 19.
Proof.
  intros [Ha _]. destruct a as [|ip pt|ip pt f s]; unfold inet_enc; autorewrite with zlen; rewrite ?zlen_be_bytes; [lia..|]. cbn in Ha. unfold zlen. lia.
Qed.
Lemma concat_len {A} (enc : A -> list Z) l k : (forall a, a ∈ l -> zlen (enc a) <= k) -> zlen (concat (enc <$> l)) <= zlen l * k.
Proof.
  induction l as [|a l IH]; intros Hl; [done|]. cbn. rewrite zlen_app, zlen_cons. pose proof (Hl a ltac:(by left)). specialize (IH ltac:(intros; apply Hl; by right)). lia.
Qed.
Lemma identity_enc_len id : identity_ok id -> zlen (identity_enc id false) = 71.
Proof. intros (_ & [_ Hk] & _). unfold identity_enc. autorewrite with zlen. rewrite ?zlen_be_bytes, Hk. destruct (_privateKey id); rewrite ?zlen_be_bytes; lia. Qed.
Lemma root_enc_len r : root_ok r -> zlen (root_enc r) <= 680.
Proof.
  intros (Hid & Hn & He). unfold root_enc. autorewrite with zlen. rewrite identity_enc_len by done.
  assert (zlen (concat (inet_enc <$> stableEndpoints r)) <= zlen (stableEndpoints r) * 19); [|lia].
  apply concat_len. intros a Ha. apply inet_enc_len. by eapply list.Forall_forall in Ha.
Qed.
Lemma world_enc_len w : world_ok w -> zlen (world_enc w) <= 2900 /\ zlen (tbs_enc w) <= 2900.
Proof.
  intros Hw. pose proof (world_head_len w Hw). destruct Hw as (_ & _ & _ & [_ Hs] & Hn & Hr).
  assert (zlen (concat (root_enc <$> _roots w)) <= zlen (_roots w) * 680) as Hc by (apply concat_len; intros r Hin; apply root_enc_len; by eapply list.Forall_forall in Hin).
  unfold world_enc, tbs_enc, world_tail. autorewrite with zlen. rewrite ?zlen_be_bytes. case_bool_decide; rewrite ?zlen_be_bytes, ?zlen_nil; lia.
Qed.

(** What is signed always fits into the buffer for it. *)
Lemma world_tbs_bytes w : world_ok w -> tbs w = Ok (tbs_enc w).
Proof.
  intros Hw. unfold tbs. destruct (tmp_buffer_writes (Z.to_nat ZT_WORLD_MAX_SERIALIZED_LENGTH) (tbs_enc w) (fun b => world_serialize b w true)) as (b & -> & Hd).
  - by vm_compute.
  - pose proof (proj2 (world_enc_len w Hw)). change (Z.of_nat (Z.to_nat ZT_WORLD_MAX_SERIALIZED_LENGTH)) with 8480. lia.
  - intros b Hb. by apply (world_writes w true).
  - cbn. by rewrite Hd.
Qed.

Definition with_signature (w : World) (s : list Z) : World := mkWorld (_id w) (_ts w) (_type w) (_updatesMustBeSignedBy w) s (_roots w).

Lemma world_enc_published w : world_enc (world_published w) = world_enc w /\ tbs_enc (world_published w) = tbs_enc w.
Proof.
  assert (zlen (root_published <$> _roots w) = zlen (_roots w) /\ concat (root_enc <$> (root_published <$> _roots w)) = concat (root_enc <$> _roots w)) as [El Ec].
  { split; [unfold zlen; by rewrite length_fmap|]. rewrite <- list_fmap_compose. f_equal. apply list_fmap_ext. intros _ r _. unfold root_enc, root_published, compose, identity_enc, published.
    cbn. by destruct (_privateKey (identity r)). }
  unfold world_enc, tbs_enc, world_head, world_tail, world_published. cbn [_roots _id _ts _type _updatesMustBeSignedBy _signature]. rewrite El, Ec. done.
Qed.
Lemma world_published_ok w : world_ok w -> world_ok (world_published w).
Proof.
  intros (? & ? & ? & ? & Hn & Hr). split_and!; [done..| |]; cbn [_roots world_published]; [unfold zlen; by rewrite length_fmap|]. apply list.Forall_fmap. eapply list.Forall_impl; [exact Hr|].
  intros r ((? & ? & ?) & ? & ?). done.
Qed.
Lemma world_enc_injective w w' : world_ok w -> world_ok w' -> world_enc w = world_enc w' -> world_published w = world_published w'.
Proof.
  intros Hw Hw' E. apply (reads_injective (fun w => exists v, world_ok v /\ w = world_published v) world_enc world_deserialize); [| | | | |].
  - intros a b p rest (v & Hv & ->) Hb Hr. rewrite (proj1 (world_enc_published v)) in *. by apply world_reads with rest.
  - by exists w.
  - by exists w'.
  - apply world_bytes. by apply world_published_ok.
  - pose proof (proj1 (world_enc_len _ (world_published_ok w Hw))). lia.
  - by rewrite !(proj1 (world_enc_published _)).
Qed.
Lemma tbs_injective w w' s : world_ok w -> world_ok w' -> key_ok 96 s -> tbs_enc w = tbs_enc w' ->
  world_published (with_signature w s) = world_published (with_signature w' s).
Proof.
  intros Hw Hw' Hs E. apply world_enc_injective; [destruct Hw as (? & ? & ? & ? & ? & ?); by split_and!|destruct Hw' as (? & ? & ? & ? & ? & ?); by split_and!|].
  unfold tbs_enc in E. apply app_inv_head in E. apply app_inj_1 in E as [Eh Et]; [|pose proof (world_head_len w Hw); pose proof (world_head_len w' Hw'); unfold zlen in *; lia].
  apply app_inv_tail in Et. unfold world_enc. change (world_head (with_signature w s)) with (world_head w). change (world_head (with_signature w' s)) with (world_head w').
  change (world_tail (with_signature w s)) with (world_tail w). change (world_tail (with_signature w' s)) with (world_tail w'). cbn [_signature with_signature]. by rewrite Eh, Et.
Qed.

(** ** Reading arbitrary bytes: what is read is well-formed, and only an identity can take the process down *)

Lemma ok_of {A} (P : A -> Prop) (m : outcome A) a : returns P m -> m = Ok a -> P a.
Proof. intros Hr E. by rewrite E in Hr. Qed.

Lemma identity_parse b p id n : buf_ok b -> 0 <= p < 2 ^ 31 -> identity_deserialize b p = Ok (id, n) -> identity_ok id /\ 71 <= n <= 135 /\ p < _l b.
Proof.
  intros Hb Hp E. unfold identity_deserialize, ZT_ECC_PUBLIC_KEY_SET_LEN, ZT_ECC_PRIVATE_KEY_SET_LEN in E. cbv zeta in E.
  inv_ok E. apply (ok_of _ _ _ (field_returns b Hb p 5 ltac:(lia) ltac:(lia) ltac:(lia))) in H as (Hbs & Hz & Hl).
  inv_ok E. destruct (Address.setTo_returns _ Hbs Hz) as (a & Ea & Ha & _). rewrite Ea in H. injection H as <-.
  inv_ok E. destruct (negb _); [done|]. inv_ok E. apply (ok_of _ _ _ (field_returns b Hb (p + 5 + 1) 64 ltac:(lia) ltac:(lia) ltac:(lia))) in H0 as (Hpk & Hpl & _).
  inv_ok E. destruct (negb _); [destruct (negb _); [done|]; inv_ok E|].
  - apply (ok_of _ _ _ (field_returns b Hb (p + 5 + 1 + 64 + 1) 64 ltac:(lia) ltac:(lia) ltac:(lia))) in H1 as (Hsk & Hsl & _). injection E as <- <-. split; [by split_and!|lia].
  - injection E as <- <-. split; [by split_and!|lia].
Qed.

Lemma inet_parse b p a n : buf_ok b -> 0 <= p < 2 ^ 31 -> inet_deserialize b p = Ok (a, n) -> inet_wf a /\ 1 <= n < 2 ^ 18.
Proof.
  intros Hb Hp E. split; [|apply (ok_of _ _ _ (inet_safe b p Hb Hp) E)]. unfold inet_deserialize in E. cbv zeta in E. inv_ok E.
  repeat match type of E with (if ?c then _ else _) = _ => destruct c end; try done; [injection E as <- <-; by split|injection E as <- <-; by split|inv_ok E; injection E as <- <-; by split| |].
  - inv_ok E. apply (ok_of _ _ _ (field_returns b Hb (p + 1) 4 ltac:(lia) ltac:(lia) ltac:(lia))) in H0 as (Hbs & Hz & _). inv_ok E.
    apply (ok_of _ _ _ (at_returns b Hb 2 (p + 1 + 4) ltac:(lia) ltac:(lia))) in H0 as [Hpt _]. injection E as <- <-. pose proof (be_int_range _ Hbs) as Hr. rewrite Hz in Hr.
    split; [|done]. cbn. change (8 * Z.of_nat 2) with 16 in Hpt. change (8 * 4) with 32 in Hr. lia.
  - inv_ok E. apply (ok_of _ _ _ (field_returns b Hb (p + 1) 16 ltac:(lia) ltac:(lia) ltac:(lia))) in H0 as (Hbs & Hz & _). inv_ok E.
    apply (ok_of _ _ _ (at_returns b Hb 2 (p + 1 + 16) ltac:(lia) ltac:(lia))) in H0 as [Hpt _]. injection E as <- <-.
    change (8 * Z.of_nat 2) with 16 in Hpt. split; [|done]. cbn. unfold zlen in Hz. split_and!; [done|lia|lia|lia|lia..].
Qed.

Lemma read_list_parse {A} (ok : A -> Prop) (step lim : Z) (deser : Buffer -> Z -> outcome (A * Z)) (b : Buffer) n : forall p l q, 0 <= step ->
  (forall p a k, 0 <= p < lim -> deser b p = Ok (a, k) -> ok a /\ 1 <= k <= step) ->
  0 <= p -> p + Z.of_nat n * step < lim -> read_list deser b p n = Ok (l, q) -> Forall ok l /\ length l = n /\ p <= q <= p + Z.of_nat n * step.
Proof.
  induction n as [|n IH]; intros p l q Hs Hd Hp Hb E; cbn [read_list] in E; [injection E as <- <-; split; [by apply list.Forall_nil_2|split; [done|lia]]|].
  inv_ok E. destruct v as [a k]. inv_ok E. destruct v as [l' q']. injection E as <- <-. assert (Z.of_nat (S n) * step = Z.of_nat n * step + step) as Em by lia.
  apply Hd in H as [Ha Hk]; [|nia]. apply IH in H0 as (Hl & <- & Hq); [|done|done|lia|nia]. split; [by apply list.Forall_cons_2|]. split; [done|nia].
Qed.

Lemma root_parse b p r n : buf_ok b -> 0 <= p < 2 ^ 30 + 2 ^ 26 -> root_deserialize b p = Ok (r, n) -> root_ok r /\ 1 <= n <= 2 ^ 23 + 200.
Proof.
  intros Hb Hp E. unfold root_deserialize, ZT_WORLD_MAX_STABLE_ENDPOINTS_PER_ROOT in E. inv_ok E. destruct v as [id k]. apply identity_parse in H as (Hid & Hk & _); [|done|lia].
  inv_ok E. pose proof (ok_of _ _ _ (index_returns b Hb (p + k) ltac:(lia)) H) as [Hv _]. unfold byte_ok in Hv. destruct (Z.ltb_spec 32 v); [done|].
  inv_ok E. destruct v0 as [l q]. injection E as <- <-.
  apply (read_list_parse inet_wf (2 ^ 18) (2 ^ 31) inet_deserialize b) in H1 as (Hl & Hn & Hq); [| | |lia|lia].
  - split; [|lia]. split; [done|]. split; [unfold zlen; cbn; lia|done].
  - lia.
  - intros p' a k' Hp' Ha. apply inet_parse in Ha as [? ?]; [split; [done|lia]|done|lia].
Qed.

Lemma world_parse b p w n : buf_ok b -> 0 <= p < 2 ^ 30 -> world_deserialize b p = Ok (w, n) -> world_ok w.
Proof.
  intros Hb Hp E. unfold world_deserialize, ZT_ECC_PUBLIC_KEY_SET_LEN, ZT_ECC_SIGNATURE_LEN, ZT_WORLD_MAX_ROOTS in E. cbv zeta in E.
  inv_ok E. inv_ok E. inv_ok E. pose proof (ok_of _ _ _ (at_returns b Hb 8 (p + 1) ltac:(lia) ltac:(lia)) H1) as [Hi _].
  inv_ok E. pose proof (ok_of _ _ _ (at_returns b Hb 8 (p + 1 + 8) ltac:(lia) ltac:(lia)) H2) as [Ht _].
  inv_ok E. pose proof (ok_of _ _ _ (field_returns b Hb (p + 1 + 8 + 8) 64 ltac:(lia) ltac:(lia) ltac:(lia)) H3) as (Hk & Hkl & _).
  inv_ok E. pose proof (ok_of _ _ _ (field_returns b Hb (p + 1 + 8 + 8 + 64) 96 ltac:(lia) ltac:(lia) ltac:(lia)) H4) as (Hs & Hsl & _).
  inv_ok E. pose proof (ok_of _ _ _ (index_returns b Hb (p + 1 + 8 + 8 + 64 + 96) ltac:(lia)) H5) as [Hv _]. unfold byte_ok in Hv. destruct (Z.ltb_spec 4 v5); [done|].
  inv_ok E. destruct v6 as [l q]. inv_ok E. injection E as <- <-. change (8 * Z.of_nat 8) with 64 in *.
  apply (read_list_parse root_ok (2 ^ 23 + 200) (2 ^ 30 + 2 ^ 26) root_deserialize b) in H7 as (Hl & Hn & Hq); [| | |lia|lia].
  - unfold world_ok, rng. cbn [_id _ts _updatesMustBeSignedBy _signature _roots]. split; [lia|]. split; [lia|]. split; [by split|]. split; [by split|]. split; [unfold zlen; lia|done].
  - lia.
  - intros p' r k' Hp' Hr. by apply root_parse in Hr.
Qed.

(** ** Succession *)

Section Succession.
Context `{Crypto}.

(** [v] is the next revision of [u]: signed with the key that [u] names. *)
Definition succeeds (u v : World) : Prop :=
  _id u = _id v /\ _type u = _type v /\ _ts u < _ts v /\ ecc_verify (_updatesMustBeSignedBy u) (tbs_enc v) (_signature v) = true.
Definition null_world (u : World) : Prop := _id u = 0 \/ _type u = TYPE_NULL.
#[global] Instance succeeds_dec u v : Decision (succeeds u v).
Proof. unfold succeeds. apply _. Defined.
#[global] Instance null_world_dec u : Decision (null_world u).
Proof. unfold null_world. apply _. Defined.

Lemma shouldBeReplacedBy_spec w u : world_ok u -> shouldBeReplacedBy w u = Ok (bool_decide (null_world w \/ succeeds w u)).
Proof.
  intros Hu. assert (forall c, (c = true <-> null_world w \/ succeeds w u) -> Ok c = Ok (bool_decide (null_world w \/ succeeds w u))) as Hc.
  { intros c Hc. f_equal. case_bool_decide as E; [by apply Hc|]. destruct c; [by destruct E; apply Hc|done]. }
  unfold shouldBeReplacedBy. rewrite world_tbs_bytes by done. cbn [mbind outcome_bind].
  destruct (Z.eqb_spec (_id w) 0) as [Ei|Ei]; cbn [orb]; [apply Hc; unfold null_world; tauto|].
  destruct (decide (_type w = TYPE_NULL)) as [Et|Et]; [rewrite (bool_decide_eq_true_2 (_type w = TYPE_NULL)) by done; apply Hc; unfold null_world; tauto|].
  rewrite (bool_decide_eq_false_2 (_type w = TYPE_NULL)) by done.
  destruct (Z.eqb_spec (_id w) (_id u)); cbn [andb]; [|apply Hc; unfold null_world, succeeds; naive_solver].
  destruct (Z.ltb_spec (_ts w) (_ts u)); cbn [andb]; [|apply Hc; unfold null_world, succeeds; split; [done|]; intros [[|]|(_ & _ & ? & _)]; [done|done|lia]].
  destruct (decide (_type w = _type u)) as [Ey|Ey]; [rewrite (bool_decide_eq_true_2 (_type w = _type u)) by done|rewrite (bool_decide_eq_false_2 (_type w = _type u)) by done]; cbn [andb]; apply Hc; unfold null_world, succeeds; naive_solver.
Qed.

(** What a world becomes by updates. *)
Inductive descends (w : World) : World -> Prop :=
  | descends_same : descends w w
  | descends_next u v : descends w u -> null_world u \/ succeeds u v -> descends w v.

Lemma descends_trans w u v : descends w u -> descends u v -> descends w v.
Proof. intros H1 H2. induction H2 as [|x y _ IH Hxy]; [done|]. by eapply descends_next. Qed.
Lemma descends_keeps w v : ~ null_world w -> descends w v -> v = w \/ (_id v = _id w /\ _type v = _type w /\ _ts w < _ts v).
Proof.
  intros Hn Hd. induction Hd as [|u v _ IH Huv]; [by left|]. right. destruct Huv as [Hu|(Ei & Et & Hts & _)].
  - exfalso. unfold null_world in *. destruct IH as [->|(E1 & E2 & _)]; [done|]. rewrite E1, E2 in Hu. done.
  - destruct IH as [->|(E1 & E2 & E3)]; (split; [congruence|]; split; [congruence|lia]).
Qed.

(** A revision made with the key that the world names replaces it. *)
Lemma make_replaces w ts sk roots priv pub : ~ null_world w -> _ts w < ts -> pub = _updatesMustBeSignedBy w -> (forall m, ecc_verify pub m (ecc_sign priv pub m) = true) ->
  (forall m, key_ok 96 (ecc_sign priv pub m)) -> rng 64 (_id w) -> rng 64 ts -> key_ok 64 sk -> zlen roots <= 4 -> Forall root_ok roots ->
  exists u, make (_type w) (_id w) ts sk roots priv pub = Ok u /\ _roots u = roots /\ _updatesMustBeSignedBy u = sk /\ world_ok u /\ shouldBeReplacedBy w u = Ok true.
Proof.
  intros Hn Hts -> Hv Hsig Hi Ht Hk Hr Hro. unfold make. set (w0 := mkWorld (_id w) ts (_type w) sk [] roots).
  assert (forall s, tbs (with_signature w0 s) = tbs w0) as Es by done. assert (forall s, key_ok 96 s -> world_ok (with_signature w0 s)) as Hw by (intros; by split_and!).
  destruct (tbs w0) as [msg|e|] eqn:E; [|by specialize (Es (ecc_sign priv (_updatesMustBeSignedBy w) [])); rewrite world_tbs_bytes in Es by auto|by specialize (Es (ecc_sign priv (_updatesMustBeSignedBy w) [])); rewrite world_tbs_bytes in Es by auto].
  cbn [mbind outcome_bind]. change (mkWorld (_id w) ts (_type w) sk (ecc_sign priv (_updatesMustBeSignedBy w) msg) roots) with (with_signature w0 (ecc_sign priv (_updatesMustBeSignedBy w) msg)).
  eexists. split; [done|]. split; [done|]. split; [done|]. split; [auto|]. rewrite shouldBeReplacedBy_spec by auto. f_equal. apply bool_decide_eq_true_2. right.
  split; [done|]. split; [done|]. split; [done|]. specialize (Es (ecc_sign priv (_updatesMustBeSignedBy w) msg)). rewrite world_tbs_bytes in Es by auto. injection Es as ->. apply Hv.
Qed.
End Succession.
