(* ===== verification/Path.v ===== *)
(** * Paths across the physical network (node/Path.hpp, node/Path.cpp)

    A local socket and a remote address, with what is known about packets on them. Bonding is not modelled: what only a bond sets is left out. The times are
    such that their differences fit 64 bits; the arithmetic of [quality] is on the machine's [int] and [long], where overflow is undefined. *)

From S2P Require Import Prelude Address InetAddress.

Definition ZT_PATH_HEARTBEAT_PERIOD : Z := 14000.
Definition ZT_TRUST_EXPIRATION : Z := 600000.
Definition ZT_INETADDRESS_MAX_SCOPE : Z := 7.
Definition ZT_PEER_GENERAL_RATE_LIMIT : Z := 1000.

Module Path.
(** ** Keys: three 64-bit words, of the address in network byte order *)

Definition le_int (bs : list Z) : Z := be_int (rev bs).
Definition HashKey : Type := Z * Z * Z.
Definition hash_key (l : Z) (r : InetAddress) : HashKey :=
  match r with
  | IV4 ip port => (swapBytes 4 ip, swapBytes 2 port, u64 l)
  | IV6 ip port _ _ => (le_int (take 8 ip), le_int (drop 8 ip), Z.lxor (Z.shiftl (swapBytes 2 port) 32) (u64 l))
  | INil => (0, 0, u64 l)
  end.
Definition hashCode (k : HashKey) : Z := let '(k0, k1, k2) := k in u32 (k0 + k1 + k2).

(** ** A path *)

Record Path := mkPath {
  _lastOut : Z; _lastIn : Z; _lastTrustEstablishedPacketReceived : Z; _lastEchoRequestReceived : Z; _localSocket : Z; _latency : Z; _addr : InetAddress;
  _ipScope : IpScope }.
Definition Path_new (localSocket : Z) (addr : InetAddress) : Path := mkPath 0 0 0 0 localSocket 0xffff addr (ipScope addr).

Definition received (p : Path) (t : Z) : Path :=
  mkPath (_lastOut p) t (_lastTrustEstablishedPacketReceived p) (_lastEchoRequestReceived p) (_localSocket p) (_latency p) (_addr p) (_ipScope p).
Definition trustedPacketReceived (p : Path) (t : Z) : Path :=
  mkPath (_lastOut p) (_lastIn p) t (_lastEchoRequestReceived p) (_localSocket p) (_latency p) (_addr p) (_ipScope p).
Definition sent (p : Path) (t : Z) : Path :=
  mkPath t (_lastIn p) (_lastTrustEstablishedPacketReceived p) (_lastEchoRequestReceived p) (_localSocket p) (_latency p) (_addr p) (_ipScope p).
Definition set_latency (p : Path) (l : Z) : Path :=
  mkPath (_lastOut p) (_lastIn p) (_lastTrustEstablishedPacketReceived p) (_lastEchoRequestReceived p) (_localSocket p) l (_addr p) (_ipScope p).
Definition updateLatency (p : Path) (l : Z) : Path := set_latency p (if _latency p <? 0xffff then u32 (_latency p + l) / 2 else l).

Definition trustEstablished (p : Path) (now : Z) : bool := now - _lastTrustEstablishedPacketReceived p <? ZT_TRUST_EXPIRATION.
Definition preferenceRank (p : Path) : Z := Z.lor (Z.shiftl (IpScope_int (_ipScope p)) 1) (if isV6 (_addr p) then 1 else 0).

Definition isAddressValidForPath (a : InetAddress) : bool :=
  match a with
  | INil => false
  | IV4 _ _ => bool_decide (ipScope a ∈ [IP_SCOPE_PRIVATE; IP_SCOPE_PSEUDOPRIVATE; IP_SCOPE_SHARED; IP_SCOPE_GLOBAL])
  | IV6 ip _ _ _ =>
      bool_decide (ipScope a ∈ [IP_SCOPE_PRIVATE; IP_SCOPE_PSEUDOPRIVATE; IP_SCOPE_SHARED; IP_SCOPE_GLOBAL]) && negb (bool_decide (take 4 ip = [0x20; 0x01; 0x04; 0x70]))
  end.

(** An [int] or [long] of 32 bits. *)
Definition int_op (z : Z) : outcome Z := if bool_decide (- 2 ^ 31 <= z < 2 ^ 31) then Ok z else Undef.
Definition quality (p : Path) (now : Z) : outcome Z :=
  let l := s32 (_latency p) in
  let age := s32 (Z.min (now - _lastIn p) (ZT_PATH_HEARTBEAT_PERIOD * 10)) in
  x ← (if age <? ZT_PATH_HEARTBEAT_PERIOD + 5000 then Ok l else y ← int_op (l + 0xffff); int_op (y + age));
  int_op (x * (ZT_INETADDRESS_MAX_SCOPE - IpScope_int (_ipScope p) + 1)).

Definition alive (p : Path) (now : Z) : bool := now - _lastIn p <? ZT_PATH_HEARTBEAT_PERIOD + 5000.
Definition needsHeartbeat (p : Path) (now : Z) : bool := ZT_PATH_HEARTBEAT_PERIOD <=? now - _lastOut p.
Definition age (p : Path) (now : Z) : Z := now - _lastIn p.

Definition rateGateEchoRequest (p : Path) (now : Z) : Path * bool :=
  if ZT_PEER_GENERAL_RATE_LIMIT / 6 <=? now - _lastEchoRequestReceived p then
    (mkPath (_lastOut p) (_lastIn p) (_lastTrustEstablishedPacketReceived p) now (_localSocket p) (_latency p) (_addr p) (_ipScope p), true)
  else (p, false).
End Path.
