(* ===== verification/Peer.v ===== *)
(** * Peers (node/Peer.hpp, node/Peer.cpp): their data and their table of paths

    What is known about another node: its identity, the key agreed with it, when what happened, and up to 64 paths, best kept in the front of the array: every
    loop over it stops at the first free entry. A path is a reference to an object, an index into the list of them. Bonds and metrics are not modelled.
    What sends packets is in Net. *)

From S2P Require Import Prelude Buffer Serial Address InetAddress Identity Packet Path.

(** ** Key derivation (SHA512.cpp): HMAC-SHA384 and the KDF in counter mode *)

Section Kdf.
Context `{Crypto}.
Definition HMACSHA384 (key msg : list Z) : list Z :=
  let pad c := (Z.lxor c <$> key) ++ replicate 80 c in
  sha384 (pad 0x5c ++ sha384 (pad 0x36 ++ msg)).
Definition KBKDFHMACSHA384 (key : list Z) (label context iter : Z) : list Z :=
  HMACSHA384 key (be_bytes 4 iter ++ [90; 84; label; 0; context; 0; 0; 0x01; 0x80]).
End Kdf.

Definition ZT_SYMMETRIC_KEY_SIZE : Z := 48.
Definition ZT_KBKDF_LABEL_AES_GMAC_SIV_K0 : Z := 48.
Definition ZT_KBKDF_LABEL_AES_GMAC_SIV_K1 : Z := 49.
Definition ZT_MAX_PEER_NETWORK_PATHS : nat := 64.
Definition ZT_PEER_PING_PERIOD : Z := 60000.
Definition ZT_PEER_PATH_EXPIRATION : Z := ZT_PEER_PING_PERIOD * 4 + 3000.
Definition ZT_PEER_ACTIVITY_TIMEOUT : Z := 500000.
Definition ZT_PUSH_DIRECT_PATHS_CUTOFF_TIME : Z := 30000.
Definition ZT_PUSH_DIRECT_PATHS_CUTOFF_LIMIT : Z := 8.
Definition ZT_PEER_CREDENTIALS_RATE_LIMIT : Z := 1000.
Definition ZT_PEER_WHOIS_RATE_LIMIT : Z := 100.

(** [ECC::agree] for keys of 48 bytes: private key, public key *)
Class Agreement := agree48 : list Z -> list Z -> list Z.
Definition agree `{Agreement} (me id : Identity) : option (list Z) := (fun sk => agree48 sk (_publicKey id)) <$> _privateKey me.

Module Peer.
Record PeerPath := mkPeerPath { lr : Z; p : option nat; priority : Z }.
Definition PeerPath_new : PeerPath := mkPeerPath 0 None 1.

Record Times := mkTimes {
  _lastReceive : Z; _lastNontrivialReceive : Z; _lastTriedMemorizedPath : Z; _lastDirectPathPushSent : Z; _lastDirectPathPushReceive : Z;
  _lastCredentialRequestSent : Z; _lastWhoisRequestReceived : Z; _lastCredentialsReceived : Z; _lastTrustEstablishedPacketReceived : Z; _lastSentFullHello : Z }.
Record Version := mkVersion { _vProto : Z; _vMajor : Z; _vMinor : Z; _vRevision : Z }.
Record Peer := mkPeer {
  _id : Identity; _key : list Z; _aesKeys : list Z * list Z; times : Times; version : Version; _lastTriedPath : list (nat * Z); _paths : list PeerPath;
  _directPathPushCutoffCount : Z }.

Definition with_times (x : Peer) (t : Times) : Peer := mkPeer (_id x) (_key x) (_aesKeys x) t (version x) (_lastTriedPath x) (_paths x) (_directPathPushCutoffCount x).
Definition set_version (x : Peer) (v : Version) : Peer := mkPeer (_id x) (_key x) (_aesKeys x) (times x) v (_lastTriedPath x) (_paths x) (_directPathPushCutoffCount x).
Definition set_tried (x : Peer) (l : list (nat * Z)) : Peer := mkPeer (_id x) (_key x) (_aesKeys x) (times x) (version x) l (_paths x) (_directPathPushCutoffCount x).
Definition set_paths (x : Peer) (l : list PeerPath) : Peer := mkPeer (_id x) (_key x) (_aesKeys x) (times x) (version x) (_lastTriedPath x) l (_directPathPushCutoffCount x).
Definition set_cutoff (x : Peer) (n : Z) : Peer := mkPeer (_id x) (_key x) (_aesKeys x) (times x) (version x) (_lastTriedPath x) (_paths x) n.
Definition set_receive (p : Peer) (t : Z) : Peer :=
  let x := times p in with_times p (mkTimes t (_lastNontrivialReceive x) (_lastTriedMemorizedPath x) (_lastDirectPathPushSent x) (_lastDirectPathPushReceive x) (_lastCredentialRequestSent x) (_lastWhoisRequestReceived x) (_lastCredentialsReceived x) (_lastTrustEstablishedPacketReceived x) (_lastSentFullHello x)).
Definition set_nontrivial (p : Peer) (t : Z) : Peer :=
  let x := times p in with_times p (mkTimes (_lastReceive x) t (_lastTriedMemorizedPath x) (_lastDirectPathPushSent x) (_lastDirectPathPushReceive x) (_lastCredentialRequestSent x) (_lastWhoisRequestReceived x) (_lastCredentialsReceived x) (_lastTrustEstablishedPacketReceived x) (_lastSentFullHello x)).
Definition set_memorized (p : Peer) (t : Z) : Peer :=
  let x := times p in with_times p (mkTimes (_lastReceive x) (_lastNontrivialReceive x) t (_lastDirectPathPushSent x) (_lastDirectPathPushReceive x) (_lastCredentialRequestSent x) (_lastWhoisRequestReceived x) (_lastCredentialsReceived x) (_lastTrustEstablishedPacketReceived x) (_lastSentFullHello x)).
Definition set_push_sent (p : Peer) (t : Z) : Peer :=
  let x := times p in with_times p (mkTimes (_lastReceive x) (_lastNontrivialReceive x) (_lastTriedMemorizedPath x) t (_lastDirectPathPushReceive x) (_lastCredentialRequestSent x) (_lastWhoisRequestReceived x) (_lastCredentialsReceived x) (_lastTrustEstablishedPacketReceived x) (_lastSentFullHello x)).
Definition set_push_receive (p : Peer) (t : Z) : Peer :=
  let x := times p in with_times p (mkTimes (_lastReceive x) (_lastNontrivialReceive x) (_lastTriedMemorizedPath x) (_lastDirectPathPushSent x) t (_lastCredentialRequestSent x) (_lastWhoisRequestReceived x) (_lastCredentialsReceived x) (_lastTrustEstablishedPacketReceived x) (_lastSentFullHello x)).
Definition set_request (p : Peer) (t : Z) : Peer :=
  let x := times p in with_times p (mkTimes (_lastReceive x) (_lastNontrivialReceive x) (_lastTriedMemorizedPath x) (_lastDirectPathPushSent x) (_lastDirectPathPushReceive x) t (_lastWhoisRequestReceived x) (_lastCredentialsReceived x) (_lastTrustEstablishedPacketReceived x) (_lastSentFullHello x)).
Definition set_whois (p : Peer) (t : Z) : Peer :=
  let x := times p in with_times p (mkTimes (_lastReceive x) (_lastNontrivialReceive x) (_lastTriedMemorizedPath x) (_lastDirectPathPushSent x) (_lastDirectPathPushReceive x) (_lastCredentialRequestSent x) t (_lastCredentialsReceived x) (_lastTrustEstablishedPacketReceived x) (_lastSentFullHello x)).
Definition set_credentials (p : Peer) (t : Z) : Peer :=
  let x := times p in with_times p (mkTimes (_lastReceive x) (_lastNontrivialReceive x) (_lastTriedMemorizedPath x) (_lastDirectPathPushSent x) (_lastDirectPathPushReceive x) (_lastCredentialRequestSent x) (_lastWhoisRequestReceived x) t (_lastTrustEstablishedPacketReceived x) (_lastSentFullHello x)).
Definition set_trust (p : Peer) (t : Z) : Peer :=
  let x := times p in with_times p (mkTimes (_lastReceive x) (_lastNontrivialReceive x) (_lastTriedMemorizedPath x) (_lastDirectPathPushSent x) (_lastDirectPathPushReceive x) (_lastCredentialRequestSent x) (_lastWhoisRequestReceived x) (_lastCredentialsReceived x) t (_lastSentFullHello x)).
Definition set_hello (p : Peer) (t : Z) : Peer :=
  let x := times p in with_times p (mkTimes (_lastReceive x) (_lastNontrivialReceive x) (_lastTriedMemorizedPath x) (_lastDirectPathPushSent x) (_lastDirectPathPushReceive x) (_lastCredentialRequestSent x) (_lastWhoisRequestReceived x) (_lastCredentialsReceived x) (_lastTrustEstablishedPacketReceived x) t).

Section New.
Context `{Crypto} `{Agreement}.
Definition aes_keys (key : list Z) : list Z * list Z :=
  (KBKDFHMACSHA384 key ZT_KBKDF_LABEL_AES_GMAC_SIV_K0 0 0, KBKDFHMACSHA384 key ZT_KBKDF_LABEL_AES_GMAC_SIV_K1 0 0).
Definition Peer_new (myIdentity peerIdentity : Identity) : outcome Peer :=
  match agree myIdentity peerIdentity with
  | None => Throw InvalidArgument
  | Some key =>
      Ok (mkPeer peerIdentity key (aes_keys key) (mkTimes 0 0 0 0 0 0 0 0 0 0) (mkVersion 0 0 0 0) [] (replicate ZT_MAX_PEER_NETWORK_PATHS PeerPath_new) 0)
  end.
End New.

(** ** Accessors and rate gates *)

Definition peer_address (x : Peer) : Z := address (_id x).
(** Of the key the functions of Packet read 32 bytes. *)
Definition key (x : Peer) : list Z := take 32 (_key x).
Definition aesKeysIfSupported (x : Peer) : option (list Z * list Z) := if 12 <=? _vProto (version x) then Some (_aesKeys x) else None.
Definition isAlive (x : Peer) (now : Z) : bool := now - _lastReceive (times x) <? ZT_PEER_ACTIVITY_TIMEOUT.
Definition isActive (x : Peer) (now : Z) : bool := now - _lastNontrivialReceive (times x) <? ZT_PEER_ACTIVITY_TIMEOUT.
Definition trustEstablished (x : Peer) (now : Z) : bool := now - _lastTrustEstablishedPacketReceived (times x) <? ZT_TRUST_EXPIRATION.
Definition setRemoteVersion (x : Peer) (vproto vmaj vmin vrev : Z) : Peer := set_version x (mkVersion (u16 vproto) (u16 vmaj) (u16 vmin) (u16 vrev)).
Definition remoteVersionKnown (x : Peer) : bool := (0 <? _vMajor (version x)) || (0 <? _vMinor (version x)) || (0 <? _vRevision (version x)).

Definition rateGatePushDirectPaths (x : Peer) (now : Z) : Peer * bool :=
  let x := if now - _lastDirectPathPushReceive (times x) <=? ZT_PUSH_DIRECT_PATHS_CUTOFF_TIME then set_cutoff x (u32 (_directPathPushCutoffCount x + 1)) else set_cutoff x 0 in
  (set_push_receive x now, _directPathPushCutoffCount x <? ZT_PUSH_DIRECT_PATHS_CUTOFF_LIMIT).
Definition rateGateCredentialsReceived (x : Peer) (now : Z) : Peer * bool :=
  if ZT_PEER_CREDENTIALS_RATE_LIMIT <=? now - _lastCredentialsReceived (times x) then (set_credentials x now, true) else (x, false).
Definition rateGateRequestCredentials (x : Peer) (now : Z) : Peer * bool :=
  if ZT_PEER_GENERAL_RATE_LIMIT <=? now - _lastCredentialRequestSent (times x) then (set_request x now, true) else (x, false).
Definition rateGateInboundWhoisRequest (x : Peer) (now : Z) : Peer * bool :=
  if ZT_PEER_WHOIS_RATE_LIMIT <=? now - _lastWhoisRequestReceived (times x) then (set_whois x now, true) else (x, false).

(** ** The table of paths; [st]: the path objects *)

Section Table.
Context (st : list Path.Path) (now : Z).

Definition obj (r : nat) : outcome Path.Path := match st !! r with Some q => Ok q | None => Undef end.
(** Same address on the same interface. *)
Definition same_link (a b : Path.Path) : bool := ipsEqual (Path._addr a) (Path._addr b) && (Path._localSocket a =? Path._localSocket b).
Definition fresh_path (e : PeerPath) : bool := now - lr e <? ZT_PEER_PATH_EXPIRATION.

(** [received]: whether [path] need not be learned, and the entry it has, counted from [i]. *)
Fixpoint have_path (path : nat) (l : list PeerPath) (i : nat) : outcome (option nat * bool) :=
  match l with
  | [] => Ok (None, false)
  | e :: l =>
      match p e with
      | None => Ok (None, false)
      | Some q =>
          if (q =? path)%nat then Ok (Some i, true)
          else a ← obj q; b ← obj path; if same_link a b && Path.alive a now then Ok (None, true) else have_path path l (S i)
      end
  end.
Definition touch (l : list PeerPath) (i : nat) : list PeerPath := alter (fun e => mkPeerPath now (p e) (priority e)) i l.

(** The entry for a new path: a dead one of the same link, the first free one, or the oldest. *)
Fixpoint learn_slot (path : nat) (l : list PeerPath) (i : nat) (oldest : option nat) (oldestAge : Z) : outcome (option nat) :=
  match l with
  | [] => Ok oldest
  | e :: l =>
      match p e with
      | None => Ok (Some i)
      | Some q =>
          a ← obj q; b ← obj path;
          let currAge := u32 (Path.age a now) in
          let '(oldest, oldestAge) := if oldestAge <? currAge then (Some i, currAge) else (oldest, oldestAge) in
          if same_link a b && negb (Path.alive a now) then Ok (Some i) else learn_slot path l (S i) oldest oldestAge
      end
  end.
Definition learn (path : nat) (l : list PeerPath) : outcome (list PeerPath) :=
  slot ← learn_slot path l 0 None 0;
  Ok match slot with Some i => <[i := mkPeerPath now (Some path) 1]> l | None => l end.

(** [long] division. *)
Definition path_quality (e : PeerPath) (q : nat) : outcome Z :=
  a ← obj q; x ← Path.quality a now; if priority e =? 0 then Undef else Ok (Z.quot x (priority e)).
Fixpoint best_path (includeExpired : bool) (l : list PeerPath) (best : option nat) (bestq : Z) : outcome (option nat) :=
  match l with
  | [] => Ok best
  | e :: l =>
      match p e with
      | None => Ok best
      | Some r =>
          if includeExpired || fresh_path e then
            q ← path_quality e r;
            if q <=? bestq then best_path includeExpired l (Some r) q else best_path includeExpired l best bestq
          else best_path includeExpired l best bestq
      end
  end.
Definition getAppropriatePath (x : Peer) (includeExpired : bool) : outcome (option nat) := best_path includeExpired (_paths x) None 2147483647.

(** The entries before the first free one. *)
Fixpoint used (l : list PeerPath) : list (nat * PeerPath) :=
  match l with [] => [] | e :: l => match p e with None => [] | Some r => (r, e) :: used l end end.
Definition paths (x : Peer) : list nat := (used (_paths x)).*1.

Fixpoint hasActivePathTo (addr : InetAddress) (l : list PeerPath) : outcome bool :=
  match l with
  | [] => Ok false
  | e :: l =>
      match p e with
      | None => Ok false
      | Some r => a ← obj r; if fresh_path e && InetAddress.eqb (Path._addr a) addr then Ok true else hasActivePathTo addr l
      end
  end.

Definition latency (x : Peer) : outcome Z :=
  b ← getAppropriatePath x false;
  match b with Some r => a ← obj r; Ok (Path._latency a) | None => Ok 0xffff end.
Definition relayQuality (x : Peer) : outcome Z :=
  let tsr := u64 (now - _lastReceive (times x)) in
  if ZT_PEER_ACTIVITY_TIMEOUT <=? tsr then Ok 0xffffffff
  else
    l ← latency x;
    let l := if l =? 0 then 0xffff else l in
    Ok (u32 (l * (u32 tsr / (ZT_PEER_PING_PERIOD + 1000) + 1))).

(** [doPingAndKeepalive]: an expired path or one of a lower priority goes, and the next entry behind a free one moves into it. *)
Fixpoint max_priority (l : list PeerPath) (m : Z) : Z :=
  match l with [] => m | e :: l => match p e with None => m | Some _ => max_priority l (Z.max (priority e) m) end end.
Definition keep_path (maxPriority : Z) (e : PeerPath) : bool := fresh_path e && (priority e =? maxPriority).
Definition next_used (l : list PeerPath) (i : nat) : option (nat * PeerPath) :=
  head (filter (fun je => (i < je.1)%nat /\ p je.2 <> None) (zip (seq 0 (length l)) l)).
Definition move_up (l : list PeerPath) (i : nat) : list PeerPath :=
  match next_used l i with Some (j, e) => <[j := PeerPath_new]> (<[i := e]> l) | None => l end.
Definition clean_entry (maxPriority : Z) (l : list PeerPath) (i : nat) : list PeerPath :=
  match l !! i with
  | None => l
  | Some e =>
      match p e with
      | None => move_up l i
      | Some _ => if keep_path maxPriority e then l else move_up (<[i := PeerPath_new]> l) i
      end
  end.

(** [clusterRedirect]: paths of a lower priority and those to the same address go. *)
Fixpoint priority_of (path : nat) (l : list PeerPath) : Z :=
  match l with [] => 1 | e :: l => match p e with None => 1 | Some q => if (q =? path)%nat then priority e else priority_of path l end end.
Fixpoint redirect_kept (remote : InetAddress) (newPriority : Z) (l : list PeerPath) : outcome (list PeerPath) :=
  match l with
  | [] => Ok []
  | e :: l =>
      match p e with
      | None => redirect_kept remote newPriority l
      | Some r =>
          a ← obj r;
          k ← redirect_kept remote newPriority l;
          Ok (if (newPriority <=? priority e) && negb (ipsEqual2 (Path._addr a) remote) then e :: k else k)
      end
  end.
Definition redirect (originating np : nat) (remote : InetAddress) (l : list PeerPath) : outcome (list PeerPath) :=
  newPriority ← Path.int_op (priority_of originating l + 2);
  k ← redirect_kept remote newPriority l;
  Ok (if (length k <? ZT_MAX_PEER_NETWORK_PATHS)%nat then
        k ++ mkPeerPath now (Some np) newPriority :: replicate (ZT_MAX_PEER_NETWORK_PATHS - S (length k)) PeerPath_new
      else k).
End Table.
End Peer.
