(* ===== verification/Net.v ===== *)
(** * The node among its peers: state, and what a peer sends (node/Peer.cpp, node/Path.cpp, node/Topology.hpp, node/Node.cpp, node/SelfAwareness.hpp)

    The state of Topology (peers, paths, worlds), SelfAwareness and the networks of the node, what is put on the wire, and the methods of a peer that send. A
    path is a reference to an object; a peer is named by its address, under which the topology files it. Every operation is a step on the state that keeps what
    was done before an exception. *)

From S2P Require Import Prelude Buffer Serial Address InetAddress Identity Packet Table Network NetworkConfig Runtime World Path Peer.
Import Packet.

Definition ZT_PROTO_VERSION : Z := 13.
Definition ZEROTIER_ONE_VERSION_MAJOR : Z := 1.
Definition ZEROTIER_ONE_VERSION_MINOR : Z := 16.
Definition ZEROTIER_ONE_VERSION_REVISION : Z := 1.
Definition ZT_TRY_MEMORIZED_PATH_INTERVAL : Z := 30000.
Definition ZT_DIRECT_PATH_PUSH_INTERVAL : Z := 15000.
Definition ZT_DIRECT_PATH_PUSH_INTERVAL_HAVEPATH : Z := 120000.

(** ** State *)

(** [putPacket]: local socket, address, bytes, time to live *)
Record Datagram := mkDatagram { dg_socket : Z; dg_to : InetAddress; dg_data : list Z; dg_ttl : Z }.

Record Topology := mkTopology {
  _peers : gmap Z Peer.Peer; objects : list Path.Path; _pathIndex : gmap Path.HashKey nat;
  _planet : World.World; _moons : list World.World; _moonSeeds : list (Z * Z); _upstreamAddresses : list Z; _amUpstream : bool;
  _physicalPathConfig : list (InetAddress * (Z * Z)) }.
(** [_physicalPathConfig]: network, trusted path ID and MTU. *)

Record PhySurfaceKey := mkPhySurfaceKey { reporter : Z; receivedOnLocalSocket : Z; reporterPhysicalAddress : InetAddress; key_scope : IpScope }.
#[export] Instance PhySurfaceKey_eq_dec : EqDecision PhySurfaceKey.
Proof. solve_decision. Defined.
Record PhySurfaceEntry := mkPhySurfaceEntry { mySurface : InetAddress; surface_ts : Z; trusted : bool }.

(** What the host stores: identifier and bytes, or nothing when it is deleted. *)
Inductive StateObject := PlanetObject | MoonObject (id : Z) | PeerObject (addr : Z).

(** [made]: how many packets have been constructed; [_phy]: the entries of the table, in the order they came. *)
Record Net := mkNet {
  topology : Topology; _phy : list (PhySurfaceKey * PhySurfaceEntry); wire : list Datagram; made : nat; _lastIdentityVerification : gmap Z Z;
  stored : list (StateObject * option (list Z)); node : Node (gmap Z) }.

Definition set_topology (n : Net) (t : Topology) : Net := mkNet t (_phy n) (wire n) (made n) (_lastIdentityVerification n) (stored n) (node n).
Definition set_phy (n : Net) (l : list (PhySurfaceKey * PhySurfaceEntry)) : Net := mkNet (topology n) l (wire n) (made n) (_lastIdentityVerification n) (stored n) (node n).
Definition set_wire (n : Net) (l : list Datagram) : Net := mkNet (topology n) (_phy n) l (made n) (_lastIdentityVerification n) (stored n) (node n).
Definition set_made (n : Net) (k : nat) : Net := mkNet (topology n) (_phy n) (wire n) k (_lastIdentityVerification n) (stored n) (node n).
Definition set_verification (n : Net) (m : gmap Z Z) : Net := mkNet (topology n) (_phy n) (wire n) (made n) m (stored n) (node n).
Definition set_stored (n : Net) (l : list (StateObject * option (list Z))) : Net := mkNet (topology n) (_phy n) (wire n) (made n) (_lastIdentityVerification n) l (node n).
Definition set_node (n : Net) (x : Node (gmap Z)) : Net := mkNet (topology n) (_phy n) (wire n) (made n) (_lastIdentityVerification n) (stored n) x.

Definition set_peers (t : Topology) (m : gmap Z Peer.Peer) : Topology :=
  mkTopology m (objects t) (_pathIndex t) (_planet t) (_moons t) (_moonSeeds t) (_upstreamAddresses t) (_amUpstream t) (_physicalPathConfig t).
Definition set_objects (t : Topology) (l : list Path.Path) : Topology :=
  mkTopology (_peers t) l (_pathIndex t) (_planet t) (_moons t) (_moonSeeds t) (_upstreamAddresses t) (_amUpstream t) (_physicalPathConfig t).
Definition set_index (t : Topology) (m : gmap Path.HashKey nat) : Topology :=
  mkTopology (_peers t) (objects t) m (_planet t) (_moons t) (_moonSeeds t) (_upstreamAddresses t) (_amUpstream t) (_physicalPathConfig t).
Definition set_worlds (t : Topology) (planet : World.World) (moons : list World.World) (seeds : list (Z * Z)) : Topology :=
  mkTopology (_peers t) (objects t) (_pathIndex t) planet moons seeds (_upstreamAddresses t) (_amUpstream t) (_physicalPathConfig t).
Definition set_upstreams (t : Topology) (l : list Z) (am : bool) : Topology :=
  mkTopology (_peers t) (objects t) (_pathIndex t) (_planet t) (_moons t) (_moonSeeds t) l am (_physicalPathConfig t).
Definition set_physical (t : Topology) (l : list (InetAddress * (Z * Z))) : Topology :=
  mkTopology (_peers t) (objects t) (_pathIndex t) (_planet t) (_moons t) (_moonSeeds t) (_upstreamAddresses t) (_amUpstream t) l.

(** ** The node's settings and the host's callbacks *)

Class Setup := {
  myIdentity : Identity;
  lowBandwidthModeEnabled : bool;
  encryptedHelloEnabled : bool;
  directPaths : list InetAddress;
  (** whether the transport takes a datagram, given those before it *)
  put_ok : list Datagram -> Datagram -> bool;
  path_check : Z -> Z -> InetAddress -> bool;
  path_lookup : Z -> option InetAddress;
  (** what the host has stored, in an array of the given size *)
  stateObjectGet : StateObject -> option (list Z);
  (** arrays on the stack, and what [ECC::generate] delivers for the [n]th packet *)
  scratch : list Z;
  poly_scratch : list Z;
  ephemeral : nat -> list Z * list Z;
}.

(** ** Steps *)

Definition net (A : Type) : Type := Net -> result Net A.
#[export] Instance net_ret : MRet net := fun A a s => Done s a.
#[export] Instance net_bind : MBind net := fun A B k m s => match m s with Done s a => k a s | Threw s e => Threw s e | Undefined => Undefined end.

Definition nlift {A} (m : outcome A) : net A := fun s => match m with Ok a => Done s a | Throw e => Threw s e | Undef => Undefined end.
Definition nget {A} (f : Net -> A) : net A := fun s => Done s (f s).
Definition nput (f : Net -> Net) : net () := fun s => Done (f s) ().
Definition nwhen (c : bool) (m : net ()) : net () := if c then m else mret ().
Definition ntry {A} (m k : net A) : net A := fun s => match m s with Threw s _ => k s | r => r end.
Fixpoint neach {X} (l : list X) (f : X -> net ()) : net () := match l with [] => mret () | x :: l => _ ← f x; neach l f end.
Definition on_node {A} (m : handler (gmap Z) A) : net A := fun s =>
  match m (node s) with Done x a => Done (set_node s x) a | Threw x e => Threw (set_node s x) e | Undefined => Undefined end.

Definition topo {A} (f : Topology -> A) : net A := nget (fun s => f (topology s)).
Definition update_topo (f : Topology -> Topology) : net () := nput (fun s => set_topology s (f (topology s))).
Definition the_peer (a : Z) : net Peer.Peer := fun s => match _peers (topology s) !! a with Some x => Done s x | None => Undefined end.
Definition put_peer (a : Z) (x : Peer.Peer) : net () := update_topo (fun t => set_peers t (<[a := x]> (_peers t))).
Definition update_peer (a : Z) (f : Peer.Peer -> Peer.Peer) : net () := x ← the_peer a; put_peer a (f x).
(** A gate of a peer, which notes the time. *)
Definition gate_peer (a : Z) (f : Peer.Peer -> Peer.Peer * bool) : net bool := x ← the_peer a; let '(x, b) := f x in _ ← put_peer a x; mret b.
Definition the_path (r : nat) : net Path.Path := fun s => match objects (topology s) !! r with Some p => Done s p | None => Undefined end.
Definition update_path (r : nat) (f : Path.Path -> Path.Path) : net () := update_topo (fun t => set_objects t (alter f r (objects t))).

Section Net.
Context `{Setup} `{PacketSource} `{PacketCrypto} `{Crypto} `{Agreement}.
Context (now : Z).

Definition self : Z := address myIdentity.

(** ** Sending *)

Definition putPacket (socket : Z) (to : InetAddress) (d : list Z) (ttl : Z) : net bool := fun s =>
  let g := mkDatagram socket to d ttl in Done (set_wire s (wire s ++ [g])) (put_ok (wire s) g).
(** [Path::send] *)
Definition send_on (r : nat) (d : list Z) : net bool :=
  p ← the_path r;
  ok ← putPacket (Path._localSocket p) (Path._addr p) d 0;
  _ ← nwhen ok (update_path r (fun p => Path.sent p now));
  mret ok.

Definition make_packet (dest v : Z) : net Buffer :=
  k ← nget made; _ ← nput (fun s => set_made s (S k)); nlift (Packet (new_mem k) (new_iv k) dest self v).
Definition arm (b : Buffer) (key : list Z) (encrypt ext : bool) (aes : option (list Z * list Z)) (id : Identity) : net Buffer :=
  k ← nget made; nlift (Armor.armor scratch poly_scratch b key encrypt ext aes (ephemeral k) (publicKey id)).
(** As most packets to a peer are armored. *)
Definition arm_for (x : Peer.Peer) (b : Buffer) : net Buffer := arm b (Peer.key x) true false (Peer.aesKeysIfSupported x) (Peer._id x).
Definition expect (b : Buffer) : net () := pid ← nlift (packetId b); on_node (expectReplyTo pid).

(** ** Topology: what peers need of it *)

(** The path objects are unique for a socket and address. *)
Definition getPath (l : Z) (r : InetAddress) : net nat := fun s =>
  let t := topology s in
  match _pathIndex t !! Path.hash_key l r with
  | Some i => Done s i
  | None => let i := length (objects t) in
            Done (set_topology s (set_index (set_objects t (objects t ++ [Path.Path_new l r])) (<[Path.hash_key l r := i]> (_pathIndex t)))) i
  end.

Fixpoint moons_wanted (seeds : list (Z * Z)) (mw : list Z) : list Z :=
  match seeds with [] => mw | (i, _) :: seeds => moons_wanted seeds (if bool_decide (i ∈ mw) then mw else mw ++ [i]) end.
Definition moonsWanted (t : Topology) : list Z := moons_wanted (_moonSeeds t) [].

(** Of a root only the endpoints it is listed with; none listed: all. [None]: not decided by these roots. *)
Fixpoint allowed_by (ztaddr : Z) (ipaddr : InetAddress) (roots : list World.Root) : bool :=
  match roots with
  | [] => false
  | r :: roots =>
      (if address (World.identity r) =? ztaddr then
         match World.stableEndpoints r with [] => true | eps => existsb (fun e => ipsEqual ipaddr e) eps end
       else false) || allowed_by ztaddr ipaddr roots
  end.
Definition isProhibitedEndpoint (t : Topology) (ztaddr : Z) (ipaddr : InetAddress) : bool :=
  bool_decide (ztaddr ∈ _upstreamAddresses t) &&
  negb (allowed_by ztaddr ipaddr (World._roots (_planet t)) || existsb (fun m => allowed_by ztaddr ipaddr (World._roots m)) (_moons t)).

(** [SelfAwareness::whoami] *)
Definition surfaces (phy : list (PhySurfaceKey * PhySurfaceEntry)) : list InetAddress :=
  fold_left (fun l ke => if existsb (fun a => InetAddress.eqb a (mySurface ke.2)) l then l else l ++ [mySurface ke.2]) phy [].

(** [Node::shouldUsePathForZeroTierTraffic]: not to an address of a network the node is on. *)
Fixpoint in_networks (a : InetAddress) (ips : list InetAddress) : outcome bool :=
  match ips with [] => Ok false | ip :: ips => c ← containsAddress ip a; if (c : bool) then Ok true else in_networks a ips end.
Definition network_ips (n : Node (gmap Z)) : list InetAddress :=
  concat ((fun x : Z * Network.Network (gmap Z) => if Network.hasConfig x.2 then staticIps (Network._config x.2) else []) <$> map_to_list (networks n)).
Definition shouldUsePathForZeroTierTraffic (ztaddr localSocket : Z) (a : InetAddress) : net bool :=
  if negb (Path.isAddressValidForPath a) then mret false
  else
    prohibited ← topo (fun t => isProhibitedEndpoint t ztaddr a);
    if (prohibited : bool) then mret false
    else
      ips ← nget (fun s => network_ips (node s));
      inside ← nlift (in_networks a ips);
      mret (if (inside : bool) then false else path_check ztaddr localSocket a).

(** ** What a peer sends *)

Definition append_moons (t : Topology) (b : Buffer) : outcome Buffer :=
  let wanted := moonsWanted t in
  b ← append_int 2 b (zlen (_moons t) + zlen wanted);
  b ← append_all (fun b m => b ← append_int 1 b (World.Type_int (World._type m)); b ← append_int 8 b (World._id m); append_int 8 b (World._ts m)) b (_moons t);
  append_all (fun b i => b ← append_int 1 b (World.Type_int World.TYPE_MOON); b ← append_int 8 b i; append_int 8 b 0) b wanted.

(** A HELLO up to where the encrypted part starts, and whole. *)
Definition hello_head (t : Topology) (b : Buffer) (atAddress : InetAddress) : outcome Buffer :=
  b ← append_int 1 b ZT_PROTO_VERSION;
  b ← append_int 1 b ZEROTIER_ONE_VERSION_MAJOR;
  b ← append_int 1 b ZEROTIER_ONE_VERSION_MINOR;
  b ← append_int 2 b ZEROTIER_ONE_VERSION_REVISION;
  b ← append_int 8 b now;
  b ← identity_serialize b myIdentity false;
  b ← inet_serialize b atAddress;
  b ← append_int 8 b (World._id (_planet t));
  append_int 8 b (World._ts (_planet t)).
Definition hello (t : Topology) (x : Peer.Peer) (b : Buffer) (atAddress : InetAddress) : outcome Buffer :=
  b ← hello_head t b atAddress;
  let startCryptedPortionAt := size b in
  b ← append_moons t b;
  Armor.cryptField scratch b (Peer.key x) startCryptedPortionAt (size b - startCryptedPortionAt).

Definition sendHELLO (x : Peer.Peer) (localSocket : Z) (atAddress : InetAddress) : net () :=
  outp ← make_packet (Peer.peer_address x) VERB_HELLO;
  t ← nget topology;
  outp ← nlift (hello t x outp atAddress);
  if valid atAddress then
    outp ← arm outp (Peer.key x) false encryptedHelloEnabled None (Peer._id x);
    _ ← expect outp;
    _ ← putPacket (if lowBandwidthModeEnabled then localSocket else -1) atAddress (data outp) 0;
    mret ()
  else
    _ ← expect outp;
    on_node (transmit (Peer.peer_address x) outp).

Definition attemptToContactAt (x : Peer.Peer) (localSocket : Z) (atAddress : InetAddress) (sendFullHello : bool) : net () :=
  let v := Peer.version x in
  if negb sendFullHello && (5 <=? Peer._vProto v) && negb ((Peer._vMajor v =? 1) && (Peer._vMinor v =? 1) && (Peer._vRevision v =? 0)) then
    outp ← make_packet (Peer.peer_address x) VERB_ECHO;
    outp ← arm_for x outp;
    _ ← expect outp;
    _ ← putPacket localSocket atAddress (data outp) 0;
    mret ()
  else sendHELLO x localSocket atAddress.

Definition tryMemorizedPath (a : Z) : net () :=
  x ← the_peer a;
  if ZT_TRY_MEMORIZED_PATH_INTERVAL <=? now - Peer._lastTriedMemorizedPath (Peer.times x) then
    let x := Peer.set_memorized x now in
    _ ← put_peer a x;
    match path_lookup (Peer.peer_address x) with Some mp => attemptToContactAt x (-1) mp true | None => mret () end
  else mret ().

(** [doPingAndKeepalive]; of the entries from [i] on *)
Definition ping_entry (a : Z) (sendFullHello : bool) (maxPriority : Z) (i : nat) : net Z :=
  x ← the_peer a;
  sent ← match Peer._paths x !! i with
         | Some (Peer.mkPeerPath t (Some r) pr) =>
             q ← the_path r;
             if Peer.keep_path now maxPriority (Peer.mkPeerPath t (Some r) pr) && (sendFullHello || Path.needsHeartbeat q now) then
               _ ← attemptToContactAt x (Path._localSocket q) (Path._addr q) sendFullHello;
               _ ← update_path r (fun q => Path.sent q now);
               mret (if isV4 (Path._addr q) then 0x1 else 0x2)
             else mret 0
         | _ => mret 0
         end;
  _ ← update_peer a (fun x => Peer.set_paths x (Peer.clean_entry now maxPriority (Peer._paths x) i));
  mret sent.
Fixpoint ping_entries (a : Z) (sendFullHello : bool) (maxPriority : Z) (n i : nat) : net Z :=
  match n with
  | O => mret 0
  | S n => s ← ping_entry a sendFullHello maxPriority i; s' ← ping_entries a sendFullHello maxPriority n (S i); mret (Z.lor s s')
  end.
Definition doPingAndKeepalive (a : Z) : net Z :=
  x ← the_peer a;
  let sendFullHello := ZT_PEER_PING_PERIOD <=? now - Peer._lastSentFullHello (Peer.times x) in
  _ ← nwhen sendFullHello (put_peer a (Peer.set_hello x now));
  ping_entries a sendFullHello (Peer.max_priority (Peer._paths x) 0) ZT_MAX_PEER_NETWORK_PATHS 0.

Definition clusterRedirect (a : Z) (originatingPath : nat) (remoteAddress : InetAddress) : net () :=
  o ← the_path originatingPath;
  np ← getPath (Path._localSocket o) remoteAddress;
  x ← the_peer a;
  _ ← attemptToContactAt x (Path._localSocket o) remoteAddress true;
  st ← topo objects;
  l ← nlift (Peer.redirect st now originatingPath np remoteAddress (Peer._paths x));
  update_peer a (fun x => Peer.set_paths x l).

Definition reset_entry (a : Z) (scope : IpScope) (family : Z) (i : nat) (r : nat) : net () :=
  q ← the_path r;
  if (AF (Path._addr q) =? family) && bool_decide (Path._ipScope q = scope) then
    x ← the_peer a;
    _ ← attemptToContactAt x (Path._localSocket q) (Path._addr q) false;
    _ ← update_path r (fun q => Path.sent q now);
    update_peer a (fun x => Peer.set_paths x (alter (fun e => Peer.mkPeerPath 0 (Peer.p e) (Peer.priority e)) i (Peer._paths x)))
  else mret ().
Definition resetWithinScope (a : Z) (scope : IpScope) (family : Z) : net () :=
  x ← the_peer a;
  let u := Peer.paths x in
  neach (zip (seq 0 (length u)) u) (fun ir => reset_entry a scope family ir.1 ir.2).

(** ** Introducing two peers to each other *)

Record Candidate := mkCandidate { c_path : nat; c_quality : Z; c_scope : Z; c_v6 : bool }.
Fixpoint candidates (st : list Path.Path) (l : list (nat * Peer.PeerPath)) : outcome (list Candidate) :=
  match l with
  | [] => Ok []
  | (r, e) :: l => q ← Peer.path_quality st now e r; a ← Peer.obj st r; k ← candidates st l; Ok (mkCandidate r q (IpScope_int (Path._ipScope a)) (isV6 (Path._addr a)) :: k)
  end.
Definition best_in (s : Z) (v6 : bool) (l : list Candidate) : option nat :=
  (fold_left (fun b c => if (c_scope c =? s) && Bool.eqb (c_v6 c) v6 && (c_quality c <=? b.2) then (Some (c_path c), c_quality c) else b) l (None, 2147483647)).1.
Definition pair_in (s : Z) (v6 : bool) (mine theirs : list Candidate) : option (nat * nat) :=
  match best_in s v6 mine, best_in s v6 theirs with Some m, Some t => Some (m, t) | _, _ => None end.
(** The highest scope that both have, IPv6 first. *)
Definition best_pair (mine theirs : list Candidate) : option (nat * nat) :=
  head (omap (fun sv : Z * bool => pair_in sv.1 sv.2 mine theirs) (concat ((fun s => [(s, true); (s, false)]) <$> [7; 6; 5; 4; 3; 2; 1; 0]))).

(** Tells [to], along path [via], that [with] is reached along [at_path]. *)
Definition rendezvous (to with_ : Peer.Peer) (via at_path : nat) : net () :=
  q ← the_path at_path;
  outp ← make_packet (Peer.peer_address to) VERB_RENDEZVOUS;
  outp ← nlift (b ← append_int 1 outp 0;
                b ← Address.appendTo b (Peer.peer_address with_);
                b ← append_int 2 b (port (Path._addr q));
                b ← append_int 1 b (if isV6 (Path._addr q) then 16 else 4);
                match rawIpData (Path._addr q) with Some ip => append b ip | None => Undef end);
  outp ← arm_for to outp;
  _ ← send_on via (data outp);
  mret ().
(** The lock of the table of a peer, which is not recursive, is taken for both. *)
Definition locked_twice {A} : net A := fun _ => Undefined.
Definition introduce (a other : Z) : net () :=
  x ← the_peer a;
  y ← the_peer other;
  if a =? other then locked_twice
  else
    st ← topo objects;
    mine ← nlift (candidates st (Peer.used (Peer._paths x)));
    theirs ← nlift (candidates st (Peer.used (Peer._paths y)));
    match best_pair mine theirs with
    | None => mret ()
    | Some (m, t) =>
        r ← on_node draw;
        if Z.land r 1 =? 0 then _ ← rendezvous x y m t; rendezvous y x t m
        else _ ← rendezvous y x t m; rendezvous x y m t
    end.

(** ** A packet from a peer has been accepted *)

(** The addresses that fit into one packet; only IP addresses are pushed. *)
Fixpoint fill_paths (l : list InetAddress) (b : Buffer) (count : Z) : outcome (Buffer * Z * list InetAddress) :=
  match l with
  | [] => Ok (b, count, [])
  | a :: l' =>
      if size b + 24 <? 1200 then
        match rawIpData a with
        | None => fill_paths l' b count
        | Some ip =>
            b ← append_int 1 b 0;
            b ← append_int 2 b 0;
            b ← append_int 1 b (if isV6 a then 6 else 4);
            b ← append_int 1 b (if isV6 a then 18 else 6);
            b ← append b ip;
            b ← append_int 2 b (port a);
            fill_paths l' b (count + 1)
        end
      else Ok (b, count, l)
  end.
Fixpoint push_paths (fuel : nat) (x : Peer.Peer) (path : nat) (l : list InetAddress) : net () :=
  match l, fuel with
  | [], _ => mret ()
  | _, O => nlift Undef
  | _, S fuel =>
      outp ← make_packet (Peer.peer_address x) VERB_PUSH_DIRECT_PATHS;
      outp ← nlift (addSize outp 2);
      '(outp, count, l) ← nlift (fill_paths l outp 0);
      _ ← nwhen (0 <? count)
            (outp ← nlift (setAt 2 outp ZT_PACKET_IDX_PAYLOAD count);
             '(outp, _) ← nlift (Armor.compress outp);
             outp ← arm_for x outp;
             _ ← send_on path (data outp);
             mret ());
      push_paths fuel x path l
  end.

(** A direct packet on a path that is not in the table: an OK makes the peer learn it, anything else is answered with a HELLO, once a second. *)
Definition confirm_path (a : Z) (path : nat) : net () :=
  x ← the_peer a;
  q ← the_path path;
  let tried := filter (fun pt => now - pt.2 <= 1000) (Peer._lastTriedPath x) in
  if bool_decide (path ∈ tried.*1) then put_peer a (Peer.set_tried x tried)
  else
    let x := Peer.set_tried x (tried ++ [(path, now)]) in
    _ ← put_peer a x;
    _ ← attemptToContactAt x (Path._localSocket q) (Path._addr q) true;
    update_path path (fun q => Path.sent q now).
Definition direct_packet (a : Z) (path : nat) (v : Z) : net () :=
  x ← the_peer a;
  st ← topo objects;
  '(i, havePath) ← nlift (Peer.have_path st now path (Peer._paths x) 0);
  _ ← match i with Some i => put_peer a (Peer.set_paths x (Peer.touch now (Peer._paths x) i)) | None => mret () end;
  if (havePath : bool) then mret ()
  else
    q ← the_path path;
    use ← shouldUsePathForZeroTierTraffic (Peer.peer_address x) (Path._localSocket q) (Path._addr q);
    if (use : bool) then
      if v =? VERB_OK then l ← nlift (Peer.learn st now path (Peer._paths x)); put_peer a (Peer.set_paths x l)
      else confirm_path a path
    else mret ().

Definition nontrivial (v : Z) : bool :=
  bool_decide (v ∈ [VERB_FRAME; VERB_EXT_FRAME; VERB_NETWORK_CONFIG_REQUEST; VERB_NETWORK_CONFIG; VERB_MULTICAST_FRAME]).
Definition push_due (x : Peer.Peer) (hops : Z) : bool :=
  Peer.trustEstablished x now &&
  ((if hops =? 0 then ZT_DIRECT_PATH_PUSH_INTERVAL_HAVEPATH * (if lowBandwidthModeEnabled then 16 else 1) else ZT_DIRECT_PATH_PUSH_INTERVAL)
     <=? now - Peer._lastDirectPathPushSent (Peer.times x)).
Definition received (a : Z) (path : nat) (hops v : Z) (trust : bool) : net () :=
  _ ← update_peer a (fun x => let x := Peer.set_receive x now in let x := if nontrivial v then Peer.set_nontrivial x now else x in
                              if trust then Peer.set_trust x now else x);
  _ ← nwhen trust (update_path path (fun q => Path.trustedPacketReceived q now));
  _ ← nwhen (hops =? 0) (direct_packet a path v);
  x ← the_peer a;
  nwhen (push_due x hops)
    (_ ← put_peer a (Peer.set_push_sent x now);
     ma ← nget (fun s => surfaces (_phy s));
     let l := directPaths ++ ma in
     push_paths (S (length l)) x path l).
End Net.

(** ** A small node, to evaluate the model with: without networks, nothing stored, every datagram taken *)

Definition toy_key (x : Z) : list Z := replicate 64 x.
Definition toy_me : Identity := mkIdentity 0x1111111111 (toy_key 5) (Some (toy_key 5)).
#[export] Instance toy_agreement : Agreement := fun sk pk => take 48 (zip_with (fun a b => u8 (a * b + 1)) sk pk).
Definition toy_setup (me : Identity) : Setup := {|
  myIdentity := me; lowBandwidthModeEnabled := false; encryptedHelloEnabled := false; directPaths := []; put_ok _ _ := true; path_check _ _ _ := true; path_lookup _ := None;
  stateObjectGet _ := None; scratch := replicate 64 9; poly_scratch := replicate 16 0; ephemeral _ := ([], []) |}.
Definition Net_new (t : Topology) : Net := mkNet t [] [] 0 ∅ [] (Node_new (1, 2)).
