(* ===== verification/Topology.v ===== *)
(** * The topology (node/Topology.hpp, node/Topology.cpp)

    Which peers are known, which worlds - the planet and the moons - name the roots, who is upstream of this node because of them, and what is configured for
    physical networks. Peers that were forgotten are kept by the host. *)

From stdpp Require Import sorting.
From S2P Require Import Prelude Buffer Serial Address InetAddress Identity Packet Table Credential Network NetworkConfig Runtime World Path Peer Net.

Definition ZT_DEFAULT_WORLD : list Z :=
  [
   1; 0; 0; 0; 0; 8; 234; 201; 10; 0; 0; 1; 126; 233; 87; 96; 205; 184; 179; 136; 164; 105; 34; 20; 145; 170; 154; 205; 102; 204; 118; 76; 222; 253; 86; 3; 159; 16;
   103; 174; 21; 230; 156; 111; 180; 45; 123; 85; 51; 14; 63; 218; 172; 82; 156; 7; 146; 253; 115; 64; 166; 170; 33; 171; 168; 164; 137; 253; 174; 164; 74; 57; 191; 45; 0; 101;
   154; 201; 200; 24; 235; 54; 0; 146; 118; 55; 239; 77; 20; 4; 164; 77; 84; 70; 132; 133; 19; 121; 117; 31; 170; 121; 180; 196; 234; 133; 4; 1; 117; 234; 6; 88; 96; 72;
   36; 2; 225; 235; 52; 32; 82; 0; 14; 98; 144; 6; 26; 155; 224; 205; 41; 60; 139; 85; 241; 195; 210; 82; 72; 8; 175; 197; 73; 34; 8; 14; 53; 57; 167; 90; 221; 195;
   206; 240; 246; 173; 38; 13; 88; 130; 147; 187; 119; 134; 231; 30; 250; 75; 144; 87; 218; 217; 134; 122; 254; 18; 221; 4; 202; 254; 158; 254; 185; 0; 204; 222; 247; 107; 199; 185;
   125; 237; 144; 78; 171; 197; 223; 9; 136; 109; 156; 21; 20; 166; 16; 3; 108; 185; 19; 156; 194; 20; 0; 26; 41; 88; 151; 142; 252; 236; 21; 113; 45; 211; 148; 140; 110; 107;
   58; 142; 137; 61; 240; 31; 244; 147; 209; 248; 217; 128; 106; 134; 12; 84; 32; 87; 27; 240; 0; 2; 4; 104; 194; 8; 134; 39; 9; 6; 38; 5; 152; 128; 2; 0; 18; 0;
   0; 48; 5; 113; 14; 52; 0; 81; 39; 9; 119; 140; 222; 113; 144; 0; 63; 102; 129; 169; 158; 90; 209; 137; 94; 159; 186; 51; 230; 33; 45; 68; 84; 225; 104; 188; 236; 113;
   18; 16; 27; 240; 0; 149; 110; 216; 233; 46; 66; 137; 44; 182; 242; 236; 65; 8; 129; 168; 74; 177; 157; 165; 14; 18; 135; 186; 61; 146; 108; 58; 31; 117; 92; 204; 242; 153;
   161; 32; 112; 85; 0; 2; 4; 103; 195; 103; 66; 39; 9; 6; 38; 5; 152; 128; 4; 0; 0; 195; 2; 84; 242; 188; 161; 247; 0; 25; 39; 9; 98; 248; 101; 174; 113; 0;
   226; 7; 108; 87; 222; 135; 14; 98; 136; 215; 213; 231; 64; 68; 8; 177; 84; 94; 252; 163; 125; 103; 247; 123; 135; 233; 229; 65; 104; 194; 93; 62; 241; 169; 171; 242; 144; 94;
   165; 231; 133; 192; 29; 255; 35; 136; 122; 212; 35; 45; 149; 199; 168; 253; 44; 39; 17; 26; 114; 189; 21; 147; 34; 220; 0; 2; 4; 50; 7; 252; 138; 39; 9; 6; 32; 1;
   73; 240; 208; 219; 0; 2; 0; 0; 0; 0; 0; 0; 0; 2; 39; 9; 202; 254; 4; 235; 169; 0; 108; 106; 157; 29; 234; 85; 193; 97; 107; 254; 42; 43; 143; 15; 249; 168;
   202; 202; 247; 3; 116; 251; 31; 57; 227; 190; 248; 28; 191; 235; 239; 23; 183; 34; 130; 104; 160; 162; 162; 157; 52; 136; 199; 82; 86; 92; 108; 150; 92; 189; 101; 6; 236; 36;
   57; 124; 200; 165; 217; 209; 82; 133; 168; 127; 0; 2; 4; 84; 17; 53; 155; 39; 9; 6; 42; 2; 110; 160; 212; 5; 0; 0; 0; 0; 0; 0; 0; 0; 153; 147; 39; 9].

Definition ZT_MIN_PHYSMTU : Z := 510.
Definition ZT_MAX_PHYSMTU : Z := 10100 + 224.
Definition ZT_DEFAULT_PHYSMTU : Z := 1432.
Definition ZT_MAX_CONFIGURABLE_PATHS : nat := 32.

Inductive ZT_PeerRole := ZT_PEER_ROLE_LEAF | ZT_PEER_ROLE_MOON | ZT_PEER_ROLE_PLANET.

Section Topology.
Context `{Setup} `{PacketSource} `{PacketCrypto} `{Crypto} `{Agreement}.
(** [ZT_PEER_MAX_SERIALIZED_STATE_SIZE], which depends on the compiler *)
Context (peerStateSize : Z).

(** ** Upstreams *)

(** Once for every root of the worlds. *)
Definition memoize_root (r : World.Root) : net () :=
  let id := World.identity r in
  if eqb id myIdentity then update_topo (fun t => set_upstreams t (_upstreamAddresses t) true)
  else
    t ← nget topology;
    if bool_decide (address id ∈ _upstreamAddresses t) then mret ()
    else
      _ ← update_topo (fun t => set_upstreams t (_upstreamAddresses t ++ [address id]) (_amUpstream t));
      match _peers t !! address id with
      | Some _ => mret ()
      | None => x ← nlift (Peer.Peer_new myIdentity id); put_peer (address id) x
      end.
Definition world_roots (t : Topology) : list World.Root := World._roots (_planet t) ++ concat (World._roots <$> _moons t).
Definition _memoizeUpstreams : net () :=
  _ ← update_topo (fun t => set_upstreams t [] false);
  t ← nget topology;
  _ ← neach (world_roots t) memoize_root;
  update_topo (fun t => set_upstreams t (merge_sort Z.le (_upstreamAddresses t)) (_amUpstream t)).

Definition isUpstream (t : Topology) (id : Identity) : bool := bool_decide (address id ∈ _upstreamAddresses t).
Definition shouldAcceptWorldUpdateFrom (t : Topology) (addr : Z) : bool :=
  bool_decide (addr ∈ _upstreamAddresses t) || existsb (fun s => s.2 =? addr) (_moonSeeds t).
Definition role (t : Topology) (ztaddr : Z) : ZT_PeerRole :=
  if bool_decide (ztaddr ∈ _upstreamAddresses t) then
    if existsb (fun r => address (World.identity r) =? ztaddr) (World._roots (_planet t)) then ZT_PEER_ROLE_PLANET else ZT_PEER_ROLE_MOON
  else ZT_PEER_ROLE_LEAF.

(** The roots other than this node, with their endpoints, none of them twice. *)
Definition add_endpoints (ips eps : list InetAddress) : list InetAddress :=
  fold_left (fun l a => if existsb (fun x => InetAddress.eqb x a) l then l else l ++ [a]) eps ips.
Definition getRootsToContact (t : Topology) (eps : gmap Z (list InetAddress)) : gmap Z (list InetAddress) :=
  let eps := fold_left (fun m r => if eqb (World.identity r) myIdentity then m
                                   else let a := address (World.identity r) in <[a := add_endpoints (default [] (m !! a)) (World.stableEndpoints r)]> m) (world_roots t) eps in
  fold_left (fun m s => <[s.2 := default [] (m !! s.2)]> m) (_moonSeeds t) eps.

(** ** Worlds *)

(** Which of the seeds, from position [i] on, is for this moon and is one of its roots. *)
Fixpoint seed_of (w : World.World) (seeds : list (Z * Z)) (i : nat) : option nat :=
  match seeds with
  | [] => None
  | (id, a) :: seeds => if (id =? World._id w) && existsb (fun r => address (World.identity r) =? a) (World._roots w) then Some i else seed_of w seeds (S i)
  end.
Fixpoint moon_index (id : Z) (moons : list World.World) (i : nat) : option (nat * World.World) :=
  match moons with [] => None | m :: moons => if World._id m =? id then Some (i, m) else moon_index id moons (S i) end.

(** The topology with the world in its place, if it is accepted. *)
Definition place_world (t : Topology) (w : World.World) (alwaysAcceptNew : bool) : outcome (option Topology) :=
  match World._type w with
  | World.TYPE_NULL => Ok None
  | World.TYPE_PLANET => ok ← World.shouldBeReplacedBy (_planet t) w; Ok (if (ok : bool) then Some (set_worlds t w (_moons t) (_moonSeeds t)) else None)
  | World.TYPE_MOON =>
      match moon_index (World._id w) (_moons t) 0 with
      | Some (i, m) => ok ← World.shouldBeReplacedBy m w; Ok (if (ok : bool) then Some (set_worlds t (_planet t) (<[i := w]> (_moons t)) (_moonSeeds t)) else None)
      | None =>
          if alwaysAcceptNew then Ok (Some (set_worlds t (_planet t) (_moons t ++ [w]) (_moonSeeds t)))
          else match seed_of w (_moonSeeds t) 0 with
               | Some i => Ok (Some (set_worlds t (_planet t) (_moons t ++ [w]) (delete i (_moonSeeds t))))
               | None => Ok None
               end
      end
  end.
Definition store (o : StateObject) (d : option (list Z)) : net () := nput (fun s => set_stored s (stored s ++ [(o, d)])).
Definition world_object (w : World.World) : StateObject := if bool_decide (World._type w = World.TYPE_PLANET) then PlanetObject else MoonObject (World._id w).
Definition empty_buffer (n : Z) : Buffer := mkBuffer (replicate (Z.to_nat n) 0) 0.
Definition store_world (w : World.World) : net () :=
  ntry (b ← nlift (World.world_serialize (empty_buffer World.ZT_WORLD_MAX_SERIALIZED_LENGTH) w false); store (world_object w) (Some (data b))) (mret ()).
Definition addWorld (w : World.World) (alwaysAcceptNew : bool) : net bool :=
  t ← nget topology;
  r ← nlift (place_world t w alwaysAcceptNew);
  match r with
  | None => mret false
  | Some t' => _ ← update_topo (fun _ => t'); _ ← store_world w; _ ← _memoizeUpstreams; mret true
  end.

Definition filled (n : Z) (d : list Z) : outcome Buffer := copyFrom (empty_buffer n) d.
Definition addMoon (id seed : Z) : net () :=
  let plant := if Address.nonzero seed then update_topo (fun t => set_worlds t (_planet t) (_moons t) (if bool_decide ((id, seed) ∈ _moonSeeds t) then _moonSeeds t else _moonSeeds t ++ [(id, seed)])) else mret () in
  match stateObjectGet (MoonObject id) with
  | Some d =>
      if 0 <? zlen d then
        done ← ntry (b ← nlift (filled World.ZT_WORLD_MAX_SERIALIZED_LENGTH d);
                     '(w, _) ← nlift (World.world_deserialize b 0);
                     if bool_decide (World._type w = World.TYPE_MOON) && (World._id w =? id) then _ ← addWorld w true; mret true else mret false)
                    (mret false);
        if (done : bool) then mret () else plant
      else plant
  | None => plant
  end.
Definition removeMoon (id : Z) : net () :=
  t ← nget topology;
  _ ← neach (filter (fun m => World._id m = id) (_moons t)) (fun _ => store (MoonObject id) None);
  _ ← update_topo (fun t => set_worlds t (_planet t) (filter (fun m => World._id m <> id) (_moons t)) (filter (fun s => s.1 <> id) (_moonSeeds t)));
  _memoizeUpstreams.

(** ** Peers *)

(** In front: the version of the form. *)
Definition serializeForCache (st : list Path.Path) (b : Buffer) (x : Peer.Peer) : outcome Buffer :=
  b ← append_int 1 b 2;
  b ← identity_serialize b (Peer._id x) false;
  b ← append_int 2 b (Peer._vProto (Peer.version x));
  b ← append_int 2 b (Peer._vMajor (Peer.version x));
  b ← append_int 2 b (Peer._vMinor (Peer.version x));
  b ← append_int 2 b (Peer._vRevision (Peer.version x));
  let u := Peer.paths x in
  b ← append_int 2 b (zlen u);
  append_all (fun b r => q ← Peer.obj st r; inet_serialize b (Path._addr q)) b u.

(** The paths are not restored but tried. *)
Fixpoint try_paths (now : Z) (n : nat) (x : Peer.Peer) (b : Buffer) (p : Z) : net () :=
  match n with
  | O => mret ()
  | S n =>
      next ← ntry ('(a, k) ← nlift (inet_deserialize b p); _ ← nwhen (valid a) (attemptToContactAt now x (-1) a true); mret (Some (p + k))) (mret None);
      match next with Some p => try_paths now n x b p | None => mret () end
  end.
Definition read_cached (now : Z) (b : Buffer) : net (option Peer.Peer) :=
  v ← nlift (index b 0);
  if negb (v =? 2) then mret None
  else
    '(id, k) ← nlift (identity_deserialize b 1);
    let ptr := 1 + k in
    if negb (identity_bool id) then mret None
    else
      x ← nlift (Peer.Peer_new myIdentity id);
      vp ← nlift (at_ 2 b ptr); va ← nlift (at_ 2 b (ptr + 2)); vi ← nlift (at_ 2 b (ptr + 4)); vr ← nlift (at_ 2 b (ptr + 6));
      let x := Peer.set_version x (Peer.mkVersion vp va vi vr) in
      n ← nlift (at_ 2 b (ptr + 8));
      _ ← try_paths now (Z.to_nat n) x b (ptr + 10);
      mret (Some x).
Definition deserializeFromCache (now : Z) (b : Buffer) : net (option Peer.Peer) := ntry (read_cached now b) (mret None).

Definition known (t : Topology) (a : Z) : bool := bool_decide (is_Some (_peers t !! a)).
(** Whether the peer is known. One that is read from the host's memory is not reported the first time. *)
Definition getPeer (now : Z) (a : Z) : net bool :=
  if a =? self then mret false
  else
    k ← topo (fun t => known t a);
    if (k : bool) then mret true
    else
      match stateObjectGet (PeerObject a) with
      | Some d =>
          if 0 <? zlen d then
            ntry (b ← nlift (filled peerStateSize d);
                  x ← deserializeFromCache now b;
                  _ ← match x with Some x => put_peer a x | None => mret () end;
                  mret false)
                 (mret false)
          else mret false
      | None => mret false
      end.
(** The address under which the peer is filed that is known now. *)
Definition addPeer (x : Peer.Peer) : net Z :=
  let a := Peer.peer_address x in
  k ← topo (fun t => known t a);
  if (k : bool) then mret a else _ ← put_peer a x; mret a.
Definition getIdentity (t : Topology) (a : Z) : Identity :=
  if a =? self then myIdentity else match _peers t !! a with Some x => Peer._id x | None => Identity_nil end.

Fixpoint best_upstream (t : Topology) (now : Z) (l : list Z) (best : option Z) (bestq : Z) : outcome (option Z) :=
  match l with
  | [] => Ok best
  | a :: l =>
      match _peers t !! a with
      | None => best_upstream t now l best bestq
      | Some x => q ← Peer.relayQuality (objects t) now x; if q <=? bestq then best_upstream t now l (Some a) q else best_upstream t now l best bestq
      end
  end.
Definition getUpstreamPeer (t : Topology) (now : Z) : outcome (option Z) := best_upstream t now (_upstreamAddresses t) None 0xffffffff.

Definition _savePeer (a : Z) (x : Peer.Peer) : net () :=
  ntry (st ← topo objects; b ← nlift (serializeForCache st (empty_buffer peerStateSize) x); store (PeerObject (Peer.peer_address x)) (Some (data b))) (mret ()).
(** [held]: paths that something else than a peer refers to. *)
Definition in_use (t : Topology) (held : list nat) (r : nat) : bool :=
  bool_decide (r ∈ held) || existsb (fun ax => existsb (fun e => bool_decide (Peer.p e = Some r)) (Peer._paths ax.2)) (map_to_list (_peers t)).
Definition doPeriodicTasks (now : Z) (held : list nat) : net () :=
  t ← nget topology;
  _ ← neach (map_to_list (_peers t)) (fun ax =>
        if negb (Peer.isAlive ax.2 now) && negb (bool_decide (ax.1 ∈ _upstreamAddresses t)) then
          _ ← _savePeer ax.1 ax.2; update_topo (fun t => set_peers t (delete ax.1 (_peers t)))
        else mret ());
  update_topo (fun t => set_index t (filter (fun kr => in_use t held kr.2 = true) (_pathIndex t))).

(** The number of peers with a path that is not expired. *)
Definition countActive (t : Topology) (now : Z) : outcome Z :=
  foldr (fun ax m => c ← m; p ← Peer.getAppropriatePath (objects t) now ax.2 false; Ok (if bool_decide (p = None) then c else c + 1)) (Ok 0) (map_to_list (_peers t)).

(** ** Physical networks *)

Fixpoint path_config (l : list (InetAddress * (Z * Z))) (a : InetAddress) : outcome (option (Z * Z)) :=
  match l with [] => Ok None | (n, c) :: l => ok ← containsAddress n a; if (ok : bool) then Ok (Some c) else path_config l a end.
(** MTU and trusted path ID *)
Definition getOutboundPathInfo (t : Topology) (a : InetAddress) : outcome (option (Z * Z)) :=
  c ← path_config (_physicalPathConfig t) a; Ok (option_map (fun c : Z * Z => (c.2, c.1)) c).
Definition getOutboundPathMtu (t : Topology) (a : InetAddress) : outcome Z := c ← path_config (_physicalPathConfig t) a; Ok (match c with Some c => c.2 | None => ZT_DEFAULT_PHYSMTU end).
Definition getOutboundPathTrust (t : Topology) (a : InetAddress) : outcome Z := c ← path_config (_physicalPathConfig t) a; Ok (match c with Some c => c.1 | None => 0 end).
Fixpoint trusted_by (l : list (InetAddress * (Z * Z))) (a : InetAddress) (trustedPathId : Z) : outcome bool :=
  match l with
  | [] => Ok false
  | (n, c) :: l => ok ← (if c.1 =? trustedPathId then containsAddress n a else Ok false); if (ok : bool) then Ok true else trusted_by l a trustedPathId
  end.
Definition shouldInboundPathBeTrusted (t : Topology) (a : InetAddress) (trustedPathId : Z) : outcome bool := trusted_by (_physicalPathConfig t) a trustedPathId.

(** The [std::map] of networks: sorted, each once. *)
Fixpoint config_insert (n : InetAddress) (c : Z * Z) (l : list (InetAddress * (Z * Z))) : list (InetAddress * (Z * Z)) :=
  match l with
  | [] => [(n, c)]
  | (m, d) :: l => if InetAddress.ltb n m then (n, c) :: (m, d) :: l else if InetAddress.ltb m n then (m, d) :: config_insert n c l else (m, c) :: l
  end.
Definition limit_mtu (mtu : Z) : Z := if mtu <=? 0 then ZT_DEFAULT_PHYSMTU else if mtu <? ZT_MIN_PHYSMTU then ZT_MIN_PHYSMTU else Z.min mtu ZT_MAX_PHYSMTU.
(** No network: all are cleared; no configuration: that of the network is. *)
Definition setPhysicalPathConfiguration (t : Topology) (pathNetwork : option InetAddress) (pathConfig : option (Z * Z)) : Topology :=
  match pathNetwork with
  | None => set_physical t []
  | Some n =>
      let cpaths := fold_left (fun m nc => config_insert nc.1 nc.2 m) (_physicalPathConfig t) [] in
      let cpaths := match pathConfig with
                    | Some (tpid, mtu) => config_insert n (tpid, limit_mtu mtu) cpaths
                    | None => filter (fun nc => InetAddress.ltb n nc.1 = true \/ InetAddress.ltb nc.1 n = true) cpaths
                    end in
      set_physical t (take ZT_MAX_CONFIGURABLE_PATHS cpaths)
  end.

(** ** The start *)

(** Without peers and worlds; [host]: the state of the other parts. *)
Definition Topology_empty : Topology := mkTopology ∅ [] ∅ World.World_nil [] [] [] false [].
Definition Topology_new : net () :=
  _ ← match stateObjectGet PlanetObject with
      | Some d =>
          if 0 <? zlen d then
            ntry (b ← nlift (filled World.ZT_WORLD_MAX_SERIALIZED_LENGTH d); '(w, _) ← nlift (World.world_deserialize b 0); _ ← addWorld w false; mret ()) (mret ())
          else mret ()
      | None => mret ()
      end;
  b ← nlift (filled 570 ZT_DEFAULT_WORLD);
  '(w, _) ← nlift (World.world_deserialize b 0);
  _ ← addWorld w false;
  mret ().
End Topology.
