(* ===== verification/TopologyInv.v ===== *)
(** * Which worlds a node follows, and who is upstream (node/Topology.cpp)

    Whatever is received and whichever moons are joined and left: a world is only replaced by its successors, a moon is new only when it was asked for, and the
    upstreams are the roots of the worlds. *)

From stdpp Require Import sorting.
From S2P Require Import Prelude Buffer Serial Address InetAddress Identity Packet Table Credential Network NetworkConfig Runtime World Path Peer Net Topology.

Section Worlds.
Context `{Setup} `{PacketSource} `{PacketCrypto} `{Crypto} `{Agreement}.

(** ** Upstreams as a function of the roots *)

Definition foreign (r : World.Root) : Prop := eqb (World.identity r) myIdentity = false.
Definition root_address (r : World.Root) : Z := address (World.identity r).
Definition upstream_step (l : list Z) (r : World.Root) : list Z :=
  if eqb (World.identity r) myIdentity then l else if bool_decide (root_address r ∈ l) then l else l ++ [root_address r].
Definition upstreams (roots : list World.Root) : list Z := fold_left upstream_step roots [].
Definition is_root (roots : list World.Root) : bool := existsb (fun r => eqb (World.identity r) myIdentity) roots.

Lemma upstreams_from roots : forall l, NoDup l -> NoDup (fold_left upstream_step roots l) /\
  forall a, a ∈ fold_left upstream_step roots l <-> a ∈ l \/ exists r, r ∈ roots /\ foreign r /\ root_address r = a.
Proof.
  induction roots as [|r roots IH]; intros l Hl; cbn [fold_left]; [split; [done|]; intros a; split; [by left|]; intros [?|(r & Hr & _)]; [done|by apply elem_of_nil in Hr]|].
  destruct (IH (upstream_step l r)) as [Hn Hin].
  { unfold upstream_step. destruct (eqb _ _); [done|]. case_bool_decide; [done|]. apply list.NoDup_app. split; [done|]. split; [by intros x Hx ->%list_elem_of_singleton|apply NoDup_singleton]. }
  split; [done|]. intros a. rewrite Hin. unfold upstream_step, foreign. split.
  - intros [Ha|(r' & ? & ? & ?)]; [|right; exists r'; split; [by right|done]].
    destruct (eqb _ _) eqn:E; [by left|]. case_bool_decide; [by left|]. apply elem_of_app in Ha as [?| ->%list_elem_of_singleton]; [by left|]. right. exists r. split; [by left|done].
  - intros [Ha|(r' & Hr & Hf & <-)]; [left; destruct (eqb _ _); [done|]; case_bool_decide; [done|]; apply elem_of_app; by left|].
    apply elem_of_cons in Hr as [->|Hr]; [|right; by exists r']. left. rewrite Hf. case_bool_decide; [done|]. apply elem_of_app. right. by apply list_elem_of_singleton.
Qed.
Lemma upstreams_spec roots : NoDup (upstreams roots) /\ forall a, a ∈ upstreams roots <-> exists r, r ∈ roots /\ foreign r /\ root_address r = a.
Proof.
  destruct (upstreams_from roots [] ltac:(apply NoDup_nil_2)) as [Hn Hin]. split; [done|]. intros a. unfold upstreams. rewrite Hin. split; [|by right].
  intros [Ha|]; [by apply elem_of_nil in Ha|done].
Qed.

(** The upstreams are known peers, in order and each once, and are the roots of the planet and the moons. *)
Definition upstream_inv (t : Topology) : Prop :=
  _upstreamAddresses t = merge_sort Z.le (upstreams (world_roots t)) /\ _amUpstream t = is_root (world_roots t) /\
  forall a, a ∈ _upstreamAddresses t -> is_Some (_peers t !! a).

Lemma upstream_inv_spec t : upstream_inv t -> Sorted Z.le (_upstreamAddresses t) /\ NoDup (_upstreamAddresses t) /\
  forall a, a ∈ _upstreamAddresses t <-> exists r, r ∈ world_roots t /\ foreign r /\ root_address r = a.
Proof.
  intros (-> & _ & _). destruct (upstreams_spec (world_roots t)) as [Hn Hin]. pose proof (merge_sort_Permutation Z.le (upstreams (world_roots t))) as Hp.
  split; [apply Sorted_merge_sort; intros x y; lia|]. split; [by rewrite Hp|]. intros a. by rewrite Hp, Hin.
Qed.

(** ** [_memoizeUpstreams] *)

(** Nothing but the upstreams changes, and peers are added for roots. *)
Definition more_peers (roots : list World.Root) (t t' : Topology) : Prop :=
  forall a, _peers t' !! a = _peers t !! a \/ (_peers t !! a = None /\ exists r x, r ∈ roots /\ root_address r = a /\ Peer.Peer_new myIdentity (World.identity r) = Ok x /\ _peers t' !! a = Some x).
Definition only_upstreams (roots : list World.Root) (s s' : Net) : Prop :=
  exists ps l am, s' = set_topology s (set_upstreams (set_peers (topology s) ps) l am) /\ more_peers roots (topology s) (topology s').

Lemma peer_new id : hasPrivate myIdentity = true -> exists x, Peer.Peer_new myIdentity id = Ok x /\ Peer._id x = id.
Proof. intros Hk. unfold hasPrivate in Hk. unfold Peer.Peer_new, agree. destruct (_privateKey myIdentity); [|done]. cbn. by eexists. Qed.

Lemma only_upstreams_refl roots s : only_upstreams roots s s.
Proof. exists (_peers (topology s)), (_upstreamAddresses (topology s)), (_amUpstream (topology s)). split; [by destruct s as [[] ? ? ? ? ? ?]|]. intros a. by left. Qed.
Lemma only_upstreams_trans roots s1 s2 s3 : only_upstreams roots s1 s2 -> only_upstreams roots s2 s3 -> only_upstreams roots s1 s3.
Proof.
  intros (ps & l & am & -> & Hm) (ps' & l' & am' & -> & Hm'). exists ps', l', am'. split; [done|]. intros a. destruct (Hm a) as [E|(En & r & x & Hr & Ha & Hx & E)], (Hm' a) as [E'|(En' & Hx')].
  - left. by rewrite E'.
  - right. split; [by rewrite <- E|done].
  - right. split; [done|]. exists r, x. split; [done|]. split; [done|]. split; [done|]. by rewrite E'.
  - by rewrite En' in E.
Qed.

Lemma memoize_root_run roots r s : hasPrivate myIdentity = true -> r ∈ roots -> exists s', memoize_root r s = Done s' () /\ only_upstreams roots s s' /\
  _upstreamAddresses (topology s') = upstream_step (_upstreamAddresses (topology s)) r /\
  _amUpstream (topology s') = _amUpstream (topology s) || eqb (World.identity r) myIdentity /\
  ((forall a, a ∈ _upstreamAddresses (topology s) -> is_Some (_peers (topology s) !! a)) -> forall a, a ∈ _upstreamAddresses (topology s') -> is_Some (_peers (topology s') !! a)).
Proof.
  intros Hk Hr. unfold memoize_root, upstream_step. destruct (eqb _ _) eqn:E.
  - eexists. split; [done|]. split; [exists (_peers (topology s)), (_upstreamAddresses (topology s)), true; split; [by destruct s as [[] ? ? ? ? ? ?]|intros a; by left]|].
    split; [done|]. split; [cbn; by rewrite orb_true_r|done].
  - unfold mbind, net_bind, nget, mret, net_ret. fold (root_address r). rewrite orb_false_r. case_bool_decide as Ei; [eexists; split; [done|]; split; [apply only_upstreams_refl|]; by auto|].
    unfold update_topo, nput. destruct (_peers (topology s) !! root_address r) as [x|] eqn:Ep.
    + eexists. split; [done|]. split; [eexists (_peers (topology s)), _, _; split; [by destruct s as [[] ? ? ? ? ? ?]|intros a; by left]|]. split; [done|]. split; [done|].
      cbn. intros Hall a [Ha| ->%list_elem_of_singleton]%elem_of_app; [by apply Hall|by rewrite Ep].
    + destruct (peer_new (World.identity r) Hk) as (x & Ex & _). rewrite Ex. cbn [nlift]. unfold put_peer, update_topo, nput. eexists. split; [done|].
      split; [eexists _, _, _; split; [by destruct s as [[] ? ? ? ? ? ?]|]|].
      { intros a. cbn. destruct (decide (a = root_address r)) as [->|Hne]; [right; split; [done|]; exists r, x; rewrite lookup_insert_eq; done|left; by rewrite lookup_insert_ne by done]. }
      split; [done|]. split; [done|]. cbn. intros Hall a [Ha| ->%list_elem_of_singleton]%elem_of_app; [|by rewrite lookup_insert_eq].
      destruct (decide (a = root_address r)) as [->|]; [by rewrite lookup_insert_eq|rewrite lookup_insert_ne by done; by apply Hall].
Qed.

Lemma memoize_roots_run all roots : hasPrivate myIdentity = true -> (forall r, r ∈ roots -> r ∈ all) -> forall s, exists s', neach roots memoize_root s = Done s' () /\ only_upstreams all s s' /\
  _upstreamAddresses (topology s') = fold_left upstream_step roots (_upstreamAddresses (topology s)) /\
  _amUpstream (topology s') = _amUpstream (topology s) || is_root roots /\
  ((forall a, a ∈ _upstreamAddresses (topology s) -> is_Some (_peers (topology s) !! a)) -> forall a, a ∈ _upstreamAddresses (topology s') -> is_Some (_peers (topology s') !! a)).
Proof.
  intros Hk. induction roots as [|r roots IH]; intros Hin s; cbn [neach fold_left is_root existsb].
  - eexists. split; [done|]. split; [apply only_upstreams_refl|]. rewrite orb_false_r. done.
  - destruct (memoize_root_run all r s Hk) as (s1 & E1 & Ho & Eu & Ea & Hp); [apply Hin; by left|]. unfold mbind, net_bind. rewrite E1.
    destruct (IH ltac:(intros; apply Hin; by right) s1) as (s2 & E2 & Ho2 & Eu2 & Ea2 & Hp2). exists s2. split; [done|]. split; [by eapply only_upstreams_trans|].
    split; [by rewrite Eu2, Eu|]. split; [rewrite Ea2, Ea; by rewrite <- orb_assoc|auto].
Qed.

Lemma memoize_run s : hasPrivate myIdentity = true -> exists s', _memoizeUpstreams s = Done s' () /\ only_upstreams (world_roots (topology s)) s s' /\ upstream_inv (topology s').
Proof.
  intros Hk. unfold _memoizeUpstreams, mbind, net_bind, update_topo, nput, nget. set (s0 := set_topology s _).
  destruct (memoize_roots_run (world_roots (topology s0)) (world_roots (topology s0)) Hk ltac:(done) s0) as (s1 & -> & Ho & Eu & Ea & Hp).
  eexists. split; [done|]. destruct Ho as (ps & l & am & -> & Hm). split; [eexists _, _, _; split; [by destruct s as [[] ? ? ? ? ? ?]|exact Hm]|].
  cbn in Eu, Ea, Hp. split; [cbn; by rewrite Eu|]. split; [cbn; by rewrite Ea|]. cbn. intros a. rewrite (merge_sort_Permutation Z.le l). apply Hp. intros x Hx. by apply elem_of_nil in Hx.
Qed.

(** ** Operations on worlds *)

(** A world that an upstream or a seed has sent; joining and leaving a moon. *)
Inductive WorldOp := Learn (w : World.World) | Orbit (id seed : Z) | Deorbit (id : Z).
Definition run_op (o : WorldOp) : net () :=
  match o with Learn w => _ ← addWorld w false; mret () | Orbit id seed => addMoon id seed | Deorbit id => removeMoon id end.

Definition asked (ops : list WorldOp) (id : Z) : Prop := exists seed, Orbit id seed ∈ ops.
(** Where a moon is from: it was there, it was asked for, or its seed was there and is one of its roots. *)
Definition origin (ops : list WorldOp) (t : Topology) (w : World.World) : Prop :=
  w ∈ _moons t \/ asked ops (World._id w) \/ exists r, (World._id w, root_address r) ∈ _moonSeeds t /\ r ∈ World._roots w.
Record follows (ops : list WorldOp) (t t' : Topology) : Prop := {
  f_planet : descends (_planet t) (_planet t');
  f_moons m : m ∈ _moons t' -> exists w, descends w m /\ origin ops t w;
  f_seeds id a : (id, a) ∈ _moonSeeds t' -> (id, a) ∈ _moonSeeds t \/ asked ops id;
  f_ids : NoDup (World._id <$> _moons t) -> NoDup (World._id <$> _moons t');
  f_inv : upstream_inv t -> upstream_inv t';
  f_peers a x : _peers t !! a = Some x -> _peers t' !! a = Some x }.

Lemma follows_refl ops t : follows ops t t.
Proof. split; [apply descends_same| |by left|done|done|done]. intros m Hm. exists m. split; [apply descends_same|by left]. Qed.
Lemma follows_trans ops t1 t2 t3 : follows ops t1 t2 -> follows ops t2 t3 -> follows ops t1 t3.
Proof.
  intros H1' H2'. split.
  - eapply descends_trans; [apply H1'|apply H2'].
  - intros m Hm. destruct (f_moons _ _ _ H2' m Hm) as (w & Hd & [Hw|[Hw|(r & Hs & Hr)]]).
    + destruct (f_moons _ _ _ H1' w Hw) as (v & Hd' & Ho). exists v. split; [by eapply descends_trans|done].
    + exists w. split; [done|]. right. by left.
    + exists w. split; [done|]. right. destruct (f_seeds _ _ _ H1' _ _ Hs) as [Hs'|Ha]; [right; by exists r|by left].
  - intros id a Hs. destruct (f_seeds _ _ _ H2' _ _ Hs) as [Hs'|]; [by apply (f_seeds _ _ _ H1')|by right].
  - intros Hn. by apply (f_ids _ _ _ H2'), (f_ids _ _ _ H1').
  - intros Hn. by apply (f_inv _ _ _ H2'), (f_inv _ _ _ H1').
  - intros a x Hx. by apply (f_peers _ _ _ H2'), (f_peers _ _ _ H1').
Qed.
Lemma follows_more ops ops' t t' : (forall o, o ∈ ops -> o ∈ ops') -> follows ops t t' -> follows ops' t t'.
Proof.
  intros Hin Hf. assert (forall id, asked ops id -> asked ops' id) as Ha by (intros id [seed Hs]; exists seed; auto). split; [apply Hf| | |apply Hf|apply Hf|apply Hf].
  - intros m Hm. destruct (f_moons _ _ _ Hf m Hm) as (w & Hd & [Hw|[Hw|Hw]]); exists w; (split; [done|]); [by left|right; left; auto|by right; right].
  - intros id a Hs. destruct (f_seeds _ _ _ Hf _ _ Hs); [by left|right; auto].
Qed.

Lemma moon_index_spec id moons : forall i, match moon_index id moons i with
  | Some (j, m) => (i <= j)%nat /\ moons !! (j - i)%nat = Some m /\ World._id m = id
  | None => forall m, m ∈ moons -> World._id m <> id
  end.
Proof.
  induction moons as [|m moons IH]; intros i; cbn [moon_index]; [intros m Hm; by apply elem_of_nil in Hm|].
  destruct (Z.eqb_spec (World._id m) id) as [E|E]; [by rewrite Nat.sub_diag|]. specialize (IH (S i)). destruct (moon_index id moons (S i)) as [[j x]|].
  - destruct IH as (Hj & Hx & Hi). split; [lia|]. split; [|done]. by replace (j - i)%nat with (S (j - S i)) by lia.
  - intros x [->|Hx]%elem_of_cons; [done|by apply IH].
Qed.
Lemma seed_of_spec w seeds : forall i j, seed_of w seeds i = Some j -> exists r, (World._id w, root_address r) ∈ seeds /\ r ∈ World._roots w.
Proof.
  induction seeds as [|[id a] seeds IH]; intros i j; cbn [seed_of]; [done|]. destruct (_ && _) eqn:E.
  - intros _. apply andb_prop in E as [Ei Er]. apply Z.eqb_eq in Ei as ->. apply existsb_exists in Er as (r & Hr & Ea%Z.eqb_eq). exists r. split; [|by apply list_elem_of_In].
    subst a. apply list_elem_of_here.
  - intros Hj. destruct (IH _ _ Hj) as (r & Hr & ?). exists r. split; [by right|done].
Qed.

(** The worlds only, whatever the upstreams and peers are. *)
Definition worlds_follow (ops : list WorldOp) (t t' : Topology) : Prop :=
  descends (_planet t) (_planet t') /\ (forall m, m ∈ _moons t' -> exists w, descends w m /\ origin ops t w) /\
  (forall id a, (id, a) ∈ _moonSeeds t' -> (id, a) ∈ _moonSeeds t \/ asked ops id) /\ (NoDup (World._id <$> _moons t) -> NoDup (World._id <$> _moons t')) /\
  _peers t' = _peers t.

Lemma place_world_spec ops t w always : world_ok w -> (always = true -> asked ops (World._id w)) -> exists r, place_world t w always = Ok r /\
  match r with Some t' => worlds_follow ops t t' | None => True end.
Proof.
  intros Hw Halways. unfold place_world. destruct (World._type w); [by exists None| |].
  - rewrite shouldBeReplacedBy_spec by done. cbn [mbind outcome_bind]. eexists. split; [done|]. case_bool_decide as Hs; [|done]. split; [by eapply descends_next; [apply descends_same|]|].
    split; [|by split; [left|]]. intros m Hm. exists m. split; [apply descends_same|by left].
  - pose proof (moon_index_spec (World._id w) (_moons t) 0) as Hi. destruct (moon_index _ _ _) as [[i m]|].
    + destruct Hi as (_ & Hm & Hid). rewrite Nat.sub_0_r in Hm. rewrite shouldBeReplacedBy_spec by done. cbn [mbind outcome_bind]. eexists. split; [done|]. case_bool_decide as Hs; [|done].
      split; [apply descends_same|]. cbn. split; [|split; [by left|split; [|done]]].
      * intros x (k & Hk)%list_elem_of_lookup. destruct (decide (k = i)) as [->|Hne].
        -- rewrite list_lookup_insert_eq in Hk by (by eapply lookup_lt_Some). injection Hk as <-. exists m. split; [by eapply descends_next; [apply descends_same|]|].
           left. by eapply list_elem_of_lookup_2.
        -- rewrite list_lookup_insert_ne in Hk by done. exists x. split; [apply descends_same|]. left. by eapply list_elem_of_lookup_2.
      * intros Hn. rewrite list_fmap_insert, list_insert_id; [done|]. rewrite list_lookup_fmap, Hm. cbn. by rewrite Hid.
    + assert (forall seeds, (forall id a, (id, a) ∈ seeds -> (id, a) ∈ _moonSeeds t) -> origin ops t w -> worlds_follow ops t (set_worlds t (_planet t) (_moons t ++ [w]) seeds)) as Hnew.
      { intros seeds Hs Ho. split; [apply descends_same|]. cbn. split; [|split; [intros; left; auto|split; [|done]]].
        - intros m [Hm| ->%list_elem_of_singleton]%elem_of_app; [exists m|exists w]; (split; [apply descends_same|]); [by left|done].
        - intros Hn. rewrite fmap_app. apply list.NoDup_app. split; [done|]. split; [|apply NoDup_singleton]. intros x (m & -> & Hm)%list_elem_of_fmap Ex%list_elem_of_singleton.
          by apply (Hi m Hm). }
      destruct always.
      * eexists. split; [done|]. apply Hnew; [done|]. right. left. by apply Halways.
      * destruct (seed_of w (_moonSeeds t) 0) as [i|] eqn:Es; [|by exists None]. eexists. split; [done|]. apply Hnew.
        -- intros id a Hin. by eapply list_elem_of_delete_inv.
        -- right. right. by eapply seed_of_spec.
Qed.

(** The worlds were changed and the upstreams computed again. *)
Lemma follows_memoized ops s t' s1 s2 : worlds_follow ops (topology s) t' -> topology s1 = t' -> only_upstreams (world_roots t') s1 s2 -> upstream_inv (topology s2) -> follows ops (topology s) (topology s2).
Proof.
  intros (Hp & Hm & Hs & Hn & Ep) E1 (ps & l & am & -> & Hmore) Hinv. rewrite E1 in *. split; [done..| |done| ]; [done|]. intros a x Hx. destruct (Hmore a) as [E|[En _]]; rewrite Ep in *; [by rewrite E|by rewrite Hx in En].
Qed.

Lemma empty_buffer_ok n : 0 <= n < 2 ^ 31 -> buf_ok (empty_buffer n) /\ capacity (empty_buffer n) = n.
Proof.
  intros Hn. assert (capacity (empty_buffer n) = n) as Hc by (unfold capacity, empty_buffer, zlen; cbn; rewrite length_replicate; lia).
  split; [|done]. split; [rewrite Hc; cbn; lia|rewrite Hc; lia|by apply Forall_replicate].
Qed.
Lemma filled_returns n d : 0 <= n < 2 ^ 31 -> bytes_ok d -> returns (fun b => buf_ok b /\ data b = d) (filled n d).
Proof.
  intros Hn Hd. destruct (empty_buffer_ok n Hn) as [[_ _ Hm] Hc]. unfold filled, copyFrom. rewrite Hc. destruct (Z.ltb_spec n (zlen d)); [done|]. cbn [throw_if mbind outcome_bind].
  pose proof (zlen_nonneg d). destruct (mem_write_spec (_b (empty_buffer n)) 0 d) as (m & -> & Hok & Hl & Ht); [done|done|lia|unfold capacity in Hc; lia|]. cbn. unfold capacity in Hc.
  split; [split; [cbn; unfold capacity; cbn; lia|unfold capacity; cbn; lia|done]|]. unfold data. cbn. rewrite Z.add_0_l in Ht. by rewrite Ht.
Qed.

Lemma store_world_run w s : world_ok w -> exists l, store_world w s = Done (set_stored s l) ().
Proof.
  intros Hw. unfold store_world, ntry, mbind, net_bind, nlift, store, nput. pose proof (world_writes w false (empty_buffer World.ZT_WORLD_MAX_SERIALIZED_LENGTH) Hw) as Hwr.
  specialize (Hwr (proj1 (empty_buffer_ok World.ZT_WORLD_MAX_SERIALIZED_LENGTH ltac:(by_compute)))). unfold writes in Hwr. destruct (decide (_ <= _)); [destruct Hwr as (b & -> & _); by eexists|].
  rewrite Hwr. exists (stored s). by destruct s.
Qed.

Lemma addWorld_run ops w always s : hasPrivate myIdentity = true -> world_ok w -> (always = true -> asked ops (World._id w)) ->
  exists s' b, addWorld w always s = Done s' b /\ follows ops (topology s) (topology s').
Proof.
  intros Hk Hw Ha. unfold addWorld. unfold mbind at 1, net_bind at 1. unfold nget. destruct (place_world_spec ops (topology s) w always Hw Ha) as (r & Er & Hr). rewrite Er.
  unfold mbind at 1, net_bind at 1. cbn [nlift]. destruct r as [t'|]; [|exists s, false; split; [reflexivity|apply follows_refl]].
  unfold mbind at 1, net_bind at 1. unfold update_topo, nput. set (s1 := set_topology s t'). destruct (store_world_run w s1 Hw) as (l & Es). unfold mbind at 1, net_bind at 1. rewrite Es.
  destruct (memoize_run (set_stored s1 l) Hk) as (s2 & Em & Ho & Hinv). unfold mbind, net_bind. rewrite Em. exists s2, true. split; [done|]. by apply (follows_memoized ops s t' (set_stored s1 l) s2).
Qed.

Lemma removeMoon_run ops id s : hasPrivate myIdentity = true -> exists s', removeMoon id s = Done s' () /\ follows ops (topology s) (topology s').
Proof.
  intros Hk. unfold removeMoon. unfold mbind at 1, net_bind at 1. unfold nget. unfold mbind at 1, net_bind at 1.
  assert (forall (l : list World.World) s, exists k, neach l (fun _ => store (MoonObject id) None) s = Done (set_stored s k) ()) as Hstore.
  { induction l as [|m l IH]; intros s0; [exists (stored s0); by destruct s0|]. destruct (IH (set_stored s0 (stored s0 ++ [(MoonObject id, None)]))) as (k & E). exists k. exact E. }
  destruct (Hstore (filter (fun m => World._id m = id) (_moons (topology s))) s) as (k & ->). unfold mbind at 1, net_bind at 1. unfold update_topo, nput. cbn [topology set_stored].
  set (t' := set_worlds (topology s) _ _ _). destruct (memoize_run (set_topology (set_stored s k) t') Hk) as (s2 & Em & Ho & Hinv). exists s2. split; [exact Em|].
  apply (follows_memoized ops s t' (set_topology (set_stored s k) t') s2); [|done|exact Ho|exact Hinv]. split; [apply descends_same|]. cbn. split; [|split; [|split; [|done]]].
  - intros m [_ Hm]%list_elem_of_filter. exists m. split; [apply descends_same|by left].
  - intros i a [_ Hi]%list_elem_of_filter. by left.
  - intros Hn. eapply sublist_NoDup; [exact Hn|]. apply fmap_sublist, sublist_filter.
Qed.

(** What the host has stored of moons can be read, or is refused. *)
Definition stored_ok : Prop :=
  forall id d, stateObjectGet (MoonObject id) = Some d -> bytes_ok d /\ forall b, filled World.ZT_WORLD_MAX_SERIALIZED_LENGTH d = Ok b -> World.world_deserialize b 0 <> Undef.

Lemma plant_run ops id seed s : Orbit id seed ∈ ops -> follows ops (topology s)
  (set_worlds (topology s) (_planet (topology s)) (_moons (topology s)) (if bool_decide ((id, seed) ∈ _moonSeeds (topology s)) then _moonSeeds (topology s) else _moonSeeds (topology s) ++ [(id, seed)])).
Proof.
  intros Hin. split; [apply descends_same| | |done|done|done].
  - intros m Hm. exists m. split; [apply descends_same|by left].
  - intros i a. cbn. case_bool_decide; [by left|]. intros [Hi|Hi%list_elem_of_singleton]%elem_of_app; [by left|]. right. injection Hi as -> ->. by exists seed.
Qed.

Lemma addMoon_run ops id seed s : hasPrivate myIdentity = true -> stored_ok -> Orbit id seed ∈ ops -> exists s', addMoon id seed s = Done s' () /\ follows ops (topology s) (topology s').
Proof.
  intros Hk Hst Hin. unfold addMoon. set (plant := if Address.nonzero seed then _ else _).
  assert (forall s, exists s', plant s = Done s' () /\ follows ops (topology s) (topology s')) as Hplant.
  { intros s0. unfold plant. destruct (Address.nonzero seed); [|exists s0; split; [done|apply follows_refl]]. eexists. split; [done|]. by apply plant_run. }
  destruct (stateObjectGet (MoonObject id)) as [d|] eqn:Ed; [|apply Hplant]. destruct (0 <? zlen d); [|apply Hplant]. destruct (Hst id d Ed) as [Hd Hsafe].
  unfold mbind at 1, net_bind at 1. unfold ntry. unfold mbind at 1, net_bind at 1. pose proof (filled_returns World.ZT_WORLD_MAX_SERIALIZED_LENGTH d ltac:(by_compute) Hd) as Hf.
  destruct (filled World.ZT_WORLD_MAX_SERIALIZED_LENGTH d) as [b|e|] eqn:Eb; cbn [nlift]; [|apply Hplant|done]. destruct Hf as [Hb _]. specialize (Hsafe b eq_refl).
  unfold mbind at 1, net_bind at 1. destruct (World.world_deserialize b 0) as [[w n]|e|] eqn:Ew; cbn [nlift]; [|apply Hplant|done].
  pose proof (world_parse b 0 w n Hb ltac:(lia) Ew) as Hw. destruct (_ && _) eqn:Ec; [|apply Hplant].
  apply andb_prop in Ec as [_ Ei%Z.eqb_eq]. destruct (addWorld_run ops w true s Hk Hw) as (s' & r & Ea & Hfo); [intros _; exists seed; by rewrite Ei|].
  unfold mbind, net_bind. rewrite Ea. by exists s'.
Qed.

Lemma run_op_run ops o s : hasPrivate myIdentity = true -> stored_ok -> o ∈ ops -> match o with Learn w => world_ok w | _ => True end ->
  exists s', run_op o s = Done s' () /\ follows ops (topology s) (topology s').
Proof.
  intros Hk Hst Hin Ho. destruct o as [w|id seed|id]; cbn [run_op].
  - destruct (addWorld_run ops w false s Hk Ho ltac:(done)) as (s' & b & E & Hf). unfold mbind, net_bind. rewrite E. by exists s'.
  - by apply addMoon_run.
  - by apply removeMoon_run.
Qed.

(** C39. Worlds change by succession only. Whatever worlds are received ([Learn]: from an upstream or a seed, by OK(HELLO)), and whichever moons are joined and
    left, every operation returns, and: the planet has only been replaced by revisions of it, each newer and signed with the key that the one before it names
    (only a planet that was null can become any); every moon has become what it is in this way from one that was there, that was asked for, or that has as one of
    its roots the seed it was waited for from; no moon is there twice; no known peer is forgotten; and the upstreams remain the addresses of the roots of
    all worlds other than this node, in order, each once, and known as peers, and this node is upstream iff it is a root. *)
Theorem worlds_authentic ops s : hasPrivate myIdentity = true -> stored_ok -> (forall w, Learn w ∈ ops -> world_ok w) ->
  upstream_inv (topology s) -> NoDup (World._id <$> _moons (topology s)) ->
  exists s', neach ops run_op s = Done s' () /\ let t := topology s in let t' := topology s' in
    descends (_planet t) (_planet t') /\
    (forall m, m ∈ _moons t' -> exists w, descends w m /\ origin ops t w) /\ NoDup (World._id <$> _moons t') /\
    (forall a x, _peers t !! a = Some x -> _peers t' !! a = Some x) /\
    Sorted Z.le (_upstreamAddresses t') /\ NoDup (_upstreamAddresses t') /\
    (forall a, a ∈ _upstreamAddresses t' -> is_Some (_peers t' !! a)) /\
    (forall a, a ∈ _upstreamAddresses t' <-> exists r, r ∈ world_roots t' /\ foreign r /\ root_address r = a) /\
    (_amUpstream t' = true <-> exists r, r ∈ world_roots t' /\ ~ foreign r).
Proof.
  intros Hk Hst Hw Hinv Hids.
  assert (forall l s, (forall o, o ∈ l -> o ∈ ops) -> exists s', neach l run_op s = Done s' () /\ follows ops (topology s) (topology s')) as Hrun.
  { clear s Hinv Hids. induction l as [|o l IH]; intros s Hin; cbn [neach]; [exists s; split; [done|apply follows_refl]|].
    destruct (run_op_run ops o s Hk Hst) as (s1 & E1 & Hf1); [apply Hin; by left|destruct o; [apply Hw, Hin; by left|done|done]|].
    destruct (IH s1) as (s2 & E2 & Hf2); [intros; apply Hin; by right|]. unfold mbind, net_bind. rewrite E1. exists s2. split; [done|]. by eapply follows_trans. }
  destruct (Hrun ops s ltac:(done)) as (s' & E & Hf). exists s'. split; [done|]. pose proof (f_inv _ _ _ Hf Hinv) as Hi. destruct (upstream_inv_spec _ Hi) as (H1' & H2' & H3').
  split; [apply Hf|]. split; [apply Hf|]. split; [by apply Hf|]. split; [apply Hf|]. split; [done|]. split; [done|]. split; [apply Hi|]. split; [done|].
  destruct Hi as (_ & -> & _). unfold is_root, foreign. rewrite existsb_exists. setoid_rewrite <- list_elem_of_In. split; intros (r & Hr & Er); exists r; (split; [done|]).
  - by rewrite Er.
  - by destruct (eqb _ _).
Qed.
End Worlds.

(** A network that is configured only for its MTU has the trusted path ID 0, and packets that claim this ID are trusted. *)
Lemma mtu_only_trusted t n a mtu : _physicalPathConfig t = [] -> containsAddress n a = Ok true -> shouldInboundPathBeTrusted (setPhysicalPathConfiguration t (Some n) (Some (0, mtu))) a 0 = Ok true.
Proof. intros E Ha. unfold setPhysicalPathConfiguration, shouldInboundPathBeTrusted. rewrite E. cbn. by rewrite Ha. Qed.

(** ** Witnesses *)

Section Toy.
#[local] Existing Instance toy_crypto.
#[local] Instance toy_node : Setup := toy_setup toy_me.

(** The planet of the source is read; from it the node has its four upstreams. *)
Definition toy_start : Net := Net_new Topology_empty.
Definition after {A} (m : net A) (s : Net) : Net := match m s with Done s _ => s | _ => s end.

Example default_planet : _upstreamAddresses (topology (after Topology_new toy_start)) = [0x62f865ae71; 0x778cde7190; 0xcafe04eba9; 0xcafe9efeb9].
Proof. vm_compute. reflexivity. Qed.

(** A planet with one root, a revision of it with another root and another key, one that is signed with the old key, and a moon. *)
Definition toy_root (a : Z) : World.Root := World.mkRoot (mkIdentity a (toy_key 7) None) [IV4 0x08080808 9993].
Definition toy_planet : World.World := World.mkWorld 7 1 World.TYPE_PLANET (toy_key 1) (replicate 96 0) [toy_root 0x2222222222].
Definition signed (w : World.World) (k : Z) : World.World := with_signature w (ecc_sign (toy_key k) (toy_key k) (tbs_enc w)).
Definition toy_revision (ts signer next : Z) : World.World := signed (World.mkWorld 7 ts World.TYPE_PLANET (toy_key next) [] [toy_root 0x3333333333; toy_root 0x2222222222]) signer.
Definition toy_moon : World.World := signed (World.mkWorld 9 1 World.TYPE_MOON (toy_key 4) [] [toy_root 0x4444444444]) 4.
Definition toy_ops : list WorldOp := [Learn (toy_revision 2 1 3); Learn (toy_revision 3 1 3); Learn toy_moon; Orbit 9 0x4444444444; Learn toy_moon; Orbit 11 5; Deorbit 11].
Definition toy_worlds : Net := after _memoizeUpstreams (Net_new (set_worlds Topology_empty toy_planet [] [])).

Example toy_followed : let t := topology (after (neach toy_ops run_op) toy_worlds) in
  _planet t = toy_revision 2 1 3 /\ _moons t = [toy_moon] /\ _moonSeeds t = [] /\ _upstreamAddresses t = [0x2222222222; 0x3333333333; 0x4444444444].
Proof. vm_compute. auto. Qed.

Lemma toy_world_ok w : World._roots w = [toy_root 0x3333333333; toy_root 0x2222222222] \/ World._roots w = [toy_root 0x4444444444] ->
  rng 64 (World._id w) /\ rng 64 (World._ts w) /\ Identity.key_ok 64 (World._updatesMustBeSignedBy w) /\ Identity.key_ok 96 (World._signature w) -> world_ok w.
Proof.
  assert (forall a, Address.ok a -> root_ok (toy_root a)) as Hr.
  { intros a Ha. split; [split; [exact Ha|]; split; [split; by_compute|exact I]|]. split; [by_compute|]. apply list.Forall_singleton. split; [by_compute|exact I]. }
  intros Hroots (? & ? & ? & ?). split; [done|]. split; [done|]. split; [done|]. split; [done|].
  destruct Hroots as [-> | ->]; (split; [by_compute|]); repeat (apply list.Forall_cons_2 || apply list.Forall_nil_2); apply Hr; by_compute.
Qed.

Lemma worlds_authentic_witness : exists s', neach toy_ops run_op toy_worlds = Done s' () /\ descends toy_planet (_planet (topology s')) /\ Sorted Z.le (_upstreamAddresses (topology s')).
Proof.
  destruct (worlds_authentic toy_ops toy_worlds) as (s' & E & Hd & _ & _ & _ & Hs & _).
  - reflexivity.
  - intros id d E. discriminate E.
  - intros w Hw. unfold toy_ops in Hw. repeat (apply elem_of_cons in Hw as [Hw|Hw]; [first [discriminate Hw|injection Hw as ->; apply toy_world_ok; [first [by left|by right]|split_and!; split; by_compute]]|]).
    by apply elem_of_nil in Hw.
  - split; [vm_compute; reflexivity|]. split; [vm_compute; reflexivity|]. intros a Ha. change (_upstreamAddresses (topology toy_worlds)) with [0x2222222222] in Ha. apply list_elem_of_singleton in Ha as ->. vm_compute. by eexists.
  - apply NoDup_nil_2.
  - exists s'. split; [exact E|]. split; [exact Hd|exact Hs].
Defined.
End Toy.
