(* ===== verification/PeerTable.v ===== *)
(** * The table of paths of a peer (node/Peer.cpp)

    Every loop over the 64 entries stops at the first free one. The invariant that makes this right, that every operation keeps it, and which path is chosen. *)

From S2P Require Import Prelude Buffer Serial Address InetAddress Identity Packet Path Peer.

(** Entries in use are in front, no path is there twice, every reference is to one of [n] objects, and the priorities are positive. *)
Record table_ok (n : nat) (l : list Peer.PeerPath) : Prop := {
  tk_len : length l = ZT_MAX_PEER_NETWORK_PATHS;
  tk_front i j e f : l !! i = Some e -> l !! j = Some f -> (i <= j)%nat -> Peer.p e = None -> Peer.p f = None;
  tk_once i j e f r : l !! i = Some e -> l !! j = Some f -> Peer.p e = Some r -> Peer.p f = Some r -> i = j;
  tk_objs i e r : l !! i = Some e -> Peer.p e = Some r -> (r < n)%nat;
  tk_prio i e : l !! i = Some e -> 1 <= Peer.priority e }.

Lemma table_more n m l : (n <= m)%nat -> table_ok n l -> table_ok m l.
Proof. intros Hm [? ? ? Ho ?]. split; [done..| |done]. intros i e r Hi Hp. specialize (Ho i e r Hi Hp). lia. Qed.

Lemma table_new n : table_ok n (replicate ZT_MAX_PEER_NETWORK_PATHS Peer.PeerPath_new).
Proof.
  split; [by rewrite length_replicate|..].
  - intros i j e f _ Hj _ _. apply lookup_replicate in Hj as [-> _]. done.
  - intros i j e f r Hi _ Hp _. by apply lookup_replicate in Hi as [-> _].
  - intros i e r Hi Hp. by apply lookup_replicate in Hi as [-> _].
  - intros i e Hi. apply lookup_replicate in Hi as [-> _]. done.
Qed.

(** Entry [i] is set to a path that is in no other entry, or is freed. *)
Lemma table_set n l i e : table_ok n l -> (i < length l)%nat -> 1 <= Peer.priority e ->
  match Peer.p e with
  | Some r => (r < n)%nat /\ (forall j f, l !! j = Some f -> Peer.p f = Some r -> j = i) /\ (forall j f, (j < i)%nat -> l !! j = Some f -> Peer.p f <> None)
  | None => forall j f, (i < j)%nat -> l !! j = Some f -> Peer.p f = None
  end -> table_ok n (<[i := e]> l).
Proof.
  intros [Hl Hf Ho Hb Hp] Hi Hpe He. split.
  - by rewrite length_insert.
  - intros j k f g Hj Hk Hjk Hn. destruct (decide (i = j)) as [->|Hij]; [rewrite list_lookup_insert_eq in Hj by done; injection Hj as <-|rewrite list_lookup_insert_ne in Hj by done].
    + rewrite Hn in He. destruct (decide (j = k)) as [->|Hne]; [rewrite list_lookup_insert_eq in Hk by done; by injection Hk as <-|]. rewrite list_lookup_insert_ne in Hk by done. apply (He k g); [lia|done].
    + destruct (decide (i = k)) as [->|Hik]; [|rewrite list_lookup_insert_ne in Hk by done; by apply (Hf j k f g)].
      rewrite list_lookup_insert_eq in Hk by done. injection Hk as <-. destruct (Peer.p e) as [r|]; [|done]. destruct He as (_ & _ & He). exfalso. apply (He j f); [lia|done|done].
  - intros j k f g r Hj Hk Hfr Hgr. destruct (decide (i = j)) as [->|Hij]; [rewrite list_lookup_insert_eq in Hj by done; injection Hj as <-|rewrite list_lookup_insert_ne in Hj by done].
    + rewrite Hfr in He. destruct He as (_ & He & _). destruct (decide (j = k)) as [->|Hne]; [done|]. rewrite list_lookup_insert_ne in Hk by done. symmetry. by apply (He k g).
    + destruct (decide (i = k)) as [->|Hik]; [|rewrite list_lookup_insert_ne in Hk by done; by apply (Ho j k f g r)].
      rewrite list_lookup_insert_eq in Hk by done. injection Hk as <-. rewrite Hgr in He. destruct He as (_ & He & _). by apply (He j f).
  - intros j f r Hj Hr. destruct (decide (i = j)) as [->|Hij]; [rewrite list_lookup_insert_eq in Hj by done; injection Hj as <-; rewrite Hr in He; apply He|].
    rewrite list_lookup_insert_ne in Hj by done. by apply (Hb j f).
  - intros j f Hj. destruct (decide (i = j)) as [->|Hij]; [rewrite list_lookup_insert_eq in Hj by done; by injection Hj as <-|]. rewrite list_lookup_insert_ne in Hj by done. by apply (Hp j f).
Qed.

(** Only the time of an entry changes. *)
Lemma table_retimed n l i t : table_ok n l -> table_ok n (alter (fun e => Peer.mkPeerPath t (Peer.p e) (Peer.priority e)) i l).
Proof.
  intros [Hl Hf Ho Hb Hp]. set (f := fun e => Peer.mkPeerPath t (Peer.p e) (Peer.priority e)).
  assert (forall j e, alter f i l !! j = Some e -> exists e0, l !! j = Some e0 /\ Peer.p e = Peer.p e0 /\ Peer.priority e = Peer.priority e0) as Hlook.
  { intros j e Hj. destruct (decide (i = j)) as [->|]; [rewrite list_lookup_alter_eq in Hj|rewrite list_lookup_alter_ne in Hj by done; by exists e].
    destruct (l !! j) as [e0|]; [|done]. injection Hj as <-. by exists e0. }
  split.
  - by rewrite length_alter.
  - intros j k e g (e0 & Hj & Ep & _)%Hlook (g0 & Hk & Eg & _)%Hlook Hjk Hn. rewrite Eg. apply (Hf j k e0 g0); [done..|congruence].
  - intros j k e g r (e0 & Hj & Ep & _)%Hlook (g0 & Hk & Eg & _)%Hlook Her Hgr. apply (Ho j k e0 g0 r); congruence.
  - intros j e r (e0 & Hj & Ep & _)%Hlook Hr. apply (Hb j e0); congruence.
  - intros j e (e0 & Hj & _ & Epr)%Hlook. rewrite Epr. by apply (Hp j).
Qed.

Section Table.
Context (st : list Path.Path) (now : Z).
Abbreviation n := (length st).

(** ** Learning a path *)

Lemma obj_ok r : (r < n)%nat -> exists q, Peer.obj st r = Ok q.
Proof. intros Hr. unfold Peer.obj. destruct (lookup_lt_is_Some_2 st r Hr) as [q ->]. by eexists. Qed.

(** [have_path] always returns; when the path is to be learned it is in none of the entries. *)
Lemma have_path_spec path l : forall k, table_ok n (k ++ l) -> (path < n)%nat -> exists i b, Peer.have_path st now path l (length k) = Ok (i, b) /\
  match i with Some i => exists e, (k ++ l) !! i = Some e /\ Peer.p e = Some path /\ b = true | None => True end /\
  (b = false -> forall j e, l !! j = Some e -> Peer.p e <> Some path).
Proof.
  induction l as [|e l IH]; intros k Hok Hp; cbn [Peer.have_path]; [by eexists None, false|].
  assert ((k ++ e :: l) !! length k = Some e) as He by (by rewrite lookup_app_r, Nat.sub_diag by lia).
  destruct (Peer.p e) as [q|] eqn:Eq.
  - destruct (Nat.eqb_spec q path) as [->|Hne].
    + exists (Some (length k)), true. split; [done|]. split; [by exists e|done].
    + destruct (obj_ok q (tk_objs _ _ Hok _ _ _ He Eq)) as [a ->]. destruct (obj_ok path Hp) as [b ->]. cbn [mbind outcome_bind]. destruct (_ && _); [by exists None, true|].
      specialize (IH (k ++ [e])). rewrite <- app_assoc in IH. destruct (IH Hok Hp) as (i & c & E & Hi & Hc). rewrite length_app in E. cbn [length] in E. rewrite Nat.add_1_r in E.
      exists i, c. split; [done|]. split; [done|]. intros Hcf [|j] f Hf; [injection Hf as <-; congruence|by apply (Hc Hcf j f)].
  - exists None, false. split; [done|]. split; [done|]. intros _ [|j] f Hf; [injection Hf as <-; congruence|].
    rewrite (tk_front _ _ Hok (length k) (length k + S j) e f); [done|done| |lia|done]. rewrite lookup_app_r by lia. by replace (length k + S j - length k)%nat with (S j) by lia.
Qed.

Lemma learn_slot_spec path l : forall k oldest age, table_ok n (k ++ l) -> (path < n)%nat -> (forall j, (j < length k)%nat -> forall f, k !! j = Some f -> Peer.p f <> None) ->
  match oldest with Some o => (o < length k)%nat | None => True end ->
  exists r, Peer.learn_slot st now path l (length k) oldest age = Ok r /\
  match r with Some i => (i < length (k ++ l))%nat /\ (forall j f, (j < i)%nat -> (k ++ l) !! j = Some f -> Peer.p f <> None) | None => True end.
Proof.
  induction l as [|e l IH]; intros k oldest age Hok Hp Hk Ho; cbn [Peer.learn_slot].
  - exists oldest. split; [done|]. destruct oldest as [o|]; [|done]. rewrite app_nil_r. split; [done|]. intros j f Hj Hf. apply (Hk j); [lia|done].
  - assert ((k ++ e :: l) !! length k = Some e) as He by (by rewrite lookup_app_r, Nat.sub_diag by lia).
    assert (forall j f, (j < length k)%nat -> (k ++ e :: l) !! j = Some f -> Peer.p f <> None) as Hbefore by (intros j f Hj Hf; rewrite lookup_app_l in Hf by done; by apply (Hk j)).
    destruct (Peer.p e) as [q|] eqn:Eq; [|exists (Some (length k)); split; [done|]; split; [rewrite length_app; cbn; lia|done]].
    destruct (obj_ok q (tk_objs _ _ Hok _ _ _ He Eq)) as [a ->]. destruct (obj_ok path Hp) as [b ->]. cbn [mbind outcome_bind]. cbv zeta.
    destruct (if age <? u32 (Path.age a now) then (Some (length k), u32 (Path.age a now)) else (oldest, age)) as [o' age'] eqn:Eo.
    destruct (_ && _); [exists (Some (length k)); split; [done|]; split; [rewrite length_app; cbn; lia|done]|].
    specialize (IH (k ++ [e]) o' age'). rewrite <- app_assoc, length_app in IH. cbn [length app] in IH. rewrite Nat.add_1_r in IH. apply IH; [done|done| |].
    + intros j Hj f Hf. destruct (decide (j < length k)%nat); [rewrite lookup_app_l in Hf by done; by apply (Hk j)|].
      rewrite lookup_app_r in Hf by lia. replace (j - length k)%nat with 0%nat in Hf by lia. injection Hf as <-. congruence.
    + destruct (age <? _); injection Eo as <- _; [lia|]. destruct oldest; [lia|done].
Qed.

Lemma learn_ok path l : table_ok n l -> (path < n)%nat -> (forall j e, l !! j = Some e -> Peer.p e <> Some path) -> exists l', Peer.learn st now path l = Ok l' /\ table_ok n l'.
Proof.
  intros Hok Hp Hno. unfold Peer.learn. destruct (learn_slot_spec path l [] None 0 Hok Hp) as (r & Er & Hr); [intros j Hj; cbn in Hj; lia|done|]. cbn [length app] in Er, Hr. rewrite Er. cbn [mbind outcome_bind].
  eexists. split; [done|]. destruct r as [i|]; [|done]. destruct Hr as [Hi Hb]. apply table_set; [done|done|done|]. cbn. split; [done|]. split; [|done].
  intros j f Hj Hf. by destruct (Hno j f Hj).
Qed.

Lemma find_ok path l : table_ok n l -> (path < n)%nat -> exists i b, Peer.have_path st now path l 0 = Ok (i, b) /\
  match i with Some i => exists e, l !! i = Some e /\ Peer.p e = Some path /\ b = true | None => True end /\ (b = false -> forall j e, l !! j = Some e -> Peer.p e <> Some path).
Proof. apply (have_path_spec path l []). Qed.

End Table.

(** ** Cleaning: what holds before entry [i] is looked at *)

Section Cleaning.
Context (n : nat) (now : Z).

Record cleaned (i : nat) (l : list Peer.PeerPath) : Prop := {
  cl_len : length l = ZT_MAX_PEER_NETWORK_PATHS;
  cl_front k j e f : (k < i)%nat -> l !! k = Some e -> l !! j = Some f -> (k <= j)%nat -> Peer.p e = None -> Peer.p f = None;
  cl_once j k e f r : l !! j = Some e -> l !! k = Some f -> Peer.p e = Some r -> Peer.p f = Some r -> j = k;
  cl_objs j e r : l !! j = Some e -> Peer.p e = Some r -> (r < n)%nat;
  cl_prio j e : l !! j = Some e -> 1 <= Peer.priority e }.

Lemma table_cleaned l : table_ok n l <-> cleaned ZT_MAX_PEER_NETWORK_PATHS l.
Proof.
  split; intros [Hl Hf Ho Hb Hp]; split; try done; [intros k j e f _; apply Hf|].
  intros i j e f Hi. apply (Hf i j e f); [|done]. rewrite <- Hl. by eapply lookup_lt_Some.
Qed.
Lemma table_cleaned_0 l : table_ok n l -> cleaned 0 l.
Proof. intros [? ? ? ? ?]. split; [done| |done..]. intros k j e f Hk. lia. Qed.

Lemma zip_seq_lookup {A} (l : list A) k j x : zip (seq k (length l)) l !! j = Some x <-> exists e, l !! j = Some e /\ x = ((k + j)%nat, e).
Proof.
  rewrite lookup_zip_with_Some. split.
  - intros (a & e & -> & Ha & He). exists e. split; [done|]. apply lookup_seq in Ha as [-> _]. done.
  - intros (e & He & ->). exists (k + j)%nat, e. split; [done|]. split; [|done]. apply lookup_seq. split; [done|by eapply lookup_lt_Some].
Qed.
Lemma next_used_spec l i : match Peer.next_used l i with
  | Some (j, e) => (i < j)%nat /\ l !! j = Some e /\ Peer.p e <> None
  | None => forall j f, (i < j)%nat -> l !! j = Some f -> Peer.p f = None
  end.
Proof.
  unfold Peer.next_used. set (P := fun je : nat * Peer.PeerPath => _). destruct (filter P (zip (seq 0 (length l)) l)) as [|[j e] k] eqn:E; cbn.
  - intros j f Hj Hf. destruct (Peer.p f) eqn:Ep; [|done]. exfalso. assert ((j, f) ∈ filter P (zip (seq 0 (length l)) l)) as Hin; [|rewrite E in Hin; by apply elem_of_nil in Hin].
    apply list_elem_of_filter. split; [split; [done|cbn; by rewrite Ep]|]. apply list_elem_of_lookup. exists j. apply zip_seq_lookup. by exists f.
  - assert ((j, e) ∈ filter P (zip (seq 0 (length l)) l)) as Hin by (rewrite E; by left). apply list_elem_of_filter in Hin as [[Hij Hp] (k' & Hk)%list_elem_of_lookup].
    apply zip_seq_lookup in Hk as (e' & He & Ex). cbn in Ex. by injection Ex as -> ->.
Qed.

(** Entry [i] is free and the next one moves into it. *)
Lemma cleaned_move_up i l e : cleaned i l -> l !! i = Some e -> Peer.p e = None -> cleaned (S i) (Peer.move_up l i).
Proof.
  intros [Hl Hf Ho Hb Hp] Hi Hn. unfold Peer.move_up. pose proof (next_used_spec l i) as Hnu. destruct (Peer.next_used l i) as [[j g]|].
  - destruct Hnu as (Hij & Hj & Hg). pose proof (lookup_lt_Some _ _ _ Hi) as Hil. pose proof (lookup_lt_Some _ _ _ Hj) as Hjl.
    set (l' := <[j := Peer.PeerPath_new]> (<[i := g]> l)).
    assert (forall k f, l' !! k = Some f -> (k = j /\ f = Peer.PeerPath_new) \/ (k = i /\ f = g) \/ (k <> i /\ k <> j /\ l !! k = Some f)) as Hlook.
    { intros k f. unfold l'. destruct (decide (j = k)) as [->|Hjk]; [rewrite list_lookup_insert_eq by (by rewrite length_insert); intros [= <-]; by left|]. rewrite list_lookup_insert_ne by done.
      destruct (decide (i = k)) as [->|Hik]; [rewrite list_lookup_insert_eq by done; intros [= <-]; right; by left|]. rewrite list_lookup_insert_ne by done. intros Hk. right. right. done. }
    assert (forall k f r, l' !! k = Some f -> Peer.p f = Some r -> exists k', l !! k' = Some f /\ (k' = k \/ (k' = j /\ k = i))) as Hfrom.
    { intros k f r Hk Hfr. destruct (Hlook k f Hk) as [[-> ->]|[[-> ->]|(? & ? & ?)]]; [done|exists j; by auto|exists k; by auto]. }
    split.
    + unfold l'. by rewrite !length_insert.
    + intros k m a b Hk Ha Hb' Hkm Han. destruct (Hlook k a Ha) as [[-> _]|[[-> ->]|(Hki & Hkj & Ha')]]; [lia|done|]. assert (k < i)%nat as Hlt by lia.
      exfalso. apply Hg. apply (Hf k j a g); [done|done|done|lia|done].
    + intros k m a b r Hk Hm Ha Hb'. destruct (Hfrom k a r Hk Ha) as (k' & Hk' & Ek), (Hfrom m b r Hm Hb') as (m' & Hm' & Em). assert (k' = m') as E by (by apply (Ho k' m' a b r)).
      destruct (Hlook k a Hk) as [[-> ->]|[[-> ->]|(? & ? & ?)]]; [done| |]; (destruct (Hlook m b Hm) as [[-> ->]|[[-> ->]|(? & ? & ?)]]; [done| |]); lia.
    + intros k a r Hk Ha. destruct (Hfrom k a r Hk Ha) as (k' & Hk' & _). by apply (Hb k' a).
    + intros k a Hk. destruct (Hlook k a Hk) as [[-> ->]|[[-> ->]|(? & ? & ?)]]; [done|by apply (Hp j)|by apply (Hp k)].
  - split; [done| |done..]. intros k j a f Hk Ha Hj Hkj Han. destruct (decide (k = i)) as [->|]; [|by apply (Hf k j a f); [lia|..]].
    destruct (decide (j = i)) as [->|]; [congruence|]. apply (Hnu j f); [lia|done].
Qed.

Lemma cleaned_entry i l m : (i < ZT_MAX_PEER_NETWORK_PATHS)%nat -> cleaned i l -> cleaned (S i) (Peer.clean_entry now m l i).
Proof.
  intros Hi Hc. unfold Peer.clean_entry. destruct (lookup_lt_is_Some_2 l i) as [e He]; [rewrite (cl_len _ _ Hc); done|]. rewrite He.
  destruct (Peer.p e) as [r|] eqn:Er; [|by apply (cleaned_move_up i l e)]. destruct (Peer.keep_path _ _ _).
  - destruct Hc as [Hl Hf Ho Hb Hp]. split; [done| |done..]. intros k j a f Hk Ha Hj Hkj Han. apply (Hf k j a f); [|done..]. destruct (decide (k = i)) as [->|]; [congruence|lia].
  - apply (cleaned_move_up i _ Peer.PeerPath_new); [|apply list_lookup_insert_eq; rewrite (cl_len _ _ Hc); done|done]. destruct Hc as [Hl Hf Ho Hb Hp].
    assert (forall k f, <[i := Peer.PeerPath_new]> l !! k = Some f -> (k = i /\ f = Peer.PeerPath_new) \/ (k <> i /\ l !! k = Some f)) as Hlook.
    { intros k f. destruct (decide (i = k)) as [->|]; [rewrite list_lookup_insert_eq by (by eapply lookup_lt_Some); intros [= <-]; by left|]. rewrite list_lookup_insert_ne by done. by right. }
    split; [by rewrite length_insert|..].
    + intros k j a f Hk Ha Hj Hkj Han. destruct (Hlook k a Ha) as [[-> _]|[_ Ha']]; [lia|]. destruct (Hlook j f Hj) as [[-> ->]|[_ Hj']]; [done|]. by apply (Hf k j a f).
    + intros k j a f x Ha Hf' Hax Hfx. destruct (Hlook k a Ha) as [[-> ->]|[_ Ha']]; [done|]. destruct (Hlook j f Hf') as [[-> ->]|[_ Hj']]; [done|]. by apply (Ho k j a f x).
    + intros k a x Ha Hax. destruct (Hlook k a Ha) as [[-> ->]|[_ Ha']]; [done|]. by apply (Hb k a).
    + intros k a Ha. destruct (Hlook k a Ha) as [[-> ->]|[_ Ha']]; [done|]. by apply (Hp k).
Qed.

End Cleaning.
Lemma cleaned_grow n m i l : (n <= m)%nat -> cleaned n i l -> cleaned m i l.
Proof. intros Hm [Hl Hf Ho Hb Hp]. split; try done. intros j e r Hj Hr. specialize (Hb j e r Hj Hr). lia. Qed.

Section Paths.
Context (st : list Path.Path) (now : Z).
Abbreviation n := (length st).

(** ** Redirection *)

Lemma redirect_kept_spec remote np l : (forall i e r, l !! i = Some e -> Peer.p e = Some r -> (r < n)%nat) -> exists k, Peer.redirect_kept st remote np l = Ok k /\ k `sublist_of` l /\
  forall e, e ∈ k -> exists r a, Peer.p e = Some r /\ st !! r = Some a /\ ipsEqual2 (Path._addr a) remote = false.
Proof.
  induction l as [|e l IH]; intros Hb; cbn [Peer.redirect_kept]; [exists []; split; [done|]; split; [done|]; intros e He; by apply elem_of_nil in He|].
  destruct IH as (k & Ek & Hs & Hk); [intros i f r Hi; apply (Hb (S i)); done|].
  destruct (Peer.p e) as [r|] eqn:Er; [|exists k; split; [done|]; split; [by apply sublist_cons|done]].
  pose proof (Hb 0%nat e r eq_refl Er) as Hr. unfold Peer.obj. destruct (lookup_lt_is_Some_2 st r Hr) as [a Ea]. rewrite Ea. cbn [mbind outcome_bind]. rewrite Ek. cbn [mbind outcome_bind].
  eexists. split; [done|]. destruct (_ && _) eqn:Ec; [|split; [by apply sublist_cons|done]]. split; [by apply sublist_skip|].
  intros f [->|Hf]%elem_of_cons; [|by apply Hk]. exists r, a. apply andb_prop in Ec as [_ Ec%negb_true_iff]. done.
Qed.

Lemma once_nodup l : (forall i j e f r, l !! i = Some e -> l !! j = Some f -> Peer.p e = Some r -> Peer.p f = Some r -> i = j) <-> NoDup (omap Peer.p l).
Proof.
  induction l as [|e l IH]; [split; [intros _; apply NoDup_nil_2|done]|]. split.
  - intros Ho. assert (NoDup (omap Peer.p l)) as Hn by (apply IH; intros i j a b r Hi Hj Ha Hb; specialize (Ho (S i) (S j) a b r Hi Hj Ha Hb); lia).
    cbn. destruct (Peer.p e) as [r|] eqn:Er; [|done]. apply list.NoDup_cons. split; [|done]. intros (f & Hf & Ef)%list_elem_of_omap. apply list_elem_of_lookup in Hf as [j Hj].
    by specialize (Ho 0%nat (S j) e f r eq_refl Hj Er Ef).
  - intros Hn. cbn in Hn. assert (NoDup (omap Peer.p l)) as Hl by (destruct (Peer.p e); [by apply list.NoDup_cons in Hn as [_ ?]|done]).
    assert (forall j f r, Peer.p e = Some r -> l !! j = Some f -> Peer.p f = Some r -> False) as Hfirst.
    { intros j f r Er Hj Ef. rewrite Er in Hn. apply list.NoDup_cons in Hn as [Hin _]. apply Hin. apply list_elem_of_omap. exists f. split; [by eapply list_elem_of_lookup_2|done]. }
    intros [|i] [|j] a b r Hi Hj Ha Hb; cbn in Hi, Hj; [done| | |].
    + injection Hi as <-. by destruct (Hfirst j b r).
    + injection Hj as <-. by destruct (Hfirst i a r).
    + f_equal. by apply (proj2 IH Hl i j a b r).
Qed.
Lemma sublist_full {A} (k l : list A) : k `sublist_of` l -> (length l <= length k)%nat -> k = l.
Proof.
  induction 1 as [|x k l _ IH|x k l Hs _]; cbn; intros Hl; [done|f_equal; apply IH; lia|]. apply sublist_length in Hs. lia.
Qed.
Lemma omap_sublist (k l : list Peer.PeerPath) : k `sublist_of` l -> omap Peer.p k `sublist_of` omap Peer.p l.
Proof. induction 1 as [|e k l _ IH|e k l _ IH]; cbn; [done| |]; (destruct (Peer.p e); [|done]); [by apply sublist_skip|by apply sublist_cons]. Qed.

(** The entries of a part of the table, in use, and one for a path that is not among them. *)
Lemma table_front k l r pr : table_ok n l -> k `sublist_of` l -> (forall e, e ∈ k -> exists q, Peer.p e = Some q /\ q <> r) -> (length k < ZT_MAX_PEER_NETWORK_PATHS)%nat -> (r < n)%nat -> 1 <= pr ->
  table_ok n (k ++ Peer.mkPeerPath now (Some r) pr :: replicate (ZT_MAX_PEER_NETWORK_PATHS - S (length k)) Peer.PeerPath_new).
Proof.
  intros Hok Hs Hk Hlen Hr Hpr. set (e0 := Peer.mkPeerPath now (Some r) pr). set (l' := k ++ _).
  assert (forall i e, l' !! i = Some e -> (k !! i = Some e) \/ (i = length k /\ e = e0) \/ ((length k < i)%nat /\ e = Peer.PeerPath_new)) as Hlook.
  { intros i e Hi. apply lookup_app_Some in Hi as [Hi|[Hge Hi]]; [by left|]. right. destruct (i - length k)%nat as [|j] eqn:Ej; [injection Hi as <-; left; split; [lia|done]|].
    right. apply lookup_replicate in Hi as [-> _]. split; [lia|done]. }
  assert (forall e, e ∈ k -> e ∈ l) as Hin by (intros e; by apply sublist_subseteq).
  split.
  - unfold l'. rewrite length_app. cbn [length]. rewrite length_replicate. lia.
  - intros i j e f Hi Hj Hij Hn. destruct (Hlook i e Hi) as [Hi'|[[-> ->]|[Hgt ->]]]; [apply list_elem_of_lookup_2, Hk in Hi' as (q & ? & _); congruence|done|].
    clear Hn. destruct (Hlook j f Hj) as [Hj'|[[Ej _]|[_ ->]]]; [apply lookup_lt_Some in Hj'; exfalso; lia|exfalso; lia|done].
  - apply once_nodup. unfold l'.
    assert (omap Peer.p (replicate (ZT_MAX_PEER_NETWORK_PATHS - S (length k)) Peer.PeerPath_new) = []) as Er by (generalize (ZT_MAX_PEER_NETWORK_PATHS - S (length k))%nat as m; by induction m).
    rewrite omap_app. cbn [omap list_omap]. change (Peer.p e0) with (Some r). cbn match. rewrite Er. apply list.NoDup_app.
    split; [eapply sublist_NoDup; [apply once_nodup, (tk_once _ _ Hok)|by apply omap_sublist]|].
    split; [|apply NoDup_singleton]. intros x (e & He & Ex)%list_elem_of_omap Hx%list_elem_of_singleton. destruct (Hk e He) as (q & Eq & Hne). congruence.
  - intros i e x Hi Hx. destruct (Hlook i e Hi) as [Hi'|[[_ ->]|[_ ->]]]; [|by injection Hx as <-|done].
    apply list_elem_of_lookup_2, Hin, list_elem_of_lookup in Hi' as [j Hj]. by apply (tk_objs _ _ Hok j e).
  - intros i e Hi. destruct (Hlook i e Hi) as [Hi'|[[_ ->]|[_ ->]]]; [|done|done]. apply list_elem_of_lookup_2, Hin, list_elem_of_lookup in Hi' as [j Hj]. by apply (tk_prio _ _ Hok j e).
Qed.

Lemma priority_of_pos path l : (forall i e, l !! i = Some e -> 1 <= Peer.priority e) -> 1 <= Peer.priority_of path l.
Proof.
  induction l as [|e l IH]; intros Hp; cbn [Peer.priority_of]; [done|]. pose proof (Hp 0%nat e eq_refl). destruct (Peer.p e) as [q|]; [|done]. destruct (_ =? _)%nat; [done|].
  apply IH. intros i f Hi. by apply (Hp (S i)).
Qed.

(** [np] is the path object of the address that the peer is sent to. *)
Lemma redirect_ok o np a remote l : table_ok n l -> st !! np = Some a -> ipsEqual2 (Path._addr a) remote = true ->
  match Peer.redirect st now o np remote l with Ok l' => table_ok n l' | Throw _ => False | Undef => 2 ^ 31 <= Peer.priority_of o l + 2 end.
Proof.
  intros Hok Hnp Hsame. unfold Peer.redirect, Path.int_op. pose proof (priority_of_pos o l (tk_prio _ _ Hok)) as Hpos. case_bool_decide as Hb; cbn [mbind outcome_bind]; [|lia].
  destruct (redirect_kept_spec remote (Peer.priority_of o l + 2) l (tk_objs _ _ Hok)) as (k & -> & Hs & Hk). cbn [mbind outcome_bind]. destruct (Nat.ltb_spec (length k) ZT_MAX_PEER_NETWORK_PATHS) as [Hlt|Hge].
  - eapply table_front; [exact Hok|exact Hs| |done|by eapply lookup_lt_Some|lia]. intros e He. destruct (Hk e He) as (r & b & Er & Eb & Hne). exists r. split; [done|]. intros ->. congruence.
  - assert (k = l) as ->; [|done]. apply sublist_full; [done|]. rewrite (tk_len _ _ Hok). lia.
Qed.

(** ** The choice of a path *)

(** Latencies and clocks with which the arithmetic of [quality] does not overflow. *)
Definition calm (q : Path.Path) : Prop := 0 <= Path._latency q < 2 ^ 27 /\ - 2 ^ 31 <= now - Path._lastIn q.
Definition usable (includeExpired : bool) (l : list Peer.PeerPath) (e : Peer.PeerPath) (r : nat) : Prop :=
  e ∈ l /\ Peer.p e = Some r /\ (includeExpired || Peer.fresh_path now e) = true.

Lemma scope_range s : 0 <= IpScope_int s <= 7.
Proof. destruct s; cbn; lia. Qed.
Lemma s32_small z : - 2 ^ 31 <= z < 2 ^ 31 -> s32 z = z.
Proof. intros Hz. word. Qed.
Lemma quality_calm q : calm q -> exists x, Path.quality q now = Ok x /\ 0 <= x < 2 ^ 31.
Proof.
  intros [Hl Ha]. unfold Path.quality, Path.int_op, ZT_PATH_HEARTBEAT_PERIOD, ZT_INETADDRESS_MAX_SCOPE. pose proof (scope_range (Path._ipScope q)) as Hs.
  rewrite !s32_small by lia. destruct (Z.ltb_spec (Z.min (now - Path._lastIn q) (14000 * 10)) (14000 + 5000)); cbn [mbind outcome_bind].
  - rewrite bool_decide_eq_true_2 by nia. eexists. split; [done|nia].
  - rewrite bool_decide_eq_true_2 by lia. cbn [mbind outcome_bind]. rewrite bool_decide_eq_true_2 by lia. cbn [mbind outcome_bind]. rewrite bool_decide_eq_true_2 by nia.
    eexists. split; [done|nia].
Qed.
Lemma path_quality_calm e r q : 1 <= Peer.priority e -> st !! r = Some q -> calm q -> exists x, Peer.path_quality st now e r = Ok x /\ 0 <= x <= 2147483647.
Proof.
  intros Hp Hq Hc. unfold Peer.path_quality, Peer.obj. rewrite Hq. cbn [mbind outcome_bind]. destruct (quality_calm q Hc) as (x & -> & Hx). cbn [mbind outcome_bind].
  destruct (Z.eqb_spec (Peer.priority e) 0); [lia|]. eexists. split; [done|]. rewrite Z.quot_div_nonneg by lia. split; [by apply Z.div_pos; lia|]. pose proof (Z.div_le_upper_bound x (Peer.priority e) x) as Hd. nia.
Qed.

(** The best of [l] and of what was found before. *)
Lemma best_path_from exp l : forall best bestq,
  (forall e r, e ∈ l -> Peer.p e = Some r -> exists x, Peer.path_quality st now e r = Ok x /\ x <= 2147483647) ->
  (forall i j e f, l !! i = Some e -> l !! j = Some f -> (i <= j)%nat -> Peer.p e = None -> Peer.p f = None) -> bestq <= 2147483647 -> (best = None -> bestq = 2147483647) ->
  exists b, Peer.best_path st now exp l best bestq = Ok b /\
    ((b = best /\ (best <> None -> forall e r x, usable exp l e r -> Peer.path_quality st now e r = Ok x -> bestq <= x) /\ (best = None -> forall e r, ~ usable exp l e r)) \/
     exists e r q, b = Some r /\ usable exp l e r /\ Peer.path_quality st now e r = Ok q /\ q <= bestq /\ forall f r' x, usable exp l f r' -> Peer.path_quality st now f r' = Ok x -> q <= x).
Proof.
  induction l as [|e l IH]; intros best bestq Hq Hf Hb Hnone; cbn [Peer.best_path].
  { exists best. split; [done|]. left. split; [done|]. split; [intros _ e r x (He & _); by apply elem_of_nil in He|intros _ e r (He & _); by apply elem_of_nil in He]. }
  destruct (Peer.p e) as [r|] eqn:Er.
  2: { exists best. split; [done|]. left. split; [done|]. assert (forall f r, ~ usable exp (e :: l) f r) as Hno.
       { intros f r (Hin & Efr & _). apply list_elem_of_lookup in Hin as [j Hj]. rewrite (Hf 0%nat j e f eq_refl Hj ltac:(lia) Er) in Efr. done. }
       split; [intros _ f r x Hu; by apply Hno in Hu|intros _; apply Hno]. }
  assert (forall best bestq, bestq <= 2147483647 -> (best = None -> bestq = 2147483647) -> exists b, Peer.best_path st now exp l best bestq = Ok b /\
    ((b = best /\ (best <> None -> forall e r x, usable exp l e r -> Peer.path_quality st now e r = Ok x -> bestq <= x) /\ (best = None -> forall e r, ~ usable exp l e r)) \/
     exists e r q, b = Some r /\ usable exp l e r /\ Peer.path_quality st now e r = Ok q /\ q <= bestq /\ forall f r' x, usable exp l f r' -> Peer.path_quality st now f r' = Ok x -> q <= x)) as IH'.
  { intros b0 q0 Hb0 Hn0. apply IH; [intros f r' Hin; apply Hq; by right| |done|done]. intros i j f g Hi Hj Hij. apply (Hf (S i) (S j) f g Hi Hj ltac:(lia)). }
  clear IH. assert (forall f r', usable exp (e :: l) f r' <-> (f = e /\ r' = r /\ (exp || Peer.fresh_path now e) = true) \/ usable exp l f r') as Hu.
  { intros f r'. unfold usable. rewrite elem_of_cons. split; [|intros [(-> & -> & Hx)|(Hin & Hp & Hx)]; [split; [by left|done]|split; [by right|done]]].
    intros ([->|Hin] & Hp & Hx); [left; split; [done|]; split; [congruence|done]|right; done]. }
  destruct (Hq e r ltac:(by left) Er) as (x & Ex & Hx).
  destruct (exp || Peer.fresh_path now e) eqn:Efr; [rewrite Ex; cbn [mbind outcome_bind]; destruct (Z.leb_spec x bestq) as [Hle|Hgt]|].
  - destruct (IH' (Some r) x Hx ltac:(done)) as (b & Eb & [(-> & Hall & _)|(f & r' & q & -> & Huf & Ef & Hqx & Hall)]); (eexists; split; [exact Eb|]); right.
    + exists e, r, x. split; [done|]. split; [apply Hu; by left|]. split; [done|]. split; [done|]. intros f r' y [(-> & -> & _)|Huf]%Hu Ey; [rewrite Ex in Ey; injection Ey as <-; lia|].
      by apply (Hall ltac:(done) f r' y).
    + exists f, r', q. split; [done|]. split; [apply Hu; by right|]. split; [done|]. split; [lia|]. intros g r'' y [(-> & -> & _)|Hug]%Hu Ey; [rewrite Ex in Ey; injection Ey as <-; lia|].
      by apply (Hall g r'' y).
  - destruct (IH' best bestq Hb Hnone) as (b & Eb & [(-> & Hall & Hno)|(f & r' & q & -> & Huf & Ef & Hqx & Hall)]); (eexists; split; [exact Eb|]).
    + left. split; [done|]. split; [|intros Hn; specialize (Hnone Hn); lia]. intros Hn f r' y [(-> & -> & _)|Huf]%Hu Ey; [rewrite Ex in Ey; injection Ey as <-; lia|]. by apply (Hall Hn f r' y).
    + right. exists f, r', q. split; [done|]. split; [apply Hu; by right|]. split; [done|]. split; [done|]. intros g r'' y [(-> & -> & _)|Hug]%Hu Ey; [rewrite Ex in Ey; injection Ey as <-; lia|].
      by apply (Hall g r'' y).
  - destruct (IH' best bestq Hb Hnone) as (b & Eb & [(-> & Hall & Hno)|(f & r' & q & -> & Huf & Ef & Hqx & Hall)]); (eexists; split; [exact Eb|]).
    + left. split; [done|]. split; [intros Hn f r' y [(_ & _ & ?)|Huf]%Hu Ey; [done|]; by apply (Hall Hn f r' y)|]. intros Hn f r' [(_ & _ & ?)|Huf]%Hu; [done|]. by apply (Hno Hn f r').
    + right. exists f, r', q. split; [done|]. split; [apply Hu; by right|]. split; [done|]. split; [done|]. intros g r'' y [(_ & _ & ?)|Hug]%Hu Ey; [done|]. by apply (Hall g r'' y).
Qed.

(** C40. Which path is used for a peer. With a table in its form and paths whose latencies and clocks are sane, [getAppropriatePath] returns; it returns no path
    only if no path of the table may be used, that is, all have expired (or, with [includeExpired], there are none); otherwise it is a path of the table that may be
    used, and none that may be used has a better quality for its priority. *)
Theorem best_path_chosen x includeExpired : table_ok n (Peer._paths x) -> (forall r q, r ∈ Peer.paths x -> st !! r = Some q -> calm q) ->
  exists b, Peer.getAppropriatePath st now x includeExpired = Ok b /\
  match b with
  | None => forall e r, ~ usable includeExpired (Peer._paths x) e r
  | Some r => exists e q, usable includeExpired (Peer._paths x) e r /\ Peer.path_quality st now e r = Ok q /\
      forall f r' q', usable includeExpired (Peer._paths x) f r' -> Peer.path_quality st now f r' = Ok q' -> q <= q'
  end.
Proof.
  intros Hok Hcalm. assert (forall l e r, (forall i j e f, l !! i = Some e -> l !! j = Some f -> (i <= j)%nat -> Peer.p e = None -> Peer.p f = None) -> e ∈ l -> Peer.p e = Some r -> (r, e) ∈ Peer.used l) as Hused.
  { induction l as [|g l IH]; intros e r Hf Hin Hp; [by apply elem_of_nil in Hin|]. cbn. destruct (Peer.p g) as [q|] eqn:Eg.
    - apply elem_of_cons in Hin as [->|Hin]; [rewrite Eg in Hp; injection Hp as ->; by left|]. right. apply IH; [|done|done]. intros i j a b Hi Hj Hij. apply (Hf (S i) (S j)); [done|done|lia].
    - apply list_elem_of_lookup in Hin as [j Hj]. rewrite (Hf 0%nat j g e eq_refl Hj ltac:(lia) Eg) in Hp. done. }
  unfold Peer.getAppropriatePath.
  destruct (best_path_from includeExpired (Peer._paths x) None 2147483647) as (b & Eb & Hb); [|apply (tk_front _ _ Hok)|lia|done|].
  - intros e r Hin Hp. pose proof (Hused _ e r (tk_front _ _ Hok) Hin Hp) as Hr. apply list_elem_of_lookup in Hin as [i Hi].
    destruct (lookup_lt_is_Some_2 st r (tk_objs _ _ Hok i e r Hi Hp)) as [q Hq]. destruct (path_quality_calm e r q (tk_prio _ _ Hok i e Hi) Hq) as (y & Ey & Hy); [|exists y; split; [done|lia]].
    apply (Hcalm r); [|done]. unfold Peer.paths. apply list_elem_of_fmap. by exists (r, e).
  - exists b. split; [done|]. destruct Hb as [(-> & _ & Hno)|(e & r & q & -> & Hu & Eq & _ & Hall)]; [by apply Hno|]. by exists e, q.
Qed.
End Paths.

(** ** Witness *)

(** Two paths of a peer, the one slower than the other. *)
Definition toy_path (ip latency : Z) : Path.Path := Path.updateLatency (Path.received (Path.Path_new 1 (IV4 ip 9993)) 5000) latency.
Definition toy_paths : list Path.Path := [toy_path 0x08080801 400; toy_path 0x08080802 30].
Definition toy_table : list Peer.PeerPath := <[1%nat := Peer.mkPeerPath 5000 (Some 1%nat) 1]> (<[0%nat := Peer.mkPeerPath 5000 (Some 0%nat) 1]> (replicate ZT_MAX_PEER_NETWORK_PATHS Peer.PeerPath_new)).
Definition toy_peer : Peer.Peer := Peer.mkPeer (mkIdentity 2 [] None) [] ([], []) (Peer.mkTimes 0 0 0 0 0 0 0 0 0 0) (Peer.mkVersion 0 0 0 0) [] toy_table 0.

Lemma free_entry j f : replicate ZT_MAX_PEER_NETWORK_PATHS Peer.PeerPath_new !! j = Some f -> Peer.p f = None.
Proof. intros Hj. by apply lookup_replicate in Hj as [-> _]. Qed.
Lemma toy_table_ok : table_ok 2 toy_table.
Proof.
  unfold toy_table. apply table_set.
  - apply table_set; [apply table_new|by_compute|done|]. cbv beta iota delta [Peer.p]. split; [lia|]. split; [|intros j f Hj; lia]. intros j f Hj%free_entry Hf. change (Peer.p f = Some 0%nat) in Hf. congruence.
  - by_compute.
  - done.
  - cbv beta iota delta [Peer.p]. split; [lia|]. split.
    + intros j f Hj Hf. destruct j as [|j]; [injection Hj as <-; discriminate Hf|]. rewrite list_lookup_insert_ne in Hj by lia. apply free_entry in Hj. change (Peer.p f = Some 1%nat) in Hf. congruence.
    + intros [|j] f Hj Hf; [injection Hf as <-; done|lia].
Qed.

Lemma best_path_chosen_witness : Peer.getAppropriatePath toy_paths 6000 toy_peer false = Ok (Some 1%nat) /\
  forall q', Peer.path_quality toy_paths 6000 (Peer.mkPeerPath 5000 (Some 0%nat) 1) 0 = Ok q' -> exists q, Peer.path_quality toy_paths 6000 (Peer.mkPeerPath 5000 (Some 1%nat) 1) 1 = Ok q /\ q <= q'.
Proof.
  destruct (best_path_chosen toy_paths 6000 toy_peer false) as (b & E & Hb).
  - exact toy_table_ok.
  - intros r q Hr Hq. change (Peer.paths toy_peer) with [0%nat; 1%nat] in Hr.
    apply elem_of_cons in Hr as [-> |Hr]; [injection Hq as <-; split; by_compute|]. apply list_elem_of_singleton in Hr as ->. injection Hq as <-. split; by_compute.
  - assert (Peer.getAppropriatePath toy_paths 6000 toy_peer false = Ok (Some 1%nat)) as E1 by (vm_compute; reflexivity).
    split; [exact E1|]. rewrite E1 in E. injection E as <-. destruct Hb as (e & q & (He & Hp & _) & Eq & Hall). intros q' Eq'. exists q.
    assert (e = Peer.mkPeerPath 5000 (Some 1%nat) 1) as ->.
    { apply list_elem_of_lookup in He as [j Hj]. destruct j as [|[|j]]; [injection Hj as <-; discriminate Hp|by injection Hj as <-|].
      unfold toy_peer, Peer._paths, toy_table in Hj. rewrite !list_lookup_insert_ne in Hj by lia. apply free_entry in Hj. congruence. }
    split; [exact Eq|]. apply (Hall (Peer.mkPeerPath 5000 (Some 0%nat) 1) 0%nat q'); [|exact Eq'].
    split; [apply list_elem_of_lookup; exists 0%nat; reflexivity|]. split; [reflexivity|]. vm_compute. reflexivity.
Defined.
