(* ===== verification/SelfAwareness.v ===== *)
(** * What others say this node's addresses are (node/SelfAwareness.cpp)

    Peers report the physical address they see. When a trusted one reports a change, the paths of all peers in that scope are tried again. Of the hash table the
    entries are modelled, in the order they came. *)

From S2P Require Import Prelude Buffer Serial Address InetAddress Identity Packet Table Network NetworkConfig Runtime World Path Peer Net.

Definition ZT_SELFAWARENESS_ENTRY_TIMEOUT : Z := 600000.

Section SelfAwareness.
Context `{Setup} `{PacketSource} `{PacketCrypto} `{Crypto} `{Agreement}.

Fixpoint phy_get (k : PhySurfaceKey) (l : list (PhySurfaceKey * PhySurfaceEntry)) : PhySurfaceEntry :=
  match l with [] => mkPhySurfaceEntry INil 0 false | (j, e) :: l => if bool_decide (j = k) then e else phy_get k l end.
Fixpoint phy_set (k : PhySurfaceKey) (e : PhySurfaceEntry) (l : list (PhySurfaceKey * PhySurfaceEntry)) : list (PhySurfaceKey * PhySurfaceEntry) :=
  match l with [] => [(k, e)] | (j, d) :: l => if bool_decide (j = k) then (k, e) :: l else (j, d) :: phy_set k e l end.
(** After a change of the address: entries of the scope from other addresses go. *)
Definition phy_others (address : InetAddress) (scope : IpScope) (l : list (PhySurfaceKey * PhySurfaceEntry)) : list (PhySurfaceKey * PhySurfaceEntry) :=
  filter (fun ke => negb (negb (InetAddress.eqb (reporterPhysicalAddress ke.1) address) && bool_decide (key_scope ke.1 = scope)) = true) l.

Definition scope_counts (mine theirs : IpScope) : bool :=
  bool_decide (mine = theirs) && negb (bool_decide (mine ∈ [IP_SCOPE_NONE; IP_SCOPE_LOOPBACK; IP_SCOPE_MULTICAST])).
Definition iam (now reporter_address receivedOnLocalSocket : Z) (reporterAddress myPhysicalAddress : InetAddress) (is_trusted : bool) : net () :=
  let scope := ipScope myPhysicalAddress in
  if negb (scope_counts scope (ipScope reporterAddress)) then mret ()
  else
    let k := mkPhySurfaceKey reporter_address receivedOnLocalSocket reporterAddress scope in
    phy ← nget _phy;
    let e := phy_get k phy in
    let phy' := phy_set k (mkPhySurfaceEntry myPhysicalAddress now is_trusted) phy in
    if is_trusted && (u64 (now - surface_ts e) <? ZT_SELFAWARENESS_ENTRY_TIMEOUT) && negb (ipsEqual (mySurface e) myPhysicalAddress) then
      _ ← nput (fun s => set_phy s (phy_others reporterAddress scope phy'));
      ps ← topo _peers;
      neach (map_to_list ps) (fun ax => resetWithinScope now ax.1 scope (AF myPhysicalAddress))
    else nput (fun s => set_phy s phy').

Definition clean (now : Z) : net () := nput (fun s => set_phy s (filter (fun ke => (u64 (now - surface_ts ke.2) <? ZT_SELFAWARENESS_ENTRY_TIMEOUT) = true) (_phy s))).
End SelfAwareness.
