(* ===== verification/PeersInv.v ===== *)
(** * The invariant of peers and paths (node/Peer.cpp, node/Topology.cpp)

    Whatever peers are asked to do, their tables of paths keep their form, and the index finds the paths that have an address. *)

From stdpp Require Import sorting.
From S2P Require Import Prelude Buffer Serial Address InetAddress Identity Packet Table Network NetworkConfig Runtime World Path Peer Net Topology PeerTable SelfAwareness.
Import Packet.

(** ** The key of a path tells addresses apart *)

(** Sockets and addresses as they occur: small numbers and -1; an IPv6 address has a port. *)
Definition socket_ok (l : Z) : Prop := l = -1 \/ 0 <= l < 2 ^ 32.
Definition addr_ok (a : InetAddress) : Prop := ip_ok a /\ match a with INil => False | IV4 _ _ => True | IV6 _ p _ _ => p <> 0 end.

Lemma le_int_inj bs bs' : bytes_ok bs -> bytes_ok bs' -> length bs = length bs' -> Path.le_int bs = Path.le_int bs' -> bs = bs'.
Proof.
  intros Hb Hb' Hl E. unfold Path.le_int in E. rewrite <- (rev_involutive bs), <- (rev_involutive bs'). f_equal.
  assert (bytes_ok (rev bs) /\ bytes_ok (rev bs')) as [H1 H2] by (split; by apply Forall_rev).
  rewrite <- (be_bytes_be_int (rev bs) H1), <- (be_bytes_be_int (rev bs') H2), E. f_equal. by rewrite !length_rev.
Qed.
Lemma swapBytes_range n v : 0 <= swapBytes n v < 2 ^ (8 * Z.of_nat n).
Proof.
  unfold swapBytes. pose proof (be_int_range (rev (be_bytes n v))) as Hr. assert (zlen (rev (be_bytes n v)) = Z.of_nat n) as El by (unfold zlen; by rewrite length_rev, length_be_bytes).
  rewrite El in Hr. apply Hr. apply Forall_rev. apply bytes_ok_be_bytes.
Qed.
Lemma swapBytes_inj n v w : 0 <= v < 2 ^ (8 * Z.of_nat n) -> 0 <= w < 2 ^ (8 * Z.of_nat n) -> swapBytes n v = swapBytes n w -> v = w.
Proof.
  intros Hv Hw E. change (Path.le_int (be_bytes n v) = Path.le_int (be_bytes n w)) in E. apply le_int_inj in E; [|apply bytes_ok_be_bytes|apply bytes_ok_be_bytes|by rewrite !length_be_bytes].
  by apply be_bytes_inj in E.
Qed.

Lemma xor_port p l q m : 0 <= p < 2 ^ 16 -> 0 <= q < 2 ^ 16 -> socket_ok l -> socket_ok m -> Z.lxor (Z.shiftl p 32) (u64 l) = Z.lxor (Z.shiftl q 32) (u64 m) -> p = q /\ l = m.
Proof.
  intros Hp Hq Hl Hm E.
  assert (forall x y i, 0 <= i < 32 -> Z.testbit (Z.lxor (Z.shiftl x 32) y) i = Z.testbit y i) as Hlow.
  { intros x y i Hi. rewrite Z.lxor_spec, Z.shiftl_spec by lia. rewrite (Z.testbit_neg_r x) by lia. by destruct (Z.testbit y i). }
  assert (forall x y, 0 <= x < 2 ^ 16 -> Z.testbit (Z.lxor (Z.shiftl x 32) y) 63 = Z.testbit y 63) as Hhigh.
  { intros x y Hx. rewrite Z.lxor_spec, Z.shiftl_spec by lia. assert (Z.testbit x (63 - 32) = false) as ->; [|by destruct (Z.testbit y 63)].
    destruct (decide (x = 0)) as [->|]; [apply Z.bits_0|]. apply Z.bits_above_log2; [lia|]. apply Z.lt_le_trans with 16; [apply Z.log2_lt_pow2; lia|lia]. }
  assert (u64 l mod 2 ^ 32 = u64 m mod 2 ^ 32) as Elow.
  { apply Z.bits_inj'. intros i Hi. destruct (Z.lt_ge_cases i 32); [|by rewrite !Z.mod_pow2_bits_high by lia]. rewrite !Z.mod_pow2_bits_low by lia.
    rewrite <- (Hlow p (u64 l)), <- (Hlow q (u64 m)), E by lia. done. }
  assert (Z.testbit (u64 l) 63 = Z.testbit (u64 m) 63) as Ehigh by (rewrite <- (Hhigh p (u64 l)), <- (Hhigh q (u64 m)), E by done; done).
  assert (forall y, 0 <= y < 2 ^ 32 -> Z.testbit (u64 y) 63 = false) as Hpos.
  { intros y Hy. rewrite u64_small by lia. destruct (decide (y = 0)) as [->|]; [apply Z.bits_0|]. apply Z.bits_above_log2; [lia|]. apply Z.lt_le_trans with 32; [apply Z.log2_lt_pow2; lia|lia]. }
  assert (l = m) as ->.
  { destruct Hl as [->|Hl], Hm as [->|Hm]; [done|rewrite (Hpos m Hm) in Ehigh; by vm_compute in Ehigh|rewrite (Hpos l Hl) in Ehigh; by vm_compute in Ehigh|].
    rewrite !u64_small, !Z.mod_small in Elow by lia. done. }
  split; [|done]. assert (Z.shiftl p 32 = Z.shiftl q 32) as E2.
  { apply (f_equal (fun z => Z.lxor z (u64 m))) in E. by rewrite !Z.lxor_assoc, Z.lxor_nilpotent, !Z.lxor_0_r in E. }
  rewrite !Z.shiftl_mul_pow2 in E2 by lia. lia.
Qed.

(** Paths that have the same key have the same socket and IP address and port. *)
Lemma hash_key_inj l r m s : socket_ok l -> socket_ok m -> addr_ok r -> addr_ok s -> Path.hash_key l r = Path.hash_key m s ->
  l = m /\ match r, s with IV4 ip p, IV4 ip' p' => ip = ip' /\ p = p' | IV6 ip p _ _, IV6 ip' p' _ _ => ip = ip' /\ p = p' | _, _ => False end.
Proof.
  intros Hl Hm [Hr Hrp] [Hs Hsp] E.
  assert (forall p l m, 0 <= p < 2 ^ 16 -> p <> 0 -> socket_ok l -> socket_ok m -> u64 l <> Z.lxor (Z.shiftl (swapBytes 2 p) 32) (u64 m)) as Hne.
  { intros p a b Hp Hp0 Ha Hb Ex. pose proof (swapBytes_range 2 p) as Hsw. change (8 * Z.of_nat 2) with 16 in Hsw.
    destruct (xor_port 0 a (swapBytes 2 p) b) as [E0 _]; [lia|done|done|done|by rewrite Z.shiftl_0_l, Z.lxor_0_l|]. apply Hp0. apply (swapBytes_inj 2); [done|done|]. rewrite <- E0. done. }
  destruct r as [|ip p|ip p f1 c1], s as [|ip' p'|ip' p' f2 c2]; try done; cbn in Hr, Hs, E.
  - injection E as Ei Ep El. destruct (xor_port 0 l 0 m) as [_ ->]; [lia|lia|done|done|by rewrite El|]. split; [done|]. split; [apply (swapBytes_inj 4); [apply Hr|apply Hs|done]|apply (swapBytes_inj 2); [apply Hr|apply Hs|done]].
  - exfalso. injection E as _ _ El. destruct Hs as (_ & _ & Hpp & _). by apply (Hne p' l m).
  - exfalso. injection E as _ _ El. destruct Hr as (_ & _ & Hpp & _). by apply (Hne p m l).
  - injection E as E1 E2 El. pose proof (swapBytes_range 2 p) as H1'. pose proof (swapBytes_range 2 p') as H2'. change (8 * Z.of_nat 2) with 16 in *.
    destruct (xor_port (swapBytes 2 p) l (swapBytes 2 p') m) as [Ep ->]; [done|done|done|done|done|]. split; [done|]. destruct Hr as (Hb & Hlen & Hpp & _), Hs as (Hb' & Hlen' & Hpp' & _).
    split; [|apply (swapBytes_inj 2); [exact Hpp|exact Hpp'|done]]. rewrite <- (take_drop 8 ip), <- (take_drop 8 ip'). f_equal.
    + apply le_int_inj; [by apply Forall_take|by apply Forall_take|rewrite !length_take; lia|done].
    + apply le_int_inj; [by apply Forall_drop|by apply Forall_drop|rewrite !length_drop; lia|done].
Qed.

(** Without a port it is different: two addresses, one path. *)
Example hash_key_collision : Path.hash_key 3 (IV4 0x20010db8 0x2709) = Path.hash_key 3 (IV6 ([0x20; 0x01; 0x0d; 0xb8; 0; 0; 0; 0; 0x27; 0x09] ++ replicate 6 0) 0 0 0).
Proof. reflexivity. Qed.

(** ** The invariant *)

Section Invariant.
Context `{Setup} `{PacketSource} `{PacketCrypto} `{Crypto} `{Agreement}.

(** The peer at [a] has the address [a] and the keys agreed with its identity. *)
Definition filed (a : Z) (x : Peer.Peer) : Prop :=
  Peer.peer_address x = a /\ agree myIdentity (Peer._id x) = Some (Peer._key x) /\ Peer._aesKeys x = Peer.aes_keys (Peer._key x).
(** [T a n l]: what holds of the table [l] of the peer at [a], with [n] path objects. *)
Record net_ok (T : Z -> nat -> list Peer.PeerPath -> Prop) (s : Net) : Prop := {
  no_tables a x : _peers (topology s) !! a = Some x -> T a (length (objects (topology s))) (Peer._paths x);
  no_filed a x : _peers (topology s) !! a = Some x -> filed a x;
  no_index k i : _pathIndex (topology s) !! k = Some i -> exists q, objects (topology s) !! i = Some q /\ Path.hash_key (Path._localSocket q) (Path._addr q) = k;
  no_paths i q : objects (topology s) !! i = Some q -> socket_ok (Path._localSocket q) /\ addr_ok (Path._addr q) }.
Definition peers_ok : Net -> Prop := net_ok (fun _ => table_ok).
Definition growing (T : Z -> nat -> list Peer.PeerPath -> Prop) : Prop := forall a n m l, (n <= m)%nat -> T a n l -> T a m l.

(** The path objects stay, and so do their addresses. *)
Definition later (st st' : list Path.Path) : Prop :=
  forall i q, st !! i = Some q -> exists q', st' !! i = Some q' /\ Path._localSocket q' = Path._localSocket q /\ Path._addr q' = Path._addr q.
Lemma later_refl st : later st st.
Proof. intros i q Hi. by exists q. Qed.
Lemma later_trans a b c : later a b -> later b c -> later a c.
Proof. intros H1' H2' i q Hi. destruct (H1' i q Hi) as (q1 & Hq1 & <- & <-). by apply H2'. Qed.
Lemma later_length st st' : later st st' -> (length st <= length st')%nat.
Proof. intros Hl. destruct (Nat.le_gt_cases (length st) (length st')); [done|]. destruct (lookup_lt_is_Some_2 st (length st')) as [q Hq]; [done|]. destruct (Hl _ _ Hq) as (q' & Hq' & _). apply lookup_lt_Some in Hq'. lia. Qed.

(** However [m] ends, the invariant holds and the path objects are there. [n] of them were there before. *)
Definition kept (T : Z -> nat -> list Peer.PeerPath -> Prop) (n : nat) {A} (m : net A) : Prop := forall s, net_ok T s -> (n <= length (objects (topology s)))%nat ->
  match m s with Done s' _ | Threw s' _ => net_ok T s' /\ later (objects (topology s)) (objects (topology s')) | Undefined => True end.

Section Rules.
Context (T : Z -> nat -> list Peer.PeerPath -> Prop) (HT : growing T).

Lemma kept_more n m A (k : net A) : (n <= m)%nat -> kept T n k -> kept T m k.
Proof. intros Hm Hk s Hs Hl. apply Hk; [done|lia]. Qed.
Lemma kept_bind n A B (m : net A) (k : A -> net B) : kept T n m -> (forall a, kept T n (k a)) -> kept T n (m ≫= k).
Proof.
  intros Hm Hk s Hs Hl. unfold mbind, net_bind. specialize (Hm s Hs Hl). destruct (m s) as [s1 a|s1 e|]; [|done|done]. destruct Hm as [H1' H2']. specialize (Hk a s1 H1' ltac:(apply later_length in H2'; lia)).
  destruct (k a s1); [destruct Hk; split; [done|by eapply later_trans]..|done].
Qed.
Lemma kept_same n A (m : net A) : (forall s, match m s with Done s' _ | Threw s' _ => topology s' = topology s | Undefined => True end) -> kept T n m.
Proof.
  intros Hm s Hs Hl. specialize (Hm s). assert (forall s', topology s' = topology s -> net_ok T s' /\ later (objects (topology s)) (objects (topology s'))) as Hsame.
  { intros s' E. destruct Hs as [H1' Hfil H2' H3']. split; [|rewrite E; apply later_refl]. by split; rewrite E. }
  destruct (m s); [by apply Hsame|by apply Hsame|done].
Qed.
Lemma kept_ret n A (a : A) : kept T n (mret a).
Proof. by apply kept_same. Qed.
Lemma kept_lift n A (m : outcome A) : kept T n (nlift m).
Proof. apply kept_same. intros s. by destruct m. Qed.
Lemma kept_get n A (f : Net -> A) : kept T n (nget f).
Proof. by apply kept_same. Qed.
Lemma kept_node n A (m : handler (gmap Z) A) : kept T n (on_node m).
Proof. apply kept_same. intros s. unfold on_node. by destruct (m (node s)). Qed.
Lemma kept_put_packet n l a d t : kept T n (putPacket l a d t).
Proof. by apply kept_same. Qed.
Lemma kept_made n f : kept T n (nput (fun s => set_made s (f s))).
Proof. by apply kept_same. Qed.
Lemma kept_store n o d : kept T n (store o d).
Proof. by apply kept_same. Qed.
Lemma kept_when n (c : bool) m : kept T n m -> kept T n (nwhen c m).
Proof. intros Hm. destruct c; [done|apply kept_ret]. Qed.
Lemma kept_if n (c : bool) A (m k : net A) : kept T n m -> kept T n k -> kept T n (if c then m else k).
Proof. by destruct c. Qed.
Lemma kept_try n A (m k : net A) : kept T n m -> kept T n k -> kept T n (ntry m k).
Proof.
  intros Hm Hk s Hs Hl. unfold ntry. specialize (Hm s Hs Hl). destruct (m s) as [|s1 e|]; [done| |done]. destruct Hm as [H1' H2']. specialize (Hk s1 H1' ltac:(apply later_length in H2'; lia)).
  destruct (k s1); [destruct Hk; split; [done|by eapply later_trans]..|done].
Qed.
Lemma kept_each n X (l : list X) f : (forall x, kept T n (f x)) -> kept T n (neach l f).
Proof. intros Hf. induction l as [|x l IH]; cbn [neach]; [apply kept_ret|by apply kept_bind]. Qed.

(** What is read of the state, and what that says. *)
Lemma kept_peer n A a (k : Peer.Peer -> net A) : (forall m x, (n <= m)%nat -> filed a x -> T a m (Peer._paths x) -> kept T m (k x)) -> kept T n (the_peer a ≫= k).
Proof.
  intros Hk s Hs Hl. unfold mbind, net_bind, the_peer. destruct (_peers (topology s) !! a) as [x|] eqn:E; [|done]. by apply (Hk _ x Hl (no_filed _ _ Hs a x E) (no_tables _ _ Hs a x E)).
Qed.
Lemma kept_path n A r (k : Path.Path -> net A) : (forall m q, (n <= m)%nat -> (r < m)%nat -> socket_ok (Path._localSocket q) -> addr_ok (Path._addr q) -> kept T m (k q)) -> kept T n (the_path r ≫= k).
Proof.
  intros Hk s Hs Hl. unfold mbind, net_bind, the_path. destruct (objects (topology s) !! r) as [q|] eqn:E; [|done]. destruct (no_paths _ _ Hs r q E). pose proof (lookup_lt_Some _ _ _ E).
  by apply (Hk (length (objects (topology s))) q).
Qed.
Lemma kept_objects n A (k : list Path.Path -> net A) : (forall st, (n <= length st)%nat -> kept T (length st) (k st)) -> kept T n (topo objects ≫= k).
Proof. intros Hk s Hs Hl. by apply (Hk (objects (topology s)) Hl s Hs). Qed.

Lemma kept_put_peer n a x : filed a x -> T a n (Peer._paths x) -> kept T n (put_peer a x).
Proof.
  intros Hfx Hx s Hs Hl. destruct Hs as [H1' Hfil H2' H3']. unfold put_peer, update_topo, nput. split; [|apply later_refl]. split; [| |done|done]; cbn; intros b y; (destruct (decide (a = b)) as [->|]; [rewrite lookup_insert_eq; intros [= <-]|rewrite lookup_insert_ne by done]).
  - by eapply HT.
  - apply H1'.
  - done.
  - apply Hfil.
Qed.
Lemma kept_update_peer n a f : (forall m x, (n <= m)%nat -> filed a x -> T a m (Peer._paths x) -> filed a (f x) /\ T a m (Peer._paths (f x))) -> kept T n (update_peer a f).
Proof. intros Hf. apply kept_peer. intros m x Hm Hx Hp. destruct (Hf m x Hm Hx Hp). by apply kept_put_peer. Qed.
Lemma kept_gate n a f : (forall x, filed a x -> filed a (f x).1 /\ Peer._paths (f x).1 = Peer._paths x) -> kept T n (gate_peer a f).
Proof.
  intros Hf. apply kept_peer. intros m x _ Hx Hp. destruct (Hf x Hx) as [Hy Ey]. destruct (f x) as [y b]. cbn in Hy, Ey. apply kept_bind; [apply kept_put_peer; [done|by rewrite Ey]|]. intros _. apply kept_ret.
Qed.
Lemma kept_update_path n r f : (forall q, Path._localSocket (f q) = Path._localSocket q /\ Path._addr (f q) = Path._addr q) -> kept T n (update_path r f).
Proof.
  intros Hf s Hs Hl. destruct Hs as [H1' Hfil H2' H3']. unfold update_path, update_topo, nput. cbn. split.
  2: { intros i q Hi. destruct (decide (r = i)) as [->|]; [exists (f q); by rewrite list_lookup_alter_eq, Hi|exists q; by rewrite list_lookup_alter_ne]. }
  assert (forall i q, alter f r (objects (topology s)) !! i = Some q -> exists q0, objects (topology s) !! i = Some q0 /\ Path._localSocket q = Path._localSocket q0 /\ Path._addr q = Path._addr q0) as Hlook.
  { intros i q Hi. destruct (decide (r = i)) as [->|]; [rewrite list_lookup_alter_eq in Hi|rewrite list_lookup_alter_ne in Hi by done; by exists q].
    destruct (objects (topology s) !! i) as [q0|]; [|done]. injection Hi as <-. exists q0. split; [done|apply Hf]. }
  split; cbn.
  - intros a x Hx. rewrite length_alter. by apply H1'.
  - done.
  - intros k i Hk. destruct (H2' k i Hk) as (q & Hq & <-). destruct (decide (r = i)) as [->|]; [|exists q; by rewrite list_lookup_alter_ne].
    exists (f q). rewrite list_lookup_alter_eq, Hq. split; [done|]. destruct (Hf q) as [-> ->]. done.
  - intros i q Hi. destruct (Hlook i q Hi) as (q0 & Hq0 & -> & ->). by apply (H3' i).
Qed.

(** The path object that [getPath] delivers has the address. *)
Lemma kept_getPath n A l r (k : nat -> net A) : socket_ok l -> addr_ok r ->
  (forall s i q, net_ok T s -> (n <= length (objects (topology s)))%nat -> objects (topology s) !! i = Some q -> Path.hash_key (Path._localSocket q) (Path._addr q) = Path.hash_key l r ->
     match k i s with Done s' _ | Threw s' _ => net_ok T s' /\ later (objects (topology s)) (objects (topology s')) | Undefined => True end) ->
  kept T n (getPath l r ≫= k).
Proof.
  intros Hsock Haddr Hk s Hs Hl. unfold mbind, net_bind, getPath. destruct (_pathIndex (topology s) !! Path.hash_key l r) as [i|] eqn:E.
  - destruct (no_index _ _ Hs _ _ E) as (q & Hq & Eq). by apply (Hk s i q).
  - set (t' := set_index _ _). set (s1 := set_topology s t'). assert (objects (topology s1) = objects (topology s) ++ [Path.Path_new l r]) as Eo by done.
    assert (net_ok T s1) as Hs1.
    { destruct Hs as [H1' Hfil H2' H3']. split; rewrite ?Eo.
      - intros a x Hx. eapply HT; [|by apply (H1' a)]. rewrite length_app. lia.
      - done.
      - intros k0 i. cbn. destruct (decide (Path.hash_key l r = k0)) as [<-|]; [rewrite lookup_insert_eq; intros [= <-]; eexists; rewrite lookup_app_r, Nat.sub_diag by lia; done|].
        rewrite lookup_insert_ne by done. intros Hk0. destruct (H2' k0 i Hk0) as (q & Hq & Eq). exists q. by rewrite lookup_app_l by (by eapply lookup_lt_Some).
      - intros i q [Hi|[_ Hi]]%lookup_app_Some; [by apply (H3' i)|]. apply list_lookup_singleton_Some in Hi as [_ <-]. done. }
    specialize (Hk s1 (length (objects (topology s))) (Path.Path_new l r) Hs1). rewrite Eo in Hk. rewrite length_app in Hk. cbn [length] in Hk.
    specialize (Hk ltac:(lia) ltac:(by rewrite lookup_app_r, Nat.sub_diag by lia) eq_refl). assert (later (objects (topology s)) (objects (topology s1))) as Hls by (intros j q Hj; exists q; rewrite Eo; by rewrite lookup_app_l by (by eapply lookup_lt_Some)).
    rewrite <- Eo in Hk. destruct (k _ s1); [destruct Hk; split; [done|by eapply later_trans]..|done].
Qed.
End Rules.

(** ** The methods of peers *)

Create HintDb kept discriminated.
#[local] Hint Resolve kept_ret kept_lift kept_get kept_node kept_put_packet kept_made kept_store : kept.
(** [kept_steps]: a method keeps the invariant when its steps do. *)
Ltac kept_steps :=
  repeat match goal with
  | |- kept _ _ (the_path _ ≫= _) => apply kept_path; intros ? ? ? ? ? ?
  | |- kept _ _ (the_peer _ ≫= _) => apply kept_peer; intros ? ? ? ? ?
  | |- kept _ _ (_ ≫= _) => apply kept_bind; [|intros ?]
  | |- kept _ _ (nwhen _ _) => apply kept_when
  | |- kept _ _ (ntry _ _) => apply kept_try
  | |- kept _ _ (if _ then _ else _) => apply kept_if
  | |- kept _ _ (update_path _ _) => apply kept_update_path; intros ?; done
  | |- kept _ _ (let '(_, _) := ?x in _) => destruct x
  | |- kept _ _ (match ?x with _ => _ end) => destruct x
  | |- kept _ _ _ => solve [eauto with kept]
  end.

Section Methods.
Context (now : Z) (T : Z -> nat -> list Peer.PeerPath -> Prop) (HT : growing T).

Lemma kept_send_on n r d : kept T n (send_on now r d).
Proof. unfold send_on. kept_steps. Qed.
Lemma kept_make n a v : kept T n (make_packet a v).
Proof. unfold make_packet. kept_steps. Qed.
Lemma kept_arm n b k e x aes i : kept T n (arm b k e x aes i).
Proof. unfold arm. kept_steps. Qed.
Lemma kept_arm_for n x b : kept T n (arm_for x b).
Proof. apply kept_arm. Qed.
Lemma kept_expect n b : kept T n (expect b).
Proof. unfold expect. kept_steps. Qed.
#[local] Hint Resolve kept_send_on kept_make kept_arm kept_arm_for kept_expect : kept.
Lemma kept_sendHELLO n x l a : kept T n (sendHELLO now x l a).
Proof. unfold sendHELLO. kept_steps. Qed.
#[local] Hint Resolve kept_sendHELLO : kept.
Lemma kept_attempt n x l a full : kept T n (attemptToContactAt now x l a full).
Proof. unfold attemptToContactAt. cbv zeta. kept_steps. Qed.
#[local] Hint Resolve kept_attempt : kept.
Lemma kept_memorized n a : kept T n (tryMemorizedPath now a).
Proof.
  unfold tryMemorizedPath. apply kept_peer. intros m x _ Hx Hp. apply kept_if; [|auto with kept]. cbv zeta. apply kept_bind; [by apply kept_put_peer|]. intros _. kept_steps.
Qed.
Lemma kept_shouldUse n a l i : kept T n (shouldUsePathForZeroTierTraffic a l i).
Proof. unfold shouldUsePathForZeroTierTraffic, topo. kept_steps. Qed.
Lemma kept_push n x r l : forall fuel, kept T n (push_paths now fuel x r l).
Proof.
  intros fuel. revert l. induction fuel as [|fuel IH]; intros [|a l]; cbn [push_paths]; [auto with kept..|]. kept_steps.
Qed.
Lemma kept_rendezvous n x y v r : kept T n (rendezvous now x y v r).
Proof. unfold rendezvous. kept_steps. Qed.
Lemma kept_introduce n a b : kept T n (introduce now a b).
Proof.
  unfold introduce, topo. apply kept_peer. intros m x _ _ _. apply kept_peer. intros m' y _ _ _. destruct (a =? b); [by apply kept_same|].
  kept_steps; apply kept_rendezvous.
Qed.
End Methods.
#[local] Hint Resolve kept_send_on kept_make kept_arm kept_arm_for kept_expect kept_sendHELLO kept_attempt kept_shouldUse kept_push : kept.

Abbreviation tables := (fun _ : Z => table_ok).
Lemma tables_grow : growing tables.
Proof. intros a n m l. apply table_more. Qed.
#[local] Hint Resolve tables_grow : kept.

Lemma kept_direct now n a path v : (path < n)%nat -> kept tables n (direct_packet now a path v).
Proof.
  intros Hp. unfold direct_packet. apply kept_peer. intros m x Hm Hfx Hx. apply kept_objects. intros st Hst. set (k := length st) in *.
  assert (table_ok k (Peer._paths x)) as Hok by (eapply table_more; [|exact Hx]; lia). assert (path < k)%nat as Hpk by lia.
  destruct (find_ok st now path (Peer._paths x) Hok Hpk) as (i & b & E & Hi & Hb). rewrite E. unfold nlift at 1.
  change (kept tables k ((_ ← match i with Some i => put_peer a (Peer.set_paths x (Peer.touch now (Peer._paths x) i)) | None => mret () end;
    if (b : bool) then mret () else
      q ← the_path path; use ← shouldUsePathForZeroTierTraffic (Peer.peer_address x) (Path._localSocket q) (Path._addr q);
      if (use : bool) then if v =? VERB_OK then l ← nlift (Peer.learn st now path (Peer._paths x)); put_peer a (Peer.set_paths x l) else confirm_path now a path else mret ()))).
  apply kept_bind; [destruct i; [apply kept_put_peer; [apply tables_grow|exact Hfx|by apply table_retimed]|auto with kept]|]. intros _.
  destruct b; [auto with kept|]. apply kept_path. intros m' q Hm' Hpm' _ _. apply kept_bind; [apply kept_shouldUse|]. intros use. destruct use; [|auto with kept].
  destruct (v =? VERB_OK).
  - destruct (learn_ok st now path (Peer._paths x) Hok Hpk (Hb eq_refl)) as (l & -> & Hl). change (kept tables m' (put_peer a (Peer.set_paths x l))).
    apply kept_put_peer; [apply tables_grow|exact Hfx|]. eapply table_more; [|exact Hl]. lia.
  - unfold confirm_path. apply kept_peer. intros m2 y _ Hfy Hy. apply kept_path. intros m3 q' Hm3 _ _ _. cbv zeta. assert (table_ok m3 (Peer._paths y)) as Hy3 by (eapply table_more; [|exact Hy]; lia).
    case_bool_decide; [by apply kept_put_peer; [apply tables_grow|..]|]. apply kept_bind; [by apply kept_put_peer; [apply tables_grow|..]|]. intros _. kept_steps.
Qed.

Lemma kept_received now n a path hops v trust : (path < n)%nat -> kept tables n (received now a path hops v trust).
Proof.
  intros Hp. unfold received. apply kept_bind; [apply kept_update_peer; [apply tables_grow|]; intros m x _ Hfx Hx; cbv zeta; by destruct (nontrivial v), trust|]. intros _.
  apply kept_bind; [kept_steps|]. intros _. apply kept_bind; [apply kept_when; by apply kept_direct|]. intros _.
  apply kept_peer. intros m x _ Hfx Hx. apply kept_when. apply kept_bind; [by apply kept_put_peer; [apply tables_grow|..]|]. intros _. kept_steps.
Qed.


(** What an operation does after it has made a path, when it is not one of the steps. *)
Lemma memcmp_same l : memcmp l l = 0.
Proof. induction l as [|x l IH]; [done|]. cbn. by rewrite Z.eqb_refl. Qed.
Lemma kept_redirect now n a path remote : addr_ok remote -> kept tables n (clusterRedirect now a path remote).
Proof.
  intros Hr. unfold clusterRedirect. apply kept_path. intros m o Hm Ho Hs Ha. apply kept_getPath; [apply tables_grow|done|done|]. intros s i q Hok Hl Hi Hkey.
  assert (ipsEqual2 (Path._addr q) remote = true) as Hsame.
  { destruct (no_paths _ _ Hok i q Hi) as [Hqs Hqa]. destruct (hash_key_inj _ _ _ _ Hqs Hs Hqa Hr Hkey) as [_ Heq]. unfold ipsEqual2.
    destruct (Path._addr q), remote; try done; destruct Heq as [-> ->]; [apply Z.eqb_refl|by rewrite memcmp_same]. }
  unfold mbind at 1, net_bind at 1, the_peer. destruct (_peers (topology s) !! a) as [x|] eqn:Ex; [|done]. pose proof (no_tables _ _ Hok _ _ Ex) as Hx. pose proof (no_filed _ _ Hok _ _ Ex) as Hfx.
  unfold mbind at 1, net_bind at 1. pose proof (kept_attempt now tables m x (Path._localSocket o) remote true s Hok Hl) as Hat. destruct (attemptToContactAt now x _ remote true s) as [s1 []|s1 e|]; [|done|done].
  destruct Hat as [Hok1 Hl1]. destruct (Hl1 _ _ Hi) as (q1 & Hq1 & _ & Eaddr). unfold mbind at 1, net_bind at 1, topo, nget.
  pose proof (redirect_ok (objects (topology s1)) now path i q1 remote (Peer._paths x)) as Hre. unfold mbind at 1, net_bind at 1, nlift.
  assert (table_ok (length (objects (topology s1))) (Peer._paths x)) as Hx1 by (eapply table_more; [by apply later_length|done]). rewrite <- Eaddr in Hsame. specialize (Hre Hx1 Hq1 Hsame).
  destruct (Peer.redirect _ _ _ _ _ _) as [l|e|]; [|done|done].
  pose proof (kept_update_peer tables tables_grow (length (objects (topology s1))) a (fun x => Peer.set_paths x l)) as Hup.
  assert (forall m x, (length (objects (topology s1)) <= m)%nat -> filed a x -> table_ok m (Peer._paths x) -> filed a (Peer.set_paths x l) /\ table_ok m l) as Hf; [intros m' y Hm' Hfy _; split; [done|by eapply table_more]|].
  specialize (Hup Hf s1 Hok1 ltac:(done)). destruct (update_peer a _ s1); [destruct Hup; split; [done|by eapply later_trans]..|done].
Qed.

Lemma kept_reset_entry now n a scope family i r : kept tables n (reset_entry now a scope family i r).
Proof.
  unfold reset_entry. apply kept_path. intros m q _ _ _ _. apply kept_if; [|auto with kept]. apply kept_peer. intros k x _ _ _. apply kept_bind; [auto with kept|]. intros _.
  apply kept_bind; [by apply kept_update_path|]. intros _. apply kept_update_peer; [apply tables_grow|]. intros k' y _ Hfy Hy. split; [done|by apply table_retimed].
Qed.
Lemma kept_reset now n a scope family : kept tables n (resetWithinScope now a scope family).
Proof. unfold resetWithinScope. apply kept_peer. intros m x _ _ _. cbv zeta. apply kept_each. intros ir. apply kept_reset_entry. Qed.

Lemma kept_phy n f : kept tables n (nput (fun s => set_phy s (f s))).
Proof. by apply kept_same. Qed.
Lemma kept_iam now n a l r mine t : kept tables n (iam now a l r mine t).
Proof.
  unfold iam, topo. cbv zeta. apply kept_if; [auto with kept|]. apply kept_bind; [auto with kept|]. intros phy. apply kept_if; [|apply kept_phy].
  apply kept_bind; [apply kept_phy|]. intros _. apply kept_bind; [auto with kept|]. intros ps. apply kept_each. intros ax. apply kept_reset.
Qed.

(** ** Keeping alive: entry by entry *)

(** Of the peer at [a] the first [i] entries are clean. *)
Definition cleaning (a : Z) (i : nat) (b : Z) (n : nat) (l : list Peer.PeerPath) : Prop := if decide (b = a) then cleaned n i l else table_ok n l.
Lemma cleaning_grow a i : growing (cleaning a i).
Proof. intros b n m l Hm. unfold cleaning. destruct (decide (b = a)); [by apply cleaned_grow|by apply table_more]. Qed.
Lemma peers_cleaning s a : peers_ok s -> net_ok (cleaning a 0) s.
Proof. intros [H1' H2' H3' H4']. split; [|done..]. intros b x Hx. unfold cleaning. destruct (decide (b = a)); [apply table_cleaned_0|]; by eapply H1'. Qed.
Lemma cleaning_peers s a : net_ok (cleaning a ZT_MAX_PEER_NETWORK_PATHS) s -> peers_ok s.
Proof. intros [H1' H2' H3' H4']. split; [|done..]. intros b x Hx. specialize (H1' b x Hx). unfold cleaning in H1'. destruct (decide (b = a)); [by apply table_cleaned|done]. Qed.

(** As [kept], with the entries that are clean before and after. *)
Definition cleans (a : Z) (i j : nat) {A} (m : net A) : Prop := forall s, net_ok (cleaning a i) s ->
  match m s with
  | Done s' _ => net_ok (cleaning a j) s' /\ later (objects (topology s)) (objects (topology s'))
  | Threw s' _ => exists k, net_ok (cleaning a k) s' /\ later (objects (topology s)) (objects (topology s'))
  | Undefined => True
  end.
Lemma cleans_kept a i A (m : net A) : kept (cleaning a i) 0 m -> cleans a i i m.
Proof. intros Hm s Hs. specialize (Hm s Hs ltac:(lia)). destruct (m s); [done|by exists i|done]. Qed.
Lemma cleans_bind a i j k A B (m : net A) (f : A -> net B) : cleans a i j m -> (forall x, cleans a j k (f x)) -> cleans a i k (m ≫= f).
Proof.
  intros Hm Hf s Hs. unfold mbind, net_bind. specialize (Hm s Hs). destruct (m s) as [s1 x|s1 e|]; [|done..]. destruct Hm as [Hs1 Hl]. specialize (Hf x s1 Hs1).
  destruct (f x s1); [destruct Hf as [Hs2 Hl2]; split; [done|by eapply later_trans]|destruct Hf as (k' & Hs2 & Hl2); exists k'; split; [done|by eapply later_trans]|done].
Qed.

Lemma cleans_entry now a full m i : (i < ZT_MAX_PEER_NETWORK_PATHS)%nat -> cleans a i (S i) (ping_entry now a full m i).
Proof.
  intros Hi. unfold ping_entry. pose proof (cleaning_grow a i) as HT.
  apply (cleans_bind a i i); [apply cleans_kept; intros s Hs _; unfold the_peer; destruct (_peers (topology s) !! a); [split; [done|apply later_refl]|done]|]. intros x.
  apply (cleans_bind a i i).
  { apply cleans_kept. kept_steps. }
  intros sent. apply (cleans_bind a i (S i)); [|intros _; apply cleans_kept; apply kept_ret]. intros s Hs. unfold update_peer, mbind, net_bind, the_peer. destruct (_peers (topology s) !! a) as [y|] eqn:Ey; [|done].
  unfold put_peer, update_topo, nput. split; [|apply later_refl]. pose proof (no_tables _ _ Hs a y Ey) as Hy. unfold cleaning in Hy. rewrite decide_True in Hy by done.
  destruct Hs as [H1' Hfil H3' H4']. split; [| |done|done]; cbn; intros b z; (destruct (decide (a = b)) as [<-|]; [rewrite lookup_insert_eq; intros [= <-]|rewrite lookup_insert_ne by done]).
  - unfold cleaning. rewrite decide_True by done. by apply cleaned_entry.
  - intros Hz. specialize (H1' b z Hz). unfold cleaning in *. by rewrite decide_False in H1' |- * by done.
  - by apply (Hfil a y).
  - apply Hfil.
Qed.
Lemma cleans_entries now a full m : forall n i, (i + n = ZT_MAX_PEER_NETWORK_PATHS)%nat -> cleans a i ZT_MAX_PEER_NETWORK_PATHS (ping_entries now a full m n i).
Proof.
  induction n as [|n IH]; intros i Hi; cbn [ping_entries].
  - replace i with ZT_MAX_PEER_NETWORK_PATHS by lia. apply cleans_kept, kept_ret.
  - apply (cleans_bind a i (S i)); [apply cleans_entry; lia|]. intros s1. apply (cleans_bind a (S i) ZT_MAX_PEER_NETWORK_PATHS); [apply IH; lia|]. intros s2. apply cleans_kept, kept_ret.
Qed.
Lemma cleans_ping now a : cleans a 0 ZT_MAX_PEER_NETWORK_PATHS (doPingAndKeepalive now a).
Proof.
  unfold doPingAndKeepalive. intros s Hs. unfold mbind at 1, net_bind at 1, the_peer. destruct (_peers (topology s) !! a) as [x|] eqn:Ex; [|done]. cbv zeta.
  pose proof (no_tables _ _ Hs a x Ex) as Hx. pose proof (no_filed _ _ Hs a x Ex) as Hfx.
  assert (kept (cleaning a 0) (length (objects (topology s))) (nwhen (ZT_PEER_PING_PERIOD <=? now - Peer._lastSentFullHello (Peer.times x)) (put_peer a (Peer.set_hello x now)))) as Hk.
  { apply kept_when. by apply kept_put_peer; [apply cleaning_grow|..]. }
  unfold mbind at 1, net_bind at 1. specialize (Hk s Hs ltac:(done)). destruct (nwhen _ _ s) as [s1 []|s1 e|]; [|by exists 0%nat|done]. destruct Hk as [Hs1 Hl].
  pose proof (cleans_entries now a (ZT_PEER_PING_PERIOD <=? now - Peer._lastSentFullHello (Peer.times x)) (Peer.max_priority (Peer._paths x) 0) ZT_MAX_PEER_NETWORK_PATHS 0 eq_refl s1 Hs1) as Hc.
  destruct (ping_entries _ _ _ _ _ _ s1); [destruct Hc as [Hc Hl2]; split; [done|by eapply later_trans]|destruct Hc as (k & Hc & Hl2); exists k; split; [done|by eapply later_trans]|done].
Qed.

(** ** The topology *)

Section TopologySteps.
Context (T : Z -> nat -> list Peer.PeerPath -> Prop) (HT : growing T).

(** [yields P m]: what [m] returns satisfies [P]. *)
Definition yields {A} (P : A -> Prop) (m : net A) : Prop := forall s s' a, m s = Done s' a -> P a.
Lemma yields_bind A B P (m : net A) (k : A -> net B) : (forall a, yields P (k a)) -> yields P (m ≫= k).
Proof. intros Hk s s' b. unfold mbind, net_bind. destruct (m s) as [s1 a|s1 e|]; [apply Hk|done..]. Qed.
Lemma yields_lift A B P (m : outcome A) (k : A -> net B) : (forall a, m = Ok a -> yields P (k a)) -> yields P (nlift m ≫= k).
Proof. intros Hk s s' b. unfold mbind, net_bind, nlift. destruct m as [a|e|]; [by apply Hk|done..]. Qed.
Lemma yields_ret A P (a : A) : P a -> yields P (mret a).
Proof. intros Ha s s' b [= _ <-]. done. Qed.
Lemma yields_if A P (c : bool) (m k : net A) : yields P m -> yields P k -> yields P (if c then m else k).
Proof. by destruct c. Qed.
Lemma yields_try A P (m k : net A) : yields P m -> yields P k -> yields P (ntry m k).
Proof. intros Hm Hk s s' a. unfold ntry. destruct (m s) as [s1 x|s1 e|] eqn:E; [intros [= <- <-]; by eapply Hm|apply Hk|done]. Qed.
Lemma kept_yields n A B P (m : net A) (k : A -> net B) : kept T n m -> yields P m -> (forall a, P a -> kept T n (k a)) -> kept T n (m ≫= k).
Proof.
  intros Hm Hy Hk s Hs Hl. unfold mbind, net_bind. specialize (Hm s Hs Hl). specialize (Hy s). destruct (m s) as [s1 a|s1 e|]; [|done|done]. destruct Hm as [H1' H2'].
  specialize (Hk a (Hy s1 a eq_refl) s1 H1' ltac:(apply later_length in H2'; lia)). destruct (k a s1); [destruct Hk; split; [done|by eapply later_trans]..|done].
Qed.
Lemma yields_any A (m : outcome A) : yields (fun a => m = Ok a) (nlift m).
Proof. intros s s' a. unfold nlift. by destruct m; intros [= _ <-]. Qed.

(** What does not concern peers and paths. *)
Lemma kept_topo n f : (forall t, _peers (f t) = _peers t /\ objects (f t) = objects t /\ _pathIndex (f t) = _pathIndex t) -> kept T n (update_topo f).
Proof.
  intros Hf s Hs Hl. destruct (Hf (topology s)) as (E1 & E2 & E3). destruct Hs as [H1' Hfil H2' H3']. unfold update_topo, nput. cbn. split; [|rewrite E2; apply later_refl].
  split; cbn; rewrite ?E1, ?E2, ?E3; done.
Qed.
(** Forgotten: peers, and paths in the index. *)
Lemma kept_forget n a : kept T n (update_topo (fun t => set_peers t (delete a (_peers t)))).
Proof.
  intros s Hs Hl. destruct Hs as [H1' Hfil H2' H3']. split; [|apply later_refl]. split; [| |done|done]; cbn; intros b x [_ Hb]%lookup_delete_Some; [by apply H1'|by apply Hfil].
Qed.
Lemma kept_unindex n (P : Topology -> Path.HashKey * nat -> Prop) `{!forall t x, Decision (P t x)} : kept T n (update_topo (fun t => set_index t (filter (P t) (_pathIndex t)))).
Proof.
  intros s Hs Hl. destruct Hs as [H1' Hfil H2' H3']. split; [|apply later_refl]. split; [done|done| |done]. cbn. intros k i [Hk _]%map_lookup_filter_Some. by apply H2'.
Qed.

Lemma new_filed a id x : Peer.Peer_new myIdentity id = Ok x -> address id = a -> filed a x /\ Peer._paths x = replicate ZT_MAX_PEER_NETWORK_PATHS Peer.PeerPath_new.
Proof. unfold Peer.Peer_new. destruct (agree myIdentity id) as [k|] eqn:E; [|done]. intros [= <-] Ha. done. Qed.
End TopologySteps.

Lemma kept_memoize_root n r : kept tables n (memoize_root r).
Proof.
  unfold memoize_root. cbv zeta. apply kept_if; [by apply kept_topo|]. apply kept_bind; [apply kept_get|]. intros t. apply kept_if; [auto with kept|].
  apply kept_bind; [by apply kept_topo|]. intros _. destruct (_peers t !! _); [auto with kept|].
  apply (kept_yields _ _ _ _ _ _ _ (kept_lift _ _ _ _) (yields_any _ _)). intros x Hx. apply new_filed with (a := address (World.identity r)) in Hx as [Hf Hp]; [|done].
  apply kept_put_peer; [apply tables_grow|done|]. rewrite Hp. apply table_new.
Qed.
Lemma kept_memoize n : kept tables n _memoizeUpstreams.
Proof.
  unfold _memoizeUpstreams. apply kept_bind; [by apply kept_topo|]. intros _. apply kept_bind; [apply kept_get|]. intros t.
  apply kept_bind; [apply kept_each; intros r; apply kept_memoize_root|]. intros _. by apply kept_topo.
Qed.
Lemma kept_addWorld n w always : kept tables n (addWorld w always).
Proof.
  unfold addWorld. intros s Hs Hl. unfold mbind at 1, net_bind at 1, nget. unfold mbind at 1, net_bind at 1, nlift.
  assert (forall r, place_world (topology s) w always = Ok r -> match r with Some t' => exists p m d, t' = set_worlds (topology s) p m d | None => True end) as Hplace.
  { intros r. unfold place_world. destruct (World._type w); [by intros [= <-]| |].
    - destruct (World.shouldBeReplacedBy _ _) as [[]|e|]; cbn; intros [= <-]; [by eexists _, _, _|done].
    - destruct (moon_index _ _ _) as [[i m]|]; [destruct (World.shouldBeReplacedBy _ _) as [[]|e|]; cbn; intros [= <-]; [by eexists _, _, _|done]|].
      destruct always; [intros [= <-]; by eexists _, _, _|]. destruct (seed_of _ _ _); intros [= <-]; [by eexists _, _, _|done]. }
  destruct (place_world (topology s) w always) as [[t'|]|e|]; [|by split; [|apply later_refl]|by split; [|apply later_refl]|done].
  destruct (Hplace _ eq_refl) as (p & m & d & ->).
  assert (net_ok tables (set_topology s (set_worlds (topology s) p m d))) as Hs1 by (destruct Hs; by split).
  assert (kept tables n (_ ← store_world w; _ ← _memoizeUpstreams; mret true)) as Hk.
  { unfold store_world. kept_steps. apply kept_memoize. }
  apply (Hk _ Hs1 Hl).
Qed.
#[local] Hint Resolve kept_memoize kept_addWorld : kept.
Lemma kept_removeMoon n id : kept tables n (removeMoon id).
Proof.
  unfold removeMoon. apply kept_bind; [apply kept_get|]. intros t. apply kept_bind; [apply kept_each; intros m; apply kept_store|]. intros _.
  apply kept_bind; [by apply kept_topo|]. intros _. apply kept_memoize.
Qed.
Lemma kept_addMoon n id seed : kept tables n (addMoon id seed).
Proof.
  unfold addMoon. cbv zeta.
  destruct (stateObjectGet (MoonObject id)) as [d|]; kept_steps; by apply kept_topo.
Qed.

Section Host.
Context (peerStateSize : Z).
(** What the host has stored as a peer is about that peer. *)
Definition host_faithful : Prop := forall a d b id k, stateObjectGet (PeerObject a) = Some d -> filled peerStateSize d = Ok b -> identity_deserialize b 1 = Ok (id, k) -> address id = a.

Lemma kept_try_paths n now m x b : forall p, kept tables n (try_paths now m x b p).
Proof. induction m as [|m IH]; intros p; cbn [try_paths]; [auto with kept|]. kept_steps. Qed.
Lemma kept_getPeer n now a : host_faithful -> kept tables n (getPeer peerStateSize now a).
Proof.
  intros Hh. unfold getPeer, topo. apply kept_if; [auto with kept|]. apply kept_bind; [auto with kept|]. intros k. apply kept_if; [auto with kept|].
  destruct (stateObjectGet (PeerObject a)) as [d|] eqn:Ed; [|auto with kept]. apply kept_if; [|auto with kept]. apply kept_try; [|auto with kept].
  apply (kept_yields _ _ _ _ _ _ _ (kept_lift _ _ _ _) (yields_any _ _)). intros b Hb.
  apply (kept_yields _ _ _ _ (fun o => match o with Some x => filed a x /\ table_ok 0 (Peer._paths x) | None => True end)).
  - unfold deserializeFromCache, read_cached. pose proof kept_try_paths. cbv zeta. kept_steps.
  - unfold deserializeFromCache, read_cached. apply yields_try; [|by apply yields_ret]. apply yields_bind. intros v. apply yields_if; [by apply yields_ret|].
    apply yields_lift. intros [id j] Hid. cbv zeta. apply yields_if; [by apply yields_ret|]. apply yields_lift. intros x Hx. apply yields_bind. intros vp. apply yields_bind. intros va. apply yields_bind. intros vi.
    apply yields_bind. intros vr. apply yields_bind. intros m. apply yields_bind. intros _. apply yields_ret. apply new_filed with (a := a) in Hx as [Hf Hp]; [|by eapply Hh]. split; [done|]. cbn. rewrite Hp. apply table_new.
  - intros o Ho. apply kept_bind; [|auto with kept]. destruct o as [x|]; [|auto with kept]. destruct Ho. apply kept_put_peer; [apply tables_grow|done|]. eapply table_more; [|done]. lia.
Qed.
Lemma kept_periodic n now held : kept tables n (doPeriodicTasks peerStateSize now held).
Proof.
  unfold doPeriodicTasks. apply kept_bind; [auto with kept|]. intros t. apply kept_bind; [|intros _; by apply kept_unindex].
  apply kept_each. intros ax. apply kept_if; [|auto with kept]. unfold _savePeer, topo. kept_steps. apply kept_forget.
Qed.
End Host.

(** ** Whatever happens *)

(** What peers are asked to do. A packet comes from an address, over a socket. *)
Inductive PeerOp :=
  | Receive (a l : Z) (r : InetAddress) (hops v : Z) (trust : bool) | Ping (a : Z) | Redirected (a l : Z) (r to : InetAddress) | ResetScope (a : Z) (scope : IpScope) (family : Z)
  | Introduced (a b : Z) | Memorized (a : Z) | Meet (id : Identity) | Lookup (a : Z) | NewWorld (w : World.World) | JoinMoon (id seed : Z) | LeaveMoon (id : Z) | Tidy (held : list nat)
  | Informed (reporter l : Z) (r mine : InetAddress) (trusted : bool).

Section Ops.
Context (peerStateSize now : Z).
Definition ignore {A} (m : net A) : net () := _ ← m; mret ().
Definition run_peer_op (o : PeerOp) : net () :=
  match o with
  | Receive a l r hops v trust => path ← getPath l r; received now a path hops v trust
  | Ping a => ignore (doPingAndKeepalive now a)
  | Redirected a l r to => path ← getPath l r; clusterRedirect now a path to
  | ResetScope a scope family => resetWithinScope now a scope family
  | Introduced a b => introduce now a b
  | Memorized a => tryMemorizedPath now a
  | Meet id => x ← nlift (Peer.Peer_new myIdentity id); ignore (addPeer x)
  | Lookup a => ignore (getPeer peerStateSize now a)
  | NewWorld w => ignore (addWorld w false)
  | JoinMoon id seed => addMoon id seed
  | LeaveMoon id => removeMoon id
  | Tidy held => doPeriodicTasks peerStateSize now held
  | Informed a l r mine t => iam now a l r mine t
  end.
Definition op_addresses_ok (o : PeerOp) : Prop :=
  match o with Receive _ l r _ _ _ => socket_ok l /\ addr_ok r | Redirected _ l r to => socket_ok l /\ addr_ok r /\ addr_ok to | _ => True end.

Lemma kept_op o : host_faithful peerStateSize -> op_addresses_ok o -> match o with Ping _ => True | _ => kept tables 0 (run_peer_op o) end.
Proof.
  intros Hh Ho. destruct o; cbn [run_peer_op]; try done.
  - destruct Ho. apply kept_getPath; [apply tables_grow|done|done|]. intros s i q Hs _ Hi _. apply (kept_received now (length (objects (topology s)))); [by eapply lookup_lt_Some|done|done].
  - destruct Ho as (Hl & Hr & Hto). apply kept_getPath; [apply tables_grow|done|done|]. intros s i q Hs _ Hi _. apply (kept_redirect now (length (objects (topology s)))); done.
  - apply kept_reset.
  - apply kept_introduce.
  - apply kept_memorized. apply tables_grow.
  - apply (kept_yields _ _ _ _ _ _ _ (kept_lift _ _ _ _) (yields_any _ _)). intros x Hx. unfold ignore, addPeer, topo. cbv zeta.
    apply new_filed with (a := address id) in Hx as Hf; [|done]. destruct Hf as [Hf Hp]. apply kept_bind; [|auto with kept]. apply kept_bind; [auto with kept|]. intros k. apply kept_if; [auto with kept|].
    apply kept_bind; [|auto with kept]. apply kept_put_peer; [apply tables_grow| |rewrite Hp; apply table_new]. destruct Hf as (_ & Hf). done.
  - apply kept_bind; [by apply kept_getPeer|auto with kept].
  - apply kept_bind; [apply kept_addWorld|auto with kept].
  - apply kept_addMoon.
  - apply kept_removeMoon.
  - apply kept_periodic.
  - apply kept_iam.
Qed.
End Ops.

(** The operations one after the other, each at its time. An exception is swallowed where packets are handled; in the periodic tasks, where peers are pinged, it is
    fatal: nothing follows. *)
Fixpoint run_peer_ops (peerStateSize : Z) (ops : list (Z * PeerOp)) (s : Net) : option Net :=
  match ops with
  | [] => Some s
  | (now, o) :: ops =>
      match run_peer_op peerStateSize now o s, o with
      | Done s' _, _ => run_peer_ops peerStateSize ops s'
      | Threw _ _, Ping _ | Threw _ _, Tidy _ | Undefined, _ => None
      | Threw s' _, _ => run_peer_ops peerStateSize ops s'
      end
  end.

(** C38. The peers stay in order. However packets arrive from and are sent to peers, whichever peers are met, looked up, pinged, introduced to each other, moved to
    another address, reset and forgotten, and whichever worlds come and go: every peer is filed under the address of its identity and has the keys that were agreed with
    that identity, its table of paths has its entries in use in front, no path twice and positive priorities, every path it refers to exists, and the index
    finds for a key a path with this key. *)
Theorem peers_invariant peerStateSize ops s : peers_ok s -> host_faithful peerStateSize -> Forall (fun o => op_addresses_ok o.2) ops ->
  match run_peer_ops peerStateSize ops s with Some s' => peers_ok s' | None => True end.
Proof.
  intros Hs Hh Hops. revert s Hs. induction Hops as [|[now o] ops Ho _ IH]; intros s Hs; cbn [run_peer_ops]; [done|]. pose proof (kept_op peerStateSize now o Hh Ho) as Hk.
  destruct o; try (specialize (Hk s Hs ltac:(lia)); destruct (run_peer_op _ _ _ s); [apply IH, Hk|first [exact I|apply IH, Hk]|exact I]).
  clear Hk. cbn [run_peer_op]. unfold ignore, mbind, net_bind. pose proof (cleans_ping now a s (peers_cleaning s a Hs)) as Hc. destruct (doPingAndKeepalive now a s); [|exact I|exact I].
  apply IH. by eapply cleaning_peers, Hc.
Qed.
End Invariant.

(** ** Witnesses *)

Section Toy.
#[local] Existing Instance toy_crypto.
#[local] Instance toy_peers_node : Setup := toy_setup toy_me.
Definition toy_id (a : Z) : Identity := mkIdentity a (toy_key 7) None.
Definition toy_at (n : Z) : InetAddress := IV4 (0x08080800 + n) 9993.

Definition toy_peer_ops : list (Z * PeerOp) := [
  (1000, Meet (toy_id 2)); (1000, Meet (toy_id 3)); (1001, Receive 2 1 (toy_at 1) 0 VERB_OK false); (1002, Receive 3 1 (toy_at 2) 0 VERB_OK true);
  (1003, Receive 2 1 (toy_at 3) 0 VERB_OK false); (1004, Introduced 2 3); (70000, Ping 2); (70001, Redirected 2 1 (toy_at 1) (toy_at 4)); (70002, Ping 2); (300000, Ping 3); (900000, Tidy [])].
Definition after_ops (n : nat) : option Net := run_peer_ops 1000 (take n toy_peer_ops) (Net_new Topology_empty).
Definition peer_paths (s : option Net) : list (Z * list nat) := match s with Some s => prod_map id Peer.paths <$> map_to_list (_peers (topology s)) | None => [] end.

Lemma peers_ok_new t : _peers t = ∅ -> _pathIndex t = ∅ -> objects t = [] -> peers_ok (Net_new t).
Proof. intros E1 E2 E3. split; cbn; rewrite ?E1, ?E2, ?E3; done. Qed.

Lemma toy_socket : socket_ok 1.
Proof. right. by_compute. Qed.
Lemma toy_addr n : 0 <= n < 100 -> addr_ok (toy_at n).
Proof. intros Hn. split; [|exact I]. split; [unfold rng; lia|by_compute]. Qed.

(** Two peers are met and heard from, introduced, one of them is moved; after a while nothing is left of them. *)
Example toy_peers_run : peer_paths (after_ops 6) = [(3, [1%nat]); (2, [0%nat; 2%nat])] /\ peer_paths (after_ops 9) = [(3, [1%nat]); (2, [3%nat])] /\
  option_map (fun s => length (wire s)) (after_ops 9) = Some 6%nat /\ peer_paths (after_ops 11) = [].
Proof. vm_compute. auto. Qed.

Lemma peers_invariant_witness : exists s, after_ops 9 = Some s /\ peers_ok s /\ option_map Peer.paths (_peers (topology s) !! 2) = Some [3%nat].
Proof.
  assert (match after_ops 9 with Some s => peers_ok s | None => True end) as Hok.
  { apply (peers_invariant 1000 (take 9 toy_peer_ops) (Net_new Topology_empty)).
    - by apply peers_ok_new.
    - intros a d b id k E. discriminate E.
    - unfold toy_peer_ops. cbn [take]. repeat (apply list.Forall_cons_2; [first [exact I|split; [exact toy_socket|first [apply toy_addr; by_compute|split; apply toy_addr; by_compute]]]|]). apply list.Forall_nil_2. }
  assert (match after_ops 9 with Some s => option_map Peer.paths (_peers (topology s) !! 2) = Some [3%nat] | None => False end) as Hp by (vm_compute; reflexivity).
  destruct (after_ops 9) as [s|]; [|destruct Hp]. exists s. split; [reflexivity|]. split; [exact Hok|exact Hp].
Defined.

(** A peer is introduced to itself - a packet to relay names the same node as its source and destination: the lock of its table is taken twice, and the thread waits for ever. *)
Lemma introduce_self now a x s : _peers (topology s) !! a = Some x -> introduce now a a s = Undefined.
Proof. intros E. unfold introduce, mbind, net_bind, the_peer. rewrite !E, Z.eqb_refl. reflexivity. Qed.
End Toy.
